(* ===== verification/_CoqProject ===== *)
-Q . S2P
Prelude.v
Params.v
StringC.v
Spinlock.v
ProcState.v
Rsdl.v
RsdlSpec.v
Scheduler.v
SchedRefine.v
SchedInv.v
SchedLoop.v
Proc.v
ProcFacts.v
ProcSafe.v
Fork.v
Exit.v
Trap.v
TrapSafe.v
System.v
Boot.v
Sample.v
KernelProps.v
Ulib.v
Grep.v
Sh.v
Comp.v
SysState.v
Words.v
Solo.v
Sleeplock.v
Bio.v
Log.v
Crash.v
Fs.v
FsTx.v
FsBlocks.v
FsFile.v
FsIo.v
FsCall.v
Kalloc.v
Pipe.v
File.v
FileFacts.v
Vm.v
VmFacts.v
VmSpace.v
VmCopy.v
Umalloc.v
UserProgs.v
Console.v
ConsoleFacts.v
Sysfile.v
Exec.v
ExecFacts.v
SysfileFacts.v
Ide.v
IdeFacts.v
Mkfs.v
MkfsFacts.v
Irq.v
IrqFacts.v
Bootmain.v
