(* ===== verification/Prelude.v ===== *)
(** * A verification of xv6 with the RSDL scheduler

    The program is a teaching kernel for 32-bit x86, xv6, whose scheduler is replaced by
    RSDL (Rotating Staircase Deadline), together with its user library and shell.  This
    library models it as executable definitions, translated function by function from
    the C code, and proves theorems about them.

    ** How code becomes definitions

    A C function is a definition in the monad [M S A] of this file: from a state [S] it
    returns a value and a state ([Ret]), or ends in one of the ways C code can: [Panic]
    with the message, [Fault] (a null or out of range dereference), [Spin] (an
    [acquire] that waits for ever), [Halt] (a service reports that it panicked),
    [Switch] ([swtch] gave the CPU away; the rest of the code is kept as a
    continuation) and [Fuel].  [Fuel] only marks that a loop of the model was not given
    enough rounds; the theorems about code that returns show that it does not happen,
    for the fuel each states.  Integers are [Z] with their wrap-around written out
    ([u32], [i32], [i16]).  Pointers into kernel tables are indices, [NULL] is [None];
    addresses of memory are numbers, and memory is a function from addresses to bytes.
    Buffers that only carry bytes in or out of a call are lists.  A constant that the C
    code defines as a macro is a definition of the same name.

    ** The parts of the program and the files that model them

    Shared: [Prelude] (monad, integers, lists, the rules for loops), [Params] (param.h,
    rsdl.h, memlayout.h, mmu.h, traps.h), [Words] (words in blocks and in memory).

    The process kernel:
    - [StringC]: string.c.
    - [Spinlock]: spinlock.c, the CPU structure and [mycpu]; in [Smp] the lock as a step
      relation of several CPUs.
    - [ProcState]: proc.h and the globals of proc.c and trap.c; the classes [Platform]
      and [Services] are the interface to memory, devices and file system.
    - [Rsdl], [Scheduler], [Proc]: proc.c (queues; [scheduler]; processes) with
      [switchuvm] and [switchkvm] of vm.c.
    - [Trap]: trap.c, syscall.c, sysproc.c.  [Boot]: [main] up to the scheduler.
    - [RsdlSpec] is the policy on mathematical queues; [SchedRefine] the simulation;
      [SchedInv], [SchedLoop], [ProcFacts], [ProcSafe], [Fork], [Exit], [TrapSafe] carry
      the invariant through every function.
    - [System] is the running kernel as a state machine: the scheduler, the process in
      user mode, traps, suspended kernel code.  [KernelProps] has its theorems, on the
      concrete kernel of [Sample] in the examples.

    The other components of the kernel:
    - [Comp]: cells, the class [Part] (the state of a component inside the kernel's), the
      class [Procs] with laws (sleep, wakeup, the current process) through which they
      use proc.c, and total and partial correctness triples [does] and [may].
      [SysState] is their state, [Solo] a one-process kernel for the examples.
    - [Sleeplock] (sleeplock.c), [Bio] (bio.c over memide.c), [Log] and [Crash] (log.c),
      [Fs] (fs.c), [File] (file.c), [Pipe] (pipe.c), [Kalloc] (kalloc.c), [Vm] (vm.c),
      [Sysfile] (sysfile.c), [Exec] (exec.c and [sys_exec]), [Console] (console.c, uart.c,
      kbd.c), [Ide] (ide.c), [Irq] (mp.c, lapic.c, ioapic.c, picirq.c, kshutdown.c).
    - [FsTx], [FsBlocks], [FsFile], [FsIo], [FsCall], [FileFacts]: what fs.c and file.c do
      inside a transaction.  [VmFacts], [VmSpace], [VmCopy]: address spaces.  [ExecFacts]:
      the stack of a new program.  [SysfileFacts]: pipes through the system calls.
      [ConsoleFacts]: the line editor.  [IdeFacts]: the queue of disk requests.
      [IrqFacts]: the tables of processors, interrupt routing, the clock.

    Before the kernel runs: [Mkfs] (mkfs.c, the program of the host that makes the disk),
    with the theorems in [MkfsFacts], and [Bootmain] (bootmain.c, the boot loader).

    User programs: [Ulib] (ulib.c, printf.c), [Umalloc] (umalloc.c), [Grep] (grep.c), [Sh]
    (sh.c), [UserProgs] (wc.c, cat.c, echo.c, ls.c, ln.c, mkdir.c, rm.c, kill.c); their
    system calls are parameters.

    ** What the theorems show

    - Process kernel: from boot on, whatever processes do and whenever interrupts come,
      the kernel does not fault, dead-lock on its locks or panic (except when init
      exits); processes and queues stay consistent; the C scheduler refines RSDL, picks
      the best process, wastes no tick while a process is ready and charges each tick
      once; [main], [priofork], [exit], [wait], [wakeup] and [kill] do what they should.
      Mutual exclusion of spin locks holds for any interleaving of CPUs.
    - Storage: the cache is a store; a crash between any two block writes, also during
      recovery, leaves each file system call done or not done; [filewrite] stores
      exactly its bytes and nothing else.  The IDE driver serves its requests in order.
      The image that mkfs makes is a consistent file system with the given files.
    - Hardware: the boot loader puts the segments of the kernel into memory; [mpinit]
      finds the processors of the BIOS table; an enabled interrupt is routed to its
      processor and the others stay masked; [cmostime] returns the time of the clock.
    - Memory: pages have one owner; [copyuvm], [allocuvm] and [copyout] build and change
      address spaces as they should and give everything back when they fail; the stack
      that [exec] builds is the one [main] expects.
    - Pipes carry one stream of bytes, also while callers sleep, and through the
      descriptors that [pipe] hands out.
    - The console is a line editor: what is typed, edited and ended by a return is what
      [consoleread] returns, and the cursor stays on the screen.
    - User programs: [printf] and [atoi], the allocator, the matcher and line loop of
      grep, the counts of wc, the grammar of the shell and the wiring of its pipelines.
    - Errors in the code that are theorems: [kill_hits_free_slot], [log_reservation_gap],
      [grep_drops_first_piece], [mkfs_root_gap], [mpinit_unknown_entry].

    ** Bounds

    Loops over tables run over the table.  Loops that follow links or wait take a number
    of rounds: [fuel] where the code may sleep again and again (theorems about returning
    assume the resource is free, or are partial and say so), and a bound computed from
    the arguments elsewhere, shown to be enough where the result is proved.

    ** Not modelled

    - More than one CPU, except in [Spinlock.Smp]: with several CPUs the scheduler moves
      processes that run on other CPUs, and the invariant of the queues does not hold.
      Interrupts are taken in user mode and in the scheduler's window with interrupts
      enabled; kernel code with interrupts enabled is not interrupted.
    - The process kernel calls memory, files and devices through [Platform] and
      [Services] with laws; the components below it are modelled and proved separately,
      over the interface [Procs], mostly for one caller at a time.
    - The storage stack is over the disk of memide.c, which is synchronous; [Ide], [Irq],
      [Mkfs] and [Bootmain] are proved by themselves.  The ports and registers of devices
      are parameters with laws.
    - Assembly: what it does to the state is part of the definitions that stand for its
      callers.
    - usertests.c, forktest.c, stressfs.c and the test programs implement nothing. *)

From stdpp Require Import base tactics list sets strings.
From Stdlib Require Import ZArith Lia.

(** ** Machine integers

    The kernel is compiled for 32-bit x86: [int] is a signed and [uint] an
    unsigned 32-bit integer.  Both are kept as [Z]; [u32] and [i32] write the
    wrap-around out. *)

Definition u32 (z : Z) : Z := (z mod 2 ^ 32)%Z.
Definition i32 (z : Z) : Z := ((z + 2 ^ 31) mod 2 ^ 32 - 2 ^ 31)%Z.

Lemma u32_id z : (0 <= z < 2 ^ 32)%Z -> u32 z = z.
Proof. intros. unfold u32. by apply Z.mod_small. Qed.

(** Counters that wrap around: in a window shorter than the modulus they are distinct,
    and indices into a ring whose size divides 2^32 do not notice. *)
Lemma mod_shift_inj N a i j :
  (0 <= i < N)%Z -> (0 <= j < N)%Z -> ((a + i) mod N = (a + j) mod N)%Z -> i = j.
Proof.
  intros Hi Hj E. pose proof (Z.div_mod (a + i) N ltac:(lia)). pose proof (Z.div_mod (a + j) N ltac:(lia)).
  destruct (Z.lt_trichotomy ((a + i) / N) ((a + j) / N)) as [|[|]]; nia.
Qed.

Lemma u32_shift_inj a k1 k2 :
  (0 <= k1 < 2 ^ 32)%Z -> (0 <= k2 < 2 ^ 32)%Z -> u32 (a + k1) = u32 (a + k2) -> k1 = k2.
Proof. apply mod_shift_inj. Qed.

Lemma u32_mod N z : (N | 2 ^ 32)%Z -> (0 < N)%Z -> (u32 z mod N = z mod N)%Z.
Proof.
  intros [k Hk] HN. unfold u32. rewrite Hk, (Z.mod_eq z (k * N)) by nia.
  replace (z - k * N * (z / (k * N)))%Z with (z + - (k * (z / (k * N))) * N)%Z by ring. apply Z.mod_add. lia.
Qed.

Lemma u32_add a b : u32 (u32 a + b) = u32 (a + b).
Proof. unfold u32. apply Zplus_mod_idemp_l. Qed.

(** A bit as C tests it. *)
Lemma land_bit x k : (0 <= k)%Z -> negb (Z.land x (Z.shiftl 1 k) =? 0)%Z = Z.testbit x k.
Proof.
  intros Hk. destruct (Z.testbit x k) eqn:E.
  - apply negb_true_iff, Z.eqb_neq. intros E0. apply (f_equal (fun z => Z.testbit z k)) in E0.
    rewrite Z.land_spec, Z.shiftl_spec, Z.sub_diag, Z.bits_0, E in E0 by lia. done.
  - apply negb_false_iff, Z.eqb_eq. apply Z.bits_inj. intros i. rewrite Z.land_spec, Z.bits_0.
    destruct (Z.lt_ge_cases i 0); [by rewrite Z.testbit_neg_r|].
    rewrite Z.shiftl_spec by lia. destruct (decide (i = k)) as [->|]; [by rewrite E|].
    destruct (Z.lt_ge_cases (i - k)%Z 0); [by rewrite (Z.testbit_neg_r 1), andb_false_r|].
    rewrite (Z.bits_above_log2 1), andb_false_r; [done|lia|simpl; lia].
Qed.

Lemma i32_id z : (- 2 ^ 31 <= z < 2 ^ 31)%Z -> i32 z = z.
Proof. intros. unfold i32. rewrite Z.mod_small; lia. Qed.

Lemma u32_range z : (0 <= u32 z < 2 ^ 32)%Z.
Proof. unfold u32. apply Z.mod_pos_bound. lia. Qed.

Lemma i32_range z : (- 2 ^ 31 <= i32 z < 2 ^ 31)%Z.
Proof. unfold i32. pose proof (Z.mod_pos_bound (z + 2 ^ 31) (2 ^ 32)). lia. Qed.

(** ** Lists *)

Lemma length_filter_split {A : Type} (P : A -> Prop) `{!forall a, Decision (P a)} (k : list A) :
  (length (filter P k) + length (filter (fun a => ~ P a) k) = length k)%nat.
Proof.
  induction k as [|a k IH]; [done|]. rewrite !filter_cons.
  destruct (decide (P a)), (decide (~ P a)); simpl; first [tauto|lia].
Qed.

(** ** The kernel monad

    A piece of kernel code maps a state to a [res]:
    - [Ret]: it returned a value in a new state;
    - [Panic]: it called [panic] with a message, the machine stops;
    - [Fault]: undefined behaviour of the C code (NULL or out of range access);
    - [Spin]: it busy-waits for a condition that cannot change while it runs;
    - [Halt]: a service behind an interface stopped the machine;
    - [Fuel]: a loop used up the number of iterations it was given;
    - [Switch]: it called [swtch] and gave the CPU away in state [s]; [k] is the
      rest of its code, to be run from the state in which it is resumed. *)

Inductive res (S A : Type) : Type :=
| Ret (a : A) (s : S)
| Panic (msg : string)
| Fault
| Spin
| Halt
| Fuel
| Switch (s : S) (k : S -> res S A).
Arguments Ret {S A} a s.
Arguments Panic {S A} msg.
Arguments Fault {S A}.
Arguments Spin {S A}.
Arguments Halt {S A}.
Arguments Fuel {S A}.
Arguments Switch {S A} s k.

Definition M (S A : Type) : Type := S -> res S A.

Fixpoint bindR {S A B : Type} (r : res S A) (f : A -> M S B) : res S B :=
  match r with
  | Ret a s => f a s
  | Panic msg => Panic msg
  | Fault => Fault
  | Spin => Spin
  | Halt => Halt
  | Fuel => Fuel
  | Switch s k => Switch s (fun s' => bindR (k s') f)
  end.

Definition ret {S A : Type} (a : A) : M S A := fun s => Ret a s.
Definition bind {S A B : Type} (m : M S A) (f : A -> M S B) : M S B := fun s => bindR (m s) f.
Definition panic {S A : Type} (msg : string) : M S A := fun _ => Panic msg.
Definition fault {S A : Type} : M S A := fun _ => Fault.
Definition spin {S A : Type} : M S A := fun _ => Spin.
Definition halt {S A : Type} : M S A := fun _ => Halt.
Definition fuel_out {S A : Type} : M S A := fun _ => Fuel.
Definition get {S : Type} : M S S := fun s => Ret s s.
Definition gets {S A : Type} (f : S -> A) : M S A := fun s => Ret (f s) s.
Definition modify {S : Type} (f : S -> S) : M S unit := fun s => Ret tt (f s).
(** Give the CPU to the other side of [swtch] and wait to be resumed. *)
Definition swtch_out {S : Type} : M S unit := fun s => Switch s (fun s' => Ret tt s').
(** Dereference: [None] is a NULL or out of range pointer. *)
Definition deref {S A : Type} (o : option A) : M S A :=
  match o with Some a => ret a | None => fault end.
Definition when {S : Type} (b : bool) (m : M S unit) : M S unit := if b then m else ret tt.

Declare Scope kern_scope.
Delimit Scope kern_scope with kern.
Notation "x <- m ;; k" := (bind m (fun x => k))
  (at level 100, m at next level, right associativity) : kern_scope.
Notation "m ;;; k" := (bind m (fun _ => k))
  (at level 100, right associativity) : kern_scope.
Open Scope kern_scope.

(** *** Loops *)

(** [for (x in xs) body]. *)
Fixpoint for_each {S X : Type} (xs : list X) (body : X -> M S unit) : M S unit :=
  match xs with
  | [] => ret tt
  | x :: xs => body x ;;; for_each xs body
  end.

(** [for (x in xs) body] where the body may [break] (or return) with a value. *)
Fixpoint for_find {S X B : Type} (xs : list X) (body : X -> M S (option B)) : M S (option B) :=
  match xs with
  | [] => ret None
  | x :: xs =>
      r <- body x ;;
      match r with Some b => ret (Some b) | None => for_find xs body end
  end.

(** [while (cond) body], at most [n] iterations. *)
Fixpoint while_fuel {S : Type} (n : nat) (cond : M S bool) (body : M S unit) : M S unit :=
  match n with
  | O => fuel_out
  | S n => b <- cond ;; if b then body ;;; while_fuel n cond body else ret tt
  end.

(** [for (;;) body] where the body returns with a value, at most [n] iterations. *)
Fixpoint loop_fuel {S B : Type} (n : nat) (body : M S (option B)) : M S B :=
  match n with
  | O => fuel_out
  | S n => r <- body ;; match r with Some b => ret b | None => loop_fuel n body end
  end.

(** *** Equations of the monad *)

Lemma bind_ret {S A B : Type} (a : A) (f : A -> M S B) s : bind (ret a) f s = f a s.
Proof. reflexivity. Qed.

Lemma bind_gets {S A B : Type} (g : S -> A) (f : A -> M S B) s : bind (gets g) f s = f (g s) s.
Proof. reflexivity. Qed.

Lemma bind_get {S B : Type} (f : S -> M S B) s : bind get f s = f s s.
Proof. reflexivity. Qed.

Lemma bind_modify {S B : Type} (g : S -> S) (f : unit -> M S B) s : bind (modify g) f s = f tt (g s).
Proof. reflexivity. Qed.

Lemma bind_Switch {S A B : Type} (m : M S A) (f : A -> M S B) s s' k :
  m s = Switch s' k -> bind m f s = Switch s' (fun s2 => bindR (k s2) f).
Proof. intros H. unfold bind. by rewrite H. Qed.

Lemma bind_Ret {S A B : Type} (m : M S A) (f : A -> M S B) s a s' :
  m s = Ret a s' -> bind m f s = f a s'.
Proof. intros H. unfold bind. by rewrite H. Qed.

Lemma bind_deref {S A B : Type} (o : option A) (a : A) (f : A -> M S B) s :
  o = Some a -> bind (deref o) f s = f a s.
Proof. intros ->. reflexivity. Qed.

Lemma bind_inv_Ret {S A B : Type} (m : M S A) (f : A -> M S B) s b s' :
  bind m f s = Ret b s' -> exists a s1, m s = Ret a s1 /\ f a s1 = Ret b s'.
Proof. unfold bind. destruct (m s) as [a s1| | | | | |]; simpl; intros H; try discriminate. eauto. Qed.

(** Runs that never give the CPU away are associative in [bind]. *)
Lemma bind_assoc {S A B C : Type} (m : M S A) (f : A -> M S B) (g : B -> M S C) s a s' :
  m s = Ret a s' -> bind (bind m f) g s = bind (f a) g s'.
Proof. intros H. unfold bind. by rewrite H. Qed.

Lemma bind_bind_Ret {S A B C : Type} (m : M S A) (f : A -> M S B) (g : B -> M S C) s b s' :
  bind m f s = Ret b s' -> bind m (fun a => bind (f a) g) s = g b s'.
Proof.
  intros (a & s1 & Hm & Hf)%bind_inv_Ret. rewrite (bind_Ret _ _ _ _ _ Hm). by apply bind_Ret.
Qed.

(** A loop whose body never fails and keeps an invariant. *)
Lemma for_each_inv {S X : Type} (I : S -> Prop) (body : X -> M S unit) xs s :
  I s -> (forall x s, x ∈ xs -> I s -> exists s', body x s = Ret tt s' /\ I s') ->
  exists s', for_each xs body s = Ret tt s' /\ I s'.
Proof.
  revert s. induction xs as [|x xs IH]; intros s Hs Hb; simpl; [by exists s|].
  destruct (Hb x s) as (s1 & He & H1); [apply list_elem_of_here|done|].
  rewrite (bind_Ret _ _ _ _ _ He). apply IH; [done|]. intros y s2 Hy. apply Hb.
  by apply list_elem_of_further.
Qed.

(** A loop that establishes [P x] for each of its items, and keeps what it has
    established. *)
Lemma for_each_post {S X : Type} (I : S -> Prop) (P : X -> S -> Prop) (body : X -> M S unit) xs s :
  I s ->
  (forall x s, x ∈ xs -> I s -> exists s', body x s = Ret tt s' /\ I s' /\ P x s' /\ forall y, P y s -> P y s') ->
  exists s', for_each xs body s = Ret tt s' /\ I s' /\ (forall x, x ∈ xs -> P x s') /\ forall y, P y s -> P y s'.
Proof.
  revert s. induction xs as [|x xs IH]; intros s Hs Hb; simpl.
  { exists s. do 2 (split; [done|]). split; [by intros x ?%not_elem_of_nil|done]. }
  destruct (Hb x s) as (s1 & He & H1 & Hx & Hk); [apply list_elem_of_here|done|].
  rewrite (bind_Ret _ _ _ _ _ He). destruct (IH s1 H1) as (s2 & He2 & H2 & Hxs & Hk2).
  { intros y s2 Hy. apply Hb. by apply list_elem_of_further. }
  exists s2. do 2 (split; [done|]). split; [|auto]. intros y [->|Hy]%elem_of_cons; auto.
Qed.

(** The first answer of [f] on a list: a search whose body only reads the state. *)
Fixpoint first_some {X B : Type} (f : X -> option B) (xs : list X) : option B :=
  match xs with
  | [] => None
  | x :: xs => match f x with Some b => Some b | None => first_some f xs end
  end.

Lemma for_find_pure {S X B : Type} (xs : list X) (body : X -> M S (option B)) (f : X -> option B) s :
  (forall x, x ∈ xs -> body x s = Ret (f x) s) ->
  for_find xs body s = Ret (first_some f xs) s.
Proof.
  induction xs as [|x xs IH]; intros Hb; simpl; [done|].
  rewrite (bind_Ret _ _ _ _ _ (Hb x ltac:(set_solver))).
  destruct (f x); [done|]. apply IH. set_solver.
Qed.

(** A search that passes over a prefix and stops at [x]. *)
Lemma for_find_hit {S X B : Type} (xs ys : list X) x (body : X -> M S (option B)) s b s' :
  (forall y, y ∈ xs -> body y s = Ret None s) -> body x s = Ret (Some b) s' ->
  for_find (xs ++ x :: ys) body s = Ret (Some b) s'.
Proof.
  induction xs as [|y xs IH]; intros Hxs Hx; simpl.
  - by rewrite (bind_Ret _ _ _ _ _ Hx).
  - rewrite (bind_Ret _ _ _ _ _ (Hxs y ltac:(set_solver))). apply IH; [set_solver|done].
Qed.

Lemma seq_split a n k : a <= k < a + n -> seq a n = seq a (k - a) ++ k :: seq (S k) (a + n - S k).
Proof.
  intros. replace n with ((k - a) + S (a + n - S k)) at 1 by lia.
  rewrite seq_app. simpl. by replace (a + (k - a)) with k by lia.
Qed.

Lemma for_find_seq_hit {S B : Type} a n k (body : nat -> M S (option B)) s b s' :
  a <= k < a + n -> (forall j, a <= j < k -> body j s = Ret None s) ->
  body k s = Ret (Some b) s' -> for_find (seq a n) body s = Ret (Some b) s'.
Proof.
  intros Hk Hj Hb. rewrite (seq_split a n k Hk). apply for_find_hit; [|done].
  intros y Hy. apply elem_of_seq in Hy. apply Hj. lia.
Qed.

Lemma first_some_None {X B : Type} (f : X -> option B) xs :
  first_some f xs = None <-> forall x, x ∈ xs -> f x = None.
Proof.
  induction xs as [|x xs IH]; simpl.
  - split; [|done]. intros _ x Hx. by apply elem_of_nil in Hx.
  - destruct (f x) eqn:E.
    + split; [done|]. intros H. rewrite H in E; [done|]. apply elem_of_cons. by left.
    + rewrite IH. split.
      * intros H y [->|Hy]%elem_of_cons; auto.
      * intros H y Hy. apply H. apply elem_of_cons. by right.
Qed.

Lemma first_some_lookup {X B : Type} (f : X -> option B) xs :
  first_some f xs = first_some (fun j => match xs !! j with Some x => f x | None => None end)
                      (seq 0 (length xs)).
Proof.
  induction xs as [|x xs IH]; simpl; [done|]. destruct (f x); [done|].
  rewrite IH, <- fmap_S_seq. clear IH. generalize (seq 0 (length xs)).
  intros js. induction js as [|j js IH]; simpl; [done|]. by rewrite IH.
Qed.

Lemma first_some_Some {X B : Type} (f : X -> option B) xs b :
  first_some f xs = Some b -> exists x, x ∈ xs /\ f x = Some b.
Proof.
  induction xs as [|x xs IH]; simpl; [done|]. destruct (f x) eqn:Hx.
  - intros [= ->]. exists x. split; [apply list_elem_of_here|done].
  - intros (y & Hy & Hf)%IH. exists y. split; [by apply list_elem_of_further|done].
Qed.

Lemma first_some_fmap {X B C : Type} (g : B -> C) (f : X -> option B) xs :
  first_some (fun x => g <$> f x) xs = g <$> first_some f xs.
Proof. induction xs as [|x xs IH]; simpl; [done|]. by destruct (f x). Qed.

Lemma first_some_app {X B : Type} (f : X -> option B) xs ys :
  first_some f (xs ++ ys) = match first_some f xs with Some b => Some b | None => first_some f ys end.
Proof. induction xs as [|x xs IH]; simpl; [done|]. by destruct (f x). Qed.

(** The first index of [seq a n] where [f] answers. *)
Lemma first_some_seq {B : Type} (f : nat -> option B) a n k b :
  a <= k < a + n -> f k = Some b -> (forall j, a <= j < k -> f j = None) ->
  first_some f (seq a n) = Some b.
Proof.
  intros Hk Hf Hj.
  replace n with ((k - a) + (S (n - (k - a) - 1))) by lia.
  rewrite seq_app, first_some_app.
  assert (first_some f (seq a (k - a)) = None) as ->.
  { apply first_some_None. intros x Hx. apply elem_of_seq in Hx. apply Hj. lia. }
  replace (a + (k - a)) with k by lia. simpl. by rewrite Hf.
Qed.

Lemma first_some_seq_inv {B : Type} (f : nat -> option B) a n b :
  first_some f (seq a n) = Some b ->
  exists k, a <= k < a + n /\ f k = Some b /\ (forall j, a <= j < k -> f j = None).
Proof.
  revert a. induction n as [|n IH]; intros a; simpl; [done|].
  destruct (f a) eqn:E.
  - intros [= ->]. exists a. split; [lia|]. split; [done|]. lia.
  - intros H. destruct (IH _ H) as (k & Hk & Hf & Hj). exists k.
    split; [lia|]. split; [done|]. intros j ?.
    destruct (decide (j = a)) as [->|]; [done|]. apply Hj. lia.
Qed.

Lemma alter_Some_insert {A : Type} (f : A -> A) (l : list A) i x :
  l !! i = Some x -> alter f i l = <[i := f x]> l.
Proof.
  revert i. induction l as [|y l IH]; intros [|i] H; simpl in *; simplify_eq; try done.
  unfold alter in IH. by rewrite (IH _ H).
Qed.

Lemma list_alter_absorb {A : Type} (f g : A -> A) (l : list A) i :
  (forall x, f (g x) = f x) -> alter f i (alter g i l) = alter f i l.
Proof.
  intros Hfg. revert i. induction l as [|y l IH]; intros [|i]; simpl; try done.
  - by rewrite Hfg.
  - unfold alter in IH. by rewrite IH.
Qed.

Lemma foldl_ext_in {A X : Type} (f g : A -> X -> A) (l : list X) a :
  (forall a x, x ∈ l -> f a x = g a x) -> foldl f a l = foldl g a l.
Proof.
  revert a. induction l as [|x l IH]; intros a H; simpl; [done|].
  rewrite H by apply list_elem_of_here. apply IH. intros. apply H. by apply list_elem_of_further.
Qed.

Lemma filter_ne_notin {A : Type} `{EqDecision A} (x : A) (l : list A) :
  x ∉ l -> filter (fun y => y <> x) l = l.
Proof.
  induction l as [|y l IH]; intros Hx; [done|].
  apply not_elem_of_cons in Hx as [Hy Hx]. rewrite filter_cons_True by done. by rewrite IH.
Qed.

(** ** Weakest preconditions

    [wp P B R i r Q]: the code neither faults nor spins, and panics only with a
    message of [P]; whenever it gives the CPU away its state satisfies [B],
    provided that it is only resumed in states [R] allows after that one; and if
    it returns, [Q] holds.  The index [i] stands for what the code knows about its
    last resumption; it changes with every one. *)

Section Wp.
Context {S I : Type} (P : string -> Prop) (B : I -> S -> Prop) (R : S -> I -> S -> Prop).

Fixpoint wp {A : Type} (i : I) (r : res S A) (Q : I -> A -> S -> Prop) : Prop :=
  match r with
  | Ret a s => Q i a s
  | Panic msg => P msg
  | Fault | Spin => False
  | Halt | Fuel => True
  | Switch s k => B i s /\ forall j s', R s j s' -> wp j (k s') Q
  end.

Lemma wp_bindR {A C : Type} (r : res S A) (f : A -> M S C) Q : forall i,
  wp i r (fun j a s => wp j (f a s) Q) -> wp i (bindR r f) Q.
Proof.
  induction r as [a s| | | | | |s k IH]; simpl; try done.
  intros i [HB HK]. split; [done|]. intros j s' Hs'. apply IH. by apply HK.
Qed.

Lemma wp_bind {A C : Type} i (m : M S A) (f : A -> M S C) s Q :
  wp i (m s) (fun j a s' => wp j (f a s') Q) -> wp i (bind m f s) Q.
Proof. apply wp_bindR. Qed.

Lemma wp_mono {A : Type} (r : res S A) (Q Q' : I -> A -> S -> Prop) :
  (forall j a s, Q j a s -> Q' j a s) -> forall i, wp i r Q -> wp i r Q'.
Proof.
  intros HQ. induction r as [a s| | | | | |s k IH]; simpl in *; eauto.
  intros i [HB HK]. split; [done|]. eauto.
Qed.

Lemma wp_bind_Ret {A C : Type} i (m : M S A) (f : A -> M S C) s a s' Q :
  m s = Ret a s' -> wp i (f a s') Q -> wp i (bind m f s) Q.
Proof. intros He Hf. by rewrite (bind_Ret _ _ _ _ _ He). Qed.

Lemma wp_bind_gets {A C : Type} i (g : S -> A) (f : A -> M S C) s Q :
  wp i (bind (gets g) f s) Q = wp i (f (g s) s) Q.
Proof. done. Qed.

Lemma wp_for_each {X : Type} (Inv : I -> S -> Prop) (body : X -> M S unit) xs : forall i s,
  Inv i s -> (forall x i s, x ∈ xs -> Inv i s -> wp i (body x s) (fun j _ s' => Inv j s')) ->
  wp i (for_each xs body s) (fun j _ s' => Inv j s').
Proof.
  induction xs as [|x xs IH]; intros i s Hs Hb; simpl; [done|]. apply wp_bind.
  eapply wp_mono; [|apply Hb; [apply list_elem_of_here|done]]. simpl. intros j a s' Hs'. apply IH; [done|].
  intros y k s2 Hy. apply Hb. by apply list_elem_of_further.
Qed.

Lemma wp_loop_fuel {A : Type} (Inv : I -> S -> Prop) (body : M S (option A)) Post :
  (forall i s, Inv i s -> wp i (body s) (fun j a s' =>
     match a with Some b => Post j b s' | None => Inv j s' end)) ->
  forall n i s, Inv i s -> wp i (loop_fuel n body s) Post.
Proof.
  intros Hb. induction n as [|n IH]; intros i s Hs; simpl; [done|]. apply wp_bind.
  eapply wp_mono; [|by apply Hb]. cbv beta. intros j [b|] s' Hs'; [done|]. by apply IH.
Qed.

End Wp.

Lemma wp_weaken {S I A : Type} (P P' : string -> Prop) (B B' : I -> S -> Prop) (R R' : S -> I -> S -> Prop)
    (r : res S A) Q :
  (forall msg, P msg -> P' msg) -> (forall i s, B i s -> B' i s) -> (forall s j s', R' s j s' -> R s j s') ->
  forall i, wp P B R i r Q -> wp P' B' R' i r Q.
Proof.
  intros HP HB HR. induction r as [a s| | | | | |s k IH]; simpl in *; eauto.
  intros i [H1 H2]. split; [auto|]. eauto.
Qed.

(** ** Termination

    [ends r Q]: the code comes to an end, by a return that satisfies [Q] or by a
    panic. *)

Definition ends {S A : Type} (r : res S A) (Q : A -> S -> Prop) : Prop :=
  match r with
  | Ret a s => Q a s
  | Panic _ => True
  | _ => False
  end.

Lemma ends_bind {S A B : Type} (m : M S A) (f : A -> M S B) s Q :
  ends (m s) (fun a s' => ends (f a s') Q) -> ends (bind m f s) Q.
Proof. unfold bind. destruct (m s); simpl; done. Qed.

Lemma ends_mono {S A : Type} (r : res S A) (Q Q' : A -> S -> Prop) :
  (forall a s, Q a s -> Q' a s) -> ends r Q -> ends r Q'.
Proof. intros HQ. destruct r; simpl; auto. Qed.

Lemma ends_bind_mono {S A B : Type} (m : M S A) (f : A -> M S B) s R Q :
  ends (m s) R -> (forall a s', R a s' -> ends (f a s') Q) -> ends (bind m f s) Q.
Proof. intros Hm Hf. apply ends_bind. by apply (ends_mono _ R). Qed.

(** ** Automation *)

Create HintDb kern discriminated.

(** Run straight-line code: push a bind through a step that is known to return. *)
Ltac kstep :=
  first
    [ rewrite bind_gets | rewrite bind_get | rewrite bind_modify | rewrite bind_ret
    | erewrite bind_deref by (eassumption || (simpl; eassumption) || reflexivity) ];
  cbv beta.
Ltac ksteps := repeat kstep.

(** Split a boolean test of the code into its two arithmetic cases. *)
Ltac case_if :=
  match goal with
  | |- context [if ?b then _ else _] =>
      let E := fresh "Hif" in destruct b eqn:E
  end.
