(* ===== verification/Params.v ===== *)
(** * Configuration constants

    The constants of param.h, rsdl.h, memlayout.h, mmu.h and traps.h that the
    modelled code uses, as [Z] (sizes used as list lengths also as [nat]). *)

From S2P Require Import Prelude.
From Stdlib Require Import ZArith.

(** param.h *)
Definition NPROC : nat := 64.
Definition KSTACKSIZE : Z := 4096.
Definition NCPU : nat := 8.
Definition NOFILE : nat := 16.
Definition NFILE : nat := 100.
Definition NINODE : nat := 50.
Definition NDEV : Z := 10.
Definition ROOTDEV : Z := 1.
Definition MAXARG : nat := 32.
Definition MAXOPBLOCKS : Z := 10.
Definition LOGSIZE : nat := 30.
Definition NBUF : nat := 30.
Definition FSSIZE : Z := 2000.

(** rsdl.h *)
Definition RSDL_LEVELS : nat := 3.
Definition RSDL_STARTING_LEVEL : Z := 0.
Definition RSDL_PROC_QUANTUM : Z := 20.
Definition RSDL_LEVEL_QUANTUM : Z := 100.

(** memlayout.h *)
Definition EXTMEM : Z := 0x100000.
Definition PHYSTOP : Z := 0xE000000.
Definition DEVSPACE : Z := 0xFE000000.
Definition KERNBASE : Z := 0x80000000.
Definition KERNLINK : Z := KERNBASE + EXTMEM.

(** mmu.h *)
Definition FL_IF : Z := 0x200.
Definition PGSIZE : Z := 4096.
Definition NPDENTRIES : nat := 1024.
Definition NPTENTRIES : nat := 1024.
Definition PTXSHIFT : Z := 12.
Definition PDXSHIFT : Z := 22.
Definition SEG_KCODE : Z := 1.
Definition SEG_KDATA : Z := 2.
Definition SEG_UCODE : Z := 3.
Definition SEG_UDATA : Z := 4.
Definition SEG_TSS : Z := 5.
Definition DPL_USER : Z := 3.
Definition STS_IG32 : Z := 0xE.
Definition STS_TG32 : Z := 0xF.

(** traps.h *)
Definition T_SYSCALL : Z := 64.
Definition T_IRQ0 : Z := 32.
Definition IRQ_TIMER : Z := 0.
Definition IRQ_KBD : Z := 1.
Definition IRQ_COM1 : Z := 4.
Definition IRQ_IDE : Z := 14.
Definition IRQ_SPURIOUS : Z := 31.

(** stat.h and fcntl.h *)
Record stat := mkStat {
  st_type : Z;
  st_dev : Z;
  st_ino : Z;
  st_nlink : Z;
  st_size : Z
}.
Definition T_DIR : Z := 1.
Definition T_FILE : Z := 2.
Definition T_DEV : Z := 3.
Definition O_RDONLY : Z := 0.
Definition O_WRONLY : Z := 1.
Definition O_RDWR : Z := 2.
Definition O_CREATE : Z := 0x200.
