(* ===== verification/StringC.v ===== *)
(** * Memory and string routines (string.c)

    Memory is a function from addresses to bytes (0..255); pointers are
    addresses, so overlapping buffers are the overlapping address ranges they
    are in C.  A loop that counts [n] down is a recursion on [n]. *)

From stdpp Require Import base tactics list sets strings.
From Stdlib Require Import ZArith Lia.
From S2P Require Import Prelude.
Open Scope Z_scope.

Definition memory := Z -> Z.

Definition upd (m : memory) (a v : Z) : memory := fun b => if b =? a then v else m b.

(** [range a n b]: address [b] is one of the [n] bytes at [a]. *)
Definition in_range (a n b : Z) : bool := (a <=? b) && (b <? a + n).

(** ** x86.h: stosb and stosl *)

Fixpoint stosb (m : memory) (addr data : Z) (cnt : nat) : memory :=
  match cnt with
  | O => m
  | S cnt => stosb (upd m addr (Z.land data 0xff)) (addr + 1) data cnt
  end.

Definition store_word (m : memory) (a w : Z) : memory :=
  upd (upd (upd (upd m a (Z.land w 0xff))
                   (a + 1) (Z.land (Z.shiftr w 8) 0xff))
              (a + 2) (Z.land (Z.shiftr w 16) 0xff))
         (a + 3) (Z.land (Z.shiftr w 24) 0xff).

Fixpoint stosl (m : memory) (addr data : Z) (cnt : nat) : memory :=
  match cnt with
  | O => m
  | S cnt => stosl (store_word m addr data) (addr + 4) data cnt
  end.

(** ** string.c *)

Definition memset (m : memory) (dst c n : Z) : memory :=
  if (dst mod 4 =? 0) && (n mod 4 =? 0) then
    let c := Z.land c 0xFF in
    stosl m dst (Z.lor (Z.lor (Z.lor (Z.shiftl c 24) (Z.shiftl c 16)) (Z.shiftl c 8)) c)
      (Z.to_nat (n / 4))
  else stosb m dst c (Z.to_nat n).

Fixpoint memcmp_loop (m : memory) (s1 s2 : Z) (n : nat) : Z :=
  match n with
  | O => 0
  | S n => if negb (m s1 =? m s2) then m s1 - m s2 else memcmp_loop m (s1 + 1) (s2 + 1) n
  end.
Definition memcmp (m : memory) (v1 v2 n : Z) : Z := memcmp_loop m v1 v2 (Z.to_nat n).

(** [while(n-- > 0) *--d = *--s;] *)
Fixpoint copy_down (m : memory) (d s : Z) (n : nat) : memory :=
  match n with
  | O => m
  | S n => copy_down (upd m (d - 1) (m (s - 1))) (d - 1) (s - 1) n
  end.

(** [while(n-- > 0) *d++ = *s++;] *)
Fixpoint copy_up (m : memory) (d s : Z) (n : nat) : memory :=
  match n with
  | O => m
  | S n => copy_up (upd m d (m s)) (d + 1) (s + 1) n
  end.

Definition memmove (m : memory) (dst src n : Z) : memory :=
  if (src <? dst) && (dst <? src + n)
  then copy_down m (dst + n) (src + n) (Z.to_nat n)
  else copy_up m dst src (Z.to_nat n).

Definition memcpy (m : memory) (dst src n : Z) : memory := memmove m dst src n.

Fixpoint strncmp_loop (m : memory) (p q : Z) (n : nat) : Z :=
  match n with
  | O => 0
  | S n' =>
      if negb (m p =? 0) && (m p =? m q) then strncmp_loop m (p + 1) (q + 1) n'
      else m p - m q
  end.
Definition strncmp (m : memory) (p q n : Z) : Z := strncmp_loop m p q (Z.to_nat n).

(** [while(n-- > 0) *s++ = 0;] *)
Fixpoint zero_fill (m : memory) (s : Z) (n : nat) : memory :=
  match n with
  | O => m
  | S n => zero_fill (upd m s 0) (s + 1) n
  end.

(** [while(n-- > 0 && ( *s++ = *t++ ) != 0);] then the zero fill. *)
Fixpoint strncpy_loop (m : memory) (s t : Z) (n : nat) : memory :=
  match n with
  | O => m
  | S n =>
      let m' := upd m s (m t) in
      if negb (m' s =? 0) then strncpy_loop m' (s + 1) (t + 1) n
      else zero_fill m' (s + 1) n
  end.
Definition strncpy (m : memory) (s t n : Z) : memory := strncpy_loop m s t (Z.to_nat n).

(** [while(--n > 0 && ( *s++ = *t++ ) != 0); *s = 0;] with [n] one less. *)
Fixpoint safestrcpy_loop (m : memory) (s t : Z) (n : nat) : memory :=
  match n with
  | O => upd m s 0
  | S n =>
      let m' := upd m s (m t) in
      if negb (m' s =? 0) then safestrcpy_loop m' (s + 1) (t + 1) n
      else upd m' (s + 1) 0
  end.
Definition safestrcpy (m : memory) (s t n : Z) : memory :=
  if n <=? 0 then m else safestrcpy_loop m s t (Z.to_nat (n - 1)).

(** [for(n = 0; s[n]; n++);] with at most [fuel] iterations. *)
Fixpoint strlen_loop (m : memory) (s : Z) (n : Z) (fuel : nat) : option Z :=
  match fuel with
  | O => None
  | S fuel => if m (s + n) =? 0 then Some n else strlen_loop m s (n + 1) fuel
  end.
Definition strlen (m : memory) (s : Z) (fuel : nat) : option Z := strlen_loop m s 0 fuel.

(** ** Facts *)

Lemma upd_eq m a v : upd m a v a = v.
Proof. unfold upd. by rewrite Z.eqb_refl. Qed.

Lemma upd_ne m a v b : b <> a -> upd m a v b = m b.
Proof. intros. unfold upd. destruct (Z.eqb_spec b a); [done|done]. Qed.

Lemma in_range_spec a n b : in_range a n b = true <-> a <= b < a + n.
Proof. unfold in_range. rewrite andb_true_iff, Z.leb_le, Z.ltb_lt. lia. Qed.

Lemma in_range_false a n b : in_range a n b = false <-> b < a \/ a + n <= b.
Proof. rewrite <- not_true_iff_false, in_range_spec. lia. Qed.

(** Decide every address comparison of the goal. *)
Ltac addr :=
  repeat match goal with
  | |- context [in_range ?a ?n ?b] =>
      let E := fresh "E" in
      destruct (in_range a n b) eqn:E; [apply in_range_spec in E|apply in_range_false in E]
  end; try lia.

Lemma stosb_spec m a c n b :
  stosb m a c n b = if in_range a (Z.of_nat n) b then Z.land c 0xff else m b.
Proof.
  revert m a. induction n as [|n IH]; intros m a; simpl stosb.
  - by addr.
  - rewrite IH. destruct (Z.eq_dec b a) as [->|Hne].
    + rewrite upd_eq. by addr.
    + rewrite upd_ne by done. by addr.
Qed.

(** The four bytes of a word that repeats byte [c]. *)
Definition splat (c : Z) : Z :=
  Z.lor (Z.lor (Z.lor (Z.shiftl c 24) (Z.shiftl c 16)) (Z.shiftl c 8)) c.

Lemma splat_byte c k : 0 <= c < 256 -> k = 0 \/ k = 8 \/ k = 16 \/ k = 24 ->
  Z.land (Z.shiftr (splat c) k) 0xff = c.
Proof.
  intros Hc Hk. unfold splat. change 0xff with (Z.ones 8).
  assert (forall j, 8 <= j -> Z.testbit c j = false) as Hhi.
  { intros j Hj. destruct (Z.eq_dec c 0) as [->|]; [apply Z.bits_0|].
    apply Z.bits_above_log2; [lia|]. apply Z.log2_lt_pow2; [lia|].
    apply Z.lt_le_trans with (2 ^ 8); [lia|]. apply Z.pow_le_mono_r; lia. }
  apply Z.bits_inj'. intros i Hi.
  rewrite Z.land_spec, Z.shiftr_spec, !Z.lor_spec, !Z.shiftl_spec by lia.
  destruct (Z.lt_ge_cases i 8) as [H8|H8].
  - rewrite Z.ones_spec_low, andb_true_r by lia.
    destruct Hk as [->|[->|[->| ->]]];
      repeat match goal with |- context [Z.testbit c (i + ?x - ?y)] =>
        first [ rewrite (Hhi (i + x - y)) by lia | rewrite (Z.testbit_neg_r c (i + x - y)) by lia ] end;
      repeat match goal with |- context [Z.testbit c (i + ?x)] => rewrite (Hhi (i + x)) by lia end;
      rewrite ?orb_false_r, ?orb_false_l; f_equal; lia.
  - rewrite Z.ones_spec_high, andb_false_r by lia. by rewrite Hhi.
Qed.

Lemma stosl_spec m a c n b : 0 <= c < 256 ->
  stosl m a (splat c) n b = if in_range a (4 * Z.of_nat n) b then c else m b.
Proof.
  intros Hc. revert m a. induction n as [|n IH]; intros m a; simpl stosl.
  - by addr.
  - rewrite IH. unfold store_word.
    pose proof (splat_byte c 0 Hc) as H0. rewrite Z.shiftr_0_r in H0.
    rewrite (splat_byte c 8), (splat_byte c 16), (splat_byte c 24), H0 by auto.
    unfold upd. repeat match goal with |- context [?x =? ?y] => destruct (Z.eqb_spec x y) end; by addr.
Qed.

Lemma memset_lem m dst c n b : 0 <= n ->
  memset m dst c n b = if in_range dst n b then Z.land c 0xff else m b.
Proof.
  intros Hn. unfold memset.
  destruct ((dst mod 4 =? 0) && (n mod 4 =? 0)) eqn:E.
  - apply andb_prop in E as [_ E]. apply Z.eqb_eq in E.
    change (Z.lor _ _) with (splat (Z.land c 0xFF)).
    rewrite stosl_spec.
    + rewrite Z2Nat.id by (apply Z.div_pos; lia).
      rewrite <- (Z_div_exact_2 n 4) by lia. done.
    + change 0xFF with (Z.ones 8). rewrite Z.land_ones by lia. apply Z.mod_pos_bound. lia.
  - by rewrite stosb_spec, Z2Nat.id.
Qed.

Lemma copy_up_spec m d s n b : d <= s \/ s + Z.of_nat n <= d ->
  copy_up m d s n b = if in_range d (Z.of_nat n) b then m (s + (b - d)) else m b.
Proof.
  revert m d s. induction n as [|n IH]; intros m d s Ho; simpl copy_up.
  - by addr.
  - rewrite IH by lia. unfold upd. destruct (Z.eqb_spec b d) as [->|Hne].
    + addr. f_equal; lia.
    + addr; try done. destruct (Z.eqb_spec (s + 1 + (b - (d + 1))) d) as [E2|E2].
      * exfalso. lia.
      * f_equal; lia.
Qed.

Lemma copy_down_spec m d s n b : s <= d ->
  copy_down m d s n b =
    if in_range (d - Z.of_nat n) (Z.of_nat n) b then m (s - (d - b)) else m b.
Proof.
  revert m d s. induction n as [|n IH]; intros m d s Ho; simpl copy_down.
  - by addr.
  - rewrite IH by lia. unfold upd. destruct (Z.eqb_spec b (d - 1)) as [->|Hne].
    + addr. f_equal; lia.
    + addr; try done. destruct (Z.eqb_spec (s - 1 - (d - 1 - b)) (d - 1)) as [E2|E2].
      * exfalso. lia.
      * f_equal; lia.
Qed.

Lemma memmove_lem m dst src n b : 0 <= n ->
  memmove m dst src n b = if in_range dst n b then m (src + (b - dst)) else m b.
Proof.
  intros Hn. unfold memmove.
  destruct ((src <? dst) && (dst <? src + n)) eqn:E.
  - rewrite copy_down_spec, Z2Nat.id by lia. replace (dst + n - n) with dst by lia.
    addr; try done. f_equal; lia.
  - rewrite copy_up_spec, Z2Nat.id; [done|done|]. rewrite Z2Nat.id by done. lia.
Qed.

(** *** Strings *)

(** The first [k] bytes at [t] are not NUL. *)
Definition no_nul (m : memory) (t k : Z) : Prop := forall j, 0 <= j < k -> m (t + j) <> 0.

Lemma no_nul_cons m t k : 0 < k -> no_nul m t k <-> m t <> 0 /\ no_nul m (t + 1) (k - 1).
Proof.
  intros Hk. unfold no_nul. split.
  - intros H. split.
    + specialize (H 0). rewrite Z.add_0_r in H. apply H. lia.
    + intros j Hj. replace (t + 1 + j) with (t + (j + 1)) by lia. apply H. lia.
  - intros [H0 H] j Hj. destruct (Z.eq_dec j 0) as [->|]; [by rewrite Z.add_0_r|].
    replace (t + j) with (t + 1 + (j - 1)) by lia. apply H. lia.
Qed.

Lemma no_nul_0 m t : no_nul m t 0.
Proof. intros j Hj. lia. Qed.

(** Memory that agrees on a string's bytes agrees on where it ends. *)
Lemma no_nul_ext m m' t k :
  (forall j, 0 <= j < k -> m (t + j) = m' (t + j)) -> no_nul m t k -> no_nul m' t k.
Proof. intros He Hn j Hj. rewrite <- He by done. by apply Hn. Qed.

Lemma memcmp_loop_spec m p q n :
  (memcmp_loop m p q n = 0 <-> forall i, 0 <= i < Z.of_nat n -> m (p + i) = m (q + i)) /\
  (memcmp_loop m p q n <> 0 ->
   exists i, 0 <= i < Z.of_nat n /\ memcmp_loop m p q n = m (p + i) - m (q + i) /\
     forall j, 0 <= j < i -> m (p + j) = m (q + j)).
Proof.
  revert p q. induction n as [|n IH]; intros p q; simpl memcmp_loop.
  - split; [|done]. split; [|done]. intros _ i Hi. lia.
  - destruct (IH (p + 1) (q + 1)) as [IH1 IH2]. destruct (Z.eqb_spec (m p) (m q)) as [E|E]; simpl.
    + split.
      * rewrite IH1. split; intros H i Hi.
        -- destruct (Z.eq_dec i 0) as [->|]; [by rewrite !Z.add_0_r|].
           replace (p + i) with (p + 1 + (i - 1)) by lia.
           replace (q + i) with (q + 1 + (i - 1)) by lia. apply H. lia.
        -- replace (p + 1 + i) with (p + (i + 1)) by lia.
           replace (q + 1 + i) with (q + (i + 1)) by lia. apply H. lia.
      * intros H. destruct (IH2 H) as (i & Hi & Hv & Hj). exists (i + 1).
        split; [lia|]. split; [rewrite Hv; do 2 f_equal; lia|]. intros j Hj'.
        destruct (Z.eq_dec j 0) as [->|]; [by rewrite !Z.add_0_r|].
        replace (p + j) with (p + 1 + (j - 1)) by lia.
        replace (q + j) with (q + 1 + (j - 1)) by lia. apply Hj. lia.
    + split.
      * split; [lia|]. intros H. specialize (H 0). rewrite !Z.add_0_r in H. lia.
      * intros _. exists 0. rewrite !Z.add_0_r. split; [lia|]. split; [done|]. lia.
Qed.

Lemma strncmp_loop_spec m p q n :
  strncmp_loop m p q n = 0 <->
  forall i, 0 <= i < Z.of_nat n -> no_nul m p i -> m (p + i) = m (q + i).
Proof.
  revert p q. induction n as [|n IH]; intros p q; simpl strncmp_loop.
  - split; [|done]. intros _ i Hi. lia.
  - destruct (Z.eqb_spec (m p) 0) as [E0|E0]; simpl.
    + split.
      * intros H i Hi Hn. destruct (Z.eq_dec i 0) as [->|]; [rewrite !Z.add_0_r; lia|].
        specialize (Hn 0). rewrite Z.add_0_r in Hn. destruct Hn; [lia|done].
      * intros H. specialize (H 0). rewrite !Z.add_0_r in H. rewrite H; [lia|lia|apply no_nul_0].
    + destruct (Z.eqb_spec (m p) (m q)) as [E|E]; simpl.
      * rewrite IH. split; intros H i Hi Hn.
        -- destruct (Z.eq_dec i 0) as [->|]; [by rewrite !Z.add_0_r|].
           replace (p + i) with (p + 1 + (i - 1)) by lia.
           replace (q + i) with (q + 1 + (i - 1)) by lia. apply H; [lia|].
           apply no_nul_cons in Hn; [tauto|lia].
        -- replace (p + 1 + i) with (p + (i + 1)) by lia.
           replace (q + 1 + i) with (q + (i + 1)) by lia. apply H; [lia|].
           apply no_nul_cons; [lia|]. split; [done|]. by replace (i + 1 - 1) with i by lia.
      * split; [lia|]. intros H. specialize (H 0). rewrite !Z.add_0_r in H.
        destruct E. apply H; [lia|apply no_nul_0].
Qed.

Lemma zero_fill_spec m s n b :
  zero_fill m s n b = if in_range s (Z.of_nat n) b then 0 else m b.
Proof.
  revert m s. induction n as [|n IH]; intros m s; simpl zero_fill; [by addr|].
  rewrite IH. unfold upd. destruct (Z.eqb_spec b s) as [->|Hne]; by addr.
Qed.

(** The address ranges of two buffers do not meet. *)
Definition apart (s t n : Z) : Prop := s + n <= t \/ t + n <= s.

(** [strncpy] fills exactly [n] bytes: the string, then NULs. *)
Lemma strncpy_loop_spec m s t n : apart s t (Z.of_nat n) ->
  (forall i, 0 <= i < Z.of_nat n -> no_nul m t i -> strncpy_loop m s t n (s + i) = m (t + i)) /\
  (forall i, 0 <= i < Z.of_nat n -> ~ no_nul m t i -> strncpy_loop m s t n (s + i) = 0) /\
  (forall b, in_range s (Z.of_nat n) b = false -> strncpy_loop m s t n b = m b).
Proof.
  unfold apart.
  revert m s t. induction n as [|n IH]; intros m s t Ha; simpl strncpy_loop.
  - split; [lia|]. split; [lia|done].
  - rewrite upd_eq. set (m' := upd m s (m t)).
    assert (forall j, 0 <= j < Z.of_nat n -> m' (t + 1 + j) = m (t + 1 + j)) as Hm'.
    { intros j Hj. apply upd_ne. lia. }
    destruct (Z.eqb_spec (m t) 0) as [E|E]; simpl.
    + assert (forall i, 0 <= i -> no_nul m t i -> i = 0) as Hz.
      { intros i Hi Hn. destruct (Z.eq_dec i 0); [done|]. specialize (Hn 0).
        rewrite Z.add_0_r in Hn. destruct Hn; [lia|done]. }
      split; [|split].
      * intros i Hi Hn. rewrite (Hz i) by (lia || done). rewrite !Z.add_0_r, zero_fill_spec.
        addr. unfold m'. by rewrite upd_eq.
      * intros i Hi Hn. rewrite zero_fill_spec. addr. unfold m'.
        replace (s + i) with s by lia. by rewrite upd_eq, E.
      * intros b Hb. apply in_range_false in Hb. rewrite zero_fill_spec. addr. apply upd_ne. lia.
    + destruct (IH m' (s + 1) (t + 1) ltac:(lia)) as (IH1 & IH2 & IH3).
      assert (forall i, 0 < i <= Z.of_nat n -> no_nul m' (t + 1) (i - 1) <-> no_nul m t i) as Hnn.
      { intros i Hi. rewrite (no_nul_cons m) by lia. split.
        - intros Hn. split; [done|]. apply (no_nul_ext m'); [|done]. intros; apply Hm'. lia.
        - intros [_ Hn]. apply (no_nul_ext m); [|done]. intros; symmetry; apply Hm'. lia. }
      split; [|split].
      * intros i Hi Hn. destruct (Z.eq_dec i 0) as [->|].
        { rewrite !Z.add_0_r, IH3 by (apply in_range_false; lia). unfold m'. by rewrite upd_eq. }
        replace (s + i) with (s + 1 + (i - 1)) by lia. rewrite IH1 by (lia || apply Hnn; done || lia).
        rewrite Hm' by lia. f_equal; lia.
      * intros i Hi Hn. destruct (Z.eq_dec i 0) as [->|]; [destruct Hn; apply no_nul_0|].
        replace (s + i) with (s + 1 + (i - 1)) by lia. apply IH2; [lia|]. by rewrite Hnn by lia.
      * intros b Hb. apply in_range_false in Hb. rewrite IH3 by (apply in_range_false; lia).
        apply upd_ne. lia.
Qed.

(** [safestrcpy] copies [k] bytes and puts a NUL after them, inside [n] bytes. *)
Lemma safestrcpy_loop_spec m s t n : apart s t (Z.of_nat n + 1) ->
  exists k, 0 <= k <= Z.of_nat n /\ no_nul m t k /\ (m (t + k) = 0 \/ k = Z.of_nat n) /\
    (forall i, 0 <= i < k -> safestrcpy_loop m s t n (s + i) = m (t + i)) /\
    safestrcpy_loop m s t n (s + k) = 0 /\
    (forall b, in_range s (Z.of_nat n + 1) b = false -> safestrcpy_loop m s t n b = m b).
Proof.
  unfold apart. revert m s t. induction n as [|n IH]; intros m s t Ha; simpl safestrcpy_loop.
  - exists 0. split; [lia|]. split; [apply no_nul_0|]. split; [by right|]. split; [lia|].
    rewrite Z.add_0_r, upd_eq. split; [done|]. intros b Hb%in_range_false. apply upd_ne. lia.
  - rewrite upd_eq. destruct (Z.eqb_spec (m t) 0) as [E|E]; simpl.
    + exists 0. split; [lia|]. split; [apply no_nul_0|]. split; [left; by rewrite Z.add_0_r|].
      split; [lia|]. rewrite Z.add_0_r, upd_ne, upd_eq by lia. split; [done|].
      intros b Hb%in_range_false. rewrite !upd_ne by lia. done.
    + set (m' := upd m s (m t)).
      assert (forall j, 0 <= j <= Z.of_nat n -> m' (t + 1 + j) = m (t + 1 + j)) as Hm'.
      { intros j Hj. apply upd_ne. lia. }
      destruct (IH m' (s + 1) (t + 1) ltac:(lia)) as (k & Hk & Hn & Hend & Hc & Hz & Hf).
      exists (k + 1). split; [lia|]. split; [|split; [|split; [|split]]].
      * apply no_nul_cons; [lia|]. split; [done|]. replace (k + 1 - 1) with k by lia.
        apply (no_nul_ext m'); [|done]. intros; apply Hm'; lia.
      * rewrite Hm' in Hend by lia. replace (t + (k + 1)) with (t + 1 + k) by lia. destruct Hend as [?| ->]; [by left|right; lia].
      * intros i Hi. destruct (Z.eq_dec i 0) as [->|].
        { rewrite !Z.add_0_r, Hf by (apply in_range_false; lia). unfold m'. by rewrite upd_eq. }
        replace (s + i) with (s + 1 + (i - 1)) by lia. rewrite Hc, Hm' by lia. f_equal; lia.
      * by replace (s + (k + 1)) with (s + 1 + k) by lia.
      * intros b Hb%in_range_false. rewrite Hf by (apply in_range_false; lia). apply upd_ne. lia.
Qed.

Lemma strlen_loop_spec m s k fuel n : 0 <= n <= k -> m (s + k) = 0 ->
  no_nul m (s + n) (k - n) -> k - n < Z.of_nat fuel -> strlen_loop m s n fuel = Some k.
Proof.
  revert n. induction fuel as [|fuel IH]; intros n Hn Hz Hnn Hf; simpl; [lia|].
  destruct (Z.eq_dec n k) as [->|Hne]; [by rewrite Hz|].
  apply no_nul_cons in Hnn as [H0 Hnn]; [|lia].
  destruct (Z.eqb_spec (m (s + n)) 0); [done|]. apply IH; [lia|done| |lia].
  by replace (s + (n + 1)) with (s + n + 1) by lia; replace (k - (n + 1)) with (k - n - 1) by lia.
Qed.

(** ** Theorems *)

(** [memmove] copies [n] bytes also when the buffers overlap, in either
    direction: every destination byte is the source byte from before the call,
    and no byte outside the destination changes. *)
Theorem memmove_spec m dst src n b : 0 <= n ->
  memmove m dst src n b = if in_range dst n b then m (src + (b - dst)) else m b.
Proof. apply memmove_lem. Qed.

Lemma memmove_spec_witness :
  let m := fun a => a mod 256 in
  memmove m 102 100 5 104 = 102 /\ memmove m 102 100 5 107 = 107.
Proof.
  intros m. split.
  - rewrite (memmove_spec m 102 100 5 104) by lia. reflexivity.
  - rewrite (memmove_spec m 102 100 5 107) by lia. reflexivity.
Defined.

(** [memset] writes the low byte of [c] to the [n] bytes at [dst] and nothing
    else, whether it stores words (aligned) or single bytes. *)
Theorem memset_spec m dst c n b : 0 <= n ->
  memset m dst c n b = if in_range dst n b then Z.land c 0xff else m b.
Proof. apply memset_lem. Qed.

Lemma memset_spec_witness :
  let m := fun _ => 7 in memset m 8 0x1ab 4 11 = 0xab /\ memset m 8 0x1ab 4 12 = 7.
Proof.
  intros m. split.
  - rewrite (memset_spec m 8 0x1ab 4 11) by lia. reflexivity.
  - rewrite (memset_spec m 8 0x1ab 4 12) by lia. reflexivity.
Defined.

(** With room for [n > 0] bytes, [safestrcpy] stores the longest prefix of the
    source string that fits with its NUL, terminates it, and stays inside the
    [n] bytes of the destination. *)
Theorem safestrcpy_spec m s t n : 0 < n -> apart s t n ->
  exists k, 0 <= k < n /\ no_nul m t k /\ (m (t + k) = 0 \/ k = n - 1) /\
    (forall i, 0 <= i < k -> safestrcpy m s t n (s + i) = m (t + i)) /\
    safestrcpy m s t n (s + k) = 0 /\
    (forall b, in_range s n b = false -> safestrcpy m s t n b = m b).
Proof.
  intros Hn Ha. unfold safestrcpy. destruct (Z.leb_spec n 0); [lia|].
  destruct (safestrcpy_loop_spec m s t (Z.to_nat (n - 1))) as (k & Hk & H2 & H3 & H4 & H5 & H6).
  { by rewrite Z2Nat.id, Z.sub_add by lia. }
  rewrite Z2Nat.id in * by lia. rewrite Z.sub_add in H6.
  exists k. split; [lia|]. done.
Qed.

Lemma safestrcpy_spec_witness :
  let m := fun a => if a =? 103 then 0 else a mod 256 in
  exists k, 0 <= k < 16 /\ safestrcpy m 200 100 16 (200 + k) = 0.
Proof.
  intros m. destruct (safestrcpy_spec m 200 100 16) as (k & Hk & _ & _ & _ & Hz & _).
  - lia.
  - unfold apart. lia.
  - exists k. split; [exact Hk|exact Hz].
Defined.

(** [strncmp] answers 0 exactly when the two strings agree on every byte up to
    and including the first NUL, or on [n] bytes. *)
Theorem strncmp_spec m p q n : 0 <= n ->
  strncmp m p q n = 0 <-> forall i, 0 <= i < n -> no_nul m p i -> m (p + i) = m (q + i).
Proof. intros Hn. unfold strncmp. by rewrite strncmp_loop_spec, Z2Nat.id. Qed.

Lemma strncmp_spec_witness :
  let m := fun a => if a mod 10 =? 3 then 0 else a mod 10 in strncmp m 20 40 14 = 0.
Proof.
  intros m. apply (strncmp_spec m 20 40 14); [lia|]. intros i Hi _.
  unfold m. replace ((40 + i) mod 10) with ((20 + i) mod 10); [done|].
  replace (40 + i) with (20 + i + 2 * 10) by lia. by rewrite Z.mod_add.
Defined.
