(* ===== verification/Spinlock.v ===== *)
(** * CPUs and spin locks (proc.h, proc.c, spinlock.c)

    The per-CPU state of proc.h, the machine as one CPU sees it, and the
    interrupt and lock primitives of spinlock.c.  The second part is the same
    lock run by several CPUs, one memory access at a time.

    The code below is generic in the kernel state [S]: a component that owns
    locks gives an instance of [HasMach] and, for each lock, a [lockref]. *)

From stdpp Require Import base tactics list sets strings.
From Stdlib Require Import ZArith Lia.
From S2P Require Import Prelude Params.
Open Scope Z_scope.

(** ** Data *)

(** mmu.h, struct segdesc. *)
Record segdesc := mkSeg {
  lim_15_0 : Z;
  base_15_0 : Z;
  base_23_16 : Z;
  sd_type : Z;
  sd_s : Z;
  sd_dpl : Z;
  sd_p : Z;
  lim_19_16 : Z;
  sd_avl : Z;
  sd_rsv1 : Z;
  sd_db : Z;
  sd_g : Z;
  base_31_24 : Z
}.

(** mmu.h, SEG16. *)
Definition SEG16 (type base lim dpl : Z) : segdesc :=
  mkSeg (Z.land lim 0xffff) (Z.land (u32 base) 0xffff)
    (Z.land (Z.shiftr (u32 base) 16) 0xff) type 1 dpl 1
    (Z.shiftr (u32 lim) 16) 0 0 1 0 (Z.shiftr (u32 base) 24).

Definition set_sd_s (v : Z) (d : segdesc) : segdesc :=
  mkSeg (lim_15_0 d) (base_15_0 d) (base_23_16 d) (sd_type d) v (sd_dpl d) (sd_p d) (lim_19_16 d)
    (sd_avl d) (sd_rsv1 d) (sd_db d) (sd_g d) (base_31_24 d).

(** proc.h, struct cpu.  [ts_addr] is the address of [ts]; of the task state
    and the descriptor table only what the kernel writes after boot is kept. *)
Record cpu := mkCpu {
  apicid : Z;
  started : Z;
  ncli : Z;
  intena : Z;
  c_proc : option nat;
  c_queue : option nat;
  ts_addr : Z;
  ts_esp0 : Z;
  ts_ss0 : Z;
  ts_iomb : Z;
  gdt_tss : segdesc
}.
Definition set_apicid (v : Z) (r : cpu) : cpu :=
  mkCpu v (started r) (ncli r) (intena r) (c_proc r) (c_queue r) (ts_addr r) (ts_esp0 r) (ts_ss0 r) (ts_iomb r) (gdt_tss r).
Definition set_started (v : Z) (r : cpu) : cpu :=
  mkCpu (apicid r) v (ncli r) (intena r) (c_proc r) (c_queue r) (ts_addr r) (ts_esp0 r) (ts_ss0 r) (ts_iomb r) (gdt_tss r).
Definition set_ncli (v : Z) (r : cpu) : cpu :=
  mkCpu (apicid r) (started r) v (intena r) (c_proc r) (c_queue r) (ts_addr r) (ts_esp0 r) (ts_ss0 r) (ts_iomb r) (gdt_tss r).
Definition set_intena (v : Z) (r : cpu) : cpu :=
  mkCpu (apicid r) (started r) (ncli r) v (c_proc r) (c_queue r) (ts_addr r) (ts_esp0 r) (ts_ss0 r) (ts_iomb r) (gdt_tss r).
Definition set_c_proc (v : option nat) (r : cpu) : cpu :=
  mkCpu (apicid r) (started r) (ncli r) (intena r) v (c_queue r) (ts_addr r) (ts_esp0 r) (ts_ss0 r) (ts_iomb r) (gdt_tss r).
Definition set_c_queue (v : option nat) (r : cpu) : cpu :=
  mkCpu (apicid r) (started r) (ncli r) (intena r) (c_proc r) v (ts_addr r) (ts_esp0 r) (ts_ss0 r) (ts_iomb r) (gdt_tss r).
Definition set_ts_addr (v : Z) (r : cpu) : cpu :=
  mkCpu (apicid r) (started r) (ncli r) (intena r) (c_proc r) (c_queue r) v (ts_esp0 r) (ts_ss0 r) (ts_iomb r) (gdt_tss r).
Definition set_ts_esp0 (v : Z) (r : cpu) : cpu :=
  mkCpu (apicid r) (started r) (ncli r) (intena r) (c_proc r) (c_queue r) (ts_addr r) v (ts_ss0 r) (ts_iomb r) (gdt_tss r).
Definition set_ts_ss0 (v : Z) (r : cpu) : cpu :=
  mkCpu (apicid r) (started r) (ncli r) (intena r) (c_proc r) (c_queue r) (ts_addr r) (ts_esp0 r) v (ts_iomb r) (gdt_tss r).
Definition set_ts_iomb (v : Z) (r : cpu) : cpu :=
  mkCpu (apicid r) (started r) (ncli r) (intena r) (c_proc r) (c_queue r) (ts_addr r) (ts_esp0 r) (ts_ss0 r) v (gdt_tss r).
Definition set_gdt_tss (v : segdesc) (r : cpu) : cpu :=
  mkCpu (apicid r) (started r) (ncli r) (intena r) (c_proc r) (c_queue r) (ts_addr r) (ts_esp0 r) (ts_ss0 r) (ts_iomb r) v.

(** The machine as the executing CPU sees it: the table [cpus], [ncpu], what
    [lapicid()] returns here, and this CPU's interrupt flag, page table register
    and task register. *)
Record mach := mkMach {
  cpus : list cpu;
  ncpu : nat;
  lapicid : Z;
  iflag : bool;
  cr3 : Z;
  tr : Z
}.
Definition set_cpus (v : list cpu) (r : mach) : mach :=
  mkMach v (ncpu r) (lapicid r) (iflag r) (cr3 r) (tr r).
Definition set_ncpu (v : nat) (r : mach) : mach :=
  mkMach (cpus r) v (lapicid r) (iflag r) (cr3 r) (tr r).
Definition set_lapicid (v : Z) (r : mach) : mach :=
  mkMach (cpus r) (ncpu r) v (iflag r) (cr3 r) (tr r).
Definition set_iflag (v : bool) (r : mach) : mach :=
  mkMach (cpus r) (ncpu r) (lapicid r) v (cr3 r) (tr r).
Definition set_cr3 (v : Z) (r : mach) : mach :=
  mkMach (cpus r) (ncpu r) (lapicid r) (iflag r) v (tr r).
Definition set_tr (v : Z) (r : mach) : mach :=
  mkMach (cpus r) (ncpu r) (lapicid r) (iflag r) (cr3 r) v.

(** spinlock.h, struct spinlock.  The [pcs] array is written by [acquire] and
    [release] for debugging and read nowhere, so it is left out; [getcallerpcs]
    is modelled on its own below. *)
Record spinlock := mkLock {
  locked : Z;
  lk_name : string;
  lk_cpu : option nat
}.
Definition set_locked (v : Z) (r : spinlock) : spinlock :=
  mkLock v (lk_name r) (lk_cpu r).
Definition set_lk_name (v : string) (r : spinlock) : spinlock :=
  mkLock (locked r) v (lk_cpu r).
Definition set_lk_cpu (v : option nat) (r : spinlock) : spinlock :=
  mkLock (locked r) (lk_name r) v.

Class HasMach (S : Type) := {
  mach_of : S -> mach;
  set_mach : mach -> S -> S;
  mach_of_set : forall m s, mach_of (set_mach m s) = m;
  set_mach_set : forall m m' s, set_mach m (set_mach m' s) = set_mach m s;
  set_mach_same : forall s, set_mach (mach_of s) s = s
}.

(** A lock in the state: [lk_get] is [None] when the pointer is not valid. *)
Record lockref (S : Type) := mkLockref {
  lk_get : S -> option spinlock;
  lk_set : spinlock -> S -> S
}.
Arguments mkLockref {S}.
Arguments lk_get {S}.
Arguments lk_set {S}.

(** A lock in the state behaves as a memory cell apart from the machine. *)
Class LockLaws {S : Type} `{HasMach S} (L : lockref S) := {
  lk_get_set : forall l l0 s, lk_get L s = Some l0 -> lk_get L (lk_set L l s) = Some l;
  lk_set_set : forall l l' s, lk_set L l (lk_set L l' s) = lk_set L l s;
  lk_set_same : forall l s, lk_get L s = Some l -> lk_set L l s = s;
  lk_get_mach : forall m s, lk_get L (set_mach m s) = lk_get L s;
  lk_mach_set : forall l s, mach_of (lk_set L l s) = mach_of s;
  lk_set_mach : forall l m s, lk_set L l (set_mach m s) = set_mach m (lk_set L l s)
}.

(** ** Operations *)

Section Ops.
Context {S : Type} `{HasMach S}.

Definition readeflags_IF : M S bool := gets (fun s => iflag (mach_of s)).
Definition upd_mach (f : mach -> mach) : M S unit := modify (fun s => set_mach (f (mach_of s)) s).
Definition cli : M S unit := upd_mach (set_iflag false).
Definition sti : M S unit := upd_mach (set_iflag true).

(** proc.c, mycpu: the index in [cpus] of the executing CPU. *)
Definition mycpu : M S nat :=
  b <- readeflags_IF ;;
  if b then panic "mycpu called with interrupts enabled" else
  m <- gets mach_of ;;
  r <- for_find (seq 0 (ncpu m)) (fun i =>
         c <- deref (cpus m !! i) ;;
         ret (if apicid c =? lapicid m then Some i else None)) ;;
  match r with Some i => ret i | None => panic "unknown apicid" end.

(** proc.c, cpuid. *)
Definition cpuid : M S nat := mycpu.

Definition get_cpu (i : nat) : M S cpu := m <- gets mach_of ;; deref (cpus m !! i).
Definition upd_cpu (i : nat) (f : cpu -> cpu) : M S unit :=
  upd_mach (fun m => set_cpus (alter f i (cpus m)) m).

Definition pushcli : M S unit :=
  eflags <- readeflags_IF ;;
  cli ;;;
  i <- mycpu ;; c <- get_cpu i ;;
  when (ncli c =? 0) (upd_cpu i (set_intena (if (eflags : bool) then FL_IF else 0))) ;;;
  i <- mycpu ;; upd_cpu i (fun c => set_ncli (i32 (ncli c + 1)) c).

Definition popcli : M S unit :=
  b <- readeflags_IF ;;
  if b then panic "popcli - interruptible" else
  i <- mycpu ;; upd_cpu i (fun c => set_ncli (i32 (ncli c - 1)) c) ;;;
  c <- get_cpu i ;;
  if ncli c <? 0 then panic "popcli" else
  when ((ncli c =? 0) && negb (intena c =? 0)) sti.

(** proc.c, myproc. *)
Definition myproc : M S (option nat) :=
  pushcli ;;;
  i <- mycpu ;; c <- get_cpu i ;;
  popcli ;;;
  ret (c_proc c).

Definition initlock (L : lockref S) (name : string) : M S unit :=
  modify (fun s => lk_set L (mkLock 0 name None) s).

Definition load_lock (L : lockref S) : M S spinlock := s <- get ;; deref (lk_get L s).

Definition holding (L : lockref S) : M S bool :=
  pushcli ;;;
  l <- load_lock L ;; i <- mycpu ;;
  popcli ;;;
  ret (negb (locked l =? 0) && bool_decide (lk_cpu l = Some i)).

(** The [xchg] loop is left at once when the lock is free.  When it is not, the
    CPU spins with interrupts off, and only another CPU can free the lock. *)
Definition acquire (L : lockref S) : M S unit :=
  pushcli ;;;
  h <- holding L ;;
  if h then panic "acquire" else
  l <- load_lock L ;;
  if negb (locked l =? 0) then spin else
  modify (lk_set L (set_locked 1 l)) ;;;
  i <- mycpu ;;
  l <- load_lock L ;;
  modify (lk_set L (set_lk_cpu (Some i) l)).

Definition release (L : lockref S) : M S unit :=
  h <- holding L ;;
  if negb h then panic "release" else
  l <- load_lock L ;;
  modify (lk_set L (set_lk_cpu None l)) ;;;
  l <- load_lock L ;;
  modify (lk_set L (set_locked 0 l)) ;;;
  popcli.

End Ops.

(** spinlock.c, getcallerpcs: [mem] reads a 32-bit word of memory, [v] is the
    address of the first argument of the caller. *)
Fixpoint getcallerpcs_walk (n : nat) (mem : Z -> Z) (ebp : Z) : list Z :=
  match n with
  | O => []
  | S n =>
      if (ebp =? 0) || (ebp <? KERNBASE) || (ebp =? 0xffffffff) then repeat 0 (S n)
      else mem (u32 (ebp + 4)) :: getcallerpcs_walk n mem (mem ebp)
  end.
Definition getcallerpcs (mem : Z -> Z) (v : Z) : list Z :=
  getcallerpcs_walk 10 mem (u32 (v - 8)).

(** ** Sequential behaviour *)

Definition put_cpu (i : nat) (c : cpu) (m : mach) : mach := set_cpus (<[i := c]> (cpus m)) m.

(** CPU [i], in state [c], is the one executing on [m]; interrupts are off
    while it is inside a [pushcli]. *)
Record this_cpu (m : mach) (i : nat) (c : cpu) : Prop := {
  tc_lookup : cpus m !! i = Some c;
  tc_apicid : apicid c = lapicid m;
  tc_first : forall j c', (j < i)%nat -> cpus m !! j = Some c' -> apicid c' <> lapicid m;
  tc_ncpu : (i < ncpu m)%nat;
  tc_ncli : 0 <= ncli c < 2 ^ 31 - 2;
  tc_iflag : 0 < ncli c -> iflag m = false
}.

(** What [pushcli] does to its CPU, and what a [pushcli]/[popcli] pair leaves. *)
Definition note_intena (fl : bool) (c : cpu) : cpu :=
  if ncli c =? 0 then set_intena (if fl then FL_IF else 0) c else c.
Definition pushed (fl : bool) (c : cpu) : cpu := set_ncli (ncli c + 1) (note_intena fl c).
Definition popped (c : cpu) : cpu := set_ncli (ncli c - 1) c.
Definition push_mach (i : nat) (c : cpu) (m : mach) : mach :=
  set_iflag false (put_cpu i (pushed (iflag m) c) m).
Definition pop_mach (i : nat) (c : cpu) (m : mach) : mach :=
  set_iflag ((ncli c =? 1) && negb (intena c =? 0)) (put_cpu i (popped c) m).
Definition touch_mach (i : nat) (c : cpu) (m : mach) : mach :=
  put_cpu i (note_intena (iflag m) c) m.

Lemma put_cpu_lookup i c c0 m : cpus m !! i = Some c0 -> cpus (put_cpu i c m) !! i = Some c.
Proof. intros. simpl. apply list_lookup_insert_eq. by eapply lookup_lt_Some. Qed.

Lemma put_cpu_put i c c' m : put_cpu i c (put_cpu i c' m) = put_cpu i c m.
Proof. unfold put_cpu, set_cpus; simpl. by rewrite list_insert_insert_eq. Qed.

Lemma put_cpu_same i c m : cpus m !! i = Some c -> put_cpu i c m = m.
Proof. intros. unfold put_cpu, set_cpus. rewrite list_insert_id by done. by destruct m. Qed.

(** Changing the executing CPU keeps it the executing one. *)
Lemma this_cpu_put m i c c' fl :
  this_cpu m i c -> apicid c' = apicid c -> 0 <= ncli c' < 2 ^ 31 - 2 ->
  (0 < ncli c' -> fl = false) ->
  this_cpu (set_iflag fl (put_cpu i c' m)) i c'.
Proof.
  intros [Hl Ha Hf Hn Hc Hi] Hid Hr Hfl. constructor; simpl; try done.
  - by apply (put_cpu_lookup i c' c m).
  - congruence.
  - intros j cj Hj. rewrite list_lookup_insert_ne by lia. by apply Hf.
Qed.

Lemma note_intena_fields fl c :
  apicid (note_intena fl c) = apicid c /\ ncli (note_intena fl c) = ncli c /\
  c_proc (note_intena fl c) = c_proc c /\ c_queue (note_intena fl c) = c_queue c.
Proof. unfold note_intena. by destruct (ncli c =? 0). Qed.

Lemma this_cpu_touch m i c :
  this_cpu m i c -> this_cpu (touch_mach i c m) i (note_intena (iflag m) c).
Proof.
  intros Ht. destruct (note_intena_fields (iflag m) c) as (Ha & Hn & _).
  pose proof (this_cpu_put m i c (note_intena (iflag m) c) (iflag m) Ht Ha) as Hp.
  rewrite Hn in Hp. specialize (Hp (tc_ncli _ _ _ Ht) (tc_iflag _ _ _ Ht)).
  by destruct m.
Qed.

Lemma touch_nested m i c : this_cpu m i c -> 0 < ncli c -> touch_mach i c m = m.
Proof.
  intros Ht Hn. unfold touch_mach, note_intena.
  destruct (Z.eqb_spec (ncli c) 0); [lia|]. apply put_cpu_same. apply Ht.
Qed.

Section OpsFacts.
Context {S : Type} `{HasMach S}.
Implicit Types (s : S).

Lemma mycpu_eq s i c :
  this_cpu (mach_of s) i c -> iflag (mach_of s) = false -> mycpu s = Ret i s.
Proof.
  intros [Hl Ha Hf Hn _ _] Hi. unfold mycpu, readeflags_IF. ksteps. rewrite Hi. ksteps.
  rewrite (bind_Ret _ _ _ (Some i) s); [done|]. apply (for_find_seq_hit _ _ i).
  - lia.
  - intros j Hj. destruct (lookup_lt_is_Some_2 (cpus (mach_of s)) j) as [cj Hcj].
    { apply lookup_lt_Some in Hl. lia. }
    rewrite (bind_deref _ cj) by done.
    destruct (Z.eqb_spec (apicid cj) (lapicid (mach_of s))); [|done].
    by destruct (Hf j cj ltac:(lia) Hcj).
  - rewrite (bind_deref _ c) by done. rewrite Ha, Z.eqb_refl. done.
Qed.

Lemma upd_cpu_eq s i c f :
  cpus (mach_of s) !! i = Some c -> upd_cpu i f s = Ret tt (set_mach (put_cpu i (f c) (mach_of s)) s).
Proof.
  intros Hl. unfold upd_cpu, upd_mach, modify, put_cpu. by rewrite (alter_Some_insert f _ _ c Hl).
Qed.

Lemma get_cpu_eq s i c : cpus (mach_of s) !! i = Some c -> get_cpu i s = Ret c s.
Proof. intros Hl. unfold get_cpu. ksteps. by rewrite Hl. Qed.

Lemma pushcli_eq s i c :
  this_cpu (mach_of s) i c -> pushcli s = Ret tt (set_mach (push_mach i c (mach_of s)) s).
Proof.
  intros Ht. pose proof (tc_lookup _ _ _ Ht) as Hl. pose proof (tc_ncli _ _ _ Ht) as Hn.
  unfold pushcli, readeflags_IF, cli, upd_mach. ksteps.
  set (m0 := mach_of s) in *.
  assert (forall m, cpus m = cpus m0 -> lapicid m = lapicid m0 -> ncpu m = ncpu m0 ->
          iflag m = false -> mycpu (set_mach m s) = Ret i (set_mach m s)) as Hmy.
  { intros m E1 E2 E3 E4. apply (mycpu_eq _ _ c); rewrite mach_of_set; [|done].
    destruct Ht. constructor; rewrite ?E1, ?E2, ?E3; auto. }
  rewrite (bind_Ret _ _ _ _ _ (Hmy (set_iflag false m0) eq_refl eq_refl eq_refl eq_refl)).
  rewrite (bind_Ret _ _ _ c (set_mach (set_iflag false m0) s)).
  2:{ apply get_cpu_eq. by rewrite mach_of_set. }
  unfold push_mach, pushed, note_intena.
  destruct (Z.eqb_spec (ncli c) 0) as [E|E]; simpl when.
  - erewrite bind_Ret by (apply (upd_cpu_eq _ _ c); by rewrite mach_of_set).
    rewrite mach_of_set, set_mach_set.
    set (c1 := set_intena _ c). set (m1 := put_cpu i c1 _).
    assert (this_cpu m1 i c1) as Ht1.
    { apply (this_cpu_put m0 i c c1 false Ht); done. }
    erewrite bind_Ret by (apply (mycpu_eq _ i c1); rewrite mach_of_set; done).
    erewrite (upd_cpu_eq _ _ c1) by (rewrite mach_of_set; apply Ht1).
    rewrite mach_of_set, set_mach_set. unfold m1. rewrite put_cpu_put.
    rewrite i32_id by (simpl; lia). done.
  - rewrite bind_ret.
    rewrite (bind_Ret _ _ _ _ _ (Hmy (set_iflag false m0) eq_refl eq_refl eq_refl eq_refl)).
    erewrite (upd_cpu_eq _ _ c) by (by rewrite mach_of_set).
    rewrite mach_of_set, set_mach_set, i32_id by lia. done.
Qed.

Lemma popcli_eq s i c :
  this_cpu (mach_of s) i c -> 0 < ncli c ->
  popcli s = Ret tt (set_mach (pop_mach i c (mach_of s)) s).
Proof.
  intros Ht Hn. pose proof (tc_lookup _ _ _ Ht) as Hl. pose proof (tc_ncli _ _ _ Ht) as Hr.
  pose proof (tc_iflag _ _ _ Ht Hn) as Hi.
  unfold popcli, readeflags_IF. ksteps. rewrite Hi.
  rewrite (bind_Ret _ _ _ _ _ (mycpu_eq s i c Ht Hi)).
  rewrite (bind_Ret _ _ _ _ _ (upd_cpu_eq s i c _ Hl)).
  erewrite bind_Ret.
  2:{ apply get_cpu_eq. rewrite mach_of_set. by apply (put_cpu_lookup i _ c). }
  cbv beta. rewrite i32_id by (simpl; lia). fold (popped c).
  change (ncli (popped c)) with (ncli c - 1). change (intena (popped c)) with (intena c).
  destruct (Z.ltb_spec (ncli c - 1) 0); [lia|].
  unfold pop_mach. replace (ncli c =? 1) with (ncli c - 1 =? 0) by lia.
  destruct ((ncli c - 1 =? 0) && negb (intena c =? 0)); simpl when.
  - unfold sti, upd_mach, modify. by rewrite mach_of_set, set_mach_set.
  - unfold ret. f_equal. f_equal. destruct (mach_of s); simpl in *. by subst.
Qed.

Lemma this_cpu_push m i c : this_cpu m i c -> ncli c < 2 ^ 31 - 3 ->
  this_cpu (push_mach i c m) i (pushed (iflag m) c).
Proof.
  intros Ht Hb. pose proof (tc_ncli _ _ _ Ht).
  destruct (note_intena_fields (iflag m) c) as (Ha & Hn & _).
  apply (this_cpu_put m i c); simpl; try done; lia.
Qed.

Lemma pop_push m i c :
  this_cpu m i c -> pop_mach i (pushed (iflag m) c) (push_mach i c m) = touch_mach i c m.
Proof.
  intros Ht. pose proof (tc_ncli _ _ _ Ht) as Hn. pose proof (tc_iflag _ _ _ Ht) as Hi.
  unfold pop_mach, push_mach, touch_mach.
  replace (popped (pushed (iflag m) c)) with (note_intena (iflag m) c).
  2:{ unfold popped, pushed, note_intena. destruct c as [? ? n ?]; simpl.
      replace (n + 1 - 1) with n by lia. by destruct (n =? 0). }
  replace ((ncli (pushed (iflag m) c) =? 1) && negb (intena (pushed (iflag m) c) =? 0)) with (iflag m).
  - unfold put_cpu, set_cpus, set_iflag; simpl. by rewrite list_insert_insert_eq.
  - unfold pushed, note_intena; simpl. destruct (Z.eqb_spec (ncli c) 0) as [E|E]; simpl.
    + rewrite E. by destruct (iflag m).
    + rewrite Hi by lia. destruct (Z.eqb_spec (ncli c + 1) 1); [lia|done].
Qed.

(** Reading something between a [pushcli] and a [popcli]. *)
Lemma myproc_eq s i c :
  this_cpu (mach_of s) i c -> ncli c < 2 ^ 31 - 3 ->
  myproc s = Ret (c_proc c) (set_mach (touch_mach i c (mach_of s)) s).
Proof.
  intros Ht Hb. pose proof (tc_ncli _ _ _ Ht) as Hn.
  pose proof (this_cpu_push _ _ _ Ht Hb) as Htp.
  unfold myproc. rewrite (bind_Ret _ _ _ _ _ (pushcli_eq s i c Ht)).
  rewrite (bind_Ret _ _ _ i (set_mach (push_mach i c (mach_of s)) s)).
  2:{ apply (mycpu_eq _ _ (pushed (iflag (mach_of s)) c)); rewrite mach_of_set; done. }
  rewrite (bind_Ret _ _ _ (pushed (iflag (mach_of s)) c) (set_mach (push_mach i c (mach_of s)) s)).
  2:{ apply get_cpu_eq. rewrite mach_of_set. apply Htp. }
  rewrite (bind_Ret _ _ _ tt (set_mach (touch_mach i c (mach_of s)) s)).
  2:{ rewrite (popcli_eq _ i (pushed (iflag (mach_of s)) c)); rewrite ?mach_of_set; try done.
      - by rewrite set_mach_set, pop_push.
      - unfold pushed; simpl. lia. }
  unfold ret. f_equal. unfold pushed; simpl. apply note_intena_fields.
Qed.

Section Lock.
Context (L : lockref S) `{!LockLaws L}.

Definition free_lock (l : spinlock) : Prop := locked l = 0 /\ lk_cpu l = None.
Definition held_by (i : nat) (l : spinlock) : Prop := locked l = 1 /\ lk_cpu l = Some i.

Lemma load_lock_eq s l : lk_get L s = Some l -> load_lock L s = Ret l s.
Proof. intros Hl. unfold load_lock. ksteps. by rewrite Hl. Qed.

Lemma holding_eq s i c l :
  this_cpu (mach_of s) i c -> ncli c < 2 ^ 31 - 3 -> lk_get L s = Some l ->
  holding L s = Ret (negb (locked l =? 0) && bool_decide (lk_cpu l = Some i))
                    (set_mach (touch_mach i c (mach_of s)) s).
Proof.
  intros Ht Hb Hl. pose proof (this_cpu_push _ _ _ Ht Hb) as Htp.
  pose proof (tc_ncli _ _ _ Ht) as Hn.
  unfold holding. rewrite (bind_Ret _ _ _ _ _ (pushcli_eq s i c Ht)).
  rewrite (bind_Ret _ _ _ l (set_mach (push_mach i c (mach_of s)) s)).
  2:{ apply load_lock_eq. by rewrite lk_get_mach. }
  rewrite (bind_Ret _ _ _ i (set_mach (push_mach i c (mach_of s)) s)).
  2:{ apply (mycpu_eq _ _ (pushed (iflag (mach_of s)) c)); rewrite mach_of_set; done. }
  rewrite (bind_Ret _ _ _ tt (set_mach (touch_mach i c (mach_of s)) s)); [done|].
  rewrite (popcli_eq _ i (pushed (iflag (mach_of s)) c)); rewrite ?mach_of_set; try done.
  - by rewrite set_mach_set, pop_push.
  - unfold pushed; simpl. lia.
Qed.

(** Inside a [pushcli], [holding] does not change the state. *)
Lemma holding_nested s i c l :
  this_cpu (mach_of s) i c -> 0 < ncli c < 2 ^ 31 - 3 -> lk_get L s = Some l ->
  holding L s = Ret (negb (locked l =? 0) && bool_decide (lk_cpu l = Some i)) s.
Proof.
  intros Ht Hb Hl. rewrite (holding_eq s i c l Ht) by (done || lia).
  by rewrite (touch_nested _ _ _ Ht), set_mach_same by lia.
Qed.

(** Taking a free lock: it is held by this CPU, one [pushcli] deeper. *)
Lemma acquire_eq s i c l :
  this_cpu (mach_of s) i c -> ncli c < 2 ^ 31 - 4 -> lk_get L s = Some l -> free_lock l ->
  acquire L s = Ret tt (lk_set L (mkLock 1 (lk_name l) (Some i))
                          (set_mach (push_mach i c (mach_of s)) s)).
Proof.
  intros Ht Hb Hl [Hf0 Hf1]. pose proof (this_cpu_push _ _ _ Ht ltac:(lia)) as Htp.
  pose proof (tc_ncli _ _ _ Ht) as Hn.
  unfold acquire. rewrite (bind_Ret _ _ _ _ _ (pushcli_eq s i c Ht)).
  set (s1 := set_mach _ s). assert (mach_of s1 = push_mach i c (mach_of s)) as Hm1 by apply mach_of_set.
  assert (lk_get L s1 = Some l) as Hl1 by (unfold s1; by rewrite lk_get_mach).
  assert (ncli (pushed (iflag (mach_of s)) c) = ncli c + 1) as Hnp by done.
  rewrite (bind_Ret _ _ _ false s1).
  2:{ rewrite (holding_nested s1 i (pushed (iflag (mach_of s)) c) l); rewrite ?Hm1; try done; [|lia].
      by rewrite Hf0. }
  rewrite (bind_Ret _ _ _ _ _ (load_lock_eq s1 l Hl1)). rewrite Hf0; simpl. ksteps.
  rewrite (bind_Ret _ _ _ i (lk_set L (set_locked 1 l) s1)).
  2:{ apply (mycpu_eq _ _ (pushed (iflag (mach_of s)) c)); rewrite lk_mach_set, Hm1; done. }
  erewrite bind_Ret by (apply load_lock_eq; by eapply lk_get_set).
  unfold modify. by rewrite lk_set_set.
Qed.

(** Releasing a lock this CPU holds: it is free, one [pushcli] less deep. *)
Lemma release_eq s i c l :
  this_cpu (mach_of s) i c -> 0 < ncli c < 2 ^ 31 - 3 -> lk_get L s = Some l -> held_by i l ->
  release L s = Ret tt (lk_set L (mkLock 0 (lk_name l) None)
                          (set_mach (pop_mach i c (mach_of s)) s)).
Proof.
  intros Ht Hn Hl [Hh0 Hh1]. unfold release.
  rewrite (bind_Ret _ _ _ _ _ (holding_nested s i c l Ht Hn Hl)).
  rewrite Hh0, Hh1, bool_decide_true by done. simpl.
  rewrite (bind_Ret _ _ _ _ _ (load_lock_eq s l Hl)). ksteps.
  erewrite bind_Ret by (apply load_lock_eq; by eapply lk_get_set). ksteps.
  rewrite lk_set_set. simpl.
  rewrite (popcli_eq _ i c) by (rewrite ?lk_mach_set; done || lia).
  by rewrite lk_mach_set, lk_set_mach.
Qed.

Lemma acquire_held_panics s i c l :
  this_cpu (mach_of s) i c -> ncli c < 2 ^ 31 - 4 -> lk_get L s = Some l -> held_by i l ->
  acquire L s = Panic "acquire".
Proof.
  intros Ht Hb Hl [Hh0 Hh1]. pose proof (this_cpu_push _ _ _ Ht ltac:(lia)) as Htp.
  pose proof (tc_ncli _ _ _ Ht) as Hn.
  unfold acquire. rewrite (bind_Ret _ _ _ _ _ (pushcli_eq s i c Ht)).
  rewrite (bind_Ret _ _ _ true (set_mach (push_mach i c (mach_of s)) s)); [done|].
  rewrite (holding_nested _ i (pushed (iflag (mach_of s)) c) l); rewrite ?mach_of_set, ?lk_get_mach; try done.
  - by rewrite Hh0, Hh1, bool_decide_true.
  - unfold pushed; simpl; lia.
Qed.

Lemma release_not_held_panics s i c l :
  this_cpu (mach_of s) i c -> ncli c < 2 ^ 31 - 3 -> lk_get L s = Some l -> ~ held_by i l ->
  locked l = 0 \/ locked l = 1 ->
  release L s = Panic "release".
Proof.
  intros Ht Hb Hl Hnh Hz. unfold release.
  rewrite (bind_Ret _ _ _ _ _ (holding_eq s i c l Ht Hb Hl)).
  destruct Hz as [->|E]; simpl; [done|]. rewrite E; simpl.
  rewrite bool_decide_false; [done|]. intros ?. by apply Hnh.
Qed.

End Lock.
End OpsFacts.

(** ** What code may rely on between interrupts

    [kcpu i m n cp cq]: CPU [i] is executing, inside [n] calls of [pushcli], with
    current process [cp] and queue [cq].  The exact machine state is [m]; how the
    operations change it beyond this does not matter to their callers. *)
Definition kcpu (i : nat) (m : mach) (n : Z) (cp cq : option nat) : Prop :=
  exists c, this_cpu m i c /\ ncli c = n /\ c_proc c = cp /\ c_queue c = cq.

(** Whether interrupts are on outside the calls of [pushcli] that CPU [i] is in. *)
Definition if_saved (i : nat) (m : mach) : bool :=
  match cpus m !! i with
  | Some c => if ncli c =? 0 then iflag m else negb (intena c =? 0)
  | None => false
  end.

(** Far from the overflow of [ncli]. *)
Definition shallow (n : Z) : Prop := 0 <= n < 2 ^ 20.

Section Kcpu.
Context {S : Type} `{HasMach S}.
Implicit Types (s : S) (m : mach).

Lemma kcpu_iflag i m n cp cq : kcpu i m n cp cq -> 0 < n -> iflag m = false.
Proof. intros (c & Ht & Hn & _) Hp. apply (tc_iflag _ _ _ Ht). lia. Qed.

Lemma k_mycpu i s n cp cq : kcpu i (mach_of s) n cp cq -> 0 < n -> mycpu s = Ret i s.
Proof.
  intros Hk Hn. pose proof (kcpu_iflag _ _ _ _ _ Hk Hn). destruct Hk as (c & Ht & _).
  by apply (mycpu_eq s i c).
Qed.

(** With interrupts off, at any depth. *)
Lemma k_mycpu_off i s n cp cq : kcpu i (mach_of s) n cp cq -> iflag (mach_of s) = false -> mycpu s = Ret i s.
Proof. intros (c & Ht & _) Hi. by apply (mycpu_eq s i c). Qed.

Lemma k_get_cpu i s n cp cq : kcpu i (mach_of s) n cp cq ->
  exists c, get_cpu i s = Ret c s /\ ncli c = n /\ c_proc c = cp /\ c_queue c = cq.
Proof. intros (c & Ht & Hc). exists c. split; [|done]. apply get_cpu_eq. apply Ht. Qed.

Lemma k_upd_cpu i s n cp cq f : kcpu i (mach_of s) n cp cq ->
  (forall c, apicid (f c) = apicid c /\ ncli (f c) = ncli c) ->
  (forall c c', c_proc c = c_proc c' -> c_proc (f c) = c_proc (f c')) ->
  (forall c c', c_queue c = c_queue c' -> c_queue (f c) = c_queue (f c')) ->
  forall c0, c_proc c0 = cp -> c_queue c0 = cq ->
  exists m, upd_cpu i f s = Ret tt (set_mach m s) /\ kcpu i m n (c_proc (f c0)) (c_queue (f c0)) /\
    cr3 m = cr3 (mach_of s) /\ iflag m = iflag (mach_of s).
Proof.
  intros (c & Ht & Hn & Hp & Hq) Hf Hfp Hfq c0 Hp0 Hq0.
  eexists. split; [apply (upd_cpu_eq s i c); apply Ht|]. split; [|done].
  destruct (Hf c) as [Ha Hc]. exists (f c). split; [|split; [congruence|split]].
  - pose proof (this_cpu_put (mach_of s) i c (f c) (iflag (mach_of s)) Ht Ha) as Hput.
    rewrite Hc in Hput. specialize (Hput (tc_ncli _ _ _ Ht) (tc_iflag _ _ _ Ht)).
    by destruct (mach_of s).
  - apply Hfp. congruence.
  - apply Hfq. congruence.
Qed.

Lemma kcpu_touch i m n cp cq c : this_cpu m i c -> ncli c = n -> c_proc c = cp -> c_queue c = cq ->
  kcpu i (touch_mach i c m) n cp cq.
Proof.
  intros Ht Hn Hp Hq. exists (note_intena (iflag m) c). split; [by apply this_cpu_touch|].
  destruct (note_intena_fields (iflag m) c) as (_ & H1 & H2 & H3). by rewrite H1, H2, H3.
Qed.

Lemma k_myproc i s n cp cq : kcpu i (mach_of s) n cp cq -> shallow n ->
  exists m, myproc s = Ret cp (set_mach m s) /\ kcpu i m n cp cq /\
    cr3 m = cr3 (mach_of s) /\ iflag m = iflag (mach_of s).
Proof.
  intros (c & Ht & Hn & Hp & Hq) Hs. unfold shallow in Hs. eexists. split; [|split].
  - rewrite <- Hp. apply (myproc_eq s i c Ht). lia.
  - by apply kcpu_touch.
  - done.
Qed.

Lemma kcpu_push i m n cp cq c : this_cpu m i c -> ncli c = n -> c_proc c = cp -> c_queue c = cq ->
  shallow n -> kcpu i (push_mach i c m) (n + 1) cp cq.
Proof.
  intros Ht Hn Hp Hq Hs. unfold shallow in Hs. exists (pushed (iflag m) c).
  split; [apply this_cpu_push; [done|lia]|]. unfold pushed; simpl.
  destruct (note_intena_fields (iflag m) c) as (_ & H1 & H2 & H3). rewrite H2, H3. split; [lia|done].
Qed.

Lemma k_pushcli i s n cp cq : kcpu i (mach_of s) n cp cq -> shallow n ->
  exists m, pushcli s = Ret tt (set_mach m s) /\ kcpu i m (n + 1) cp cq /\ cr3 m = cr3 (mach_of s).
Proof.
  intros (c & Ht & Hn & Hp & Hq) Hs. eexists. split; [by apply pushcli_eq|]. split; [|done].
  by apply kcpu_push.
Qed.

Lemma kcpu_pop i m n cp cq c : this_cpu m i c -> ncli c = n -> c_proc c = cp -> c_queue c = cq ->
  0 < n -> kcpu i (pop_mach i c m) (n - 1) cp cq.
Proof.
  intros Ht Hn Hp Hq Hs. pose proof (tc_ncli _ _ _ Ht). exists (popped c).
  split; [|unfold popped; simpl; split; [lia|done]].
  apply (this_cpu_put m i c); unfold popped; simpl; try done; [lia|].
  intros. destruct (Z.eqb_spec (ncli c) 1); [lia|done].
Qed.

Lemma k_popcli i s n cp cq : kcpu i (mach_of s) n cp cq -> 0 < n ->
  exists m, popcli s = Ret tt (set_mach m s) /\ kcpu i m (n - 1) cp cq /\ cr3 m = cr3 (mach_of s).
Proof.
  intros (c & Ht & Hn & Hp & Hq) Hs. eexists. split; [apply popcli_eq; [done|lia]|]. split; [|done].
  by apply kcpu_pop.
Qed.

Lemma if_saved_push i m c : this_cpu m i c -> if_saved i (push_mach i c m) = if_saved i m.
Proof.
  intros Ht. pose proof (tc_ncli _ _ _ Ht) as Hn. unfold if_saved, push_mach. simpl.
  rewrite list_lookup_insert_eq by (eapply lookup_lt_Some, Ht). rewrite (tc_lookup _ _ _ Ht).
  unfold pushed, note_intena. simpl.
  destruct (Z.eqb_spec (ncli c + 1) 0); [lia|]. destruct (Z.eqb_spec (ncli c) 0); simpl; [by destruct (iflag m)|done].
Qed.

Lemma if_saved_pop i m c : this_cpu m i c -> 0 < ncli c -> if_saved i (pop_mach i c m) = if_saved i m.
Proof.
  intros Ht Hp. unfold if_saved, pop_mach. simpl.
  rewrite list_lookup_insert_eq by (eapply lookup_lt_Some, Ht). rewrite (tc_lookup _ _ _ Ht).
  unfold popped. simpl. destruct (Z.eqb_spec (ncli c) 0); [lia|].
  destruct (Z.eqb_spec (ncli c - 1) 0), (Z.eqb_spec (ncli c) 1); try lia; done.
Qed.

(** With no [pushcli] pending that is the interrupt flag itself. *)
Lemma if_saved_0 i m cp cq : kcpu i m 0 cp cq -> iflag m = if_saved i m.
Proof.
  intros (c & Ht & Hn & _). unfold if_saved. rewrite (tc_lookup _ _ _ Ht), Hn. done.
Qed.

Lemma k_acquire (L : lockref S) `{!LockLaws L} i s n cp cq l :
  kcpu i (mach_of s) n cp cq -> shallow n -> lk_get L s = Some l -> free_lock l ->
  exists m, acquire L s = Ret tt (lk_set L (mkLock 1 (lk_name l) (Some i)) (set_mach m s)) /\
    kcpu i m (n + 1) cp cq /\ if_saved i m = if_saved i (mach_of s).
Proof.
  intros (c & Ht & Hn & Hp & Hq) Hs Hl Hf. eexists. split; [|split].
  - unfold shallow in Hs. apply (acquire_eq L s i c l); try done. lia.
  - by apply kcpu_push.
  - apply if_saved_push. done.
Qed.

Lemma k_release (L : lockref S) `{!LockLaws L} i s n cp cq l :
  kcpu i (mach_of s) n cp cq -> shallow n -> 0 < n -> lk_get L s = Some l -> held_by i l ->
  exists m, release L s = Ret tt (lk_set L (mkLock 0 (lk_name l) None) (set_mach m s)) /\
    kcpu i m (n - 1) cp cq /\ if_saved i m = if_saved i (mach_of s).
Proof.
  intros (c & Ht & Hn & Hp & Hq) Hs Hpos Hl Hh. eexists. split; [|split].
  - unfold shallow in Hs. apply (release_eq L s i c l); try done. lia.
  - by apply kcpu_pop.
  - apply if_saved_pop; [done|lia].
Qed.

End Kcpu.

(** ** Several CPUs

    [acquire] and [release] as several CPUs run them at once.  A step of CPU [i]
    is one access to the shared lock; [pc] is how far its code has come.  A CPU
    outside the critical section tries to enter it, one inside leaves it, so
    every interleaving of calls is a list of CPU numbers. *)

Module Smp.

Inductive pc :=
| Out        (* neither holds nor wants the lock *)
| Spinning   (* acquire, after the holding() check: at the xchg *)
| Got        (* acquire, the xchg returned 0: lk->cpu not yet written *)
| In         (* critical section *)
| Leaving.   (* release, lk->cpu cleared: locked not yet 0 *)

Record smp := mkSmp { lock : spinlock; pcs : list pc }.

Inductive outcome := Running (st : smp) | Panicked (msg : string).

Definition holding_by (i : nat) (l : spinlock) : bool :=
  negb (locked l =? 0) && bool_decide (lk_cpu l = Some i).

Definition goto (i : nat) (p : pc) (st : smp) : smp := mkSmp (lock st) (<[i := p]> (pcs st)).
Definition store (l : spinlock) (st : smp) : smp := mkSmp l (pcs st).

Definition smp_step (i : nat) (st : smp) : outcome :=
  match pcs st !! i with
  | None => Running st
  | Some Out =>
      if holding_by i (lock st) then Panicked "acquire" else Running (goto i Spinning st)
  | Some Spinning =>
      let old := locked (lock st) in
      let st1 := store (set_locked 1 (lock st)) st in
      Running (if old =? 0 then goto i Got st1 else st1)
  | Some Got => Running (goto i In (store (set_lk_cpu (Some i) (lock st)) st))
  | Some In =>
      if holding_by i (lock st)
      then Running (goto i Leaving (store (set_lk_cpu None (lock st)) st))
      else Panicked "release"
  | Some Leaving => Running (goto i Out (store (set_locked 0 (lock st)) st))
  end.

Fixpoint smp_run (sched : list nat) (st : smp) : outcome :=
  match sched with
  | [] => Running st
  | i :: sched =>
      match smp_step i st with
      | Running st' => smp_run sched st'
      | Panicked msg => Panicked msg
      end
  end.

Definition smp_init (n : nat) (name : string) : smp := mkSmp (mkLock 0 name None) (repeat Out n).

Definition waiting (p : pc) : Prop := p = Out \/ p = Spinning.

(** CPU [o] has won the xchg and has not given the lock back. *)
Record owned (o : nat) (p : pc) (st : smp) : Prop := {
  ow_pc : pcs st !! o = Some p;
  ow_owner : ~ waiting p;
  ow_locked : locked (lock st) = 1;
  ow_cpu : lk_cpu (lock st) = match p with In => Some o | _ => None end;
  ow_others : forall i q, i <> o -> pcs st !! i = Some q -> waiting q
}.

Definition unowned (st : smp) : Prop :=
  free_lock (lock st) /\ forall i q, pcs st !! i = Some q -> waiting q.

Definition smp_inv (st : smp) : Prop := unowned st \/ exists o p, owned o p st.

Lemma goto_lookup i p q st j :
  pcs (goto i p st) !! j = Some q -> (j = i /\ q = p) \/ (j <> i /\ pcs st !! j = Some q).
Proof.
  simpl. intros Hj. destruct (decide (j = i)) as [->|Hne].
  - left. pose proof (lookup_lt_Some _ _ _ Hj) as Hlt. rewrite length_insert in Hlt.
    rewrite list_lookup_insert_eq in Hj by done. naive_solver.
  - right. by rewrite list_lookup_insert_ne in Hj.
Qed.

Lemma goto_same i p q st : pcs st !! i = Some q -> pcs (goto i p st) !! i = Some p.
Proof. intros. simpl. apply list_lookup_insert_eq. by eapply lookup_lt_Some. Qed.

(** A waiting CPU may move between [Out] and [Spinning] freely. *)
Lemma owned_goto_waiting o p i q st :
  owned o p st -> i <> o -> waiting q -> owned o p (goto i q st).
Proof.
  intros [Ho Hp Hl Hc Hw] Hi Hq. constructor; try done.
  - simpl. by rewrite list_lookup_insert_ne.
  - intros j r Hj [[-> ->]|[_ Hr]]%goto_lookup; eauto.
Qed.

Lemma owned_goto_self o p q st l :
  owned o p st -> ~ waiting q -> locked l = 1 ->
  lk_cpu l = match q with In => Some o | _ => None end ->
  owned o q (goto o q (store l st)).
Proof.
  intros [Ho Hp _ _ Hw] Hq Hl Hc. constructor; try done.
  - by eapply goto_same.
  - intros j r Hj [[-> _]|[_ Hr]]%goto_lookup; [done|eauto].
Qed.

(** The step of the owner, and the step of any other CPU. *)
Lemma owned_step o p i st :
  owned o p st -> exists st', smp_step i st = Running st' /\ smp_inv st'.
Proof.
  intros Hown. pose proof Hown as [Ho Hp Hl Hc Hw]. unfold smp_step.
  destruct (decide (i = o)) as [->|Hne].
  - rewrite Ho. destruct p; try (exfalso; apply Hp; by (left + right)).
    + eexists; split; [done|]. right. exists o, In. apply (owned_goto_self o Got); done || by intros [].
    + unfold holding_by. rewrite Hl, Hc, bool_decide_true by done. simpl.
      eexists; split; [done|]. right. exists o, Leaving. apply (owned_goto_self o In); done || by intros [].
    + eexists; split; [done|]. left. split; [done|].
      intros j r [[-> ->]|[Hj Hr]]%goto_lookup; [by left|eauto].
  - destruct (pcs st !! i) as [q|] eqn:Ei; [|eexists; split; [done|]; right; eauto].
    destruct (Hw i q Hne Ei) as [->| ->].
    + unfold holding_by. rewrite bool_decide_false, andb_false_r; [|rewrite Hc; by destruct p; naive_solver].
      eexists; split; [done|]. right. exists o, p. apply owned_goto_waiting; try done. by right.
    + rewrite Hl. simpl. eexists; split; [done|]. right. exists o, p.
      replace (store _ st) with st; [done|]. destruct st as [[lk ? ?] ?]; unfold store; simpl in *. by subst.
Qed.

Lemma unowned_step i st : unowned st -> exists st', smp_step i st = Running st' /\ smp_inv st'.
Proof.
  intros [[Hl Hc] Hw]. unfold smp_step. destruct (pcs st !! i) as [q|] eqn:Ei.
  2:{ eexists; split; [done|]. left. by repeat split. }
  destruct (Hw i q Ei) as [->| ->].
  - unfold holding_by. rewrite Hl. simpl. eexists; split; [done|]. left. split; [done|].
    intros j r [[-> ->]|[Hj Hr]]%goto_lookup; [by right|eauto].
  - rewrite Hl. simpl. eexists; split; [done|]. right. exists i, Got. constructor; try done.
    + by eapply goto_same.
    + by intros [].
    + intros j r Hj [[-> _]|[_ Hr]]%goto_lookup; [done|eauto].
Qed.

Lemma smp_inv_step i st : smp_inv st -> exists st', smp_step i st = Running st' /\ smp_inv st'.
Proof. intros [Hu|(o & p & Ho)]; [by apply unowned_step|by eapply owned_step]. Qed.

Lemma smp_inv_init n name : smp_inv (smp_init n name).
Proof.
  left. split; [done|]. simpl. intros i q Hi.
  apply list_elem_of_lookup_2, list_elem_of_In, repeat_spec in Hi. by left.
Qed.

Lemma smp_inv_run sched st : smp_inv st -> exists st', smp_run sched st = Running st' /\ smp_inv st'.
Proof.
  revert st. induction sched as [|i sched IH]; intros st Hi; simpl; [eauto|].
  destruct (smp_inv_step i st Hi) as (st' & -> & Hi'). auto.
Qed.

(** C16: whatever the interleaving of the CPUs' accesses to a lock that [initlock]
    set up, neither [acquire] nor [release] panics, and no two CPUs are in the
    critical section at the same time; the lock word is 0 exactly when no CPU is
    between its successful [xchg] and the final store of [release]. *)
Theorem spinlock_mutual_exclusion n name sched :
  exists st, smp_run sched (smp_init n name) = Running st /\
    (forall i j, pcs st !! i = Some In -> pcs st !! j = Some In -> i = j) /\
    (locked (lock st) = 0 <-> forall i q, pcs st !! i = Some q -> waiting q).
Proof.
  destruct (smp_inv_run sched _ (smp_inv_init n name)) as (st & Hr & Hi).
  exists st. split; [done|]. destruct Hi as [[[Hl Hc] Hw]|(o & p & [Ho Hp Hl Hc Hw])].
  - split; [|done]. intros i j Hi. by destruct (Hw _ _ Hi).
  - split.
    + intros i j Hi Hj. destruct (decide (i = o)), (decide (j = o)); subst; try done;
        match goal with H : ?k <> o |- _ => edestruct (Hw k In); by eauto end.
    + rewrite Hl. split; [done|]. intros Hall. by destruct (Hp (Hall _ _ Ho)).
Qed.

(** A CPU that has the lock to itself gets in and out again in five steps. *)
Example smp_round_trip : smp_run [0; 0; 0; 0; 0]%nat (smp_init 2 "l") = Running (smp_init 2 "l").
Proof. reflexivity. Qed.

End Smp.
