(* ===== verification/ProcState.v ===== *)
(** * The state of the process subsystem (proc.h, x86.h, proc.c, trap.c)

    The data of proc.h, the globals of proc.c and trap.c, and accessors with the
    C meaning of a pointer dereference: [NULL] is [None], and an access outside
    an array is a [Fault].

    A pointer to a process is its index in [ptable.proc].  [ptable.level] is laid
    out in memory as one array of [2 * RSDL_LEVELS] queues, and a pointer to a
    queue is its index there, so that the address comparison of [is_active_set]
    is the comparison of the source.

    The services process code calls in other components are the operations of
    the class [Services]. *)

From stdpp Require Import base tactics list sets strings.
From Stdlib Require Import ZArith Lia.
From S2P Require Import Prelude Params Spinlock.
Open Scope Z_scope.

(** ** Data *)

(** x86.h, struct trapframe (without padding). *)
Record trapframe := mkTf {
  tf_edi : Z;
  tf_esi : Z;
  tf_ebp : Z;
  tf_oesp : Z;
  tf_ebx : Z;
  tf_edx : Z;
  tf_ecx : Z;
  tf_eax : Z;
  tf_gs : Z;
  tf_fs : Z;
  tf_es : Z;
  tf_ds : Z;
  tf_trapno : Z;
  tf_err : Z;
  tf_eip : Z;
  tf_cs : Z;
  tf_eflags : Z;
  tf_esp : Z;
  tf_ss : Z
}.
Definition set_tf_edi (v : Z) (r : trapframe) : trapframe :=
  mkTf v (tf_esi r) (tf_ebp r) (tf_oesp r) (tf_ebx r) (tf_edx r) (tf_ecx r) (tf_eax r) (tf_gs r) (tf_fs r) (tf_es r) (tf_ds r) (tf_trapno r) (tf_err r) (tf_eip r) (tf_cs r) (tf_eflags r) (tf_esp r) (tf_ss r).
Definition set_tf_esi (v : Z) (r : trapframe) : trapframe :=
  mkTf (tf_edi r) v (tf_ebp r) (tf_oesp r) (tf_ebx r) (tf_edx r) (tf_ecx r) (tf_eax r) (tf_gs r) (tf_fs r) (tf_es r) (tf_ds r) (tf_trapno r) (tf_err r) (tf_eip r) (tf_cs r) (tf_eflags r) (tf_esp r) (tf_ss r).
Definition set_tf_ebp (v : Z) (r : trapframe) : trapframe :=
  mkTf (tf_edi r) (tf_esi r) v (tf_oesp r) (tf_ebx r) (tf_edx r) (tf_ecx r) (tf_eax r) (tf_gs r) (tf_fs r) (tf_es r) (tf_ds r) (tf_trapno r) (tf_err r) (tf_eip r) (tf_cs r) (tf_eflags r) (tf_esp r) (tf_ss r).
Definition set_tf_oesp (v : Z) (r : trapframe) : trapframe :=
  mkTf (tf_edi r) (tf_esi r) (tf_ebp r) v (tf_ebx r) (tf_edx r) (tf_ecx r) (tf_eax r) (tf_gs r) (tf_fs r) (tf_es r) (tf_ds r) (tf_trapno r) (tf_err r) (tf_eip r) (tf_cs r) (tf_eflags r) (tf_esp r) (tf_ss r).
Definition set_tf_ebx (v : Z) (r : trapframe) : trapframe :=
  mkTf (tf_edi r) (tf_esi r) (tf_ebp r) (tf_oesp r) v (tf_edx r) (tf_ecx r) (tf_eax r) (tf_gs r) (tf_fs r) (tf_es r) (tf_ds r) (tf_trapno r) (tf_err r) (tf_eip r) (tf_cs r) (tf_eflags r) (tf_esp r) (tf_ss r).
Definition set_tf_edx (v : Z) (r : trapframe) : trapframe :=
  mkTf (tf_edi r) (tf_esi r) (tf_ebp r) (tf_oesp r) (tf_ebx r) v (tf_ecx r) (tf_eax r) (tf_gs r) (tf_fs r) (tf_es r) (tf_ds r) (tf_trapno r) (tf_err r) (tf_eip r) (tf_cs r) (tf_eflags r) (tf_esp r) (tf_ss r).
Definition set_tf_ecx (v : Z) (r : trapframe) : trapframe :=
  mkTf (tf_edi r) (tf_esi r) (tf_ebp r) (tf_oesp r) (tf_ebx r) (tf_edx r) v (tf_eax r) (tf_gs r) (tf_fs r) (tf_es r) (tf_ds r) (tf_trapno r) (tf_err r) (tf_eip r) (tf_cs r) (tf_eflags r) (tf_esp r) (tf_ss r).
Definition set_tf_eax (v : Z) (r : trapframe) : trapframe :=
  mkTf (tf_edi r) (tf_esi r) (tf_ebp r) (tf_oesp r) (tf_ebx r) (tf_edx r) (tf_ecx r) v (tf_gs r) (tf_fs r) (tf_es r) (tf_ds r) (tf_trapno r) (tf_err r) (tf_eip r) (tf_cs r) (tf_eflags r) (tf_esp r) (tf_ss r).
Definition set_tf_gs (v : Z) (r : trapframe) : trapframe :=
  mkTf (tf_edi r) (tf_esi r) (tf_ebp r) (tf_oesp r) (tf_ebx r) (tf_edx r) (tf_ecx r) (tf_eax r) v (tf_fs r) (tf_es r) (tf_ds r) (tf_trapno r) (tf_err r) (tf_eip r) (tf_cs r) (tf_eflags r) (tf_esp r) (tf_ss r).
Definition set_tf_fs (v : Z) (r : trapframe) : trapframe :=
  mkTf (tf_edi r) (tf_esi r) (tf_ebp r) (tf_oesp r) (tf_ebx r) (tf_edx r) (tf_ecx r) (tf_eax r) (tf_gs r) v (tf_es r) (tf_ds r) (tf_trapno r) (tf_err r) (tf_eip r) (tf_cs r) (tf_eflags r) (tf_esp r) (tf_ss r).
Definition set_tf_es (v : Z) (r : trapframe) : trapframe :=
  mkTf (tf_edi r) (tf_esi r) (tf_ebp r) (tf_oesp r) (tf_ebx r) (tf_edx r) (tf_ecx r) (tf_eax r) (tf_gs r) (tf_fs r) v (tf_ds r) (tf_trapno r) (tf_err r) (tf_eip r) (tf_cs r) (tf_eflags r) (tf_esp r) (tf_ss r).
Definition set_tf_ds (v : Z) (r : trapframe) : trapframe :=
  mkTf (tf_edi r) (tf_esi r) (tf_ebp r) (tf_oesp r) (tf_ebx r) (tf_edx r) (tf_ecx r) (tf_eax r) (tf_gs r) (tf_fs r) (tf_es r) v (tf_trapno r) (tf_err r) (tf_eip r) (tf_cs r) (tf_eflags r) (tf_esp r) (tf_ss r).
Definition set_tf_trapno (v : Z) (r : trapframe) : trapframe :=
  mkTf (tf_edi r) (tf_esi r) (tf_ebp r) (tf_oesp r) (tf_ebx r) (tf_edx r) (tf_ecx r) (tf_eax r) (tf_gs r) (tf_fs r) (tf_es r) (tf_ds r) v (tf_err r) (tf_eip r) (tf_cs r) (tf_eflags r) (tf_esp r) (tf_ss r).
Definition set_tf_err (v : Z) (r : trapframe) : trapframe :=
  mkTf (tf_edi r) (tf_esi r) (tf_ebp r) (tf_oesp r) (tf_ebx r) (tf_edx r) (tf_ecx r) (tf_eax r) (tf_gs r) (tf_fs r) (tf_es r) (tf_ds r) (tf_trapno r) v (tf_eip r) (tf_cs r) (tf_eflags r) (tf_esp r) (tf_ss r).
Definition set_tf_eip (v : Z) (r : trapframe) : trapframe :=
  mkTf (tf_edi r) (tf_esi r) (tf_ebp r) (tf_oesp r) (tf_ebx r) (tf_edx r) (tf_ecx r) (tf_eax r) (tf_gs r) (tf_fs r) (tf_es r) (tf_ds r) (tf_trapno r) (tf_err r) v (tf_cs r) (tf_eflags r) (tf_esp r) (tf_ss r).
Definition set_tf_cs (v : Z) (r : trapframe) : trapframe :=
  mkTf (tf_edi r) (tf_esi r) (tf_ebp r) (tf_oesp r) (tf_ebx r) (tf_edx r) (tf_ecx r) (tf_eax r) (tf_gs r) (tf_fs r) (tf_es r) (tf_ds r) (tf_trapno r) (tf_err r) (tf_eip r) v (tf_eflags r) (tf_esp r) (tf_ss r).
Definition set_tf_eflags (v : Z) (r : trapframe) : trapframe :=
  mkTf (tf_edi r) (tf_esi r) (tf_ebp r) (tf_oesp r) (tf_ebx r) (tf_edx r) (tf_ecx r) (tf_eax r) (tf_gs r) (tf_fs r) (tf_es r) (tf_ds r) (tf_trapno r) (tf_err r) (tf_eip r) (tf_cs r) v (tf_esp r) (tf_ss r).
Definition set_tf_esp (v : Z) (r : trapframe) : trapframe :=
  mkTf (tf_edi r) (tf_esi r) (tf_ebp r) (tf_oesp r) (tf_ebx r) (tf_edx r) (tf_ecx r) (tf_eax r) (tf_gs r) (tf_fs r) (tf_es r) (tf_ds r) (tf_trapno r) (tf_err r) (tf_eip r) (tf_cs r) (tf_eflags r) v (tf_ss r).
Definition set_tf_ss (v : Z) (r : trapframe) : trapframe :=
  mkTf (tf_edi r) (tf_esi r) (tf_ebp r) (tf_oesp r) (tf_ebx r) (tf_edx r) (tf_ecx r) (tf_eax r) (tf_gs r) (tf_fs r) (tf_es r) (tf_ds r) (tf_trapno r) (tf_err r) (tf_eip r) (tf_cs r) (tf_eflags r) (tf_esp r) v.

(** sizeof(struct trapframe). *)
Definition TRAPFRAME_SIZE : Z := 76.

(** proc.h, struct context. *)
Record context := mkCtx {
  ctx_edi : Z;
  ctx_esi : Z;
  ctx_ebx : Z;
  ctx_ebp : Z;
  ctx_eip : Z
}.
Definition CONTEXT_SIZE : Z := 20.

Inductive procstate := UNUSED | EMBRYO | SLEEPING | RUNNABLE | RUNNING | ZOMBIE.

#[global] Instance procstate_eq_dec : EqDecision procstate.
Proof. solve_decision. Defined.

(** The number the compiler gives each state. *)
Definition procstate_num (st : procstate) : Z :=
  match st with
  | UNUSED => 0 | EMBRYO => 1 | SLEEPING => 2 | RUNNABLE => 3 | RUNNING => 4 | ZOMBIE => 5
  end.

(** The addresses processes sleep on. *)
Inductive chan :=
| NoChan                (* 0 *)
| ProcChan (p : nat)    (* &ptable.proc[p] *)
| TicksChan             (* &ticks *)
| AddrChan (a : Z).     (* any other kernel object *)

#[global] Instance chan_eq_dec : EqDecision chan.
Proof. solve_decision. Defined.

(** A pointer to a process used as a channel. *)
Definition proc_chan (p : option nat) : chan :=
  match p with Some p => ProcChan p | None => NoChan end.

(** proc.h, struct proc.  [tf] is the trap frame [tf_addr] points at, [ctx] the
    context [ctx_addr] points at, [ctx_ret] the word above it. *)
Record proc := mkProc {
  sz : Z;
  pgdir : Z;
  kstack : Z;
  state : procstate;
  pid : Z;
  parent : option nat;
  tf_addr : Z;
  tf : trapframe;
  ctx_addr : Z;
  ctx : context;
  ctx_ret : Z;
  p_chan : chan;
  killed : Z;
  ofile : list (option nat);
  cwd : option nat;
  name : list Z;
  ticks_left : Z;
  default_level : Z
}.
Definition set_sz (v : Z) (r : proc) : proc :=
  mkProc v (pgdir r) (kstack r) (state r) (pid r) (parent r) (tf_addr r) (tf r) (ctx_addr r) (ctx r) (ctx_ret r) (p_chan r) (killed r) (ofile r) (cwd r) (name r) (ticks_left r) (default_level r).
Definition set_pgdir (v : Z) (r : proc) : proc :=
  mkProc (sz r) v (kstack r) (state r) (pid r) (parent r) (tf_addr r) (tf r) (ctx_addr r) (ctx r) (ctx_ret r) (p_chan r) (killed r) (ofile r) (cwd r) (name r) (ticks_left r) (default_level r).
Definition set_kstack (v : Z) (r : proc) : proc :=
  mkProc (sz r) (pgdir r) v (state r) (pid r) (parent r) (tf_addr r) (tf r) (ctx_addr r) (ctx r) (ctx_ret r) (p_chan r) (killed r) (ofile r) (cwd r) (name r) (ticks_left r) (default_level r).
Definition set_state (v : procstate) (r : proc) : proc :=
  mkProc (sz r) (pgdir r) (kstack r) v (pid r) (parent r) (tf_addr r) (tf r) (ctx_addr r) (ctx r) (ctx_ret r) (p_chan r) (killed r) (ofile r) (cwd r) (name r) (ticks_left r) (default_level r).
Definition set_pid (v : Z) (r : proc) : proc :=
  mkProc (sz r) (pgdir r) (kstack r) (state r) v (parent r) (tf_addr r) (tf r) (ctx_addr r) (ctx r) (ctx_ret r) (p_chan r) (killed r) (ofile r) (cwd r) (name r) (ticks_left r) (default_level r).
Definition set_parent (v : option nat) (r : proc) : proc :=
  mkProc (sz r) (pgdir r) (kstack r) (state r) (pid r) v (tf_addr r) (tf r) (ctx_addr r) (ctx r) (ctx_ret r) (p_chan r) (killed r) (ofile r) (cwd r) (name r) (ticks_left r) (default_level r).
Definition set_tf_addr (v : Z) (r : proc) : proc :=
  mkProc (sz r) (pgdir r) (kstack r) (state r) (pid r) (parent r) v (tf r) (ctx_addr r) (ctx r) (ctx_ret r) (p_chan r) (killed r) (ofile r) (cwd r) (name r) (ticks_left r) (default_level r).
Definition set_tf (v : trapframe) (r : proc) : proc :=
  mkProc (sz r) (pgdir r) (kstack r) (state r) (pid r) (parent r) (tf_addr r) v (ctx_addr r) (ctx r) (ctx_ret r) (p_chan r) (killed r) (ofile r) (cwd r) (name r) (ticks_left r) (default_level r).
Definition set_ctx_addr (v : Z) (r : proc) : proc :=
  mkProc (sz r) (pgdir r) (kstack r) (state r) (pid r) (parent r) (tf_addr r) (tf r) v (ctx r) (ctx_ret r) (p_chan r) (killed r) (ofile r) (cwd r) (name r) (ticks_left r) (default_level r).
Definition set_ctx (v : context) (r : proc) : proc :=
  mkProc (sz r) (pgdir r) (kstack r) (state r) (pid r) (parent r) (tf_addr r) (tf r) (ctx_addr r) v (ctx_ret r) (p_chan r) (killed r) (ofile r) (cwd r) (name r) (ticks_left r) (default_level r).
Definition set_ctx_ret (v : Z) (r : proc) : proc :=
  mkProc (sz r) (pgdir r) (kstack r) (state r) (pid r) (parent r) (tf_addr r) (tf r) (ctx_addr r) (ctx r) v (p_chan r) (killed r) (ofile r) (cwd r) (name r) (ticks_left r) (default_level r).
Definition set_p_chan (v : chan) (r : proc) : proc :=
  mkProc (sz r) (pgdir r) (kstack r) (state r) (pid r) (parent r) (tf_addr r) (tf r) (ctx_addr r) (ctx r) (ctx_ret r) v (killed r) (ofile r) (cwd r) (name r) (ticks_left r) (default_level r).
Definition set_killed (v : Z) (r : proc) : proc :=
  mkProc (sz r) (pgdir r) (kstack r) (state r) (pid r) (parent r) (tf_addr r) (tf r) (ctx_addr r) (ctx r) (ctx_ret r) (p_chan r) v (ofile r) (cwd r) (name r) (ticks_left r) (default_level r).
Definition set_ofile (v : list (option nat)) (r : proc) : proc :=
  mkProc (sz r) (pgdir r) (kstack r) (state r) (pid r) (parent r) (tf_addr r) (tf r) (ctx_addr r) (ctx r) (ctx_ret r) (p_chan r) (killed r) v (cwd r) (name r) (ticks_left r) (default_level r).
Definition set_cwd (v : option nat) (r : proc) : proc :=
  mkProc (sz r) (pgdir r) (kstack r) (state r) (pid r) (parent r) (tf_addr r) (tf r) (ctx_addr r) (ctx r) (ctx_ret r) (p_chan r) (killed r) (ofile r) v (name r) (ticks_left r) (default_level r).
Definition set_name (v : list Z) (r : proc) : proc :=
  mkProc (sz r) (pgdir r) (kstack r) (state r) (pid r) (parent r) (tf_addr r) (tf r) (ctx_addr r) (ctx r) (ctx_ret r) (p_chan r) (killed r) (ofile r) (cwd r) v (ticks_left r) (default_level r).
Definition set_ticks_left (v : Z) (r : proc) : proc :=
  mkProc (sz r) (pgdir r) (kstack r) (state r) (pid r) (parent r) (tf_addr r) (tf r) (ctx_addr r) (ctx r) (ctx_ret r) (p_chan r) (killed r) (ofile r) (cwd r) (name r) v (default_level r).
Definition set_default_level (v : Z) (r : proc) : proc :=
  mkProc (sz r) (pgdir r) (kstack r) (state r) (pid r) (parent r) (tf_addr r) (tf r) (ctx_addr r) (ctx r) (ctx_ret r) (p_chan r) (killed r) (ofile r) (cwd r) (name r) (ticks_left r) v.

(** proc.h, struct level_queue. *)
Record level_queue := mkLq {
  lq_lock : spinlock;
  numproc : nat;
  lq_ticks_left : Z;
  lq_proc : list (option nat)
}.
Definition set_lq_lock (v : spinlock) (r : level_queue) : level_queue :=
  mkLq v (numproc r) (lq_ticks_left r) (lq_proc r).
Definition set_numproc (v : nat) (r : level_queue) : level_queue :=
  mkLq (lq_lock r) v (lq_ticks_left r) (lq_proc r).
Definition set_lq_ticks_left (v : Z) (r : level_queue) : level_queue :=
  mkLq (lq_lock r) (numproc r) v (lq_proc r).
Definition set_lq_proc (v : list (option nat)) (r : level_queue) : level_queue :=
  mkLq (lq_lock r) (numproc r) (lq_ticks_left r) v.

(** What [cprintf] was asked to print: the format and its arguments. *)
Inductive arg := AInt (z : Z) | AStr (s : string) | ABytes (b : list Z).
Record output := mkOut { fmt : string; args : list arg }.

(** The globals: [ptable] and the other variables of proc.c, [kpgdir] of vm.c,
    [ticks] and [tickslock] of trap.c, the machine, the console output so far, and the
    state [env] of the services. *)
Record kstate {E : Type} := mkK {
  km : mach;
  pt_lock : spinlock;
  procs : list proc;
  active : nat;
  expired : nat;
  level : list level_queue;
  kpgdir : Z;
  initproc : option nat;
  nextpid : Z;
  schedlog_active : Z;
  schedlog_lasttick : Z;
  ticks : Z;
  tickslock : spinlock;
  first : Z;
  out : list output;
  env : E
}.
Arguments kstate : clear implicits.
Arguments mkK {E}.
Definition set_km {E : Type} (v : mach) (r : kstate E) : kstate E :=
  mkK v (pt_lock r) (procs r) (active r) (expired r) (level r) (kpgdir r) (initproc r) (nextpid r) (schedlog_active r) (schedlog_lasttick r) (ticks r) (tickslock r) (first r) (out r) (env r).
Definition set_pt_lock {E : Type} (v : spinlock) (r : kstate E) : kstate E :=
  mkK (km r) v (procs r) (active r) (expired r) (level r) (kpgdir r) (initproc r) (nextpid r) (schedlog_active r) (schedlog_lasttick r) (ticks r) (tickslock r) (first r) (out r) (env r).
Definition set_procs {E : Type} (v : list proc) (r : kstate E) : kstate E :=
  mkK (km r) (pt_lock r) v (active r) (expired r) (level r) (kpgdir r) (initproc r) (nextpid r) (schedlog_active r) (schedlog_lasttick r) (ticks r) (tickslock r) (first r) (out r) (env r).
Definition set_active {E : Type} (v : nat) (r : kstate E) : kstate E :=
  mkK (km r) (pt_lock r) (procs r) v (expired r) (level r) (kpgdir r) (initproc r) (nextpid r) (schedlog_active r) (schedlog_lasttick r) (ticks r) (tickslock r) (first r) (out r) (env r).
Definition set_expired {E : Type} (v : nat) (r : kstate E) : kstate E :=
  mkK (km r) (pt_lock r) (procs r) (active r) v (level r) (kpgdir r) (initproc r) (nextpid r) (schedlog_active r) (schedlog_lasttick r) (ticks r) (tickslock r) (first r) (out r) (env r).
Definition set_level {E : Type} (v : list level_queue) (r : kstate E) : kstate E :=
  mkK (km r) (pt_lock r) (procs r) (active r) (expired r) v (kpgdir r) (initproc r) (nextpid r) (schedlog_active r) (schedlog_lasttick r) (ticks r) (tickslock r) (first r) (out r) (env r).
Definition set_kpgdir {E : Type} (v : Z) (r : kstate E) : kstate E :=
  mkK (km r) (pt_lock r) (procs r) (active r) (expired r) (level r) v (initproc r) (nextpid r) (schedlog_active r) (schedlog_lasttick r) (ticks r) (tickslock r) (first r) (out r) (env r).
Definition set_initproc {E : Type} (v : option nat) (r : kstate E) : kstate E :=
  mkK (km r) (pt_lock r) (procs r) (active r) (expired r) (level r) (kpgdir r) v (nextpid r) (schedlog_active r) (schedlog_lasttick r) (ticks r) (tickslock r) (first r) (out r) (env r).
Definition set_nextpid {E : Type} (v : Z) (r : kstate E) : kstate E :=
  mkK (km r) (pt_lock r) (procs r) (active r) (expired r) (level r) (kpgdir r) (initproc r) v (schedlog_active r) (schedlog_lasttick r) (ticks r) (tickslock r) (first r) (out r) (env r).
Definition set_schedlog_active {E : Type} (v : Z) (r : kstate E) : kstate E :=
  mkK (km r) (pt_lock r) (procs r) (active r) (expired r) (level r) (kpgdir r) (initproc r) (nextpid r) v (schedlog_lasttick r) (ticks r) (tickslock r) (first r) (out r) (env r).
Definition set_schedlog_lasttick {E : Type} (v : Z) (r : kstate E) : kstate E :=
  mkK (km r) (pt_lock r) (procs r) (active r) (expired r) (level r) (kpgdir r) (initproc r) (nextpid r) (schedlog_active r) v (ticks r) (tickslock r) (first r) (out r) (env r).
Definition set_ticks {E : Type} (v : Z) (r : kstate E) : kstate E :=
  mkK (km r) (pt_lock r) (procs r) (active r) (expired r) (level r) (kpgdir r) (initproc r) (nextpid r) (schedlog_active r) (schedlog_lasttick r) v (tickslock r) (first r) (out r) (env r).
Definition set_tickslock {E : Type} (v : spinlock) (r : kstate E) : kstate E :=
  mkK (km r) (pt_lock r) (procs r) (active r) (expired r) (level r) (kpgdir r) (initproc r) (nextpid r) (schedlog_active r) (schedlog_lasttick r) (ticks r) v (first r) (out r) (env r).
Definition set_first {E : Type} (v : Z) (r : kstate E) : kstate E :=
  mkK (km r) (pt_lock r) (procs r) (active r) (expired r) (level r) (kpgdir r) (initproc r) (nextpid r) (schedlog_active r) (schedlog_lasttick r) (ticks r) (tickslock r) v (out r) (env r).
Definition set_out {E : Type} (v : list output) (r : kstate E) : kstate E :=
  mkK (km r) (pt_lock r) (procs r) (active r) (expired r) (level r) (kpgdir r) (initproc r) (nextpid r) (schedlog_active r) (schedlog_lasttick r) (ticks r) (tickslock r) (first r) v (env r).
Definition set_env {E : Type} (v : E) (r : kstate E) : kstate E :=
  mkK (km r) (pt_lock r) (procs r) (active r) (expired r) (level r) (kpgdir r) (initproc r) (nextpid r) (schedlog_active r) (schedlog_lasttick r) (ticks r) (tickslock r) (first r) (out r) v.

#[global] Instance kstate_mach E : HasMach (kstate E).
Proof.
  refine {| mach_of := km; set_mach := set_km |}; by try intros [].
Defined.

(** ** Services of other components

    [env] is the state of the memory allocator, the page tables, the devices and
    the file system.  A service that does not use processes is a function on it,
    with [None] when it panics; one that may sleep, wake processes up or change the
    current process is code of the kernel like that of proc.c.  Pages, page
    directories and user addresses are machine addresses (0 is NULL); files and
    inodes are indexes of [ftable] and [icache]. *)
Class Platform (E : Type) := {
  svc_kalloc : E -> Z * E;                              (* kalloc.c; 0: no memory *)
  svc_kfree : Z -> E -> option E;                       (* kalloc.c *)
  svc_setupkvm : E -> option (Z * E);                   (* vm.c; 0: no memory *)
  svc_inituvm : Z -> E -> option E;                     (* vm.c, with the initcode image *)
  svc_allocuvm : Z -> Z -> Z -> E -> option (Z * E);    (* vm.c; 0: failure *)
  svc_deallocuvm : Z -> Z -> Z -> E -> option (Z * E);  (* vm.c *)
  svc_copyuvm : Z -> Z -> E -> option (Z * E);          (* vm.c; 0: no memory *)
  svc_freevm : Z -> E -> option E;                      (* vm.c *)
  svc_filedup : nat -> E -> option E;                   (* file.c *)
  svc_idup : nat -> E -> option E;                      (* fs.c *)
  svc_lapiceoi : E -> E;                                (* lapic.c *)
  svc_shutdown : E -> E;                                (* kshutdown.c *)
  svc_rcr2 : E -> Z;                                    (* the faulting address *)
  svc_user_byte : Z -> Z -> E -> Z;                     (* memory of a page directory *)
  svc_kernel_word : E -> Z -> Z;                        (* words of the kernel's stacks *)
  svc_swtch_ctx : E -> context;                         (* registers saved by swtch.S *)
  forkret_addr : Z;                                     (* link-time addresses *)
  trapret_addr : Z;
  vectors : nat -> Z
}.

(** The services that are themselves kernel code. *)
Class Services (E : Type) := {
  svc_platform :: Platform E;
  svc_fileclose : nat -> M (kstate E) unit;             (* file.c *)
  svc_iput : nat -> M (kstate E) unit;                  (* fs.c *)
  svc_namei_root : M (kstate E) (option nat);           (* fs.c, namei of the root *)
  svc_begin_op : M (kstate E) unit;                     (* log.c *)
  svc_end_op : M (kstate E) unit;                       (* log.c *)
  svc_iinit : Z -> M (kstate E) unit;                   (* fs.c *)
  svc_initlog : Z -> M (kstate E) unit;                 (* log.c *)
  svc_ideintr : M (kstate E) unit;                      (* ide.c *)
  svc_kbdintr : M (kstate E) unit;                      (* kbd.c, console.c *)
  svc_uartintr : M (kstate E) unit;                     (* uart.c, console.c *)
  svc_sysfile : Z -> M (kstate E) Z                     (* sysfile.c, by system call number *)
}.

(** ** Accessors *)

Section Access.
Context {E : Type}.
Abbreviation K := (M (kstate E)).

Definition get_proc (p : nat) : K proc := s <- get ;; deref (procs s !! p).
Definition upd_proc (p : nat) (f : proc -> proc) : K unit :=
  r <- get_proc p ;; modify (fun s => set_procs (<[p := f r]> (procs s)) s).

Definition get_level (q : nat) : K level_queue := s <- get ;; deref (level s !! q).
Definition upd_level (q : nat) (f : level_queue -> level_queue) : K unit :=
  r <- get_level q ;; modify (fun s => set_level (<[q := f r]> (level s)) s).

Definition cprintf (f : string) (a : list arg) : K unit :=
  modify (fun s => set_out (out s ++ [mkOut f a]) s).

(** Run a service. *)
Definition svc {A : Type} (f : E -> option (A * E)) : K A :=
  s <- get ;;
  match f (env s) with Some (a, e) => modify (set_env e) ;;; ret a | None => halt end.
Definition svc_ (f : E -> option E) : K unit :=
  s <- get ;;
  match f (env s) with Some e => modify (set_env e) | None => halt end.

(** The locks. *)
Definition ptable_lock : lockref (kstate E) :=
  mkLockref (fun s => Some (pt_lock s)) (fun l s => set_pt_lock l s).
Definition ticks_lock : lockref (kstate E) :=
  mkLockref (fun s => Some (tickslock s)) (fun l s => set_tickslock l s).
Definition level_lock (q : nat) : lockref (kstate E) :=
  mkLockref (fun s => lq_lock <$> level s !! q)
    (fun l s => set_level (alter (set_lq_lock l) q (level s)) s).

#[global] Instance ptable_lock_laws : LockLaws ptable_lock.
Proof. constructor; try done. intros l [] ?; simpl in *. by simplify_eq. Qed.

#[global] Instance ticks_lock_laws : LockLaws ticks_lock.
Proof. constructor; try done. intros l [] ?; simpl in *. by simplify_eq. Qed.

#[global] Instance level_lock_laws q : LockLaws (level_lock q).
Proof.
  constructor; try done.
  - intros l l0 s Hs. simpl in *. rewrite list_lookup_alter, decide_True by done.
    destruct (level s !! q); by simplify_eq.
  - intros l l' s. simpl. unfold set_level; simpl. f_equal.
    by apply list_alter_absorb.
  - intros l s Hs. simpl in *. destruct (level s !! q) as [lq|] eqn:Hq; simplify_eq/=.
    rewrite (alter_Some_insert _ _ _ lq Hq).
    replace (set_lq_lock (lq_lock lq) lq) with lq by (by destruct lq).
    rewrite list_insert_id by done. by destruct s.
Qed.

(** *** Equations *)

Lemma get_proc_eq s p r : procs s !! p = Some r -> get_proc p s = Ret r s.
Proof. intros H. unfold get_proc. ksteps. by rewrite H. Qed.

Lemma upd_proc_eq s p r f :
  procs s !! p = Some r -> upd_proc p f s = Ret tt (set_procs (<[p := f r]> (procs s)) s).
Proof. intros H. unfold upd_proc. by rewrite (bind_Ret _ _ _ _ _ (get_proc_eq s p r H)). Qed.

Lemma get_level_eq s q lq : level s !! q = Some lq -> get_level q s = Ret lq s.
Proof. intros H. unfold get_level. ksteps. by rewrite H. Qed.

Lemma upd_level_eq s q lq f :
  level s !! q = Some lq -> upd_level q f s = Ret tt (set_level (<[q := f lq]> (level s)) s).
Proof. intros H. unfold upd_level. by rewrite (bind_Ret _ _ _ _ _ (get_level_eq s q lq H)). Qed.

(** *** The CPU

    The lemmas of Spinlock.v for this state. *)

Implicit Types s : kstate E.

Lemma ks_mycpu i s n cp cq : kcpu i (km s) n cp cq -> 0 < n -> mycpu s = Ret i s.
Proof. exact (k_mycpu (S := kstate E) i s n cp cq). Qed.

Lemma ks_mycpu_off i s n cp cq : kcpu i (km s) n cp cq -> iflag (km s) = false -> mycpu s = Ret i s.
Proof. exact (k_mycpu_off (S := kstate E) i s n cp cq). Qed.

Lemma ks_get_cpu i s n cp cq : kcpu i (km s) n cp cq ->
  exists c, get_cpu i s = Ret c s /\ ncli c = n /\ c_proc c = cp /\ c_queue c = cq.
Proof. exact (k_get_cpu (S := kstate E) i s n cp cq). Qed.

Lemma ks_myproc i s n cp cq : kcpu i (km s) n cp cq -> shallow n ->
  exists m, myproc s = Ret cp (set_km m s) /\ kcpu i m n cp cq /\ cr3 m = cr3 (km s) /\ iflag m = iflag (km s).
Proof. exact (k_myproc (S := kstate E) i s n cp cq). Qed.

Lemma ks_pushcli i s n cp cq : kcpu i (km s) n cp cq -> shallow n ->
  exists m, pushcli s = Ret tt (set_km m s) /\ kcpu i m (n + 1) cp cq /\ cr3 m = cr3 (km s).
Proof. exact (k_pushcli (S := kstate E) i s n cp cq). Qed.

Lemma ks_popcli i s n cp cq : kcpu i (km s) n cp cq -> 0 < n ->
  exists m, popcli s = Ret tt (set_km m s) /\ kcpu i m (n - 1) cp cq /\ cr3 m = cr3 (km s).
Proof. exact (k_popcli (S := kstate E) i s n cp cq). Qed.

(** Changes of the CPU's entry. *)
Lemma ks_upd_cpu i s n cp cq f : kcpu i (km s) n cp cq ->
  (forall c, apicid (f c) = apicid c /\ ncli (f c) = ncli c) ->
  (forall c c', c_proc c = c_proc c' -> c_proc (f c) = c_proc (f c')) ->
  (forall c c', c_queue c = c_queue c' -> c_queue (f c) = c_queue (f c')) ->
  forall c0, c_proc c0 = cp -> c_queue c0 = cq ->
  exists m, upd_cpu i f s = Ret tt (set_km m s) /\ kcpu i m n (c_proc (f c0)) (c_queue (f c0)) /\
    cr3 m = cr3 (km s) /\ iflag m = iflag (km s).
Proof. exact (k_upd_cpu (S := kstate E) i s n cp cq f). Qed.

(** The lock of the process table. *)
Lemma ks_acquire_pt i s n cp cq : kcpu i (km s) n cp cq -> shallow n -> free_lock (pt_lock s) ->
  exists m l, acquire ptable_lock s = Ret tt (set_pt_lock l (set_km m s)) /\
    held_by i l /\ kcpu i m (n + 1) cp cq /\ if_saved i m = if_saved i (km s).
Proof.
  intros Hc Hs Hf. pose proof (k_acquire ptable_lock i s n cp cq (pt_lock s)) as Hk.
  destruct (Hk Hc Hs eq_refl Hf) as (m & He & Hm & Hr).
  eexists m, _. split; [exact He|]. done.
Qed.

Lemma ks_release_pt i s n cp cq : kcpu i (km s) n cp cq -> shallow n -> 0 < n -> held_by i (pt_lock s) ->
  exists m l, release ptable_lock s = Ret tt (set_pt_lock l (set_km m s)) /\
    free_lock l /\ kcpu i m (n - 1) cp cq /\ if_saved i m = if_saved i (km s).
Proof.
  intros Hc Hs Hn Hf. pose proof (k_release ptable_lock i s n cp cq (pt_lock s)) as Hk.
  destruct (Hk Hc Hs Hn eq_refl Hf) as (m & He & Hm & Hr).
  eexists m, _. split; [exact He|]. done.
Qed.

(** The lock of the clock. *)
Lemma ks_acquire_ticks i s n cp cq : kcpu i (km s) n cp cq -> shallow n -> free_lock (tickslock s) ->
  exists m l, acquire ticks_lock s = Ret tt (set_tickslock l (set_km m s)) /\
    held_by i l /\ kcpu i m (n + 1) cp cq /\ if_saved i m = if_saved i (km s).
Proof.
  intros Hc Hs Hf. pose proof (k_acquire ticks_lock i s n cp cq (tickslock s)) as Hk.
  destruct (Hk Hc Hs eq_refl Hf) as (m & He & Hm & Hr).
  eexists m, _. split; [exact He|]. done.
Qed.

Lemma ks_release_ticks i s n cp cq : kcpu i (km s) n cp cq -> shallow n -> 0 < n -> held_by i (tickslock s) ->
  exists m l, release ticks_lock s = Ret tt (set_tickslock l (set_km m s)) /\
    free_lock l /\ kcpu i m (n - 1) cp cq /\ if_saved i m = if_saved i (km s).
Proof.
  intros Hc Hs Hn Hf. pose proof (k_release ticks_lock i s n cp cq (tickslock s)) as Hk.
  destruct (Hk Hc Hs Hn eq_refl Hf) as (m & He & Hm & Hr).
  eexists m, _. split; [exact He|]. done.
Qed.

End Access.
