(* ===== verification/Rsdl.v ===== *)
(** * RSDL level queues (proc.c)

    The queues of the Rotating Staircase Deadline scheduler: which set a queue is
    in, [enqueue_proc], [unqueue_proc], [remove_proc_from_levels], and the search
    for a level with quantum left. *)

From stdpp Require Import base tactics list sets strings.
From Stdlib Require Import ZArith Lia.
From S2P Require Import Prelude Params Spinlock ProcState.
Open Scope Z_scope.

Section Ops.
Context {E : Type}.
Abbreviation K := (M (kstate E)).

(** [ptable.active <= q && q < &ptable.active[RSDL_LEVELS]] *)
Definition is_active_set (q : nat) : K bool :=
  s <- get ;; ret ((active s <=? q)%nat && (q <? active s + RSDL_LEVELS)%nat).

Definition is_expired_set (q : nat) : K bool :=
  b <- is_active_set q ;; ret (negb b).

Definition enqueue_proc (p q : option nat) : K unit :=
  match p, q with
  | None, _ => panic "enqueue of NULL proc node"
  | _, None => panic "enqueue in NULL queue"
  | Some p, Some q =>
      acquire (level_lock q) ;;;
      (lq <- get_level q ;;
       if (NPROC <=? numproc lq)%nat then panic "enqueue in full level" else
       upd_level q (fun lq => set_numproc (S (numproc lq))
                                (set_lq_proc (<[numproc lq := Some p]> (lq_proc lq)) lq))) ;;;
      release (level_lock q)
  end.

(** Returns the index the process had in the queue, -1 when it is not there. *)
Definition unqueue_proc_full (p q : option nat) (isTry : bool) : K Z :=
  match q with
  | None => panic "unqueue in NULL queue"
  | Some q =>
      lq <- get_level q ;;
      if (numproc lq =? 0)%nat then
        if negb isTry then panic "unqueue on empty level" else ret (-1)
      else
        acquire (level_lock q) ;;;
        found <- (lq <- get_level q ;;
          found <- for_find (seq 0 (numproc lq)) (fun i =>
            x <- deref (lq_proc lq !! i) ;;
            ret (if bool_decide (x = p) then Some i else None)) ;;
          match found with
          | Some i =>
              for_each (seq (i + 1) (numproc lq - (i + 1))) (fun j =>
                lq <- get_level q ;;
                x <- deref (lq_proc lq !! j) ;;
                upd_level q (set_lq_proc (<[(j - 1)%nat := x]> (lq_proc lq)))) ;;;
              upd_level q (fun lq => set_numproc (numproc lq - 1) lq) ;;;
              ret (Some i)
          | None => ret None
          end) ;;
        release (level_lock q) ;;;
        match found with
        | None => if negb isTry then panic "unqueue of node not belonging to level" else ret (-1)
        | Some i => ret (Z.of_nat i)
        end
  end.

Definition unqueue_proc (p q : option nat) : K Z := unqueue_proc_full p q false.
Definition try_unqueue_proc (p q : option nat) : K Z := unqueue_proc_full p q true.

(** [&ptable.level[s][k]] *)
Definition level_ptr (s k : nat) : nat := s * RSDL_LEVELS + k.

Definition remove_proc_from_levels (p : option nat) : K Z :=
  found <- for_find (seq 0 2) (fun s =>
    for_find (seq 0 RSDL_LEVELS) (fun k =>
      r <- try_unqueue_proc p (Some (level_ptr s k)) ;;
      ret (if negb (r =? -1) then Some tt else None))) ;;
  ret (match found with Some _ => 0 | None => -1 end).

Definition next_level (start : Z) (use_expired : bool) : K Z :=
  s <- get ;;
  let set := if use_expired then expired s else active s in
  if start <? 0 then ret (-1) else
  k <- for_find (seq (Z.to_nat start) (RSDL_LEVELS - Z.to_nat start)) (fun k =>
         lq <- get_level (set + k) ;;
         ret (if (0 <? lq_ticks_left lq) && (numproc lq <? NPROC)%nat then Some k else None)) ;;
  ret (match k with Some k => Z.of_nat k | None => -1 end).

Definition next_active_level (start : Z) : K Z := next_level start false.
Definition next_expired_level (start : Z) : K Z := next_level start true.

Definition find_available_queue (active_start expired_start : Z) : K (option nat) :=
  level <- next_active_level active_start ;;
  if level =? -1 then
    level <- next_expired_level expired_start ;;
    if level =? -1 then panic "No free level in expired and active set, too many procs"
    else s <- get ;; ret (Some (expired s + Z.to_nat level)%nat)
  else s <- get ;; ret (Some (active s + Z.to_nat level)%nat).

End Ops.

(** ** The sequence a queue represents *)

(** The first [numproc] entries of the array are the processes [l], in order,
    and nobody holds the queue's lock. *)
Record lq_repr (lq : level_queue) (l : list nat) : Prop := {
  lr_take : take (numproc lq) (lq_proc lq) = Some <$> l;
  lr_num : numproc lq = length l;
  lr_cap : length (lq_proc lq) = NPROC;
  lr_free : free_lock (lq_lock lq)
}.

Lemma lq_repr_le lq l : lq_repr lq l -> (length l <= NPROC)%nat.
Proof.
  intros [Ht Hn Hc _]. apply (f_equal length) in Ht.
  rewrite length_take, length_fmap in Ht. lia.
Qed.

Lemma lq_repr_lookup lq l i : lq_repr lq l -> (i < length l)%nat ->
  exists p, l !! i = Some p /\ lq_proc lq !! i = Some (Some p).
Proof.
  intros [Ht Hn _ _] Hi. destruct (lookup_lt_is_Some_2 l i Hi) as [p Hp].
  exists p. split; [done|].
  assert (take (numproc lq) (lq_proc lq) !! i = Some (Some p)) as Hl.
  { rewrite Ht, list_lookup_fmap, Hp. done. }
  by rewrite lookup_take_lt in Hl by lia.
Qed.

Lemma lq_repr_inj lq l l' : lq_repr lq l -> lq_repr lq l' -> l = l'.
Proof.
  intros [H _ _ _] [H' _ _ _]. rewrite H in H'. by apply (inj (fmap Some)) in H'.
Qed.

(** ** Behaviour of the operations *)

(** The code runs on CPU [i] inside at least one [pushcli], as it does whenever
    [ptable.lock] is held. *)
Record in_cli {E : Type} (s : kstate E) (i : nat) (c : cpu) : Prop := {
  ic_cpu : this_cpu (km s) i c;
  ic_depth : 0 < ncli c < 2 ^ 31 - 10
}.

Section Facts.
Context {E : Type}.
Abbreviation K := (M (kstate E)).
Implicit Types (s : kstate E) (lq : level_queue) (l : list nat) (p q : nat).

(** A critical section of a queue's lock. *)
Lemma level_section {A : Type} (I : kstate E -> Prop) s i c q lq lq' (body : K A) (a : A) :
  in_cli s i c -> level s !! q = Some lq -> free_lock (lq_lock lq) -> lq_lock lq' = lq_lock lq ->
  (forall m h, exists s', km s' = km s /\ I s' /\
     body (set_level (<[q := set_lq_lock h lq]> (level s)) (set_km m s)) =
     Ret a (set_level (<[q := set_lq_lock h lq']> (level s)) (set_km m s'))) ->
  exists s1 s2 s', I s' /\ acquire (level_lock q) s = Ret tt s1 /\ body s1 = Ret a s2 /\
    release (level_lock q) s2 = Ret tt (set_level (<[q := lq']> (level s)) s').
Proof.
  intros [Ht Hd] Hq Hf Hl' Hb.
  pose proof (lookup_lt_Some _ _ _ Hq) as Hlt.
  assert (lk_get (level_lock q) s = Some (lq_lock lq)) as Hg by (simpl; by rewrite Hq).
  destruct (Hb (push_mach i c (km s)) (mkLock 1 (lk_name (lq_lock lq)) (Some i))) as (s' & Hkm & HI & Hbody).
  eexists. eexists. exists s'. split; [done|]. split; [|split].
  { apply (acquire_eq (level_lock q) s i c (lq_lock lq)); [done|lia|done|done]. }
  { simpl lk_set. rewrite (alter_Some_insert _ _ _ lq) by done. exact Hbody. }
  change (mach_of s) with (km s) in *. set (h := mkLock 1 _ _). set (m1 := push_mach i c (km s)).
  set (s2 := set_level _ (set_km m1 s')).
  assert (level s2 !! q = Some (set_lq_lock h lq')) as Hq2.
  { simpl. by apply list_lookup_insert_eq. }
  rewrite (release_eq (level_lock q) s2 i (pushed (iflag (km s)) c) h).
  - f_equal. simpl lk_set. rewrite (alter_Some_insert _ _ _ (set_lq_lock h lq')) by done.
    change (mach_of s2) with m1. unfold m1. rewrite (pop_push (km s) i c Ht).
    rewrite (touch_nested (km s) i c Ht) by lia.
    replace (set_lq_lock _ (set_lq_lock h lq')) with lq'.
    + unfold s2, set_level; simpl. rewrite list_insert_insert_eq, <- Hkm. by destruct s'.
    + destruct lq' as [lk n t ps]; simpl in *. subst lk.
      destruct (lq_lock lq) as [lk nm cp], Hf as [? ?]; simpl in *. by subst.
  - by apply (this_cpu_push (km s)); [done|lia].
  - unfold pushed; simpl. lia.
  - simpl. rewrite list_lookup_insert_eq by done. done.
  - done.
Qed.

Lemma with_level_lock {A B : Type} s i c q lq lq' (body : K A) (a : A) (k : A -> K B) :
  in_cli s i c -> level s !! q = Some lq -> free_lock (lq_lock lq) -> lq_lock lq' = lq_lock lq ->
  (forall m h, body (set_level (<[q := set_lq_lock h lq]> (level s)) (set_km m s)) =
             Ret a (set_level (<[q := set_lq_lock h lq']> (level s)) (set_km m s))) ->
  bind (acquire (level_lock q)) (fun _ =>
    bind body (fun a => bind (release (level_lock q)) (fun _ => k a))) s =
  k a (set_level (<[q := lq']> (level s)) s).
Proof.
  intros H1 H2 H3 H4 H5. destruct (level_section (eq s) s i c q lq lq' body a) as (s1 & s2 & ? & <- & Ha & Hb & Hr); try done.
  { intros m h. by exists s. }
  by rewrite (bind_Ret _ _ _ _ _ Ha), (bind_Ret _ _ _ _ _ Hb), (bind_Ret _ _ _ _ _ Hr).
Qed.

Lemma with_level_lock_tail {A : Type} s i c q lq lq' (body : K A) (a : A) :
  in_cli s i c -> level s !! q = Some lq -> free_lock (lq_lock lq) -> lq_lock lq' = lq_lock lq ->
  (forall m h, body (set_level (<[q := set_lq_lock h lq]> (level s)) (set_km m s)) =
             Ret a (set_level (<[q := set_lq_lock h lq']> (level s)) (set_km m s))) ->
  bind (acquire (level_lock q)) (fun _ => bind body (fun _ => release (level_lock q))) s =
  Ret tt (set_level (<[q := lq']> (level s)) s).
Proof.
  intros H1 H2 H3 H4 H5. destruct (level_section (eq s) s i c q lq lq' body a) as (s1 & s2 & ? & <- & Ha & Hb & Hr); try done.
  { intros m h. by exists s. }
  by rewrite (bind_Ret _ _ _ _ _ Ha), (bind_Ret _ _ _ _ _ Hb).
Qed.

Lemma get_level_in s q lq m h : (q < length (level s))%nat ->
  get_level q (set_level (<[q := set_lq_lock h lq]> (level s)) (set_km m s)) =
  Ret (set_lq_lock h lq) (set_level (<[q := set_lq_lock h lq]> (level s)) (set_km m s)).
Proof. intros. apply get_level_eq. simpl. by apply list_lookup_insert_eq. Qed.

Lemma upd_level_in s q lq m h f : (q < length (level s))%nat ->
  upd_level q f (set_level (<[q := set_lq_lock h lq]> (level s)) (set_km m s)) =
  Ret tt (set_level (<[q := f (set_lq_lock h lq)]> (level s)) (set_km m s)).
Proof.
  intros. erewrite upd_level_eq by (simpl; by apply list_lookup_insert_eq).
  unfold set_level; simpl. by rewrite list_insert_insert_eq.
Qed.

(** The queue after an enqueue. *)
Definition lq_push (p : nat) (lq : level_queue) : level_queue :=
  set_numproc (S (numproc lq)) (set_lq_proc (<[numproc lq := Some p]> (lq_proc lq)) lq).

Lemma lq_push_repr lq l p : lq_repr lq l -> (length l < NPROC)%nat -> lq_repr (lq_push p lq) (l ++ [p]).
Proof.
  intros [Ht Hn Hc Hf] Hl. constructor; simpl; try done.
  - rewrite fmap_app, <- Ht, Hn.
    rewrite (take_S_r _ _ (Some p)) by (rewrite list_lookup_insert_eq; [done|lia]).
    f_equal. by rewrite take_insert_ge by lia.
  - rewrite length_app, Hn. simpl. lia.
  - by rewrite length_insert.
Qed.

Lemma enqueue_proc_eq s i c q lq l p :
  in_cli s i c -> level s !! q = Some lq -> lq_repr lq l -> (length l < NPROC)%nat ->
  enqueue_proc (Some p) (Some q) s = Ret tt (set_level (<[q := lq_push p lq]> (level s)) s).
Proof.
  intros Hc Hq Hr Hl. pose proof (lookup_lt_Some _ _ _ Hq) as Hlt. unfold enqueue_proc.
  apply (with_level_lock_tail s i c q lq (lq_push p lq) _ tt); [done|done|apply Hr|done|].
  intros m h. rewrite (bind_Ret _ _ _ _ _ (get_level_in s q lq m h Hlt)). cbn [numproc set_lq_lock].
  rewrite (lr_num _ _ Hr). destruct (Nat.leb_spec NPROC (length l)); [lia|].
  rewrite upd_level_in by done. done.
Qed.

Lemma enqueue_full s i c q lq l p :
  in_cli s i c -> level s !! q = Some lq -> lq_repr lq l -> length l = NPROC ->
  enqueue_proc (Some p) (Some q) s = Panic "enqueue in full level".
Proof.
  intros [Ht Hd] Hq Hr Hl. pose proof (lookup_lt_Some _ _ _ Hq) as Hlt. unfold enqueue_proc.
  erewrite bind_Ret.
  2:{ apply (acquire_eq (level_lock q) s i c (lq_lock lq)); [done|lia|simpl; by rewrite Hq|apply Hr]. }
  simpl lk_set. rewrite (alter_Some_insert _ _ _ lq) by done.
  unfold bind at 1. rewrite (bind_Ret _ _ _ _ _ (get_level_in s q lq _ _ Hlt)). cbv beta.
  cbn [numproc set_lq_lock]. rewrite (lr_num _ _ Hr), Hl. done.
Qed.

(** Moving the entries after [i] one slot up. *)
Definition shift_step (a : list (option nat)) (j : nat) : list (option nat) :=
  match a !! j with Some x => <[(j - 1)%nat := x]> a | None => a end.
Definition shift_up (i m : nat) (a : list (option nat)) : list (option nat) :=
  foldl shift_step a (seq (i + 1) m).

Lemma shift_up_S i m a : shift_up i (S m) a = shift_step (shift_up i m a) (i + 1 + m).
Proof. unfold shift_up. rewrite seq_S, foldl_app. done. Qed.

Lemma shift_up_length i m a : length (shift_up i m a) = length a.
Proof.
  induction m as [|m IH]; [done|]. rewrite shift_up_S. unfold shift_step.
  case_match; [|done]. by rewrite length_insert.
Qed.

Lemma shift_up_lookup i m a k : (i + m < length a)%nat ->
  shift_up i m a !! k = if decide (i <= k < i + m)%nat then a !! S k else a !! k.
Proof.
  revert k. induction m as [|m IH]; intros k Hl.
  - case_decide; [lia|done].
  - rewrite shift_up_S. unfold shift_step. rewrite IH by lia.
    rewrite decide_False by lia.
    destruct (lookup_lt_is_Some_2 a (i + 1 + m)) as [x Hx]; [lia|]. rewrite Hx.
    replace (i + 1 + m - 1)%nat with (i + m)%nat by lia.
    destruct (decide (k = (i + m)%nat)) as [->|Hne].
    + rewrite list_lookup_insert_eq by (rewrite shift_up_length; lia).
      rewrite decide_True by lia. rewrite <- Hx. f_equal. lia.
    + rewrite list_lookup_insert_ne, IH by lia.
      destruct (decide (i <= k < i + m)%nat), (decide (i <= k < i + S m)%nat); done || lia.
Qed.

(** The queue after the process at index [i] left. *)
Definition lq_remove (i : nat) (lq : level_queue) : level_queue :=
  set_numproc (numproc lq - 1) (set_lq_proc (shift_up i (numproc lq - (i + 1)) (lq_proc lq)) lq).

Lemma app_remove_lookup l1 l2 p k :
  (l1 ++ l2) !! k = (l1 ++ p :: l2) !! (if decide (k < length l1)%nat then k else S k).
Proof.
  case_decide.
  - by rewrite !lookup_app_l by lia.
  - rewrite !lookup_app_r by lia. by replace (S k - length l1)%nat with (S (k - length l1)) by lia.
Qed.

Lemma lq_remove_repr lq l1 p l2 :
  lq_repr lq (l1 ++ p :: l2) -> lq_repr (lq_remove (length l1) lq) (l1 ++ l2).
Proof.
  intros Hr. pose proof (lq_repr_le _ _ Hr) as Hle. destruct Hr as [Ht Hn Hc Hf].
  rewrite length_app in Hn, Hle. simpl in Hn, Hle.
  constructor; simpl; [|rewrite length_app; lia|by rewrite shift_up_length|done].
  apply list_eq. intros k. rewrite list_lookup_fmap, (app_remove_lookup l1 l2 p k).
  assert (forall k, (k < numproc lq)%nat -> lq_proc lq !! k = Some <$> (l1 ++ p :: l2) !! k) as Hk.
  { intros k' Hk'. rewrite <- list_lookup_fmap, <- Ht. by rewrite lookup_take_lt by lia. }
  destruct (decide (k < numproc lq - 1)%nat) as [Hlt|Hge].
  - rewrite lookup_take_lt by lia. rewrite shift_up_lookup by lia.
    destruct (decide (k < length l1)%nat).
    + rewrite decide_False by lia. apply Hk. lia.
    + rewrite decide_True by lia. apply Hk. lia.
  - rewrite lookup_take_ge by lia. rewrite decide_False by lia.
    symmetry. apply fmap_None, lookup_ge_None. rewrite length_app. simpl. lia.
Qed.

(** The copying loop inside the critical section. *)
Lemma shift_loop s q lq m h js : (q < length (level s))%nat ->
  (forall j, j ∈ js -> (j < length (lq_proc lq))%nat) ->
  for_each js (fun j =>
    lq <- get_level q ;;
    x <- deref (lq_proc lq !! j) ;;
    upd_level q (set_lq_proc (<[(j - 1)%nat := x]> (lq_proc lq))))
    (set_level (<[q := set_lq_lock h lq]> (level s)) (set_km m s)) =
  Ret tt (set_level (<[q := set_lq_lock h (set_lq_proc (foldl shift_step (lq_proc lq) js) lq)]> (level s))
            (set_km m s)).
Proof.
  intros Hq. revert lq. induction js as [|j js IH]; intros lq Hjs; simpl for_each.
  - simpl. by destruct lq.
  - destruct (lookup_lt_is_Some_2 (lq_proc lq) j) as [x Hx]; [apply Hjs; set_solver|].
    erewrite bind_Ret.
    2:{ rewrite (bind_Ret _ _ _ _ _ (get_level_in s q lq m h Hq)). cbn [lq_proc set_lq_lock].
        rewrite (bind_deref _ x) by done. by apply upd_level_in. }
    change (set_lq_proc (<[(j - 1)%nat := x]> (lq_proc lq)) (set_lq_lock h lq))
      with (set_lq_lock h (set_lq_proc (<[(j - 1)%nat := x]> (lq_proc lq)) lq)).
    rewrite IH.
    + simpl. unfold shift_step at 3. rewrite Hx. done.
    + intros j' Hj'. simpl. rewrite length_insert. apply Hjs. set_solver.
Qed.

Lemma search_hit lq l1 p l2 s' : lq_repr lq (l1 ++ p :: l2) -> p ∉ l1 ->
  for_find (seq 0 (numproc lq)) (fun i =>
    x <- deref (lq_proc lq !! i) ;;
    ret (if bool_decide (x = Some p) then Some i else None)) s' = Ret (Some (length l1)) s'.
Proof.
  intros Hr Hp. apply (for_find_seq_hit _ _ (length l1)).
  - rewrite (lr_num _ _ Hr), length_app. simpl. lia.
  - intros j Hj. destruct (lq_repr_lookup _ _ j Hr) as (p' & Hp' & Hx).
    { rewrite length_app. lia. }
    rewrite (bind_deref _ _ _ _ Hx). rewrite bool_decide_false; [done|]. intros [= ->].
    apply Hp. rewrite lookup_app_l in Hp' by lia. by eapply list_elem_of_lookup_2.
  - destruct (lq_repr_lookup _ _ (length l1) Hr) as (p' & Hp' & Hx).
    { rewrite length_app. simpl. lia. }
    rewrite list_lookup_middle in Hp' by done. simplify_eq.
    rewrite (bind_deref _ _ _ _ Hx). by rewrite bool_decide_true.
Qed.

Lemma search_miss lq l p s' : lq_repr lq l -> p ∉ l ->
  for_find (seq 0 (numproc lq)) (fun i =>
    x <- deref (lq_proc lq !! i) ;;
    ret (if bool_decide (x = Some p) then Some i else None)) s' = Ret None s'.
Proof.
  intros Hr Hp. rewrite (for_find_pure _ _ (fun _ => None)).
  - f_equal. by apply first_some_None.
  - intros j Hj. apply elem_of_seq in Hj. rewrite (lr_num _ _ Hr) in Hj.
    destruct (lq_repr_lookup _ _ j Hr) as (p' & Hp' & Hx); [lia|].
    rewrite (bind_deref _ _ _ _ Hx), bool_decide_false; [done|]. intros [= ->].
    apply Hp. by eapply list_elem_of_lookup_2.
Qed.

Lemma unqueue_eq s i c q lq l1 p l2 isTry :
  in_cli s i c -> level s !! q = Some lq -> lq_repr lq (l1 ++ p :: l2) -> p ∉ l1 ->
  unqueue_proc_full (Some p) (Some q) isTry s =
  Ret (Z.of_nat (length l1)) (set_level (<[q := lq_remove (length l1) lq]> (level s)) s).
Proof.
  intros Hc Hq Hr Hp. pose proof (lookup_lt_Some _ _ _ Hq) as Hlt.
  pose proof (lr_num _ _ Hr) as Hn. rewrite length_app in Hn. simpl in Hn.
  pose proof (lr_cap _ _ Hr) as Hcap. pose proof (lq_repr_le _ _ Hr) as Hle.
  rewrite length_app in Hle. simpl in Hle.
  unfold unqueue_proc_full. rewrite (bind_Ret _ _ _ _ _ (get_level_eq s q lq Hq)).
  destruct (Nat.eqb_spec (numproc lq) 0); [lia|].
  rewrite (with_level_lock s i c q lq (lq_remove (length l1) lq) _ (Some (length l1)));
    [done|done|done|apply Hr|done|].
  intros m h. rewrite (bind_Ret _ _ _ _ _ (get_level_in s q lq m h Hlt)).
  cbn [numproc set_lq_lock lq_proc].
  erewrite bind_Ret by (by eapply search_hit). cbv beta iota.
  erewrite bind_Ret.
  2:{ apply shift_loop; [done|]. intros j Hj. apply elem_of_seq in Hj. lia. }
  erewrite bind_Ret by (by apply upd_level_in). done.
Qed.

Lemma unqueue_miss s i c q lq l p isTry :
  in_cli s i c -> level s !! q = Some lq -> lq_repr lq l -> p ∉ l ->
  unqueue_proc_full (Some p) (Some q) isTry s =
  if isTry then Ret (-1) s
  else Panic (match l with [] => "unqueue on empty level"
                         | _ => "unqueue of node not belonging to level" end).
Proof.
  intros Hc Hq Hr Hp. pose proof (lookup_lt_Some _ _ _ Hq) as Hlt.
  pose proof (lr_num _ _ Hr) as Hn.
  unfold unqueue_proc_full. rewrite (bind_Ret _ _ _ _ _ (get_level_eq s q lq Hq)).
  destruct (Nat.eqb_spec (numproc lq) 0) as [E0|E0].
  { destruct l; [by destruct isTry|simpl in Hn; lia]. }
  rewrite (with_level_lock s i c q lq lq _ None); [|done|done|apply Hr|done|].
  - rewrite list_insert_id by done. replace (set_level (level s) s) with s by (by destruct s).
    destruct isTry; simpl; [done|]. destruct l; [simpl in Hn; lia|done].
  - intros m h. rewrite (bind_Ret _ _ _ _ _ (get_level_in s q lq m h Hlt)).
    cbn [numproc set_lq_lock lq_proc].
    erewrite bind_Ret by (by eapply search_miss). done.
Qed.

End Facts.

(** ** The two sets of levels

    [repr s A X]: the active set is the levels [A] and the expired set the levels
    [X], each level with its remaining quantum and the processes queued in it. *)

Abbreviation lvl := (Z * list nat)%type.

Definition lvl_repr (lq : level_queue) (v : lvl) : Prop := lq_repr lq v.2 /\ lq_ticks_left lq = v.1.

Record qrepr (a x : nat) (lv : list level_queue) (A X : list lvl) : Prop := {
  qr_sets : (a = 0 /\ x = RSDL_LEVELS)%nat \/ (a = RSDL_LEVELS /\ x = 0)%nat;
  qr_len : length lv = (2 * RSDL_LEVELS)%nat;
  qr_lenA : length A = RSDL_LEVELS;
  qr_lenX : length X = RSDL_LEVELS;
  qr_act : forall k v, A !! k = Some v -> exists lq, lv !! (a + k)%nat = Some lq /\ lvl_repr lq v;
  qr_exp : forall k v, X !! k = Some v -> exists lq, lv !! (x + k)%nat = Some lq /\ lvl_repr lq v
}.
Definition repr {E : Type} (s : kstate E) (A X : list lvl) : Prop :=
  qrepr (active s) (expired s) (level s) A X.

Section ReprAccess.
Context {E : Type} (s : kstate E) (A X : list lvl) (H : repr s A X).
Definition rp_sets := qr_sets _ _ _ _ _ H.
Definition rp_len := qr_len _ _ _ _ _ H.
Definition rp_lenA := qr_lenA _ _ _ _ _ H.
Definition rp_lenX := qr_lenX _ _ _ _ _ H.
Definition rp_act := qr_act _ _ _ _ _ H.
Definition rp_exp := qr_exp _ _ _ _ _ H.
End ReprAccess.

Section ReprFacts.
Context {E : Type}.
Implicit Types (s : kstate E) (A X : list lvl).

(** Active and expired queues do not overlap in memory. *)
Lemma repr_apart s A X j k : repr s A X -> (j < RSDL_LEVELS)%nat -> (k < RSDL_LEVELS)%nat ->
  (active s + j <> expired s + k)%nat.
Proof. intros H Hj Hk. destruct (rp_sets _ _ _ H) as [[-> ->]|[-> ->]]; unfold RSDL_LEVELS in *; lia. Qed.

(** The only fields [repr] reads. *)
Lemma repr_ext s s' A X :
  active s' = active s -> expired s' = expired s -> level s' = level s -> repr s A X -> repr s' A X.
Proof. intros E1 E2 E3 H. unfold repr. by rewrite E1, E2, E3. Qed.

Lemma repr_set_procs s A X v : repr s A X -> repr (set_procs v s) A X.
Proof. by apply repr_ext. Qed.

Lemma repr_upd_active s A X k lq v :
  repr s A X -> (k < RSDL_LEVELS)%nat -> lvl_repr lq v ->
  repr (set_level (<[(active s + k)%nat := lq]> (level s)) s) (<[k := v]> A) X.
Proof.
  intros H Hk Hv. pose proof H as [Hs Hl HA HX Ha Hx].
  assert (active s + k < length (level s))%nat as Hin.
  { rewrite Hl. destruct Hs as [[-> _]|[-> _]]; unfold RSDL_LEVELS in *; lia. }
  constructor; simpl; rewrite ?length_insert; try done.
  - intros j w Hj. destruct (decide (j = k)) as [->|Hne].
    + rewrite list_lookup_insert_eq in Hj by lia. simplify_eq.
      exists lq. by rewrite list_lookup_insert_eq.
    + rewrite list_lookup_insert_ne in Hj by done. rewrite list_lookup_insert_ne by lia. auto.
  - intros j w Hj. rewrite list_lookup_insert_ne; [auto|].
    apply (repr_apart s A X); [done|done|]. apply lookup_lt_Some in Hj. lia.
Qed.

Lemma repr_upd_expired s A X k lq v :
  repr s A X -> (k < RSDL_LEVELS)%nat -> lvl_repr lq v ->
  repr (set_level (<[(expired s + k)%nat := lq]> (level s)) s) A (<[k := v]> X).
Proof.
  intros H Hk Hv. pose proof H as [Hs Hl HA HX Ha Hx].
  assert (expired s + k < length (level s))%nat as Hin.
  { rewrite Hl. destruct Hs as [[_ ->]|[_ ->]]; unfold RSDL_LEVELS in *; lia. }
  constructor; simpl; rewrite ?length_insert; try done.
  - intros j w Hj. rewrite list_lookup_insert_ne; [auto|].
    apply not_eq_sym, (repr_apart s A X); [done| |done]. apply lookup_lt_Some in Hj. lia.
  - intros j w Hj. destruct (decide (j = k)) as [->|Hne].
    + rewrite list_lookup_insert_eq in Hj by lia. simplify_eq.
      exists lq. by rewrite list_lookup_insert_eq.
    + rewrite list_lookup_insert_ne in Hj by done. rewrite list_lookup_insert_ne by lia. auto.
Qed.

(** Exchanging the roles of the sets. *)
Lemma repr_swap s A X : repr s A X -> repr (set_expired (active s) (set_active (expired s) s)) X A.
Proof. intros []. constructor; simpl; try done. tauto. Qed.

(** The sets are determined by the state. *)
Lemma repr_inj s A X A' X' : repr s A X -> repr s A' X' -> A = A' /\ X = X'.
Proof.
  intros H H'.
  assert (forall lq v v', lvl_repr lq v -> lvl_repr lq v' -> v = v') as Hv.
  { intros lq [t l] [t' l'] [H1 H2] [H3 H4]. simpl in *. f_equal; [congruence|by eapply lq_repr_inj]. }
  split; apply list_eq; intros k.
  - destruct (A !! k) as [v|] eqn:E1, (A' !! k) as [v'|] eqn:E2; try done.
    + destruct (rp_act _ _ _ H k v E1) as (lq & Hl & Hr), (rp_act _ _ _ H' k v' E2) as (lq' & Hl' & Hr').
      f_equal. apply (Hv lq); congruence.
    + apply lookup_lt_Some in E1. apply lookup_ge_None in E2.
      rewrite (rp_lenA _ _ _ H) in E1. rewrite (rp_lenA _ _ _ H') in E2. lia.
    + apply lookup_lt_Some in E2. apply lookup_ge_None in E1.
      rewrite (rp_lenA _ _ _ H) in E1. rewrite (rp_lenA _ _ _ H') in E2. lia.
  - destruct (X !! k) as [v|] eqn:E1, (X' !! k) as [v'|] eqn:E2; try done.
    + destruct (rp_exp _ _ _ H k v E1) as (lq & Hl & Hr), (rp_exp _ _ _ H' k v' E2) as (lq' & Hl' & Hr').
      f_equal. apply (Hv lq); congruence.
    + apply lookup_lt_Some in E1. apply lookup_ge_None in E2.
      rewrite (rp_lenX _ _ _ H) in E1. rewrite (rp_lenX _ _ _ H') in E2. lia.
    + apply lookup_lt_Some in E2. apply lookup_ge_None in E1.
      rewrite (rp_lenX _ _ _ H) in E1. rewrite (rp_lenX _ _ _ H') in E2. lia.
Qed.

(** *** Searching for a level *)

(** A level that can take a process: quantum left, and room in its array. *)
Definition open_level (v : lvl) : bool := (0 <? v.1) && (length v.2 <? NPROC)%nat.

(** The first open level from [start] on. *)
Definition avail (start : nat) (L : list lvl) : option nat :=
  first_some (fun k => match L !! k with
                       | Some v => if open_level v then Some k else None
                       | None => None end) (seq start (RSDL_LEVELS - start)).

Lemma avail_Some start L k : avail start L = Some k ->
  (start <= k < RSDL_LEVELS)%nat /\ (exists v, L !! k = Some v /\ open_level v = true) /\
  forall j v, (start <= j < k)%nat -> L !! j = Some v -> open_level v = false.
Proof.
  intros (k' & Hk & Hf & Hj)%first_some_seq_inv.
  destruct (L !! k') as [v|] eqn:Hv; [|done]. destruct (open_level v) eqn:Ho; [|done].
  simplify_eq. split; [lia|]. split; [eauto|]. intros j w Hjk Hw.
  specialize (Hj j Hjk). rewrite Hw in Hj. by destruct (open_level w).
Qed.

Lemma next_level_eq s A X start (b : bool) : repr s A X -> 0 <= start ->
  next_level start b s =
  Ret (match avail (Z.to_nat start) (if b then X else A) with
       | Some k => Z.of_nat k | None => -1 end) s.
Proof.
  intros H Hst. unfold next_level. ksteps. destruct (Z.ltb_spec start 0); [lia|].
  set (base := if b then expired s else active s). set (L := if b then X else A).
  assert (length L = RSDL_LEVELS /\
          forall k v, L !! k = Some v -> exists lq, level s !! (base + k)%nat = Some lq /\ lvl_repr lq v)
    as [HL Hk].
  { destruct b; subst base L; [split; [apply H|apply (rp_exp _ _ _ H)]|split; [apply H|apply (rp_act _ _ _ H)]]. }
  erewrite bind_Ret.
  2:{ apply for_find_pure with (f := fun k => match L !! k with
        | Some v => if open_level v then Some k else None | None => None end).
      intros k Hin. apply elem_of_seq in Hin.
      destruct (lookup_lt_is_Some_2 L k) as [v Hv]; [lia|]. rewrite Hv.
      destruct (Hk k v Hv) as (lq & Hlq & [Hr Ht]).
      rewrite (bind_Ret _ _ _ _ _ (get_level_eq s _ lq Hlq)).
      unfold open_level. by rewrite Ht, (lr_num _ _ Hr). }
  done.
Qed.

Lemma find_available_queue_eq s A X a e : repr s A X -> 0 <= a -> 0 <= e ->
  find_available_queue a e s =
  match avail (Z.to_nat a) A, avail (Z.to_nat e) X with
  | Some k, _ => Ret (Some (active s + k)%nat) s
  | None, Some k => Ret (Some (expired s + k)%nat) s
  | None, None => Panic "No free level in expired and active set, too many procs"
  end.
Proof.
  intros H Ha He. unfold find_available_queue, next_active_level, next_expired_level.
  rewrite (bind_Ret _ _ _ _ _ (next_level_eq s A X a false H Ha)). simpl.
  destruct (avail (Z.to_nat a) A) as [k|].
  - destruct (Z.eqb_spec (Z.of_nat k) (-1)); [lia|]. ksteps. by rewrite Nat2Z.id.
  - simpl. rewrite (bind_Ret _ _ _ _ _ (next_level_eq s A X e true H He)). simpl.
    destruct (avail (Z.to_nat e) X) as [k|]; [|done].
    destruct (Z.eqb_spec (Z.of_nat k) (-1)); [lia|]. ksteps. by rewrite Nat2Z.id.
Qed.

(** The address comparison tells the two sets apart. *)
Lemma is_active_set_act s A X k : repr s A X -> (k < RSDL_LEVELS)%nat ->
  is_active_set (active s + k) s = Ret true s.
Proof.
  intros H Hk. unfold is_active_set. ksteps. unfold ret. f_equal.
  apply andb_true_iff. rewrite Nat.leb_le, Nat.ltb_lt. lia.
Qed.

Lemma is_active_set_exp s A X k : repr s A X -> (k < RSDL_LEVELS)%nat ->
  is_active_set (expired s + k) s = Ret false s.
Proof.
  intros H Hk. unfold is_active_set. ksteps. unfold ret. f_equal.
  destruct (rp_sets _ _ _ H) as [[-> ->]|[-> ->]].
  - apply andb_false_iff. right. apply Nat.ltb_ge. lia.
  - apply andb_false_iff. left. apply Nat.leb_gt. lia.
Qed.

End ReprFacts.
