(* ===== verification/RsdlSpec.v ===== *)
(** * What RSDL promises

    The scheduler's policy on mathematical queues: [A] are the levels of the
    active set and [X] those of the expired set, each with its remaining quantum
    and its processes in order.  Nothing here knows about arrays, locks or
    pointers; Scheduler.v shows that the C code does exactly this. *)

From stdpp Require Import base tactics list sets.
From Stdlib Require Import ZArith Lia.
From S2P Require Import Prelude Params ProcState Rsdl.
Open Scope Z_scope.

Abbreviation sets := (list lvl * list lvl)%type.

(** All queued processes. *)
Definition queued (Q : sets) : list nat := concat (Q.1.*2) ++ concat (Q.2.*2).

(** A place in one of the sets. *)
Inductive loc := Act (k : nat) | Exp (k : nat).

#[global] Instance loc_eq_dec : EqDecision loc.
Proof. solve_decision. Defined.

Definition push (p : nat) (v : lvl) : lvl := (v.1, v.2 ++ [p]).
Definition push_at (l : loc) (p : nat) (Q : sets) : sets :=
  match l with
  | Act k => (alter (push p) k Q.1, Q.2)
  | Exp k => (Q.1, alter (push p) k Q.2)
  end.

(** The first level of the active set from [start] on that has quantum left. *)
Definition quantum_from (start : nat) (A : list lvl) : option nat :=
  first_some (fun k => match A !! k with
                       | Some v => if 0 <? v.1 then Some k else None
                       | None => None end) (seq start (RSDL_LEVELS - start)).

(** Where a process goes that may run at level [start] or below: the first active
    level that still has quantum, or else its own level of the expired set. *)
Definition target (start dl : nat) (A : list lvl) : loc :=
  match quantum_from start A with Some k => Act k | None => Exp dl end.

Definition place (start dl p : nat) (Q : sets) : sets := push_at (target start dl Q.1) p Q.

(** Empty a level, keeping its quantum. *)
Definition clear_level (k : nat) (A : list lvl) : list lvl := alter (fun v => (v.1, [])) k A.

(** Give every process of [l] a full quantum. *)
Definition replenish (l : list nat) (ps : list proc) : list proc :=
  imap (fun i r => if bool_decide (i ∈ l) then set_ticks_left RSDL_PROC_QUANTUM r else r) ps.

(** The default level of process [i]. *)
Definition dlevel (ps : list proc) (i : nat) : nat :=
  match ps !! i with Some r => Z.to_nat (default_level r) | None => 0 end.

Definition place_all (start : nat -> nat) (ps : list proc) (l : list nat) (Q : sets) : sets :=
  foldl (fun Q p => place (start p) (dlevel ps p) p Q) Q l.

Definition level_procs (k : nat) (A : list lvl) : list nat :=
  match A !! k with Some v => v.2 | None => [] end.

(** The running process [p] came back to the scheduler after the quantum of its
    level [k] was used up: all processes of the level go down in their order, [p]
    behind them unless it exited. *)
Definition migrate_spec (k p : nat) (dead : bool) (ps : list proc) (Q : sets) : sets :=
  let l := level_procs k Q.1 in
  place_all (fun _ => S k) ps (filter (fun q => q <> p) l ++ (if dead then [] else [p]))
    (clear_level k Q.1, Q.2).

(** The running process [p] came back with quantum left in its level [k]: it goes
    to the end of its level, or below if it used up its own quantum. *)
Definition remove_from (k p : nat) (A : list lvl) : list lvl :=
  alter (fun v => (v.1, filter (fun q => q <> p) v.2)) k A.
Definition requeue_spec (start k p dl : nat) (Q : sets) : sets :=
  place start dl p (remove_from k p Q.1, Q.2).

(** Nobody in the active set can run: the sets change roles, and level by level
    the processes of the old active set go to their own levels of the new one. *)
Definition refill (v : lvl) : lvl := (RSDL_LEVEL_QUANTUM, v.2).
Definition drain_level (ps : list proc) (Q : sets) (k : nat) : sets :=
  let l := level_procs k Q.2 in
  place_all (dlevel ps) ps l (Q.1, clear_level k (alter refill k Q.2)).
Definition swap_spec (ps : list proc) (Q : sets) : sets :=
  foldl (drain_level ps) (Q.2, Q.1) (seq 0 RSDL_LEVELS).

(** The processes of [lst] appended to their own levels. *)
Definition gather (ps : list proc) (lst : list nat) (A : list lvl) : list lvl :=
  imap (fun k v => (v.1, v.2 ++ filter (fun p => dlevel ps p = k) lst)) A.

(** The process the scheduler chooses: the first runnable one of the highest
    level that has quantum left. *)
Definition can_run (ps : list proc) (i : nat) : bool :=
  match ps !! i with
  | Some r => bool_decide (state r = RUNNABLE) && (0 <? ticks_left r)
  | None => false
  end.
Definition pick_in (ps : list proc) (l : list nat) : option nat :=
  first_some (fun i => if can_run ps i then Some i else None) l.
Definition pick_spec (ps : list proc) (A : list lvl) : option (nat * nat) :=
  first_some (fun k => match A !! k with
                       | Some v => if v.1 <=? 0 then None
                                   else (fun p => (k, p)) <$> pick_in ps v.2
                       | None => None end) (seq 0 RSDL_LEVELS).

(** ** Facts *)

Lemma concat_alter_push p k (A : list lvl) : (k < length A)%nat ->
  concat ((alter (push p) k A).*2) ≡ₚ p :: concat (A.*2).
Proof.
  intros Hk. destruct (lookup_lt_is_Some_2 A k Hk) as [v Hv].
  rewrite (alter_Some_insert _ _ _ v Hv).
  rewrite <- (take_drop_middle A k v Hv) at 2.
  rewrite insert_take_drop by done. rewrite !fmap_app, !fmap_cons, !concat_app. simpl.
  rewrite <- app_assoc. simpl. rewrite (Permutation_app_comm v.2). simpl.
  rewrite <- Permutation_middle. constructor. by rewrite (Permutation_app_comm _ v.2).
Qed.

Definition loc_ok (l : loc) : Prop :=
  match l with Act k => (k < RSDL_LEVELS)%nat | Exp k => (k < RSDL_LEVELS)%nat end.

(** The sets are well formed: every queued process is queued once, and every level
    of the expired set has quantum.  While the sets are being exchanged it is the
    new active set that is known to have quantum ([b = false]). *)
Record sets_wf (b : bool) (Q : sets) : Prop := {
  so_lenA : length Q.1 = RSDL_LEVELS;
  so_lenX : length Q.2 = RSDL_LEVELS;
  so_nodup : NoDup (queued Q);
  so_bound : forall p, p ∈ queued Q -> (p < NPROC)%nat;
  so_quantum : forall k v, (if b then Q.2 else Q.1) !! k = Some v -> 0 < v.1
}.
Arguments so_lenA {_ _}.
Arguments so_lenX {_ _}.
Arguments so_nodup {_ _}.
Arguments so_bound {_ _}.
Arguments so_quantum {_ _}.
Abbreviation sets_ok := (sets_wf true).

Lemma push_at_queued l p Q : loc_ok l -> length Q.1 = RSDL_LEVELS -> length Q.2 = RSDL_LEVELS ->
  queued (push_at l p Q) ≡ₚ p :: queued Q.
Proof.
  intros Hl HA HX. unfold queued. destruct l as [k|k]; cbn [push_at fst snd loc_ok] in *.
  - rewrite (concat_alter_push p k Q.1) by (rewrite HA; exact Hl). done.
  - rewrite (concat_alter_push p k Q.2) by (rewrite HX; exact Hl).
    by rewrite <- Permutation_middle.
Qed.

Lemma alter_push_fst p k (L : list lvl) j v :
  alter (push p) k L !! j = Some v -> exists w, L !! j = Some w /\ v.1 = w.1.
Proof.
  rewrite list_lookup_alter. intros H. destruct (decide (k = j)) as [<-|]; [|eauto].
  apply fmap_Some in H as (w & Hw & ->). by exists w.
Qed.

Lemma sets_ok_push b l p Q :
  sets_wf b Q -> loc_ok l -> p ∉ queued Q -> (p < NPROC)%nat -> sets_wf b (push_at l p Q).
Proof.
  intros [HA HX Hn Hb Hq] Hl Hp Hlt.
  pose proof (push_at_queued l p Q Hl HA HX) as Hperm. constructor.
  - destruct l; simpl; by rewrite ?length_alter.
  - destruct l; simpl; by rewrite ?length_alter.
  - rewrite Hperm. by constructor.
  - intros q. rewrite Hperm. intros [->|Hin]%elem_of_cons; auto.
  - intros j v Hj. destruct b, l as [k|k]; simpl in *; try (by eapply Hq);
      apply alter_push_fst in Hj as (w & Hw & ->); eauto.
Qed.

Lemma quantum_from_Some start A k : quantum_from start A = Some k ->
  (start <= k < RSDL_LEVELS)%nat /\ (exists v, A !! k = Some v /\ 0 < v.1) /\
  forall j v, (start <= j < k)%nat -> A !! j = Some v -> v.1 <= 0.
Proof.
  intros (k' & Hk & Hf & Hj)%first_some_seq_inv.
  destruct (A !! k') as [v|] eqn:Hv; [|done].
  destruct (0 <? v.1) eqn:E0; [|done]. apply Z.ltb_lt in E0. simplify_eq. split; [lia|]. split; [eauto|].
  intros j w Hjk Hw. specialize (Hj j Hjk). rewrite Hw in Hj.
  destruct (0 <? w.1) eqn:E1; [done|]. by apply Z.ltb_ge in E1.
Qed.

Lemma target_ok start dl A : (dl < RSDL_LEVELS)%nat -> loc_ok (target start dl A).
Proof.
  intros. unfold target. destruct (quantum_from start A) eqn:E; [|done].
  by apply quantum_from_Some in E as [[_ ?] _].
Qed.

(** With at most [NPROC] processes, each queued once, a queue is never full when a
    process that is not queued needs a place. *)
Lemma room l p : NoDup l -> (forall q, q ∈ l -> (q < NPROC)%nat) -> p ∉ l -> (p < NPROC)%nat ->
  (length l < NPROC)%nat.
Proof.
  intros Hn Hb Hp Hlt.
  assert (length (p :: l) <= length (seq 0 NPROC))%nat as H.
  { apply submseteq_length, NoDup_submseteq; [by constructor|].
    intros q [->|Hq]%elem_of_cons; apply elem_of_seq; [lia|]. specialize (Hb q Hq). lia. }
  rewrite length_seq in H. simpl in H. lia.
Qed.

Lemma concat_NoDup_elem (L : list lvl) k v : NoDup (concat (L.*2)) -> L !! k = Some v -> NoDup v.2.
Proof.
  revert k. induction L as [|w L IH]; intros [|k]; simpl; try done; intros [H1 [_ H2]]%NoDup_app.
  - by intros [= <-].
  - by apply IH.
Qed.

Lemma queued_in Q k v p :
  (Q.1 !! k = Some v \/ Q.2 !! k = Some v) -> p ∈ v.2 -> p ∈ queued Q.
Proof.
  intros Hv Hp. unfold queued. apply elem_of_app.
  destruct Hv as [Hv|Hv]; [left|right]; apply list_elem_of_In, in_concat;
    exists v.2; (split; [|by apply list_elem_of_In]);
    apply list_elem_of_In, list_elem_of_fmap; exists v; split; try done; by eapply list_elem_of_lookup_2.
Qed.

Lemma sets_ok_room b Q k v p : sets_wf b Q -> p ∉ queued Q -> (p < NPROC)%nat ->
  (Q.1 !! k = Some v \/ Q.2 !! k = Some v) -> (length v.2 < NPROC)%nat.
Proof.
  intros [HA HX Hn Hb Hq] Hp Hlt Hv. apply (room v.2 p); [| | |done].
  - unfold queued in Hn. apply NoDup_app in Hn as (Hn1 & _ & Hn2).
    destruct Hv; eauto using concat_NoDup_elem.
  - intros q Hq'. apply Hb. by eapply queued_in.
  - intros Hin. apply Hp. by eapply queued_in.
Qed.

(** So the room test of [next_level] never decides anything. *)
Lemma avail_quantum b Q start p : sets_wf b Q -> p ∉ queued Q -> (p < NPROC)%nat ->
  avail start Q.1 = quantum_from start Q.1.
Proof.
  intros Hok Hp Hlt. unfold avail, quantum_from. generalize (seq start (RSDL_LEVELS - start)).
  intros ks. induction ks as [|k ks IH]; simpl; [done|].
  destruct (Q.1 !! k) as [v|] eqn:Hv; [|done]. unfold open_level.
  assert (length v.2 < NPROC)%nat by (eapply sets_ok_room; eauto).
  destruct (Nat.ltb_spec (length v.2) NPROC); [|lia]. rewrite andb_true_r.
  by destruct (0 <? v.1).
Qed.

Lemma avail_expired Q dl p : sets_ok Q -> p ∉ queued Q -> (p < NPROC)%nat -> (dl < RSDL_LEVELS)%nat ->
  avail dl Q.2 = Some dl.
Proof.
  intros Hok Hp Hlt Hdl. destruct (lookup_lt_is_Some_2 Q.2 dl) as [v Hv].
  { by rewrite (so_lenX Hok). }
  unfold avail. apply (first_some_seq _ _ _ dl); [lia| |lia]. rewrite Hv. unfold open_level.
  assert (length v.2 < NPROC)%nat by (eapply sets_ok_room; eauto).
  destruct (Nat.ltb_spec (length v.2) NPROC); [|lia].
  destruct (Z.ltb_spec 0 v.1); [done|]. pose proof (so_quantum Hok dl v Hv). lia.
Qed.

(** Placing a list of processes that are not queued yet. *)
Lemma place_all_queued b start ps l Q : sets_wf b Q -> NoDup l -> (forall p, p ∈ l -> p ∉ queued Q) ->
  (forall p, p ∈ l -> (p < NPROC)%nat /\ (dlevel ps p < RSDL_LEVELS)%nat) ->
  sets_wf b (place_all start ps l Q) /\ queued (place_all start ps l Q) ≡ₚ l ++ queued Q.
Proof.
  revert Q. induction l as [|p l IH]; intros Q Hok Hn Hd Hb; simpl; [done|].
  apply NoDup_cons in Hn as [Hp Hn].
  destruct (Hb p) as [Hlt Hdl]; [set_solver|].
  assert (loc_ok (target (start p) (dlevel ps p) Q.1)) as Hloc by (by apply target_ok).
  pose proof (push_at_queued _ p Q Hloc (so_lenA Hok) (so_lenX Hok)) as Hperm.
  destruct (IH (place (start p) (dlevel ps p) p Q)) as [Hok' Hq'].
  - apply sets_ok_push; try done. apply Hd. set_solver.
  - done.
  - intros q Hq. unfold place. rewrite Hperm. intros [->|Hin]%elem_of_cons; [done|].
    apply (Hd q); [set_solver|done].
  - intros q Hq. apply Hb. set_solver.
  - split; [done|]. unfold place_all in *. rewrite Hq'. unfold place. rewrite Hperm.
    by rewrite <- Permutation_middle.
Qed.
