(* ===== verification/Scheduler.v ===== *)
(** * The scheduler (proc.c, with switchuvm and switchkvm of vm.c)

    [scheduler] as it is written: one iteration of its loop is [scheduler_body],
    and [swtch] gives the CPU to the chosen process.  SchedRefine.v shows that each
    part of the iteration does what RsdlSpec.v describes. *)

From stdpp Require Import base tactics list sets strings.
From Stdlib Require Import ZArith Lia.
From S2P Require Import Prelude Params Spinlock ProcState Rsdl.
Open Scope Z_scope.

Section Ops.
Context {E : Type}.
Abbreviation K := (M (kstate E)).

(** memlayout.h, V2P. *)
Definition V2P (a : Z) : K Z :=
  if a <? KERNBASE then panic "V2P on address < KERNBASE (not a kernel virtual address; consider walking page table to determine physical address of a user virtual address)" else ret (a - KERNBASE).

(** mmu.h: STS_T32A, and sizeof(struct taskstate). *)
Definition STS_T32A : Z := 0x9.
Definition TASKSTATE_SIZE : Z := 104.

Definition lcr3 (v : Z) : K unit := upd_mach (set_cr3 v).
Definition ltr (v : Z) : K unit := upd_mach (set_tr v).

Definition switchkvm : K unit :=
  s <- get ;; pa <- V2P (kpgdir s) ;; lcr3 pa.

Definition switchuvm (p : option nat) : K unit :=
  match p with
  | None => panic "switchuvm: no process"
  | Some p =>
      r <- get_proc p ;;
      if kstack r =? 0 then panic "switchuvm: no kstack" else
      if pgdir r =? 0 then panic "switchuvm: no pgdir" else
      pushcli ;;;
      i <- mycpu ;;
      upd_cpu i (fun c => set_gdt_tss (SEG16 STS_T32A (ts_addr c) (TASKSTATE_SIZE - 1) 0) c) ;;;
      upd_cpu i (fun c => set_gdt_tss (set_sd_s 0 (gdt_tss c)) c) ;;;
      upd_cpu i (set_ts_ss0 (Z.shiftl SEG_KDATA 3)) ;;;
      upd_cpu i (set_ts_esp0 (u32 (kstack r + KSTACKSIZE))) ;;;
      upd_cpu i (set_ts_iomb 0xFFFF) ;;;
      ltr (Z.shiftl SEG_TSS 3) ;;;
      pa <- V2P (pgdir r) ;; lcr3 pa ;;;
      popcli
  end.

(** ** schedlog *)

Definition schedlog (n : Z) : K unit :=
  modify (set_schedlog_active 1) ;;;
  modify (fun s => set_schedlog_lasttick (i32 (ticks s + n)) s).

Definition print_schedlog : K unit :=
  s <- get ;;
  let set := [active s; expired s] in
  for_each [0; 1]%nat (fun i =>
    base <- deref (set !! i) ;;
    b <- is_active_set base ;;
    let set_name := if (b : bool) then "active"%string else "expired"%string in
    for_each (seq 0 RSDL_LEVELS) (fun k =>
      let qq := (base + k)%nat in
      acquire (level_lock qq) ;;;
      (lq <- get_level qq ;;
       s <- get ;;
       cprintf "%d|%s|%d(%d)" [AInt (ticks s); AStr set_name; AInt (Z.of_nat k); AInt (lq_ticks_left lq)] ;;;
       for_each (seq 0 (numproc lq)) (fun i =>
         x <- deref (lq_proc lq !! i) ;; pp <- deref x ;; r <- get_proc pp ;;
         if bool_decide (state r = UNUSED) then ret tt
         else cprintf ",[%d]%s:%d(%d)"
                [AInt (pid r); ABytes (name r); AInt (procstate_num (state r)); AInt (ticks_left r)])) ;;;
      release (level_lock qq) ;;;
      cprintf "\n" [])).

(** ** scheduler *)

(** The search at the top of the loop: level [k], its queue, and the process. *)
Definition scheduler_pick : K (option (nat * nat * nat)) :=
  for_find (seq 0 RSDL_LEVELS) (fun k =>
    s <- get ;;
    let q := (active s + k)%nat in
    lq <- get_level q ;;
    if lq_ticks_left lq <=? 0 then ret None else
    acquire (level_lock q) ;;;
    found <- (lq <- get_level q ;;
      for_find (seq 0 (numproc lq)) (fun i =>
        x <- deref (lq_proc lq !! i) ;; p <- deref x ;; r <- get_proc p ;;
        ret (if bool_decide (state r = RUNNABLE) && (0 <? ticks_left r) then Some p else None))) ;;
    release (level_lock q) ;;;
    ret (match found with Some p => Some (k, q, p) | None => None end)).

(** The level-local quantum is depleted: move every process of queue [q], level
    [k], down; [p] is the process that just ran. *)
Definition scheduler_migrate (k q p : nat) : K unit :=
  while_fuel (S NPROC) (lq <- get_level q ;; ret (0 <? numproc lq)%nat) (
    lq <- get_level q ;; x <- deref (lq_proc lq !! 0%nat) ;; np <- deref x ;;
    upd_proc np (set_ticks_left RSDL_PROC_QUANTUM) ;;;
    unqueue_proc (Some np) (Some q) ;;;
    if bool_decide (np = p) then ret tt else
    r <- get_proc np ;;
    nq <- find_available_queue (Z.of_nat k + 1) (default_level r) ;;
    enqueue_proc (Some np) nq) ;;;
  r <- get_proc p ;;
  if bool_decide (state r = ZOMBIE) then ret tt else
  nq <- find_available_queue (Z.of_nat k + 1) (default_level r) ;;
  enqueue_proc (Some p) nq.

(** The level has quantum left: put [p] back, at its level or below. *)
Definition scheduler_requeue (k q p : nat) : K unit :=
  r <- get_proc p ;;
  nk <- (if ticks_left r <=? 0
         then upd_proc p (set_ticks_left RSDL_PROC_QUANTUM) ;;; ret (Z.of_nat k + 1)
         else ret (Z.of_nat k)) ;;
  lq <- get_level q ;; r <- get_proc p ;;
  if (0 <? numproc lq)%nat && negb (bool_decide (state r = ZOMBIE)) then
    prev_idx <- unqueue_proc (Some p) (Some q) ;;
    if prev_idx =? -1 then panic "re-enqueue of proc failed" else
    nq <- find_available_queue nk (default_level r) ;;
    nq' <- deref nq ;;
    b <- is_expired_set nq' ;;
    when b (upd_proc p (set_ticks_left RSDL_PROC_QUANTUM)) ;;;
    enqueue_proc (Some p) nq
  else ret tt.

(** Nothing to run in the active set: exchange the sets. *)
Definition scheduler_swap : K unit :=
  modify (fun s => set_expired (active s) (set_active (expired s) s)) ;;;
  for_each (seq 0 RSDL_LEVELS) (fun k =>
    s <- get ;;
    let q := (expired s + k)%nat in
    upd_level q (set_lq_ticks_left RSDL_LEVEL_QUANTUM) ;;;
    while_fuel (S NPROC) (lq <- get_level q ;; ret (0 <? numproc lq)%nat) (
      lq <- get_level q ;; x <- deref (lq_proc lq !! 0%nat) ;; p <- deref x ;;
      upd_proc p (set_ticks_left RSDL_PROC_QUANTUM) ;;;
      unqueue_proc (Some p) (Some q) ;;;
      r <- get_proc p ;;
      let nk := default_level r in
      nq <- find_available_queue nk nk ;;
      enqueue_proc (Some p) nq)).

(** Switch to [p], found in queue [q] at level [k], and queue it again afterwards. *)
Definition scheduler_run (c k q p : nat) : K unit :=
  upd_cpu c (set_c_proc (Some p)) ;;;
  upd_cpu c (set_c_queue (Some q)) ;;;
  switchuvm (Some p) ;;;
  upd_proc p (set_state RUNNING) ;;;
  s <- get ;;
  when (negb (schedlog_active s =? 0) && (ticks s <=? u32 (schedlog_lasttick s))) print_schedlog ;;;
  swtch_out ;;;
  switchkvm ;;;
  (lq <- get_level q ;;
   if lq_ticks_left lq <=? 0 then scheduler_migrate k q p else scheduler_requeue k q p) ;;;
  upd_cpu c (set_c_proc None) ;;;
  upd_cpu c (set_c_queue None).

(** One iteration of the loop, on CPU [c]. *)
Definition scheduler_body (c : nat) : K unit :=
  sti ;;;
  acquire ptable_lock ;;;
  found <- scheduler_pick ;;
  s <- get ;;
  when (negb (schedlog_active s =? 0) && (u32 (schedlog_lasttick s) <? ticks s))
    (modify (set_schedlog_active 0)) ;;;
  match found with
  | Some (k, q, p) => scheduler_run c k q p
  | None => scheduler_swap
  end ;;;
  release ptable_lock.

(** The loop, for [n] iterations. *)
Fixpoint scheduler_loop (n : nat) (c : nat) : K unit :=
  match n with
  | O => fuel_out
  | S n => scheduler_body c ;;; scheduler_loop n c
  end.
Definition scheduler (n : nat) : K unit :=
  c <- mycpu ;;
  upd_cpu c (set_c_proc None) ;;;
  scheduler_loop n c.

End Ops.
