(* ===== verification/SchedRefine.v ===== *)
(** * The scheduler follows its policy

    The parts of the scheduler's loop (Scheduler.v), on a state whose queues
    represent the sets [Q], compute the sets that RsdlSpec.v describes. *)

From stdpp Require Import base tactics list sets strings.
From Stdlib Require Import ZArith Lia.
From S2P Require Import Prelude Params Spinlock ProcState Rsdl RsdlSpec Scheduler.
Open Scope Z_scope.

(** ** Queue operations on the represented sets *)

(** A search from level [a] succeeds. *)
Definition may_place (b : bool) (a : Z) : Prop := 0 <= a /\ (b = true \/ a < Z.of_nat RSDL_LEVELS).

Definition rep {E : Type} (s : kstate E) (Q : sets) : Prop := repr s Q.1 Q.2.

Definition ptr {E : Type} (s : kstate E) (l : loc) : nat :=
  match l with Act k => active s + k | Exp k => expired s + k end.
Definition at_loc (l : loc) (Q : sets) : option lvl :=
  match l with Act k => Q.1 !! k | Exp k => Q.2 !! k end.
Definition put_loc (l : loc) (v : lvl) (Q : sets) : sets :=
  match l with Act k => (<[k := v]> Q.1, Q.2) | Exp k => (Q.1, <[k := v]> Q.2) end.

Section QueueFacts.
Context {E : Type}.
Implicit Types (s : kstate E) (Q : sets).

Lemma in_cli_ext s s' i c : km s' = km s -> in_cli s i c -> in_cli s' i c.
Proof. intros Ek [H1 H2]. constructor; by rewrite ?Ek. Qed.

Lemma rep_get s Q l v : rep s Q -> at_loc l Q = Some v ->
  exists lq, level s !! ptr s l = Some lq /\ lvl_repr lq v.
Proof. intros H Hv. destruct l; simpl in *; [by eapply (rp_act _ _ _ H)|by eapply (rp_exp _ _ _ H)]. Qed.

Lemma rep_put s Q l lq v : rep s Q -> loc_ok l -> lvl_repr lq v ->
  rep (set_level (<[ptr s l := lq]> (level s)) s) (put_loc l v Q).
Proof. intros H Hl Hv. destruct l; simpl in *; [by apply repr_upd_active|by apply repr_upd_expired]. Qed.

Lemma at_loc_ok s Q l v : rep s Q -> at_loc l Q = Some v -> loc_ok l.
Proof.
  intros H Hv. destruct l; simpl in *; apply lookup_lt_Some in Hv.
  - by rewrite (rp_lenA _ _ _ H) in Hv.
  - by rewrite (rp_lenX _ _ _ H) in Hv.
Qed.

Lemma loc_ok_at s Q l : rep s Q -> loc_ok l -> exists v, at_loc l Q = Some v.
Proof.
  intros H Hl. destruct l; simpl in *; apply lookup_lt_is_Some_2.
  - by rewrite (rp_lenA _ _ _ H).
  - by rewrite (rp_lenX _ _ _ H).
Qed.

Lemma put_loc_push l v p Q : at_loc l Q = Some v -> put_loc l (push p v) Q = push_at l p Q.
Proof. intros Hv. destruct l; simpl in *; by rewrite (alter_Some_insert _ _ _ v Hv). Qed.

Lemma find_target b s Q a dl p : rep s Q -> sets_wf b Q -> p ∉ queued Q -> (p < NPROC)%nat ->
  may_place b a -> 0 <= dl < Z.of_nat RSDL_LEVELS ->
  find_available_queue a dl s = Ret (Some (ptr s (target (Z.to_nat a) (Z.to_nat dl) Q.1))) s.
Proof.
  intros H Hok Hp Hlt [Ha Ha2] Hdl. rewrite (find_available_queue_eq s Q.1 Q.2) by (done || lia).
  rewrite (avail_quantum b Q _ p) by done. unfold target.
  destruct (quantum_from (Z.to_nat a) Q.1) as [k|] eqn:Hk; [done|].
  destruct b; [by rewrite (avail_expired Q _ p) by (done || lia)|].
  destruct Ha2 as [?|Ha2]; [done|]. destruct (lookup_lt_is_Some_2 Q.1 (Z.to_nat a)) as [v Hv].
  { rewrite (so_lenA Hok). lia. }
  unfold quantum_from in Hk. rewrite first_some_None in Hk.
  specialize (Hk (Z.to_nat a) ltac:(apply elem_of_seq; lia)). rewrite Hv in Hk. pose proof (so_quantum Hok _ v Hv) as Hq.
  apply Z.ltb_lt in Hq. by rewrite Hq in Hk.
Qed.

Lemma enqueue_at b s i c Q l p : in_cli s i c -> rep s Q -> sets_wf b Q -> p ∉ queued Q -> (p < NPROC)%nat ->
  loc_ok l ->
  exists lv, enqueue_proc (Some p) (Some (ptr s l)) s = Ret tt (set_level lv s) /\
    rep (set_level lv s) (push_at l p Q).
Proof.
  intros Hc H Hok Hp Hlt Hl. destruct (loc_ok_at s Q l H Hl) as [v Hv].
  destruct (rep_get s Q l v H Hv) as (lq & Hlq & [Hr Ht]).
  assert (length v.2 < NPROC)%nat as Hroom.
  { destruct l as [k|k]; apply (sets_ok_room b Q k v p Hok Hp Hlt); [by left|by right]. }
  eexists. split; [by eapply enqueue_proc_eq|].
  rewrite <- (put_loc_push l v p Q Hv). apply rep_put; [done|done|]. split.
  - by apply lq_push_repr.
  - done.
Qed.

(** Finding a level and queueing there is [place]. *)
Lemma place_eq b s i c Q a dl p : in_cli s i c -> rep s Q -> sets_wf b Q -> p ∉ queued Q ->
  (p < NPROC)%nat -> may_place b a -> 0 <= dl < Z.of_nat RSDL_LEVELS ->
  exists lv, bind (find_available_queue a dl) (fun nq => enqueue_proc (Some p) nq) s =
      Ret tt (set_level lv s) /\
    rep (set_level lv s) (place (Z.to_nat a) (Z.to_nat dl) p Q).
Proof.
  intros Hc H Hok Hp Hlt Ha Hdl.
  rewrite (bind_Ret _ _ _ _ _ (find_target b s Q a dl p H Hok Hp Hlt Ha Hdl)).
  apply (enqueue_at b s i c); try done. apply target_ok. lia.
Qed.

Lemma unqueue_at s i c Q l t l1 p l2 isTry : in_cli s i c -> rep s Q ->
  at_loc l Q = Some (t, l1 ++ p :: l2) -> p ∉ l1 ->
  exists lv, unqueue_proc_full (Some p) (Some (ptr s l)) isTry s =
      Ret (Z.of_nat (length l1)) (set_level lv s) /\
    rep (set_level lv s) (put_loc l (t, l1 ++ l2) Q).
Proof.
  intros Hc H Hv Hp. destruct (rep_get s Q l _ H Hv) as (lq & Hlq & [Hr Ht]). simpl in *.
  eexists. split; [by eapply unqueue_eq|]. apply rep_put; [done|by eapply at_loc_ok|].
  split; [by eapply lq_remove_repr|done].
Qed.

(** The head of a queue. *)
Lemma head_at s Q l t p l2 : rep s Q -> at_loc l Q = Some (t, p :: l2) ->
  exists lq, get_level (ptr s l) s = Ret lq s /\ lq_proc lq !! 0%nat = Some (Some p) /\
    (0 <? numproc lq)%nat = true.
Proof.
  intros H Hv. destruct (rep_get s Q l _ H Hv) as (lq & Hlq & [Hr Ht]). simpl in *.
  exists lq. split; [by apply get_level_eq|].
  destruct (lq_repr_lookup _ _ 0 Hr) as (p' & Hp' & Hx); [simpl; lia|]. simpl in Hp'. simplify_eq.
  split; [done|]. by rewrite (lr_num _ _ Hr).
Qed.

Lemma empty_at s Q l t : rep s Q -> at_loc l Q = Some (t, []) ->
  exists lq, get_level (ptr s l) s = Ret lq s /\ (0 <? numproc lq)%nat = false.
Proof.
  intros H Hv. destruct (rep_get s Q l _ H Hv) as (lq & Hlq & [Hr Ht]). simpl in *.
  exists lq. split; [by apply get_level_eq|]. by rewrite (lr_num _ _ Hr).
Qed.

End QueueFacts.

(** ** Draining a queue *)

Section Drain.
Context {E : Type}.
Implicit Types (s : kstate E) (Q : sets).

Lemma concat_insert_remove (L : list lvl) k t l1 p l2 : L !! k = Some (t, l1 ++ p :: l2) ->
  concat (L.*2) ≡ₚ p :: concat ((<[k := (t, l1 ++ l2)]> L).*2).
Proof.
  intros Hk. rewrite <- (take_drop_middle L k _ Hk) at 1.
  rewrite insert_take_drop by (by eapply lookup_lt_Some).
  rewrite !fmap_app, !fmap_cons, !concat_app. simpl.
  rewrite <- (Permutation_middle l1). simpl. by rewrite <- Permutation_middle.
Qed.

Lemma queued_remove l Q t l1 p l2 : at_loc l Q = Some (t, l1 ++ p :: l2) ->
  queued Q ≡ₚ p :: queued (put_loc l (t, l1 ++ l2) Q).
Proof.
  intros Hv. unfold queued. destruct l as [k|k]; simpl in *.
  - by rewrite (concat_insert_remove _ _ _ _ _ _ Hv).
  - rewrite (concat_insert_remove _ _ _ _ _ _ Hv). by rewrite <- Permutation_middle.
Qed.

Lemma put_loc_quantum (b : bool) l Q t x y : at_loc l Q = Some (t, x) ->
  (forall k v, (if b then Q.2 else Q.1) !! k = Some v -> 0 < v.1) ->
  forall k v, (if b then (put_loc l (t, y) Q).2 else (put_loc l (t, y) Q).1) !! k = Some v -> 0 < v.1.
Proof.
  intros Hv Hq j v Hj. destruct b, l as [k|k]; simpl in *; try (by eapply Hq);
    (destruct (decide (j = k)) as [->|Hne];
     [rewrite list_lookup_insert_eq in Hj by (by eapply lookup_lt_Some); simplify_eq/=; by apply (Hq k (t, x))
     |rewrite list_lookup_insert_ne in Hj by done; eauto]).
Qed.

Lemma sets_ok_remove b l Q t l1 p l2 : sets_wf b Q -> at_loc l Q = Some (t, l1 ++ p :: l2) ->
  sets_wf b (put_loc l (t, l1 ++ l2) Q) /\ (p ∉ queued (put_loc l (t, l1 ++ l2) Q)) /\ (p < NPROC)%nat.
Proof.
  intros [HA HX Hn Hb Hq] Hv. pose proof (queued_remove _ _ _ _ _ _ Hv) as Hperm.
  rewrite Hperm in Hn. apply NoDup_cons in Hn as [Hp Hn]. split; [|split; [done|]].
  - constructor.
    + destruct l; simpl; by rewrite ?length_insert.
    + destruct l; simpl; by rewrite ?length_insert.
    + done.
    + intros q Hin. apply Hb. rewrite Hperm. by apply list_elem_of_further.
    + by eapply put_loc_quantum.
  - apply Hb. rewrite Hperm. by apply list_elem_of_here.
Qed.

(** Where a process goes depends only on the quanta of the active set. *)
Lemma quantum_from_ext start A A' : A.*1 = A'.*1 -> quantum_from start A = quantum_from start A'.
Proof.
  intros HE. unfold quantum_from. generalize (seq start (RSDL_LEVELS - start)). intros ks.
  induction ks as [|k ks IH]; simpl; [done|].
  assert (A.*1 !! k = A'.*1 !! k) as Hk by (by rewrite HE).
  rewrite !list_lookup_fmap in Hk.
  destruct (A !! k) as [[tv lv]|], (A' !! k) as [[tw lw]|]; simplify_eq/=; try done.
  by destruct (0 <? tw).
Qed.

Lemma target_ext start dl A A' : A.*1 = A'.*1 -> target start dl A = target start dl A'.
Proof. intros HE. unfold target. by rewrite (quantum_from_ext _ _ _ HE). Qed.

Lemma insert_fst (L : list lvl) k t x y : L !! k = Some (t, x) -> (<[k := (t, y)]> L).*1 = L.*1.
Proof.
  intros Hk. rewrite list_fmap_insert. apply list_insert_id. by rewrite list_lookup_fmap, Hk.
Qed.

Lemma put_loc_quanta l Q t x y : at_loc l Q = Some (t, x) -> (put_loc l (t, y) Q).1.*1 = Q.1.*1.
Proof. intros Hv. destruct l; simpl in *; [by eapply insert_fst|done]. Qed.

Lemma push_at_quanta l p Q : (push_at l p Q).1.*1 = Q.1.*1.
Proof.
  destruct l as [k|k]; simpl; [|done]. destruct (Q.1 !! k) as [v|] eqn:Hv.
  - rewrite (alter_Some_insert _ _ _ v Hv). destruct v. by eapply insert_fst.
  - f_equal. apply list_eq. intros j. rewrite list_lookup_alter.
    case_decide; [subst; by rewrite Hv|done].
Qed.

Lemma put_put_loc l v w Q : put_loc l v (put_loc l w Q) = put_loc l v Q.
Proof. destruct l; simpl; by rewrite list_insert_insert_eq. Qed.

Lemma at_put_loc l v w Q : at_loc l Q = Some w -> at_loc l (put_loc l v Q) = Some v.
Proof. destruct l; simpl; intros ?%lookup_lt_Some; by apply list_lookup_insert_eq. Qed.

Lemma at_push_ne l l' p Q : l <> l' -> at_loc l (push_at l' p Q) = at_loc l Q.
Proof.
  intros Hne. destruct l, l'; simpl; try done; apply list_lookup_alter_ne; congruence.
Qed.

Lemma put_push_comm l l' v p Q : l <> l' -> put_loc l v (push_at l' p Q) = push_at l' p (put_loc l v Q).
Proof.
  intros Hne. destruct l as [k|k], l' as [k'|k']; simpl; try done; f_equal;
    symmetry; apply list_eq; intros j; rewrite ?list_lookup_alter, ?list_lookup_insert, ?length_alter, ?list_lookup_alter;
    repeat case_decide; subst; try done; naive_solver.
Qed.

(** Replenishing one process after the other. *)
Lemma replenish_lookup l ps i :
  replenish l ps !! i = (fun r => if bool_decide (i ∈ l) then set_ticks_left RSDL_PROC_QUANTUM r else r) <$> ps !! i.
Proof. unfold replenish. apply list_lookup_imap. Qed.

Lemma replenish_nil ps : replenish [] ps = ps.
Proof.
  apply list_eq. intros i. rewrite replenish_lookup.
  rewrite bool_decide_false by apply not_elem_of_nil. by destruct (ps !! i).
Qed.

Lemma replenish_cons p r l ps : ps !! p = Some r ->
  replenish (p :: l) ps = replenish l (<[p := set_ticks_left RSDL_PROC_QUANTUM r]> ps).
Proof.
  intros Hp. apply list_eq. intros i. rewrite !replenish_lookup.
  destruct (decide (i = p)) as [->|Hne].
  - rewrite list_lookup_insert_eq by (by eapply lookup_lt_Some). rewrite Hp. simpl.
    rewrite bool_decide_true by (by apply list_elem_of_here). by case_bool_decide.
  - rewrite list_lookup_insert_ne by done. destruct (ps !! i); simpl; [|done].
    f_equal. erewrite (bool_decide_ext (i ∈ p :: l)); [done|]. rewrite elem_of_cons. naive_solver.
Qed.

Lemma dlevel_insert p r ps i : ps !! p = Some r ->
  dlevel (<[p := set_ticks_left RSDL_PROC_QUANTUM r]> ps) i = dlevel ps i.
Proof.
  intros Hp. unfold dlevel. destruct (decide (i = p)) as [->|Hne].
  - rewrite list_lookup_insert_eq by (by eapply lookup_lt_Some). by rewrite Hp.
  - by rewrite list_lookup_insert_ne.
Qed.

(** What the removal of the head [p] of the queue at [l] does to the sets. *)
Definition drain_one (l : loc) (t : Z) (skip : nat -> bool) (start : nat -> nat) (ps : list proc)
    (p : nat) (l2 : list nat) (Q : sets) : sets :=
  let Q1 := put_loc l (t, l2) Q in
  if skip p then Q1 else place (start p) (dlevel ps p) p Q1.

Definition level_ok (r : proc) : Prop := 0 <= default_level r < Z.of_nat RSDL_LEVELS.

Lemma dlevel_lt ps p r : ps !! p = Some r -> level_ok r -> (dlevel ps p < RSDL_LEVELS)%nat.
Proof. intros Hp [? ?]. unfold dlevel. rewrite Hp. lia. Qed.

Lemma drain_one_ok b l t skip start ps p l2 Q r :
  sets_wf b Q -> at_loc l Q = Some (t, p :: l2) -> ps !! p = Some r -> level_ok r ->
  (skip p = false -> target (start p) (dlevel ps p) Q.1 <> l) ->
  sets_wf b (drain_one l t skip start ps p l2 Q) /\
  at_loc l (drain_one l t skip start ps p l2 Q) = Some (t, l2) /\
  (drain_one l t skip start ps p l2 Q).1.*1 = Q.1.*1 /\
  put_loc l (t, []) (drain_one l t skip start ps p l2 Q) =
    if skip p then put_loc l (t, []) Q else place (start p) (dlevel ps p) p (put_loc l (t, []) Q).
Proof.
  intros Hok Hv Hp Hr Hne. destruct (sets_ok_remove b l Q t [] p l2 Hok Hv) as (Hok1 & Hnq & Hlt).
  simpl in *. set (Q1 := put_loc l (t, l2) Q) in *.
  assert (Q1.1.*1 = Q.1.*1) as Hq1 by (by eapply put_loc_quanta).
  assert (at_loc l Q1 = Some (t, l2)) as Hat by (by eapply at_put_loc).
  unfold drain_one. fold Q1. destruct (skip p) eqn:Hs.
  - split; [done|]. split; [done|]. split; [done|]. unfold Q1. by rewrite put_put_loc.
  - unfold place. rewrite (target_ext _ _ _ _ Hq1).
    rewrite (target_ext (start p) (dlevel ps p) (put_loc l (t, []) Q).1 Q.1)
      by (by eapply put_loc_quanta).
    split; [|split; [|split]].
    + apply sets_ok_push; try done. apply target_ok. by eapply dlevel_lt.
    + rewrite at_push_ne; [done|]. apply not_eq_sym. auto.
    + by rewrite push_at_quanta.
    + rewrite put_push_comm by (apply not_eq_sym; auto). unfold Q1. by rewrite put_put_loc.
Qed.

Lemma replenish_dlevel p r ps i : ps !! p = Some r ->
  dlevel ps i = dlevel (<[p := set_ticks_left RSDL_PROC_QUANTUM r]> ps) i.
Proof. intros. symmetry. by apply dlevel_insert. Qed.

Lemma drain_loop b l t skip start (body : M (kstate E) unit) i c lst :
  forall n s Q, (length lst < n)%nat -> in_cli s i c -> rep s Q -> sets_wf b Q ->
  at_loc l Q = Some (t, lst) ->
  (forall p, p ∈ lst -> exists r, procs s !! p = Some r /\ level_ok r) ->
  (forall p, p ∈ lst -> skip p = false -> target (start p) (dlevel (procs s) p) Q.1 <> l) ->
  (forall s1 Q1 p l2 r, in_cli s1 i c -> rep s1 Q1 -> sets_wf b Q1 -> at_loc l Q1 = Some (t, p :: l2) ->
     procs s1 !! p = Some r -> level_ok r -> ptr s1 l = ptr s l ->
     (forall j, dlevel (procs s1) j = dlevel (procs s) j) -> p ∈ lst ->
     exists lv, body s1 = Ret tt (set_level lv (set_procs (<[p := set_ticks_left RSDL_PROC_QUANTUM r]> (procs s1)) s1)) /\
       rep (set_level lv s1) (drain_one l t skip start (procs s1) p l2 Q1)) ->
  exists lv,
    while_fuel n (lq <- get_level (ptr s l) ;; ret (0 <? numproc lq)%nat) body s =
      Ret tt (set_level lv (set_procs (replenish lst (procs s)) s)) /\
    rep (set_level lv s)
      (foldl (fun Q p => if skip p then Q else place (start p) (dlevel (procs s) p) p Q)
         (put_loc l (t, []) Q) lst).
Proof.
  induction lst as [|p lst IH]; intros n s Q Hn Hc H Hok Hv Hps Hne Hbody;
    (destruct n as [|n]; [simpl in Hn; lia|]); simpl while_fuel.
  - destruct (empty_at s Q l t H Hv) as (lq & Hg & Hz).
    rewrite (bind_Ret _ _ _ false s) by (rewrite (bind_Ret _ _ _ _ _ Hg); by rewrite Hz).
    exists (level s). rewrite replenish_nil. split; [by destruct s|].
    simpl. replace (put_loc l (t, []) Q) with Q; [by destruct s|].
    destruct l, Q; simpl in *; by rewrite list_insert_id.
  - destruct (head_at s Q l t p lst H Hv) as (lq & Hg & _ & Hz).
    rewrite (bind_Ret _ _ _ true s) by (rewrite (bind_Ret _ _ _ _ _ Hg); by rewrite Hz).
    destruct (Hps p) as (r & Hr & Hlr); [by apply list_elem_of_here|].
    destruct (Hbody s Q p lst r) as (lv1 & Hb & Hrep); try done; [by apply list_elem_of_here|].
    rewrite (bind_Ret _ _ _ _ _ Hb).
    destruct (drain_one_ok b l t skip start (procs s) p lst Q r Hok Hv Hr Hlr) as (Hok1 & Hat1 & Hq1 & Hput).
    { intros Hs. by apply Hne; [apply list_elem_of_here|]. }
    set (Q1 := drain_one l t skip start (procs s) p lst Q) in *.
    set (s1 := set_level lv1 _).
    assert (forall j, dlevel (procs s1) j = dlevel (procs s) j) as Hdl.
    { intros j. unfold s1. simpl. by apply dlevel_insert. }
    change (ptr s l) with (ptr s1 l).
    destruct (IH n s1 Q1) as (lv & Hw & Hrep2); clear IH.
    + simpl in Hn. lia.
    + by apply (in_cli_ext s).
    + by apply (repr_ext (set_level lv1 s)).
    + done.
    + done.
    + intros p' Hp'. unfold s1; simpl. destruct (decide (p' = p)) as [->|Hpne].
      * rewrite list_lookup_insert_eq by (by eapply lookup_lt_Some). by eexists.
      * rewrite list_lookup_insert_ne by done. apply Hps. by apply list_elem_of_further.
    + intros p' Hp' Hs'. rewrite (target_ext _ _ _ _ Hq1), Hdl. apply Hne; [|done].
      by apply list_elem_of_further.
    + intros s2 Q2 p2 l2 r2 Hc2 Hr2 Hok2 Hat2 Hp2 Hlr2 Hptr Hdl2 Hin.
      apply Hbody; try done; [|by apply list_elem_of_further]. intros j. by rewrite Hdl2, Hdl.
    + exists lv. rewrite Hw. split.
      * f_equal. unfold s1. cbn [procs set_level set_procs]. by rewrite (replenish_cons p r lst (procs s) Hr).
      * rewrite Hput in Hrep2. simpl foldl.
        rewrite (foldl_ext_in _ (fun Q p => if skip p then Q else place (start p) (dlevel (procs s) p) p Q))
          in Hrep2 by (intros Q0 p0 _; by rewrite Hdl).
        eapply repr_ext; [| | |exact Hrep2]; done.
Qed.

End Drain.

(** ** The parts of an iteration *)

Section Parts.
Context {E : Type}.
Implicit Types (s : kstate E) (Q : sets).

Lemma concat_insert_nil (L : list lvl) k t l : L !! k = Some (t, l) ->
  concat (L.*2) ≡ₚ l ++ concat ((<[k := (t, [])]> L).*2).
Proof.
  intros Hk. rewrite <- (take_drop_middle L k _ Hk) at 1.
  rewrite insert_take_drop by (by eapply lookup_lt_Some).
  rewrite !fmap_app, !fmap_cons, !concat_app. simpl.
  rewrite !app_assoc. by rewrite (Permutation_app_comm _ l).
Qed.

Lemma queued_clear l Q t lst : at_loc l Q = Some (t, lst) ->
  queued Q ≡ₚ lst ++ queued (put_loc l (t, []) Q).
Proof.
  intros Hv. unfold queued. destruct l as [k|k]; simpl in *;
    rewrite (concat_insert_nil _ _ _ _ Hv), ?app_assoc; [done|].
  by rewrite (Permutation_app_comm _ lst).
Qed.

Lemma sets_ok_clear b l Q t lst : sets_wf b Q -> at_loc l Q = Some (t, lst) ->
  sets_wf b (put_loc l (t, []) Q) /\ NoDup lst /\ (forall p, p ∈ lst -> p ∉ queued (put_loc l (t, []) Q)).
Proof.
  intros [HA HX Hn Hb Hq] Hv. pose proof (queued_clear _ _ _ _ Hv) as Hperm.
  rewrite Hperm in Hn. apply NoDup_app in Hn as (Hn1 & Hd & Hn2). split; [|done].
  constructor; try done.
  - destruct l; simpl; by rewrite ?length_insert.
  - destruct l; simpl; by rewrite ?length_insert.
  - intros q Hin. apply Hb. rewrite Hperm. apply elem_of_app. by right.
  - by eapply put_loc_quantum.
Qed.

Lemma put_loc_clear k Q t lst : Q.1 !! k = Some (t, lst) ->
  put_loc (Act k) (t, []) Q = (clear_level k Q.1, Q.2).
Proof. intros Hk. simpl. unfold clear_level. by rewrite (alter_Some_insert _ _ _ _ Hk). Qed.

Lemma foldl_skip start ps p lst Q0 :
  foldl (fun Q p' => if bool_decide (p' = p) then Q else place (start p') (dlevel ps p') p' Q) Q0 lst =
  place_all start ps (filter (fun q => q <> p) lst) Q0.
Proof.
  revert Q0. induction lst as [|q lst IH]; intros Q0; simpl; [done|].
  case_bool_decide as Hq.
  - rewrite filter_cons_False by (by intros ?). apply IH.
  - rewrite filter_cons_True by done. simpl. apply IH.
Qed.

Lemma target_below k dl A : target (S k) dl A <> Act k.
Proof.
  unfold target. destruct (quantum_from (S k) A) as [j|] eqn:Hj; [|done].
  apply quantum_from_Some in Hj as [? _]. intros [= ->]. lia.
Qed.

(** Taking the head off a queue. *)
Lemma pop_head s i c Q l t p l2 r : in_cli s i c -> rep s Q -> at_loc l Q = Some (t, p :: l2) ->
  procs s !! p = Some r ->
  let s' lv := set_level lv (set_procs (<[p := set_ticks_left RSDL_PROC_QUANTUM r]> (procs s)) s) in
  exists lv, rep (set_level lv s) (put_loc l (t, l2) Q) /\
    forall (B : Type) (k : nat -> M (kstate E) B),
    bind (get_level (ptr s l)) (fun lq =>
      bind (deref (lq_proc lq !! 0%nat)) (fun x => bind (deref x) (fun np =>
        bind (upd_proc np (set_ticks_left RSDL_PROC_QUANTUM)) (fun _ =>
          bind (unqueue_proc (Some np) (Some (ptr s l))) (fun _ => k np))))) s = k p (s' lv).
Proof.
  intros Hc H Hv Hp s'. destruct (head_at s Q l t p l2 H Hv) as (lq & Hg & Hx & _).
  destruct (unqueue_at (set_procs (<[p := set_ticks_left RSDL_PROC_QUANTUM r]> (procs s)) s)
              i c Q l t [] p l2 false) as (lv & Hu & Hr).
  { by apply (in_cli_ext s). } { by apply (repr_ext s). } { done. } { apply not_elem_of_nil. }
  exists lv. split; [by eapply repr_ext; [| | |exact Hr]|]. intros B k.
  rewrite (bind_Ret _ _ _ _ _ Hg), (bind_deref _ _ _ _ Hx), (bind_deref _ _ _ _ eq_refl).
  rewrite (bind_Ret _ _ _ _ _ (upd_proc_eq s p r _ Hp)).
  unfold unqueue_proc. erewrite bind_Ret by exact Hu. done.
Qed.

(** Taking the head off a queue and placing it again. *)
Lemma pop_place b s i c Q l t p l2 r a : in_cli s i c -> rep s Q -> sets_wf b Q ->
  at_loc l Q = Some (t, p :: l2) -> procs s !! p = Some r -> level_ok r -> may_place b a ->
  let s1 lv := set_level lv (set_procs (<[p := set_ticks_left RSDL_PROC_QUANTUM r]> (procs s)) s) in
  forall lv, rep (set_level lv s) (put_loc l (t, l2) Q) ->
  exists lv', bind (find_available_queue a (default_level r)) (fun nq => enqueue_proc (Some p) nq) (s1 lv) =
      Ret tt (s1 lv') /\
    rep (set_level lv' s) (place (Z.to_nat a) (dlevel (procs s) p) p (put_loc l (t, l2) Q)).
Proof.
  intros Hc H Hok Hv Hp Hr Ha s1 lv Hrep.
  destruct (sets_ok_remove b l Q t [] p l2 Hok Hv) as (Hok1 & Hnq & Hlt). simpl app in *.
  destruct (place_eq b (s1 lv) i c (put_loc l (t, l2) Q) a (default_level r) p) as (lv' & He & Hr'); try done.
  { by apply (in_cli_ext s). }
  exists lv'. split; [done|]. unfold dlevel. rewrite Hp. by eapply repr_ext; [| | |exact Hr'].
Qed.

Lemma rep_len s Q k v : rep s Q -> at_loc k Q = Some v -> (length v.2 < S NPROC)%nat.
Proof.
  intros H Hk. destruct (rep_get s Q k v H Hk) as (lq & _ & [Hr _]). apply lq_repr_le in Hr. lia.
Qed.

(** The loop of the migration. *)
Lemma migrate_loop s i c Q k p t lst :
  in_cli s i c -> rep s Q -> sets_ok Q -> Q.1 !! k = Some (t, lst) ->
  (forall p', p' ∈ lst -> exists r, procs s !! p' = Some r /\ level_ok r) ->
  exists lv,
    while_fuel (S NPROC) (lq <- get_level (active s + k) ;; ret (0 <? numproc lq)%nat) (
      lq <- get_level (active s + k) ;; x <- deref (lq_proc lq !! 0%nat) ;; np <- deref x ;;
      upd_proc np (set_ticks_left RSDL_PROC_QUANTUM) ;;;
      unqueue_proc (Some np) (Some (active s + k)%nat) ;;;
      if bool_decide (np = p) then ret tt else
      r <- get_proc np ;;
      nq <- find_available_queue (Z.of_nat k + 1) (default_level r) ;;
      enqueue_proc (Some np) nq) s =
    Ret tt (set_level lv (set_procs (replenish lst (procs s)) s)) /\
    rep (set_level lv s)
      (place_all (fun _ => S k) (procs s) (filter (fun q => q <> p) lst) (clear_level k Q.1, Q.2)).
Proof.
  intros Hc H Hok Hk Hps.
  rewrite <- (put_loc_clear k Q t lst Hk), <- foldl_skip.
  apply (drain_loop true (Act k) t (fun p' => bool_decide (p' = p)) (fun _ => S k) _ i c lst); try done.
  - by apply (rep_len s Q (Act k) (t, lst)).
  - intros p' _ _. apply target_below.
  - intros s1 Q1 p1 l2 r Hc1 Hr1 Hok1 Hat1 Hp1 Hlr1 Hptr Hdl _. simpl in Hptr. rewrite <- Hptr.
    destruct (pop_head s1 i c Q1 (Act k) t p1 l2 r Hc1 Hr1 Hat1 Hp1) as (lv1 & Hr2 & Heq).
    simpl ptr in Heq. setoid_rewrite Heq. clear Heq.
    unfold drain_one. destruct (bool_decide (p1 = p)) eqn:Eb; [by exists lv1|].
    destruct (pop_place true s1 i c Q1 (Act k) t p1 l2 r (Z.of_nat k + 1) Hc1 Hr1 Hok1 Hat1 Hp1 Hlr1 ltac:(split; [lia|by left]) lv1 Hr2)
      as (lv2 & He & Hr3).
    replace (Z.to_nat (Z.of_nat k + 1)) with (S k) in Hr3 by lia.
    exists lv2. split; [|done]. erewrite bind_Ret; [|apply get_proc_eq; simpl;
      apply list_lookup_insert_eq; by eapply lookup_lt_Some]. exact He.
Qed.

Lemma scheduler_migrate_eq s i c Q k p t lst rp :
  in_cli s i c -> rep s Q -> sets_ok Q -> Q.1 !! k = Some (t, lst) ->
  (forall p', p' ∈ lst -> exists r, procs s !! p' = Some r /\ level_ok r) ->
  procs s !! p = Some rp -> (state rp = ZOMBIE \/ level_ok rp) -> (p < NPROC)%nat ->
  (p ∈ lst \/ p ∉ queued Q) ->
  exists lv, scheduler_migrate k (active s + k) p s =
      Ret tt (set_level lv (set_procs (replenish lst (procs s)) s)) /\
    rep (set_level lv s) (migrate_spec k p (bool_decide (state rp = ZOMBIE)) (procs s) Q).
Proof.
  intros Hc H Hok Hk Hps Hp Hlp Hlt Hin. unfold scheduler_migrate.
  destruct (migrate_loop s i c Q k p t lst Hc H Hok Hk Hps) as (lv1 & Hw & Hrep1).
  rewrite (bind_Ret _ _ _ _ _ Hw). set (s1 := set_level lv1 _).
  destruct (sets_ok_clear true (Act k) Q t lst Hok Hk) as (Hok0 & Hnd & Hdisj).
  rewrite (put_loc_clear k Q t lst Hk) in *.
  set (rp' := if bool_decide (p ∈ lst) then set_ticks_left RSDL_PROC_QUANTUM rp else rp).
  assert (procs s1 !! p = Some rp') as Hp1 by (simpl; by rewrite replenish_lookup, Hp).
  assert (state rp' = state rp /\ default_level rp' = default_level rp) as [Hst Hdl]
    by (unfold rp'; by case_bool_decide).
  rewrite (bind_Ret _ _ _ _ _ (get_proc_eq s1 p _ Hp1)), Hst, Hdl.
  unfold migrate_spec, level_procs. rewrite Hk. simpl snd.
  destruct (bool_decide (state rp = ZOMBIE)) eqn:Ez.
  { exists lv1. split; [done|]. by rewrite app_nil_r. }
  apply bool_decide_eq_false in Ez. destruct Hlp as [?|Hlp]; [done|].
  unfold place_all. rewrite foldl_app. simpl foldl.
  destruct (place_all_queued true (fun _ => S k) (procs s) (filter (fun q => q <> p) lst)
              (clear_level k Q.1, Q.2)) as [Hok1 Hq1].
  { done. } { by apply NoDup_filter. }
  { intros q Hq. apply Hdisj. by apply list_elem_of_filter in Hq as [_ ?]. }
  { intros q Hq. apply list_elem_of_filter in Hq as [_ Hq]. destruct (Hps q Hq) as (r & Hr & Hlr).
    split; [|by eapply dlevel_lt]. apply (so_bound Hok). apply (queued_in Q k (t, lst)); auto. }
  destruct (place_eq true s1 i c (place_all (fun _ => S k) (procs s) (filter (fun q => q <> p) lst)
              (clear_level k Q.1, Q.2)) (Z.of_nat k + 1) (default_level rp) p) as (lv2 & He & Hr2); try done.
  { by apply (in_cli_ext s). }
  { rewrite Hq1. intros [Hq|Hq]%elem_of_app.
    - by apply list_elem_of_filter in Hq as [? _].
    - destruct Hin as [Hin|Hin]; [by apply (Hdisj p Hin)|]. apply Hin.
      rewrite (queued_clear (Act k) Q t lst Hk). apply elem_of_app. right.
      by rewrite (put_loc_clear k Q t lst Hk). }
  { split; [lia|by left]. }
  exists lv2. split; [by rewrite He|].
  replace (Z.to_nat (Z.of_nat k + 1)) with (S k) in Hr2 by lia.
  replace (dlevel (procs s) p) with (Z.to_nat (default_level rp)) by (unfold dlevel; by rewrite Hp).
  by eapply repr_ext; [| | |exact Hr2].
Qed.

Lemma replenish_one p r ps : ps !! p = Some r ->
  <[p := set_ticks_left RSDL_PROC_QUANTUM r]> ps = replenish [p] ps.
Proof. intros Hp. by rewrite (replenish_cons p r [] ps Hp), replenish_nil. Qed.

Lemma set_procs_same s : set_procs (procs s) s = s.
Proof. by destruct s. Qed.

(** Whether a process that ran out of its own quantum, or is sent to the expired
    set, gets a new one. *)
Definition is_exp (l : loc) : bool := match l with Exp _ => true | Act _ => false end.

Lemma is_expired_set_ptr s Q l : rep s Q -> loc_ok l -> is_expired_set (ptr s l) s = Ret (is_exp l) s.
Proof.
  intros H Hl. unfold is_expired_set. destruct l as [k|k]; simpl in *.
  - by rewrite (bind_Ret _ _ _ _ _ (is_active_set_act s _ _ k H Hl)).
  - by rewrite (bind_Ret _ _ _ _ _ (is_active_set_exp s _ _ k H Hl)).
Qed.

Lemma remove_from_eq k p Q t l1 l2 : Q.1 !! k = Some (t, l1 ++ p :: l2) -> NoDup (l1 ++ p :: l2) ->
  put_loc (Act k) (t, l1 ++ l2) Q = (remove_from k p Q.1, Q.2).
Proof.
  intros Hk Hn. simpl. unfold remove_from. rewrite (alter_Some_insert _ _ _ _ Hk). simpl.
  apply NoDup_app in Hn as (_ & Hd & [Hp _]%NoDup_cons).
  rewrite filter_app, filter_cons_False by (by intros ?).
  rewrite !filter_ne_notin; [done|done|]. intros Hin. apply (Hd p Hin), list_elem_of_here.
Qed.

(** [ticks]: the quantum of [p] when it came back. *)
Definition requeue_start (k : nat) (ticks : Z) : nat := if ticks <=? 0 then S k else k.
Definition requeue_procs (k p : nat) (r : proc) (ps : list proc) (Q : sets) : list proc :=
  let start := requeue_start k (ticks_left r) in
  if (ticks_left r <=? 0) || is_exp (target start (Z.to_nat (default_level r)) Q.1)
  then replenish [p] ps else ps.

(** The first step: replenish [p] if its quantum is used up. *)
Lemma requeue_replenish s k p rp : procs s !! p = Some rp ->
  let r' := if ticks_left rp <=? 0 then set_ticks_left RSDL_PROC_QUANTUM rp else rp in
  exists ps, (if ticks_left rp <=? 0
   then upd_proc p (set_ticks_left RSDL_PROC_QUANTUM) ;;; ret (Z.of_nat k + 1)
   else ret (Z.of_nat k)) s = Ret (Z.of_nat (requeue_start k (ticks_left rp))) (set_procs ps s) /\
  ps !! p = Some r' /\ ps = (if ticks_left rp <=? 0 then replenish [p] (procs s) else procs s).
Proof.
  intros Hp r'. unfold requeue_start, r'. destruct (ticks_left rp <=? 0).
  - eexists. split; [|split; [|done]].
    + rewrite (bind_Ret _ _ _ _ _ (upd_proc_eq s p rp _ Hp)), (replenish_one p rp _ Hp).
      unfold ret. f_equal. lia.
    + rewrite replenish_lookup, Hp. simpl. by rewrite bool_decide_true by apply list_elem_of_here.
  - exists (procs s). by rewrite set_procs_same.
Qed.

Lemma scheduler_requeue_dead s Q k p t lst rp :
  rep s Q -> Q.1 !! k = Some (t, lst) -> procs s !! p = Some rp -> state rp = ZOMBIE ->
  scheduler_requeue k (active s + k) p s =
  Ret tt (set_procs (if ticks_left rp <=? 0 then replenish [p] (procs s) else procs s) s).
Proof.
  intros H Hk Hp Hz. unfold scheduler_requeue. rewrite (bind_Ret _ _ _ _ _ (get_proc_eq s p rp Hp)).
  destruct (requeue_replenish s k p rp Hp) as (ps & He & Hps & Hd). rewrite (bind_Ret _ _ _ _ _ He).
  destruct (rep_get s Q (Act k) _ H Hk) as (lq & Hlq & _).
  rewrite (bind_Ret _ _ _ _ _ (get_level_eq (set_procs ps s) _ lq Hlq)).
  erewrite bind_Ret by (by apply get_proc_eq).
  replace (state (if ticks_left rp <=? 0 then _ else rp)) with ZOMBIE by (by destruct (ticks_left rp <=? 0)).
  rewrite bool_decide_true, andb_false_r by done. by rewrite Hd.
Qed.

Lemma scheduler_requeue_eq s i c Q k p t l1 l2 rp :
  in_cli s i c -> rep s Q -> sets_ok Q -> Q.1 !! k = Some (t, l1 ++ p :: l2) ->
  procs s !! p = Some rp -> level_ok rp -> state rp <> ZOMBIE ->
  exists lv, scheduler_requeue k (active s + k) p s =
      Ret tt (set_level lv (set_procs (requeue_procs k p rp (procs s) Q) s)) /\
    rep (set_level lv s)
      (requeue_spec (requeue_start k (ticks_left rp)) k p (Z.to_nat (default_level rp)) Q).
Proof.
  intros Hc H Hok Hk Hp Hlr Hz. unfold scheduler_requeue.
  rewrite (bind_Ret _ _ _ _ _ (get_proc_eq s p rp Hp)).
  destruct (requeue_replenish s k p rp Hp) as (ps & He & Hps & Hd). rewrite (bind_Ret _ _ _ _ _ He).
  set (r' := if ticks_left rp <=? 0 then _ else rp) in *.
  assert (state r' = state rp /\ default_level r' = default_level rp) as [Hst Hdl]
    by (unfold r'; by destruct (ticks_left rp <=? 0)).
  destruct (sets_ok_clear true (Act k) Q t _ Hok Hk) as (_ & Hnd & _).
  destruct (rep_get s Q (Act k) _ H Hk) as (lq & Hlq & [Hr Ht]). simpl in Hr, Hlq.
  rewrite (bind_Ret _ _ _ _ _ (get_level_eq (set_procs ps s) _ lq Hlq)).
  rewrite (bind_Ret _ _ _ r' (set_procs ps s)) by (by apply get_proc_eq).
  rewrite Hst, bool_decide_false, (lr_num _ _ Hr) by done.
  assert ((0 <? length (l1 ++ p :: l2))%nat = true) as ->
    by (apply Nat.ltb_lt; rewrite length_app; simpl; lia).
  cbn [negb andb].
  destruct (unqueue_at (set_procs ps s) i c Q (Act k) t l1 p l2 false) as (lv1 & Hu & Hr1).
  { by apply (in_cli_ext s). } { by apply repr_set_procs. } { done. }
  { apply NoDup_app in Hnd as (_ & Hd' & _). intros Hin. apply (Hd' p Hin). apply list_elem_of_here. }
  simpl ptr in Hu. unfold unqueue_proc. rewrite (bind_Ret _ _ _ _ _ Hu).
  destruct (Z.eqb_spec (Z.of_nat (length l1)) (-1)); [lia|].
  destruct (sets_ok_remove true (Act k) Q t l1 p l2 Hok Hk) as (Hok1 & Hnq & Hlt).
  rewrite (remove_from_eq k p Q t l1 l2 Hk Hnd) in *.
  set (s1 := set_level lv1 _) in *. rewrite Hdl.
  set (start := requeue_start k (ticks_left rp)).
  rewrite (bind_Ret _ _ _ _ _ (find_target true s1 (remove_from k p Q.1, Q.2) (Z.of_nat start) (default_level rp) p
             Hr1 Hok1 Hnq Hlt ltac:(split; [lia|by left]) Hlr)).
  rewrite (bind_deref _ _ _ _ eq_refl), Nat2Z.id. simpl fst.
  set (l := target start (Z.to_nat (default_level rp)) (remove_from k p Q.1)).
  assert (l = target start (Z.to_nat (default_level rp)) Q.1) as Hl.
  { apply target_ext. change (remove_from k p Q.1) with (remove_from k p Q.1, Q.2).1.
    rewrite <- (remove_from_eq k p Q t l1 l2 Hk Hnd). by eapply put_loc_quanta. }
  assert (loc_ok l) as Hlok by (apply target_ok; destruct Hlr; lia).
  rewrite (bind_Ret _ _ _ _ _ (is_expired_set_ptr s1 _ l Hr1 Hlok)).
  set (ps2 := if is_exp l then replenish [p] (procs s) else ps).
  assert (when (is_exp l) (upd_proc p (set_ticks_left RSDL_PROC_QUANTUM)) s1 = Ret tt (set_procs ps2 s1)) as Hup.
  { unfold ps2. destruct (is_exp l); simpl when; [|done].
    erewrite upd_proc_eq by exact Hps. simpl procs. do 2 f_equal.
    rewrite (replenish_one p r' ps Hps), Hd. destruct (ticks_left rp <=? 0); [|done].
    apply list_eq. intros j. rewrite !replenish_lookup. destruct (procs s !! j); simpl; [|done].
    by case_bool_decide. }
  rewrite (bind_Ret _ _ _ _ _ Hup).
  destruct (enqueue_at true (set_procs ps2 s1) i c (remove_from k p Q.1, Q.2) l p) as (lv2 & Hen & Hr2); try done.
  { by apply (in_cli_ext s). }
  exists lv2. split.
  - change (ptr s1 l) with (ptr (set_procs ps2 s1) l). rewrite Hen. f_equal. unfold s1, requeue_procs. fold start. rewrite <- Hl.
    unfold ps2. rewrite Hd. destruct (ticks_left rp <=? 0), (is_exp l); done.
  - unfold requeue_spec, place. fold start l. by eapply repr_ext; [| | |exact Hr2].
Qed.

(** ** Exchanging the sets *)

Lemma insert_snd (L : list lvl) k t t' x : L !! k = Some (t, x) -> (<[k := (t', x)]> L).*2 = L.*2.
Proof.
  intros Hk. rewrite list_fmap_insert. apply list_insert_id. by rewrite list_lookup_fmap, Hk.
Qed.

Lemma sets_wf_refill Q k t lst : sets_wf false Q -> Q.2 !! k = Some (t, lst) ->
  sets_wf false (put_loc (Exp k) (RSDL_LEVEL_QUANTUM, lst) Q).
Proof.
  intros [HA HX Hn Hb Hq] Hk.
  assert (queued (put_loc (Exp k) (RSDL_LEVEL_QUANTUM, lst) Q) = queued Q) as HE
    by (unfold queued; simpl; by rewrite (insert_snd _ _ _ _ _ Hk)).
  constructor; rewrite ?HE; simpl; rewrite ?length_insert; done.
Qed.

(** During the exchange every process finds its own level open. *)
Lemma target_own (A : list lvl) start dl : length A = RSDL_LEVELS ->
  (forall k v, A !! k = Some v -> 0 < v.1) -> (start < RSDL_LEVELS)%nat -> target start dl A = Act start.
Proof.
  intros HA Hq Hs. destruct (lookup_lt_is_Some_2 A start) as [v Hv]; [by rewrite HA|].
  unfold target, quantum_from. erewrite (first_some_seq _ _ _ start); [done|lia| |lia].
  specialize (Hq _ v Hv). apply Z.ltb_lt in Hq. by rewrite Hv, Hq.
Qed.

Lemma dlevel_replenish l ps i : dlevel (replenish l ps) i = dlevel ps i.
Proof.
  unfold dlevel. rewrite replenish_lookup. destruct (ps !! i); simpl; [|done]. by case_bool_decide.
Qed.

Lemma drain_level_replenish l ps Q k : drain_level (replenish l ps) Q k = drain_level ps Q k.
Proof.
  unfold drain_level, place_all. apply foldl_ext_in. intros Q0 p _. by rewrite dlevel_replenish.
Qed.

Lemma replenish_app l1 l2 ps : replenish (l1 ++ l2) ps = replenish l2 (replenish l1 ps).
Proof.
  apply list_eq. intros i. rewrite !replenish_lookup. destruct (ps !! i); simpl; [|done]. f_equal.
  repeat case_bool_decide; set_solver.
Qed.

(** One level of the old active set. *)
Lemma swap_level s i c Q k t lst :
  in_cli s i c -> rep s Q -> sets_wf false Q -> Q.2 !! k = Some (t, lst) ->
  (forall p, p ∈ lst -> exists r, procs s !! p = Some r /\ level_ok r) ->
  exists lv, (s <- get ;;
    let q := (expired s + k)%nat in
    upd_level q (set_lq_ticks_left RSDL_LEVEL_QUANTUM) ;;;
    while_fuel (S NPROC) (lq <- get_level q ;; ret (0 <? numproc lq)%nat) (
      lq <- get_level q ;; x <- deref (lq_proc lq !! 0%nat) ;; p <- deref x ;;
      upd_proc p (set_ticks_left RSDL_PROC_QUANTUM) ;;;
      unqueue_proc (Some p) (Some q) ;;;
      r <- get_proc p ;;
      let nk := default_level r in
      nq <- find_available_queue nk nk ;;
      enqueue_proc (Some p) nq)) s = Ret tt (set_level lv (set_procs (replenish lst (procs s)) s)) /\
    rep (set_level lv s) (drain_level (procs s) Q k).
Proof.
  intros Hc H Hok Hk Hps. rewrite bind_get. cbv zeta.
  destruct (rep_get s Q (Exp k) _ H Hk) as (lq & Hlq & [Hr Ht]). simpl in Hlq, Hr.
  rewrite (bind_Ret _ _ _ _ _ (upd_level_eq s _ lq _ Hlq)).
  set (lq1 := set_lq_ticks_left RSDL_LEVEL_QUANTUM lq). set (s1 := set_level _ s).
  set (Q1 := put_loc (Exp k) (RSDL_LEVEL_QUANTUM, lst) Q).
  assert (rep s1 Q1) as Hr1.
  { apply (rep_put s Q (Exp k) lq1 (RSDL_LEVEL_QUANTUM, lst)); [done|by eapply at_loc_ok|].
    split; [|done]. by destruct Hr. }
  assert (sets_wf false Q1) as Hok1 by (by eapply sets_wf_refill).
  assert (at_loc (Exp k) Q1 = Some (RSDL_LEVEL_QUANTUM, lst)) as Hat1
    by (simpl; apply list_lookup_insert_eq; by eapply lookup_lt_Some).
  assert (drain_level (procs s) Q k =
    foldl (fun Q p => if (fun _ => false) p then Q else place (dlevel (procs s) p) (dlevel (procs s) p) p Q)
      (put_loc (Exp k) (RSDL_LEVEL_QUANTUM, []) Q1) lst) as ->.
  { unfold drain_level, place_all, level_procs. rewrite Hk. simpl. f_equal. f_equal.
    unfold clear_level. rewrite (alter_Some_insert _ _ _ _ Hk).
    erewrite alter_Some_insert by (apply list_lookup_insert_eq; by eapply lookup_lt_Some). done. }
  change (expired s + k)%nat with (ptr s1 (Exp k)).
  destruct (drain_loop false (Exp k) RSDL_LEVEL_QUANTUM (fun _ => false) (dlevel (procs s))
    (lq <- get_level (ptr s1 (Exp k)) ;; x <- deref (lq_proc lq !! 0%nat) ;; p <- deref x ;;
      upd_proc p (set_ticks_left RSDL_PROC_QUANTUM) ;;;
      unqueue_proc (Some p) (Some (ptr s1 (Exp k))) ;;;
      r <- get_proc p ;;
      nq <- find_available_queue (default_level r) (default_level r) ;;
      enqueue_proc (Some p) nq)
    i c lst (S NPROC) s1 Q1) as (lv & He & Hrep); try done.
  - by apply (rep_len s1 Q1 (Exp k) (RSDL_LEVEL_QUANTUM, lst)).
  - by apply (in_cli_ext s).
  - intros p Hp _. destruct (Hps p Hp) as (r & Hpr & Hlr). rewrite target_own; [done|by apply Hok1|by apply Hok1|].
    by eapply dlevel_lt.
  - intros s2 Q2 p l2 r Hc2 Hr2 Hok2 Hat2 Hp2 Hlr2 Hptr Hdl _. rewrite <- Hptr.
    destruct (pop_head s2 i c Q2 (Exp k) RSDL_LEVEL_QUANTUM p l2 r Hc2 Hr2 Hat2 Hp2) as (lv1 & Hr3 & Heq).
    setoid_rewrite Heq. clear Heq.
    destruct (pop_place false s2 i c Q2 (Exp k) RSDL_LEVEL_QUANTUM p l2 r (default_level r) Hc2 Hr2 Hok2 Hat2 Hp2 Hlr2
      ltac:(destruct Hlr2; split; [lia|by right]) lv1 Hr3) as (lv2 & He & Hr4).
    exists lv2. split.
    + erewrite bind_Ret; [|apply get_proc_eq; simpl; apply list_lookup_insert_eq; by eapply lookup_lt_Some].
      exact He.
    + unfold drain_one. replace (dlevel (procs s) p) with (Z.to_nat (default_level r)); [done|].
      change (procs s1) with (procs s) in Hdl. rewrite <- Hdl. unfold dlevel. by rewrite Hp2.
  - exists lv. split; [exact He|]. by eapply repr_ext; [| | |exact Hrep].
Qed.

(** Placing processes at their own levels, in closed form. *)
Lemma gather_nil ps A : gather ps [] A = A.
Proof.
  apply list_eq. intros k. unfold gather. rewrite list_lookup_imap.
  destruct (A !! k) as [[t l]|]; simpl; [|done]. by rewrite app_nil_r.
Qed.

Lemma gather_app ps l1 l2 A : gather ps (l1 ++ l2) A = gather ps l2 (gather ps l1 A).
Proof.
  apply list_eq. intros k. unfold gather. rewrite !list_lookup_imap.
  destruct (A !! k) as [[t l]|]; simpl; [|done]. by rewrite filter_app, app_assoc.
Qed.

Lemma gather_one ps p A : gather ps [p] A = alter (push p) (dlevel ps p) A.
Proof.
  apply list_eq. intros k. unfold gather. rewrite list_lookup_imap, list_lookup_alter.
  destruct (decide (dlevel ps p = k)) as [<-|Hk].
  { destruct (A !! dlevel ps p) as [[t l]|]; simpl; [|done]. by rewrite filter_cons_True. }
  destruct (A !! k) as [[t l]|]; simpl; [|done].
  rewrite filter_cons_False by done. by rewrite app_nil_r.
Qed.

Lemma gather_fst ps l A : (gather ps l A).*1 = A.*1.
Proof.
  apply list_eq. intros k. unfold gather. rewrite !list_lookup_fmap, list_lookup_imap.
  by destruct (A !! k).
Qed.

Lemma gather_full ps l A : (forall k v, A !! k = Some v -> 0 < v.1) ->
  forall k v, gather ps l A !! k = Some v -> 0 < v.1.
Proof.
  intros Hq k v. unfold gather. rewrite list_lookup_imap. intros (w & Hw & ->)%fmap_Some.
  simpl. by apply (Hq k w).
Qed.

Lemma length_gather ps l A : length (gather ps l A) = length A.
Proof. apply length_imap. Qed.

Lemma place_all_gather ps lst Q : length Q.1 = RSDL_LEVELS ->
  (forall k v, Q.1 !! k = Some v -> 0 < v.1) ->
  (forall p, p ∈ lst -> (dlevel ps p < RSDL_LEVELS)%nat) ->
  place_all (dlevel ps) ps lst Q = (gather ps lst Q.1, Q.2).
Proof.
  revert Q. induction lst as [|p lst IH]; intros Q HA Hq Hd; simpl.
  - rewrite gather_nil. by destruct Q.
  - unfold place. rewrite target_own by (done || set_solver). rewrite IH.
    + change (p :: lst) with ([p] ++ lst). by rewrite gather_app, gather_one.
    + simpl. by rewrite length_alter.
    + simpl. intros k v (w & Hw & ->)%alter_push_fst. eauto.
    + set_solver.
Qed.

Lemma drain_level_gather ps Q k t lst : length Q.1 = RSDL_LEVELS ->
  (forall k v, Q.1 !! k = Some v -> 0 < v.1) -> Q.2 !! k = Some (t, lst) ->
  (forall p, p ∈ lst -> (dlevel ps p < RSDL_LEVELS)%nat) ->
  drain_level ps Q k = (gather ps lst Q.1, <[k := (RSDL_LEVEL_QUANTUM, [])]> Q.2).
Proof.
  intros HA Hq Hk Hd. unfold drain_level, level_procs. rewrite Hk. simpl snd.
  rewrite place_all_gather by done. simpl. f_equal. unfold clear_level.
  rewrite (alter_Some_insert _ _ _ _ Hk).
  erewrite alter_Some_insert by (apply list_lookup_insert_eq; by eapply lookup_lt_Some).
  by rewrite list_insert_insert_eq.
Qed.

Lemma concat_insert_sub (L : list lvl) j t p : (j < length L)%nat ->
  p ∈ concat ((<[j := (t, [])]> L).*2) -> p ∈ concat (L.*2).
Proof.
  intros Hj. rewrite !list_elem_of_In, !in_concat. setoid_rewrite <- list_elem_of_In.
  rewrite list_fmap_insert. simpl. intros (x & Hx & Hp). apply list_elem_of_lookup in Hx as [j' Hx].
  destruct (decide (j' = j)) as [->|Hne].
  - rewrite list_lookup_insert_eq in Hx by (rewrite length_fmap; lia). simplify_eq. by apply not_elem_of_nil in Hp.
  - rewrite list_lookup_insert_ne in Hx by done. exists x. split; [by eapply list_elem_of_lookup_2|done].
Qed.

(** The levels [j], [j + 1], ... of the old active set, one after the other. *)
Lemma drain_levels ps n : forall j Q, (j + n <= RSDL_LEVELS)%nat -> length Q.1 = RSDL_LEVELS ->
  length Q.2 = RSDL_LEVELS ->
  (forall k v, Q.1 !! k = Some v -> 0 < v.1) -> (forall p, p ∈ concat (Q.2.*2) -> (dlevel ps p < RSDL_LEVELS)%nat) ->
  foldl (drain_level ps) Q (seq j n) =
  (gather ps (concat (take n (drop j (Q.2.*2)))) Q.1,
   take j Q.2 ++ replicate n (RSDL_LEVEL_QUANTUM, []) ++ drop (j + n) Q.2).
Proof.
  induction n as [|n IH]; intros j Q Hj HA HX Hq Hd.
  - simpl. rewrite Nat.add_0_r, take_drop, gather_nil. by destruct Q.
  - simpl seq. simpl foldl. destruct (lookup_lt_is_Some_2 Q.2 j) as [[t lst] Hk]; [lia|].
    assert (Q.2.*2 !! j = Some lst) as Hk2 by (by rewrite list_lookup_fmap, Hk).
    assert (drop j (Q.2.*2) = lst :: drop (S j) (Q.2.*2)) as -> by (by apply drop_S).
    rewrite (drain_level_gather _ _ _ _ _ HA Hq Hk).
    2:{ intros p Hp. apply Hd. apply list_elem_of_In, in_concat. exists lst.
        split; apply list_elem_of_In; [by eapply list_elem_of_lookup_2|done]. }
    rewrite IH; cbn [fst snd]; try (rewrite ?length_gather, ?length_insert; done || lia).
    + rewrite firstn_cons. simpl concat. rewrite gather_app. f_equal.
      * f_equal. f_equal. f_equal. rewrite list_fmap_insert. by rewrite drop_insert_lt by lia.
      * rewrite (take_S_r _ j (RSDL_LEVEL_QUANTUM, [])) by (apply list_lookup_insert_eq; lia).
        rewrite take_insert_ge, drop_insert_lt by lia.
        rewrite <- app_assoc. simpl. by rewrite Nat.add_succ_r.
    + by apply gather_full.
    + intros p Hp. apply Hd, (concat_insert_sub _ j RSDL_LEVEL_QUANTUM); [lia|done].
Qed.

Lemma level_elem (L : list lvl) k v p : L !! k = Some v -> p ∈ v.2 -> p ∈ concat (L.*2).
Proof.
  intros Hk Hp. apply list_elem_of_In, in_concat. exists v.2.
  split; apply list_elem_of_In; [|done]. apply list_elem_of_fmap. exists v.
  split; [done|]. by eapply list_elem_of_lookup_2.
Qed.

Lemma drain_level_wf ps Q k : sets_wf false Q -> (k < RSDL_LEVELS)%nat ->
  (forall p, p ∈ concat (Q.2.*2) -> (dlevel ps p < RSDL_LEVELS)%nat) ->
  sets_wf false (drain_level ps Q k) /\ queued (drain_level ps Q k) ≡ₚ queued Q.
Proof.
  intros Hok Hk Hd. destruct (lookup_lt_is_Some_2 Q.2 k) as [[t lst] Hv]; [by rewrite (so_lenX Hok)|].
  pose proof (sets_wf_refill Q k t lst Hok Hv) as Hok1.
  assert (at_loc (Exp k) (put_loc (Exp k) (RSDL_LEVEL_QUANTUM, lst) Q) = Some (RSDL_LEVEL_QUANTUM, lst)) as Hat
    by (by eapply at_put_loc).
  destruct (sets_ok_clear false (Exp k) _ _ _ Hok1 Hat) as (Hok2 & Hnd & Hdisj).
  pose proof (queued_clear _ _ _ _ Hat) as Hq. rewrite put_put_loc in *.
  unfold drain_level, level_procs. rewrite Hv. simpl snd.
  replace (clear_level k (alter refill k Q.2)) with (<[k := (RSDL_LEVEL_QUANTUM, [] : list nat)]> Q.2).
  2:{ unfold clear_level. rewrite (alter_Some_insert _ _ _ _ Hv).
      erewrite alter_Some_insert by (apply list_lookup_insert_eq; by eapply lookup_lt_Some).
      by rewrite list_insert_insert_eq. }
  destruct (place_all_queued false (dlevel ps) ps lst (put_loc (Exp k) (RSDL_LEVEL_QUANTUM, []) Q)) as [H1 H2].
  - done.
  - done.
  - done.
  - intros p Hp. split; [|apply Hd; by eapply level_elem].
    apply (so_bound Hok). apply (queued_in Q k (t, lst)); auto.
  - split; [exact H1|]. etrans; [exact H2|]. rewrite <- Hq. unfold queued. simpl.
    by rewrite (insert_snd _ _ _ _ _ Hv).
Qed.

Lemma swap_loop i c body n : forall j s Q,
  (j + n <= RSDL_LEVELS)%nat -> in_cli s i c -> rep s Q -> sets_wf false Q ->
  (forall p, p ∈ concat (Q.2.*2) -> exists r, procs s !! p = Some r /\ level_ok r) ->
  (forall k s Q t lst, in_cli s i c -> rep s Q -> sets_wf false Q -> Q.2 !! k = Some (t, lst) ->
     (forall p, p ∈ lst -> exists r, procs s !! p = Some r /\ level_ok r) ->
     exists lv, body k s = Ret tt (set_level lv (set_procs (replenish lst (procs s)) s)) /\
       rep (set_level lv s) (drain_level (procs s) Q k)) ->
  exists lv, for_each (seq j n) body s =
      Ret tt (set_level lv (set_procs (replenish (concat (take n (drop j (Q.2.*2)))) (procs s)) s)) /\
    rep (set_level lv s) (foldl (drain_level (procs s)) Q (seq j n)).
Proof.
  induction n as [|n IH]; intros j s Q Hj Hc H Hok Hps Hbody.
  { exists (level s). simpl. rewrite replenish_nil. by destruct s. }
  destruct (lookup_lt_is_Some_2 Q.2 j) as [[t lst] Hk]; [rewrite (so_lenX Hok); lia|].
  assert (forall p, p ∈ lst -> p ∈ concat (Q.2.*2)) as Hsub by (intros; by eapply level_elem).
  destruct (Hbody j s Q t lst) as (lv1 & Hb & Hr1); try done. { intros p Hp. apply Hps. auto. }
  simpl for_each. rewrite (bind_Ret _ _ _ _ _ Hb). set (s1 := set_level lv1 _).
  assert (forall p, p ∈ concat (Q.2.*2) -> (dlevel (procs s) p < RSDL_LEVELS)%nat) as Hd.
  { intros p Hp. destruct (Hps p Hp) as (r & Hpr & Hlr). by eapply dlevel_lt. }
  destruct (drain_level_wf (procs s) Q j Hok ltac:(lia) Hd) as [Hok1 _].
  assert (drain_level (procs s) Q j = (gather (procs s) lst Q.1, <[j := (RSDL_LEVEL_QUANTUM, [])]> Q.2)) as HE
    by (apply (drain_level_gather _ _ _ t); [apply Hok|apply Hok|done|auto]).
  destruct (IH (S j) s1 (drain_level (procs s) Q j)) as (lv & He & Hr); try done.
  { lia. } { by apply (in_cli_ext s). }
  { intros p Hp. destruct (Hps p) as (r & Hpr & Hlr).
    - rewrite HE in Hp. simpl in Hp. apply concat_insert_sub in Hp; [done|]. rewrite (so_lenX Hok). lia.
    - unfold s1; simpl. rewrite replenish_lookup, Hpr. simpl. eexists. split; [done|]. by case_bool_decide. }
  exists lv. rewrite He. split.
  - f_equal. assert (Q.2.*2 !! j = Some lst) as Hk2 by (by rewrite list_lookup_fmap, Hk).
    rewrite (drop_S _ _ _ Hk2). rewrite firstn_cons. simpl concat. rewrite replenish_app.
    unfold s1. cbn [procs set_level set_procs]. rewrite HE. simpl snd.
    rewrite list_fmap_insert, drop_insert_lt by lia. done.
  - simpl foldl. apply (repr_ext (set_level lv s1)); [done..|].
    rewrite (foldl_ext_in _ (drain_level (procs s1))); [exact Hr|].
    intros Q0 k0 _. unfold s1. simpl. by rewrite drain_level_replenish.
Qed.

Lemma sets_wf_swap Q : sets_ok Q -> sets_wf false (Q.2, Q.1).
Proof.
  intros [HA HX Hn Hb Hq].
  assert (queued (Q.2, Q.1) ≡ₚ queued Q) as HE by (apply Permutation_app_comm).
  constructor; try done; [by rewrite HE|]. intros p. rewrite HE. auto.
Qed.

Lemma scheduler_swap_eq s i c Q :
  in_cli s i c -> rep s Q -> sets_ok Q ->
  (forall p, p ∈ concat (Q.1.*2) -> exists r, procs s !! p = Some r /\ level_ok r) ->
  let s1 := set_expired (active s) (set_active (expired s) s) in
  exists lv, scheduler_swap s =
      Ret tt (set_level lv (set_procs (replenish (concat (Q.1.*2)) (procs s)) s1)) /\
    rep (set_level lv s1) (swap_spec (procs s) Q).
Proof.
  intros Hc H Hok Hps s1. unfold scheduler_swap. rewrite bind_modify. fold s1.
  destruct (swap_loop i c (fun k => s <- get ;;
    let q := (expired s + k)%nat in
    upd_level q (set_lq_ticks_left RSDL_LEVEL_QUANTUM) ;;;
    while_fuel (S NPROC) (lq <- get_level q ;; ret (0 <? numproc lq)%nat) (
      lq <- get_level q ;; x <- deref (lq_proc lq !! 0%nat) ;; p <- deref x ;;
      upd_proc p (set_ticks_left RSDL_PROC_QUANTUM) ;;;
      unqueue_proc (Some p) (Some q) ;;;
      r <- get_proc p ;;
      let nk := default_level r in
      nq <- find_available_queue nk nk ;;
      enqueue_proc (Some p) nq)) RSDL_LEVELS 0 s1 (Q.2, Q.1)) as (lv & He & Hr); try done.
  - by apply (in_cli_ext s).
  - by apply repr_swap.
  - by apply sets_wf_swap.
  - intros. by eapply swap_level.
  - exists lv. split; [|done]. etrans; [exact He|]. do 4 f_equal. rewrite drop_0, take_ge; [done|].
    rewrite length_fmap. simpl. by rewrite (so_lenA Hok).
Qed.

(** ** The choice *)

Lemma pick_queue {B : Type} s i c q lq v (f : option nat -> B) : in_cli s i c -> level s !! q = Some lq -> lvl_repr lq v ->
  (forall p, p ∈ v.2 -> exists r, procs s !! p = Some r) ->
  (acquire (level_lock q) ;;;
   found <- (lq <- get_level q ;;
      for_find (seq 0 (numproc lq)) (fun i =>
        x <- deref (lq_proc lq !! i) ;; p <- deref x ;; r <- get_proc p ;;
        ret (if bool_decide (state r = RUNNABLE) && (0 <? ticks_left r) then Some p else None))) ;;
    release (level_lock q) ;;;
    ret (f found)) s = Ret (f (pick_in (procs s) v.2)) s.
Proof.
  intros Hc Hq [Hr Ht] Hps. pose proof (lookup_lt_Some _ _ _ Hq) as Hlt.
  rewrite (with_level_lock s i c q lq lq _ (pick_in (procs s) v.2)); [|done|done|apply Hr|done|].
  - rewrite list_insert_id by done. by destruct s.
  - intros m h. rewrite (bind_Ret _ _ _ _ _ (get_level_in s q lq m h Hlt)).
    cbn [numproc set_lq_lock lq_proc]. rewrite (lr_num _ _ Hr).
    rewrite (for_find_pure _ _ (fun j => match v.2 !! j with
       Some p => if can_run (procs s) p then Some p else None | None => None end)).
    + f_equal. unfold pick_in. symmetry. apply first_some_lookup.
    + intros j Hj. apply elem_of_seq in Hj.
      destruct (lq_repr_lookup _ _ j Hr) as (p & Hp & Hx); [lia|].
      rewrite (bind_deref _ _ _ _ Hx), (bind_deref _ _ _ _ eq_refl), Hp.
      destruct (Hps p) as [r Hpr]; [by eapply list_elem_of_lookup_2|].
      erewrite bind_Ret by (by apply get_proc_eq). unfold can_run. by rewrite Hpr.
Qed.

Lemma scheduler_pick_eq s i c Q : in_cli s i c -> rep s Q ->
  (forall p, p ∈ concat (Q.1.*2) -> exists r, procs s !! p = Some r) ->
  scheduler_pick s = Ret ((fun kp => (kp.1, (active s + kp.1)%nat, kp.2)) <$> pick_spec (procs s) Q.1) s.
Proof.
  intros Hc H Hps. unfold scheduler_pick, pick_spec. rewrite <- first_some_fmap.
  apply for_find_pure. intros k Hk. apply elem_of_seq in Hk.
  destruct (lookup_lt_is_Some_2 Q.1 k) as [v Hv]; [rewrite (rp_lenA _ _ _ H); lia|].
  rewrite bind_get, Hv. cbv zeta. destruct (rep_get s Q (Act k) v H Hv) as (lq & Hlq & Hr).
  simpl in Hlq. rewrite (bind_Ret _ _ _ _ _ (get_level_eq s _ lq Hlq)), (proj2 Hr).
  destruct (v.1 <=? 0); [done|].
  rewrite (pick_queue s i c _ lq v (fun found => match found with
     Some p => Some (k, (active s + k)%nat, p) | None => None end) Hc Hlq Hr).
  - by destruct (pick_in (procs s) v.2).
  - intros p Hp. apply Hps. by eapply level_elem.
Qed.

End Parts.
