(* ===== verification/SchedInv.v ===== *)
(** * The invariant of the process table and the queues

    What holds of the process table and the RSDL queues whenever [ptable.lock] is
    free, stated on the abstract sets of RsdlSpec.v, and that each move of the
    scheduler keeps it.  SchedLoop.v carries this over to the code. *)

From stdpp Require Import base tactics list sets.
From Stdlib Require Import ZArith Lia.
From S2P Require Import Prelude Params ProcState Rsdl RsdlSpec Scheduler SchedRefine.
Open Scope Z_scope.

(** ** The queues *)

(** [ex]: the level of the running process, which may have used up its quantum
    while processes are still queued there. *)
Record queues_ok (Q : sets) (ex : option nat) : Prop := {
  qi_sets : sets_ok Q;
  qi_expired : forall k v, Q.2 !! k = Some v -> v.1 = RSDL_LEVEL_QUANTUM;
  qi_active : forall k v, Q.1 !! k = Some v -> 0 <= v.1 <= RSDL_LEVEL_QUANTUM;
  qi_spent : forall k v, Q.1 !! k = Some v -> v.1 = 0 -> ex <> Some k -> v.2 = []
}.

(** ** The process table *)

Definition live (st : procstate) : bool :=
  match st with SLEEPING | RUNNABLE | RUNNING => true | _ => false end.

(** A process that can be scheduled. *)
Record proc_ok (r : proc) : Prop := {
  po_level : level_ok r;
  po_kstack : kstack r <> 0;
  po_pgdir : KERNBASE <= pgdir r;
  po_cwd : cwd r <> None
}.

Definition quantum_ok (r : proc) : Prop := 0 < ticks_left r <= RSDL_PROC_QUANTUM.

(** [qs] are the queued processes, [run] the process on the CPU. *)
Record procs_ok (ps : list proc) (qs : list nat) (run : option nat) : Prop := {
  pk_len : length ps = NPROC;
  pk_files : forall i r, ps !! i = Some r -> length (ofile r) = NOFILE;
  pk_queued : forall i r, ps !! i = Some r -> i ∈ qs <-> live (state r) = true;
  pk_ok : forall i r, ps !! i = Some r -> live (state r) = true -> proc_ok r;
  pk_quantum : forall i r, ps !! i = Some r -> live (state r) = true -> run <> Some i -> quantum_ok r;
  pk_running : forall i r, ps !! i = Some r -> state r = RUNNING -> run = Some i
}.

(** Process [p] has the CPU and was taken from level [k] of the active set. *)
Record on_cpu (ps : list proc) (Q : sets) (p k : nat) : Prop := {
  oc_level : (k < RSDL_LEVELS)%nat;
  oc_proc : exists r, ps !! p = Some r /\ 0 <= ticks_left r <= RSDL_PROC_QUANTUM /\
    (state r = ZOMBIE \/ live (state r) = true /\ p ∈ level_procs k Q.1)
}.

Definition table (ps : list proc) (Q : sets) (run : option (nat * nat)) : Prop :=
  queues_ok Q (snd <$> run) /\ procs_ok ps (queued Q) (fst <$> run) /\
  match run with Some (p, k) => on_cpu ps Q p k | None => True end.

(** ** Moves on the queues *)

Lemma level_procs_lookup k (A : list lvl) v : A !! k = Some v -> level_procs k A = v.2.
Proof. intros Hk. unfold level_procs. by rewrite Hk. Qed.

Lemma queues_ok_push Q ex l p : queues_ok Q ex -> loc_ok l -> p ∉ queued Q -> (p < NPROC)%nat ->
  (forall k v, l = Act k -> Q.1 !! k = Some v -> 0 < v.1) -> queues_ok (push_at l p Q) ex.
Proof.
  intros [Hok He Ha Hs] Hl Hp Hlt Hq. constructor.
  - by apply sets_ok_push.
  - destruct l; simpl; [done|]. intros j v (w & Hw & ->)%alter_push_fst. eauto.
  - destruct l; simpl; [|done]. intros j v (w & Hw & ->)%alter_push_fst. eauto.
  - destruct l as [k|k]; simpl; [|done]. intros j v Hj Hz Hex.
    destruct (decide (j = k)) as [->|Hne].
    + destruct (alter_push_fst _ _ _ _ _ Hj) as (w & Hw & HE). specialize (Hq k w eq_refl Hw). lia.
    + rewrite list_lookup_alter_ne in Hj by done. eauto.
Qed.

Lemma target_quantum start dl A k v : target start dl A = Act k -> A !! k = Some v -> 0 < v.1.
Proof.
  unfold target. destruct (quantum_from start A) as [j|] eqn:Hj; [|done].
  intros [= ->] Hv. apply quantum_from_Some in Hj as (_ & (w & Hw & ?) & _). by simplify_eq.
Qed.

Lemma queues_ok_place Q ex start dl p : queues_ok Q ex -> (dl < RSDL_LEVELS)%nat ->
  p ∉ queued Q -> (p < NPROC)%nat -> queues_ok (place start dl p Q) ex.
Proof.
  intros H Hd Hp Hlt. apply queues_ok_push; try done; [by apply target_ok|].
  intros k v Hk Hv. by eapply target_quantum.
Qed.

Lemma place_queued Q start dl p : sets_ok Q -> (dl < RSDL_LEVELS)%nat ->
  queued (place start dl p Q) ≡ₚ p :: queued Q.
Proof. intros Hok Hd. apply push_at_queued; [by apply target_ok|apply Hok|apply Hok]. Qed.

Lemma queues_ok_place_all ps start lst : forall Q ex, queues_ok Q ex -> NoDup lst ->
  (forall p, p ∈ lst -> p ∉ queued Q) ->
  (forall p, p ∈ lst -> (p < NPROC)%nat /\ (dlevel ps p < RSDL_LEVELS)%nat) ->
  queues_ok (place_all start ps lst Q) ex.
Proof.
  induction lst as [|p lst IH]; intros Q ex H Hn Hd Hb; simpl; [done|].
  apply NoDup_cons in Hn as [Hp Hn]. destruct (Hb p) as [Hlt Hdl]; [set_solver|].
  apply IH; try done.
  - apply queues_ok_place; try done. set_solver.
  - intros q Hq. rewrite (place_queued Q) by (done || apply H).
    intros [->|Hin]%elem_of_cons; [done|]. apply (Hd q); set_solver.
  - set_solver.
Qed.

Lemma queues_ok_clear Q k t lst : queues_ok Q (Some k) -> Q.1 !! k = Some (t, lst) ->
  queues_ok (clear_level k Q.1, Q.2) None.
Proof.
  intros [Hok He Ha Hs] Hk. rewrite <- (put_loc_clear k Q t lst Hk).
  destruct (sets_ok_clear true (Act k) Q t lst Hok Hk) as (Hok1 & _). constructor; try done; simpl;
    intros j v Hj; destruct (decide (j = k)) as [->|Hne];
    rewrite ?list_lookup_insert_eq in Hj by (by eapply lookup_lt_Some);
    rewrite ?list_lookup_insert_ne in Hj by done; simplify_eq/=.
  - by apply (Ha k (t, lst)).
  - eauto.
  - done.
  - intros Hz _. eapply Hs; [done..|]. congruence.
Qed.

Lemma queues_ok_remove Q ex k t l1 p l2 : queues_ok Q ex -> Q.1 !! k = Some (t, l1 ++ p :: l2) ->
  queues_ok (put_loc (Act k) (t, l1 ++ l2) Q) ex.
Proof.
  intros [Hok He Ha Hs] Hk. destruct (sets_ok_remove true (Act k) Q t l1 p l2 Hok Hk) as (Hok1 & _).
  constructor; try done; simpl;
    intros j v Hj; destruct (decide (j = k)) as [->|Hne];
    rewrite ?list_lookup_insert_eq in Hj by (by eapply lookup_lt_Some);
    rewrite ?list_lookup_insert_ne in Hj by done; simplify_eq/=; eauto.
  - by apply (Ha k (t, l1 ++ p :: l2)).
  - intros Hz Hex. specialize (Hs k _ Hk Hz Hex). by destruct l1.
Qed.

(** The running process's level has quantum again, or still. *)
Lemma queues_ok_quantum Q k t lst : queues_ok Q (Some k) -> Q.1 !! k = Some (t, lst) -> 0 < t ->
  queues_ok Q None.
Proof.
  intros [Hok He Ha Hs] Hk Ht. constructor; try done. intros j v Hj Hz _.
  destruct (decide (j = k)) as [->|Hne]; [simplify_eq/=; lia|]. eapply Hs; [done..|]. congruence.
Qed.

Lemma queues_ok_relax Q ex : queues_ok Q None -> queues_ok Q ex.
Proof. intros [Hok He Ha Hs]. constructor; try done. intros k v Hk Hz _. by eapply Hs. Qed.

(** Moving the processes of a level down loses none and duplicates none. *)
Lemma filter_ne_perm p (lst : list nat) : NoDup lst -> p ∈ lst ->
  filter (fun q => q <> p) lst ++ [p] ≡ₚ lst.
Proof.
  intros Hn (l1 & l2 & ->)%list_elem_of_split. apply NoDup_app in Hn as (H1 & Hd & [H2 H3]%NoDup_cons).
  rewrite filter_app, filter_cons_False by (by intros ?).
  rewrite !filter_ne_notin by (done || (intros Hin; apply (Hd p Hin), list_elem_of_here)).
  rewrite <- app_assoc, (Permutation_app_comm l2 [p]). done.
Qed.

Lemma migrate_ok ps Q p k t lst (dead : bool) :
  queues_ok Q (Some k) -> Q.1 !! k = Some (t, lst) ->
  (forall q, q ∈ lst -> (dlevel ps q < RSDL_LEVELS)%nat) ->
  (if dead then p ∉ lst else p ∈ lst) ->
  queues_ok (migrate_spec k p dead ps Q) None /\ queued (migrate_spec k p dead ps Q) ≡ₚ queued Q.
Proof.
  intros H Hk Hdl Hin. pose proof (qi_sets _ _ H) as Hok.
  destruct (sets_ok_clear true (Act k) Q t lst Hok Hk) as (Hok1 & Hnd & Hdisj).
  pose proof (queued_clear (Act k) Q t lst Hk) as Hq. pose proof (queues_ok_clear Q k t lst H Hk) as Hc.
  rewrite (put_loc_clear k Q t lst Hk) in *.
  assert (filter (fun q => q <> p) lst ++ (if dead then [] else [p]) ≡ₚ lst) as HL.
  { destruct dead; [by rewrite app_nil_r, filter_ne_notin|by apply filter_ne_perm]. }
  unfold migrate_spec. rewrite (level_procs_lookup k Q.1 _ Hk). simpl snd.
  set (L := filter _ _ ++ _) in *.
  assert (forall q, q ∈ L -> q ∈ lst) as HLin by (intros q; by rewrite HL).
  assert (forall q, q ∈ L -> (q < NPROC)%nat /\ (dlevel ps q < RSDL_LEVELS)%nat) as Hb.
  { intros q Hql%HLin. split; [|auto]. apply (so_bound Hok), (queued_in Q k (t, lst)); auto. }
  assert (NoDup L) as HnL by (by rewrite HL). split.
  - apply queues_ok_place_all; eauto.
  - destruct (place_all_queued true (fun _ => S k) ps L (clear_level k Q.1, Q.2)) as [_ Hperm]; eauto.
    rewrite Hperm, HL, Hq. done.
Qed.

Lemma requeue_ok Q k p t l1 l2 dl start :
  queues_ok Q (Some k) -> Q.1 !! k = Some (t, l1 ++ p :: l2) -> 0 < t -> (dl < RSDL_LEVELS)%nat ->
  queues_ok (requeue_spec start k p dl Q) None /\ queued (requeue_spec start k p dl Q) ≡ₚ queued Q.
Proof.
  intros H Hk Ht Hd. pose proof (qi_sets _ _ H) as Hok.
  destruct (sets_ok_clear true (Act k) Q t _ Hok Hk) as (_ & Hnd & _).
  destruct (sets_ok_remove true (Act k) Q t l1 p l2 Hok Hk) as (Hok1 & Hp & Hlt).
  pose proof (queued_remove (Act k) Q t l1 p l2 Hk) as Hq.
  pose proof (queues_ok_remove Q None k t l1 p l2 (queues_ok_quantum _ _ _ _ H Hk Ht) Hk) as Hr.
  rewrite (remove_from_eq k p Q t l1 l2 Hk Hnd) in *. unfold requeue_spec. split.
  - by apply queues_ok_place.
  - by rewrite place_queued, Hq.
Qed.

(** The exchange of the sets, in closed form: every level of the new active set
    gets the processes of its own, in the order of the old levels; the new expired
    set is empty, with full quanta. *)
Lemma swap_closed ps Q : queues_ok Q None ->
  (forall p, p ∈ concat (Q.1.*2) -> (dlevel ps p < RSDL_LEVELS)%nat) ->
  swap_spec ps Q =
    (gather ps (concat (Q.1.*2)) Q.2, replicate RSDL_LEVELS (RSDL_LEVEL_QUANTUM, [])).
Proof.
  intros H Hd. pose proof (qi_sets _ _ H) as Hok. unfold swap_spec.
  rewrite drain_levels; simpl fst; simpl snd; try done.
  - rewrite drop_0, take_ge by (by rewrite length_fmap, (so_lenA Hok)).
    f_equal. rewrite take_0, drop_ge by (by rewrite (so_lenA Hok)). by rewrite app_nil_r.
  - apply Hok.
  - apply Hok.
  - apply Hok.
Qed.

Lemma swap_queued ps Q : sets_ok Q ->
  (forall p, p ∈ concat (Q.1.*2) -> (dlevel ps p < RSDL_LEVELS)%nat) ->
  sets_wf false (swap_spec ps Q) /\ queued (swap_spec ps Q) ≡ₚ queued Q.
Proof.
  intros Hok Hd. assert (forall n j Q, (j + n <= RSDL_LEVELS)%nat -> sets_wf false Q ->
    (forall p, p ∈ concat (Q.2.*2) -> (dlevel ps p < RSDL_LEVELS)%nat) ->
    sets_wf false (foldl (drain_level ps) Q (seq j n)) /\
    queued (foldl (drain_level ps) Q (seq j n)) ≡ₚ queued Q) as Hloop.
  { induction n as [|n IH]; intros j Q0 Hj H0 Hd0; [done|]. simpl.
    destruct (drain_level_wf ps Q0 j H0 ltac:(lia) Hd0) as [H1 Hp1].
    destruct (IH (S j) (drain_level ps Q0 j)) as [H2 Hp2]; [lia|done| |].
    - destruct (lookup_lt_is_Some_2 Q0.2 j) as [[t lst] Hk]; [rewrite (so_lenX H0); lia|].
      rewrite (drain_level_gather ps Q0 j t lst); [|apply H0|apply H0|done|].
      + intros p Hp. apply Hd0. apply concat_insert_sub in Hp; [done|]. rewrite (so_lenX H0). lia.
      + intros p Hp. apply Hd0. by eapply level_elem.
    - split; [done|]. by rewrite Hp2, Hp1. }
  destruct (Hloop RSDL_LEVELS 0%nat (Q.2, Q.1)) as [H1 H2]; [done|by apply sets_wf_swap|done|].
  split; [done|]. etrans; [exact H2|]. apply Permutation_app_comm.
Qed.

Lemma swap_ok ps Q : queues_ok Q None ->
  (forall p, p ∈ concat (Q.1.*2) -> (dlevel ps p < RSDL_LEVELS)%nat) ->
  queues_ok (swap_spec ps Q) None /\ queued (swap_spec ps Q) ≡ₚ queued Q.
Proof.
  intros H Hd. destruct (swap_queued ps Q (qi_sets _ _ H) Hd) as [[HA HX Hn Hb _] Hp].
  split; [|done]. pose proof (swap_closed ps Q H Hd) as HE.
  assert (forall k v, (swap_spec ps Q).1 !! k = Some v -> v.1 = RSDL_LEVEL_QUANTUM) as Hfull.
  { rewrite HE. simpl. intros k v. unfold gather. rewrite list_lookup_imap.
    intros (w & Hw & ->)%fmap_Some. simpl. by apply (qi_expired _ _ H k). }
  assert (forall k v, (swap_spec ps Q).2 !! k = Some v -> v.1 = RSDL_LEVEL_QUANTUM) as Hexp.
  { rewrite HE. cbn [snd]. intros k v [-> _]%lookup_replicate. done. }
  constructor.
  - constructor; try done. intros k v Hk. by rewrite (Hexp k v Hk).
  - done.
  - intros k v Hk. rewrite (Hfull k v Hk). unfold RSDL_LEVEL_QUANTUM. lia.
  - intros k v Hk. rewrite (Hfull k v Hk). done.
Qed.

(** ** Moves on the table *)

Lemma procs_ok_perm ps qs qs' run : qs ≡ₚ qs' -> procs_ok ps qs run -> procs_ok ps qs' run.
Proof. intros HE []. constructor; try done. intros i r Hi. rewrite <- HE. auto. Qed.

Lemma replenish_inv l ps i r : replenish l ps !! i = Some r -> exists r0, ps !! i = Some r0 /\
  r = (if bool_decide (i ∈ l) then set_ticks_left RSDL_PROC_QUANTUM r0 else r0).
Proof. rewrite replenish_lookup. intros (r0 & H0 & ->)%fmap_Some. eauto. Qed.

Lemma quantum_ok_full r : quantum_ok (set_ticks_left RSDL_PROC_QUANTUM r).
Proof. unfold quantum_ok, RSDL_PROC_QUANTUM; simpl. lia. Qed.

(** Changing entries one by one, with the same processes live. *)
Lemma procs_ok_map ps ps' qs run run' : procs_ok ps qs run -> length ps' = length ps ->
  (forall i r', ps' !! i = Some r' -> exists r, ps !! i = Some r /\
     length (ofile r') = length (ofile r) /\ live (state r') = live (state r) /\
     (live (state r') = true -> proc_ok r -> proc_ok r') /\
     (live (state r') = true -> run' <> Some i -> quantum_ok r') /\
     (state r' = RUNNING -> run' = Some i)) ->
  procs_ok ps' qs run'.
Proof.
  intros [Hl Hf Hq Ho Ht Hr] Hlen H. constructor.
  - congruence.
  - intros i r' Hi. destruct (H i r' Hi) as (r & H0 & -> & _). by apply (Hf i).
  - intros i r' Hi. destruct (H i r' Hi) as (r & H0 & _ & -> & _). by apply Hq.
  - intros i r' Hi Hlv. destruct (H i r' Hi) as (r & H0 & _ & HE & Hok & _).
    apply Hok; [done|]. apply (Ho i); [done|congruence].
  - intros i r' Hi Hlv Hne. destruct (H i r' Hi) as (r & H0 & _ & _ & _ & Hqt & _). auto.
  - intros i r' Hi Hrun. destruct (H i r' Hi) as (r & H0 & _ & _ & _ & _ & Hrn). auto.
Qed.

Lemma proc_ok_replenish r : proc_ok r -> proc_ok (set_ticks_left RSDL_PROC_QUANTUM r).
Proof. by intros []. Qed.

(** The running process gives up the CPU with a quantum, or is dead. *)
Lemma procs_ok_stop ps qs p r l : procs_ok ps qs (Some p) -> ps !! p = Some r -> state r <> RUNNING ->
  (p ∈ l \/ quantum_ok r \/ state r = ZOMBIE) -> procs_ok (replenish l ps) qs None.
Proof.
  intros H Hp Hns Hc. apply (procs_ok_map ps _ _ _ _ H); [apply length_imap|].
  intros i r' (r0 & H0 & ->)%replenish_inv. exists r0.
  split; [done|]. split; [by case_bool_decide|]. split; [by case_bool_decide|]. split; [|split].
  - intros _ Hok. case_bool_decide; [by apply proc_ok_replenish|done].
  - intros Hlv _. case_bool_decide as Hi; [apply quantum_ok_full|].
    destruct (decide (i = p)) as [->|Hne]; [|apply (pk_quantum _ _ _ H i r0 H0 Hlv); congruence].
    simplify_eq. destruct Hc as [?|[?|Hz]]; [done|done|]. by rewrite Hz in Hlv.
  - intros Hrun. assert (state r0 = RUNNING) as Hrun0 by (by case_bool_decide).
    pose proof (pk_running _ _ _ H i r0 H0 Hrun0). by simplify_eq.
Qed.

Lemma procs_ok_replenish ps qs l : procs_ok ps qs None -> procs_ok (replenish l ps) qs None.
Proof.
  intros H. apply (procs_ok_map ps _ _ _ _ H); [apply length_imap|].
  intros i r' (r0 & H0 & ->)%replenish_inv. exists r0.
  split; [done|]. split; [by case_bool_decide|]. split; [by case_bool_decide|]. split; [|split].
  - intros _ Hok. case_bool_decide; [by apply proc_ok_replenish|done].
  - intros Hlv _. case_bool_decide as Hi; [apply quantum_ok_full|].
    by apply (pk_quantum _ _ _ H i r0 H0 Hlv).
  - intros Hrun. apply (pk_running _ _ _ H i r0 H0). by case_bool_decide.
Qed.

(** Changing the entry of one process. *)
Lemma insert_inv {X : Type} (l : list X) p x0 x i y : l !! p = Some x0 -> <[p := x]> l !! i = Some y ->
  i = p /\ y = x \/ i <> p /\ l !! i = Some y.
Proof.
  intros Hp Hi. destruct (decide (i = p)) as [->|Hne].
  - rewrite list_lookup_insert_eq in Hi by (by eapply lookup_lt_Some). left. by simplify_eq.
  - rewrite list_lookup_insert_ne in Hi by done. by right.
Qed.

(** ** Moves of the scheduler on the table *)

Lemma table_dlevel ps Q run p : table ps Q run -> p ∈ queued Q ->
  exists r, ps !! p = Some r /\ proc_ok r /\ (dlevel ps p < RSDL_LEVELS)%nat.
Proof.
  intros (Hq & Hp & _) Hin. pose proof (so_bound (qi_sets _ _ Hq) p Hin) as Hlt.
  destruct (lookup_lt_is_Some_2 ps p) as [r Hr]; [by rewrite (pk_len _ _ _ Hp)|].
  assert (proc_ok r) as Hok.
  { apply (pk_ok _ _ _ Hp p r Hr). by apply (pk_queued _ _ _ Hp p r Hr). }
  exists r. split; [done|]. split; [done|]. eapply dlevel_lt; [done|apply Hok].
Qed.

Lemma pick_in_Some ps l p : pick_in ps l = Some p ->
  exists l1 l2, l = l1 ++ p :: l2 /\ can_run ps p = true /\ forall p', p' ∈ l1 -> can_run ps p' = false.
Proof.
  unfold pick_in. induction l as [|q l IH]; simpl; [done|]. destruct (can_run ps q) eqn:Hq.
  - intros [= <-]. exists [], l. split; [done|]. split; [done|]. by intros p' ?%elem_of_nil.
  - intros (l1 & l2 & -> & Hc & Hb)%IH. exists (q :: l1), l2. split; [done|]. split; [done|].
    intros p' [->|Hp']%elem_of_cons; auto.
Qed.

Lemma pick_in_None ps l p : pick_in ps l = None -> p ∈ l -> can_run ps p = false.
Proof. unfold pick_in. rewrite first_some_None. intros Hn Hp. specialize (Hn p Hp). by destruct (can_run ps p). Qed.

Lemma pick_level_None ps (A : list lvl) (k : nat) v p :
  (match A !! k with
   | Some v => if v.1 <=? 0 then None else (fun p => (k, p)) <$> pick_in ps v.2
   | None => None end) = None ->
  A !! k = Some v -> 0 < v.1 -> p ∈ v.2 -> can_run ps p = false.
Proof.
  intros Hn Hk Hv Hp. rewrite Hk, (proj2 (Z.leb_gt _ _) Hv) in Hn.
  destruct (pick_in ps v.2) eqn:Hpi; [done|]. by eapply pick_in_None.
Qed.

Lemma pick_spec_best ps A k p : pick_spec ps A = Some (k, p) ->
  exists t l1 l2, A !! k = Some (t, l1 ++ p :: l2) /\ 0 < t /\ can_run ps p = true /\
    (forall p', p' ∈ l1 -> can_run ps p' = false) /\
    forall j v p', (j < k)%nat -> A !! j = Some v -> 0 < v.1 -> p' ∈ v.2 -> can_run ps p' = false.
Proof.
  unfold pick_spec. intros (k' & Hk & Hf & Hb)%first_some_seq_inv.
  destruct (A !! k') as [[t l]|] eqn:Hv; [|done]. simpl in Hf. destruct (t <=? 0) eqn:Hz; [done|].
  apply Z.leb_gt in Hz. apply fmap_Some in Hf as (p' & Hp & [= -> ->]).
  destruct (pick_in_Some _ _ _ Hp) as (l1 & l2 & -> & Hc & Hl1). exists t, l1, l2. do 4 (split; [done|]).
  intros j v q Hj Hjv Hpos Hq. apply (pick_level_None ps A j v); auto. apply Hb. lia.
Qed.

Lemma pick_spec_none ps A j v p : pick_spec ps A = None -> length A = RSDL_LEVELS ->
  A !! j = Some v -> 0 < v.1 -> p ∈ v.2 -> can_run ps p = false.
Proof.
  unfold pick_spec. rewrite first_some_None. intros Hn Hl Hj. apply (pick_level_None ps A j v); [|done].
  apply Hn. apply elem_of_seq. apply lookup_lt_Some in Hj. lia.
Qed.

Lemma pick_spec_Some ps A k p : pick_spec ps A = Some (k, p) ->
  exists v r, A !! k = Some v /\ 0 < v.1 /\ p ∈ v.2 /\ ps !! p = Some r /\
    state r = RUNNABLE /\ 0 < ticks_left r.
Proof.
  unfold pick_spec. intros (k' & Hk & Hf & _)%first_some_seq_inv.
  destruct (A !! k') as [v|] eqn:Hv; [|done]. destruct (v.1 <=? 0) eqn:Hz; [done|].
  apply Z.leb_gt in Hz. apply fmap_Some in Hf as (p' & Hp & [= -> ->]).
  unfold pick_in in Hp. apply first_some_Some in Hp as (p'' & Hin & Hc).
  destruct (can_run ps p'') eqn:Hcr; [|done]. simplify_eq. unfold can_run in Hcr.
  destruct (ps !! p') as [r|] eqn:Hr; [|done]. apply andb_true_iff in Hcr as [Hst Ht].
  exists v, r. apply bool_decide_eq_true in Hst. apply Z.ltb_lt in Ht. done.
Qed.

Lemma table_dispatch ps Q k p : table ps Q None -> pick_spec ps Q.1 = Some (k, p) ->
  exists r v, ps !! p = Some r /\ proc_ok r /\ quantum_ok r /\ state r = RUNNABLE /\
    Q.1 !! k = Some v /\ 0 < v.1 /\ p ∈ v.2 /\ table (<[p := set_state RUNNING r]> ps) Q (Some (p, k)).
Proof.
  intros (Hq & Hp & _) (v & r & Hv & Hz & Hin & Hr & Hst & Ht)%pick_spec_Some.
  assert (live (state r) = true) as Hlv by (by rewrite Hst).
  assert (proc_ok r) as Hok by (by apply (pk_ok _ _ _ Hp p r Hr)).
  assert (quantum_ok r) as Hqt by (by apply (pk_quantum _ _ _ Hp p r Hr)).
  exists r, v. do 7 (split; [done|]). split; [|split].
  - by apply queues_ok_relax.
  - apply (procs_ok_map ps _ _ _ _ Hp); [apply length_insert|].
    intros i r' [[-> ->]|[Hne Hi]]%(insert_inv _ _ _ _ _ _ Hr).
    + exists r. rewrite Hst. do 3 (split; [done|]). split; [by intros _ []|done].
    + exists r'. do 4 (split; [done|]). split.
      * intros Hlv' _. by apply (pk_quantum _ _ _ Hp i r').
      * intros Hrun. by pose proof (pk_running _ _ _ Hp i r' Hi Hrun).
  - constructor.
    + apply lookup_lt_Some in Hv. by rewrite (so_lenA (qi_sets _ _ Hq)) in Hv.
    + eexists. split; [apply list_lookup_insert_eq; by eapply lookup_lt_Some|].
      unfold quantum_ok in Hqt. simpl. split; [lia|]. right. split; [done|].
      by rewrite (level_procs_lookup k Q.1 v Hv).
Qed.

(** Dead processes are in no queue, live ones in the queue of their level. *)
Lemma on_cpu_in ps Q p k r v : table ps Q (Some (p, k)) -> ps !! p = Some r -> Q.1 !! k = Some v ->
  if bool_decide (state r = ZOMBIE) then p ∉ v.2 else p ∈ v.2 /\ live (state r) = true.
Proof.
  intros (Hq & Hp & [_ (r' & Hr & _ & Hc)]) Hpr Hv.
  assert (r' = r) as -> by congruence.
  rewrite (level_procs_lookup k Q.1 v Hv) in Hc. case_bool_decide as Hz.
  - intros Hin. assert (p ∈ queued Q) as Hin' by (apply (queued_in Q k v); auto).
    apply (pk_queued _ _ _ Hp p r Hpr) in Hin'. by rewrite Hz in Hin'.
  - by destruct Hc as [?|[? ?]].
Qed.

Lemma table_migrate ps Q p k r t lst : table ps Q (Some (p, k)) -> ps !! p = Some r ->
  state r <> RUNNING -> Q.1 !! k = Some (t, lst) ->
  table (replenish lst ps) (migrate_spec k p (bool_decide (state r = ZOMBIE)) ps Q) None /\
  queued (migrate_spec k p (bool_decide (state r = ZOMBIE)) ps Q) ≡ₚ queued Q.
Proof.
  intros Htab Hpr Hns Hk. pose proof (on_cpu_in _ _ _ _ _ _ Htab Hpr Hk) as Hin. simpl in Hin.
  assert (forall q, q ∈ lst -> (dlevel ps q < RSDL_LEVELS)%nat) as Hdl.
  { intros q Hql. destruct (table_dlevel ps Q _ q Htab) as (? & _ & _ & ?); [|done].
    apply (queued_in Q k (t, lst)); auto. }
  destruct Htab as (Hq & Hp & _).
  destruct (migrate_ok ps Q p k t lst (bool_decide (state r = ZOMBIE)) Hq Hk Hdl) as [Hq' Hperm].
  { case_bool_decide; [done|by destruct Hin]. }
  split; [|done]. split; [done|]. split; [|done].
  apply (procs_ok_perm _ (queued Q)); [by rewrite Hperm|]. apply (procs_ok_stop ps _ p r); try done.
  case_bool_decide; [by right; right|]. left. by destruct Hin.
Qed.

Lemma table_requeue ps Q p k r t l1 l2 : table ps Q (Some (p, k)) -> ps !! p = Some r ->
  live (state r) = true -> state r <> RUNNING -> Q.1 !! k = Some (t, l1 ++ p :: l2) -> 0 < t ->
  let Q' := requeue_spec (requeue_start k (ticks_left r)) k p (Z.to_nat (default_level r)) Q in
  table (requeue_procs k p r ps Q) Q' None /\ queued Q' ≡ₚ queued Q.
Proof.
  intros Htab Hpr Hlv Hns Hk Ht Q'. destruct Htab as (Hq & Hp & Hoc).
  pose proof (pk_ok _ _ _ Hp p r Hpr Hlv) as Hok. destruct (po_level _ Hok).
  destruct (requeue_ok Q k p t l1 l2 (Z.to_nat (default_level r)) (requeue_start k (ticks_left r)) Hq Hk Ht)
    as [Hq' Hperm]; [lia|].
  split; [|done]. split; [done|]. split; [|done].
  apply (procs_ok_perm _ (queued Q)); [by symmetry|].
  destruct Hoc as [_ (r' & Hr' & Hb & _)]. assert (r' = r) as -> by congruence. unfold requeue_procs.
  destruct (ticks_left r <=? 0) eqn:Hz; simpl; [apply (procs_ok_stop ps _ p r); try done; left; apply list_elem_of_here|].
  apply Z.leb_gt in Hz. assert (quantum_ok r) by (unfold quantum_ok; lia).
  destruct (is_exp _).
  - apply (procs_ok_stop ps _ p r); try done. left. apply list_elem_of_here.
  - rewrite <- (replenish_nil ps). apply (procs_ok_stop ps _ p r); try done. by right; left.
Qed.

Lemma table_requeue_dead ps Q p k r t lst : table ps Q (Some (p, k)) -> ps !! p = Some r ->
  state r = ZOMBIE -> Q.1 !! k = Some (t, lst) -> 0 < t ->
  table (if ticks_left r <=? 0 then replenish [p] ps else ps) Q None.
Proof.
  intros (Hq & Hp & _) Hpr Hz Hk Ht. split; [by eapply queues_ok_quantum|]. split; [|done].
  assert (forall l, procs_ok (replenish l ps) (queued Q) None) as Hstop.
  { intros l. apply (procs_ok_stop ps _ p r); try done; [by rewrite Hz|]. by right; right. }
  destruct (ticks_left r <=? 0); [apply Hstop|]. rewrite <- (replenish_nil ps). apply Hstop.
Qed.

Lemma table_swap ps Q : table ps Q None ->
  table (replenish (concat (Q.1.*2)) ps) (swap_spec ps Q) None /\ queued (swap_spec ps Q) ≡ₚ queued Q.
Proof.
  intros Htab. destruct (swap_ok ps Q (proj1 Htab)) as [Hq' Hperm].
  { intros p Hin. destruct (table_dlevel ps Q None p Htab) as (? & _ & _ & ?); [|done].
    unfold queued. apply elem_of_app. by left. }
  split; [|done]. split; [done|]. split; [|done]. destruct Htab as (_ & Hp & _).
  apply (procs_ok_perm _ (queued Q)); [by rewrite Hperm|]. by apply procs_ok_replenish.
Qed.

(** After the exchange every process is in the active set, at a level with a full quantum. *)
Lemma swap_all_active ps Q p : table ps Q None -> p ∈ queued Q ->
  exists k v, (swap_spec ps Q).1 !! k = Some v /\ v.1 = RSDL_LEVEL_QUANTUM /\ p ∈ v.2.
Proof.
  intros Htab Hp. assert (forall p, p ∈ concat (Q.1.*2) -> (dlevel ps p < RSDL_LEVELS)%nat) as Hd.
  { intros q Hin. destruct (table_dlevel ps Q None q Htab) as (? & _ & _ & ?); [|done].
    unfold queued. apply elem_of_app. by left. }
  rewrite <- (proj2 (table_swap ps Q Htab)) in Hp. pose proof (swap_closed ps Q (proj1 Htab) Hd) as HE.
  rewrite HE in Hp |- *. unfold queued in Hp. simpl in Hp. rewrite app_nil_r in Hp.
  apply list_elem_of_In, in_concat in Hp as (l & Hl & Hin). apply list_elem_of_In in Hl, Hin.
  apply list_elem_of_fmap in Hl as (v & -> & Hv). apply list_elem_of_lookup_1 in Hv as (k & Hk).
  exists k, v. split; [exact Hk|]. split; [|done]. unfold gather in Hk. rewrite list_lookup_imap in Hk.
  apply fmap_Some in Hk as (w & Hw & ->). simpl. by apply (qi_expired _ _ (proj1 Htab) k).
Qed.

(** ** A new process *)

Lemma level_procs_push l p k Q q : q ∈ level_procs k Q.1 -> q ∈ level_procs k (push_at l p Q).1.
Proof.
  destruct l as [j|j]; simpl; [|done]. unfold level_procs. rewrite list_lookup_alter.
  destruct (decide (j = k)) as [->|]; [|done]. destruct (Q.1 !! k); simpl; [|done].
  intros Hq. apply elem_of_app. by left.
Qed.

Lemma push_at_level l p Q k v : Q.1 !! k = Some v -> exists v', (push_at l p Q).1 !! k = Some v' /\ v'.1 = v.1.
Proof.
  intros Hv. assert ((push_at l p Q).1.*1 !! k = Some v.1) as HE
    by (rewrite push_at_quanta, list_lookup_fmap, Hv; done).
  rewrite list_lookup_fmap in HE. apply fmap_Some in HE as (v' & Hv' & ->). eauto.
Qed.

Lemma table_new ps Q run np r r' : table ps Q run -> ps !! np = Some r -> live (state r) = false ->
  fst <$> run <> Some np -> state r' = RUNNABLE -> proc_ok r' -> quantum_ok r' -> length (ofile r') = NOFILE ->
  let dl := Z.to_nat (default_level r') in
  (np ∉ queued Q) /\ table (<[np := r']> ps) (place dl dl np Q) run /\
  queued (place dl dl np Q) ≡ₚ np :: queued Q.
Proof.
  intros (Hq & Hp & Ho) Hnp Hd Hne Hst Hok Hqt Hf dl.
  assert (np ∉ queued Q) as Hnq by (rewrite (pk_queued _ _ _ Hp np r Hnp); by rewrite Hd).
  assert (np < NPROC)%nat as Hlt by (rewrite <- (pk_len _ _ _ Hp); by eapply lookup_lt_Some).
  assert (dl < RSDL_LEVELS)%nat as Hdl by (unfold dl; destruct (po_level _ Hok); lia).
  pose proof (place_queued Q dl dl np (qi_sets _ _ Hq) Hdl) as Hperm.
  split; [done|]. split; [|done]. split; [by apply queues_ok_place|]. split.
  - constructor.
    + rewrite length_insert. apply Hp.
    + intros i x [[-> ->]|[Hi Hx]]%(insert_inv _ _ _ _ _ _ Hnp); [done|]. by apply (pk_files _ _ _ Hp i).
    + intros i x Hx. rewrite Hperm, elem_of_cons.
      apply (insert_inv _ _ _ _ _ _ Hnp) in Hx as [[-> ->]|[Hi Hx]]; [rewrite Hst; naive_solver|].
      rewrite <- (pk_queued _ _ _ Hp i x Hx). naive_solver.
    + intros i x [[-> ->]|[Hi Hx]]%(insert_inv _ _ _ _ _ _ Hnp); [done|]. by apply (pk_ok _ _ _ Hp i).
    + intros i x [[-> ->]|[Hi Hx]]%(insert_inv _ _ _ _ _ _ Hnp); [done|]. by apply (pk_quantum _ _ _ Hp i).
    + intros i x [[-> ->]|[Hi Hx]]%(insert_inv _ _ _ _ _ _ Hnp); [by rewrite Hst|].
      by apply (pk_running _ _ _ Hp i x).
  - destruct run as [[p k]|]; [|done]. destruct Ho as [Hk (rp & Hrp & Hb & Hc)]. constructor; [done|]. exists rp.
    rewrite list_lookup_insert_ne by (simpl in Hne; congruence). split; [done|]. split; [done|].
    destruct Hc as [?|[? ?]]; [by left|]. right. split; [done|]. by apply level_procs_push.
Qed.

(** ** A process that exits *)

Lemma table_exit ps Q p k r r' t l1 l2 : table ps Q (Some (p, k)) -> ps !! p = Some r -> live (state r) = true ->
  Q.1 !! k = Some (t, l1 ++ p :: l2) -> state r' = ZOMBIE -> length (ofile r') = length (ofile r) ->
  ticks_left r' = ticks_left r ->
  table (<[p := r']> ps) (put_loc (Act k) (t, l1 ++ l2) Q) (Some (p, k)) /\
  queued Q ≡ₚ p :: queued (put_loc (Act k) (t, l1 ++ l2) Q).
Proof.
  intros (Hq & Hp & [Hk (r0 & Hr0 & Hb & _)]) Hr Hlv Hv Hz Hf Ht. assert (r0 = r) as -> by congruence.
  pose proof (queued_remove (Act k) Q t l1 p l2 Hv) as Hperm.
  destruct (sets_ok_remove true (Act k) Q t l1 p l2 (qi_sets _ _ Hq) Hv) as (_ & Hnq & _).
  split; [|done]. split; [by apply (queues_ok_remove Q _ k t l1 p l2)|]. split.
  - constructor.
    + rewrite length_insert. apply Hp.
    + intros i x [[-> ->]|[Hi Hx]]%(insert_inv _ _ _ _ _ _ Hr); [rewrite Hf; by apply (pk_files _ _ _ Hp p)|by apply (pk_files _ _ _ Hp i)].
    + intros i x [[-> ->]|[Hi Hx]]%(insert_inv _ _ _ _ _ _ Hr); [by rewrite Hz|].
      rewrite <- (pk_queued _ _ _ Hp i x Hx), Hperm, elem_of_cons. naive_solver.
    + intros i x [[-> ->]|[Hi Hx]]%(insert_inv _ _ _ _ _ _ Hr); [by rewrite Hz|]. by apply (pk_ok _ _ _ Hp i).
    + intros i x [[-> ->]|[Hi Hx]]%(insert_inv _ _ _ _ _ _ Hr); [by rewrite Hz|]. by apply (pk_quantum _ _ _ Hp i).
    + intros i x [[-> ->]|[Hi Hx]]%(insert_inv _ _ _ _ _ _ Hr); [by rewrite Hz|]. by apply (pk_running _ _ _ Hp i x).
  - constructor; [done|]. exists r'. rewrite list_lookup_insert_eq by (by eapply lookup_lt_Some).
    split; [done|]. rewrite Ht. split; [done|]. by left.
Qed.

(** ** A clock tick *)

Lemma queues_ok_tick Q k t lst : queues_ok Q (Some k) -> Q.1 !! k = Some (t, lst) -> 0 < t ->
  queues_ok (put_loc (Act k) (t - 1, lst) Q) (Some k) /\ queued (put_loc (Act k) (t - 1, lst) Q) = queued Q.
Proof.
  intros [Hok He Ha Hs] Hk Ht. pose proof Hok as [HA HX Hn Hb Hq].
  assert (queued (put_loc (Act k) (t - 1, lst) Q) = queued Q) as HE
    by (unfold queued; simpl; by rewrite (insert_snd _ _ _ _ _ Hk)).
  split; [|done]. constructor.
  - constructor; rewrite ?HE; simpl; rewrite ?length_insert; done.
  - done.
  - simpl. intros j v [[-> ->]|[Hj Hv]]%(insert_inv _ _ _ _ _ _ Hk); [|eauto].
    specialize (Ha k _ Hk). simpl in *. lia.
  - simpl. intros j v [[-> ->]|[Hj Hv]]%(insert_inv _ _ _ _ _ _ Hk); [done|eauto].
Qed.

Lemma table_tick ps Q p k r t lst : table ps Q (Some (p, k)) -> ps !! p = Some r -> Q.1 !! k = Some (t, lst) ->
  0 < t -> 0 < ticks_left r -> live (state r) = true ->
  table (<[p := set_ticks_left (ticks_left r - 1) r]> ps) (put_loc (Act k) (t - 1, lst) Q) (Some (p, k)) /\
  queued (put_loc (Act k) (t - 1, lst) Q) = queued Q.
Proof.
  intros (Hq & Hp & [Hkl (r0 & Hr0 & Hb & Hc)]) Hr Hk Ht Htl Hlv. assert (r0 = r) as -> by congruence.
  destruct (queues_ok_tick Q k t lst Hq Hk Ht) as [Hq' HE]. split; [|done]. split; [done|]. split.
  - rewrite HE. apply (procs_ok_map ps _ _ _ _ Hp); [apply length_insert|].
    intros i x [[-> ->]|[Hi Hx]]%(insert_inv _ _ _ _ _ _ Hr).
    + exists r. do 3 (split; [done|]). split; [by intros _ []|]. split; [by intros _ []|].
      intros Hrun. by apply (pk_running _ _ _ Hp p r Hr).
    + exists x. do 3 (split; [done|]). split; [done|]. split.
      * intros Hlx Hne. by apply (pk_quantum _ _ _ Hp i x).
      * intros Hrun. by apply (pk_running _ _ _ Hp i x).
  - constructor; [done|]. eexists. split; [apply list_lookup_insert_eq; by eapply lookup_lt_Some|].
    simpl. split; [lia|]. destruct Hc as [Hz|[_ Hin]]; [by rewrite Hz in Hlv|]. right. split; [done|].
    rewrite (level_procs_lookup k _ (t - 1, lst)) by (apply list_lookup_insert_eq; by eapply lookup_lt_Some).
    by rewrite (level_procs_lookup k _ _ Hk) in Hin.
Qed.
