(* ===== verification/SchedLoop.v ===== *)
(** * The scheduler's loop keeps the invariant

    [kernel] is what holds of the whole process subsystem; [Top] at the top of the
    scheduler's loop, [Held] when the scheduler hands the CPU to a process,
    [Runs] while the process runs without locks, [Out] when it gives the CPU back.
    One iteration of the loop from [Top] ends in [Top], or hands the CPU over and
    ends in [Top] when it gets it back. *)

From stdpp Require Import base tactics list sets strings.
From Stdlib Require Import ZArith Lia.
From S2P Require Import Prelude Params Spinlock ProcState Rsdl RsdlSpec Scheduler SchedRefine SchedInv.
Open Scope Z_scope.

(** ** The pieces of an iteration that are not queue operations *)

Section Pieces.
Context {E : Type}.
Implicit Types (s : kstate E).

Lemma kcpu_in_cli i s n cp cq : kcpu i (km s) n cp cq -> 0 < n -> shallow n -> exists c, in_cli s i c.
Proof.
  intros (c & Ht & Hn & _) H0 Hs. exists c. unfold shallow in Hs. constructor; [done|lia].
Qed.

Lemma k_sti i s cp cq : kcpu i (km s) 0 cp cq ->
  exists m, sti s = Ret tt (set_km m s) /\ kcpu i m 0 cp cq.
Proof.
  intros (c & Ht & Hn & Hp & Hq). eexists. split; [done|]. exists c. split; [|done].
  destruct Ht. constructor; try done. simpl. lia.
Qed.

Lemma V2P_eq s a : KERNBASE <= a -> V2P a s = Ret (a - KERNBASE) s.
Proof. intros Ha. unfold V2P. destruct (Z.ltb_spec a KERNBASE); [lia|done]. Qed.

Lemma kcpu_set_cr3 i m n cp cq v : kcpu i m n cp cq -> kcpu i (set_cr3 v m) n cp cq.
Proof. intros (c & [] & Hc). exists c. split; [by constructor|done]. Qed.

Lemma kcpu_set_tr i m n cp cq v : kcpu i m n cp cq -> kcpu i (set_tr v m) n cp cq.
Proof. intros (c & [] & Hc). exists c. split; [by constructor|done]. Qed.

Lemma switchkvm_k i s n cp cq : KERNBASE <= kpgdir s -> kcpu i (km s) n cp cq ->
  exists m, switchkvm s = Ret tt (set_km m s) /\ kcpu i m n cp cq /\ cr3 m = kpgdir s - KERNBASE.
Proof.
  intros Hk Hc. unfold switchkvm. rewrite bind_get, (bind_Ret _ _ _ _ _ (V2P_eq s _ Hk)).
  eexists. split; [done|]. split; [by apply kcpu_set_cr3|done].
Qed.

(** Changes of the CPU's entry that keep its process and queue. *)
Lemma k_upd_cpu_keep i s n cp cq f : kcpu i (km s) n cp cq ->
  (forall c, apicid (f c) = apicid c /\ ncli (f c) = ncli c /\ c_proc (f c) = c_proc c /\ c_queue (f c) = c_queue c) ->
  exists m, upd_cpu i f s = Ret tt (set_km m s) /\ kcpu i m n cp cq.
Proof.
  intros Hc Hf. destruct Hc as (c & Ht & Hn & Hp & Hq).
  destruct (Hf c) as (H1 & H2 & H3 & H4).
  destruct (ks_upd_cpu i s n cp cq f) with (c0 := c) as (m & He & Hm & _); try done.
  - by exists c.
  - intros c'. split; apply Hf.
  - intros c1 c2. destruct (Hf c1) as (_ & _ & -> & _), (Hf c2) as (_ & _ & -> & _). done.
  - intros c1 c2. destruct (Hf c1) as (_ & _ & _ & ->), (Hf c2) as (_ & _ & _ & ->). done.
  - exists m. split; [done|]. by rewrite H3, H4, Hp, Hq in Hm.
Qed.

(** The address space of the process is loaded, and its kernel stack announced. *)
Lemma switchuvm_k i s n cp cq p r : kcpu i (km s) n cp cq -> shallow n -> procs s !! p = Some r ->
  kstack r <> 0 -> KERNBASE <= pgdir r ->
  exists m, switchuvm (Some p) s = Ret tt (set_km m s) /\ kcpu i m n cp cq /\ cr3 m = pgdir r - KERNBASE.
Proof.
  intros Hc Hs Hp Hk Hg. unfold switchuvm. rewrite (bind_Ret _ _ _ _ _ (get_proc_eq s p r Hp)).
  destruct (Z.eqb_spec (kstack r) 0); [done|].
  destruct (Z.eqb_spec (pgdir r) 0); [unfold KERNBASE in Hg; lia|].
  destruct (ks_pushcli i s n cp cq Hc Hs) as (m1 & H1 & Hc1 & _). rewrite (bind_Ret _ _ _ _ _ H1).
  unfold shallow in Hs.
  rewrite (bind_Ret _ _ _ _ _ (ks_mycpu i (set_km m1 s) (n + 1) cp cq Hc1 ltac:(lia))).
  destruct (k_upd_cpu_keep i (set_km m1 s) (n + 1) cp cq
    (fun c => set_gdt_tss (SEG16 STS_T32A (ts_addr c) (TASKSTATE_SIZE - 1) 0) c) Hc1) as (m2 & H2 & Hc2); [done|].
  erewrite bind_Ret by exact H2.
  destruct (k_upd_cpu_keep i (set_km m2 s) (n + 1) cp cq
    (fun c => set_gdt_tss (set_sd_s 0 (gdt_tss c)) c) Hc2) as (m3 & H3 & Hc3); [done|].
  erewrite bind_Ret by exact H3.
  destruct (k_upd_cpu_keep i (set_km m3 s) (n + 1) cp cq
    (set_ts_ss0 (Z.shiftl SEG_KDATA 3)) Hc3) as (m4 & H4 & Hc4); [done|].
  erewrite bind_Ret by exact H4.
  destruct (k_upd_cpu_keep i (set_km m4 s) (n + 1) cp cq
    (set_ts_esp0 (u32 (kstack r + KSTACKSIZE))) Hc4) as (m5 & H5 & Hc5); [done|].
  erewrite bind_Ret by exact H5.
  destruct (k_upd_cpu_keep i (set_km m5 s) (n + 1) cp cq
    (set_ts_iomb 0xFFFF) Hc5) as (m6 & H6 & Hc6); [done|].
  erewrite bind_Ret by exact H6.
  erewrite bind_Ret by reflexivity. rewrite (bind_Ret _ _ _ _ _ (V2P_eq _ _ Hg)).
  erewrite bind_Ret by reflexivity.
  assert (kcpu i (set_cr3 (pgdir r - KERNBASE) (set_tr (Z.shiftl SEG_TSS 3) m6)) (n + 1) cp cq) as Hc7
    by (by apply kcpu_set_cr3, kcpu_set_tr).
  destruct (ks_popcli i (set_km (set_cr3 (pgdir r - KERNBASE) (set_tr (Z.shiftl SEG_TSS 3) m6)) s) (n + 1) cp cq
    Hc7 ltac:(lia)) as (m8 & H8 & Hc8 & Hcr).
  exists m8. split; [exact H8|]. replace (n + 1 - 1) with n in Hc8 by lia. split; [done|]. by rewrite Hcr.
Qed.

(** Printing the log only prints. *)
Lemma print_schedlog_k i c s Q : in_cli s i c -> rep s Q ->
  (forall p, p ∈ queued Q -> exists r, procs s !! p = Some r) ->
  exists o, print_schedlog s = Ret tt (set_out o s).
Proof.
  intros Hc H Hps. unfold print_schedlog. rewrite bind_get.
  assert (forall (I : kstate E -> Prop) (m : M (kstate E) unit),
    (exists s', m s = Ret tt s' /\ exists o, s' = set_out o s) -> exists o, m s = Ret tt (set_out o s)) as Hshape.
  { intros _ m (s' & He & o & ->). eauto. }
  apply (Hshape (fun _ => True)). apply (for_each_inv (fun s' => exists o, s' = set_out o s)).
  { exists (out s). by destruct s. }
  intros i0 s0 Hi (o & ->).
  assert (exists base b l, [active s; expired s] !! i0 = Some base /\
     (forall o, is_active_set base (set_out o s) = Ret b (set_out o s)) /\
     forall k, (k < RSDL_LEVELS)%nat -> (base + k)%nat = ptr s (l k) /\ loc_ok (l k)) as (base & b & l & Hb & Hset & Hl).
  { rewrite !elem_of_cons in Hi. destruct Hi as [->|[->|[]%not_elem_of_nil]].
    - exists (active s), true, Act. repeat split; try done. intros o'.
      rewrite <- (Nat.add_0_r (active s)).
      change (active s) with (active (set_out o' s)).
      apply (is_active_set_act _ Q.1 Q.2); [done|]. unfold RSDL_LEVELS. lia.
    - exists (expired s), false, Exp. repeat split; try done. intros o'.
      rewrite <- (Nat.add_0_r (expired s)).
      change (expired s) with (expired (set_out o' s)).
      apply (is_active_set_exp _ Q.1 Q.2); [done|]. unfold RSDL_LEVELS. lia. }
  rewrite (bind_deref _ _ _ _ Hb), (bind_Ret _ _ _ _ _ (Hset o)).
  apply (for_each_inv (fun s' => exists o, s' = set_out o s)); [by exists o|].
  intros k s1 Hk (o1 & ->). apply elem_of_seq in Hk. cbv zeta.
  destruct (Hl k ltac:(lia)) as [-> Hlok]. destruct (loc_ok_at s Q (l k) H Hlok) as [v Hv].
  destruct (rep_get s Q (l k) v H Hv) as (lq & Hlq & Hr & Ht).
  pose proof (lookup_lt_Some _ _ _ Hlq) as Hlt.
  match goal with |- context [bind (acquire _) (fun _ => bind ?B _)] => set (body := B) end.
  destruct (level_section (fun s' => exists o, s' = set_out o s) (set_out o1 s) i c (ptr s (l k)) lq lq body tt)
    as (s1 & s2 & s3 & (o3 & ->) & Ha & Hbo & Hre).
  { by apply (in_cli_ext s). } { done. } { apply Hr. } { done. }
  { intros m h. unfold body.
    rewrite (bind_Ret _ _ _ _ _ (get_level_in (set_out o1 s) (ptr s (l k)) lq m h Hlt)).
    rewrite bind_get. unfold cprintf. rewrite bind_modify. cbn [numproc lq_proc set_lq_lock].
    set (s0 := set_level (<[ptr s (l k) := set_lq_lock h lq]> (level s)) (set_km m s)).
    destruct (for_each_inv (fun s' => exists o, s' = set_out o s0)
      (fun i => x <- deref (lq_proc lq !! i) ;; pp <- deref x ;; r <- get_proc pp ;;
         if bool_decide (state r = UNUSED) then ret tt
         else cprintf ",[%d]%s:%d(%d)"
                [AInt (pid r); ABytes (name r); AInt (procstate_num (state r)); AInt (ticks_left r)])
      (seq 0 (numproc lq)) (set_out (out (set_out o1 s) ++ [mkOut "%d|%s|%d(%d)"
         [AInt (ticks s); AStr (if b then "active" else "expired"); AInt (Z.of_nat k); AInt (lq_ticks_left lq)]]) s0))
      as (s' & He & o' & ->).
    - eauto.
    - intros j s' Hj (o' & ->). apply elem_of_seq in Hj. rewrite (lr_num _ _ Hr) in Hj.
      destruct (lq_repr_lookup _ _ j Hr) as (p & Hp & Hx); [lia|].
      rewrite (bind_deref _ _ _ _ Hx), (bind_deref _ _ _ _ eq_refl).
      destruct (Hps p) as [r Hpr].
      { destruct (l k) as [k'|k']; apply (queued_in Q k' v); simpl in Hv; auto; by eapply list_elem_of_lookup_2. }
      rewrite (bind_Ret _ _ _ r (set_out o' s0)) by (by apply get_proc_eq).
      case_bool_decide; eexists; (split; [done|]); eauto.
    - exists (set_out o' s). split; [done|]. split; [eauto|]. exact He. }
  rewrite (bind_Ret _ _ _ _ _ Ha), (bind_Ret _ _ _ _ _ Hbo), (bind_Ret _ _ _ _ _ Hre).
  eexists. split; [done|]. exists (out (set_out o3 s) ++ [mkOut "\n" []]).
  cbn [level set_out]. rewrite list_insert_id by done. by destruct s.
Qed.

End Pieces.

(** ** What holds when *)

(** Laws of the services that only touch their own state: they keep it well formed,
    and page directories are kernel addresses. *)
Class EnvLaws (E : Type) `{Platform E} := {
  env_ok : E -> Prop;
  el_kalloc : forall e, env_ok e -> env_ok (svc_kalloc e).2;
  el_kfree : forall a e e', env_ok e -> svc_kfree a e = Some e' -> env_ok e';
  el_setupkvm : forall e v e', env_ok e -> svc_setupkvm e = Some (v, e') ->
    env_ok e' /\ (v = 0 \/ KERNBASE <= v);
  el_inituvm : forall pg e e', env_ok e -> svc_inituvm pg e = Some e' -> env_ok e';
  el_allocuvm : forall pg o n e v e', env_ok e -> svc_allocuvm pg o n e = Some (v, e') -> env_ok e';
  el_deallocuvm : forall pg o n e v e', env_ok e -> svc_deallocuvm pg o n e = Some (v, e') -> env_ok e';
  el_copyuvm : forall pg n e v e', env_ok e -> svc_copyuvm pg n e = Some (v, e') ->
    env_ok e' /\ (v = 0 \/ KERNBASE <= v);
  el_freevm : forall pg e e', env_ok e -> svc_freevm pg e = Some e' -> env_ok e';
  el_filedup : forall f e e', env_ok e -> svc_filedup f e = Some e' -> env_ok e';
  el_idup : forall d e e', env_ok e -> svc_idup d e = Some e' -> env_ok e';
  el_lapiceoi : forall e, env_ok e -> env_ok (svc_lapiceoi e);
  el_shutdown : forall e, env_ok e -> env_ok (svc_shutdown e)
}.

(** What the code of a process knows: the queue it was taken from, and the processes
    [C] whose kernel code is suspended in [sched]. *)
Abbreviation idx := (nat * (nat -> Prop))%type.

Section Protocol.
Context {E : Type} `{EnvLaws E}.
Implicit Types (s : kstate E) (Q : sets).

(** A process that waits for the CPU starts at [forkret], or is one of [C], the
    processes whose kernel code is suspended in [sched]. *)
Definition parked (ps : list proc) (qs : list nat) (run : option nat) (C : nat -> Prop) : Prop :=
  forall i r, ps !! i = Some r -> i ∈ qs -> run <> Some i -> ctx_eip (ctx r) = forkret_addr \/ C i.

Definition kernel s Q (run : option (nat * nat)) (n : Z) (cp cq : option nat) (C : nat -> Prop) : Prop :=
  rep s Q /\ table (procs s) Q run /\ parked (procs s) (queued Q) (fst <$> run) C /\
  kcpu 0 (km s) n cp cq /\ KERNBASE <= kpgdir s /\ free_lock (tickslock s) /\ env_ok (env s).

(** The running process and its level have quantum left. *)
Definition slice s Q (p k : nat) : Prop :=
  exists r v, procs s !! p = Some r /\ state r = RUNNING /\ 0 < ticks_left r /\ Q.1 !! k = Some v /\ 0 < v.1.

Definition Top (C : nat -> Prop) s : Prop :=
  exists Q, kernel s Q None 0 None None C /\ free_lock (pt_lock s).

(** Process [p] runs, [n] calls of [pushcli] deep. *)
Definition Own (p : nat) (i : idx) (n : Z) s : Prop :=
  exists Q k, kernel s Q (Some (p, k)) n (Some p) (Some i.1) i.2 /\ i.1 = (active s + k)%nat /\
    slice s Q p k.

Definition Runs (p : nat) (i : idx) s : Prop := Own p i 0 s /\ free_lock (pt_lock s).

Definition Held (p : nat) (i : idx) s : Prop := Own p i 1 s /\ held_by 0 (pt_lock s).

Definition Out (p : nat) (i : idx) s : Prop :=
  exists Q k r, kernel s Q (Some (p, k)) 1 (Some p) (Some i.1) i.2 /\ i.1 = (active s + k)%nat /\
    held_by 0 (pt_lock s) /\ procs s !! p = Some r /\ state r <> RUNNING.

Definition zombie s (p : nat) : Prop := exists r, procs s !! p = Some r /\ state r = ZOMBIE.

(** ** One iteration *)

Lemma parked_mono ps ps' qs qs' run run' (C C' : nat -> Prop) : parked ps qs run C -> qs ≡ₚ qs' ->
  (forall i r', ps' !! i = Some r' -> exists r, ps !! i = Some r /\ ctx r' = ctx r) ->
  (forall i, C i -> C' i) -> (forall p, run = Some p -> run' = Some p \/ C' p \/ p ∉ qs) ->
  parked ps' qs' run' C'.
Proof.
  intros Hp HE Hps HC Hrun i r' Hi Hin Hne. destruct (Hps i r' Hi) as (r & Hr & ->).
  rewrite <- HE in Hin. destruct (decide (run = Some i)) as [Hi'|Hi'].
  - destruct (Hrun i Hi') as [?|[?|?]]; [done|by right|done].
  - destruct (Hp i r Hr Hin Hi'); auto.
Qed.

Lemma replenish_ctx l ps i r' : replenish l ps !! i = Some r' -> exists r, ps !! i = Some r /\ ctx r' = ctx r.
Proof. intros (r & Hr & ->)%replenish_inv. exists r. split; [done|]. by case_bool_decide. Qed.

Lemma queued_procs s Q run p : table (procs s) Q run -> p ∈ queued Q ->
  exists r, procs s !! p = Some r /\ level_ok r.
Proof.
  intros Ht Hp. destruct (table_dlevel _ _ _ _ Ht Hp) as (r & Hr & Hok & _). exists r.
  split; [done|apply Hok].
Qed.

(** Nothing to run: the sets are exchanged. *)
Lemma swap_iteration s Q C cp cq : kernel s Q None 1 cp cq C ->
  exists s' Q', scheduler_swap s = Ret tt s' /\ kernel s' Q' None 1 cp cq C /\ pt_lock s' = pt_lock s /\
    Q' = swap_spec (procs s) Q /\ procs s' = replenish (concat (Q.1.*2)) (procs s).
Proof.
  intros (Hr & Ht & Hpk & Hc & Hrest). destruct (kcpu_in_cli _ s _ _ _ Hc) as [c Hcli]; [lia|unfold shallow; lia|].
  destruct (scheduler_swap_eq s 0 c Q Hcli Hr (qi_sets _ _ (proj1 Ht))) as (lv & He & Hr').
  { intros p Hp. apply (queued_procs s Q None); [done|]. unfold queued. apply elem_of_app. by left. }
  destruct (table_swap _ _ Ht) as [Ht' Hperm].
  eexists _, _. split; [exact He|]. split; [|done]. split; [done|]. split; [done|]. split; [|done].
  eapply parked_mono; [exact Hpk|by symmetry|apply replenish_ctx|done|done].
Qed.

(** The process [p] of level [k] came back: what becomes of the processes and the queues. *)
Definition putback (k p : nat) (r : proc) (ps : list proc) (Q : sets) : list proc * sets :=
  match Q.1 !! k with
  | Some (t, lst) =>
      if t <=? 0 then (replenish lst ps, migrate_spec k p (bool_decide (state r = ZOMBIE)) ps Q)
      else if bool_decide (state r = ZOMBIE) then (if ticks_left r <=? 0 then replenish [p] ps else ps, Q)
      else (requeue_procs k p r ps Q, requeue_spec (requeue_start k (ticks_left r)) k p (Z.to_nat (default_level r)) Q)
  | None => (ps, Q)
  end.

(** The state [s3] after the scheduler has dealt with process [p], which came back in [s2]. *)
Definition put_back (k p : nat) s2 s3 : Prop :=
  exists Q r, rep s2 Q /\ procs s2 !! p = Some r /\ procs s3 = (putback k p r (procs s2) Q).1 /\
    rep s3 (putback k p r (procs s2) Q).2 /\ queued (putback k p r (procs s2) Q).2 ≡ₚ queued Q.

Lemma putback_iteration s Q k p r C C' cp cq t lst :
  kernel s Q (Some (p, k)) 1 cp cq C -> procs s !! p = Some r -> state r <> RUNNING ->
  Q.1 !! k = Some (t, lst) ->
  (forall i, C i -> C' i) -> (state r = ZOMBIE \/ C' p) ->
  let PQ := putback k p r (procs s) Q in
  exists s', (lq <- get_level (active s + k) ;;
     if lq_ticks_left lq <=? 0 then scheduler_migrate k (active s + k) p
     else scheduler_requeue k (active s + k) p) s = Ret tt s' /\
    kernel s' PQ.2 None 1 cp cq C' /\ procs s' = PQ.1 /\ pt_lock s' = pt_lock s /\ queued PQ.2 ≡ₚ queued Q.
Proof.
  intros (Hr & Ht & Hpk & Hc & Hrest) Hp Hns Hk HC HCp. unfold putback. rewrite Hk. cbv zeta.
  destruct (kcpu_in_cli _ s _ _ _ Hc) as [c Hcli]; [lia|unfold shallow; lia|].
  pose proof (qi_sets _ _ (proj1 Ht)) as Hok. pose proof (on_cpu_in _ _ _ _ _ _ Ht Hp Hk) as Hin. simpl in Hin.
  assert (forall p', Some p = Some p' -> None = Some p' \/ C' p' \/ p' ∉ queued Q) as Hrun.
  { intros ? [= <-]. destruct HCp as [Hz|?]; [|auto]. right; right. intros Hq.
    apply (pk_queued _ _ _ (proj1 (proj2 Ht)) p r Hp) in Hq. by rewrite Hz in Hq. }
  destruct (rep_get s Q (Act k) _ Hr Hk) as (lq & Hlq & _ & Htk). simpl in Hlq, Htk.
  rewrite (bind_Ret _ _ _ _ _ (get_level_eq s _ lq Hlq)), Htk.
  destruct (t <=? 0) eqn:Htz.
  - assert ((state r = ZOMBIE \/ level_ok r) /\ (p < NPROC)%nat /\ (p ∈ lst \/ p ∉ queued Q)) as (Hlr & Hlt & Hor).
    { destruct Ht as (_ & Hpr & _). split; [|split].
      - case_bool_decide; [by left|]. right. apply (pk_ok _ _ _ Hpr p r Hp). by destruct Hin.
      - rewrite <- (pk_len _ _ _ Hpr). by eapply lookup_lt_Some.
      - case_bool_decide as Hz; [|left; by destruct Hin]. right.
        rewrite (pk_queued _ _ _ Hpr p r Hp), Hz. done. }
    destruct (scheduler_migrate_eq s 0 c Q k p t lst r Hcli Hr Hok Hk) as (lv & He & Hr'); try done.
    { intros p' Hp'. apply (queued_procs s Q _ p' Ht). apply (queued_in Q k (t, lst)); auto. }
    destruct (table_migrate _ _ _ _ _ _ _ Ht Hp Hns Hk) as [Ht' Hperm].
    eexists. split; [exact He|]. split; [|done]. split; [done|]. split; [done|]. split; [|done].
    eapply parked_mono; [exact Hpk|by symmetry|apply replenish_ctx|done|done].
  - apply Z.leb_gt in Htz. destruct (bool_decide (state r = ZOMBIE)) eqn:Hz.
    + apply bool_decide_eq_true in Hz. eexists.
      split; [by eapply scheduler_requeue_dead|]. split; [|done]. split; [done|].
      split; [by eapply table_requeue_dead|]. split; [|done].
      eapply parked_mono; [exact Hpk|done| |done|done].
      intros i r'. simpl. destruct (ticks_left r <=? 0); [apply replenish_ctx|eauto].
    + apply bool_decide_eq_false in Hz. destruct Hin as [(l1 & l2 & ->)%list_elem_of_split Hlv].
      pose proof (pk_ok _ _ _ (proj1 (proj2 Ht)) p r Hp Hlv) as Hpok.
      destruct (scheduler_requeue_eq s 0 c Q k p t l1 l2 r Hcli Hr Hok Hk Hp (po_level _ Hpok) Hz) as (lv & He & Hr').
      destruct (table_requeue _ _ _ _ _ _ _ _ Ht Hp Hlv Hns Hk Htz) as [Ht' Hperm].
      eexists. split; [exact He|]. split; [|done]. split; [done|]. split; [done|]. split; [|done].
      eapply parked_mono; [exact Hpk|by symmetry| |done|done].
      intros i r'. simpl. unfold requeue_procs. destruct (_ || _); [apply replenish_ctx|eauto].
Qed.

Lemma kernel_ext s s' Q run n n' cp cq cp' cq' C : kernel s Q run n cp cq C ->
  active s' = active s -> expired s' = expired s -> level s' = level s -> procs s' = procs s ->
  kpgdir s' = kpgdir s -> tickslock s' = tickslock s -> env s' = env s ->
  kcpu 0 (km s') n' cp' cq' -> kernel s' Q run n' cp' cq' C.
Proof.
  intros (Hr & Ht & Hpk & Hc & Hk & Hf & He) E1 E2 E3 E4 E5 E6 E7 Hc'. unfold kernel, rep, repr.
  by rewrite E1, E2, E3, E4, E5, E6, E7.
Qed.

Lemma set_proc_k i s n cp cq v : kcpu i (km s) n cp cq ->
  exists m, upd_cpu i (set_c_proc v) s = Ret tt (set_km m s) /\ kcpu i m n v cq.
Proof.
  intros Hc. destruct Hc as (c & Ht & Hn & Hp & Hq).
  destruct (ks_upd_cpu i s n cp cq (set_c_proc v)) with (c0 := c) as (m & He & Hm & _); try done; [by exists c|].
  exists m. split; [done|]. simpl in Hm. by rewrite Hq in Hm.
Qed.

Lemma set_queue_k i s n cp cq v : kcpu i (km s) n cp cq ->
  exists m, upd_cpu i (set_c_queue v) s = Ret tt (set_km m s) /\ kcpu i m n cp v.
Proof.
  intros Hc. destruct Hc as (c & Ht & Hn & Hp & Hq).
  destruct (ks_upd_cpu i s n cp cq (set_c_queue v)) with (c0 := c) as (m & He & Hm & _); try done; [by exists c|].
  exists m. split; [done|]. simpl in Hm. by rewrite Hp in Hm.
Qed.

Lemma shallow_1 : shallow 1.
Proof. unfold shallow. lia. Qed.
Lemma shallow_0 : shallow 0.
Proof. unfold shallow. lia. Qed.
Hint Resolve shallow_0 shallow_1 : kern.

(** The part of [scheduler_run] after the process gave the CPU back. *)
Lemma run_back p k q C1 C2 s2 : Out p (q, C1) s2 -> (k < RSDL_LEVELS)%nat ->
  (q = k \/ q = RSDL_LEVELS + k)%nat ->
  (forall i, C1 i -> C2 i) -> (zombie s2 p \/ C2 p) ->
  exists s3 Q, (switchkvm ;;;
    (lq <- get_level q ;;
     if lq_ticks_left lq <=? 0 then scheduler_migrate k q p else scheduler_requeue k q p) ;;;
    upd_cpu 0 (set_c_proc None) ;;;
    upd_cpu 0 (set_c_queue None)) s2 = Ret tt s3 /\
    kernel s3 Q None 1 None None C2 /\ held_by 0 (pt_lock s3) /\ put_back k p s2 s3.
Proof.
  intros (Q & k' & r & Hk & Hq & Hh & Hp & Hns) Hkl Hqk HC HCp. simpl in Hq.
  pose proof Hk as (Hrep & Ht & _ & Hc & Hkp & _).
  assert (k' = k) as ->.
  { pose proof (oc_level _ _ _ _ (proj2 (proj2 Ht))). unfold RSDL_LEVELS in *.
    destruct (rp_sets _ _ _ Hrep) as [[? ?]|[? ?]]; unfold RSDL_LEVELS in *; lia. }
  destruct (switchkvm_k 0 s2 _ _ _ Hkp Hc) as (m1 & H1 & Hc1 & _).
  rewrite (bind_Ret _ _ _ _ _ H1).
  assert (kernel (set_km m1 s2) Q (Some (p, k)) 1 (Some p) (Some q) C1) as Hk1
    by (by eapply kernel_ext).
  destruct (lookup_lt_is_Some_2 Q.1 k) as [[t lst] Hv]; [by rewrite (rp_lenA _ _ _ Hrep)|].
  destruct (putback_iteration (set_km m1 s2) Q k p r C1 C2 _ _ t lst Hk1) as (s4 & H4 & Hk4 & Hps4 & Hl4 & Hq4); try done.
  { destruct HCp as [(r' & Hr' & Hz)|?]; [left; by simplify_eq|by right]. }
  change (active (set_km m1 s2)) with (active s2) in H4. rewrite <- Hq in H4.
  rewrite (bind_Ret _ _ _ _ _ H4).
  pose proof Hk4 as (_ & _ & _ & Hc4 & _).
  destruct (set_proc_k 0 s4 1 _ _ None Hc4) as (m5 & H5 & Hc5). rewrite (bind_Ret _ _ _ _ _ H5).
  destruct (set_queue_k 0 (set_km m5 s4) 1 _ _ None Hc5) as (m6 & H6 & Hc6).
  eexists _, _. split; [exact H6|]. split; [by eapply kernel_ext|]. simpl. rewrite Hl4. split; [done|].
  exists Q, r. do 3 (split; [done|]). split; [apply Hk4|done].
Qed.

(** Handing the CPU to the process that was picked. *)
Lemma run_ok s Q C k p cp cq : kernel s Q None 1 cp cq C -> held_by 0 (pt_lock s) ->
  pick_spec (procs s) Q.1 = Some (k, p) ->
  exists r s' kk, scheduler_run 0 k (active s + k) p s = Switch s' kk /\
    procs s !! p = Some r /\ procs s' = <[p := set_state RUNNING r]> (procs s) /\
    cr3 (km s') = pgdir r - KERNBASE /\
    active s' = active s /\ ticks s' = ticks s /\
    kernel s' Q (Some (p, k)) 1 (Some p) (Some (active s + k)%nat) C /\ held_by 0 (pt_lock s') /\ slice s' Q p k /\
    forall C1 C2 s2, Out p ((active s + k)%nat, C1) s2 -> (forall i, C1 i -> C2 i) -> (zombie s2 p \/ C2 p) ->
      exists s3 Q3, kk s2 = Ret tt s3 /\ kernel s3 Q3 None 1 None None C2 /\ held_by 0 (pt_lock s3) /\ put_back k p s2 s3.
Proof.
  intros Hk Hh Hpick. pose proof Hk as (Hrep & Ht & Hpk & Hc & Hrest).
  destruct (table_dispatch _ _ _ _ Ht Hpick) as (r & v & Hp & Hok & Hqt & Hst & Hv & Hz & Hin & Ht').
  unfold scheduler_run.
  destruct (set_proc_k 0 s 1 _ _ (Some p) Hc) as (m1 & H1 & Hc1). rewrite (bind_Ret _ _ _ _ _ H1).
  destruct (set_queue_k 0 (set_km m1 s) 1 _ _ (Some (active s + k)%nat) Hc1) as (m2 & H2 & Hc2).
  rewrite (bind_Ret _ _ _ _ _ H2).
  destruct (switchuvm_k 0 (set_km m2 s) 1 _ _ p r Hc2 shallow_1 Hp (po_kstack _ Hok) (po_pgdir _ Hok))
    as (m3 & H3 & Hc3 & Hcr). erewrite bind_Ret by exact H3.
  erewrite bind_Ret by (apply (upd_proc_eq _ p r); exact Hp). rewrite bind_get.
  set (s4 := set_procs _ _).
  assert (exists o, when (negb (schedlog_active s4 =? 0) && (ticks s4 <=? u32 (schedlog_lasttick s4)))
    print_schedlog s4 = Ret tt (set_out o s4)) as (o & Ho).
  { destruct (negb _ && _); simpl when; [|exists (out s4); by destruct s4].
    destruct (kcpu_in_cli 0 s4 1 _ _ Hc3) as [c Hcli]; [lia|apply shallow_1|].
    apply (print_schedlog_k 0 c s4 Q Hcli Hrep). intros p' Hp'.
    apply (queued_procs s4 Q _ p' Ht') in Hp' as (r' & Hr' & _). eauto. }
  rewrite (bind_Ret _ _ _ _ _ Ho).
  eexists r, (set_out o s4), _. split; [reflexivity|]. split; [done|]. do 4 (split; [done|]).
  split; [|split; [done|split]].
  - split; [exact Hrep|]. split; [exact Ht'|]. split; [|split; [exact Hc3|exact Hrest]].
    intros i r' [[-> ->]|[Hne Hi]]%(insert_inv _ _ _ _ _ _ Hp) Hiq Hrun; [done|].
    by apply (Hpk i r').
  - exists (set_state RUNNING r), v. unfold quantum_ok in Hqt. repeat split; try done; [|simpl; lia].
    simpl. apply list_lookup_insert_eq. by eapply lookup_lt_Some.
  - intros C1 C2 s2 HO HC HCp. destruct (rp_sets _ _ _ Hrep) as [[Ha _]|[Ha _]].
    + apply (run_back p k _ C1 C2 s2 HO); try done; [by apply Ht'|]. left. lia.
    + apply (run_back p k _ C1 C2 s2 HO); try done; [by apply Ht'|]. right. lia.
Qed.

(** A whole iteration. *)
Lemma scheduler_body_ok C s Q : kernel s Q None 0 None None C -> free_lock (pt_lock s) ->
  match pick_spec (procs s) Q.1 with
  | None => exists s', scheduler_body 0 s = Ret tt s' /\
      kernel s' (swap_spec (procs s) Q) None 0 None None C /\ free_lock (pt_lock s') /\
      procs s' = replenish (concat (Q.1.*2)) (procs s)
  | Some (k, p) => exists r s' kk, scheduler_body 0 s = Switch s' kk /\
      procs s !! p = Some r /\ procs s' = <[p := set_state RUNNING r]> (procs s) /\
      cr3 (km s') = pgdir r - KERNBASE /\ Held p ((active s + k)%nat, C) s' /\
      forall C1 C2 s2, Out p ((active s + k)%nat, C1) s2 -> (forall i, C1 i -> C2 i) ->
        (zombie s2 p \/ C2 p) -> exists s3, kk s2 = Ret tt s3 /\ Top C2 s3 /\ put_back k p s2 s3
  end.
Proof.
  intros Hk Hf. pose proof Hk as (_ & _ & _ & Hc & _). unfold scheduler_body.
  destruct (k_sti 0 s _ _ Hc) as (m1 & H1 & Hc1). rewrite (bind_Ret _ _ _ _ _ H1).
  destruct (ks_acquire_pt 0 (set_km m1 s) 0 _ _ Hc1 shallow_0 Hf) as (m2 & l & H2 & Hh & Hc2 & _).
  rewrite (bind_Ret _ _ _ _ _ H2). set (s2 := set_pt_lock l _).
  assert (kernel s2 Q None 1 None None C) as Hk2 by (by eapply kernel_ext).
  pose proof Hk2 as (Hrep & Ht & _).
  destruct (kcpu_in_cli 0 s2 1 _ _ Hc2) as [c Hcli]; [lia|apply shallow_1|].
  rewrite (bind_Ret _ _ _ _ _ (scheduler_pick_eq s2 0 c Q Hcli Hrep
    ltac:(intros p Hp; destruct (queued_procs s2 Q None p Ht) as (r & Hr & _);
          [unfold queued; apply elem_of_app; by left|eauto]))).
  rewrite bind_get. change (procs s2) with (procs s).
  assert (exists w, when (negb (schedlog_active s2 =? 0) && (u32 (schedlog_lasttick s2) <? ticks s2))
    (modify (set_schedlog_active 0)) s2 = Ret tt (set_schedlog_active w s2)) as (w & Hw).
  { destruct (negb _ && _); [by exists 0|]. exists (schedlog_active s2). by destruct s2. }
  rewrite (bind_Ret _ _ _ _ _ Hw). set (s3 := set_schedlog_active w s2).
  assert (kernel s3 Q None 1 None None C) as Hk3 by (by eapply kernel_ext).
  destruct (pick_spec (procs s) Q.1) as [[k p]|] eqn:Hpick; cbn [fmap option_fmap option_map fst snd].
  - destruct (run_ok s3 Q C k p _ _ Hk3 Hh Hpick) as (r & s4 & kk & He & Hp & Hps & Hcr & Ha & _ & Hk4 & Hh4 & Hsl & Hkk).
    eexists r, s4, _. split; [by eapply bind_Switch|]. do 3 (split; [done|]). split.
    + split; [|done]. exists Q, k. simpl. rewrite Ha. done.
    + intros C1 C2 s5 HO HC HCp. destruct (Hkk C1 C2 s5 HO HC HCp) as (s6 & Q6 & He6 & Hk6 & Hh6 & Hpb).
      pose proof Hk6 as (_ & _ & _ & Hc6 & _).
      destruct (ks_release_pt 0 s6 1 _ _ Hc6 shallow_1 ltac:(lia) Hh6) as (m7 & l7 & H7 & Hf7 & Hc7 & _).
      eexists. cbv beta. rewrite He6. simpl bindR. split; [exact H7|]. split; [|exact Hpb]. exists Q6. split; [|exact Hf7].
      by eapply kernel_ext.
  - destruct (swap_iteration s3 Q C _ _ Hk3) as (s4 & Q4 & He & Hk4 & Hl & -> & Hps).
    rewrite (bind_Ret _ _ _ _ _ He). pose proof Hk4 as (_ & _ & _ & Hc4 & _).
    assert (held_by 0 (pt_lock s4)) as Hh4 by (by rewrite Hl).
    destruct (ks_release_pt 0 s4 1 _ _ Hc4 shallow_1 ltac:(lia) Hh4) as (m7 & l7 & H7 & Hf7 & Hc7 & _).
    eexists. split; [exact H7|]. split; [by eapply kernel_ext|]. split; [exact Hf7|exact Hps].
Qed.

End Protocol.
