(* ===== verification/Proc.v ===== *)
(** * Processes (proc.c)

    Creation, exit, sleeping and waking of processes: the functions of proc.c that
    are not in Rsdl.v, Scheduler.v and Spinlock.v. *)

From stdpp Require Import base tactics list sets strings.
From Stdlib Require Import ZArith Lia.
From S2P Require Import Prelude Params StringC Spinlock ProcState Rsdl Scheduler.
Open Scope Z_scope.

Section Ops.
Context {E : Type} `{Platform E}.
Abbreviation K := (M (kstate E)).

(** ** Initialisation *)

Definition pinit : K unit :=
  initlock ptable_lock "ptable" ;;;
  acquire ptable_lock ;;;
  for_each (seq 0 2) (fun s =>
    for_each (seq 0 RSDL_LEVELS) (fun k =>
      let lq := level_ptr s k in
      initlock (level_lock lq) "level queue" ;;;
      acquire (level_lock lq) ;;;
      (upd_level lq (set_numproc 0) ;;;
       upd_level lq (set_lq_ticks_left RSDL_LEVEL_QUANTUM) ;;;
       for_each (seq 0 NPROC) (fun i =>
         upd_level lq (fun q => set_lq_proc (<[i := None]> (lq_proc q)) q))) ;;;
      release (level_lock lq))) ;;;
  modify (set_active (level_ptr 0 0)) ;;;
  modify (set_expired (level_ptr 1 0)) ;;;
  release ptable_lock.

(** ** Creation *)

Definition ctx0 : context := mkCtx 0 0 0 0 0.
Definition tf0 : trapframe := mkTf 0 0 0 0 0 0 0 0 0 0 0 0 0 0 0 0 0 0 0.

Definition allocproc : K (option nat) :=
  acquire ptable_lock ;;;
  found <- for_find (seq 0 NPROC) (fun p =>
    r <- get_proc p ;; ret (if bool_decide (state r = UNUSED) then Some p else None)) ;;
  match found with
  | None => release ptable_lock ;;; ret None
  | Some p =>
      upd_proc p (set_state EMBRYO) ;;;
      pid <- gets nextpid ;;
      upd_proc p (set_pid pid) ;;;
      modify (set_nextpid (i32 (pid + 1))) ;;;
      upd_proc p (set_ticks_left RSDL_PROC_QUANTUM) ;;;
      upd_proc p (set_default_level RSDL_STARTING_LEVEL) ;;;
      release ptable_lock ;;;
      kst <- svc (fun e => Some (svc_kalloc e)) ;;
      upd_proc p (set_kstack kst) ;;;
      if kst =? 0 then
        upd_proc p (set_state UNUSED) ;;; ret None
      else
        let sp := u32 (kst + KSTACKSIZE) in
        let sp := u32 (sp - TRAPFRAME_SIZE) in
        upd_proc p (set_tf_addr sp) ;;;
        let sp := u32 (sp - 4) in
        upd_proc p (set_ctx_ret trapret_addr) ;;;
        let sp := u32 (sp - CONTEXT_SIZE) in
        upd_proc p (set_ctx_addr sp) ;;;
        upd_proc p (set_ctx ctx0) ;;;
        upd_proc p (fun r => set_ctx (mkCtx (ctx_edi (ctx r)) (ctx_esi (ctx r)) (ctx_ebx (ctx r))
                                        (ctx_ebp (ctx r)) forkret_addr) r) ;;;
        ret (Some p)
  end.

(** [safestrcpy] between two arrays of bytes, [src] a string constant or an array
    as long as the destination. *)
Definition copy_name (dst src : list Z) : list Z :=
  let n := Z.of_nat (length dst) in
  let m : memory := fun a => if a <? n then nth (Z.to_nat a) dst 0 else nth (Z.to_nat (a - n)) src 0 in
  (fun i => safestrcpy m 0 n n (Z.of_nat i)) <$> seq 0 (length dst).

(** "initcode" *)
Definition initcode_name : list Z := [105; 110; 105; 116; 99; 111; 100; 101; 0].

Definition upd_tf (p : nat) (f : trapframe -> trapframe) : K unit :=
  upd_proc p (fun r => set_tf (f (tf r)) r).

Definition growproc (n : Z) : K Z :=
  curproc <- myproc ;; curproc <- deref curproc ;;
  r <- get_proc curproc ;;
  new <- (if 0 <? n then
            sz' <- svc (svc_allocuvm (pgdir r) (sz r) (u32 (sz r + n))) ;;
            ret (if sz' =? 0 then None else Some sz')
          else if n <? 0 then
            sz' <- svc (svc_deallocuvm (pgdir r) (sz r) (u32 (sz r + n))) ;;
            ret (if sz' =? 0 then None else Some sz')
          else ret (Some (sz r))) ;;
  match new with
  | None => ret (-1)
  | Some sz' =>
      upd_proc curproc (set_sz sz') ;;;
      switchuvm (Some curproc) ;;;
      ret 0
  end.

(** The open files and the current directory of a child. *)
Definition fork_files (curproc np : nat) : K unit :=
  for_each (seq 0 NOFILE) (fun i =>
    r <- get_proc curproc ;; f <- deref (ofile r !! i) ;;
    match f with
    | Some f => svc_ (svc_filedup f) ;;;
                upd_proc np (fun r => set_ofile (<[i := Some f]> (ofile r)) r)
    | None => ret tt
    end) ;;;
  r <- get_proc curproc ;; d <- deref (cwd r) ;;
  svc_ (svc_idup d) ;;;
  upd_proc np (set_cwd (Some d)).

Definition priofork (default_level : Z) : K Z :=
  curproc <- myproc ;;
  if Z.of_nat RSDL_LEVELS <=? default_level then ret (-1) else
  if default_level <? 0 then ret (-1) else
  np <- allocproc ;;
  match np with
  | None => ret (-1)
  | Some np =>
      curproc <- deref curproc ;; cr <- get_proc curproc ;;
      pg <- svc (svc_copyuvm (pgdir cr) (sz cr)) ;;
      upd_proc np (set_pgdir pg) ;;;
      if pg =? 0 then
        r <- get_proc np ;;
        svc_ (svc_kfree (kstack r)) ;;;
        upd_proc np (set_kstack 0) ;;;
        upd_proc np (set_state UNUSED) ;;;
        ret (-1)
      else
        upd_proc np (set_sz (sz cr)) ;;;
        upd_proc np (set_parent (Some curproc)) ;;;
        upd_proc np (set_tf (tf cr)) ;;;
        upd_tf np (set_tf_eax 0) ;;;
        fork_files curproc np ;;;
        cr <- get_proc curproc ;;
        upd_proc np (fun r => set_name (copy_name (name r) (name cr)) r) ;;;
        r <- get_proc np ;;
        let pid := pid r in
        acquire ptable_lock ;;;
        upd_proc np (set_default_level default_level) ;;;
        upd_proc np (set_state RUNNABLE) ;;;
        r <- get_proc np ;;
        q <- find_available_queue (ProcState.default_level r) (ProcState.default_level r) ;;
        enqueue_proc (Some np) q ;;;
        release ptable_lock ;;;
        ret pid
  end.

Definition fork : K Z := priofork RSDL_STARTING_LEVEL.

(** ** Switching *)

(** swtch.S, its first half: the registers go to the stack and the process's
    context points there. *)
Definition swtch_save (p : nat) : K unit :=
  e <- gets env ;; upd_proc p (set_ctx (svc_swtch_ctx e)).

Definition sched : K unit :=
  p <- myproc ;;
  h <- holding ptable_lock ;;
  if negb h then panic "sched ptable.lock" else
  i <- mycpu ;; c <- get_cpu i ;;
  if negb (ncli c =? 1) then panic "sched locks" else
  p <- deref p ;; r <- get_proc p ;;
  if bool_decide (state r = RUNNING) then panic "sched running" else
  fl <- readeflags_IF ;;
  if (fl : bool) then panic "sched interruptible" else
  i <- mycpu ;; c <- get_cpu i ;;
  let intena := intena c in
  _ <- mycpu ;;
  swtch_save p ;;;
  swtch_out ;;;
  i <- mycpu ;;
  upd_cpu i (set_intena intena).

Definition yield : K unit :=
  acquire ptable_lock ;;;
  p <- myproc ;; p <- deref p ;;
  upd_proc p (set_state RUNNABLE) ;;;
  sched ;;;
  release ptable_lock.

(** The lock given to [sleep]: NULL, the lock of the process table, or another. *)
Inductive sleep_lock := NoLock | PtableLock | OtherLock (lk : lockref (kstate E)).

Definition sleep (chan : chan) (lk : sleep_lock) : K unit :=
  p <- myproc ;;
  match p with
  | None => panic "sleep"
  | Some p =>
      match lk with
      | NoLock => panic "sleep without lk"
      | _ =>
          (match lk with OtherLock l => acquire ptable_lock ;;; release l | _ => ret tt end) ;;;
          upd_proc p (set_p_chan chan) ;;;
          upd_proc p (set_state SLEEPING) ;;;
          sched ;;;
          upd_proc p (set_p_chan NoChan) ;;;
          match lk with OtherLock l => release ptable_lock ;;; acquire l | _ => ret tt end
      end
  end.

Definition wakeup1 (chan : chan) : K unit :=
  for_each (seq 0 NPROC) (fun p =>
    r <- get_proc p ;;
    when (bool_decide (state r = SLEEPING) && bool_decide (p_chan r = chan))
      (upd_proc p (set_state RUNNABLE))).

Definition wakeup (chan : chan) : K unit :=
  acquire ptable_lock ;;; wakeup1 chan ;;; release ptable_lock.

Definition kill (pid : Z) : K Z :=
  acquire ptable_lock ;;;
  found <- for_find (seq 0 NPROC) (fun p =>
    r <- get_proc p ;;
    if ProcState.pid r =? pid then
      upd_proc p (set_killed 1) ;;;
      r <- get_proc p ;;
      when (bool_decide (state r = SLEEPING)) (upd_proc p (set_state RUNNABLE)) ;;;
      release ptable_lock ;;;
      ret (Some 0)
    else ret None) ;;
  match found with
  | Some z => ret z
  | None => release ptable_lock ;;; ret (-1)
  end.

(** ** Exit and wait *)

(** One scan of the table for children of [curproc]: the pid of a child that exited
    and is now collected, or whether there are any children. *)
Fixpoint wait_scan (curproc : option nat) (ps : list nat) (havekids : bool) : K (Z + bool) :=
  match ps with
  | [] => ret (inr havekids)
  | p :: ps =>
      r <- get_proc p ;;
      if negb (bool_decide (parent r = curproc)) then wait_scan curproc ps havekids else
      if bool_decide (state r = ZOMBIE) then
        let pid := pid r in
        svc_ (svc_kfree (kstack r)) ;;;
        upd_proc p (set_kstack 0) ;;;
        svc_ (svc_freevm (pgdir r)) ;;;
        upd_proc p (set_pid 0) ;;;
        upd_proc p (set_parent None) ;;;
        upd_proc p (fun r => set_name (<[0%nat := 0]> (name r)) r) ;;;
        upd_proc p (set_killed 0) ;;;
        upd_proc p (set_state UNUSED) ;;;
        release ptable_lock ;;;
        ret (inl pid)
      else wait_scan curproc ps true
  end.

(** The loop of [wait]; [fuel] bounds how often it sleeps. *)
Definition wait (fuel : nat) : K Z :=
  curproc <- myproc ;;
  acquire ptable_lock ;;;
  loop_fuel fuel (
    scan <- wait_scan curproc (seq 0 NPROC) false ;;
    match scan with
    | inl pid => ret (Some pid)
    | inr havekids =>
        killed <- (p <- deref curproc ;; r <- get_proc p ;; ret (killed r)) ;;
        if negb havekids || negb (killed =? 0) then
          release ptable_lock ;;; ret (Some (-1))
        else
          sleep (proc_chan curproc) PtableLock ;;; ret None
    end).

(** ** procdump *)

Definition state_name (st : procstate) : string :=
  match st with
  | UNUSED => "unused" | EMBRYO => "embryo" | SLEEPING => "sleep "
  | RUNNABLE => "runble" | RUNNING => "run   " | ZOMBIE => "zombie"
  end.

Fixpoint print_pcs (pcs : list Z) : K unit :=
  match pcs with
  | [] => ret tt
  | pc :: pcs => if pc =? 0 then ret tt else cprintf " %p" [AInt pc] ;;; print_pcs pcs
  end.

Definition procdump : K unit :=
  for_each (seq 0 NPROC) (fun p =>
    r <- get_proc p ;;
    if bool_decide (state r = UNUSED) then ret tt else
    cprintf "%d %s %s" [AInt (pid r); AStr (state_name (state r)); ABytes (name r)] ;;;
    when (bool_decide (state r = SLEEPING)) (
      e <- gets env ;;
      print_pcs (getcallerpcs (svc_kernel_word e) (u32 (ctx_ebp (ctx r) + 8)))) ;;;
    cprintf "\n" []).

End Ops.

(** ** The operations that use other kernel code *)

Section Calls.
Context {E : Type} `{Services E}.
Abbreviation K := (M (kstate E)).

Definition userinit : K unit :=
  p <- allocproc ;;
  modify (set_initproc p) ;;;
  p <- deref p ;;
  pg <- svc svc_setupkvm ;;
  upd_proc p (set_pgdir pg) ;;;
  if pg =? 0 then panic "userinit: out of memory?" else
  svc_ (svc_inituvm pg) ;;;
  upd_proc p (set_sz PGSIZE) ;;;
  upd_tf p (fun _ => tf0) ;;;
  upd_tf p (set_tf_cs (Z.lor (Z.shiftl SEG_UCODE 3) DPL_USER)) ;;;
  upd_tf p (set_tf_ds (Z.lor (Z.shiftl SEG_UDATA 3) DPL_USER)) ;;;
  upd_tf p (fun t => set_tf_es (tf_ds t) t) ;;;
  upd_tf p (fun t => set_tf_ss (tf_ds t) t) ;;;
  upd_tf p (set_tf_eflags FL_IF) ;;;
  upd_tf p (set_tf_esp PGSIZE) ;;;
  upd_tf p (set_tf_eip 0) ;;;
  upd_proc p (fun r => set_name (copy_name (name r) initcode_name) r) ;;;
  d <- svc_namei_root ;;
  upd_proc p (set_cwd d) ;;;
  acquire ptable_lock ;;;
  upd_proc p (set_state RUNNABLE) ;;;
  r <- get_proc p ;;
  q <- find_available_queue (default_level r) (default_level r) ;;
  enqueue_proc (Some p) q ;;;
  release ptable_lock.

Definition forkret : K unit :=
  release ptable_lock ;;;
  f <- gets first ;;
  when (negb (f =? 0)) (
    modify (set_first 0) ;;;
    svc_iinit ROOTDEV ;;;
    svc_initlog ROOTDEV).

Definition exit : K unit :=
  curproc <- myproc ;;
  ip <- gets initproc ;;
  if bool_decide (curproc = ip) then panic "init exiting" else
  curproc <- deref curproc ;;
  for_each (seq 0 NOFILE) (fun fd =>
    r <- get_proc curproc ;; f <- deref (ofile r !! fd) ;;
    match f with
    | Some f => svc_fileclose f ;;;
                upd_proc curproc (fun r => set_ofile (<[fd := None]> (ofile r)) r)
    | None => ret tt
    end) ;;;
  svc_begin_op ;;;
  r <- get_proc curproc ;; d <- deref (cwd r) ;;
  svc_iput d ;;;
  svc_end_op ;;;
  upd_proc curproc (set_cwd None) ;;;
  acquire ptable_lock ;;;
  r <- get_proc curproc ;;
  wakeup1 (proc_chan (parent r)) ;;;
  for_each (seq 0 NPROC) (fun p =>
    r <- get_proc p ;;
    when (bool_decide (parent r = Some curproc)) (
      ip <- gets initproc ;;
      upd_proc p (set_parent ip) ;;;
      r <- get_proc p ;;
      when (bool_decide (state r = ZOMBIE)) (wakeup1 (proc_chan ip)))) ;;;
  remove_proc_from_levels (Some curproc) ;;;
  upd_proc curproc (set_state ZOMBIE) ;;;
  sched ;;;
  panic "zombie exit".

End Calls.
