(* ===== verification/ProcFacts.v ===== *)
(** * What the process operations do

    Equations of the operations of Proc.v that do not give up the CPU, and the
    parts of the invariant of SchedLoop.v they keep. *)

From stdpp Require Import base tactics list sets strings.
From Stdlib Require Import ZArith Lia.
From S2P Require Import Prelude Params Spinlock ProcState Rsdl RsdlSpec Scheduler SchedRefine SchedInv SchedLoop Proc.
Open Scope Z_scope.

(** ** remove_proc_from_levels *)

Section Remove.
Context {E : Type}.
Implicit Types (s : kstate E) (Q : sets).

(** Every queue of [ptable.level] is a level of one of the sets. *)
Lemma ptr_surj s Q j : rep s Q -> (j < 2 * RSDL_LEVELS)%nat -> exists l, loc_ok l /\ ptr s l = j.
Proof.
  intros H Hj. destruct (rp_sets _ _ _ H) as [[Ha Hx]|[Ha Hx]]; unfold RSDL_LEVELS in *;
    destruct (le_lt_dec 3 j); [exists (Exp (j - 3))|exists (Act j)|exists (Act (j - 3))|exists (Exp j)];
    simpl; rewrite ?Ha, ?Hx; unfold RSDL_LEVELS; lia.
Qed.

Lemma ptr_inj s Q l l' : rep s Q -> loc_ok l -> loc_ok l' -> ptr s l = ptr s l' -> l = l'.
Proof.
  intros H Hl Hl'. destruct (rp_sets _ _ _ H) as [[Ha Hx]|[Ha Hx]], l, l'; simpl in *;
    rewrite ?Ha, ?Hx; unfold RSDL_LEVELS in *; intros; try (f_equal; lia); lia.
Qed.

(** A queued process is in one queue only. *)
Lemma at_loc_unique Q l l' v v' p : sets_ok Q -> at_loc l Q = Some v -> at_loc l' Q = Some v' ->
  p ∈ v.2 -> p ∈ v'.2 -> l = l'.
Proof.
  intros Hok Hv Hv' Hp Hp'. destruct (decide (l = l')) as [|Hne]; [done|]. exfalso.
  apply list_elem_of_split in Hp as (l1 & l2 & HE). destruct v as [t lst]; simpl in HE; subst lst.
  destruct (sets_ok_remove true l Q t l1 p l2 Hok Hv) as (_ & Hnq & _). apply Hnq.
  destruct l as [k|k], l' as [k'|k']; simpl in *.
  - apply (queued_in _ k' v'); [left; simpl; rewrite list_lookup_insert_ne; congruence|done].
  - apply (queued_in _ k' v'); [by right|done].
  - apply (queued_in _ k' v'); [by left|done].
  - apply (queued_in _ k' v'); [right; simpl; rewrite list_lookup_insert_ne; congruence|done].
Qed.

Lemma try_unqueue_miss s i c Q l v p : in_cli s i c -> rep s Q -> at_loc l Q = Some v -> p ∉ v.2 ->
  try_unqueue_proc (Some p) (Some (ptr s l)) s = Ret (-1) s.
Proof.
  intros Hc H Hv Hp. destruct (rep_get s Q l v H Hv) as (lq & Hlq & Hr & _).
  unfold try_unqueue_proc. by rewrite (unqueue_miss s i c _ lq v.2).
Qed.

Lemma remove_proc_from_levels_eq s i c Q l t l1 p l2 : in_cli s i c -> rep s Q -> sets_ok Q ->
  at_loc l Q = Some (t, l1 ++ p :: l2) ->
  exists lv, remove_proc_from_levels (Some p) s = Ret 0 (set_level lv s) /\
    rep (set_level lv s) (put_loc l (t, l1 ++ l2) Q).
Proof.
  intros Hc H Hok Hv. pose proof (at_loc_ok s Q l _ H Hv) as Hl.
  assert (p ∉ l1) as Hp1.
  { destruct (sets_ok_clear true l Q t _ Hok Hv) as (_ & Hnd & _).
    apply NoDup_app in Hnd as (_ & Hd & _). intros Hin. apply (Hd p Hin), list_elem_of_here. }
  destruct (unqueue_at s i c Q l t l1 p l2 true Hc H Hv Hp1) as (lv & Hu & Hr).
  exists lv. split; [|done].
  assert (forall j, (j < 2 * RSDL_LEVELS)%nat -> j <> ptr s l ->
    (r <- try_unqueue_proc (Some p) (Some j) ;; ret (if negb (r =? -1) then Some tt else None)) s = Ret None s) as Hmiss.
  { intros j Hj Hne. destruct (ptr_surj s Q j H Hj) as (l' & Hl' & <-).
    destruct (loc_ok_at s Q l' H Hl') as [v' Hv'].
    rewrite (bind_Ret _ _ _ _ _ (try_unqueue_miss s i c Q l' v' p Hc H Hv' ltac:(
      intros Hin; apply Hne; f_equal; symmetry; eapply (at_loc_unique Q l l'); [done..| |done];
      simpl; apply elem_of_app; right; apply list_elem_of_here))). done. }
  assert (ptr s l = level_ptr (ptr s l / RSDL_LEVELS) (ptr s l mod RSDL_LEVELS) /\
    (ptr s l / RSDL_LEVELS < 2 /\ ptr s l mod RSDL_LEVELS < RSDL_LEVELS)%nat) as (Hptr & Hs & Hk).
  { unfold level_ptr. pose proof (Nat.div_mod (ptr s l) RSDL_LEVELS ltac:(done)).
    pose proof (Nat.mod_upper_bound (ptr s l) RSDL_LEVELS ltac:(done)).
    assert (ptr s l < 2 * RSDL_LEVELS)%nat.
    { destruct (rp_sets _ _ _ H) as [[Ha Hx]|[Ha Hx]], l; simpl in *; rewrite ?Ha, ?Hx; unfold RSDL_LEVELS in *; lia. }
    unfold RSDL_LEVELS in *. repeat split; [lia| |lia]. apply Nat.Div0.div_lt_upper_bound; lia. }
  set (a := (ptr s l / RSDL_LEVELS)%nat) in *. set (b := (ptr s l mod RSDL_LEVELS)%nat) in *.
  unfold remove_proc_from_levels.
  rewrite (bind_Ret _ _ _ (Some tt) (set_level lv s)); [done|].
  apply (for_find_seq_hit _ _ a); [lia| |].
  - intros s0 Hs0. rewrite (for_find_pure _ _ (fun _ => None)); [done|]. intros k0 Hk0.
    apply elem_of_seq in Hk0. apply Hmiss; rewrite ?Hptr; unfold level_ptr, RSDL_LEVELS in *; lia.
  - apply (for_find_seq_hit _ _ b); [lia| |].
    + intros k0 Hk0. apply Hmiss; rewrite ?Hptr; unfold level_ptr, RSDL_LEVELS in *; lia.
    + unfold try_unqueue_proc. rewrite <- Hptr, (bind_Ret _ _ _ _ _ Hu).
      by destruct (Z.eqb_spec (Z.of_nat (length l1)) (-1)); [lia|].
Qed.

End Remove.

(** ** Loops over the process table *)

(** What a wakeup on [ch] does to a process. *)
Definition wake (ch : chan) (r : proc) : proc :=
  if bool_decide (state r = SLEEPING) && bool_decide (p_chan r = ch) then set_state RUNNABLE r else r.

Section Loops.
Context {E : Type}.
Implicit Types (s : kstate E).

Lemma set_procs_id s : set_procs (procs s) s = s.
Proof. by destruct s. Qed.

(** A loop that changes each entry by itself. *)
Lemma for_each_procs (f : proc -> proc) (body : nat -> M (kstate E) unit) n : forall j s l1 l2,
  procs s = l1 ++ l2 -> length l1 = j -> length l2 = n ->
  (forall i s r, procs s !! i = Some r -> body i s = Ret tt (set_procs (<[i := f r]> (procs s)) s)) ->
  for_each (seq j n) body s = Ret tt (set_procs (l1 ++ (f <$> l2)) s).
Proof.
  induction n as [|n IH]; intros j s l1 l2 Hs H1 H2 Hb.
  - destruct l2; [|done]. simpl. unfold ret. rewrite <- Hs. by rewrite set_procs_id.
  - destruct l2 as [|r l2]; [done|]. simpl in H2. simpl for_each.
    assert (procs s !! j = Some r) as Hr by (rewrite Hs, <- H1; by apply list_lookup_middle).
    rewrite (bind_Ret _ _ _ _ _ (Hb j s r Hr)).
    rewrite (IH (S j) _ (l1 ++ [f r]) l2); [|simpl|rewrite length_app; simpl; lia|lia|done].
    + rewrite <- app_assoc. done.
    + rewrite Hs, <- H1, <- app_assoc. simpl. rewrite insert_app_r_alt by lia.
      by rewrite Nat.sub_diag.
Qed.

Lemma wakeup1_eq s ch : length (procs s) = NPROC ->
  wakeup1 ch s = Ret tt (set_procs (wake ch <$> procs s) s).
Proof.
  intros Hl. unfold wakeup1. apply (for_each_procs (wake ch) _ NPROC 0 s [] (procs s)); try done.
  intros i s' r Hr. rewrite (bind_Ret _ _ _ _ _ (get_proc_eq s' i r Hr)). unfold wake.
  destruct (bool_decide (state r = SLEEPING) && bool_decide (p_chan r = ch)); simpl when.
  - by apply upd_proc_eq.
  - unfold ret. rewrite list_insert_id by done. by rewrite set_procs_id.
Qed.

(** The loop of [exit] that gives the children of [cur] to [ip]: if one of them is
    dead already, [ip] is woken to collect it. *)
Definition reparent (cur : nat) (ip : option nat) (r : proc) : proc :=
  if bool_decide (parent r = Some cur) then set_parent ip r else r.
Definition dead_child (cur : nat) (r : proc) : bool :=
  bool_decide (parent r = Some cur) && bool_decide (state r = ZOMBIE).
Definition wake_if (b : bool) (ch : chan) (r : proc) : proc := if b then wake ch r else r.

Lemma wake_parent ch r : parent (wake ch r) = parent r.
Proof. unfold wake. by destruct (_ && _). Qed.

Lemma wake_if_parent b ch r : parent (wake_if b ch r) = parent r.
Proof. destruct b; [apply wake_parent|done]. Qed.

Lemma wake_if_zombie b ch r : bool_decide (state (wake_if b ch r) = ZOMBIE) = bool_decide (state r = ZOMBIE).
Proof.
  destruct b; [|done]. simpl. unfold wake. destruct (bool_decide (state r = SLEEPING)) eqn:Hs; simpl; [|done].
  apply bool_decide_eq_true in Hs. by destruct (bool_decide (p_chan r = ch)); simpl; rewrite ?Hs.
Qed.

Lemma wake_reparent cur ip ch r : wake ch (reparent cur ip r) = reparent cur ip (wake ch r).
Proof.
  unfold reparent. rewrite wake_parent. case_bool_decide; [|done]. unfold wake; simpl.
  by destruct (bool_decide (state r = SLEEPING) && bool_decide (p_chan r = ch)).
Qed.

Lemma wake_wake ch r : wake ch (wake ch r) = wake ch r.
Proof.
  unfold wake at 2 3. destruct (bool_decide (state r = SLEEPING) && _) eqn:Hb; [done|].
  unfold wake. by rewrite Hb.
Qed.

Lemma wake_wake_if b ch r : wake ch (wake_if b ch r) = wake ch r.
Proof. destruct b; [apply wake_wake|done]. Qed.

Lemma reparent_loop cur ip n : forall j s l1 l2 b,
  let ch := proc_chan ip in
  initproc s = ip -> length l1 = j -> length l2 = n -> length (l1 ++ l2) = NPROC ->
  procs s = (reparent cur ip <$> (wake_if b ch <$> l1)) ++ (wake_if b ch <$> l2) ->
  for_each (seq j n) (fun p =>
    r <- get_proc p ;;
    when (bool_decide (parent r = Some cur)) (
      ip <- gets initproc ;;
      upd_proc p (set_parent ip) ;;;
      r <- get_proc p ;;
      when (bool_decide (state r = ZOMBIE)) (wakeup1 (proc_chan ip)))) s =
  Ret tt (set_procs (reparent cur ip <$> (wake_if (b || existsb (dead_child cur) l2) ch <$> (l1 ++ l2))) s).
Proof.
  induction n as [|n IH]; intros j s l1 l2 b ch Hip H1 H2 Hlen Hs.
  - destruct l2; [|done]. simpl. rewrite app_nil_r, orb_false_r. simpl in Hs. rewrite app_nil_r in Hs.
    rewrite <- Hs. by rewrite set_procs_id.
  - destruct l2 as [|r l2]; [done|]. simpl in H2. simpl for_each. set (body := fun p : nat => _).
    set (r1 := wake_if b ch r).
    assert (procs s !! j = Some r1) as Hr.
    { rewrite Hs. apply list_lookup_middle. by rewrite !length_fmap. }
    assert (exists b', body j s = Ret tt (set_procs
       ((reparent cur ip <$> (wake_if b' ch <$> l1 ++ [r])) ++ (wake_if b' ch <$> l2)) s) /\
       b' = b || dead_child cur r) as (b' & He & Hb').
    { unfold body. rewrite (bind_Ret _ _ _ _ _ (get_proc_eq s j r1 Hr)).
      unfold dead_child. unfold r1. rewrite wake_if_parent. fold r1.
      destruct (bool_decide (parent r = Some cur)) eqn:Hpar; simpl when.
      2:{ exists b. rewrite orb_false_r. split; [|done]. unfold ret.
          replace (_ ++ _) with (procs s); [by rewrite set_procs_id|].
          rewrite Hs, !fmap_app, <- app_assoc. simpl. unfold reparent at 3.
          rewrite wake_if_parent, Hpar. done. }
      rewrite bind_gets, Hip, (bind_Ret _ _ _ _ _ (upd_proc_eq s j r1 _ Hr)).
      assert (set_parent ip r1 = reparent cur ip r1) as Hrep.
      { unfold reparent, r1. by rewrite wake_if_parent, Hpar. }
      assert (<[j := set_parent ip r1]> (procs s) =
        (reparent cur ip <$> (wake_if b ch <$> l1 ++ [r])) ++ (wake_if b ch <$> l2)) as Hins.
      { rewrite Hs, insert_app_r_alt by (rewrite !length_fmap; lia). rewrite !length_fmap, H1, Nat.sub_diag.
        simpl. rewrite Hrep, !fmap_app, <- app_assoc. done. }
      erewrite bind_Ret.
      2:{ apply get_proc_eq. simpl. apply list_lookup_insert_eq. by eapply lookup_lt_Some. }
      simpl state. unfold r1. rewrite wake_if_zombie. fold r1.
      destruct (bool_decide (state r = ZOMBIE)) eqn:Hz; simpl when.
      - exists true. rewrite orb_true_r. split; [|done]. rewrite wakeup1_eq.
        + cbn [procs set_procs]. rewrite Hins. fold ch.
          assert (wake ch <$> ((reparent cur ip <$> (wake_if b ch <$> l1 ++ [r])) ++ (wake_if b ch <$> l2)) =
            (reparent cur ip <$> (wake_if true ch <$> l1 ++ [r])) ++ (wake_if true ch <$> l2)) as <-; [|done].
          rewrite fmap_app, <- !list_fmap_compose.
          f_equal; apply list_fmap_ext; intros ? x _; simpl; rewrite ?wake_reparent, wake_wake_if; done.
        + simpl. rewrite length_insert, Hs, length_app, !length_fmap. rewrite length_app in Hlen. done.
      - exists b. rewrite orb_false_r. split; [|done]. unfold ret. by rewrite Hins. }
    rewrite (bind_Ret _ _ _ _ _ He).
    erewrite (IH (S j) _ (l1 ++ [r]) l2 b'); try done.
    + f_equal. simpl existsb. rewrite orb_assoc, <- Hb'. unfold set_procs; simpl.
      by rewrite <- app_assoc.
    + rewrite length_app. simpl. lia.
    + lia.
    + by rewrite <- app_assoc.
Qed.

Lemma wakeup_eq i s n cp cq ch : kcpu i (km s) n cp cq -> 0 <= n -> shallow (n + 1) ->
  free_lock (pt_lock s) -> length (procs s) = NPROC ->
  exists m l, wakeup ch s = Ret tt (set_pt_lock l (set_km m (set_procs (wake ch <$> procs s) s))) /\
    free_lock l /\ kcpu i m n cp cq /\ if_saved i m = if_saved i (km s).
Proof.
  intros Hc Hn Hs Hf Hl. unfold wakeup.
  destruct (ks_acquire_pt i s n cp cq Hc) as (m & l & He & Hh & Hc1 & Hi1); [unfold shallow in *; lia|done|].
  rewrite (bind_Ret _ _ _ _ _ He). set (s1 := set_pt_lock l (set_km m s)).
  rewrite (bind_Ret _ _ _ _ _ (wakeup1_eq s1 ch Hl)).
  destruct (ks_release_pt i (set_procs (wake ch <$> procs s1) s1) (n + 1) cp cq Hc1 Hs) as (m2 & l2 & He2 & Hf2 & Hc2 & Hi2);
    [lia|done|].
  exists m2, l2. split; [exact He2|]. split; [done|]. split; [by replace (n + 1 - 1) with n in Hc2 by lia|].
  by rewrite Hi2.
Qed.

(** What [kill] does to the process it finds. *)
Definition kill_entry (r : proc) : proc :=
  let r := set_killed 1 r in
  if bool_decide (state r = SLEEPING) then set_state RUNNABLE r else r.

Lemma kill_eq i s n cp cq pd : kcpu i (km s) n cp cq -> 0 <= n -> shallow (n + 1) ->
  free_lock (pt_lock s) -> length (procs s) = NPROC ->
  exists m l, free_lock l /\ kcpu i m n cp cq /\
    kill pd s = match list_find (fun r => pid r = pd) (procs s) with
    | Some (j, r) => Ret 0 (set_pt_lock l (set_km m (set_procs (<[j := kill_entry r]> (procs s)) s)))
    | None => Ret (-1) (set_pt_lock l (set_km m s))
    end.
Proof.
  intros Hc Hn Hs Hf Hl. unfold kill.
  destruct (ks_acquire_pt i s n cp cq Hc) as (m & l & He & Hh & Hc1 & _); [unfold shallow in *; lia|done|].
  rewrite (bind_Ret _ _ _ _ _ He). set (s1 := set_pt_lock l (set_km m s)).
  destruct (list_find _ (procs s)) as [[j r]|] eqn:Hfind.
  - apply list_find_Some in Hfind as (Hj & Hpid & Hbefore).
    assert (j < NPROC)%nat by (rewrite <- Hl; by eapply lookup_lt_Some).
    set (s2 := set_procs (<[j := kill_entry r]> (procs s)) s1).
    destruct (ks_release_pt i s2 (n + 1) cp cq Hc1 Hs) as (m2 & l2 & He2 & Hf2 & Hc2 & _); [lia|done|].
    exists m2, l2. split; [done|]. split; [by replace (n + 1 - 1) with n in Hc2 by lia|].
    rewrite (bind_Ret _ _ _ (Some 0) (set_pt_lock l2 (set_km m2 s2))); [done|].
    apply (for_find_seq_hit _ _ j); [lia| |].
    + intros j' Hj'. destruct (lookup_lt_is_Some_2 (procs s) j') as [r' Hr']; [lia|].
      rewrite (bind_Ret _ _ _ _ _ (get_proc_eq s1 j' r' Hr')).
      destruct (Z.eqb_spec (pid r') pd); [|done]. by destruct (Hbefore j' r' Hr'); [lia|].
    + rewrite (bind_Ret _ _ _ _ _ (get_proc_eq s1 j r Hj)). rewrite Hpid, Z.eqb_refl.
      rewrite (bind_Ret _ _ _ _ _ (upd_proc_eq s1 j r _ Hj)).
      erewrite bind_Ret by (apply get_proc_eq; simpl; apply list_lookup_insert_eq; by eapply lookup_lt_Some).
      assert (when (bool_decide (state (set_killed 1 r) = SLEEPING)) (upd_proc j (set_state RUNNABLE))
        (set_procs (<[j := set_killed 1 r]> (procs s1)) s1) = Ret tt s2) as Hw.
      { unfold s2, kill_entry. case_bool_decide; simpl when; [|done].
        erewrite upd_proc_eq by (simpl; apply list_lookup_insert_eq; by eapply lookup_lt_Some).
        simpl procs. by rewrite list_insert_insert_eq. }
      rewrite (bind_Ret _ _ _ _ _ Hw), (bind_Ret _ _ _ _ _ He2). done.
  - pose proof (proj1 (list_find_None _ _) Hfind) as Hnone.
    destruct (ks_release_pt i s1 (n + 1) cp cq Hc1 Hs) as (m2 & l2 & He2 & Hf2 & Hc2 & _); [lia|done|].
    exists m2, l2. split; [done|]. split; [by replace (n + 1 - 1) with n in Hc2 by lia|].
    rewrite (bind_Ret _ _ _ None s1).
    + rewrite (bind_Ret _ _ _ _ _ He2). done.
    + rewrite (for_find_pure _ _ (fun _ => None)).
      * done.
      * intros j Hj. apply elem_of_seq in Hj. destruct (lookup_lt_is_Some_2 (procs s) j) as [r Hr]; [lia|].
        rewrite (bind_Ret _ _ _ _ _ (get_proc_eq s1 j r Hr)).
        destruct (Z.eqb_spec (pid r) pd) as [Hp|]; [|done]. exfalso.
        rewrite Forall_lookup in Hnone. by apply (Hnone j r Hr).
Qed.

End Loops.

(** ** Changes that keep the invariant *)

Section Keeps.
Context {E : Type} `{EnvLaws E}.
Implicit Types (s : kstate E) (Q : sets).

(** What may happen to the entry [r] of process [i] while the queues stay the same;
    [run] is the process on the CPU. *)
Record entry_step (run : option nat) (i : nat) (r r' : proc) : Prop := {
  es_files : length (ofile r') = length (ofile r);
  es_live : live (state r') = live (state r);
  es_ok : live (state r) = true -> proc_ok r -> proc_ok r';
  es_quantum : live (state r) = true -> ticks_left r' = ticks_left r;
  es_running : state r' = RUNNING -> state r = RUNNING;
  es_ctx : live (state r) = true -> run <> Some i -> ctx r' = ctx r;
  es_zombie : state r = ZOMBIE -> run = Some i -> state r' = ZOMBIE /\ ticks_left r' = ticks_left r
}.

Lemma entry_step_refl run i r : entry_step run i r r.
Proof. by constructor. Qed.

Lemma kernel_procs s Q run n cp cq C ps' : kernel s Q run n cp cq C -> length ps' = length (procs s) ->
  (forall i r', ps' !! i = Some r' -> exists r, procs s !! i = Some r /\ entry_step (fst <$> run) i r r') ->
  kernel (set_procs ps' s) Q run n cp cq C.
Proof.
  intros (Hr & (Hq & Hp & Ho) & Hpk & Hrest) Hl Hst. split; [done|]. split; [split; [done|]; split|split; [|done]].
  - apply (procs_ok_map (procs s) _ _ (fst <$> run)); [done|done|]. intros i r' Hi.
    destruct (Hst i r' Hi) as (r & Hr0 & [H1 H2 H3 H4 H5 H6 H7]). exists r. simpl.
    do 3 (split; [done|]). rewrite H2. split; [auto|]. split.
    + intros Hlv Hne. unfold quantum_ok. rewrite (H4 Hlv). by apply (pk_quantum _ _ _ Hp i r Hr0).
    + intros Hrun. by apply (pk_running _ _ _ Hp i r Hr0), H5.
  - destruct run as [[p k]|]; [|done]. destruct Ho as [Hk (r & Hr0 & Hb & Hc)]. constructor; [done|].
    destruct (lookup_lt_is_Some_2 ps' p) as [r' Hr']; [rewrite Hl; by eapply lookup_lt_Some|].
    destruct (Hst p r' Hr') as (r0 & Hr1 & [H1 H2 H3 H4 H5 H6 H7]). assert (r0 = r) as -> by congruence.
    exists r'. split; [done|]. destruct Hc as [Hz|[Hlv Hin]].
    + destruct (H7 Hz eq_refl) as [Hz' ->]. split; [done|]. by left.
    + rewrite (H4 Hlv), H2. split; [done|]. by right.
  - intros i r' Hi Hin Hne. destruct (Hst i r' Hi) as (r & Hr0 & [H1 H2 H3 H4 H5 H6 H7]).
    rewrite H6; [by apply (Hpk i r Hr0)| |done]. by apply (pk_queued _ _ _ Hp i r Hr0).
Qed.

(** The change of one entry. *)
Lemma kernel_upd s Q run n cp cq C p r r' : kernel s Q run n cp cq C -> procs s !! p = Some r ->
  entry_step (fst <$> run) p r r' -> kernel (set_procs (<[p := r']> (procs s)) s) Q run n cp cq C.
Proof.
  intros Hk Hp Hst. apply kernel_procs; [done|apply length_insert|].
  intros i x [[-> ->]|[Hne Hi]]%(insert_inv _ _ _ _ _ _ Hp); [by exists r|].
  exists x. split; [done|]. apply entry_step_refl.
Qed.

(** While [p] runs: changes that leave its state and its quantum alone. *)
Lemma own_procs p i n s ps' : Own p i n s -> length ps' = length (procs s) ->
  (forall j r', ps' !! j = Some r' -> exists r, procs s !! j = Some r /\ entry_step (Some p) j r r') ->
  (forall r', ps' !! p = Some r' -> state r' = RUNNING) -> Own p i n (set_procs ps' s).
Proof.
  intros (Q & k & Hk & Hi & r & v & Hr & Hst & Ht & Hv & Hz) Hl Hstep Hrun. exists Q, k.
  split; [by apply kernel_procs|]. split; [done|].
  destruct (lookup_lt_is_Some_2 ps' p) as [r' Hr']; [rewrite Hl; by eapply lookup_lt_Some|].
  exists r', v. destruct (Hstep p r' Hr') as (r0 & Hr0 & Hes). assert (r0 = r) as -> by congruence.
  rewrite (es_quantum _ _ _ _ Hes) by (by rewrite Hst). split; [done|]. split; [by apply Hrun|done].
Qed.

Lemma own_upd p i n s j r r' : Own p i n s -> procs s !! j = Some r -> entry_step (Some p) j r r' ->
  (j = p -> state r' = RUNNING) -> Own p i n (set_procs (<[j := r']> (procs s)) s).
Proof.
  intros HO Hj Hst Hrun. pose proof HO as (Q & k & _ & _ & rp & v & Hrp & Hsp & _).
  apply own_procs; [done|apply length_insert| |].
  - intros i' x [[-> ->]|[Hne Hi]]%(insert_inv _ _ _ _ _ _ Hj); [by exists r|].
    exists x. split; [done|]. apply entry_step_refl.
  - intros x [[-> ->]|[Hne Hi]]%(insert_inv _ _ _ _ _ _ Hj); [auto|]. congruence.
Qed.

(** The machine, the console and the like do not matter. *)
Lemma own_ext p i n n' s s' : Own p i n s ->
  active s' = active s -> expired s' = expired s -> level s' = level s -> procs s' = procs s ->
  kpgdir s' = kpgdir s -> tickslock s' = tickslock s -> env s' = env s ->
  kcpu 0 (km s') n' (Some p) (Some i.1) -> Own p i n' s'.
Proof.
  intros (Q & k & Hk & Hi & Hs) E1 E2 E3 E4 E5 E6 E7 Hc. exists Q, k.
  split; [by eapply kernel_ext|]. rewrite E1. split; [done|]. unfold slice. by rewrite E4.
Qed.

Lemma own_env p i n s e : Own p i n s -> env_ok e -> Own p i n (set_env e s).
Proof.
  intros (Q & k & (Hr & Ht & Hpk & Hc & Hkp & Hf & _) & Hi & Hs) He. exists Q, k. done.
Qed.

Lemma own_cpu p i n s : Own p i n s -> kcpu 0 (km s) n (Some p) (Some i.1).
Proof. by intros (Q & k & (_ & _ & _ & Hc & _) & _). Qed.

Lemma own_proc p i n s : Own p i n s -> exists r, procs s !! p = Some r /\ state r = RUNNING /\
  proc_ok r /\ length (ofile r) = NOFILE.
Proof.
  intros (Q & k & (_ & (_ & Hp & _) & _) & _ & r & v & Hr & Hst & _). exists r. split; [done|]. split; [done|].
  split; [|by apply (pk_files _ _ _ Hp p)]. apply (pk_ok _ _ _ Hp p r Hr). by rewrite Hst.
Qed.

Lemma own_len p i n s : Own p i n s -> length (procs s) = NPROC.
Proof. intros (Q & k & (_ & (_ & Hp & _) & _) & _). apply Hp. Qed.

Lemma own_envok p i n s : Own p i n s -> env_ok (env s).
Proof. by intros (Q & k & (_ & _ & _ & _ & _ & _ & He) & _). Qed.

Lemma own_ticks p i n s : Own p i n s -> free_lock (tickslock s).
Proof. by intros (Q & k & (_ & _ & _ & _ & _ & Hf & _) & _). Qed.

Lemma wake_step run i ch r : run <> Some i \/ state r <> SLEEPING -> entry_step run i r (wake ch r).
Proof.
  intros Hne. unfold wake. destruct (bool_decide (state r = SLEEPING)) eqn:Hs; simpl; [|apply entry_step_refl].
  apply bool_decide_eq_true in Hs. destruct (bool_decide (p_chan r = ch)); [|apply entry_step_refl].
  constructor; simpl; rewrite ?Hs; try done. by intros _ [].
Qed.

Lemma fmap_inv {X : Type} (f : X -> X) (l : list X) i y : (f <$> l) !! i = Some y ->
  exists x, l !! i = Some x /\ y = f x.
Proof. rewrite list_lookup_fmap. intros (x & Hx & ->)%fmap_Some. eauto. Qed.

Lemma own_wake p i n s ch : Own p i n s -> Own p i n (set_procs (wake ch <$> procs s) s).
Proof.
  intros HO. destruct (own_proc _ _ _ _ HO) as (rp & Hrp & Hsp & _).
  apply own_procs; [done|apply length_fmap| |].
  - intros j r' (r & Hr & ->)%fmap_inv. exists r. split; [done|]. apply wake_step.
    destruct (decide (j = p)) as [->|]; [right|left; congruence]. simplify_eq. by rewrite Hsp.
  - intros r' (r & Hr & ->)%fmap_inv. simplify_eq. unfold wake. by rewrite Hsp, bool_decide_false by done.
Qed.

(** Nobody on the CPU. *)
Lemma kernel_wake s Q n cp cq C ch : kernel s Q None n cp cq C -> kernel (set_procs (wake ch <$> procs s) s) Q None n cp cq C.
Proof.
  intros Hk. apply kernel_procs; [done|apply length_fmap|].
  intros j r' (r & Hr & ->)%fmap_inv. exists r. split; [done|]. apply wake_step. by left.
Qed.

End Keeps.
