(* ===== verification/ProcSafe.v ===== *)
(** * The process operations keep the invariant

    The code that runs on behalf of a process [p] starts in [Runs p] and ends there,
    gives the CPU away only in [Out p], and panics only when init exits. *)

From stdpp Require Import base tactics list sets strings.
From Stdlib Require Import ZArith Lia.
From S2P Require Import Prelude Params Spinlock ProcState Rsdl RsdlSpec Scheduler SchedRefine SchedInv SchedLoop Proc ProcFacts.
Open Scope Z_scope.

Section Safe.
Context {E : Type} `{EnvLaws E}.
Implicit Types (s : kstate E) (Q : sets).

(** The one panic a user program can cause. *)
Definition allowed (msg : string) : Prop := msg = "init exiting"%string.

(** A process that gave up the CPU gets it back holding the lock of the table; a
    dead one does not get it back. *)
Definition Resumed (p : nat) (s : kstate E) (j : idx) (s' : kstate E) : Prop := Held p j s' /\ ~ zombie s p.

(** A process that gives up the CPU to get it back. *)
Definition Asleep (p : nat) (i : idx) (s : kstate E) : Prop := Out p i s /\ ~ zombie s p.

Abbreviation kwp p := (wp allowed (Out p) (Resumed p)).

(** [Own] without the promise that quantum is left. *)
Definition Ready (p : nat) (i : idx) (n : Z) s : Prop :=
  exists Q k r, kernel s Q (Some (p, k)) n (Some p) (Some i.1) i.2 /\ i.1 = (active s + k)%nat /\
    procs s !! p = Some r /\ state r = RUNNING.

Lemma own_ready p i n s : Own p i n s -> Ready p i n s.
Proof. intros (Q & k & Hk & Hi & r & v & Hr & Hst & _). by exists Q, k, r. Qed.

Lemma ready_ext p i n n' s s' : Ready p i n s ->
  active s' = active s -> expired s' = expired s -> level s' = level s -> procs s' = procs s ->
  kpgdir s' = kpgdir s -> tickslock s' = tickslock s -> env s' = env s ->
  kcpu 0 (km s') n' (Some p) (Some i.1) -> Ready p i n' s'.
Proof.
  intros (Q & k & r & Hk & Hi & Hr & Hs) E1 E2 E3 E4 E5 E6 E7 Hc. exists Q, k, r.
  split; [by eapply kernel_ext|]. by rewrite E1, E4.
Qed.

Lemma out_ext p i s s' : Out p i s ->
  active s' = active s -> expired s' = expired s -> level s' = level s -> procs s' = procs s ->
  kpgdir s' = kpgdir s -> tickslock s' = tickslock s -> env s' = env s -> pt_lock s' = pt_lock s ->
  kcpu 0 (km s') 1 (Some p) (Some i.1) -> Out p i s'.
Proof.
  intros (Q & k & r & Hk & Hi & Hh & Hr & Hs) E1 E2 E3 E4 E5 E6 E7 E8 Hc. exists Q, k, r.
  split; [by eapply kernel_ext|]. by rewrite E1, E4, E8.
Qed.

Lemma ks_holding_pt s n cp cq : kcpu 0 (km s) n cp cq -> shallow n -> 0 < n -> held_by 0 (pt_lock s) ->
  holding ptable_lock s = Ret true s.
Proof.
  intros (c & Ht & Hn & _) Hs Hpos [Hl Hc]. unfold shallow in Hs.
  rewrite (holding_nested ptable_lock s 0 c (pt_lock s)); [|done|lia|done].
  by rewrite Hl, Hc, bool_decide_true.
Qed.

(** ** Giving up the CPU *)

(** The state [sched] leaves behind: the registers are saved. *)
Definition saved (p : nat) (r : proc) (m : mach) (s : kstate E) : kstate E :=
  set_procs (<[p := set_ctx (svc_swtch_ctx (env s)) r]> (procs s)) (set_km m s).

Lemma saved_out p i s r m : Out p i s -> procs s !! p = Some r -> kcpu 0 m 1 (Some p) (Some i.1) ->
  Out p i (saved p r m s).
Proof.
  intros (Q & k & r' & Hk & Hi & Hh & Hr & Hns) Hp Hc. assert (r' = r) as -> by congruence.
  exists Q, k, (set_ctx (svc_swtch_ctx (env s)) r). split; [|split; [done|split; [done|split; [|done]]]].
  - apply (kernel_upd (set_km m s) Q (Some (p, k)) _ _ _ _ p r); [by eapply kernel_ext|done|].
    constructor; try done. by intros _ [].
  - simpl. apply list_lookup_insert_eq. by eapply lookup_lt_Some.
Qed.

Lemma saved_zombie p s r m : procs s !! p = Some r -> zombie (saved p r m s) p <-> zombie s p.
Proof.
  intros Hp. unfold zombie, saved; simpl. rewrite list_lookup_insert_eq by (by eapply lookup_lt_Some).
  split; intros (r' & Hr' & Hz); simplify_eq; eauto.
Qed.

Lemma sched_wp_gen (B : idx -> kstate E -> Prop) p i s r : Out p i s -> procs s !! p = Some r ->
  (forall m, kcpu 0 m 1 (Some p) (Some i.1) -> B i (saved p r m s)) ->
  wp allowed B (Resumed p) i (sched s) (fun j _ s' => Held p j s' /\ ~ zombie s p).
Proof.
  intros HO Hp HB. pose proof HO as (Q & k & r' & Hk & Hi & Hh & Hr & Hns).
  assert (r' = r) as -> by congruence.
  pose proof Hk as (_ & _ & _ & Hc & _). unfold sched.
  destruct (ks_myproc 0 s 1 _ _ Hc shallow_1) as (m & He & Hc1 & _ & _). eapply wp_bind_Ret; [exact He|].
  set (s1 := set_km m s). assert (Out p i s1) as HO1 by (by eapply out_ext).
  eapply wp_bind_Ret; [by apply (ks_holding_pt s1 1 _ _ Hc1 shallow_1)|]. simpl negb. cbv iota.
  eapply wp_bind_Ret; [by apply (ks_mycpu 0 s1 1 _ _ Hc1)|].
  destruct (ks_get_cpu 0 s1 1 _ _ Hc1) as (c & Hg & Hn & Hcp & _). eapply wp_bind_Ret; [exact Hg|].
  rewrite Hn. simpl negb. cbv iota. eapply wp_bind_Ret; [reflexivity|].
  eapply wp_bind_Ret; [by apply (get_proc_eq s1 p r)|]. rewrite bool_decide_false by done.
  eapply wp_bind_Ret; [reflexivity|]. change (mach_of s1) with m. rewrite (kcpu_iflag _ _ _ _ _ Hc1) by lia.
  eapply wp_bind_Ret; [by apply (ks_mycpu 0 s1 1 _ _ Hc1)|]. eapply wp_bind_Ret; [exact Hg|].
  eapply wp_bind_Ret; [by apply (ks_mycpu 0 s1 1 _ _ Hc1)|].
  eapply wp_bind_Ret. { unfold swtch_save. rewrite bind_gets. by apply (upd_proc_eq s1 p r). }
  simpl. split; [by apply HB|].
  intros j s' [[HO' Hh'] Hz]. pose proof (own_cpu _ _ _ _ HO') as Hc'.
  change (wp allowed B (Resumed p) j (bind mycpu (fun i => upd_cpu i (set_intena (intena c))) s')
    (fun j _ s' => Held p j s' /\ ~ zombie s p)).
  eapply wp_bind_Ret; [by apply (ks_mycpu 0 s' 1 _ _ Hc')|].
  destruct (k_upd_cpu_keep 0 s' 1 _ _ (set_intena (intena c)) Hc') as (m2 & He2 & Hc2); [done|].
  rewrite He2. split; [split; [by eapply own_ext|done]|]. intros Hzs. apply Hz.
  by apply (saved_zombie p s r m Hr).
Qed.

Lemma sched_wp p i s : Out p i s -> kwp p i (sched s) (fun j _ s' => Held p j s' /\ ~ zombie s p).
Proof.
  intros HO. pose proof HO as (Q & k & r & _ & _ & _ & Hr & _). apply (sched_wp_gen _ p i s r); [done..|].
  intros m Hc. by apply saved_out.
Qed.

(** The state changes of the running process that precede [sched]. *)
Lemma ready_stop p i s r f : Ready p i 1 s -> held_by 0 (pt_lock s) -> procs s !! p = Some r ->
  (entry_step (Some p) p r (f r)) -> state (f r) <> RUNNING ->
  Out p i (set_procs (<[p := f r]> (procs s)) s).
Proof.
  intros (Q & k & r' & Hk & Hi & Hr & Hst) Hh Hp Hes Hns. assert (r' = r) as -> by congruence.
  exists Q, k, (f r). split; [by eapply kernel_upd|]. split; [done|]. split; [done|]. split; [|done].
  simpl. apply list_lookup_insert_eq. by eapply lookup_lt_Some.
Qed.

Lemma live_step p r st : state r = RUNNING -> live st = true -> st <> RUNNING -> entry_step (Some p) p r (set_state st r).
Proof.
  intros Hr Hst Hne. constructor; simpl; rewrite ?Hr; try done; congruence || (by intros _ []).
Qed.

Lemma release_held p i s : Held p i s -> exists s', release ptable_lock s = Ret tt s' /\ Runs p i s' /\
  procs s' = procs s /\ tickslock s' = tickslock s.
Proof.
  intros [HO Hh]. destruct (ks_release_pt 0 s 1 _ _ (own_cpu _ _ _ _ HO) shallow_1 ltac:(lia) Hh)
    as (m & l & He & Hf & Hc & _).
  eexists. split; [exact He|]. split; [|done]. split; [by eapply own_ext|done].
Qed.

Lemma yield_wp p i s : Ready p i 0 s -> free_lock (pt_lock s) ->
  kwp p i (yield s) (fun j _ s' => Runs p j s').
Proof.
  intros HR Hf. pose proof HR as (Q & k & r & Hk & Hi & Hr & Hst). pose proof Hk as (_ & _ & _ & Hc & _).
  unfold yield. destruct (ks_acquire_pt 0 s 0 _ _ Hc shallow_0 Hf) as (m & l & He & Hh & Hc1 & _).
  eapply wp_bind_Ret; [exact He|].
  destruct (ks_myproc 0 (set_pt_lock l (set_km m s)) 1 _ _ Hc1 shallow_1) as (m2 & He2 & Hc2 & _ & _).
  eapply wp_bind_Ret; [exact He2|]. eapply wp_bind_Ret; [reflexivity|].
  eapply wp_bind_Ret; [by apply (upd_proc_eq _ p r)|]. apply wp_bind.
  eapply wp_mono; [|apply sched_wp].
  - cbv beta. intros j _ s' [HH _]. destruct (release_held p j s' HH) as (s2 & -> & HR2 & _). exact HR2.
  - apply (ready_stop p i (set_km m2 (set_pt_lock l (set_km m s))) r (set_state RUNNABLE)); try done.
    + by eapply ready_ext.
    + by apply live_step.
Qed.

(** The part of [sleep] under the lock of the table. *)
Lemma sleep_core p i s (ch : chan) (k : M (kstate E) unit) Post : Held p i s ->
  (forall j s', Held p j s' -> kwp p j (k s') Post) ->
  kwp p i ((upd_proc p (set_p_chan ch) ;;; upd_proc p (set_state SLEEPING) ;;; sched ;;;
            upd_proc p (set_p_chan NoChan) ;;; k) s) Post.
Proof.
  intros [HO Hh] Hk. destruct (own_proc _ _ _ _ HO) as (r & Hr & Hst & _).
  eapply wp_bind_Ret; [by apply (upd_proc_eq _ p r)|]. set (s1 := set_procs _ s).
  assert (Own p i 1 s1) as HO1.
  { apply (own_upd p i 1 s p r); try done. constructor; try done. by intros _ []. }
  assert (procs s1 !! p = Some (set_p_chan ch r)) as Hr1
    by (simpl; apply list_lookup_insert_eq; by eapply lookup_lt_Some).
  eapply wp_bind_Ret; [by apply (upd_proc_eq _ p (set_p_chan ch r))|]. apply wp_bind.
  eapply wp_mono; [|apply sched_wp].
  - cbv beta. intros j _ s' [[HO' Hh'] _]. destruct (own_proc _ _ _ _ HO') as (r' & Hr' & Hst' & _).
    eapply wp_bind_Ret; [by apply (upd_proc_eq _ p r')|]. apply Hk. split; [|done].
    apply (own_upd p j 1 s' p r'); try done. constructor; try done. by intros _ [].
  - apply (ready_stop p i s1 (set_p_chan ch r) (set_state SLEEPING)); try done; [by apply own_ready|].
    by apply live_step.
Qed.

Lemma held_ext p i s m : Held p i s -> kcpu 0 m 1 (Some p) (Some i.1) -> Held p i (set_km m s).
Proof. intros [HO Hh] Hc. split; [by eapply own_ext|done]. Qed.

Lemma sleep_held_wp p i s ch : Held p i s -> kwp p i (sleep ch PtableLock s) (fun j _ s' => Held p j s').
Proof.
  intros HH. pose proof HH as [HO Hh]. unfold sleep.
  destruct (ks_myproc 0 s 1 _ _ (own_cpu _ _ _ _ HO) shallow_1) as (m & He & Hc1 & _ & _).
  eapply wp_bind_Ret; [exact He|]. cbv iota. eapply wp_bind_Ret; [reflexivity|].
  apply sleep_core; [by apply held_ext|]. done.
Qed.

(** Process [p] runs holding the lock of the clock. *)
Definition TickHeld (p : nat) (i : idx) s : Prop :=
  exists l0, free_lock l0 /\ Own p i 1 (set_tickslock l0 s) /\ held_by 0 (tickslock s) /\ free_lock (pt_lock s).

Lemma sleep_ticks_wp p i s ch : TickHeld p i s ->
  kwp p i (sleep ch (OtherLock ticks_lock) s) (fun j _ s' => TickHeld p j s').
Proof.
  intros (l0 & Hl0 & HO & Hh & Hf). pose proof (own_cpu _ _ _ _ HO) as Hc. unfold sleep.
  destruct (ks_myproc 0 s 1 _ _ Hc shallow_1) as (m & He & Hc1 & _ & _).
  eapply wp_bind_Ret; [exact He|]. cbv iota.
  destruct (ks_acquire_pt 0 (set_km m s) 1 _ _ Hc1 shallow_1 Hf) as (m2 & l2 & He2 & Hh2 & Hc2 & _).
  destruct (ks_release_ticks 0 (set_pt_lock l2 (set_km m2 s)) 2 _ _ Hc2 ltac:(unfold shallow; lia) ltac:(lia) Hh)
    as (m3 & l3 & He3 & Hf3 & Hc3 & _).
  eapply wp_bind_Ret. { rewrite (bind_Ret _ _ _ _ _ He2). exact He3. }
  apply sleep_core.
  - split; [|done]. destruct HO as (Q & k & (Hr & Ht & Hpk & _ & Hkp & _ & Hev) & Hi & Hsl).
    exists Q, k. split; [|done]. by repeat (split; [done|]).
  - intros j s' HH'. destruct (release_held p j s' HH') as (s4 & He4 & [HO4 Hf4] & _ & Htl).
    destruct (ks_acquire_ticks 0 s4 0 _ _ (own_cpu _ _ _ _ HO4) shallow_0 (own_ticks _ _ _ _ HO4))
      as (m5 & l5 & He5 & Hh5 & Hc5 & _).
    rewrite (bind_Ret _ _ _ _ _ He4), He5. exists (tickslock s4). split; [by eapply own_ticks|].
    split; [|done]. by eapply own_ext.
Qed.

End Safe.
