(* ===== verification/Fork.v ===== *)
(** * Creating processes (allocproc, priofork, growproc of proc.c)

    The new process is built in a free slot of the table while the parent runs; the
    rest of the table does not change. *)

From stdpp Require Import base tactics list sets strings.
From Stdlib Require Import ZArith Lia.
From S2P Require Import Prelude Params Spinlock ProcState Rsdl RsdlSpec Scheduler SchedRefine SchedInv SchedLoop Proc ProcFacts ProcSafe.
Open Scope Z_scope.

Section Svc.
Context {E : Type} {I : Type} (P : string -> Prop) (B : I -> kstate E -> Prop) (R : kstate E -> I -> kstate E -> Prop).

Lemma wp_svc {A C : Type} i (f : E -> option (A * E)) (k : A -> M (kstate E) C) s Post :
  (forall a e, f (env s) = Some (a, e) -> wp P B R i (k a (set_env e s)) Post) ->
  wp P B R i (bind (svc f) k s) Post.
Proof.
  intros Hk. unfold svc. apply wp_bind. rewrite bind_get.
  destruct (f (env s)) as [[a e]|] eqn:He; simpl; [|done]. by apply Hk.
Qed.

Lemma wp_svc_ {C : Type} i (f : E -> option E) (k : M (kstate E) C) s Post :
  (forall e, f (env s) = Some e -> wp P B R i (k (set_env e s)) Post) ->
  wp P B R i (bind (svc_ f) (fun _ => k) s) Post.
Proof.
  intros Hk. unfold svc_. apply wp_bind. rewrite bind_get.
  destruct (f (env s)) as [e|] eqn:He; simpl; [|done]. by apply Hk.
Qed.

End Svc.

(** What the code that creates a process relies on: a state of the kernel [F n], [n]
    calls of [pushcli] deep, in which a dead entry of the table may change, and a new
    process may be queued. *)
Class Frame {E : Type} `{SV : Platform E} `{EL : !EnvLaws E} (F : Z -> kstate E -> Prop) (cp cq : option nat) : Prop := {
  fr_cpu : forall n s, F n s -> kcpu 0 (km s) n cp cq;
  fr_len : forall n s, F n s -> length (procs s) = NPROC;
  fr_envok : forall n s, F n s -> env_ok (env s);
  fr_ext : forall n n' s s', F n s ->
    active s' = active s -> expired s' = expired s -> level s' = level s -> procs s' = procs s ->
    kpgdir s' = kpgdir s -> tickslock s' = tickslock s -> env s' = env s ->
    kcpu 0 (km s') n' cp cq -> F n' s';
  fr_env : forall n s e, F n s -> env_ok e -> F n (set_env e s);
  fr_dead : forall n s np r r', F n s -> procs s !! np = Some r -> live (state r) = false ->
    live (state r') = false -> length (ofile r') = length (ofile r) ->
    F n (set_procs (<[np := r']> (procs s)) s);
  fr_new : forall n s np r r', F n s -> procs s !! np = Some r -> live (state r) = false ->
    state r' = RUNNABLE -> proc_ok r' -> quantum_ok r' -> length (ofile r') = NOFILE ->
    ctx_eip (ctx r') = forkret_addr ->
    exists Q, rep s Q /\ sets_ok Q /\ (np ∉ queued Q) /\
      let Q' := place (Z.to_nat (default_level r')) (Z.to_nat (default_level r')) np Q in
      queued Q' ≡ₚ np :: queued Q /\
      forall lv, let s' := set_level lv (set_procs (<[np := r']> (procs s)) s) in rep s' Q' -> F n s'
}.

Section Slot.
Context {E : Type} `{SV : Platform E} `{EL : !EnvLaws E} (F : Z -> kstate E -> Prop).
Implicit Types (s : kstate E) (Q : sets).

(** Slot [np] of the table, which was free in [s0], holds [r]; all else is as in [s0]
    except for the services' state [e], the next pid [nx] and the lock. *)
Record slot (n : Z) (lk : spinlock) (np : nat) (s0 : kstate E) (e : E) (nx : Z)
    (s : kstate E) (r : proc) : Prop := {
  sl_own : F n s;
  sl_lock : pt_lock s = lk;
  sl_np : procs s !! np = Some r;
  sl_dead : live (state r) = false;
  sl_other : forall j, j <> np -> procs s !! j = procs s0 !! j;
  sl_level : active s = active s0 /\ expired s = expired s0 /\ level s = level s0;
  sl_env : env s = e;
  sl_next : nextpid s = nx;
  sl_init : initproc s = initproc s0
}.

Context {cp cq : option nat} `{FR : !Frame F cp cq} {n : Z} {lk : spinlock} {np : nat} {s0 : kstate E} {e : E} {nx : Z}.

Lemma slot_upd {s r} f : slot n lk np s0 e nx s r -> live (state (f r)) = false ->
  length (ofile (f r)) = length (ofile r) ->
  exists s', upd_proc np f s = Ret tt s' /\ slot n lk np s0 e nx s' (f r).
Proof.
  intros [HO Hl Hnp Hd Ho Hq He Hx Hini] Hd' Hf. eexists. split; [by apply upd_proc_eq|].
  constructor; try done.
  - by eapply fr_dead.
  - simpl. apply list_lookup_insert_eq. by eapply lookup_lt_Some.
  - intros j Hj. simpl. rewrite list_lookup_insert_ne by done. auto.
Qed.

Lemma slot_get {s r} : slot n lk np s0 e nx s r -> get_proc np s = Ret r s.
Proof using. intros [HO Hl Hnp Hd Ho Hq He Hx Hini]. by apply get_proc_eq. Qed.

Lemma slot_env {s r} e' : slot n lk np s0 e nx s r -> env_ok e' -> slot n lk np s0 e' nx (set_env e' s) r.
Proof. intros [HO Hl Hnp Hd Ho Hq He Hx Hini] Hok. constructor; try done. by apply fr_env. Qed.

(** The entry of a new process. *)
Definition new_entry (pd kst : Z) (r : proc) : proc :=
  let sp := u32 (u32 (kst + KSTACKSIZE) - TRAPFRAME_SIZE) in
  set_ctx (mkCtx 0 0 0 0 forkret_addr) (
  set_ctx_addr (u32 (u32 (sp - 4) - CONTEXT_SIZE)) (
  set_ctx_ret trapret_addr (
  set_tf_addr sp (
  set_kstack kst (
  set_default_level RSDL_STARTING_LEVEL (
  set_ticks_left RSDL_PROC_QUANTUM (
  set_pid pd (
  set_state EMBRYO r)))))))).

(** The entry after a failure to get a stack. *)
Definition failed_entry (pd : Z) (r : proc) : proc :=
  set_state UNUSED (set_kstack 0 (
  set_default_level RSDL_STARTING_LEVEL (
  set_ticks_left RSDL_PROC_QUANTUM (
  set_pid pd (
  set_state EMBRYO r))))).

(** A change of fields other than the state. *)
Definition keeps_state (f : proc -> proc) : Prop :=
  forall r, state (f r) = state r /\ length (ofile (f r)) = length (ofile r).

Lemma slot_keep {s r} f : slot n lk np s0 e nx s r -> keeps_state f ->
  exists s', upd_proc np f s = Ret tt s' /\ slot n lk np s0 e nx s' (f r).
Proof.
  intros Hs Hf. destruct (Hf r) as [H1 H2]. apply slot_upd; [done|rewrite H1; apply Hs|done].
Qed.

Lemma slot_state {s r} st : slot n lk np s0 e nx s r -> live st = false ->
  exists s', upd_proc np (set_state st) s = Ret tt s' /\ slot n lk np s0 e nx s' (set_state st r).
Proof. intros Hs Hf. by apply slot_upd. Qed.

Lemma slot_tf {s r} t g : slot n lk np s0 e nx s (set_tf t r) ->
  exists s', upd_tf np g s = Ret tt s' /\ slot n lk np s0 e nx s' (set_tf (g t) r).
Proof. intros Hs. by destruct (slot_keep (fun r => set_tf (g (tf r)) r) Hs) as (s' & He & Hs'); [|exists s']. Qed.

Lemma slot_nextpid {s r} v : slot n lk np s0 e nx s r -> slot n lk np s0 e v (set_nextpid v s) r.
Proof.
  intros [HO Hl Hnp Hd Ho Hq He Hx Hini]. constructor; try done.
  apply (fr_ext n n s); try done. by apply (fr_cpu n s).
Qed.

Lemma slot_service {s r} m e' : slot n lk np s0 e nx s r -> kcpu 0 m n cp cq -> env_ok e' ->
  slot n lk np s0 e' nx (set_env e' (set_km m s)) r.
Proof.
  intros [HO Hl Hnp Hd Ho Hq He Hx Hini] Hc Hok. constructor; try done.
  apply fr_env; [|done]. by apply (fr_ext n n s).
Qed.

Lemma slot_initproc {s r} v : slot n lk np s0 e nx s r -> slot n lk np (set_initproc v s0) e nx (set_initproc v s) r.
Proof.
  intros [HO Hl Hnp Hd Ho Hq He Hx Hini]. constructor; try done.
  apply (fr_ext n n s); try done. by apply (fr_cpu n s).
Qed.

End Slot.
Arguments sl_own {E F n lk np s0 e nx s r}.
Arguments sl_env {E F n lk np s0 e nx s r}.
Arguments sl_init {E F n lk np s0 e nx s r}.
Arguments sl_next {E F n lk np s0 e nx s r}.

Section SlotLock.
Context {E : Type} `{SV : Platform E} `{EL : !EnvLaws E} {F : Z -> kstate E -> Prop} {cp cq : option nat} `{FR : !Frame F cp cq}.
Context {lk : spinlock} {np : nat} {s0 : kstate E} {e : E} {nx : Z}.
Implicit Types (s : kstate E) (Q : sets).

Lemma slot_release s r : slot F 1 lk np s0 e nx s r -> held_by 0 lk ->
  exists s' lk', release ptable_lock s = Ret tt s' /\ free_lock lk' /\ slot F 0 lk' np s0 e nx s' r.
Proof.
  intros [HO Hl Hnp Hd Ho Hq He Hx Hini] Hh. rewrite <- Hl in Hh.
  destruct (ks_release_pt 0 s 1 _ _ (fr_cpu _ _ HO) shallow_1 ltac:(lia) Hh) as (m & l & Hr & Hf & Hc & _).
  eexists _, l. split; [exact Hr|]. split; [done|]. constructor; try done. by eapply fr_ext.
Qed.

Lemma slot_acquire s r : slot F 0 lk np s0 e nx s r -> free_lock lk ->
  exists s' lk', acquire ptable_lock s = Ret tt s' /\ held_by 0 lk' /\ slot F 1 lk' np s0 e nx s' r.
Proof.
  intros [HO Hl Hnp Hd Ho Hq He Hx Hini] Hf. rewrite <- Hl in Hf.
  destruct (ks_acquire_pt 0 s 0 _ _ (fr_cpu _ _ HO) shallow_0 Hf) as (m & l & Hr & Hh & Hc & _).
  eexists _, l. split; [exact Hr|]. split; [done|]. constructor; try done. by eapply fr_ext.
Qed.

End SlotLock.

Section Frames.
Context {E : Type} `{SV : Platform E} `{EL : !EnvLaws E}.
Implicit Types (s : kstate E) (Q : sets).

Lemma dead_step run np r r' : run <> Some np -> live (state r) = false -> live (state r') = false ->
  length (ofile r') = length (ofile r) -> entry_step run np r r'.
Proof.
  intros Hne H1 H2 Hf. constructor; rewrite ?H1, ?H2; try done. intros Hr. by rewrite Hr in H2.
Qed.

Lemma kernel_new s Q run n cp cq C np r r' : kernel s Q run n cp cq C -> procs s !! np = Some r ->
  live (state r) = false -> (fst <$> run) <> Some np -> state r' = RUNNABLE -> proc_ok r' -> quantum_ok r' ->
  length (ofile r') = NOFILE -> ctx_eip (ctx r') = forkret_addr ->
  sets_ok Q /\ (np ∉ queued Q) /\
  let Q' := place (Z.to_nat (default_level r')) (Z.to_nat (default_level r')) np Q in
  queued Q' ≡ₚ np :: queued Q /\
  forall lv, let s' := set_level lv (set_procs (<[np := r']> (procs s)) s) in rep s' Q' ->
    kernel s' Q' run n cp cq C.
Proof.
  intros (Hrep & Ht & Hpk & Hrest) Hnp Hd Hne Hst Hok Hqt Hf Hctx. split; [apply Ht|].
  destruct (table_new _ _ _ _ _ r' Ht Hnp Hd Hne Hst Hok Hqt Hf) as (Hnq & Ht' & Hperm).
  split; [done|]. split; [done|]. intros lv s' Hrep'. split; [done|]. split; [exact Ht'|]. split; [|exact Hrest].
  intros j x [[-> ->]|[Hj Hx']]%(insert_inv _ _ _ _ _ _ Hnp) Hin Hrun; [by left|].
  rewrite Hperm in Hin. apply elem_of_cons in Hin as [->|Hin]; [done|]. by apply (Hpk j x).
Qed.

(** The process that runs. *)
#[export] Instance own_frame p i : Frame (Own p i) (Some p) (Some i.1).
Proof.
  split.
  - apply own_cpu.
  - apply own_len.
  - apply own_envok.
  - intros n n' s s'. apply own_ext.
  - intros n s e. apply own_env.
  - intros n s np r r' HO Hr Hd Hd' Hf. destruct (own_proc _ _ _ _ HO) as (rp & Hrp & Hsp & _).
    assert (np <> p) as Hne by (intros ->; simplify_eq; by rewrite Hsp in Hd).
    apply (own_upd p i n s np r); try done. apply dead_step; congruence.
  - intros n s np r r' HO Hr Hd Hst Hok Hqt Hf Hctx. destruct (own_proc _ _ _ _ HO) as (rp & Hrp & Hsp & _).
    assert (np <> p) as Hne by (intros ->; simplify_eq; by rewrite Hsp in Hd).
    destruct HO as (Q & k & Hk & Hi & rp' & w & Hrp' & Hst' & Htk & Hv & Hvz).
    destruct (kernel_new _ _ _ _ _ _ _ np r r' Hk Hr Hd) as (Hok' & Hnq & Hperm & Hker); try done; [simpl; congruence|].
    exists Q. split; [apply Hk|]. do 3 (split; [done|]). intros lv s' Hrep'. 
    eexists _, k. split; [by apply Hker|]. split; [done|].
    destruct (push_at_level (target (Z.to_nat (default_level r')) (Z.to_nat (default_level r')) Q.1) np Q k w Hv) as (w' & Hv' & Hvq).
    exists rp', w'. simpl. rewrite list_lookup_insert_ne by done. rewrite Hvq. done.
Qed.

(** No process runs. *)
Definition Unowned (C : nat -> Prop) (n : Z) s : Prop := exists Q, kernel s Q None n None None C.

#[export] Instance unowned_frame C : Frame (Unowned C) None None.
Proof.
  split.
  - intros n s (Q & _ & _ & _ & Hc & _). done.
  - intros n s (Q & _ & (_ & Hp & _) & _). apply Hp.
  - intros n s (Q & _ & _ & _ & _ & _ & _ & He). done.
  - intros n n' s s' (Q & Hk) E1 E2 E3 E4 E5 E6 E7 Hc. exists Q. by eapply kernel_ext.
  - intros n s e (Q & Hr & Ht & Hpk & Hc & Hkp & Hf & _) He. by exists Q.
  - intros n s np r r' (Q & Hk) Hr Hd Hd' Hf. exists Q. eapply kernel_upd; [done..|]. by apply dead_step.
  - intros n s np r r' (Q & Hk) Hr Hd Hst Hok Hqt Hf Hctx. exists Q. split; [apply Hk|].
    destruct (kernel_new _ _ _ _ _ _ _ np r r' Hk Hr Hd) as (Hok' & Hnq & Hperm & Hker); try done.
    do 3 (split; [done|]). intros lv s' Hrep'. eexists. by apply Hker.
Qed.

End Frames.

(** Run one assignment to the new process's entry. *)
Ltac slot_step H :=
  let s' := fresh "s" in let He := fresh "He" in let H' := fresh "Hs" in
  match goal with
  | |- wp _ _ _ _ (bind (upd_proc _ (set_state ?st)) _ _) _ =>
      destruct (slot_state _ st H) as (s' & He & H'); [reflexivity|]
  | |- wp _ _ _ _ (bind (upd_proc _ ?f) _ _) _ =>
      destruct (slot_keep _ f H) as (s' & He & H'); [intros ?; split; reflexivity|]
  end;
  eapply wp_bind_Ret; [exact He|]; clear He; clear H; rename H' into H; cbv beta in H.

(** Run one assignment to its trap frame. *)
Ltac slot_tf_step H :=
  let s' := fresh "s" in let He := fresh "He" in let H' := fresh "Hs" in
  match goal with
  | |- wp _ _ _ _ (bind (upd_tf _ ?g) _ _) _ => destruct (slot_tf _ _ g H) as (s' & He & H')
  end;
  eapply wp_bind_Ret; [exact He|]; clear He; clear H; rename H' into H; cbv beta in H.

Section Fork.
Context {E : Type} `{SV : Platform E} `{EL : !EnvLaws E}.
Context {F : Z -> kstate E -> Prop} {cp cq : option nat} `{FR : !Frame F cp cq}.
Context (P : string -> Prop) (B : idx -> kstate E -> Prop) (R : kstate E -> idx -> kstate E -> Prop).
Implicit Types (s : kstate E) (Q : sets).
Abbreviation fwp := (wp P B R).

(** The search for a free slot. *)
Lemma find_unused s : length (procs s) = NPROC ->
  exists found, for_find (seq 0 NPROC) (fun p =>
    r <- get_proc p ;; ret (if bool_decide (state r = UNUSED) then Some p else None)) s = Ret found s /\
  match found with
  | None => forall k r, procs s !! k = Some r -> state r <> UNUSED
  | Some np => exists r, procs s !! np = Some r /\ state r = UNUSED /\
      forall k rk, (k < np)%nat -> procs s !! k = Some rk -> state rk <> UNUSED
  end.
Proof.
  intros Hl. eexists. split.
  - apply (for_find_pure _ _ (fun p => match procs s !! p with
      | Some r => if bool_decide (state r = UNUSED) then Some p else None | None => None end)).
    intros k Hk. apply elem_of_seq in Hk. destruct (lookup_lt_is_Some_2 (procs s) k) as [r Hr]; [lia|].
    rewrite (bind_Ret _ _ _ _ _ (get_proc_eq s k r Hr)). by rewrite Hr.
  - destruct (first_some _ _) as [np|] eqn:Hf.
    + apply first_some_seq_inv in Hf as (k & Hk & Hf & Hb). destruct (procs s !! k) as [r|] eqn:Hr; [|done].
      case_bool_decide as Hst; [|done]. simplify_eq. exists r. split; [done|]. split; [done|].
      intros k rk Hlt Hrk. specialize (Hb k ltac:(lia)). rewrite Hrk in Hb. by case_bool_decide.
    + rewrite first_some_None in Hf. intros k r Hr. assert (k < NPROC)%nat by (rewrite <- Hl; by eapply lookup_lt_Some).
      specialize (Hf k ltac:(apply elem_of_seq; lia)). rewrite Hr in Hf. by case_bool_decide.
Qed.

(** What [allocproc] answers in state [s]. *)
Definition alloc_result (s : kstate E) (a : option nat) (s' : kstate E) : Prop :=
  match a with
  | None =>
      (forall k r, procs s !! k = Some r -> state r <> UNUSED) /\ procs s' = procs s \/
      exists np r, procs s !! np = Some r /\ state r = UNUSED /\ (svc_kalloc (env s)).1 = 0 /\
        procs s' !! np = Some (failed_entry (nextpid s) r) /\
        (forall k, k <> np -> procs s' !! k = procs s !! k)
  | Some np => exists r, procs s !! np = Some r /\ state r = UNUSED /\ (svc_kalloc (env s)).1 <> 0 /\
      (forall k rk, (k < np)%nat -> procs s !! k = Some rk -> state rk <> UNUSED) /\
      slot F 0 (pt_lock s') np s (svc_kalloc (env s)).2 (i32 (nextpid s + 1)) s'
        (new_entry (nextpid s) (svc_kalloc (env s)).1 r)
  end.

Lemma allocproc_wp i s : F 0 s -> free_lock (pt_lock s) ->
  fwp i (allocproc s) (fun j a s' => j = i /\ F 0 s' /\ free_lock (pt_lock s') /\ alloc_result s a s').
Proof.
  intros HO Hf. unfold allocproc.
  destruct (ks_acquire_pt 0 s 0 _ _ (fr_cpu _ _ HO) shallow_0 Hf) as (m & l & He & Hh & Hc1 & _).
  eapply wp_bind_Ret; [exact He|]. set (s1 := set_pt_lock l (set_km m s)).
  assert (F 1 s1) as HO1 by (by apply (fr_ext 0 1 s)).
  destruct (find_unused s1 (fr_len _ _ HO1)) as (found & Hfind & Hfd). eapply wp_bind_Ret; [exact Hfind|].
  destruct found as [np|].
  2:{ destruct (ks_release_pt 0 s1 1 _ _ Hc1 shallow_1 ltac:(lia) Hh) as (m2 & l2 & He2 & Hf2 & Hc2 & _).
      eapply wp_bind_Ret; [exact He2|]. simpl. split; [done|]. split; [by apply (fr_ext 1 0 s1)|]. split; [done|]. by left. }
  destruct Hfd as (r & Hr & Hst & Hbefore). change (procs s1) with (procs s) in *.
  assert (slot F 1 l np s (env s) (nextpid s) s1 r) as Hs by (constructor; try done; by rewrite Hst).
  slot_step Hs. rewrite wp_bind_gets. rewrite (sl_next Hs).
  slot_step Hs. eapply wp_bind_Ret; [reflexivity|]. apply (slot_nextpid _ (i32 (nextpid s + 1))) in Hs.
  slot_step Hs. slot_step Hs.
  destruct (slot_release _ _ Hs Hh) as (s6 & lk & He6 & Hf6 & Hs6). clear Hs.
  eapply wp_bind_Ret; [exact He6|]. clear He6. apply wp_svc. intros kst e Hk.
  rewrite (sl_env Hs6) in Hk. injection Hk as Hk.
  assert (kst = (svc_kalloc (env s)).1 /\ e = (svc_kalloc (env s)).2) as [-> ->] by (by rewrite Hk).
  apply (slot_env _ (svc_kalloc (env s)).2) in Hs6; [|apply el_kalloc; by eapply fr_envok].
  slot_step Hs6. destruct (Z.eqb_spec (svc_kalloc (env s)).1 0) as [Hz|Hz].
  - slot_step Hs6. destruct Hs6 as [HO7 Hl7 Hnp7 Hd7 Ho7 Hq7 He7 Hx7 Hini7]. simpl. split; [done|].
    split; [done|]. split; [by rewrite Hl7|]. right. exists np, r. rewrite Hz in Hnp7. done.
  - slot_step Hs6. slot_step Hs6. slot_step Hs6. slot_step Hs6. slot_step Hs6.
    pose proof Hs6 as [HO7 Hl7 Hnp7 Hd7 Ho7 Hq7 He7 Hx7 Hini7]. simpl. split; [done|].
    split; [done|]. split; [by rewrite Hl7|]. exists r. do 4 (split; [done|]). rewrite Hl7. exact Hs6.
Qed.

(** ** The open files of the child *)

Lemma slot_parent p n lk np s0 e nx s r cr : slot F n lk np s0 e nx s r -> procs s0 !! p = Some cr -> p <> np ->
  get_proc p s = Ret cr s.
Proof using.
  intros [HO Hl Hnp Hd Ho Hq He Hx Hini] Hcr Hne. apply get_proc_eq. by rewrite Ho.
Qed.

(** The files [fs'] are those of [fs], with the parent's open files [src] at the
    indexes [a], ..., [a + n - 1]. *)
Definition files_copied (src fs fs' : list (option nat)) (a n : nat) : Prop :=
  length fs' = length fs /\
  forall x, fs' !! x = if decide (a <= x < a + n)%nat
                       then match src !! x with Some (Some f) => Some (Some f) | _ => fs !! x end
                       else fs !! x.

Lemma fork_files_loop p i lk np s0 nx cr r n : p <> np -> procs s0 !! p = Some cr -> length (ofile cr) = NOFILE ->
  live (state r) = false ->
  forall a e s fs, (a + n <= NOFILE)%nat -> length fs = NOFILE -> length (ofile r) = NOFILE ->
  slot F 0 lk np s0 e nx s (set_ofile fs r) ->
  fwp i (for_each (seq a n) (fun i =>
      r <- get_proc p ;; f <- deref (ofile r !! i) ;;
      match f with
      | Some f => svc_ (svc_filedup f) ;;;
                  upd_proc np (fun r => set_ofile (<[i := Some f]> (ofile r)) r)
      | None => ret tt
      end) s)
    (fun j _ s' => j = i /\ exists fs' e', files_copied (ofile cr) fs fs' a n /\
       slot F 0 lk np s0 e' nx s' (set_ofile fs' r)).
Proof.
  intros Hne Hcr Hcf Hd. induction n as [|n IH]; intros a e s fs Ha Hfs Hrf Hs.
  - simpl. split; [done|]. exists fs, e. split; [|done]. split; [done|]. intros x. by rewrite decide_False by lia.
  - simpl for_each. destruct (lookup_lt_is_Some_2 (ofile cr) a) as [f Hf]; [lia|].
    assert (forall fs1 e1 s1, files_copied (ofile cr) fs fs1 a 1 -> slot F 0 lk np s0 e1 nx s1 (set_ofile fs1 r) ->
      fwp i (for_each (seq (S a) n) (fun i =>
        r <- get_proc p ;; f <- deref (ofile r !! i) ;;
        match f with
        | Some f => svc_ (svc_filedup f) ;;;
                    upd_proc np (fun r => set_ofile (<[i := Some f]> (ofile r)) r)
        | None => ret tt
        end) s1)
      (fun j _ s' => j = i /\ exists fs' e', files_copied (ofile cr) fs fs' a (S n) /\
         slot F 0 lk np s0 e' nx s' (set_ofile fs' r))) as Hnext.
    { intros fs1 e1 s1 [Hl1 H1] Hs1. eapply wp_mono; [|apply (IH (S a) e1 s1 fs1); [lia|lia|done|done]].
      cbv beta. intros j _ s' [-> (fs' & e' & [Hl2 H2] & Hs')]. split; [done|]. exists fs', e'. split; [|done].
      split; [lia|]. intros x. rewrite H2, H1. repeat case_decide; try done; try lia. }
    apply wp_bind. eapply wp_bind_Ret; [by eapply slot_parent|].
    eapply wp_bind_Ret; [by rewrite Hf|]. destruct f as [f|].
    + apply wp_svc_. intros e1 He1.
      apply (slot_env _ e1) in Hs.
      2:{ eapply el_filedup; [|exact He1]. by eapply fr_envok, sl_own. }
      destruct (slot_upd _ (fun r => set_ofile (<[a := Some f]> (ofile r)) r) Hs) as (s1 & He2 & Hs1).
      { done. } { simpl. by rewrite length_insert. }
      rewrite He2. simpl. apply (Hnext (<[a := Some f]> fs) e1 s1); [|done]. split; [apply length_insert|].
      intros x. case_decide as Hx.
      * assert (x = a) as -> by lia. rewrite list_lookup_insert_eq by lia. by rewrite Hf.
      * by rewrite list_lookup_insert_ne by lia.
    + simpl. apply (Hnext fs e s); [|done]. split; [done|]. intros x. case_decide; [|done].
      assert (x = a) as -> by lia. by rewrite Hf.
Qed.

Lemma fork_files_wp p i lk np s0 e nx cr r s d :
  p <> np -> procs s0 !! p = Some cr -> length (ofile cr) = NOFILE -> cwd cr = Some d ->
  length (ofile r) = NOFILE -> slot F 0 lk np s0 e nx s r ->
  fwp i (fork_files p np s)
    (fun j _ s' => j = i /\ exists fs e', files_copied (ofile cr) (ofile r) fs 0 NOFILE /\
       slot F 0 lk np s0 e' nx s' (set_cwd (Some d) (set_ofile fs r))).
Proof.
  intros Hne Hcr Hcf Hd Hrf Hs. unfold fork_files. apply wp_bind.
  assert (live (state r) = false) as Hdead by apply Hs.
  assert (set_ofile (ofile r) r = r) as Hid by (by destruct r).
  eapply wp_mono; [|apply (fork_files_loop p i lk np s0 nx cr r NOFILE Hne Hcr Hcf Hdead 0 e s (ofile r));
    [done|done|done|by rewrite Hid]].
  cbv beta. intros j _ s1 [-> (fs & e1 & Hfs & Hs1)].
  eapply wp_bind_Ret; [by eapply slot_parent|]. eapply wp_bind_Ret; [by rewrite Hd|].
  apply wp_svc_. intros e2 He2. apply (slot_env _ e2) in Hs1.
  2:{ eapply el_idup; [|exact He2]. by eapply fr_envok, sl_own. }
  destruct (slot_upd _ (set_cwd (Some d)) Hs1) as (s3 & He3 & Hs3); [done|done|].
  rewrite He3. simpl. split; [done|]. eauto.
Qed.

(** ** Into the queues *)

(** The last step: the new process is ready, and queued at its level. *)
Lemma ready_eq lk np s0 e nx s r : slot F 1 lk np s0 e nx s r -> proc_ok r -> quantum_ok r ->
  length (ofile r) = NOFILE -> ctx_eip (ctx r) = forkret_addr ->
  exists s', (forall A (k : M (kstate E) A),
      (upd_proc np (set_state RUNNABLE) ;;;
       r <- get_proc np ;;
       q <- find_available_queue (default_level r) (default_level r) ;;
       enqueue_proc (Some np) q ;;; k) s = k s') /\
    F 1 s' /\ pt_lock s' = lk /\ procs s' = <[np := set_state RUNNABLE r]> (procs s) /\ nextpid s' = nx /\
    initproc s' = initproc s0 /\
    let dl := Z.to_nat (default_level r) in
    exists Q, rep s0 Q /\ rep s' (place dl dl np Q) /\ queued (place dl dl np Q) ≡ₚ np :: queued Q.
Proof.
  intros Hs Hok Hqt Hf Hctx. pose proof Hs as [HO Hl Hnp Hd Ho (Hq1 & Hq2 & Hq3) He Hx Hini].
  set (r1 := set_state RUNNABLE r). set (s1 := set_procs (<[np := r1]> (procs s)) s).
  assert (procs s1 !! np = Some r1) as Hnp1 by (simpl; apply list_lookup_insert_eq; by eapply lookup_lt_Some).
  assert (proc_ok r1) as Hok1 by (by destruct Hok).
  destruct (fr_new 1 s np r r1 HO Hnp Hd eq_refl Hok1 Hqt Hf Hctx) as (Q & Hrep & Hsok & Hnq & Hperm & Hnew).
  pose proof (fr_cpu 1 s HO) as Hc. destruct (kcpu_in_cli 0 s1 1 _ _ Hc) as [c Hcli]; [lia|apply shallow_1|].
  assert (np < NPROC)%nat as Hlt by (rewrite <- (fr_len _ _ HO); by eapply lookup_lt_Some).
  assert (0 <= default_level r < Z.of_nat RSDL_LEVELS) as Hdlr by apply Hok.
  destruct (place_eq true s1 0 c Q (default_level r) (default_level r) np Hcli Hrep Hsok Hnq Hlt) as (lv & Hpl & Hrep').
  { split; [lia|by left]. } { done. }
  exists (set_level lv s1). split.
  { intros A k. rewrite (bind_Ret _ _ _ _ _ (upd_proc_eq s np r _ Hnp)).
    rewrite (bind_Ret _ _ _ _ _ (get_proc_eq s1 np r1 Hnp1)). exact (bind_bind_Ret _ _ _ _ _ _ Hpl). }
  split; [by apply Hnew|]. do 4 (split; [done|]). exists Q. split; [|split; [exact Hrep'|exact Hperm]].
  apply (repr_ext s); [congruence..|exact Hrep].
Qed.

End Fork.

Section Priofork.
Context {E : Type} `{SV : Platform E} `{EL : !EnvLaws E}.
Context (P : string -> Prop) (B : idx -> kstate E -> Prop) (R : kstate E -> idx -> kstate E -> Prop).
Implicit Types (s : kstate E) (Q : sets).
Abbreviation fwp := (wp P B R).

(** ** priofork *)

(** The child [r] of process [cr], created in slot [np]. *)
Record child (s : kstate E) (p np : nat) (dl : Z) (cr r : proc) : Prop := {
  ch_state : state r = RUNNABLE;
  ch_pid : pid r = nextpid s;
  ch_parent : parent r = Some p;
  ch_level : default_level r = dl;
  ch_quantum : ticks_left r = RSDL_PROC_QUANTUM;
  ch_sz : sz r = sz cr;
  ch_tf : tf r = set_tf_eax 0 (tf cr);
  ch_cwd : cwd r = cwd cr;
  ch_start : ctx_eip (ctx r) = forkret_addr;
  ch_files : forall x f, ofile cr !! x = Some (Some f) -> ofile r !! x = Some (Some f)
}.

(** Why no child was created; the processes there were are as before. *)
Definition fork_failed (p : nat) (s : kstate E) (dl : Z) (s' : kstate E) : Prop :=
  (forall j r, procs s !! j = Some r -> state r <> UNUSED -> procs s' !! j = Some r) /\
  (dl < 0 \/ Z.of_nat RSDL_LEVELS <= dl \/
   (forall j r, procs s !! j = Some r -> state r <> UNUSED) \/
   (svc_kalloc (env s)).1 = 0 \/
   exists cr e, procs s !! p = Some cr /\ svc_copyuvm (pgdir cr) (sz cr) (svc_kalloc (env s)).2 = Some (0, e)).

Definition fork_result (p : nat) (s : kstate E) (dl : Z) (a : Z) (s' : kstate E) : Prop :=
  a = -1 /\ fork_failed p s dl s' \/
  exists np r0 cr r, a = nextpid s /\ procs s !! p = Some cr /\ procs s !! np = Some r0 /\ state r0 = UNUSED /\
    procs s' !! np = Some r /\ child s p np dl cr r /\ (forall j, j <> np -> procs s' !! j = procs s !! j) /\
    nextpid s' = i32 (nextpid s + 1) /\
    exists Q, rep s Q /\ rep s' (place (Z.to_nat dl) (Z.to_nat dl) np Q) /\
      queued (place (Z.to_nat dl) (Z.to_nat dl) np Q) ≡ₚ np :: queued Q.

Lemma priofork_wp p i s dl : Runs p i s ->
  fwp i (priofork dl s) (fun j a s' => j = i /\ Runs p i s' /\ fork_result p s dl a s').
Proof.
  intros HR. pose proof HR as [HO Hf]. destruct (own_proc _ _ _ _ HO) as (cr & Hcr & Hst & Hok & Hfl).
  unfold priofork.
  destruct (ks_myproc 0 s 0 _ _ (own_cpu _ _ _ _ HO) shallow_0) as (m & He & Hc1 & _ & _).
  eapply wp_bind_Ret; [exact He|]. set (s1 := set_km m s).
  assert (Runs p i s1) as HR1 by (split; [by eapply own_ext|done]).
  destruct (Z.leb_spec (Z.of_nat RSDL_LEVELS) dl) as [?|Hlt];
    [simpl; split; [done|split; [done|left; split; [done|split; [done|auto]]]]|].
  destruct (Z.ltb_spec dl 0) as [?|Hge];
    [simpl; split; [done|split; [done|left; split; [done|split; [done|auto]]]]|].
  apply wp_bind. eapply wp_mono; [|apply (allocproc_wp (F := Own p i) P B R i s1 (proj1 HR1) (proj2 HR1))]. cbv beta.
  intros j [np|] s2 (-> & HO2 & Hf2 & Ha).
  2:{ simpl. split; [done|]. split; [done|]. left. split; [done|].
      destruct Ha as [[Hu Hps]|(np & r & Hr & Hu & Hz & _ & Ho)]; [split; [by rewrite Hps|auto]|].
      split; [|auto]. intros j rj Hj Hne. rewrite Ho; [done|]. intros ->. change (procs s1) with (procs s) in Hr. congruence. }
  destruct Ha as (r0 & Hr0 & Hu & Hkst & Hbefore & Hs). simpl in Hr0, Hs, Hkst.
  set (kst := (svc_kalloc (env s)).1) in *. set (r := new_entry (nextpid s) kst r0) in *.
  assert (length (ofile r0) = NOFILE) as Hfl0.
  { destruct HO as (Q & k & (_ & (_ & Hp & _) & _) & _). by apply (pk_files _ _ _ Hp np). }
  assert (p <> np) as Hne by congruence.
  eapply wp_bind_Ret; [reflexivity|]. eapply wp_bind_Ret; [by eapply slot_parent|].
  apply wp_svc. intros pg e1 He1.
  destruct (el_copyuvm _ _ _ _ _ (own_envok _ _ _ _ (sl_own Hs)) He1) as [Hev Hpg].
  pose proof (sl_env Hs) as He0. simpl in He0. rewrite He0 in He1.
  apply (slot_env _ e1) in Hs; [|done]. slot_step Hs.
  destruct (Z.eqb_spec pg 0) as [Hz|Hz].
  { eapply wp_bind_Ret; [by eapply slot_get|]. apply wp_svc_. intros e2 He2.
    apply (slot_env _ e2) in Hs.
    2:{ eapply el_kfree; [|exact He2]. by eapply own_envok, sl_own. }
    slot_step Hs. slot_step Hs. simpl. split; [done|].
    destruct Hs as [HO3 Hl3 _ _ Ho3 _ _ _ _]. split; [split; [done|by rewrite Hl3]|]. left. split; [done|]. split.
    - intros j rj Hj Hu'. rewrite Ho3; [done|]. intros ->. congruence.
    - do 4 right. exists cr, e1. split; [done|]. by rewrite <- Hz. }
  slot_step Hs. slot_step Hs. slot_step Hs. unfold upd_tf at 1. slot_step Hs.
  apply wp_bind. destruct (cwd cr) as [d|] eqn:Hd; [|by destruct (po_cwd _ Hok)].
  eapply wp_mono; [|eapply (fork_files_wp (F := Own p i) P B R p i _ _ s1 _ _ cr _ _ d Hne Hcr Hfl Hd); [|exact Hs]; exact Hfl0].
  clear Hs. cbv beta. intros j _ sf [-> (fs & ef & Hfs & Hs)].
  eapply wp_bind_Ret; [by eapply slot_parent|]. slot_step Hs.
  eapply wp_bind_Ret; [by eapply slot_get|]. cbv zeta.
  destruct (slot_acquire _ _ Hs Hf2) as (sg & l7 & He7 & Hh7 & Hs7). clear Hs.
  eapply wp_bind_Ret; [exact He7|]. slot_step Hs7.
  destruct (ready_eq _ _ _ _ _ _ _ Hs7) as (st8 & He8 & HO8 & Hl8 & Hps8 & Hx8 & Hini8 & HQ8); [|done|..|done|].
  { constructor; try done. simpl. destruct Hpg; [done|lia]. }
  { simpl. destruct Hfs as [-> _]. exact Hfl0. }
  rewrite He8. destruct (ks_release_pt 0 st8 1 _ _ (own_cpu _ _ _ _ HO8) shallow_1 ltac:(lia)) as (m9 & l9 & He9 & Hf9 & Hc9 & _).
  { by rewrite Hl8. }
  eapply wp_bind_Ret; [exact He9|]. split; [done|]. split; [split; [by eapply own_ext|done]|].
  pose proof (sl_np _ _ _ _ _ _ _ _ _ Hs7) as Hnp7. pose proof (sl_other _ _ _ _ _ _ _ _ _ Hs7) as Ho7.
  right. eexists np, r0, cr, _. do 4 (split; [done|]). simpl procs. rewrite Hps8.
  split; [apply list_lookup_insert_eq; by eapply lookup_lt_Some|].
  split; [|split; [intros j Hj; rewrite list_lookup_insert_ne by done; by apply Ho7|split; [exact Hx8|exact HQ8]]].
  constructor; try done.
  intros x f Hx. simpl. destruct Hfs as [_ Hfs]. rewrite Hfs, Hx, decide_True; [done|].
  apply lookup_lt_Some in Hx. lia.
Qed.

End Priofork.
