(* ===== verification/Exit.v ===== *)
(** * Exit and wait (proc.c)

    The end of a process: [exit] leaves it in no queue, its children belong to
    init, and its parent is awake; [wait] collects it. *)

From stdpp Require Import base tactics list sets strings.
From Stdlib Require Import ZArith Lia.
From S2P Require Import Prelude Params Spinlock ProcState Rsdl RsdlSpec Scheduler SchedRefine SchedInv SchedLoop Proc ProcFacts ProcSafe Fork.
Open Scope Z_scope.

(** Code that keeps a property of the state and does not give up the CPU. *)
Definition calm {E A : Type} (I : kstate E -> Prop) (m : M (kstate E) A) : Prop :=
  forall s, I s -> wp (fun _ => False) (fun _ _ => False) (fun _ _ _ => False) tt (m s) (fun _ _ s' => I s').

(** Laws of the services that use processes: run by a process they keep the
    invariant, whether they sleep or not; interrupt handlers keep it whoever they
    interrupt, and do not sleep. *)
Class SvcLaws (E : Type) `{SV : Services E} `{EL : !EnvLaws E} := {
  sv_fileclose : forall f p i s, Runs p i s ->
    wp allowed (Asleep p) (Resumed p) i (svc_fileclose f s) (fun j _ s' => Runs p j s');
  sv_iput : forall d p i s, Runs p i s ->
    wp allowed (Asleep p) (Resumed p) i (svc_iput d s) (fun j _ s' => Runs p j s');
  sv_begin_op : forall p i s, Runs p i s ->
    wp allowed (Asleep p) (Resumed p) i (svc_begin_op s) (fun j _ s' => Runs p j s');
  sv_end_op : forall p i s, Runs p i s ->
    wp allowed (Asleep p) (Resumed p) i (svc_end_op s) (fun j _ s' => Runs p j s');
  sv_iinit : forall d p i s, Runs p i s ->
    wp allowed (Asleep p) (Resumed p) i (svc_iinit d s) (fun j _ s' => Runs p j s');
  sv_initlog : forall d p i s, Runs p i s ->
    wp allowed (Asleep p) (Resumed p) i (svc_initlog d s) (fun j _ s' => Runs p j s');
  sv_namei_root : forall s cp cq, kcpu 0 (km s) 0 cp cq -> env_ok (env s) ->
    wp (fun _ => False) (fun _ _ => False) (fun _ _ _ => False) tt (svc_namei_root s)
      (fun _ d s' => d <> None /\ exists m e, s' = set_env e (set_km m s) /\ kcpu 0 m 0 cp cq /\ env_ok e);
  sv_sysfile : forall n p i s, Runs p i s ->
    wp allowed (Asleep p) (Resumed p) i (svc_sysfile n s) (fun j _ s' => Runs p j s');
  sv_ideintr : (forall C, calm (Top C) svc_ideintr) /\ forall p i, calm (Runs p i) svc_ideintr;
  sv_kbdintr : (forall C, calm (Top C) svc_kbdintr) /\ forall p i, calm (Runs p i) svc_kbdintr;
  sv_uartintr : (forall C, calm (Top C) svc_uartintr) /\ forall p i, calm (Runs p i) svc_uartintr
}.

Section Exit.
Context {E : Type} `{SL : SvcLaws E}.
Implicit Types (s : kstate E) (Q : sets).
Abbreviation kwp p := (wp allowed (Out p) (Resumed p)).

(** ** exit *)

(** What holds when process [p] gives up the CPU for good: it is dead and in no
    queue, it has no children, and nobody sleeps where its parent [pp] would wait
    for it. *)
Record exited (p : nat) (s : kstate E) : Prop := {
  ex_queue : forall Q, rep s Q -> p ∉ queued Q;
  ex_children : initproc s <> Some p -> forall j r, procs s !! j = Some r -> parent r <> Some p;
  ex_parent : exists pp, (forall r, procs s !! p = Some r -> parent r = if decide (pp = Some p) then initproc s else pp) /\
    forall j rj, procs s !! j = Some rj -> state rj = SLEEPING -> p_chan rj <> proc_chan pp
}.

(** Given up for good, or to come back. *)
Definition Left (p : nat) (i : idx) (s : kstate E) : Prop := Out p i s /\ (zombie s p -> exited p s).

Lemma own_reparent p i n s ip : Own p i n s -> Own p i n (set_procs (reparent p ip <$> procs s) s).
Proof.
  intros HO. destruct (own_proc _ _ _ _ HO) as (rp & Hrp & Hsp & _).
  apply own_procs; [done|apply length_fmap| |].
  - intros j r' (r & Hr & ->)%fmap_inv. exists r. split; [done|]. unfold reparent.
    case_bool_decide; [|apply entry_step_refl]. constructor; try done. by intros _ [].
  - intros r' (r & Hr & ->)%fmap_inv. assert (r = rp) as -> by congruence. unfold reparent. by case_bool_decide.
Qed.

Lemma own_wake_if p i n s b ch : Own p i n s -> Own p i n (set_procs (wake_if b ch <$> procs s) s).
Proof.
  intros HO. destruct b; [by apply own_wake|].
  assert (wake_if false ch <$> procs s = procs s) as -> by exact (list_fmap_id _). by rewrite set_procs_id.
Qed.

Lemma wake_not_asleep ch r : state (wake ch r) = SLEEPING -> p_chan (wake ch r) <> ch.
Proof.
  unfold wake. destruct (bool_decide (state r = SLEEPING)) eqn:Hs; simpl.
  - apply bool_decide_eq_true in Hs. case_bool_decide; simpl; congruence.
  - apply bool_decide_eq_false in Hs. done.
Qed.

Lemma reparent_fields p ip r : state (reparent p ip r) = state r /\ p_chan (reparent p ip r) = p_chan r.
Proof. unfold reparent. by case_bool_decide. Qed.

Lemma wake_if_asleep b ch ch' r : (state r = SLEEPING -> p_chan r <> ch') ->
  state (wake_if b ch r) = SLEEPING -> p_chan (wake_if b ch r) <> ch'.
Proof. destruct b; [|done]. simpl. unfold wake. destruct (_ && _); [done|done]. Qed.

(** The entries after [exit] of [p]. *)
Definition exit_procs (p : nat) (pp ip : option nat) (b : bool) (ps : list proc) : list proc :=
  reparent p ip <$> (wake_if b (proc_chan ip) <$> (wake (proc_chan pp) <$> ps)).

Lemma own_exit_procs p i n s pp ip b : Own p i n s -> Own p i n (set_procs (exit_procs p pp ip b (procs s)) s).
Proof.
  intros HO. apply (own_wake _ _ _ _ (proc_chan pp)) in HO.
  apply (own_wake_if _ _ _ _ b (proc_chan ip)) in HO. by apply (own_reparent _ _ _ _ ip) in HO.
Qed.

Lemma exit_entry_fields p pp ip b r :
  let r' := reparent p ip (wake_if b (proc_chan ip) (wake (proc_chan pp) r)) in
  ofile r' = ofile r /\ ticks_left r' = ticks_left r /\
  parent r' = (if decide (parent r = Some p) then ip else parent r) /\
  (state r' = SLEEPING -> p_chan r' <> proc_chan pp).
Proof.
  cbv zeta. assert (forall ch r, ofile (wake ch r) = ofile r /\ ticks_left (wake ch r) = ticks_left r) as Hw
    by (intros ch r'; unfold wake; by destruct (_ && _)).
  assert (forall ch r, ofile (wake_if b ch r) = ofile r /\ ticks_left (wake_if b ch r) = ticks_left r) as Hi
    by (intros ch r'; destruct b; [apply Hw|done]).
  set (r1 := wake_if b (proc_chan ip) (wake (proc_chan pp) r)).
  assert (parent r1 = parent r) as Hp by (unfold r1; by rewrite wake_if_parent, wake_parent).
  destruct (reparent_fields p ip r1) as [Hs Hc].
  assert (ofile (reparent p ip r1) = ofile r1 /\ ticks_left (reparent p ip r1) = ticks_left r1) as [-> ->]
    by (unfold reparent; by case_bool_decide).
  unfold r1 at 1 2. rewrite !(proj1 (Hi _ _)), !(proj2 (Hi _ _)), !(proj1 (Hw _ _)), !(proj2 (Hw _ _)).
  split; [done|]. split; [done|]. split.
  - unfold reparent. rewrite Hp. case_bool_decide; by case_decide.
  - rewrite Hs, Hc. unfold r1. apply wake_if_asleep. apply wake_not_asleep.
Qed.

(** The last step of [exit]: the state it leaves to the scheduler. *)
Lemma exit_out p i s Q k r0 r r' lv t l1 l2 pp ip b :
  kernel s Q (Some (p, k)) 1 (Some p) (Some i.1) i.2 -> i.1 = (active s + k)%nat -> held_by 0 (pt_lock s) ->
  initproc s = ip -> procs s = exit_procs p pp ip b r0 -> procs s !! p = Some r -> state r = RUNNING ->
  Q.1 !! k = Some (t, l1 ++ p :: l2) ->
  state r' = ZOMBIE -> ofile r' = ofile r -> ticks_left r' = ticks_left r ->
  parent r' = (if decide (pp = Some p) then ip else pp) ->
  rep (set_level lv s) (put_loc (Act k) (t, l1 ++ l2) Q) ->
  Left p i (set_level lv (set_procs (<[p := r']> (procs s)) s)).
Proof.
  intros (Hrep & Ht & Hpk & Hrest) Hi Hh Hip Hps Hr Hst Hv Hz Hof Htk Hpar Hrep'.
  assert (live (state r) = true) as Hlv by (by rewrite Hst).
  destruct (table_exit _ _ _ _ _ r' t l1 l2 Ht Hr Hlv Hv Hz ltac:(by rewrite Hof) Htk) as [Ht' Hperm].
  destruct (sets_ok_remove true (Act k) Q t l1 p l2 (qi_sets _ _ (proj1 Ht)) Hv) as (_ & Hnq & _).
  assert (p < length (procs s))%nat as Hlt by (by eapply lookup_lt_Some).
  split.
  - exists (put_loc (Act k) (t, l1 ++ l2) Q), k, r'. split; [|split; [done|split; [done|split]]].
    + split; [exact Hrep'|]. split; [exact Ht'|]. split; [|exact Hrest].
      intros j x [[-> ->]|[Hj Hx]]%(insert_inv _ _ _ _ _ _ Hr) Hin Hrun; [done|].
      apply (Hpk j x Hx); [|done]. rewrite Hperm. by apply list_elem_of_further.
    + simpl. by apply list_lookup_insert_eq.
    + by rewrite Hz.
  - intros _. constructor.
    + intros Q' HQ'. destruct (repr_inj _ _ _ _ _ HQ' Hrep') as [H1 H2].
      replace Q' with (put_loc (Act k) (t, l1 ++ l2) Q); [done|]. destruct Q'. simpl in *. congruence.
    + simpl. rewrite Hip. intros Hne j x [[-> ->]|[Hj Hx]]%(insert_inv _ _ _ _ _ _ Hr).
      * rewrite Hpar. case_decide; [done|done].
      * rewrite Hps in Hx. apply fmap_inv in Hx as (x1 & _ & ->). unfold reparent.
        case_bool_decide; simpl; [done|done].
    + exists pp. split.
      * simpl. intros x. rewrite list_lookup_insert_eq by done. intros [= <-]. by rewrite Hip.
      * simpl. intros j x [[-> ->]|[Hj Hx]]%(insert_inv _ _ _ _ _ _ Hr); [by rewrite Hz|].
        rewrite Hps in Hx. unfold exit_procs in Hx.
        apply fmap_inv in Hx as (x1 & Hx & ->). apply fmap_inv in Hx as (x2 & Hx & ->).
        apply fmap_inv in Hx as (x3 & Hx & ->). apply exit_entry_fields.
Qed.

(** [exit] once the files are closed. *)
Lemma exit_tail_wp p i s : Runs p i s ->
  wp allowed (Left p) (Resumed p) i ((upd_proc p (set_cwd None) ;;;
    acquire ptable_lock ;;;
    r <- get_proc p ;;
    wakeup1 (proc_chan (parent r)) ;;;
    for_each (seq 0 NPROC) (fun p' =>
      r <- get_proc p' ;;
      when (bool_decide (parent r = Some p)) (
        ip <- gets initproc ;;
        upd_proc p' (set_parent ip) ;;;
        r <- get_proc p' ;;
        when (bool_decide (state r = ZOMBIE)) (wakeup1 (proc_chan ip)))) ;;;
    remove_proc_from_levels (Some p) ;;;
    upd_proc p (set_state ZOMBIE) ;;;
    sched ;;;
    panic "zombie exit") s) (fun _ (_ : unit) _ => False).
Proof.
  intros [HO Hf]. destruct (own_proc _ _ _ _ HO) as (r & Hr & Hst & _).
  pose proof (own_len _ _ _ _ HO) as Hlen.
  eapply wp_bind_Ret; [by apply upd_proc_eq|]. set (r1 := set_cwd None r). set (s1 := set_procs _ s).
  destruct (ks_acquire_pt 0 s1 0 _ _ (own_cpu _ _ _ _ HO) shallow_0 Hf) as (m & l & He2 & Hh & Hc2 & _).
  eapply wp_bind_Ret; [exact He2|]. set (s2 := set_pt_lock l (set_km m s1)).
  assert (procs s2 !! p = Some r1) as Hr2 by (simpl; apply list_lookup_insert_eq; by eapply lookup_lt_Some).
  assert (length (procs s2) = NPROC) as Hlen2 by (simpl; by rewrite length_insert).
  eapply wp_bind_Ret; [by apply get_proc_eq|]. eapply wp_bind_Ret; [by apply wakeup1_eq|].
  set (pp := parent r1). set (ip := initproc s). set (ps3 := wake (proc_chan pp) <$> procs s2).
  set (b := existsb (dead_child p) ps3).
  eapply wp_bind_Ret.
  { eapply (reparent_loop p ip NPROC 0 (set_procs ps3 s2) [] ps3 false); try done.
    - unfold ps3. by rewrite length_fmap.
    - simpl. unfold ps3. by rewrite length_fmap.
    - simpl. symmetry. exact (list_fmap_id ps3). }
  simpl orb. simpl app. fold b. set (F x := reparent p ip (wake_if b (proc_chan ip) (wake (proc_chan pp) x))).
  set (ps4 := exit_procs p pp ip b (procs s)).
  assert ((reparent p ip <$> (wake_if b (proc_chan ip) <$> ps3)) = <[p := F r1]> ps4) as ->
    by (unfold ps3, ps4, exit_procs; simpl procs; by rewrite !list_fmap_insert).
  pose proof (own_exit_procs p i 0 s pp ip b HO) as HO4. fold ps4 in HO4.
  set (s4 := set_pt_lock l (set_km m (set_procs ps4 s))).
  assert (Own p i 1 s4) as HO4' by (by eapply own_ext).
  destruct (exit_entry_fields p pp ip b r) as (Hof & Htk & _ & _).
  destruct (exit_entry_fields p pp ip b r1) as (Hof1 & Htk1 & Hpar1 & _).
  assert (procs s4 !! p = Some (F r)) as Hr4 by (simpl; unfold ps4, exit_procs; by rewrite !list_lookup_fmap, Hr).
  destruct HO4' as (Q & k & Hk & Hi & r4 & v & Hr4' & Hst4 & _ & Hv & _).
  assert (r4 = F r) as -> by congruence.
  assert (p ∈ v.2) as Hin.
  { pose proof Hk as (_ & Ht & _). pose proof (on_cpu_in _ _ _ _ _ _ Ht Hr4 Hv) as Hin.
    rewrite bool_decide_false in Hin by (by rewrite Hst4). by destruct Hin. }
  destruct v as [t lst]. simpl in Hin. apply list_elem_of_split in Hin as (l1 & l2 & ->).
  pose proof Hk as (Hrep & Ht & _ & Hc4 & _).
  destruct (kcpu_in_cli 0 s4 1 _ _ Hc4) as [c Hcli]; [lia|apply shallow_1|].
  destruct (remove_proc_from_levels_eq (set_procs (<[p := F r1]> ps4) s4) 0 c Q (Act k) t l1 p l2)
    as (lv & He5 & Hrep5); [by apply (in_cli_ext s4)|done|apply Ht|done|].
  eapply wp_bind_Ret; [exact He5|].
  assert (p < length ps4)%nat as Hlt by (by eapply lookup_lt_Some).
  eapply wp_bind_Ret; [apply upd_proc_eq; simpl; by apply list_lookup_insert_eq|].
  simpl procs. rewrite list_insert_insert_eq. set (r6 := set_state ZOMBIE (F r1)).
  assert (forall x, state x = ZOMBIE -> ofile x = ofile r6 -> ticks_left x = ticks_left r6 -> parent x = parent r6 ->
    Left p i (set_level lv (set_procs (<[p := x]> ps4) s4))) as Hleft.
  { intros x Hx1 Hx2 Hx3 Hx4. apply (exit_out p i s4 Q k (procs s) (F r) x lv t l1 l2 pp ip b); try done.
    - rewrite Hx2. etrans; [exact Hof1|]. symmetry. exact Hof.
    - rewrite Hx3. etrans; [exact Htk1|]. symmetry. exact Htk.
    - rewrite Hx4. exact Hpar1. }
  set (s6 := set_level lv (set_procs (<[p := r6]> ps4) s4)).
  assert (procs s6 !! p = Some r6) as Hr6 by (simpl; by apply list_lookup_insert_eq).
  apply wp_bind. eapply wp_mono; [|eapply (sched_wp_gen (Left p) p i s6 r6)].
  - cbv beta. intros j _ s' [_ Hnz]. exfalso. apply Hnz. by exists r6.
  - apply (Hleft r6); done.
  - done.
  - intros m' Hc'. unfold saved. simpl procs. rewrite list_insert_insert_eq.
    pose proof (Hleft (set_ctx (svc_swtch_ctx (env s6)) r6) eq_refl eq_refl eq_refl eq_refl) as [HOut Hex].
    split; [by eapply out_ext|]. intros Hz. destruct (Hex Hz). by constructor.
Qed.

Lemma asleep_left {A : Type} p i (r : res (kstate E) A) Post :
  wp allowed (Asleep p) (Resumed p) i r Post -> wp allowed (Left p) (Resumed p) i r Post.
Proof.
  apply wp_weaken; try done. intros j s [HO Hz]. by split.
Qed.

Lemma asleep_out {A : Type} p i (r : res (kstate E) A) Post :
  wp allowed (Asleep p) (Resumed p) i r Post -> kwp p i r Post.
Proof. apply wp_weaken; try done. by intros j s [HO _]. Qed.

Lemma left_out {A : Type} p i (r : res (kstate E) A) Post :
  wp allowed (Left p) (Resumed p) i r Post -> kwp p i r Post.
Proof. apply wp_weaken; try done. by intros j s [HO _]. Qed.

Lemma runs_km p i s m : Runs p i s -> kcpu 0 m 0 (Some p) (Some i.1) -> Runs p i (set_km m s).
Proof. intros [HO Hf] Hc. split; [by eapply own_ext|done]. Qed.

(** Changes to the running process's own entry. *)
Lemma runs_upd p i s r r' : Runs p i s -> procs s !! p = Some r -> state r' = RUNNING ->
  ticks_left r' = ticks_left r -> length (ofile r') = length (ofile r) -> (proc_ok r -> proc_ok r') ->
  Runs p i (set_procs (<[p := r']> (procs s)) s).
Proof.
  intros [HO Hf] Hr Hs Ht Hl Hok. destruct (own_proc _ _ _ _ HO) as (r0 & Hr0 & Hst & _).
  assert (r0 = r) as -> by congruence. split; [|done]. apply (own_upd p i 0 s p r); try done.
  constructor; rewrite ?Hs, ?Hst; try done.
Qed.

Lemma runs_myproc p i s : Runs p i s ->
  exists m, myproc s = Ret (Some p) (set_km m s) /\ Runs p i (set_km m s).
Proof.
  intros HR. destruct (ks_myproc 0 s 0 _ _ (own_cpu _ _ _ _ (proj1 HR)) shallow_0) as (m & He & Hc & _).
  exists m. split; [done|]. by apply runs_km.
Qed.

Lemma exit_wp p i s : Runs p i s -> wp allowed (Left p) (Resumed p) i (exit s) (fun _ _ _ => False).
Proof.
  intros HR. unfold exit. destruct (runs_myproc p i s HR) as (m & He & HR1).
  eapply wp_bind_Ret; [exact He|]. rewrite wp_bind_gets.
  destruct (bool_decide (Some p = initproc _)); [done|]. eapply wp_bind_Ret; [reflexivity|].
  apply wp_bind. eapply wp_mono; [|apply (wp_for_each _ _ _ (Runs p)); [exact HR1|]].
  2:{ intros fd j s2 Hfd HR2. apply elem_of_seq in Hfd.
      destruct (own_proc _ _ _ _ (proj1 HR2)) as (r & Hr & Hst & Hok & Hfl).
      eapply wp_bind_Ret; [by apply get_proc_eq|].
      destruct (lookup_lt_is_Some_2 (ofile r) fd) as [f Hf]; [lia|]. eapply wp_bind_Ret; [by rewrite Hf|].
      destruct f as [f|]; [|done]. apply wp_bind, asleep_left.
      eapply wp_mono; [|by apply sv_fileclose]. cbv beta. intros j' _ s3 HR3.
      destruct (own_proc _ _ _ _ (proj1 HR3)) as (r3 & Hr3 & Hst3 & Hok3 & Hfl3).
      rewrite (upd_proc_eq s3 p r3) by done. simpl.
      apply (runs_upd p j' s3 r3); try done; [simpl; by rewrite length_insert|by intros []]. }
  cbv beta. intros j _ s2 HR2. apply wp_bind, asleep_left. eapply wp_mono; [|by apply sv_begin_op].
  cbv beta. intros j3 _ s3 HR3. destruct (own_proc _ _ _ _ (proj1 HR3)) as (r & Hr & _ & Hok & _).
  eapply wp_bind_Ret; [by apply get_proc_eq|]. destruct (cwd r) as [d|] eqn:Hd; [|by destruct (po_cwd _ Hok)].
  eapply wp_bind_Ret; [reflexivity|]. apply wp_bind, asleep_left. eapply wp_mono; [|by apply sv_iput].
  cbv beta. intros j4 _ s4 HR4. apply wp_bind, asleep_left. eapply wp_mono; [|by apply sv_end_op].
  cbv beta. intros j5 _ s5 HR5. by apply exit_tail_wp.
Qed.

(** ** wait *)

(** A child that exited, collected. *)
Definition collected (r : proc) : proc :=
  set_state UNUSED (set_killed 0 (set_name (<[0%nat := 0]> (name r)) (set_parent None (set_pid 0 (set_kstack 0 r))))).

(** What one scan over the slots [ps] finds. *)
Definition scan_result (p : nat) (i : idx) (ps : list nat) (hk : bool) (s : kstate E) (a : Z + bool) (s' : kstate E) : Prop :=
  match a with
  | inl pd => Runs p i s' /\ exists c r, c ∈ ps /\ procs s !! c = Some r /\ parent r = Some p /\ state r = ZOMBIE /\
      pd = pid r /\ procs s' !! c = Some (collected r) /\ forall j, j <> c -> procs s' !! j = procs s !! j
  | inr hk' => s' = s /\ Held p i s /\
      (forall c r, c ∈ ps -> procs s !! c = Some r -> parent r = Some p -> state r <> ZOMBIE) /\
      (hk' = true <-> hk = true \/ exists c r, c ∈ ps /\ procs s !! c = Some r /\ parent r = Some p)
  end.

Lemma scan_cons p i c ps hk hk1 s a s' r : procs s !! c = Some r ->
  (parent r = Some p -> state r <> ZOMBIE) -> (hk1 = true <-> hk = true \/ parent r = Some p) ->
  scan_result p i ps hk1 s a s' -> scan_result p i (c :: ps) hk s a s'.
Proof.
  intros Hr Hz Hhk. destruct a as [pd|hk']; simpl.
  - intros [HR (c' & r' & Hin & Hrest)]. split; [done|]. exists c', r'. split; [by apply list_elem_of_further|done].
  - intros (-> & HH & Hnz & Hk). split; [done|]. split; [done|]. split.
    + intros c' r' [->|Hin]%elem_of_cons Hr' Hp; [|by eapply Hnz]. assert (r' = r) as -> by congruence. auto.
    + rewrite Hk, Hhk. split.
      * intros [[?|?]|(c' & r' & Hin & ?)]; [by left| |].
        -- right. exists c, r. split; [apply list_elem_of_here|done].
        -- right. exists c', r'. split; [by apply list_elem_of_further|done].
      * intros [?|(c' & r' & [->|Hin]%elem_of_cons & Hr' & Hp)]; [by left; left| |].
        -- left. right. congruence.
        -- right. eauto.
Qed.

Lemma wait_scan_wp P B R p i s : Held p i s -> forall ps hk, (forall c, c ∈ ps -> (c < NPROC)%nat) ->
  wp P B R i (wait_scan (Some p) ps hk s) (fun j a s' => j = i /\ scan_result p i ps hk s a s').
Proof.
  intros HH. pose proof HH as [HO Hh]. destruct (own_proc _ _ _ _ HO) as (rp & Hrp & Hsp & _).
  induction ps as [|c ps IH]; intros hk Hb; simpl.
  { split; [done|]. split; [done|]. split; [done|]. split; [by intros ? ? ?%not_elem_of_nil|].
    split; [by left|]. intros [?|(? & ? & ?%not_elem_of_nil & _)]; done. }
  destruct (lookup_lt_is_Some_2 (procs s) c) as [r Hr].
  { rewrite (own_len _ _ _ _ HO). apply Hb, list_elem_of_here. }
  eapply wp_bind_Ret; [by apply get_proc_eq|].
  assert (forall hk1, (parent r = Some p -> state r <> ZOMBIE) -> (hk1 = true <-> hk = true \/ parent r = Some p) ->
    wp P B R i (wait_scan (Some p) ps hk1 s) (fun j a s' => j = i /\ scan_result p i (c :: ps) hk s a s')) as Hnext.
  { intros hk1 H1 H2. eapply wp_mono; [|apply (IH hk1)].
    - cbv beta. intros j a s' [-> Hs]. split; [done|]. by eapply scan_cons.
    - intros c' Hc'. apply Hb. by apply list_elem_of_further. }
  case_bool_decide as Hpar; simpl negb; cbv iota; [|apply Hnext; [done|naive_solver]].
  case_bool_decide as Hz; [|apply Hnext; [done|naive_solver]].
  assert (slot (Own p i) 1 (pt_lock s) c s (env s) (nextpid s) s r) as Hs.
  { constructor; try done; by rewrite Hz. }
  apply wp_svc_. intros e1 He1. apply (slot_env _ e1) in Hs.
  2:{ eapply el_kfree; [|exact He1]. by eapply own_envok. }
  slot_step Hs. apply wp_svc_. intros e2 He2. apply (slot_env _ e2) in Hs.
  2:{ eapply el_freevm; [|exact He2]. by eapply own_envok, sl_own. }
  slot_step Hs. slot_step Hs. slot_step Hs. slot_step Hs. slot_step Hs.
  destruct (slot_release _ _ Hs Hh) as (s7 & lk & He7 & Hf7 & Hs7).
  eapply wp_bind_Ret; [exact He7|]. simpl. split; [done|].
  destruct Hs7 as [HO7 Hl7 Hnp7 Hd7 Ho7 _ _ _ _]. split; [split; [done|by rewrite Hl7]|].
  exists c, r. split; [apply list_elem_of_here|]. do 4 (split; [done|]). split; [exact Hnp7|done].
Qed.

Lemma acquire_runs p i s : Runs p i s -> exists s', acquire ptable_lock s = Ret tt s' /\ Held p i s' /\
  procs s' = procs s.
Proof.
  intros [HO Hf]. destruct (ks_acquire_pt 0 s 0 _ _ (own_cpu _ _ _ _ HO) shallow_0 Hf) as (m & l & He & Hh & Hc & _).
  eexists. split; [exact He|]. split; [|done]. split; [by eapply own_ext|done].
Qed.

Lemma wait_wp p fuel i s : Runs p i s -> kwp p i (wait fuel s) (fun j _ s' => Runs p j s').
Proof.
  intros HR. unfold wait. destruct (runs_myproc p i s HR) as (m & He & HR1). eapply wp_bind_Ret; [exact He|].
  destruct (acquire_runs p i _ HR1) as (s2 & He2 & HH & _). eapply wp_bind_Ret; [exact He2|].
  apply (wp_loop_fuel _ _ _ (Held p)); [|done]. clear. intros i s HH. apply wp_bind.
  eapply wp_mono; [|apply (wait_scan_wp allowed (Out p) (Resumed p) p i s HH (seq 0 NPROC) false)].
  2:{ intros c Hc. apply elem_of_seq in Hc. lia. }
  cbv beta. intros j [pd|hk] s1 [-> Hs]; unfold scan_result in Hs.
  - simpl. by destruct Hs.
  - destruct Hs as (-> & _ & _). destruct (own_proc _ _ _ _ (proj1 HH)) as (r & Hr & _).
    eapply wp_bind_Ret. { rewrite (bind_deref _ p) by done. by rewrite (bind_Ret _ _ _ _ _ (get_proc_eq s p r Hr)). }
    destruct (negb hk || negb (killed r =? 0)).
    + destruct (release_held p i s HH) as (s3 & He3 & HR3 & _). eapply wp_bind_Ret; [exact He3|]. exact HR3.
    + apply wp_bind. eapply wp_mono; [|by apply sleep_held_wp]. cbv beta. intros j _ s3 HH3. exact HH3.
Qed.

(** ** growproc and forkret *)

Lemma growproc_wp P B R p i s n : Runs p i s -> wp P B R i (growproc n s) (fun j _ s' => j = i /\ Runs p i s').
Proof.
  intros HR. unfold growproc. destruct (runs_myproc p i s HR) as (m & He & HR1). eapply wp_bind_Ret; [exact He|].
  eapply wp_bind_Ret; [reflexivity|]. destruct (own_proc _ _ _ _ (proj1 HR1)) as (r & Hr & Hst & Hok & Hfl).
  eapply wp_bind_Ret; [by apply get_proc_eq|].
  assert (forall new e, env_ok e -> wp P B R i ((match new with
    | None => ret (-1)
    | Some sz' => upd_proc p (set_sz sz') ;;; switchuvm (Some p) ;;; ret 0
    end) (set_env e (set_km m s))) (fun j _ s' => j = i /\ Runs p i s')) as Htail.
  { intros new e Hev. assert (Runs p i (set_env e (set_km m s))) as HR2.
    { split; [apply own_env; [apply HR1|done]|apply HR1]. }
    destruct new as [sz'|]; [|done]. eapply wp_bind_Ret; [by apply (upd_proc_eq _ p r)|].
    assert (Runs p i (set_procs (<[p := set_sz sz' r]> (procs (set_env e (set_km m s)))) (set_env e (set_km m s)))) as HR3.
    { apply (runs_upd p i _ r); try done. by intros []. }
    destruct (switchuvm_k 0 _ 0 _ _ p (set_sz sz' r) (own_cpu _ _ _ _ (proj1 HR3)) shallow_0) as (m4 & He4 & Hc4 & _).
    { simpl. apply list_lookup_insert_eq. by eapply lookup_lt_Some. } { apply Hok. } { apply Hok. }
    eapply wp_bind_Ret; [exact He4|]. simpl. split; [done|]. by apply runs_km. }
  assert (env_ok (env s)) as Hev by (eapply own_envok; apply HR).
  apply wp_bind. destruct (0 <? n).
  - apply wp_svc. intros v e Hv. apply Htail. by eapply el_allocuvm.
  - destruct (n <? 0).
    + apply wp_svc. intros v e Hv. apply Htail. by eapply el_deallocuvm.
    + simpl. pose proof (Htail (Some (sz r)) (env s) Hev) as Ht.
      replace (set_env (env s) (set_km m s)) with (set_km m s) in Ht by (by destruct s). exact Ht.
Qed.

Lemma forkret_wp p i s : Held p i s -> kwp p i (forkret s) (fun j _ s' => Runs p j s').
Proof.
  intros HH. unfold forkret. destruct (release_held p i s HH) as (s1 & He & HR & _). eapply wp_bind_Ret; [exact He|].
  rewrite wp_bind_gets. destruct (negb (first s1 =? 0)); [|done]. simpl when.
  eapply wp_bind_Ret; [reflexivity|]. apply wp_bind, asleep_out.
  eapply wp_mono; [|apply sv_iinit; by eapply (HR : Runs p i (set_first 0 s1))].
  cbv beta. intros j _ s2 HR2. apply asleep_out. by apply sv_initlog.
Qed.

End Exit.
