(* ===== verification/Trap.v ===== *)
(** * Traps and system calls (trap.c, syscall.c, sysproc.c)

    [trap] and everything it reaches that does not belong to the file system:
    fetching of arguments, the table of system calls, and the process calls. *)

From stdpp Require Import base tactics list sets strings.
From Stdlib Require Import ZArith Lia.
From S2P Require Import Prelude Params Spinlock ProcState Rsdl Scheduler Proc.
Open Scope Z_scope.

(** ** Gates (mmu.h) *)

Record gatedesc := mkGate {
  off_15_0 : Z;
  gd_cs : Z;
  gd_args : Z;
  gd_rsv1 : Z;
  gd_type : Z;
  gd_s : Z;
  gd_dpl : Z;
  gd_p : Z;
  off_31_16 : Z
}.

Definition SETGATE (istrap : bool) (sel off d : Z) : gatedesc :=
  mkGate (Z.land off 0xffff) sel 0 0 (if istrap then STS_TG32 else STS_IG32) 0 d 1 (Z.shiftr off 16).

Section Ops.
(** [fuel] bounds how often one system call sleeps. *)
Context {E : Type} `{Services E} (fuel : nat).
Abbreviation K := (M (kstate E)).

(** The current process, dereferenced. *)
Definition curproc : K proc := p <- myproc ;; p <- deref p ;; get_proc p.

(** ** Arguments (syscall.c)

    A function that returns -1 or fills in its result argument answers an option. *)

(** The int at [a] in the address space of [pg]. *)
Definition user_int (pg a : Z) (e : E) : Z :=
  let b i := svc_user_byte pg (u32 (a + i)) e in
  i32 (b 0 + 2 ^ 8 * b 1 + 2 ^ 16 * b 2 + 2 ^ 24 * b 3).

Definition fetchint (addr : Z) : K (option Z) :=
  r <- curproc ;;
  if (sz r <=? addr) || (sz r <? u32 (addr + 4)) then ret None
  else e <- gets env ;; ret (Some (user_int (pgdir r) addr e)).

(** The scan of [fetchstr]: the first nul among [n] bytes from [s] on. *)
Fixpoint fetchstr_scan (pg s : Z) (e : E) (n : nat) : option Z :=
  match n with
  | O => None
  | S n => if svc_user_byte pg s e =? 0 then Some s else fetchstr_scan pg (s + 1) e n
  end.

(** The address of the string and its length. *)
Definition fetchstr (addr : Z) : K (option (Z * Z)) :=
  r <- curproc ;;
  if sz r <=? addr then ret None else
  e <- gets env ;;
  ret (match fetchstr_scan (pgdir r) addr e (Z.to_nat (sz r - addr)) with
       | Some s => Some (addr, s - addr)
       | None => None
       end).

Definition argint (n : Z) : K (option Z) :=
  r <- curproc ;; fetchint (u32 (tf_esp (tf r) + 4 + 4 * n)).

Definition argptr (n size : Z) : K (option Z) :=
  r <- curproc ;;
  i <- argint n ;;
  ret (match i with
       | None => None
       | Some i => if (size <? 0) || (sz r <=? u32 i) || (sz r <? u32 (u32 i + size)) then None
                   else Some (u32 i)
       end).

Definition argstr (n : Z) : K (option (Z * Z)) :=
  addr <- argint n ;;
  match addr with None => ret None | Some a => fetchstr (u32 a) end.

(** ** Process system calls (sysproc.c) *)

Definition sys_fork : K Z := fork.

Definition sys_priofork : K Z :=
  a <- argint 0 ;;
  match a with None => ret (-1) | Some default_level => priofork default_level end.

Definition sys_exit : K Z := exit ;;; ret 0.

Definition sys_wait : K Z := wait fuel.

Definition sys_kill : K Z :=
  a <- argint 0 ;;
  match a with None => ret (-1) | Some pid => kill pid end.

Definition sys_getpid : K Z := r <- curproc ;; ret (pid r).

Definition sys_sbrk : K Z :=
  a <- argint 0 ;;
  match a with
  | None => ret (-1)
  | Some n =>
      r <- curproc ;;
      let addr := i32 (sz r) in
      g <- growproc n ;;
      ret (if g <? 0 then -1 else addr)
  end.

Definition sys_sleep : K Z :=
  a <- argint 0 ;;
  match a with
  | None => ret (-1)
  | Some n =>
      acquire ticks_lock ;;;
      ticks0 <- gets ticks ;;
      loop_fuel fuel (
        t <- gets ticks ;;
        if u32 (t - ticks0) <? u32 n then
          r <- curproc ;;
          if negb (killed r =? 0) then release ticks_lock ;;; ret (Some (-1))
          else sleep TicksChan (OtherLock ticks_lock) ;;; ret None
        else release ticks_lock ;;; ret (Some 0))
  end.

Definition sys_uptime : K Z :=
  acquire ticks_lock ;;;
  xticks <- gets ticks ;;
  release ticks_lock ;;;
  ret (i32 xticks).

Definition sys_yield : K Z := yield ;;; ret 0.

Definition sys_shutdown : K Z := modify (fun s => set_env (svc_shutdown (env s)) s) ;;; ret 0.

Definition sys_schedlog : K Z :=
  a <- argint 0 ;;
  match a with None => ret (-1) | Some n => schedlog n ;;; ret 0 end.

(** ** The table (syscall.c) *)

Definition syscalls (num : Z) : K Z :=
  if num =? 1 then sys_fork else
  if num =? 2 then sys_exit else
  if num =? 3 then sys_wait else
  if num =? 6 then sys_kill else
  if num =? 11 then sys_getpid else
  if num =? 12 then sys_sbrk else
  if num =? 13 then sys_sleep else
  if num =? 14 then sys_uptime else
  if num =? 22 then sys_yield else
  if num =? 23 then sys_shutdown else
  if num =? 24 then sys_schedlog else
  if num =? 25 then sys_priofork else
  svc_sysfile num.

(** NELEM(syscalls); the entries 1 to 25 are all present. *)
Definition NSYSCALLS : Z := 26.

Definition syscall : K unit :=
  p <- myproc ;; p <- deref p ;; r <- get_proc p ;;
  let num := i32 (tf_eax (tf r)) in
  if (0 <? num) && (num <? NSYSCALLS) then
    v <- syscalls num ;; upd_tf p (set_tf_eax (u32 v))
  else
    cprintf "%d %s: unknown sys call %d\n" [AInt (pid r); ABytes (name r); AInt num] ;;;
    upd_tf p (set_tf_eax (u32 (-1))).

(** ** trap (trap.c) *)

(** The interrupt descriptor table that [tvinit] fills. *)
Definition idt : list gatedesc :=
  <[Z.to_nat T_SYSCALL := SETGATE true (Z.shiftl SEG_KCODE 3) (vectors (Z.to_nat T_SYSCALL)) DPL_USER]>
    ((fun i => SETGATE false (Z.shiftl SEG_KCODE 3) (vectors i) 0) <$> seq 0 256).

Definition tvinit : K unit := initlock ticks_lock "time".

Definition lapiceoi : K unit := modify (fun s => set_env (svc_lapiceoi (env s)) s).

(** Whether there is a current process and it has been killed. *)
Definition cur_killed : K bool :=
  p <- myproc ;;
  match p with None => ret false | Some p => r <- get_proc p ;; ret (negb (killed r =? 0)) end.

Definition tick_interrupt : K unit :=
  i <- cpuid ;;
  when (bool_decide (i = 0%nat)) (
    acquire ticks_lock ;;;
    modify (fun s => set_ticks (u32 (ticks s + 1)) s) ;;;
    wakeup TicksChan ;;;
    release ticks_lock) ;;;
  lapiceoi.

Definition unexpected_trap (f : trapframe) : K unit :=
  p <- myproc ;;
  b <- (match p with None => ret true | Some _ => ret (Z.land (tf_cs f) 3 =? 0) end) ;;
  if (b : bool) then
    i <- cpuid ;; e <- gets env ;;
    cprintf "unexpected trap %d from cpu %d eip %x (cr2=0x%x)\n"
      [AInt (tf_trapno f); AInt (Z.of_nat i); AInt (tf_eip f); AInt (svc_rcr2 e)] ;;;
    panic "trap"
  else
    r <- curproc ;; i <- cpuid ;; e <- gets env ;;
    cprintf "pid %d %s: trap %d err %d on cpu %d eip 0x%x addr 0x%x--kill proc\n"
      [AInt (pid r); ABytes (name r); AInt (tf_trapno f); AInt (tf_err f); AInt (Z.of_nat i);
       AInt (tf_eip f); AInt (svc_rcr2 e)] ;;;
    p <- myproc ;; p <- deref p ;;
    upd_proc p (set_killed 1).

(** The quantum of the running process and of its level, one tick each. *)
Definition tick_account : K unit :=
  i <- mycpu ;; c <- get_cpu i ;;
  match c_queue c with
  | None => panic "Running process located outside active/expired set."
  | Some _ =>
      p <- myproc ;; p <- deref p ;;
      upd_proc p (fun r => set_ticks_left (i32 (ticks_left r - 1)) r) ;;;
      r <- get_proc p ;;
      let proc_ticks := ticks_left r in
      i <- mycpu ;; c <- get_cpu i ;; q <- deref (c_queue c) ;;
      upd_level q (fun lq => set_lq_ticks_left (i32 (lq_ticks_left lq - 1)) lq) ;;;
      lq <- get_level q ;;
      let level_ticks := lq_ticks_left lq in
      when ((proc_ticks <=? 0) || (level_ticks <=? 0)) yield
  end.

(** Whether there is a current process and it is RUNNING. *)
Definition cur_running : K bool :=
  p <- myproc ;;
  match p with None => ret false | Some p => r <- get_proc p ;; ret (bool_decide (state r = RUNNING)) end.

(** The switch on the trap number. *)
Definition trap_switch (f : trapframe) : K unit :=
  let n := tf_trapno f in
  if n =? T_IRQ0 + IRQ_TIMER then tick_interrupt else
  if n =? T_IRQ0 + IRQ_IDE then svc_ideintr ;;; lapiceoi else
  if n =? T_IRQ0 + IRQ_IDE + 1 then ret tt else
  if n =? T_IRQ0 + IRQ_KBD then svc_kbdintr ;;; lapiceoi else
  if n =? T_IRQ0 + IRQ_COM1 then svc_uartintr ;;; lapiceoi else
  if (n =? T_IRQ0 + 7) || (n =? T_IRQ0 + IRQ_SPURIOUS) then
    i <- cpuid ;;
    cprintf "cpu%d: spurious interrupt at %x:%x\n" [AInt (Z.of_nat i); AInt (tf_cs f); AInt (tf_eip f)] ;;;
    lapiceoi
  else unexpected_trap f.

(** [a] is the address of the trap frame [f]. *)
Definition trap (a : Z) (f : trapframe) : K unit :=
  if tf_trapno f =? T_SYSCALL then
    r <- curproc ;;
    when (negb (killed r =? 0)) exit ;;;
    p <- myproc ;; p <- deref p ;;
    upd_proc p (fun r => set_tf f (set_tf_addr a r)) ;;;
    syscall ;;;
    r <- curproc ;;
    when (negb (killed r =? 0)) exit
  else
    trap_switch f ;;;
    k <- cur_killed ;;
    when (k && (Z.land (tf_cs f) 3 =? DPL_USER)) exit ;;;
    running <- cur_running ;;
    when (running && (tf_trapno f =? T_IRQ0 + IRQ_TIMER)) tick_account ;;;
    k <- cur_killed ;;
    when (k && (Z.land (tf_cs f) 3 =? DPL_USER)) exit.

End Ops.
