(* ===== verification/TrapSafe.v ===== *)
(** * Traps and system calls keep the invariant

    [trap], entered from user mode by any process for any reason, keeps the
    invariant of SchedLoop.v; so does an interrupt that arrives while the scheduler
    looks for a process. *)

From stdpp Require Import base tactics list sets strings.
From Stdlib Require Import ZArith Lia.
From S2P Require Import Prelude Params Spinlock ProcState Rsdl RsdlSpec Scheduler SchedRefine SchedInv SchedLoop Proc ProcFacts ProcSafe Fork Exit Trap.
Open Scope Z_scope.

Section Safe.
Context {E : Type} `{SL : SvcLaws E} (fuel : nat).
Implicit Types (s : kstate E) (Q : sets).
Abbreviation kwp p := (wp allowed (Out p) (Resumed p)).

(** ** Arguments *)

Lemma runs_curproc p i s : Runs p i s -> exists m r, curproc s = Ret r (set_km m s) /\
  Runs p i (set_km m s) /\ procs s !! p = Some r /\ iflag m = iflag (km s).
Proof.
  intros HR. destruct (ks_myproc 0 s 0 _ _ (own_cpu _ _ _ _ (proj1 HR)) shallow_0) as (m & He & Hc & _ & Hi).
  destruct (own_proc _ _ _ _ (proj1 HR)) as (r & Hr & _). exists m, r.
  unfold curproc. rewrite (bind_Ret _ _ _ _ _ He), (bind_deref _ p) by done.
  split; [by apply (get_proc_eq (set_km m s))|]. split; [by apply runs_km|done].
Qed.

Lemma runs_argint p i s n : Runs p i s -> exists m o, argint n s = Ret o (set_km m s) /\ Runs p i (set_km m s).
Proof.
  intros HR. destruct (runs_curproc p i s HR) as (m & r & He & HR1 & _ & _).
  unfold argint. rewrite (bind_Ret _ _ _ _ _ He). unfold fetchint.
  destruct (runs_curproc p i _ HR1) as (m2 & r2 & He2 & HR2 & _ & _). rewrite (bind_Ret _ _ _ _ _ He2).
  exists m2. destruct (_ || _); eexists; (split; [reflexivity|exact HR2]).
Qed.

(** ** System calls *)

Lemma runs_kill p i s pd : Runs p i s -> exists a s', kill pd s = Ret a s' /\ Runs p i s'.
Proof.
  intros [HO Hf]. destruct (kill_eq 0 s 0 _ _ pd (own_cpu _ _ _ _ HO)) as (m & l & Hl & Hc & He);
    [lia|apply shallow_1|done|by eapply own_len|].
  rewrite He. destruct (list_find _ _) as [[j r]|] eqn:Hfind; eexists _, _; (split; [reflexivity|]);
    (split; [|done]); [|by eapply own_ext].
  apply list_find_Some in Hfind as (Hj & _ & _).
  assert (Own p i 0 (set_procs (<[j := kill_entry r]> (procs s)) s)) as HO1; [|by eapply own_ext].
  destruct (own_proc _ _ _ _ HO) as (rp & Hrp & Hst & _).
  unfold kill_entry. simpl. case_bool_decide as Hs.
  - apply (own_upd p i 0 s j r); try done.
    + constructor; simpl; rewrite ?Hs; try done. by intros _ [].
    + intros ->. congruence.
  - apply (own_upd p i 0 s j r); try done; [|intros ->; simpl; congruence].
    constructor; try done. by intros _ [].
Qed.

Lemma tickheld_runs p i s : Runs p i s -> exists s', acquire ticks_lock s = Ret tt s' /\ TickHeld p i s'.
Proof.
  intros [HO Hf]. destruct (ks_acquire_ticks 0 s 0 _ _ (own_cpu _ _ _ _ HO) shallow_0 (own_ticks _ _ _ _ HO))
    as (m & l & He & Hh & Hc & _).
  eexists. split; [exact He|]. exists (tickslock s). split; [by eapply own_ticks|]. split; [by eapply own_ext|done].
Qed.

Lemma tickheld_release p i s : TickHeld p i s -> exists s', release ticks_lock s = Ret tt s' /\ Runs p i s'.
Proof.
  intros (l0 & Hl0 & HO & Hh & Hf). pose proof (own_cpu _ _ _ _ HO) as Hc.
  destruct (ks_release_ticks 0 s 1 _ _ Hc shallow_1 ltac:(lia) Hh) as (m & l & He & Hl & Hc1 & _).
  eexists. split; [exact He|]. split; [|done].
  destruct HO as (Q & k & (Hr & Ht & Hpk & _ & Hkp & _ & Hev) & Hi & Hsl).
  exists Q, k. split; [|done]. by repeat (split; [done|]).
Qed.

Lemma tickheld_curproc p i s : TickHeld p i s -> exists m r, curproc s = Ret r (set_km m s) /\ TickHeld p i (set_km m s).
Proof.
  intros (l0 & Hl0 & HO & Hh & Hf). pose proof (own_cpu _ _ _ _ HO) as Hc.
  destruct (ks_myproc 0 s 1 _ _ Hc shallow_1) as (m & He & Hc1 & _ & _).
  destruct (own_proc _ _ _ _ HO) as (r & Hr & _). exists m, r.
  unfold curproc. rewrite (bind_Ret _ _ _ _ _ He), (bind_deref _ p) by done.
  split; [by apply (get_proc_eq (set_km m s))|]. exists l0. split; [done|]. split; [|done]. by eapply own_ext.
Qed.

Lemma sys_sleep_wp p i s : Runs p i s -> kwp p i (sys_sleep fuel s) (fun j _ s' => Runs p j s').
Proof.
  intros HR. unfold sys_sleep. destruct (runs_argint p i s 0 HR) as (m & o & He & HR1).
  eapply wp_bind_Ret; [exact He|]. destruct o as [n|]; [|exact HR1].
  destruct (tickheld_runs p i _ HR1) as (s2 & He2 & HT). eapply wp_bind_Ret; [exact He2|].
  rewrite wp_bind_gets. generalize (ticks s2). intros ticks0.
  apply (wp_loop_fuel _ _ _ (TickHeld p)); [|done]. clear s m He HR HR1 He2 HT s2 i. intros i s HT. rewrite wp_bind_gets.
  destruct (u32 (ticks s - ticks0) <? u32 n).
  - destruct (tickheld_curproc p i s HT) as (m & r & He & HT1). eapply wp_bind_Ret; [exact He|].
    destruct (negb (killed r =? 0)).
    + destruct (tickheld_release p i _ HT1) as (s3 & He3 & HR3). eapply wp_bind_Ret; [exact He3|]. exact HR3.
    + apply wp_bind. eapply wp_mono; [|by apply sleep_ticks_wp]. cbv beta. intros j _ s3 HT3. exact HT3.
  - destruct (tickheld_release p i _ HT) as (s3 & He3 & HR3). eapply wp_bind_Ret; [exact He3|]. exact HR3.
Qed.

Lemma sys_uptime_wp p i s : Runs p i s -> kwp p i (sys_uptime s) (fun j _ s' => Runs p j s').
Proof.
  intros HR. unfold sys_uptime. destruct (tickheld_runs p i _ HR) as (s2 & He2 & HT). eapply wp_bind_Ret; [exact He2|].
  rewrite wp_bind_gets. destruct (tickheld_release p i _ HT) as (s3 & He3 & HR3). eapply wp_bind_Ret; [exact He3|]. exact HR3.
Qed.

Lemma runs_env p i s e : Runs p i s -> env_ok e -> Runs p i (set_env e s).
Proof. intros [HO Hf] He. split; [by apply own_env|done]. Qed.

Lemma fork_wp p i s dl : Runs p i s -> kwp p i (priofork dl s) (fun j _ s' => Runs p j s').
Proof.
  intros HR. eapply wp_mono; [|by apply priofork_wp]. cbv beta. by intros j a s' (-> & HR' & _).
Qed.

(** A system call whose argument is an int. *)
Lemma argint_wp {A} p i s n (f : Z -> M (kstate E) A) (d : A) : Runs p i s ->
  (forall z s', Runs p i s' -> kwp p i (f z s') (fun j _ s' => Runs p j s')) ->
  kwp p i ((a <- argint n ;; match a with None => ret d | Some z => f z end) s) (fun j _ s' => Runs p j s').
Proof.
  intros HR Hf. destruct (runs_argint p i s n HR) as (m & o & He & HR1). eapply wp_bind_Ret; [exact He|].
  destruct o; [by apply Hf|exact HR1].
Qed.

Lemma sys_sbrk_wp p i s : Runs p i s -> kwp p i (sys_sbrk s) (fun j _ s' => Runs p j s').
Proof.
  intros HR. apply argint_wp; [done|]. clear s HR. intros n s HR.
  destruct (runs_curproc p i s HR) as (m & r & He & HR1 & _). eapply wp_bind_Ret; [exact He|].
  apply wp_bind. eapply wp_mono; [|by apply growproc_wp]. cbv beta. intros j g s' [-> HR']. exact HR'.
Qed.

Lemma sys_exit_wp p i s : Runs p i s -> kwp p i (sys_exit s) (fun j _ s' => Runs p j s').
Proof.
  intros HR. unfold sys_exit. apply wp_bind, left_out. eapply wp_mono; [|by apply exit_wp]. done.
Qed.

Lemma syscalls_wp p i s num : Runs p i s -> kwp p i (syscalls fuel num s) (fun j _ s' => Runs p j s').
Proof.
  intros HR. unfold syscalls.
  destruct (num =? 1); [by apply fork_wp|]. destruct (num =? 2); [by apply sys_exit_wp|].
  destruct (num =? 3); [by apply wait_wp|].
  destruct (num =? 6).
  { apply argint_wp; [done|]. intros z s' HR'. destruct (runs_kill p i s' z HR') as (a & s2 & He & HR2).
    rewrite He. exact HR2. }
  destruct (num =? 11).
  { unfold sys_getpid. destruct (runs_curproc p i s HR) as (m & r & He & HR1 & _). eapply wp_bind_Ret; [exact He|].
    exact HR1. }
  destruct (num =? 12); [by apply sys_sbrk_wp|]. destruct (num =? 13); [by apply sys_sleep_wp|].
  destruct (num =? 14); [by apply sys_uptime_wp|].
  destruct (num =? 22).
  { unfold sys_yield. apply wp_bind. eapply wp_mono; [|apply yield_wp; [apply own_ready; apply HR|apply HR]].
    cbv beta. by intros j _ s' HR'. }
  destruct (num =? 23); [simpl; apply runs_env; [done|apply el_shutdown; eapply own_envok; apply HR]|].
  destruct (num =? 24); [apply argint_wp; [done|]; by intros z s' HR'|].
  destruct (num =? 25); [apply argint_wp; [done|]; intros; by apply fork_wp|].
  apply asleep_out. by apply sv_sysfile.
Qed.

Lemma runs_proc p i s r : Runs p i s -> procs s !! p = Some r -> state r = RUNNING.
Proof. intros [HO _] Hr. destruct (own_proc _ _ _ _ HO) as (r0 & Hr0 & Hs & _). congruence. Qed.

(** A change of the running process's entry that keeps what the scheduler uses. *)
Lemma runs_touch p i s f : Runs p i s -> (forall r, state (f r) = state r) -> (forall r, ticks_left (f r) = ticks_left r) ->
  (forall r, ofile (f r) = ofile r) -> (forall r, proc_ok r -> proc_ok (f r)) ->
  exists s', upd_proc p f s = Ret tt s' /\ Runs p i s'.
Proof.
  intros HR H1 H2 H3 H4. destruct (own_proc _ _ _ _ (proj1 HR)) as (r & Hr & Hs & _).
  eexists. split; [by apply (upd_proc_eq _ p r)|].
  apply (runs_upd p i s r); [done|done|by rewrite H1|done|by rewrite H3|apply H4].
Qed.

Lemma syscall_wp p i s : Runs p i s -> kwp p i (syscall fuel s) (fun j _ s' => Runs p j s').
Proof.
  intros HR. unfold syscall. destruct (runs_myproc p i s HR) as (m & He & HR1). eapply wp_bind_Ret; [exact He|].
  eapply wp_bind_Ret; [reflexivity|]. destruct (own_proc _ _ _ _ (proj1 HR1)) as (r & Hr & _).
  eapply wp_bind_Ret; [by apply get_proc_eq|].
  assert (forall j v s', Runs p j s' -> kwp p j (upd_tf p (set_tf_eax v) s') (fun j _ s' => Runs p j s')) as Htf.
  { intros j v s' HR'. destruct (runs_touch p j s' (fun r => set_tf (set_tf_eax v (tf r)) r)) as (s2 & He2 & HR2); [done..|by intros x []|].
    unfold upd_tf. rewrite He2. exact HR2. }
  destruct (_ && _).
  - apply wp_bind. eapply wp_mono; [|by apply syscalls_wp]. cbv beta. intros j v s' HR'. by apply Htf.
  - eapply wp_bind_Ret; [reflexivity|]. apply Htf. destruct HR1 as [HO Hf]. split; [by eapply own_ext, own_cpu|done].
Qed.

(** ** The clock *)

(** The clock interrupt: one tick more, and whoever sleeps for it wakes up. *)
Lemma tick_interrupt_eq s cp cq : kcpu 0 (km s) 0 cp cq -> iflag (km s) = false -> free_lock (pt_lock s) ->
  free_lock (tickslock s) -> length (procs s) = NPROC ->
  exists m l1 l2, tick_interrupt s = Ret tt (set_env (svc_lapiceoi (env s)) (set_ticks (u32 (ticks s + 1))
      (set_tickslock l1 (set_pt_lock l2 (set_km m (set_procs (wake TicksChan <$> procs s) s)))))) /\
    free_lock l1 /\ free_lock l2 /\ kcpu 0 m 0 cp cq /\ iflag m = false.
Proof.
  intros Hc Hi Hp Ht Hl. unfold tick_interrupt, cpuid. rewrite (bind_Ret _ _ _ _ _ (ks_mycpu_off 0 s 0 cp cq Hc Hi)).
  rewrite bool_decide_true by done. simpl when.
  destruct (ks_acquire_ticks 0 s 0 _ _ Hc shallow_0 Ht) as (m & l & He & Hh & Hc1 & Hs1).
  rewrite (bind_assoc _ _ _ _ _ _ He). erewrite (bind_assoc (modify _)) by reflexivity.
  destruct (wakeup_eq 0 (set_ticks (u32 (ticks s + 1)) (set_tickslock l (set_km m s))) 1 cp cq TicksChan Hc1)
    as (m2 & l2 & He2 & Hf2 & Hc2 & Hs2); [lia|by unfold shallow|done|done|].
  rewrite (bind_assoc _ _ _ _ _ _ He2).
  edestruct (ks_release_ticks 0 (set_pt_lock l2 (set_km m2 (set_ticks (u32 (ticks s + 1))
    (set_tickslock l (set_procs (wake TicksChan <$> procs s) s))))) 1 cp cq) as (m3 & l3 & He3 & Hf3 & Hc3 & Hs3);
    [exact Hc2|by unfold shallow|lia|exact Hh|].
  rewrite (bind_Ret _ _ _ _ _ He3). exists m3, l3, l2. split; [reflexivity|]. do 3 (split; [done|]).
  rewrite (if_saved_0 0 m3 _ _ Hc3). etrans; [exact Hs3|]. etrans; [exact Hs2|]. etrans; [exact Hs1|].
  by rewrite <- (if_saved_0 _ _ _ _ Hc).
Qed.

Lemma runs_tick_interrupt p i s : Runs p i s -> iflag (km s) = false ->
  exists s', tick_interrupt s = Ret tt s' /\ Runs p i s' /\ iflag (km s') = false.
Proof.
  intros [HO Hf] Hi. destruct (tick_interrupt_eq s _ _ (own_cpu _ _ _ _ HO) Hi Hf (own_ticks _ _ _ _ HO) (own_len _ _ _ _ HO))
    as (m & l1 & l2 & He & Hl1 & Hl2 & Hc & Him).
  eexists. split; [exact He|]. split; [|done]. split; [|done]. apply own_env; [|by eapply el_lapiceoi, own_envok].
  destruct (own_wake p i 0 s TicksChan HO) as (Q & k & (Hr & Ht & Hpk & _ & Hkp & _ & Hev) & Hik & Hsl).
  exists Q, k. split; [|done]. by repeat (split; [done|]).
Qed.

Lemma top_tick_interrupt C s : Top C s -> iflag (km s) = false ->
  exists s', tick_interrupt s = Ret tt s' /\ Top C s'.
Proof.
  intros (Q & Hk & Hf) Hi. pose proof (kernel_wake _ _ _ _ _ _ TicksChan Hk) as Hk2.
  destruct Hk as (_ & (_ & Hpk & _) & _ & Hc & _ & Htl & _).
  destruct (tick_interrupt_eq s _ _ Hc Hi Hf Htl (pk_len _ _ _ Hpk)) as (m & l1 & l2 & He & Hl1 & Hl2 & Hc2 & Him).
  eexists. split; [exact He|]. exists Q. split; [|done]. destruct Hk2 as (Hr & Ht & Hpk2 & _ & Hkp & _ & Hev).
  do 5 (split; [done|]). split; [done|by apply el_lapiceoi].
Qed.

(** The state after a tick is charged to process [p] and queue [q]. *)
Definition charged (p : nat) (r : proc) (q : nat) (lq : level_queue) s : kstate E :=
  set_level (<[q := set_lq_ticks_left (lq_ticks_left lq - 1) lq]> (level s))
    (set_procs (<[p := set_ticks_left (ticks_left r - 1) r]> (procs s)) s).

(** One tick of the slice of the running process. *)
Lemma slice_tick p i s r : Runs p i s -> procs s !! p = Some r -> exists lq t lst k Q,
  level s !! i.1 = Some lq /\ lq_ticks_left lq = t /\ 0 < t <= RSDL_LEVEL_QUANTUM /\
  0 < ticks_left r <= RSDL_PROC_QUANTUM /\ i.1 = (active s + k)%nat /\ Q.1 !! k = Some (t, lst) /\ rep s Q /\
  let s' := charged p r i.1 lq s in
  Ready p i 0 s' /\ free_lock (pt_lock s') /\ (0 < ticks_left r - 1 -> 0 < t - 1 -> Runs p i s') /\
  rep s' (put_loc (Act k) (t - 1, lst) Q) /\ queues_ok (put_loc (Act k) (t - 1, lst) Q) (Some k) /\ queues_ok Q (Some k).
Proof.
  intros [(Q & k & (Hr & Ht & Hpk & Hc & Hrest) & Hi & (r0 & [t lst] & Hr0 & Hs & Htl & Hk & Hv)) Hf] Hp.
  assert (r0 = r) as -> by congruence. simpl in Hv. destruct (rep_get s Q (Act k) _ Hr Hk) as (lq & Hlq & Hrl).
  simpl in Hlq. rewrite <- Hi in Hlq. pose proof Hrl as [Hrl1 Hrl2]. simpl in Hrl2.
  exists lq, t, lst, k, Q. split; [done|]. split; [done|].
  pose proof (qi_active _ _ (proj1 Ht) k _ Hk) as Hb. simpl in Hb. split; [lia|].
  pose proof Ht as (_ & _ & [_ (r1 & Hr1 & Hb1 & _)]). assert (r1 = r) as -> by congruence.
  split; [lia|]. do 3 (split; [done|]).
  destruct (table_tick _ Q p k r t lst Ht Hp Hk Hv Htl) as [Ht' HE]; [by rewrite Hs|].
  assert (forall i' r', <[p := set_ticks_left (ticks_left r - 1) r]> (procs s) !! i' = Some r' ->
    exists r0, procs s !! i' = Some r0 /\ ctx r' = ctx r0) as Hctx.
  { intros i' r' [[-> ->]|[Hne Hx]]%(insert_inv _ _ _ _ _ _ Hp); [by exists r|by exists r']. }
  unfold charged. rewrite Hrl2. set (s' := set_level _ _).
  assert (kernel s' (put_loc (Act k) (t - 1, lst) Q) (Some (p, k)) 0 (Some p) (Some i.1) i.2) as Hker.
  { split; [|split; [done|split; [|done]]].
    - unfold s'. rewrite Hi. assert (lvl_repr (set_lq_ticks_left (t - 1) lq) (t - 1, lst)) as Hl by (by destruct Hrl1).
      exact (rep_put s Q (Act k) _ _ Hr (at_loc_ok s Q (Act k) _ Hr Hk) Hl).
    - rewrite HE. eapply parked_mono; [exact Hpk|done|exact Hctx|done|by left]. }
  assert (procs s' !! p = Some (set_ticks_left (ticks_left r - 1) r)) as Hlk
    by (apply list_lookup_insert_eq; by eapply lookup_lt_Some).
  split; [by exists (put_loc (Act k) (t - 1, lst) Q), k, (set_ticks_left (ticks_left r - 1) r)|]. split; [done|].
  split; [|split; [apply Hker|split; [apply Ht'|apply Ht]]].
  intros H1 H2. split; [|done]. exists (put_loc (Act k) (t - 1, lst) Q), k. split; [done|]. split; [done|].
  exists (set_ticks_left (ticks_left r - 1) r), (t - 1, lst). do 3 (split; [done|]). split; [|done].
  apply list_lookup_insert_eq. by eapply lookup_lt_Some.
Qed.

Lemma tick_account_eq p i s r : Runs p i s -> iflag (km s) = false -> procs s !! p = Some r ->
  exists m lq, level s !! i.1 = Some lq /\ kcpu 0 m 0 (Some p) (Some i.1) /\
    tick_account s = when ((ticks_left r - 1 <=? 0) || (lq_ticks_left lq - 1 <=? 0)) yield
      (set_km m (charged p r i.1 lq s)).
Proof.
  intros HR Hi Hr. destruct (slice_tick p i s r HR Hr) as (lq & t & lst & k & Q & Hlq & <- & Hb & Hb2 & _).
  pose proof (own_cpu _ _ _ _ (proj1 HR)) as Hc. unfold RSDL_LEVEL_QUANTUM, RSDL_PROC_QUANTUM in *.
  unfold tick_account. rewrite (bind_Ret _ _ _ _ _ (ks_mycpu_off 0 s 0 _ _ Hc Hi)).
  destruct (ks_get_cpu 0 s 0 _ _ Hc) as (c & He & _ & _ & Hq). rewrite (bind_Ret _ _ _ _ _ He), Hq.
  destruct (ks_myproc 0 s 0 _ _ Hc shallow_0) as (m & He2 & Hc2 & _ & Hi2).
  rewrite (bind_Ret _ _ _ _ _ He2), (bind_deref _ p) by done. set (s2 := set_km m s).
  rewrite (bind_Ret _ _ _ _ _ (upd_proc_eq s2 p r _ Hr)). rewrite i32_id by lia.
  set (r' := set_ticks_left _ r). set (s3 := set_procs _ s2).
  assert (procs s3 !! p = Some r') as Hp3 by (apply list_lookup_insert_eq; by eapply lookup_lt_Some).
  rewrite (bind_Ret _ _ _ _ _ (get_proc_eq s3 p r' Hp3)).
  rewrite (bind_Ret _ _ _ _ _ (ks_mycpu_off 0 s3 0 _ _ Hc2 (eq_trans Hi2 Hi))).
  destruct (ks_get_cpu 0 s3 0 _ _ Hc2) as (c2 & He3 & _ & _ & Hq2).
  rewrite (bind_Ret _ _ _ _ _ He3), Hq2, (bind_deref _ i.1) by done.
  rewrite (bind_Ret _ _ _ _ _ (upd_level_eq s3 i.1 lq _ Hlq)). rewrite i32_id by lia.
  set (s4 := set_level _ s3).
  assert (level s4 !! i.1 = Some (set_lq_ticks_left (lq_ticks_left lq - 1) lq)) as Hq4
    by (apply list_lookup_insert_eq; by eapply lookup_lt_Some).
  rewrite (bind_Ret _ _ _ _ _ (get_level_eq s4 _ _ Hq4)). by exists m, lq.
Qed.

Lemma tick_account_wp p i s : Runs p i s -> iflag (km s) = false ->
  kwp p i (tick_account s) (fun j _ s' => Runs p j s').
Proof.
  intros HR Hi. destruct (own_proc _ _ _ _ (proj1 HR)) as (r & Hr & _).
  destruct (slice_tick p i s r HR Hr) as (lq & t & lst & k & Q & Hlq & <- & _ & _ & _ & _ & _ & Hrd & Hf & Hrun & _).
  destruct (tick_account_eq p i s r HR Hi Hr) as (m & lq' & Hlq' & Hc & ->). assert (lq' = lq) as -> by congruence.
  destruct (_ || _) eqn:Hb; simpl when.
  - apply yield_wp; [|done]. by eapply ready_ext.
  - apply orb_false_iff in Hb as [H1%Z.leb_gt H2%Z.leb_gt]. apply runs_km; [|done]. by apply Hrun.
Qed.

(** ** trap *)

Lemma runs_cur_killed p i s : Runs p i s -> exists m b, cur_killed s = Ret b (set_km m s) /\ Runs p i (set_km m s) /\
  iflag m = iflag (km s).
Proof.
  intros HR. destruct (ks_myproc 0 s 0 _ _ (own_cpu _ _ _ _ (proj1 HR)) shallow_0) as (m & He & Hc & _ & Hi).
  destruct (own_proc _ _ _ _ (proj1 HR)) as (r & Hr & _). exists m, (negb (killed r =? 0)).
  unfold cur_killed. rewrite (bind_Ret _ _ _ _ _ He). rewrite (bind_Ret _ _ _ _ _ (get_proc_eq (set_km m s) p r Hr)).
  split; [done|]. split; [by apply runs_km|done].
Qed.

(** A process that finds itself killed exits, or goes on. *)
Lemma when_exit_wp p i s b : Runs p i s -> kwp p i (when b exit s) (fun j _ s' => j = i /\ s' = s).
Proof.
  intros HR. destruct b; simpl; [|done]. apply left_out. eapply wp_mono; [|by apply exit_wp]. done.
Qed.

Lemma calm_runs p i s (m : M (kstate E) unit) : calm (Runs p i) m -> Runs p i s ->
  kwp p i (m s) (fun j _ s' => j = i /\ Runs p i s').
Proof.
  intros Hm HR. specialize (Hm s HR). destruct (m s); try done. destruct Hm as [[] _].
Qed.

Lemma runs_lapiceoi p i s : Runs p i s -> Runs p i (set_env (svc_lapiceoi (env s)) s).
Proof. intros HR. apply runs_env; [done|]. eapply el_lapiceoi, own_envok, HR. Qed.

Lemma unexpected_trap_wp p i s f : Runs p i s -> iflag (km s) = false -> Z.land (tf_cs f) 3 = 3 ->
  exists s', unexpected_trap f s = Ret tt s' /\ Runs p i s'.
Proof.
  intros HR Hi Hcs. unfold unexpected_trap.
  destruct (ks_myproc 0 s 0 _ _ (own_cpu _ _ _ _ (proj1 HR)) shallow_0) as (m & He & Hc & _ & Hi1).
  rewrite (bind_Ret _ _ _ _ _ He). rewrite Hcs. erewrite (bind_Ret (ret _)) by reflexivity. change (3 =? 0) with false. cbv iota.
  assert (Runs p i (set_km m s)) as HR1 by (by apply runs_km).
  destruct (runs_curproc p i _ HR1) as (m2 & r & He2 & HR2 & Hr & Hi2). rewrite (bind_Ret _ _ _ _ _ He2).
  pose proof (own_cpu _ _ _ _ (proj1 HR2)) as Hc2. unfold cpuid.
  rewrite (bind_Ret _ _ _ _ _ (ks_mycpu_off 0 _ 0 _ _ Hc2 (eq_trans Hi2 (eq_trans Hi1 Hi)))).
  erewrite (bind_Ret (gets _)) by reflexivity. erewrite (bind_Ret (cprintf _ _)) by reflexivity.
  set (s3 := set_out _ _).
  assert (Runs p i s3) as HR3 by (destruct HR2 as [HO Hf]; split; [by eapply own_ext|done]).
  destruct (runs_myproc p i s3 HR3) as (m4 & He4 & HR4). rewrite (bind_Ret _ _ _ _ _ He4), (bind_deref _ p) by done.
  apply runs_touch; [done..|]. by intros x [].
Qed.

(** The switch, run by a process: at a clock interrupt interrupts are still off after it. *)
Lemma trap_switch_wp p i s f : Runs p i s -> iflag (km s) = false -> Z.land (tf_cs f) 3 = 3 ->
  kwp p i (trap_switch f s) (fun j _ s' => j = i /\ Runs p i s' /\
    (tf_trapno f = T_IRQ0 + IRQ_TIMER -> iflag (km s') = false)).
Proof.
  intros HR Hi Hcs. unfold trap_switch. destruct (Z.eqb_spec (tf_trapno f) (T_IRQ0 + IRQ_TIMER)) as [_|Hne].
  { destruct (runs_tick_interrupt p i s HR Hi) as (s' & He & HR' & Hi'). rewrite He. done. }
  assert (forall m : M (kstate E) unit, calm (Runs p i) m -> kwp p i ((m ;;; lapiceoi) s) (fun j _ s' => j = i /\ Runs p i s' /\
    (tf_trapno f = T_IRQ0 + IRQ_TIMER -> iflag (km s') = false))) as Hdev.
  { intros m Hm. apply wp_bind. eapply wp_mono; [|by apply calm_runs]. cbv beta. intros j _ s' [-> HR'].
    split; [done|]. split; [by apply runs_lapiceoi|done]. }
  destruct (_ =? T_IRQ0 + IRQ_IDE); [apply Hdev, sv_ideintr|]. destruct (_ =? T_IRQ0 + IRQ_IDE + 1); [done|].
  destruct (_ =? T_IRQ0 + IRQ_KBD); [apply Hdev, sv_kbdintr|].
  destruct (_ =? T_IRQ0 + IRQ_COM1); [apply Hdev, sv_uartintr|].
  pose proof (own_cpu _ _ _ _ (proj1 HR)) as Hc. destruct (_ || _).
  - unfold cpuid. eapply wp_bind_Ret; [by apply (ks_mycpu_off 0 s 0 _ _ Hc)|]. eapply wp_bind_Ret; [reflexivity|].
    split; [done|]. split; [|done]. apply runs_lapiceoi. destruct HR as [HO Hf]. split; [by eapply own_ext|done].
  - destruct (unexpected_trap_wp p i s f HR Hi Hcs) as (s' & He & HR'). rewrite He. done.
Qed.

Lemma runs_cur_running p i s : Runs p i s -> exists m, cur_running s = Ret true (set_km m s) /\ Runs p i (set_km m s) /\
  iflag m = iflag (km s).
Proof.
  intros HR. destruct (ks_myproc 0 s 0 _ _ (own_cpu _ _ _ _ (proj1 HR)) shallow_0) as (m & He & Hc & _ & Hi).
  destruct (own_proc _ _ _ _ (proj1 HR)) as (r & Hr & Hs & _). exists m.
  unfold cur_running. rewrite (bind_Ret _ _ _ _ _ He). rewrite (bind_Ret _ _ _ _ _ (get_proc_eq (set_km m s) p r Hr)).
  rewrite bool_decide_true by done. split; [done|]. split; [by apply runs_km|done].
Qed.

Lemma trap_syscall_wp p i s a f : Runs p i s -> tf_trapno f = T_SYSCALL ->
  kwp p i (trap fuel a f s) (fun j _ s' => Runs p j s').
Proof.
  intros HR Ht. unfold trap. rewrite Ht, Z.eqb_refl.
  destruct (runs_curproc p i s HR) as (m & r & He & HR1 & _). eapply wp_bind_Ret; [exact He|].
  apply wp_bind. eapply wp_mono; [|by apply when_exit_wp]. cbv beta. intros j _ s' [-> ->].
  destruct (runs_myproc p i _ HR1) as (m2 & He2 & HR2). eapply wp_bind_Ret; [exact He2|].
  eapply wp_bind_Ret; [reflexivity|].
  edestruct (runs_touch p i _ (fun r => set_tf f (set_tf_addr a r)) HR2) as (s3 & He3 & HR3); [done..|by intros x []|].
  eapply wp_bind_Ret; [exact He3|]. apply wp_bind. eapply wp_mono; [|by apply syscall_wp]. cbv beta. clear - SL. intros i _ s HR.
  destruct (runs_curproc p i s HR) as (m & r & He & HR1 & _). eapply wp_bind_Ret; [exact He|].
  eapply wp_mono; [|by apply when_exit_wp]. cbv beta. by intros j _ s' [-> ->].
Qed.

Lemma trap_wp p i s a f : Runs p i s -> Z.land (tf_cs f) 3 = 3 ->
  (tf_trapno f <> T_SYSCALL -> iflag (km s) = false) ->
  kwp p i (trap fuel a f s) (fun j _ s' => Runs p j s').
Proof.
  intros HR Hcs Hi. destruct (decide (tf_trapno f = T_SYSCALL)) as [Ht|Hne]; [by apply trap_syscall_wp|].
  unfold trap. rewrite (proj2 (Z.eqb_neq _ _) Hne). apply wp_bind.
  eapply wp_mono; [|by apply trap_switch_wp; auto]. cbv beta. clear s HR Hi. intros j _ s (-> & HR & Hi).
  destruct (runs_cur_killed p i s HR) as (m & b & He & HR1 & Hi1). eapply wp_bind_Ret; [exact He|].
  apply wp_bind. eapply wp_mono; [|by apply when_exit_wp]. cbv beta. intros j _ s' [-> ->].
  destruct (runs_cur_running p i _ HR1) as (m2 & He2 & HR2 & Hi2). eapply wp_bind_Ret; [exact He2|].
  apply wp_bind. eapply wp_mono with (Q := fun j _ s' => Runs p j s').
  - cbv beta. clear - SL. intros i _ s HR.
    destruct (runs_cur_killed p i s HR) as (m & b & He & HR1 & Hi1). eapply wp_bind_Ret; [exact He|].
    eapply wp_mono; [|by apply when_exit_wp]. cbv beta. by intros j _ s' [-> ->].
  - simpl andb. destruct (Z.eqb_spec (tf_trapno f) (T_IRQ0 + IRQ_TIMER)) as [Ht|_]; simpl when; [|done].
    apply tick_account_wp; [done|]. etrans; [exact Hi2|]. etrans; [exact Hi1|by apply Hi].
Qed.

(** ** Interrupts of the scheduler *)

Definition irq (n : Z) : Prop :=
  n = T_IRQ0 + IRQ_TIMER \/ n = T_IRQ0 + IRQ_IDE \/ n = T_IRQ0 + IRQ_IDE + 1 \/ n = T_IRQ0 + IRQ_KBD \/
  n = T_IRQ0 + IRQ_COM1 \/ n = T_IRQ0 + 7 \/ n = T_IRQ0 + IRQ_SPURIOUS.

Lemma top_cpu C s : Top C s -> kcpu 0 (km s) 0 None None.
Proof. intros (Q & (_ & _ & _ & Hc & _) & _). done. Qed.

Lemma top_ext C s s' : Top C s ->
  active s' = active s -> expired s' = expired s -> level s' = level s -> procs s' = procs s ->
  kpgdir s' = kpgdir s -> tickslock s' = tickslock s -> env s' = env s -> pt_lock s' = pt_lock s ->
  kcpu 0 (km s') 0 None None -> Top C s'.
Proof.
  intros (Q & Hk & Hf) E1 E2 E3 E4 E5 E6 E7 E8 Hc. exists Q. split; [by eapply kernel_ext|]. by rewrite E8.
Qed.

Lemma top_env C s e : Top C s -> env_ok e -> Top C (set_env e s).
Proof. intros (Q & (Hr & Ht & Hpk & Hc & Hkp & Hf & _) & Hl) He. by exists Q. Qed.

Lemma top_lapiceoi C s : Top C s -> Top C (set_env (svc_lapiceoi (env s)) s).
Proof. intros HT. apply top_env; [done|]. destruct HT as (Q & (_ & _ & _ & _ & _ & _ & He) & _). by apply el_lapiceoi. Qed.

Lemma top_myproc C s : Top C s -> exists m, myproc s = Ret None (set_km m s) /\ Top C (set_km m s).
Proof.
  intros HT. destruct (ks_myproc 0 s 0 _ _ (top_cpu _ _ HT) shallow_0) as (m & He & Hc & _ & _).
  exists m. split; [done|]. by eapply top_ext.
Qed.

Abbreviation twp := (wp (fun _ => False) (fun _ _ => False) (fun _ _ _ => False) tt).

Lemma top_trap_switch C s f : Top C s -> iflag (km s) = false -> irq (tf_trapno f) ->
  twp (trap_switch f s) (fun _ _ s' => Top C s').
Proof.
  intros HT Hi Hirq. unfold trap_switch. destruct (Z.eqb_spec (tf_trapno f) (T_IRQ0 + IRQ_TIMER)) as [_|Hn1].
  { destruct (top_tick_interrupt C s HT Hi) as (s' & He & HT'). by rewrite He. }
  assert (forall m : M (kstate E) unit, calm (Top C) m -> twp ((m ;;; lapiceoi) s) (fun _ _ s' => Top C s')) as Hdev.
  { intros m Hm. apply wp_bind. eapply wp_mono; [|by apply Hm]. cbv beta. intros [] _ s' HT'. by apply top_lapiceoi. }
  destruct (Z.eqb_spec (tf_trapno f) (T_IRQ0 + IRQ_IDE)); [apply Hdev, sv_ideintr|].
  destruct (Z.eqb_spec (tf_trapno f) (T_IRQ0 + IRQ_IDE + 1)); [done|].
  destruct (Z.eqb_spec (tf_trapno f) (T_IRQ0 + IRQ_KBD)); [apply Hdev, sv_kbdintr|].
  destruct (Z.eqb_spec (tf_trapno f) (T_IRQ0 + IRQ_COM1)); [apply Hdev, sv_uartintr|].
  pose proof (top_cpu _ _ HT) as Hc. destruct (_ || _) eqn:Hsp.
  - unfold cpuid. eapply wp_bind_Ret; [by apply (ks_mycpu_off 0 s 0 _ _ Hc)|]. eapply wp_bind_Ret; [reflexivity|].
    apply top_lapiceoi. by eapply top_ext.
  - apply orb_false_iff in Hsp as [H1%Z.eqb_neq H2%Z.eqb_neq].
    destruct Hirq as [|[|[|[|[|[|]]]]]]; congruence.
Qed.

Lemma top_trap C s a f : Top C s -> iflag (km s) = false -> irq (tf_trapno f) ->
  twp (trap fuel a f s) (fun _ _ s' => Top C s').
Proof.
  intros HT Hi Hirq. unfold trap. rewrite (proj2 (Z.eqb_neq _ T_SYSCALL)).
  2:{ destruct Hirq as [->|[->|[->|[->|[->|[->| ->]]]]]]; done. }
  apply wp_bind. eapply wp_mono; [|by apply top_trap_switch]. cbv beta. clear s HT Hi. intros [] _ s HT.
  destruct (top_myproc C s HT) as (m & He & HT1). unfold cur_killed.
  erewrite bind_assoc by exact He. eapply wp_bind_Ret; [reflexivity|]. eapply wp_bind_Ret; [reflexivity|].
  destruct (top_myproc C _ HT1) as (m2 & He2 & HT2). unfold cur_running.
  erewrite bind_assoc by exact He2. eapply wp_bind_Ret; [reflexivity|]. eapply wp_bind_Ret; [reflexivity|].
  destruct (top_myproc C _ HT2) as (m3 & He3 & HT3).
  erewrite bind_assoc by exact He3. eapply wp_bind_Ret; [reflexivity|]. exact HT3.
Qed.

End Safe.
