(* ===== verification/System.v ===== *)
(** * The running kernel

    The machine as a state machine: the scheduler looks for a process; the process
    it hands the CPU to runs in user mode until it traps; its kernel code runs until
    it returns to user mode or gives the CPU back, in which case the rest of it is
    kept until the scheduler hands the CPU over again. *)

From stdpp Require Import base tactics list sets strings relations.
From Stdlib Require Import ZArith Lia.
From S2P Require Import Prelude Params Spinlock ProcState Rsdl RsdlSpec Scheduler SchedRefine SchedInv SchedLoop Proc ProcFacts ProcSafe Fork Exit Trap TrapSafe.
Open Scope Z_scope.

Section Machine.
Context {E : Type} `{Services E} (fuel : nat).

(** Kernel code that waits in [swtch] for the CPU. *)
Definition suspended : Type := kstate E -> res (kstate E) unit.

Inductive stop : Type :=
| Panicked (msg : string)
| Faulted
| Spinning
| Halted
| OutOfFuel.

(** [sus] holds the suspended kernel code of the processes; a process in user mode
    runs on top of the scheduler, which waits in [swtch] as [ks]. *)
Inductive config : Type :=
| Idle (sus : nat -> option suspended) (s : kstate E)
| User (sus : nat -> option suspended) (p : nat) (ks : suspended) (s : kstate E)
| Stopped (why : stop).

(** Code that is not meant to give the CPU away ran. *)
Definition back_to_idle (sus : nat -> option suspended) (r : res (kstate E) unit) : config :=
  match r with
  | Ret _ s => Idle sus s
  | Panic msg => Stopped (Panicked msg)
  | Fault | Switch _ _ => Stopped Faulted
  | Spin => Stopped Spinning
  | Halt => Stopped Halted
  | Fuel => Stopped OutOfFuel
  end.

(** Kernel code of process [p] ran: it returns to user mode, or to the scheduler. *)
Definition back_from_kernel (sus : nat -> option suspended) (p : nat) (ks : suspended) (r : res (kstate E) unit) : config :=
  match r with
  | Ret _ s => User sus p ks s
  | Switch s k => back_to_idle (fun p' => if decide (p' = p) then Some k else sus p') (ks s)
  | _ => back_to_idle sus r
  end.

(** [swtch] to process [p]: a process that never ran starts in [forkret]. *)
Definition resume (sus : nat -> option suspended) (p : nat) : suspended := fun s =>
  match procs s !! p with
  | None => Fault
  | Some r => if ctx_eip (ctx r) =? forkret_addr then forkret s
              else match sus p with Some k => k s | None => Fault end
  end.

(** One iteration of [scheduler] on the boot CPU. *)
Definition schedule (sus : nat -> option suspended) (s : kstate E) : config :=
  match scheduler_body 0 s with
  | Switch s' ks =>
      match cpus (km s') !! 0%nat ≫= c_proc with
      | Some p => back_from_kernel sus p ks (resume sus p s')
      | None => Stopped Faulted
      end
  | r => back_to_idle sus r
  end.

(** The hardware enters the kernel: interrupts, which are on in user mode and where
    the scheduler can be interrupted, go off at an interrupt gate and stay on at a
    trap gate. *)
Definition gate (f : trapframe) (s : kstate E) : kstate E :=
  set_km (set_iflag (match idt !! Z.to_nat (tf_trapno f) with
                     | Some g => gd_type g =? STS_TG32
                     | None => false
                     end) (km s)) s.

(** What can happen: the scheduler goes round its loop, or is interrupted where it
    has interrupts on; the process traps into the kernel, with the trap frame [f] at
    address [a], or computes, which changes its memory. *)
Inductive event : Type :=
| Round
| Interrupt (a : Z) (f : trapframe)
| UserTrap (a : Z) (f : trapframe)
| Compute (e : E).

Definition fire (ev : event) (c : config) : option config :=
  match ev, c with
  | Round, Idle sus s => Some (schedule sus s)
  | Interrupt a f, Idle sus s => Some (back_to_idle sus (trap fuel a f (gate f s)))
  | UserTrap a f, User sus p ks s => Some (back_from_kernel sus p ks (trap fuel a f (gate f s)))
  | Compute e, User sus p ks s => Some (User sus p ks (set_env e s))
  | _, _ => None
  end.

End Machine.
Arguments config : clear implicits.
Arguments event : clear implicits.
Arguments suspended : clear implicits.

Section Safety.
Context {E : Type} `{SL : SvcLaws E} (fuel : nat).
Implicit Types (s : kstate E) (c : config E).

(** The hardware's part: interrupts come from devices, user code traps from ring 3
    and leaves the devices alone. *)
Definition possible (ev : event E) : Prop :=
  match ev with
  | Round => True
  | Interrupt _ f => irq (tf_trapno f)
  | UserTrap _ f => Z.land (tf_cs f) 3 = 3
  | Compute e => env_ok e
  end.

Inductive step c c' : Prop :=
| step_fire ev : possible ev -> fire fuel ev c = Some c' -> step c c'.

(** ** The invariant *)

(** Suspended code of [p] that is safe to resume. *)
Definition safe (p : nat) (k : suspended E) : Prop :=
  forall j s', Held p j s' -> wp allowed (Out p) (Resumed p) j (k s') (fun j _ s' => Runs p j s').

(** The scheduler's code under process [p], which was taken from queue [q]. *)
Definition safe_sched (p q : nat) (ks : suspended E) : Prop :=
  forall C1 C2 s2, Out p (q, C1) s2 -> (forall i, C1 i -> C2 i) -> (zombie s2 p \/ C2 p) ->
    exists s3, ks s2 = Ret tt s3 /\ Top C2 s3.

Definition all_safe (C : nat -> Prop) (sus : nat -> option (suspended E)) : Prop :=
  forall p, C p -> exists k, sus p = Some k /\ safe p k.

Definition allowed_stop (w : stop) : Prop :=
  match w with Panicked msg => allowed msg | Halted | OutOfFuel => True | Faulted | Spinning => False end.

Definition inv (c : config E) : Prop :=
  match c with
  | Idle sus s => exists C, Top C s /\ all_safe C sus
  | User sus p ks s => exists q C, Runs p (q, C) s /\ ~ C p /\ all_safe C sus /\ safe_sched p q ks
  | Stopped w => allowed_stop w
  end.

Lemma back_to_idle_inv (P : string -> Prop) C sus (r : res (kstate E) unit) : (forall m, P m -> allowed m) ->
  wp P (fun _ _ => False) (fun _ _ _ => False) tt r (fun _ _ s' => Top C s') ->
  all_safe C sus -> inv (back_to_idle sus r).
Proof.
  intros HP Hw Hs. destruct r; simpl in *; try done; [by exists C|by apply HP|by destruct Hw as [[] _]].
Qed.

Lemma back_from_kernel_inv p q C sus ks r : ~ C p -> all_safe C sus -> safe_sched p q ks ->
  wp allowed (Out p) (Resumed p) (q, C) r (fun j _ s' => Runs p j s') ->
  inv (back_from_kernel sus p ks r).
Proof.
  intros HC Hs Hk Hw. destruct r as [a s|msg| | | | |s k]; try done; simpl in *; [by exists q, C|].
  destruct Hw as [HO Hw].
  destruct (decide (state <$> procs s !! p = Some ZOMBIE)) as [Hz|Hz].
  - assert (zombie s p) as Hz' by (destruct (procs s !! p) as [r|] eqn:Hr; [|done]; exists r; by simplify_eq/=).
    destruct (Hk C C s HO) as (s3 & -> & HT); [done|by left|]. exists C. split; [done|].
    intros p' Hp'. rewrite decide_False by congruence. by apply Hs.
  - destruct (Hk C (fun i => C i \/ i = p) s HO) as (s3 & -> & HT); [by left|by right; right|].
    exists (fun i => C i \/ i = p). split; [done|]. intros p' Hp'. destruct (decide (p' = p)) as [->|Hne].
    + exists k. split; [done|]. intros j s' HH. apply Hw. split; [done|].
      intros (r & Hr & Hzr). apply Hz. by rewrite Hr, <- Hzr.
    + apply Hs. by destruct Hp'.
Qed.

Lemma held_drop p q (C : nat -> Prop) s : Held p (q, C) s -> Held p (q, fun i => C i /\ i <> p) s.
Proof.
  intros [(Q & k & (Hr & Ht & Hpk & Hrest) & Hi & Hs) Hh]. split; [|done]. exists Q, k. split; [|done].
  split; [done|]. split; [done|]. split; [|done]. intros i r Hr' Hin Hne.
  destruct (Hpk i r Hr' Hin Hne); [by left|]. right. split; [done|]. simpl in Hne. congruence.
Qed.

Lemma resume_wp C sus p q s : all_safe C sus -> Held p (q, fun i => C i /\ i <> p) s ->
  (ctx_eip <$> (ctx <$> procs s !! p) = Some forkret_addr \/ C p) ->
  wp allowed (Out p) (Resumed p) (q, fun i => C i /\ i <> p) (resume sus p s) (fun j _ s' => Runs p j s').
Proof.
  intros Hs HH Hc. unfold resume. destruct (own_proc _ _ _ _ (proj1 HH)) as (r & Hr & _). rewrite Hr in *. simpl in Hc.
  destruct (Z.eqb_spec (ctx_eip (ctx r)) forkret_addr) as [_|Hne]; [by apply forkret_wp|].
  destruct Hc as [?|HC]; [congruence|]. destruct (Hs p HC) as (k & -> & Hsafe). by apply Hsafe.
Qed.

Lemma schedule_inv C sus s : Top C s -> all_safe C sus -> inv (schedule sus s).
Proof.
  intros (Q & Hk & Hf) Hs. unfold schedule. pose proof (scheduler_body_ok C s Q Hk Hf) as Hb.
  destruct (pick_spec (procs s) Q.1) as [[k p]|] eqn:Hpick.
  - destruct Hb as (r & s' & kk & -> & Hr & Hps & _ & HH & Hkk).
    pose proof (own_cpu _ _ _ _ (proj1 HH)) as (c & Hc & _ & Hcp & _).
    rewrite (tc_lookup _ _ _ Hc). simpl. rewrite Hcp.
    apply (back_from_kernel_inv p (active s + k)%nat (fun i => C i /\ i <> p)); [by intros []|intros p' [? _]; by apply Hs| |].
    { intros C1 C2 s2 HO HC HCp. destruct (Hkk C1 C2 s2 HO HC HCp) as (s3 & ? & ? & _). eauto. }
    eapply resume_wp; [done|by apply held_drop|]. rewrite Hps, list_lookup_insert_eq by (by eapply lookup_lt_Some).
    destruct Hk as (_ & Ht & Hpk & _). destruct (pick_spec_Some _ _ _ _ Hpick) as (v & r0 & Hl & _ & Hin & _).
    destruct (Hpk p r Hr) as [He|?]; [by apply (queued_in Q k v); auto|done| |by right]. left. simpl. by rewrite He.
  - destruct Hb as (s' & -> & Hk' & Hf' & _). exists C. split; [by eexists|done].
Qed.

(** ** Safety *)

Lemma kcpu_set_iflag m b cp cq : kcpu 0 m 0 cp cq -> kcpu 0 (set_iflag b m) 0 cp cq.
Proof. intros (c & [H1 H2 H3 H4 H5 H6] & Hn & Hp & Hq). exists c. split; [|done]. constructor; try done. lia. Qed.

(** Only the gate of the system calls leaves interrupts on. *)
Lemma gate_off f s : tf_trapno f <> T_SYSCALL -> iflag (km (gate f s)) = false.
Proof.
  intros Hne. unfold gate. cbn [km set_km iflag set_iflag].
  destruct (idt !! Z.to_nat (tf_trapno f)) as [g|] eqn:Hg; [|done].
  unfold idt in Hg. destruct (decide (Z.to_nat (tf_trapno f) = Z.to_nat T_SYSCALL)) as [He|He].
  { unfold T_SYSCALL in *. lia. }
  rewrite list_lookup_insert_ne in Hg by done. rewrite list_lookup_fmap in Hg.
  apply fmap_Some in Hg as (i & _ & ->). done.
Qed.

Lemma inv_step c c' : inv c -> step c c' -> inv c'.
Proof.
  intros Hi [ev Hp Hf]. destruct ev as [|a f|a f|e], c as [sus s|sus p ks s|]; try discriminate; injection Hf as <-.
  - destruct Hi as (C & HT & Hs). by apply (schedule_inv C).
  - destruct Hi as (C & HT & Hs). apply (back_to_idle_inv (fun _ => False) C); [done| |done].
    apply top_trap; [| |done].
    + eapply top_ext; [done..|]. apply kcpu_set_iflag. by eapply top_cpu.
    + apply gate_off. destruct Hp as [->|[->|[->|[->|[->|[->| ->]]]]]]; done.
  - destruct Hi as (q & C & HR & HC & Hs & Hk). eapply back_from_kernel_inv; [done..|].
    apply trap_wp; [|done|].
    + apply runs_km; [done|]. apply kcpu_set_iflag. apply (own_cpu _ _ _ _ (proj1 HR)).
    + apply gate_off.
  - destruct Hi as (q & C & HR & HC & Hs & Hk). exists q, C. split; [by apply runs_env|done].
Qed.

Lemma inv_reachable c c' : inv c -> rtc step c c' -> inv c'.
Proof. intros Hi Hs. induction Hs as [|c c1 c2 H1 H2 IH]; [done|]. apply IH. by eapply inv_step. Qed.

End Safety.
