(* ===== verification/Boot.v ===== *)
(** * Start of the kernel (pinit, userinit of proc.c; main.c)

    From memory as the loader leaves it, [pinit], [tvinit] and [userinit] establish
    the invariant of the running kernel with one process, the first. *)

From stdpp Require Import base tactics list sets strings relations.
From Stdlib Require Import ZArith Lia.
From S2P Require Import Prelude Params Spinlock ProcState Rsdl RsdlSpec Scheduler SchedRefine SchedInv SchedLoop Proc ProcFacts ProcSafe Fork Exit Trap TrapSafe System.
Open Scope Z_scope.

Section Boot.
Context {E : Type} `{SL : SvcLaws E}.
Implicit Types (s : kstate E) (Q : sets).

(** The steps of [main] that concern processes. *)
Definition main : M (kstate E) unit :=
  pinit ;;;
  tvinit ;;;
  userinit.

(** Memory after loading: no process, and the sizes of the C arrays. *)
Record loaded s : Prop := {
  ld_cpu : kcpu 0 (km s) 0 None None;
  ld_kpgdir : KERNBASE <= kpgdir s;
  ld_env : env_ok (env s);
  ld_procs : length (procs s) = NPROC;
  ld_unused : forall i r, procs s !! i = Some r -> state r = UNUSED /\ length (ofile r) = NOFILE;
  ld_levels : length (level s) = (2 * RSDL_LEVELS)%nat;
  ld_queues : forall q lq, level s !! q = Some lq -> length (lq_proc lq) = NPROC
}.

(** ** pinit *)

Definition clear (l : list (option nat)) (xs : list nat) : list (option nat) :=
  foldl (fun l i => <[i := None]> l) l xs.

Lemma length_clear xs : forall l, length (clear l xs) = length l.
Proof. unfold clear. induction xs as [|x xs IH]; intros l; simpl; [done|]. by rewrite IH, length_insert. Qed.

Lemma clear_loop q xs : forall s lq, level s !! q = Some lq ->
  for_each xs (fun i => upd_level q (fun x => set_lq_proc (<[i := None]> (lq_proc x)) x)) s =
  Ret tt (set_level (<[q := set_lq_proc (clear (lq_proc lq) xs) lq]> (level s)) s).
Proof.
  induction xs as [|x xs IH]; intros s lq Hq; simpl.
  - rewrite list_insert_id; [by destruct s|]. rewrite Hq. by destruct lq.
  - rewrite (bind_Ret _ _ _ _ _ (upd_level_eq s q lq _ Hq)).
    set (lq1 := set_lq_proc _ lq). set (s1 := set_level _ s).
    assert (level s1 !! q = Some lq1) as H1 by (apply list_lookup_insert_eq; by eapply lookup_lt_Some).
    rewrite (IH s1 lq1 H1). unfold s1. simpl. by rewrite list_insert_insert_eq.
Qed.

(** What the initialisation of a queue leaves. *)
Definition level0 (lq : level_queue) : level_queue :=
  mkLq (mkLock 0 "level queue" None) 0 RSDL_LEVEL_QUANTUM (clear (lq_proc lq) (seq 0 NPROC)).

Lemma level0_repr lq : length (lq_proc lq) = NPROC -> lvl_repr (level0 lq) (RSDL_LEVEL_QUANTUM, []).
Proof.
  intros Hl. split; [|reflexivity]. split; [reflexivity|reflexivity| |split; reflexivity].
  change (length (clear (lq_proc lq) (seq 0 NPROC)) = NPROC). rewrite length_clear. exact Hl.
Qed.


(** The levels after some of them have been initialised. *)
Definition sized (lv : list level_queue) : Prop :=
  length lv = (2 * RSDL_LEVELS)%nat /\ forall q lq, lv !! q = Some lq -> length (lq_proc lq) = NPROC.

Definition blank (q : nat) s : Prop :=
  exists lq, level s !! q = Some lq /\ lvl_repr lq (RSDL_LEVEL_QUANTUM, []).

(** The body of the loops of [pinit]. *)
Definition init_level (q : nat) : M (kstate E) unit :=
  initlock (level_lock q) "level queue" ;;;
  acquire (level_lock q) ;;;
  (upd_level q (set_numproc 0) ;;;
   upd_level q (set_lq_ticks_left RSDL_LEVEL_QUANTUM) ;;;
   for_each (seq 0 NPROC) (fun i =>
     upd_level q (fun q => set_lq_proc (<[i := None]> (lq_proc q)) q))) ;;;
  release (level_lock q).

Lemma pinit_level s i c q : in_cli s i c -> sized (level s) -> (q < 2 * RSDL_LEVELS)%nat ->
  exists lv, init_level q s = Ret tt (set_level lv s) /\ sized lv /\
    blank q (set_level lv s) /\ forall q', blank q' s -> blank q' (set_level lv s).
Proof.
  intros Hc [Hlen Hsz] Hq. destruct (lookup_lt_is_Some_2 (level s) q) as [lq Hlq]; [lia|].
  set (lq1 := set_lq_lock (mkLock 0 "level queue" None) lq). set (s1 := set_level (<[q := lq1]> (level s)) s).
  assert (level s1 !! q = Some lq1) as Hl1 by (apply list_lookup_insert_eq; by eapply lookup_lt_Some).
  unfold init_level. rewrite (bind_Ret (initlock _ _) _ _ tt s1).
  2:{ unfold initlock, modify, s1. simpl. by rewrite (alter_Some_insert _ _ _ lq). }
  destruct (level_section (fun s' => s' = s1) s1 i c q lq1 (level0 lq)
    (upd_level q (set_numproc 0) ;;; upd_level q (set_lq_ticks_left RSDL_LEVEL_QUANTUM) ;;;
     for_each (seq 0 NPROC) (fun i => upd_level q (fun q => set_lq_proc (<[i := None]> (lq_proc q)) q))) tt)
    as (s2 & s3 & s4 & -> & He2 & He3 & He4); [by destruct Hc|done|done|done| |].
  { intros m h. exists s1. split; [done|]. split; [done|].
    erewrite (bind_Ret (upd_level q (set_numproc 0))).
    2:{ apply (upd_level_eq _ q (set_lq_lock h lq1)). apply list_lookup_insert_eq. by eapply lookup_lt_Some. }
    erewrite (bind_Ret (upd_level q (set_lq_ticks_left _))).
    2:{ eapply upd_level_eq. apply list_lookup_insert_eq. simpl. rewrite !length_insert. by eapply lookup_lt_Some. }
    erewrite clear_loop.
    2:{ apply list_lookup_insert_eq. simpl. rewrite !length_insert. by eapply lookup_lt_Some. }
    unfold s1. cbn [level set_level]. by rewrite !list_insert_insert_eq. }
  rewrite (bind_Ret _ _ _ _ _ He2), (bind_Ret _ _ _ _ _ He3), He4.
  unfold s1. cbn [level set_level]. rewrite list_insert_insert_eq.
  exists (<[q := level0 lq]> (level s)). split; [done|]. pose proof (lookup_lt_Some _ _ _ Hlq) as Hlt.
  split; [split; [by rewrite length_insert|]|split].
  - intros q' lq' [[-> ->]|[_ Hx]]%(insert_inv _ _ _ _ _ _ Hlq); [|by eapply Hsz].
    destruct (level0_repr lq (Hsz _ _ Hlq)) as [Hr _]. apply Hr.
  - exists (level0 lq). split; [by apply list_lookup_insert_eq|]. apply level0_repr. by eapply Hsz.
  - intros q' (lq' & Hlq' & Hr). destruct (decide (q' = q)) as [->|Hne].
    + exists (level0 lq). split; [by apply list_lookup_insert_eq|]. apply level0_repr. by eapply Hsz.
    + exists lq'. split; [|done]. simpl. by rewrite list_lookup_insert_ne.
Qed.

Lemma pinit_levels s i c : in_cli s i c -> sized (level s) ->
  exists lv, for_each (seq 0 2) (fun t =>
    for_each (seq 0 RSDL_LEVELS) (fun k => init_level (level_ptr t k))) s = Ret tt (set_level lv s) /\ sized lv /\
    forall t k, (t < 2)%nat -> (k < RSDL_LEVELS)%nat -> blank (level_ptr t k) (set_level lv s).
Proof.
  intros Hc Hs.
  edestruct (for_each_post (fun s' => exists lv, s' = set_level lv s /\ sized lv)
    (fun t s' => forall k, (k < RSDL_LEVELS)%nat -> blank (level_ptr t k) s')
    (fun t => for_each (seq 0 RSDL_LEVELS) (fun k => init_level (level_ptr t k))) (seq 0 2) s) as (s' & He & (lv & -> & Hlv) & HP & _);
    [|intros t s1 Ht%elem_of_seq (lv1 & -> & Hlv1)|].
  - exists (level s). split; [by destruct s|done].
  - edestruct (for_each_post (fun s' => exists lv, s' = set_level lv s /\ sized lv /\
        forall q, blank q (set_level lv1 s) -> blank q s')
      (fun k s' => blank (level_ptr t k) s') (fun k => init_level (level_ptr t k)) (seq 0 RSDL_LEVELS) (set_level lv1 s)) as (s' & He & (lv & -> & Hlv & Hk) & HP & _);
      [|intros k s2 Hk%elem_of_seq (lv2 & -> & Hlv2 & Hk2)|].
    + exists lv1. done.
    + destruct (pinit_level (set_level lv2 s) i c (level_ptr t k)) as (lv3 & He3 & Hlv3 & Hb3 & Hk3);
        [by destruct Hc|done|unfold level_ptr, RSDL_LEVELS in *; lia|].
      eexists. split; [exact He3|]. split; [|split; [done|auto]]. exists lv3. split; [done|]. split; [done|]. auto.
    + eexists. split; [exact He|]. split; [by exists lv|]. split; [|auto].
      intros k Hlt. apply HP. apply elem_of_seq. lia.
  - exists lv. split; [exact He|]. split; [done|]. intros t k Ht Hk. apply HP; [|done]. apply elem_of_seq. lia.
Qed.

(** Both sets empty. *)
Definition empty_sets : sets :=
  (replicate RSDL_LEVELS (RSDL_LEVEL_QUANTUM, []), replicate RSDL_LEVELS (RSDL_LEVEL_QUANTUM, [])).

Lemma empty_rep s : active s = level_ptr 0 0 -> expired s = level_ptr 1 0 -> length (level s) = (2 * RSDL_LEVELS)%nat ->
  (forall t k, (t < 2)%nat -> (k < RSDL_LEVELS)%nat -> blank (level_ptr t k) s) -> rep s empty_sets.
Proof.
  intros Ha Hx Hl Hb. split; rewrite ?Ha, ?Hx; try done; [by left| |];
    intros k v [Hv Hlt]%lookup_replicate; subst v.
  - destruct (Hb 0%nat k) as (lq & H1 & H2); [lia|done|]. exists lq. split; [exact H1|done].
  - destruct (Hb 1%nat k) as (lq & H1 & H2); [lia|done|]. exists lq.
    unfold level_ptr in *. rewrite <- Nat.add_assoc, Nat.add_0_l. split; [exact H1|done].
Qed.

Lemma pinit_ok s : loaded s -> exists s', pinit s = Ret tt s' /\ rep s' empty_sets /\ procs s' = procs s /\
  kpgdir s' = kpgdir s /\ env s' = env s /\ kcpu 0 (km s') 0 None None /\ free_lock (pt_lock s') /\ nextpid s' = nextpid s.
Proof.
  intros [Hc Hk He Hp Hu Hl Hq]. unfold pinit. erewrite (bind_Ret (initlock _ _)) by reflexivity.
  set (s0 := lk_set _ _ _).
  destruct (ks_acquire_pt 0 s0 0 None None Hc shallow_0) as (m & l & He1 & Hh & Hc1 & _); [done|].
  rewrite (bind_Ret _ _ _ _ _ He1). set (s1 := set_pt_lock l (set_km m s0)).
  destruct (kcpu_in_cli 0 s1 1 None None Hc1) as [c Hcli]; [lia|apply shallow_1|].
  destruct (pinit_levels s1 0 c Hcli) as (lv & He2 & [Hlen _] & Hb); [done|].
  rewrite (bind_Ret _ _ _ _ _ He2). do 2 erewrite (bind_Ret (modify _)) by reflexivity.
  match goal with |- context [release _ ?x] => set (s2 := x) end.
  destruct (ks_release_pt 0 s2 1 None None Hc1 shallow_1 ltac:(lia) Hh) as (m3 & l3 & He3 & Hf3 & Hc3 & _).
  eexists. split; [exact He3|]. split; [by apply empty_rep|]. done.
Qed.

(** ** userinit *)

Lemma empty_kernel s : rep s empty_sets -> length (procs s) = NPROC ->
  (forall i r, procs s !! i = Some r -> state r = UNUSED /\ length (ofile r) = NOFILE) ->
  kcpu 0 (km s) 0 None None -> KERNBASE <= kpgdir s -> free_lock (tickslock s) -> env_ok (env s) ->
  kernel s empty_sets None 0 None None (fun _ => False).
Proof.
  intros Hr Hl Hu Hc Hk Hf He. split; [done|]. split; [|split; [by intros i r _ Hi%elem_of_nil|done]].
  split; [|split; [|done]].
  - split.
    + split; try done; [constructor|by intros p ?%elem_of_nil|].
      intros k v [-> _]%lookup_replicate. done.
    + intros k v [-> _]%lookup_replicate. done.
    + intros k v [-> _]%lookup_replicate. done.
    + intros k v [-> _]%lookup_replicate. done.
  - split; try done.
    + intros i r Hi. by apply (Hu i).
    + intros i r Hi. destruct (Hu i r Hi) as [-> _]. simpl. split; [by intros ?%elem_of_nil|done].
    + intros i r Hi. by destruct (Hu i r Hi) as [-> _].
    + intros i r Hi. by destruct (Hu i r Hi) as [-> _].
    + intros i r Hi. by destruct (Hu i r Hi) as [-> _].
Qed.

(** [userinit] panics if there is no page for the page table. *)
Definition boot_panic (msg : string) : Prop := msg = "userinit: out of memory?".

(** The machine right after [main]'s calls: the first process, in slot [p], is ready
    and alone in its queue. *)
Definition booted (s0 : kstate E) (s : kstate E) : Prop :=
  Top (fun _ => False) s /\ exists p r, initproc s = Some p /\ procs s !! p = Some r /\ state r = RUNNABLE /\
    pid r = nextpid s0 /\ default_level r = RSDL_STARTING_LEVEL /\ ctx_eip (ctx r) = forkret_addr /\
    tf_eip (tf r) = 0 /\ Z.land (tf_cs (tf r)) 3 = DPL_USER /\
    (forall j, j <> p -> procs s !! j = procs s0 !! j) /\
    exists Q, rep s Q /\ queued Q ≡ₚ [p].

Abbreviation bwp := (wp boot_panic (fun _ _ => False) (fun _ _ _ => False)).

Lemma wp_from_calm {A : Type} (P : string -> Prop) (i : idx) (r : res (kstate E) A) Post (Post' : idx -> A -> kstate E -> Prop) :
  wp (fun _ => False) (fun _ _ => False) (fun _ _ _ => False) tt r (fun _ => Post) ->
  (forall a s, Post a s -> Post' i a s) -> wp P (fun _ _ => False) (fun _ _ _ => False) i r Post'.
Proof. intros Hw HP. destruct r; simpl in *; try done; [by apply HP|by destruct Hw as [[] _]]. Qed.

Lemma proc_ok_cwd r d : 0 <= default_level r < Z.of_nat RSDL_LEVELS -> kstack r <> 0 -> KERNBASE <= pgdir r -> d <> None ->
  proc_ok (set_cwd d r).
Proof. by split. Qed.

Lemma quantum_ok_cwd r d : 0 < ticks_left r <= RSDL_PROC_QUANTUM -> quantum_ok (set_cwd d r).
Proof. done. Qed.

Lemma userinit_wp (i : idx) s0 s : kernel s empty_sets None 0 None None (fun _ => False) -> free_lock (pt_lock s) ->
  (forall j r, procs s !! j = Some r -> state r = UNUSED /\ length (ofile r) = NOFILE) ->
  procs s = procs s0 -> nextpid s = nextpid s0 -> (svc_kalloc (env s)).1 <> 0 ->
  bwp i (userinit s) (fun _ _ s' => booted s0 s').
Proof.
  intros Hk Hf Hu Hps Hx Hka. unfold userinit. apply wp_bind.
  eapply wp_mono; [|apply (allocproc_wp (F := Unowned (fun _ => False)) _ _ _ i s); [by eexists|done]].
  cbv beta. intros j a s1 (-> & _ & Hf1 & Ha). destruct a as [p|].
  2:{ exfalso. destruct Ha as [[Ha _]|(np & r & _ & _ & Hz & _)]; [|done].
      destruct (lookup_lt_is_Some_2 (procs s) 0) as [r Hr]; [|by destruct (Hu 0%nat r Hr) as [? _]; eapply Ha].
      destruct Hk as (_ & (_ & Hp & _) & _). rewrite (pk_len _ _ _ Hp). unfold NPROC. lia. }
  destruct Ha as (r0 & Hr0 & Hst & _ & _ & Hs). eapply wp_bind_Ret; [reflexivity|].
  eapply wp_bind_Ret; [reflexivity|]. apply (slot_initproc _ (Some p)) in Hs.
  apply wp_svc. intros pg e1 He1.
  destruct (el_setupkvm _ _ _ (fr_envok _ _ (sl_own Hs)) He1) as [Hev Hpg].
  apply (slot_env _ e1) in Hs; [|done]. slot_step Hs. destruct (Z.eqb_spec pg 0) as [Hz|Hz]; [done|].
  apply wp_svc_. intros e2 He2. apply (slot_env _ e2) in Hs.
  2:{ eapply el_inituvm; [|exact He2]. by eapply fr_envok, sl_own. }
  slot_step Hs. unfold upd_tf at 1. slot_step Hs. do 7 slot_tf_step Hs. slot_step Hs.
  match type of Hs with slot ?F ?n ?lk ?np ?sb ?e ?nx ?sx ?r =>
    assert (exists r1, slot F n lk np sb e nx sx r1 /\ (pid r1 = nextpid s0 /\ default_level r1 = RSDL_STARTING_LEVEL /\
      ctx_eip (ctx r1) = forkret_addr /\ tf_eip (tf r1) = 0 /\ Z.land (tf_cs (tf r1)) 3 = DPL_USER) /\
      (ofile r1 = ofile r0 /\ kstack r1 = (svc_kalloc (env s)).1 /\ pgdir r1 = pg /\
       ticks_left r1 = RSDL_PROC_QUANTUM)) as (r1 & Hs1 & Hfields & Hfields2)
      by (exists r; split; [exact Hs|split; [split; [exact Hx|by repeat split]|by repeat split]])
  end.
  clear Hs. rename Hs1 into Hs.
  apply wp_bind. eapply (wp_from_calm _ _ _ _ _ (sv_namei_root _ _ _ (fr_cpu _ _ (sl_own Hs)) (fr_envok _ _ (sl_own Hs)))).
  intros d s13 (Hd & m & e3 & -> & Hc & He3). apply (slot_service _ m e3) in Hs; [|done..].
  slot_step Hs. destruct (slot_acquire _ _ Hs Hf1) as (s14 & l14 & He14 & Hh14 & Hs14).
  eapply wp_bind_Ret; [exact He14|]. clear Hs He14.
  destruct Hfields2 as (Hof & Hks & Hpgd & Htl). destruct Hfields as (Hpid & Hdl & Hctx & Heip & Hcs).
  assert (length (ofile r0) = NOFILE) as Hof0 by (by apply (Hu p)).
  destruct (ready_eq _ _ _ _ _ _ _ Hs14) as (s15 & He15 & HO15 & Hl15 & Hps15 & Hx15 & Hi15 & HQ15).
  { apply proc_ok_cwd; [by rewrite Hdl|by rewrite Hks|rewrite Hpgd; by destruct Hpg|done]. }
  { apply quantum_ok_cwd. by rewrite Htl. } { change (length (ofile r1) = NOFILE). by rewrite Hof. } { done. }
  rewrite He15.
  destruct (ks_release_pt 0 s15 1 _ _ (fr_cpu _ _ HO15) shallow_1 ltac:(lia)) as (m9 & l9 & He9 & Hf9 & Hc9 & _); [by rewrite Hl15|].
  rewrite He9. pose proof (sl_np _ _ _ _ _ _ _ _ _ Hs14) as Hnp14. pose proof (sl_other _ _ _ _ _ _ _ _ _ Hs14) as Ho14.
  destruct HQ15 as (Q & HQ0 & HQ15 & Hperm). split.
  { destruct HO15 as (Q' & Hk15). exists Q'. split; [by eapply kernel_ext|done]. }
  exists p, (set_state RUNNABLE (set_cwd d r1)). simpl procs. rewrite Hps15.
  split; [exact Hi15|]. split; [apply list_lookup_insert_eq; by eapply lookup_lt_Some|]. do 6 (split; [done|]).
  split; [intros j Hj; rewrite list_lookup_insert_ne by done; rewrite <- Hps; by apply Ho14|].
  eexists. split; [exact HQ15|]. rewrite Hperm.
  assert (Q = empty_sets) as -> by (destruct (repr_inj _ _ _ _ _ HQ0 (proj1 Hk)) as [E1 E2]; destruct Q; simpl in *; by subst).
  done.
Qed.


(** ** main *)

Lemma main_wp (i : idx) s : loaded s -> (svc_kalloc (env s)).1 <> 0 -> bwp i (main s) (fun _ _ s' => booted s s').
Proof.
  intros Hl Hka. unfold main. destruct (pinit_ok s Hl) as (s1 & He1 & Hr1 & Hps & Hkp & Hev & Hc & Hf & Hx).
  eapply wp_bind_Ret; [exact He1|]. eapply wp_bind_Ret; [reflexivity|]. destruct Hl as [Hc0 Hk Hen Hp Hu _ _].
  apply userinit_wp; [|done|..|done|by rewrite <- Hev in Hka].
  - apply empty_kernel; cbn; rewrite ?Hps, ?Hkp, ?Hev; done.
  - cbn. by rewrite Hps.
  - done.
Qed.

End Boot.
