(* ===== verification/Sample.v ===== *)
(** * A concrete kernel

    Services that answer as if memory never ran out and the file system had nothing
    to do, with the proof that they satisfy the laws, and the memory of a machine
    with one CPU as the loader leaves it.  The examples of the other files run on it. *)

From stdpp Require Import base tactics list sets strings relations.
From Stdlib Require Import ZArith Lia.
From S2P Require Import Prelude Params Spinlock ProcState Rsdl RsdlSpec Scheduler SchedRefine SchedInv SchedLoop Proc ProcFacts ProcSafe Fork Exit Trap TrapSafe System Boot.
Open Scope Z_scope.

Definition idle_platform : Platform unit := {|
  svc_kalloc _ := (KERNBASE, tt);
  svc_kfree _ _ := Some tt;
  svc_setupkvm _ := Some (KERNBASE, tt);
  svc_inituvm _ _ := Some tt;
  svc_allocuvm _ _ new _ := Some (new, tt);
  svc_deallocuvm _ _ new _ := Some (new, tt);
  svc_copyuvm _ _ _ := Some (KERNBASE, tt);
  svc_freevm _ _ := Some tt;
  svc_filedup _ _ := Some tt;
  svc_idup _ _ := Some tt;
  svc_lapiceoi e := e;
  svc_shutdown e := e;
  svc_rcr2 _ := 0;
  svc_user_byte _ _ _ := 0;
  svc_kernel_word _ _ := 0;
  svc_swtch_ctx _ := mkCtx 0 0 0 0 1;
  forkret_addr := KERNLINK;
  trapret_addr := KERNLINK + 16;
  vectors _ := KERNLINK + 32
|}.

#[export] Instance idle_services : Services unit := {|
  svc_platform := idle_platform;
  svc_fileclose _ := ret tt;
  svc_iput _ := ret tt;
  svc_namei_root := ret (Some 0%nat);
  svc_begin_op := ret tt;
  svc_end_op := ret tt;
  svc_iinit _ := ret tt;
  svc_initlog _ := ret tt;
  svc_ideintr := ret tt;
  svc_kbdintr := ret tt;
  svc_uartintr := ret tt;
  svc_sysfile _ := ret (-1)
|}.

#[export] Instance idle_env_laws : EnvLaws unit.
Proof.
  refine {| env_ok _ := True |}; try done.
  - intros e v e' _ [= <- _]. split; [done|]. by right.
  - intros pg n e v e' _ [= <- _]. split; [done|]. by right.
Defined.

#[export] Instance idle_svc_laws : SvcLaws unit.
Proof.
  split; try done; try (split; [by intros C s|by intros p i s]).
  intros s cp cq Hc _. split; [done|]. exists (km s), tt. split; [|done]. destruct s as [? ? ? ? ? ? ? ? ? ? ? ? ? ? ? []]. done.
Qed.

(** ** Memory at boot *)

Definition zero_seg : segdesc := mkSeg 0 0 0 0 0 0 0 0 0 0 0 0 0.
Definition zero_proc : proc :=
  mkProc 0 0 0 UNUSED 0 None 0 tf0 0 ctx0 0 NoChan 0 (replicate NOFILE None) None (replicate 16 0) 0 0.
Definition zero_lock : spinlock := mkLock 0 EmptyString None.
Definition zero_cpu : cpu := mkCpu 0 0 0 0 None None 0 0 0 0 zero_seg.
Definition boot_state : kstate unit :=
  mkK (mkMach [zero_cpu] 1 0 false 0 0) zero_lock (replicate NPROC zero_proc) 0 0
    (replicate (2 * RSDL_LEVELS) (mkLq zero_lock 0 0 (replicate NPROC None)))
    KERNBASE None 1 0 0 0 zero_lock 1 [] tt.

Lemma boot_state_loaded : loaded boot_state.
Proof.
  split; try done.
  - exists zero_cpu. split; [|done]. split; try done; [by intros j c' ?%Nat.nlt_0_r|simpl; lia].
  - intros i r [-> _]%lookup_replicate. done.
  - intros q lq [-> _]%lookup_replicate. done.
Qed.
