(* ===== verification/KernelProps.v ===== *)
(** * What the kernel guarantees

    The theorems about the running kernel: it never goes wrong, its table and queues
    stay consistent, and the scheduler does what RSDL prescribes.  Each is followed
    by an instance on the kernel of Sample.v. *)

From stdpp Require Import base tactics list sets strings relations.
From Stdlib Require Import ZArith Lia.
From S2P Require Import Prelude Params Spinlock ProcState Rsdl RsdlSpec Scheduler SchedRefine SchedInv SchedLoop Proc ProcFacts ProcSafe Fork Exit Trap TrapSafe System Boot Sample.
Open Scope Z_scope.

(** ** The sample kernel, further on *)

(** After [main]. *)
Definition sample_booted : kstate unit := match main boot_state with Ret _ s => s | _ => boot_state end.

Lemma sample_main : main boot_state = Ret tt sample_booted.
Proof. unfold sample_booted. destruct (main boot_state) as [[] s| | | | | |] eqn:Hm; [done|..]; by vm_compute in Hm. Qed.

Lemma sample_ready : booted boot_state sample_booted.
Proof.
  pose proof (main_wp (0%nat, fun _ => False) boot_state boot_state_loaded) as Hm. rewrite sample_main in Hm.
  apply Hm. by vm_compute.
Qed.

(** After the first process was given the CPU. *)
Definition no_sus {E : Type} : nat -> option (suspended E) := fun _ => None.
Definition sample_dispatched : config unit := schedule no_sus sample_booted.

Definition sample_user : kstate unit := match sample_dispatched with User _ _ _ s => s | _ => boot_state end.

Lemma sample_runs : exists i, Runs 0 i sample_user.
Proof.
  assert (inv sample_dispatched) as Hi by (apply (schedule_inv (fun _ => False)); [apply sample_ready|by intros p]).
  assert (match sample_dispatched with User _ p _ _ => p | _ => 1 end = 0)%nat as Hp by (by vm_compute).
  unfold sample_user. destruct sample_dispatched as [sus s|sus p ks s|w]; try done.
  destruct Hi as (q & C & HR & _). subst p. eauto.
Qed.

Lemma sample_step fuel : step fuel (Idle no_sus sample_booted) sample_dispatched.
Proof. apply (step_fire _ _ _ Round); [exact I|]. unfold sample_dispatched. reflexivity. Qed.

(** [kill(0)] followed by [fork()]: the two answers, and the child's [killed]. *)
Definition kill_fork (s : kstate unit) : option (Z * Z * Z) :=
  match kill 0 s with
  | Ret a s1 =>
      match fork s1 with
      | Ret c s2 => (fun jr => (a, c, killed jr.2)) <$> list_find (fun r => pid r = c) (procs s2)
      | _ => None
      end
  | _ => None
  end.


Opaque sample_booted sample_dispatched sample_user.

Section Props.
Context {E : Type} `{SL : SvcLaws E} (fuel : nat).
Implicit Types (s : kstate E) (Q : sets).

(** What can be reached from memory [s0] as the loader leaves it. *)
Definition reachable (s0 : kstate E) (c : config E) : Prop :=
  exists s, main s0 = Ret tt s /\ rtc (step fuel) (Idle no_sus s) c.

Lemma reachable_inv s0 c : loaded s0 -> (svc_kalloc (env s0)).1 <> 0 -> reachable s0 c -> inv c.
Proof.
  intros Hl Hka (s & Hm & Hr). pose proof (main_wp (0%nat, fun _ => False) s0 Hl Hka) as Hw. rewrite Hm in Hw.
  destruct Hw as [HT _]. eapply inv_reachable; [|exact Hr]. exists (fun _ => False). split; [done|]. by intros p.
Qed.


(** The state of a configuration in which the kernel is alive. *)
Definition config_state (c : config E) : option (kstate E) :=
  match c with Idle _ s | User _ _ _ s => Some s | Stopped _ => None end.

Lemma inv_table c s : inv c -> config_state c = Some s -> exists Q run, rep s Q /\ table (procs s) Q run /\
  forall p r, fst <$> run = Some p -> procs s !! p = Some r -> state r = RUNNING.
Proof.
  destruct c as [sus s'|sus p ks s'|w]; intros Hi [= <-].
  - destruct Hi as (C & (Q & (Hr & Ht & _) & _) & _). by exists Q, None.
  - destruct Hi as (q & C & ((Q & k & (Hr & Ht & _) & _ & r & v & Hp & Hst & _) & _) & _). exists Q, (Some (p, k)).
    do 2 (split; [done|]). intros p' r' [= <-] Hp'. congruence.
Qed.



(** ** The scheduler *)

(** C5: an iteration of the scheduler finds the first runnable process, with quantum
    left, of the highest level with quantum left, and gives it the CPU and its
    address space; when the process comes back it is put where RSDL wants it.  If
    there is no such process the two sets change places. *)
Theorem scheduler_refines_rsdl C s Q : kernel s Q None 0 None None C -> free_lock (pt_lock s) ->
  match pick_spec (procs s) Q.1 with
  | Some (k, p) => exists r s' kk, scheduler_body 0 s = Switch s' kk /\ procs s !! p = Some r /\
      procs s' = <[p := set_state RUNNING r]> (procs s) /\ cr3 (km s') = pgdir r - KERNBASE /\
      forall C1 C2 s2, Out p ((active s + k)%nat, C1) s2 -> (forall i, C1 i -> C2 i) -> (zombie s2 p \/ C2 p) ->
        exists s3, kk s2 = Ret tt s3 /\ put_back k p s2 s3
  | None => exists s', scheduler_body 0 s = Ret tt s' /\ rep s' (swap_spec (procs s) Q) /\
      procs s' = replenish (concat (Q.1.*2)) (procs s)
  end.
Proof.
  intros Hk Hf. pose proof (scheduler_body_ok C s Q Hk Hf) as Hb. destruct (pick_spec _ _) as [[k p]|].
  - destruct Hb as (r & s' & kk & He & Hr & Hps & Hcr & _ & Hkk). exists r, s', kk. do 4 (split; [done|]).
    intros C1 C2 s2 HO HC HCp. destruct (Hkk C1 C2 s2 HO HC HCp) as (s3 & ? & _ & ?). eauto.
  - destruct Hb as (s' & He & Hk' & _ & Hps). exists s'. split; [done|]. split; [apply Hk'|done].
Qed.

(** C6: the scheduler does not idle while a process can run: if some process is
    RUNNABLE, the next iteration or the one after it gives the CPU to one. *)
Theorem work_conserving C s p r : Top C s -> procs s !! p = Some r -> state r = RUNNABLE ->
  (exists s' kk, scheduler_body 0 s = Switch s' kk) \/
  (exists s1 s' kk, scheduler_body 0 s = Ret tt s1 /\ scheduler_body 0 s1 = Switch s' kk).
Proof.
  intros (Q & Hk & Hf) Hp Hst. pose proof (scheduler_body_ok C s Q Hk Hf) as Hb.
  destruct (pick_spec (procs s) Q.1) as [[k q]|]; [left; destruct Hb as (? & ? & ? & ? & _); eauto|right].
  destruct Hb as (s1 & He & Hk1 & Hf1 & Hps). pose proof (scheduler_body_ok C s1 _ Hk1 Hf1) as Hb1.
  destruct (pick_spec (procs s1) _) as [[k q]|] eqn:Hn; [destruct Hb1 as (? & ? & ? & ? & _); eauto|exfalso].
  destruct Hk as (_ & Htab & _). destruct Hk1 as (Hr1 & (Hq1 & Hpr1 & _) & _).
  assert (p ∈ queued Q) as Hin by (apply (pk_queued _ _ _ (proj1 (proj2 Htab)) p r Hp); by rewrite Hst).
  destruct (swap_all_active _ Q p Htab Hin) as (k & v & Hv & Hfull & Hpv).
  assert (exists r1, procs s1 !! p = Some r1 /\ state r1 = RUNNABLE) as (r1 & Hr & Hst1).
  { rewrite Hps, replenish_lookup, Hp. eexists. split; [reflexivity|]. by case_bool_decide. }
  pose proof (pick_spec_none _ _ k v p Hn (rp_lenA _ _ _ Hr1) Hv ltac:(by rewrite Hfull) Hpv) as Hcr.
  pose proof (pk_quantum _ _ _ Hpr1 p r1 Hr ltac:(by rewrite Hst1) ltac:(done)) as [Hqt _].
  unfold can_run in Hcr. rewrite Hr, bool_decide_true in Hcr by done. simpl in Hcr. apply Z.ltb_ge in Hcr. lia.
Qed.

(** C7: what [scheduler_pick] answers is runnable and has quantum left, as has its
    level; no process of a higher level with quantum left could run, and none before
    it at its level.  If there is no answer, no process of the active set whose level
    has quantum left could run. *)
Theorem pick_is_best s i cp Q : in_cli s i cp -> rep s Q ->
  (forall p, p ∈ concat (Q.1.*2) -> exists r, procs s !! p = Some r) ->
  exists a, scheduler_pick s = Ret a s /\
  match a with
  | Some (k, q, p) => q = (active s + k)%nat /\ exists t l1 l2, Q.1 !! k = Some (t, l1 ++ p :: l2) /\ 0 < t /\
      can_run (procs s) p = true /\ (forall p', p' ∈ l1 -> can_run (procs s) p' = false) /\
      forall j v p', (j < k)%nat -> Q.1 !! j = Some v -> 0 < v.1 -> p' ∈ v.2 -> can_run (procs s) p' = false
  | None => forall j v p', Q.1 !! j = Some v -> 0 < v.1 -> p' ∈ v.2 -> can_run (procs s) p' = false
  end.
Proof.
  intros Hc Hr Hps. eexists. split; [by apply (scheduler_pick_eq s i cp Q)|].
  destruct (pick_spec (procs s) Q.1) as [[k p]|] eqn:Hp; simpl.
  - split; [done|]. by apply pick_spec_best.
  - intros j v p' Hj Hv Hp'. eapply pick_spec_none; [done|apply Hr|done..].
Qed.

(** ** Time *)

(** What is left of the quanta of the active levels. *)
Definition active_quanta Q : Z := foldr Z.add 0 (Q.1.*1).

Lemma quanta_bounds Q ex : queues_ok Q ex -> 0 <= active_quanta Q <= Z.of_nat RSDL_LEVELS * RSDL_LEVEL_QUANTUM.
Proof.
  intros [Hok _ Ha _]. pose proof (so_lenA Hok) as Hl. unfold active_quanta. rewrite <- Hl.
  assert (forall v, v ∈ Q.1 -> 0 <= v.1 <= RSDL_LEVEL_QUANTUM) as Hv.
  { intros v (k & Hk)%list_elem_of_lookup_1. by apply (Ha k). }
  clear Ha Hl Hok. induction (Q.1) as [|v A IH]; [simpl; unfold RSDL_LEVEL_QUANTUM; lia|].
  rewrite fmap_cons. cbn [foldr length]. rewrite Nat2Z.inj_succ.
  pose proof (Hv v (list_elem_of_here _ _)). specialize (IH (fun w Hw => Hv w (list_elem_of_further _ _ _ Hw))).
  unfold RSDL_LEVEL_QUANTUM in *. lia.
Qed.

Lemma quanta_insert (A : list lvl) k v w : A !! k = Some v ->
  foldr Z.add 0 ((<[k := w]> A).*1) = foldr Z.add 0 (A.*1) - v.1 + w.1.
Proof.
  revert k. induction A as [|x A IH]; intros [|k] Hk; simpl in Hk; simplify_eq.
  - change (<[0%nat := w]> (v :: A)) with (w :: A). rewrite !fmap_cons. cbn [foldr]. lia.
  - change (<[S k := w]> (x :: A)) with (x :: <[k := w]> A). rewrite !fmap_cons. cbn [foldr]. rewrite (IH k Hk). lia.
Qed.

Lemma place_all_quanta st ps l : forall Q, (place_all st ps l Q).1.*1 = Q.1.*1.
Proof.
  unfold place_all. induction l as [|p l IH]; intros Q; simpl; [done|]. rewrite IH. apply push_at_quanta.
Qed.

Lemma alter_quanta (f : list nat -> list nat) k (A : list lvl) : (alter (fun v => (v.1, f v.2)) k A).*1 = A.*1.
Proof.
  apply list_eq. intros j. rewrite !list_lookup_fmap. destruct (decide (k = j)) as [->|Hne].
  - rewrite list_lookup_alter_eq. by destruct (A !! j).
  - by rewrite list_lookup_alter_ne.
Qed.

Lemma putback_quanta k p r ps Q : active_quanta (putback k p r ps Q).2 = active_quanta Q.
Proof.
  unfold active_quanta, putback. f_equal. destruct (Q.1 !! k) as [[t lst]|]; [|done].
  destruct (t <=? 0); [|destruct (bool_decide _)]; simpl; [|done|].
  - unfold migrate_spec. rewrite place_all_quanta. apply (alter_quanta (fun _ => [])).
  - unfold requeue_spec, place. rewrite push_at_quanta. apply (alter_quanta (filter _)).
Qed.

(** C8: a clock tick in a process costs the process one tick of its quantum and its
    level one of the level's; the process keeps the CPU while both have some left,
    and the level quanta of a whole epoch are a budget of
    [RSDL_LEVELS * RSDL_LEVEL_QUANTUM] ticks that each tick reduces by one. *)
Theorem tick_costs_one p i s r Q : Runs p i s -> iflag (km s) = false -> procs s !! p = Some r -> rep s Q ->
  exists lq s' Q', level s !! i.1 = Some lq /\
    tick_account s = when ((ticks_left r - 1 <=? 0) || (lq_ticks_left lq - 1 <=? 0)) yield s' /\
    procs s' = <[p := set_ticks_left (ticks_left r - 1) r]> (procs s) /\
    rep s' Q' /\ queued Q' = queued Q /\ active_quanta Q' = active_quanta Q - 1 /\
    0 <= active_quanta Q' /\ active_quanta Q <= Z.of_nat RSDL_LEVELS * RSDL_LEVEL_QUANTUM.
Proof.
  intros HR Hi Hr HQ. destruct (tick_account_eq p i s r HR Hi Hr) as (m & lq & Hlq & Hc & He).
  destruct (slice_tick p i s r HR Hr) as (lq' & t & lst & k & Q0 & Hlq' & Ht & Hb & Hb2 & Hik & Hk & Hrep & _ & _ & _ & Hrep' & Hq' & Hq).
  assert (lq' = lq) as -> by congruence. assert (Q = Q0) as ->.
  { destruct (repr_inj _ _ _ _ _ HQ Hrep) as [E1 E2]. destruct Q, Q0. simpl in *. by subst. }
  exists lq, (set_km m (charged p r i.1 lq s)), (put_loc (Act k) (t - 1, lst) Q0).
  do 4 (split; [done|]). pose proof (quanta_bounds _ _ Hq) as B1. pose proof (quanta_bounds _ _ Hq') as B2.
  split; [unfold queued; simpl; by rewrite (insert_snd _ _ _ _ _ Hk)|].
  split; [|split; [apply B2|apply B1]]. unfold active_quanta. simpl. rewrite (quanta_insert _ _ _ _ Hk). simpl. lia.
Qed.


(** ** Processes *)



(** C13: the scan of [wait] frees the slot of a zombie child if there is one, and
    answers its pid; otherwise it changes nothing and answers whether there are
    children at all. *)
Theorem wait_scan_spec P B R p i s : Held p i s ->
  wp P B R i (wait_scan (Some p) (seq 0 NPROC) false s) (fun j a s' => j = i /\
    match a with
    | inl pd => Runs p i s' /\ exists c r, procs s !! c = Some r /\ parent r = Some p /\ state r = ZOMBIE /\
        pd = pid r /\ procs s' !! c = Some (collected r) /\ forall j, j <> c -> procs s' !! j = procs s !! j
    | inr hk => s' = s /\ (forall c r, procs s !! c = Some r -> parent r = Some p -> state r <> ZOMBIE) /\
        (hk = true <-> exists c r, procs s !! c = Some r /\ parent r = Some p)
    end).
Proof.
  intros HH. eapply wp_mono; [|apply (wait_scan_wp P B R p i s HH)].
  2:{ intros c Hc%elem_of_seq. lia. }
  cbv beta. intros j a s' [-> Hs]. split; [done|].
  assert (forall c r, procs s !! c = Some r -> c ∈ seq 0 NPROC) as Hin.
  { intros c r Hc%lookup_lt_Some. rewrite (own_len _ _ _ _ (proj1 HH)) in Hc. apply elem_of_seq. lia. }
  destruct a as [pd|hk].
  - destruct Hs as (HR & c & r & _ & Hrest). split; [done|]. eauto.
  - destruct Hs as (-> & _ & Hno & Hhk). split; [done|]. split; [eauto|]. rewrite Hhk. split.
    + intros [?|(c & r & _ & Hc & Hpar)]; [done|eauto].
    + intros (c & r & Hc & Hpar). right. exists c, r. eauto.
Qed.

(** [wakeup] makes ready the processes that sleep on the channel, and only them. *)
Theorem wakeup_spec i s n cp cq ch : kcpu i (km s) n cp cq -> 0 <= n -> shallow (n + 1) ->
  free_lock (pt_lock s) -> length (procs s) = NPROC ->
  exists s', wakeup ch s = Ret tt s' /\ forall j r, procs s !! j = Some r ->
    procs s' !! j = Some (if decide (state r = SLEEPING /\ p_chan r = ch) then set_state RUNNABLE r else r).
Proof.
  intros Hc Hn Hs Hf Hl. destruct (wakeup_eq i s n cp cq ch Hc Hn Hs Hf Hl) as (m & l & He & _).
  eexists. split; [exact He|]. intros j r Hr. simpl. rewrite list_lookup_fmap, Hr. simpl. f_equal. unfold wake.
  case_decide as Hd; [by rewrite !bool_decide_true by apply Hd|].
  destruct (bool_decide (state r = SLEEPING)) eqn:H1; [|done]. destruct (bool_decide (p_chan r = ch)) eqn:H2; [|done].
  apply bool_decide_eq_true in H1, H2. by destruct Hd.
Qed.

(** C14: [kill] marks the first process with the given pid, and makes it ready if it
    sleeps; it answers -1 and changes nothing if there is none. *)
Theorem kill_spec i s n cp cq pd : kcpu i (km s) n cp cq -> 0 <= n -> shallow (n + 1) ->
  free_lock (pt_lock s) -> length (procs s) = NPROC ->
  exists a s', kill pd s = Ret a s' /\
    match list_find (fun r => pid r = pd) (procs s) with
    | Some (j, r) => a = 0 /\ procs s' =
        <[j := (if decide (state r = SLEEPING) then set_state RUNNABLE else id) (set_killed 1 r)]> (procs s)
    | None => a = -1 /\ procs s' = procs s
    end.
Proof.
  intros Hc Hn Hs Hf Hl. destruct (kill_eq i s n cp cq pd Hc Hn Hs Hf Hl) as (m & l & _ & _ & He). rewrite He.
  destruct (list_find _ _) as [[j r]|]; eexists _, _; (split; [reflexivity|]); (split; [done|]); [|done].
  simpl. f_equal. unfold kill_entry. simpl. case_bool_decide; [by rewrite decide_True by done|by rewrite decide_False by done].
Qed.

End Props.

(** ** Instances on the sample kernel *)




Lemma scheduler_refines_rsdl_witness : exists s' kk, scheduler_body 0 sample_booted = Switch s' kk.
Proof.
  destruct sample_ready as [(Q & Hk & Hf) _]. pose proof (scheduler_refines_rsdl _ sample_booted Q Hk Hf) as Hb.
  destruct (pick_spec _ _) as [[k p]|]; [destruct Hb as (r & s' & kk & He & _); eauto|].
  destruct Hb as (s' & He & _). exfalso.
  assert (match scheduler_body 0 sample_booted with Ret _ _ => true | _ => false end = false) as Hc by (by vm_compute).
  by rewrite He in Hc.
Defined.

Lemma work_conserving_witness :
  (exists s' kk, scheduler_body 0 sample_booted = Switch s' kk) \/
  (exists s1 s' kk, scheduler_body 0 sample_booted = Ret tt s1 /\ scheduler_body 0 s1 = Switch s' kk).
Proof.
  destruct sample_ready as [HT (p & r & _ & Hp & Hst & _)]. exact (work_conserving _ sample_booted p r HT Hp Hst).
Defined.



Lemma wait_scan_spec_witness : exists i s, Held 0 i s /\
  wp allowed (fun _ _ => False) (fun _ _ _ => False) i (wait_scan (Some 0%nat) (seq 0 NPROC) false s) (fun j a s' => j = i /\
    match a with
    | inl pd => Runs 0 i s' /\ exists c r, procs s !! c = Some r /\ parent r = Some 0%nat /\ state r = ZOMBIE /\
        pd = pid r /\ procs s' !! c = Some (collected r) /\ forall j, j <> c -> procs s' !! j = procs s !! j
    | inr hk => s' = s /\ (forall c r, procs s !! c = Some r -> parent r = Some 0%nat -> state r <> ZOMBIE) /\
        (hk = true <-> exists c r, procs s !! c = Some r /\ parent r = Some 0%nat)
    end).
Proof.
  destruct sample_runs as [i HR]. destruct (acquire_runs 0 i sample_user HR) as (s & _ & HH & _).
  exists i, s. split; [exact HH|]. apply wait_scan_spec. exact HH.
Defined.

Lemma sample_cpu : kcpu 0 (km sample_booted) 0 None None /\ free_lock (pt_lock sample_booted) /\ length (procs sample_booted) = NPROC.
Proof. destruct sample_ready as [(Q & (_ & (_ & Hp & _) & _ & Hc & _) & Hf) _]. split; [exact Hc|]. split; [exact Hf|apply Hp]. Qed.

Lemma wakeup_spec_witness : exists s', wakeup TicksChan sample_booted = Ret tt s'.
Proof.
  destruct sample_cpu as (Hc & Hf & Hl).
  destruct (wakeup_spec 0 sample_booted 0 None None TicksChan Hc (Z.le_refl 0) shallow_1 Hf Hl) as (s' & He & _). eauto.
Defined.

Lemma kill_spec_witness : exists s', kill 1 sample_booted = Ret 0 s'.
Proof.
  destruct sample_cpu as (Hc & Hf & Hl).
  destruct (kill_spec 0 sample_booted 0 None None 1 Hc (Z.le_refl 0) shallow_1 Hf Hl) as (a & s' & He & Hm).
  assert (match list_find (fun r => pid r = 1) (procs sample_booted) with Some _ => true | None => false end = true) as Hfound by (by vm_compute).
  destruct (list_find _ _) as [[j r]|]; [|discriminate Hfound]. destruct Hm as [-> _]. eauto.
Defined.

Lemma tick_costs_one_witness : exists i s r lq s', Runs (E := unit) 0 i s /\ procs s !! 0%nat = Some r /\
  tick_account s = when ((ticks_left r - 1 <=? 0) || (lq_ticks_left lq - 1 <=? 0)) yield s'.
Proof.
  destruct sample_runs as [i HR]. revert HR. generalize sample_user. intros s0 HR.
  set (s := set_km (set_iflag false (km s0)) s0).
  assert (Runs 0 i s) as HR' by (apply runs_km; [done|]; apply kcpu_set_iflag; apply (own_cpu _ _ _ _ (proj1 HR))).
  destruct (own_proc _ _ _ _ (proj1 HR')) as (r & Hr & _). pose proof HR' as [(Q & k & (Hrep & _) & _) _].
  destruct (tick_costs_one 0 i s r Q HR' eq_refl Hr Hrep) as (lq & s' & Q' & _ & He & _).
  exists i, s, r, lq, s'. split; [exact HR'|]. split; [exact Hr|exact He].
Defined.

Lemma pick_is_best_witness : exists s Q a, rep (E := unit) s Q /\ scheduler_pick s = Ret a s.
Proof.
  destruct sample_ready as [HT _]. revert HT. generalize sample_booted. intros s0 (Q & (Hrep & Htab & _ & Hc & _) & _).
  destruct (ks_pushcli 0 s0 0 None None Hc shallow_0) as (m & _ & Hc1 & _).
  destruct (kcpu_in_cli 0 (set_km m s0) 1 _ _ Hc1) as [c Hcli]; [lia|apply shallow_1|].
  destruct (pick_is_best (set_km m s0) 0 c Q Hcli Hrep) as (a & He & _).
  - intros p Hp. destruct (queued_procs s0 Q None p Htab) as (r & Hr & _); [|eauto].
    unfold queued. apply elem_of_app. by left.
  - exists (set_km m s0), Q, a. split; [exact Hrep|exact He].
Defined.

Lemma sample_put_back : exists k p s2 s3, put_back (E := unit) k p s2 s3.
Proof.
  assert (match scheduler_body 0 sample_booted with Ret _ _ => true | _ => false end = false) as Hc by (by vm_compute).
  destruct sample_ready as [HT _]. revert Hc HT. generalize sample_booted. intros s Hc (Q & Hk & Hf).
  pose proof (scheduler_body_ok _ s Q Hk Hf) as Hb. destruct (pick_spec _ _) as [[k p]|] eqn:Hpick.
  - destruct Hb as (r & s' & kk & _ & _ & _ & _ & HH & Hkk).
    destruct (own_proc _ _ _ _ (proj1 HH)) as (r' & Hr' & Hst & _). pose proof HH as [HO Hh].
    assert (Out p ((active s + k)%nat, fun _ => False) (set_procs (<[p := set_state RUNNABLE r']> (procs s')) s')) as HO2.
    { apply (ready_stop _ _ _ r' (set_state RUNNABLE)); try done; [by apply own_ready|by apply live_step]. }
    destruct (Hkk _ (fun _ => True) _ HO2) as (s3 & _ & _ & Hpb); [done|by right|]. eauto.
  - destruct Hb as (s' & He & _). by rewrite He in Hc.
Qed.

