(* ===== verification/Ulib.v ===== *)
(** * The user library (ulib.c, printf.c)

    A user program works on its own memory ([memory] of StringC.v) and calls the
    kernel.  Its system calls are the operations of the class [Sys], on a state [W]
    of everything outside the program.  Loops that run to a NUL take the number of
    iterations they may use, and each has a lemma with a bound that is enough.

    [printint] is proved against the place-value notation it prints, and [atoi]
    against the same notation. *)

From stdpp Require Import base tactics list sets strings.
From Stdlib Require Import ZArith Lia.
From S2P Require Import Prelude Params StringC.
Open Scope Z_scope.

(** ** The system calls of a program *)

Class Sys (W : Type) := {
  sys_read : Z -> Z -> W -> Z * list Z * W;    (* fd, n: the result and the bytes stored *)
  sys_write : Z -> list Z -> W -> Z * W;
  sys_open : list Z -> Z -> W -> Z * W;
  sys_close : Z -> W -> Z * W;
  sys_fstat : Z -> W -> Z * stat * W
}.

(** What a read promises: at most as many bytes as asked for, and as many as it
    says. *)
Class SysLaws (W : Type) `{Sys W} := {
  read_len fd n w : 0 <= n -> let '(r, bs, _) := sys_read fd n w in
    r <= n /\ length bs = Z.to_nat r
}.

(** A running program. *)
Record user (W : Type) := mkUser { umem : memory; world : W }.
Arguments mkUser {W} umem world.
Arguments umem {W} u.
Arguments world {W} u.
Definition set_umem {W : Type} (m : memory) (u : user W) : user W := mkUser m (world u).
Definition set_world {W : Type} (w : W) (u : user W) : user W := mkUser (umem u) w.

(** The bytes of a string constant. *)
Fixpoint bytes_of (s : string) : list Z :=
  match s with
  | EmptyString => []
  | String a s => Z.of_N (Ascii.N_of_ascii a) :: bytes_of s
  end.

(** ** ulib.c: strings *)

(** [while(( *s++ = *t++ ) != 0);] *)
Fixpoint strcpy (m : memory) (s t : Z) (fuel : nat) : option memory :=
  match fuel with
  | O => None
  | S fuel =>
      let m' := upd m s (m t) in
      if m' s =? 0 then Some m' else strcpy m' (s + 1) (t + 1) fuel
  end.

(** [while( *p && *p == *q ) p++, q++;] then the difference as [uchar]. *)
Fixpoint strcmp (m : memory) (p q : Z) (fuel : nat) : option Z :=
  match fuel with
  | O => None
  | S fuel =>
      if negb (m p =? 0) && (m p =? m q) then strcmp m (p + 1) (q + 1) fuel
      else Some (m p - m q)
  end.

(** [for(n = 0; s[n]; n++);] *)
Fixpoint ustrlen (m : memory) (s n : Z) (fuel : nat) : option Z :=
  match fuel with
  | O => None
  | S fuel => if m (s + n) =? 0 then Some n else ustrlen m s (n + 1) fuel
  end.

(** [for(; *s; s++) if( *s == c ) return s; return 0;] *)
Fixpoint strchr (m : memory) (s c : Z) (fuel : nat) : option Z :=
  match fuel with
  | O => None
  | S fuel =>
      if m s =? 0 then Some 0
      else if m s =? c then Some s
      else strchr m (s + 1) c fuel
  end.

(** [while('0' <= *s && *s <= '9') n = n*10 + *s++ - '0';] *)
Fixpoint atoi_loop (m : memory) (s n : Z) (fuel : nat) : option Z :=
  match fuel with
  | O => None
  | S fuel =>
      if (48 <=? m s) && (m s <=? 57) then atoi_loop m (s + 1) (i32 (n * 10 + m s - 48)) fuel
      else Some n
  end.
Definition atoi (m : memory) (s : Z) (fuel : nat) : option Z := atoi_loop m s 0 fuel.

(** The user's memmove only copies upwards. *)
Definition umemmove (m : memory) (vdst vsrc n : Z) : memory := copy_up m vdst vsrc (Z.to_nat n).
Definition umemset (m : memory) (dst c n : Z) : memory := stosb m dst c (Z.to_nat n).

(** ** ulib.c: input *)

Section Io.
Context {W : Type} `{Sys W}.
Abbreviation U := (M (user W)).

(** Store bytes at an address. *)
Fixpoint put_bytes (m : memory) (a : Z) (bs : list Z) : memory :=
  match bs with
  | [] => m
  | b :: bs => put_bytes (upd m a b) (a + 1) bs
  end.

(** [read(fd, buf, n)] into the program's memory. *)
Definition read (fd buf n : Z) : U Z :=
  u <- get ;;
  let '(r, bs, w) := sys_read fd n (world u) in
  modify (fun u => mkUser (put_bytes (umem u) buf bs) w) ;;;
  ret r.

(** [write(fd, buf, n)]. *)
Definition write (fd : Z) (bs : list Z) : U Z :=
  u <- get ;;
  let '(r, w) := sys_write fd bs (world u) in
  modify (set_world w) ;;; ret r.

(** The loop of [gets]: [c] is the address of the variable it reads into; the
    number of iterations left is [max - 1 - i]. *)
Fixpoint gets_loop (buf c i : Z) (n : nat) : U Z :=
  match n with
  | O => ret i
  | S n =>
      cc <- read 0 c 1 ;;
      if cc <? 1 then ret i else
      u <- get ;;
      let ch := umem u c in
      modify (fun u => set_umem (upd (umem u) (buf + i) ch) u) ;;;
      if (ch =? 10) || (ch =? 13) then ret (i + 1) else gets_loop buf c (i + 1) n
  end.
Definition ugets (buf c max : Z) : U Z :=
  i <- gets_loop buf c 0 (Z.to_nat (max - 1)) ;;
  modify (fun u => set_umem (upd (umem u) (buf + i) 0) u) ;;;
  ret buf.

Definition stat_ (n : list Z) : U (Z * option stat) :=
  u <- get ;;
  let '(fd, w) := sys_open n O_RDONLY (world u) in
  modify (set_world w) ;;;
  if fd <? 0 then ret (-1, None) else
  u <- get ;;
  let '(r, st, w) := sys_fstat fd (world u) in
  modify (set_world w) ;;;
  u <- get ;;
  let '(_, w) := sys_close fd (world u) in
  modify (set_world w) ;;;
  ret (r, Some st).

(** ** printf.c *)

Definition putc (fd c : Z) : U unit := _ <- write fd [c] ;; ret tt.

Definition digits : list Z := Eval cbv in bytes_of "0123456789ABCDEF".

(** [do buf[i++] = digits[x % base]; while((x /= base) != 0);]: [x] is below
    [2^32] and [base] at least 2, so 32 iterations are enough. *)
Fixpoint digit_loop (x base : Z) (fuel : nat) : list Z :=
  match fuel with
  | O => []
  | S fuel =>
      nth (Z.to_nat (x mod base)) digits 0 ::
      (if x / base =? 0 then [] else digit_loop (x / base) base fuel)
  end.

(** The characters of [buf], least significant first. *)
Definition int_buf (xx base sgn : Z) : list Z :=
  let neg := negb (sgn =? 0) && (xx <? 0) in
  let x := if neg then u32 (- xx) else u32 xx in
  digit_loop x base 32 ++ (if neg then [45] else []).

Definition printint (fd xx base sgn : Z) : U unit :=
  for_each (reverse (int_buf xx base sgn)) (putc fd).

Definition null_name : list Z := Eval cbv in bytes_of "(null)".

(** [while( *s != 0 ) putc(fd, *s++);] *)
Fixpoint put_str (fd s : Z) (fuel : nat) : U unit :=
  match fuel with
  | O => fuel_out
  | S fuel =>
      u <- get ;;
      if umem u s =? 0 then ret tt else putc fd (umem u s) ;;; put_str fd (s + 1) fuel
  end.

(** The loop of [printf] over the format; the arguments are 32-bit words, [state]
    says whether the last character was a '%'. *)
Fixpoint printf_loop (fd : Z) (fmt : list Z) (state : bool) (ap : list Z) (fuel : nat) : U unit :=
  match fmt with
  | [] => ret tt
  | c :: fmt =>
      if negb state then
        if c =? 37 then printf_loop fd fmt true ap fuel
        else putc fd c ;;; printf_loop fd fmt false ap fuel
      else if c =? 100 then
        a <- deref (head ap) ;;
        printint fd (i32 a) 10 1 ;;; printf_loop fd fmt false (tail ap) fuel
      else if (c =? 120) || (c =? 112) then
        a <- deref (head ap) ;;
        printint fd (i32 a) 16 0 ;;; printf_loop fd fmt false (tail ap) fuel
      else if c =? 115 then
        a <- deref (head ap) ;;
        (if a =? 0 then for_each null_name (putc fd) else put_str fd a fuel) ;;;
        printf_loop fd fmt false (tail ap) fuel
      else if c =? 99 then
        a <- deref (head ap) ;;
        putc fd (Z.land a 0xff) ;;; printf_loop fd fmt false (tail ap) fuel
      else if c =? 37 then putc fd c ;;; printf_loop fd fmt false ap fuel
      else putc fd 37 ;;; putc fd c ;;; printf_loop fd fmt false ap fuel
  end.
Definition printf (fd : Z) (fmt : list Z) (ap : list Z) (fuel : nat) : U unit :=
  printf_loop fd fmt false ap fuel.

End Io.

(** ** Facts *)

(** The NUL-terminated string [l] is at address [a]. *)
Fixpoint cstr (m : memory) (a : Z) (l : list Z) : Prop :=
  match l with
  | [] => m a = 0
  | c :: l => c <> 0 /\ m a = c /\ cstr m (a + 1) l
  end.

Lemma cstr_ext m m' a l :
  (forall j, 0 <= j <= Z.of_nat (length l) -> m (a + j) = m' (a + j)) -> cstr m a l -> cstr m' a l.
Proof.
  revert a. induction l as [|c l IH]; intros a He; simpl.
  - intros H. rewrite <- H. symmetry. specialize (He 0). rewrite !Z.add_0_r in He. apply He. simpl; lia.
  - intros (Hc & Hm & Hl). split; [done|]. split.
    + rewrite <- Hm. symmetry. specialize (He 0). rewrite !Z.add_0_r in He. apply He. simpl; lia.
    + apply IH; [|done]. intros j Hj. rewrite <- !Z.add_assoc. apply He. simpl; lia.
Qed.

(** *** strcpy, strcmp, strlen and strchr *)

(** The copy of a string into memory that does not hold it. *)
Lemma strcpy_spec l : forall m s t fuel,
  cstr m t l -> (length l < fuel)%nat -> apart s t (Z.of_nat (length l) + 1) ->
  exists m', strcpy m s t fuel = Some m' /\ cstr m' s l /\
    forall b, in_range s (Z.of_nat (length l) + 1) b = false -> m' b = m b.
Proof.
  unfold apart.
  induction l as [|c l IH]; intros m s t [|fuel] Ht Hf Ha; simpl in *; try lia.
  - rewrite upd_eq, Ht. simpl. eexists. split; [done|]. rewrite upd_eq. split; [done|].
    intros b Hb%in_range_false. apply upd_ne. lia.
  - destruct Ht as (Hc & Hm & Ht). rewrite upd_eq, Hm. destruct (Z.eqb_spec c 0); [done|].
    destruct (IH (upd m s c) (s + 1) (t + 1) fuel) as (m' & He & Hs & Hr); [|lia|lia|].
    { apply (cstr_ext m); [|done]. intros j Hj. rewrite upd_ne by lia. done. }
    exists m'. split; [done|]. split.
    + split; [done|]. split; [|done]. rewrite Hr, upd_eq; [done|]. apply in_range_false. lia.
    + intros b Hb%in_range_false. rewrite Hr, upd_ne by (rewrite ?in_range_false; lia). done.
Qed.

(** [strcmp] is the first difference of the two strings, their NULs included. *)
Lemma strcmp_eq l : forall m p q fuel, cstr m p l -> cstr m q l -> (length l < fuel)%nat ->
  strcmp m p q fuel = Some 0.
Proof.
  induction l as [|c l IH]; intros m p q [|fuel] Hp Hq Hf; simpl in *; try lia.
  - rewrite Hp, Hq. done.
  - destruct Hp as (Hc & Hp & Hp'), Hq as (_ & Hq & Hq'). rewrite Hp, Hq, Z.eqb_refl.
    destruct (Z.eqb_spec c 0); [done|]. simpl. apply IH; [done|done|lia].
Qed.

Lemma strcmp_0 l : forall m p q k fuel, cstr m p l -> cstr m q k -> (length l < fuel)%nat ->
  strcmp m p q fuel = Some 0 -> l = k.
Proof.
  induction l as [|c l IH]; intros m p q k [|fuel] Hp Hq Hf; simpl in *; try lia.
  - rewrite Hp. simpl. destruct k as [|d k]; [done|]. simpl in Hq. destruct Hq as (? & -> & _).
    intros [=]. lia.
  - destruct Hp as (Hc & Hp & Hp'). rewrite Hp. destruct (Z.eqb_spec c 0); [done|]. simpl.
    destruct k as [|d k]; simpl in Hq.
    + rewrite Hq. destruct (Z.eqb_spec c 0); [done|]. intros [=]. lia.
    + destruct Hq as (_ & Hq & Hq'). rewrite Hq. destruct (Z.eqb_spec c d) as [->|].
      * intros H. f_equal. apply (IH m (p + 1) (q + 1) k fuel); try done. lia.
      * intros [=]. lia.
Qed.

Lemma ustrlen_spec l : forall m s n fuel, cstr m (s + n) l -> (length l < fuel)%nat ->
  ustrlen m s n fuel = Some (n + Z.of_nat (length l)).
Proof.
  induction l as [|c l IH]; intros m s n [|fuel] Hs Hf; simpl in *; try lia.
  - rewrite Hs. simpl. f_equal. lia.
  - destruct Hs as (Hc & Hm & Hs). rewrite Hm. destruct (Z.eqb_spec c 0); [done|].
    rewrite (IH m s (n + 1)); [f_equal; lia| |lia]. by replace (s + (n + 1)) with (s + n + 1) by lia.
Qed.

Lemma strchr_in l1 l2 c : forall m s fuel, cstr m s (l1 ++ c :: l2) -> c ∉ l1 -> (length l1 < fuel)%nat ->
  strchr m s c fuel = Some (s + Z.of_nat (length l1)).
Proof.
  induction l1 as [|d l IH]; intros m s [|fuel] Hs Hn Hf; simpl in *; try lia.
  - destruct Hs as (Hc & -> & _). destruct (Z.eqb_spec c 0); [done|]. rewrite Z.eqb_refl. f_equal. lia.
  - destruct Hs as (Hd & -> & Hs). apply not_elem_of_cons in Hn as [Hn Hl].
    destruct (Z.eqb_spec d 0); [done|]. destruct (Z.eqb_spec d c); [congruence|].
    rewrite (IH m (s + 1) fuel); [f_equal; lia|done|done|lia].
Qed.

Lemma strchr_notin l c : forall m s fuel, cstr m s l -> c ∉ l -> (length l < fuel)%nat ->
  strchr m s c fuel = Some 0.
Proof.
  induction l as [|d l IH]; intros m s [|fuel] Hs Hn Hf; simpl in *; try lia.
  - by rewrite Hs.
  - destruct Hs as (Hd & -> & Hs). apply not_elem_of_cons in Hn as [Hn Hl].
    destruct (Z.eqb_spec d 0); [done|]. destruct (Z.eqb_spec d c); [congruence|].
    apply IH; [done|done|lia].
Qed.

(** *** Numerals *)

(** The value of a list of digits, most significant first. *)
Definition numeral (base : Z) (ds : list Z) : Z := foldl (fun n d => n * base + d) 0 ds.

Definition digit_char (d : Z) : Z := nth (Z.to_nat d) digits 0.

(** The digits of [x], least significant first. *)
Fixpoint digit_list (x base : Z) (fuel : nat) : list Z :=
  match fuel with
  | O => []
  | S fuel => x mod base :: (if x / base =? 0 then [] else digit_list (x / base) base fuel)
  end.

Lemma digit_loop_list x base fuel : digit_loop x base fuel = digit_char <$> digit_list x base fuel.
Proof.
  revert x. induction fuel as [|fuel IH]; intros x; [done|]. simpl. f_equal.
  destruct (x / base =? 0); [done|]. apply IH.
Qed.

Lemma numeral_snoc base ds d : numeral base (ds ++ [d]) = numeral base ds * base + d.
Proof. unfold numeral. by rewrite foldl_app. Qed.

(** [fuel] digits are enough below [base ^ fuel]. *)
Lemma digit_list_spec base fuel : 1 < base -> forall x, 0 <= x < base ^ Z.of_nat fuel ->
  (0 < fuel)%nat ->
  numeral base (reverse (digit_list x base fuel)) = x /\
  Forall (fun d => 0 <= d < base) (digit_list x base fuel) /\
  (length (digit_list x base fuel) <= fuel)%nat.
Proof.
  intros Hb. induction fuel as [|fuel IH]; intros x Hx Hf; [lia|].
  pose proof (Z.mod_pos_bound x base ltac:(lia)) as Hm.
  pose proof (Z_div_mod_eq_full x base) as Hd.
  simpl digit_list. destruct (Z.eqb_spec (x / base) 0) as [E|E]; simpl.
  - split; [unfold numeral; simpl; nia|]. split; [constructor; [done|constructor]|]. lia.
  - rewrite reverse_cons, numeral_snoc.
    assert (0 <= x / base) as Hp by (apply Z.div_pos; lia).
    assert (x / base < base ^ Z.of_nat fuel) as Hl.
    { apply Z.div_lt_upper_bound; [lia|]. rewrite <- Z.pow_succ_r, <- Nat2Z.inj_succ by lia. lia. }
    assert (0 < fuel)%nat. { destruct fuel; [|lia]. simpl in Hl. lia. }
    destruct (IH (x / base)) as (Hv & Hr & Hn); [lia|done|].
    split; [rewrite Hv; nia|]. split; [by constructor|]. lia.
Qed.

(** The digits of a number of [k] places, given more fuel, are at most [k]. *)
Lemma digit_list_length base k : 1 < base -> (0 < k)%nat -> forall fuel x,
  0 <= x < base ^ Z.of_nat k -> (length (digit_list x base fuel) <= k)%nat.
Proof.
  intros Hb Hk. induction k as [|k IH]; intros fuel x Hx; [lia|].
  destruct fuel as [|fuel]; simpl; [lia|]. destruct (Z.eqb_spec (x / base) 0) as [E|E]; simpl; [lia|].
  assert (0 <= x / base) as Hp by (apply Z.div_pos; lia).
  assert (x / base < base ^ Z.of_nat k) as Hl.
  { apply Z.div_lt_upper_bound; [lia|]. rewrite <- Z.pow_succ_r, <- Nat2Z.inj_succ by lia. lia. }
  assert (0 < k)%nat. { destruct k; [|lia]. simpl in Hl. lia. }
  specialize (IH ltac:(done) fuel (x / base) ltac:(lia)). lia.
Qed.

Lemma digit_char_10 d : 0 <= d < 10 -> digit_char d = d + 48.
Proof.
  intros Hd. assert (d = 0 \/ d = 1 \/ d = 2 \/ d = 3 \/ d = 4 \/ d = 5 \/ d = 6 \/ d = 7 \/ d = 8 \/ d = 9)
    as H by lia.
  by repeat destruct H as [->|H]; [..|subst].
Qed.

Lemma numeral_foldl_le base ds : 1 < base -> Forall (fun d => 0 <= d < base) ds ->
  forall n, 0 <= n -> n <= foldl (fun n d => n * base + d) n ds.
Proof.
  intros Hb. induction 1 as [|d ds Hd _ IH]; intros n Hn; simpl; [lia|].
  specialize (IH (n * base + d) ltac:(nia)). nia.
Qed.

(** [atoi] reads a numeral as long as the value stays an [int]. *)
Lemma atoi_loop_spec ds : forall m s n fuel, 0 <= n ->
  Forall (fun d => 0 <= d < 10) ds -> cstr m s (digit_char <$> ds) -> (length ds < fuel)%nat ->
  foldl (fun n d => n * 10 + d) n ds < 2 ^ 31 ->
  atoi_loop m s n fuel = Some (foldl (fun n d => n * 10 + d) n ds).
Proof.
  induction ds as [|d ds IH]; intros m s n [|fuel] Hn Hr Hs Hf Hv; simpl in Hs, Hf; try lia.
  - simpl. rewrite Hs. done.
  - apply Forall_cons in Hr as [Hd Hr]. destruct Hs as (_ & Hm & Hs).
    rewrite digit_char_10 in Hm by done. simpl in Hv |- *. rewrite Hm.
    destruct (Z.leb_spec 48 (d + 48)); [|lia]. destruct (Z.leb_spec (d + 48) 57); [|lia]. simpl.
    pose proof (numeral_foldl_le 10 ds ltac:(lia) Hr (n * 10 + d) ltac:(lia)).
    replace (n * 10 + (d + 48) - 48) with (n * 10 + d) by lia.
    rewrite i32_id by lia. apply IH; [lia|done|done|lia|done].
Qed.

Arguments digit_list : simpl never.
Arguments digit_loop : simpl never.

Lemma int_buf_fits xx : - 2 ^ 31 <= xx < 2 ^ 31 -> (length (int_buf xx 10 1) <= 11)%nat.
Proof.
  intros Hx. unfold int_buf. rewrite length_app, digit_loop_list, length_fmap.
  pose proof (u32_range xx). pose proof (u32_range (- xx)).
  pose proof (digit_list_length 10 10 ltac:(lia) ltac:(lia) 32) as Hl.
  destruct (negb (1 =? 0) && (xx <? 0))%Z; cbn [length].
  - specialize (Hl (u32 (- xx)) ltac:(lia)). lia.
  - specialize (Hl (u32 xx) ltac:(lia)). lia.
Qed.

Lemma int_buf_fits_hex xx : (length (int_buf xx 16 0) <= 8)%nat.
Proof.
  unfold int_buf. change (negb (0 =? 0) && (xx <? 0))%Z with false. cbv iota zeta.
  rewrite app_nil_r, digit_loop_list, length_fmap.
  apply digit_list_length; [lia|lia|]. pose proof (u32_range xx). lia.
Qed.

(** *** printint and printf *)

(** Printing and reading back. *)
Lemma int_buf_atoi m s xx fuel : 0 <= xx < 2 ^ 31 -> (32 < fuel)%nat ->
  cstr m s (reverse (int_buf xx 10 1)) -> atoi m s fuel = Some xx.
Proof.
  intros Hx Hf Hs. unfold int_buf in Hs.
  assert (negb (1 =? 0) && (xx <? 0) = false) as Hneg.
  { rewrite (proj2 (Z.ltb_ge xx 0)) by lia; done. }
  rewrite Hneg, app_nil_r, digit_loop_list, <- fmap_reverse, u32_id in Hs by lia.
  destruct (digit_list_spec 10 32 ltac:(lia) xx ltac:(lia) ltac:(lia)) as (Hv & Hr & Hl).
  unfold atoi. rewrite (atoi_loop_spec (reverse (digit_list xx 10 32))).
  - f_equal. exact Hv.
  - done.
  - by apply Forall_reverse.
  - done.
  - rewrite length_reverse. lia.
  - unfold numeral in Hv. rewrite Hv. lia.
Qed.

Section Print.
Context {W : Type} `{Sys W}.

(** The world after writing bytes one by one. *)
Fixpoint emit (fd : Z) (bs : list Z) (w : W) : W :=
  match bs with
  | [] => w
  | b :: bs => emit fd bs (sys_write fd [b] w).2
  end.

Lemma emit_app fd bs cs w : emit fd (bs ++ cs) w = emit fd cs (emit fd bs w).
Proof. revert w. induction bs as [|b bs IH]; intros w; simpl; [done|]. apply IH. Qed.

Lemma putc_eq fd c u : putc fd c u = Ret tt (set_world (emit fd [c] (world u)) u).
Proof.
  unfold putc, write, bind, get, modify, ret. simpl. by destruct (sys_write fd [c] (world u)) as [r w].
Qed.

Lemma set_world_set w w' (u : user W) : set_world w (set_world w' u) = set_world w u.
Proof. done. Qed.

Lemma put_list_eq fd bs u :
  for_each bs (putc fd) u = Ret tt (set_world (emit fd bs (world u)) u).
Proof.
  revert u. induction bs as [|b bs IH]; intros u; simpl; [by destruct u|].
  rewrite (bind_Ret _ _ _ _ _ (putc_eq fd b u)), IH. done.
Qed.

Lemma printint_eq fd xx base sgn u :
  printint fd xx base sgn u = Ret tt (set_world (emit fd (reverse (int_buf xx base sgn)) (world u)) u).
Proof. apply put_list_eq. Qed.

Lemma put_str_eq fd l : forall s fuel u, cstr (umem u) s l -> (length l < fuel)%nat ->
  put_str fd s fuel u = Ret tt (set_world (emit fd l (world u)) u).
Proof.
  induction l as [|c l IH]; intros s [|fuel] u Hs Hf; simpl in *; try lia.
  - rewrite bind_get, Hs. simpl. by destruct u.
  - destruct Hs as (Hc & Hm & Hs). rewrite bind_get, Hm. destruct (Z.eqb_spec c 0); [done|].
    rewrite (bind_Ret _ _ _ _ _ (putc_eq fd c u)), IH by (done || lia). done.
Qed.

(** What a directive prints, and the arguments it leaves; [None] if it needs an
    argument that was not given. *)
Inductive directive (m : memory) (fuel : nat) : Z -> list Z -> list Z -> list Z -> Prop :=
| DirInt a ap : directive m fuel 100 (a :: ap) (reverse (int_buf (i32 a) 10 1)) ap
| DirHex c a ap : c = 120 \/ c = 112 -> directive m fuel c (a :: ap) (reverse (int_buf (i32 a) 16 0)) ap
| DirNull ap : directive m fuel 115 (0 :: ap) null_name ap
| DirStr a l ap : a <> 0 -> cstr m a l -> (length l < fuel)%nat -> directive m fuel 115 (a :: ap) l ap
| DirChar a ap : directive m fuel 99 (a :: ap) [Z.land a 0xff] ap
| DirPercent ap : directive m fuel 37 ap [37] ap
| DirOther c ap : c ∉ [100; 120; 112; 115; 99; 37] -> directive m fuel c ap [37; c] ap.

(** What a format prints. *)
Inductive formats (m : memory) (fuel : nat) : list Z -> list Z -> list Z -> Prop :=
| FmtNil ap : formats m fuel [] ap []
| FmtEnd ap : formats m fuel [37] ap []
| FmtChar c fmt ap bs : c <> 37 -> formats m fuel fmt ap bs -> formats m fuel (c :: fmt) ap (c :: bs)
| FmtDir c fmt ap bs ap' cs : directive m fuel c ap bs ap' -> formats m fuel fmt ap' cs ->
    formats m fuel (37 :: c :: fmt) ap (bs ++ cs).

Lemma printf_directive fd fmt c ap bs ap' fuel u : directive (umem u) fuel c ap bs ap' ->
  printf_loop fd (c :: fmt) true ap fuel u =
  printf_loop fd fmt false ap' fuel (set_world (emit fd bs (world u)) u).
Proof.
  intros Hd. destruct Hd as [a ap|c a ap Hc|ap|a l ap Ha Hl Hf|a ap|ap|c ap Hc]; cbn [printf_loop negb].
  - change (100 =? 100) with true. cbv iota. rewrite (bind_deref _ a) by done.
    by rewrite (bind_Ret _ _ _ _ _ (printint_eq fd _ _ _ u)).
  - replace (c =? 100) with false by (destruct Hc; by subst).
    replace ((c =? 120) || (c =? 112)) with true by (destruct Hc; by subst).
    rewrite (bind_deref _ a) by done. by rewrite (bind_Ret _ _ _ _ _ (printint_eq fd _ _ _ u)).
  - cbn [Z.eqb Pos.eqb orb]. rewrite (bind_deref _ 0) by done. change (0 =? 0) with true. cbv iota.
    by rewrite (bind_Ret _ _ _ _ _ (put_list_eq fd _ u)).
  - cbn [Z.eqb Pos.eqb orb]. rewrite (bind_deref _ a) by done. destruct (Z.eqb_spec a 0); [done|].
    by rewrite (bind_Ret _ _ _ _ _ (put_str_eq fd l a fuel u Hl Hf)).
  - cbn [Z.eqb Pos.eqb orb]. rewrite (bind_deref _ a) by done. by rewrite (bind_Ret _ _ _ _ _ (putc_eq fd _ u)).
  - cbn [Z.eqb Pos.eqb orb]. by rewrite (bind_Ret _ _ _ _ _ (putc_eq fd _ u)).
  - rewrite !not_elem_of_cons in Hc. destruct Hc as (H1 & H2 & H3 & H4 & H5 & H6 & _).
    rewrite (proj2 (Z.eqb_neq c 100) H1), (proj2 (Z.eqb_neq c 120) H2), (proj2 (Z.eqb_neq c 112) H3),
      (proj2 (Z.eqb_neq c 115) H4), (proj2 (Z.eqb_neq c 99) H5), (proj2 (Z.eqb_neq c 37) H6). simpl.
    rewrite (bind_Ret _ _ _ _ _ (putc_eq fd 37 u)), (bind_Ret _ _ _ _ _ (putc_eq fd c _)). done.
Qed.

Lemma printf_eq fd fmt ap bs fuel : forall u, formats (umem u) fuel fmt ap bs ->
  printf fd fmt ap fuel u = Ret tt (set_world (emit fd bs (world u)) u).
Proof.
  intros u Hf. unfold printf. remember (umem u) as m eqn:Hm. revert u Hm.
  induction Hf as [ap|ap|c fmt ap bs Hc _ IH|c fmt ap bs ap' cs Hd _ IH]; intros u ->.
  - simpl. by destruct u.
  - simpl. by destruct u.
  - cbn [printf_loop negb]. destruct (Z.eqb_spec c 37); [done|].
    rewrite (bind_Ret _ _ _ _ _ (putc_eq fd c u)), IH; done.
  - cbn [printf_loop negb]. change (37 =? 37) with true. cbv iota.
    etransitivity; [exact (printf_directive fd fmt c ap bs ap' fuel u Hd)|].
    rewrite IH by done. by rewrite emit_app.
Qed.

End Print.

(** ** A world of one input and one output

    Every descriptor reads the same bytes [t_in] and writes to [t_out]. *)

Record tape := mkTape { t_in : list Z; t_out : list (Z * list Z) }.

#[global] Instance tape_sys : Sys tape := {
  sys_read fd n w :=
    let bs := take (Z.to_nat n) (t_in w) in
    (Z.of_nat (length bs), bs, mkTape (drop (Z.to_nat n) (t_in w)) (t_out w));
  sys_write fd bs w := (Z.of_nat (length bs), mkTape (t_in w) (t_out w ++ [(fd, bs)]));
  sys_open _ _ w := (3, w);
  sys_close _ w := (0, w);
  sys_fstat _ w := (-1, mkStat 0 0 0 0 0, w)
}.

#[global] Instance tape_laws : SysLaws tape.
Proof. constructor. intros fd n w Hn. simpl. rewrite length_take, Nat2Z.id. lia. Qed.

(** ** Theorems *)

(** What [printint] prints for a non-negative [int] in base 10, stored as a string,
    is read back by [atoi] as the same number. *)
Theorem printint_atoi m s xx fuel : 0 <= xx < 2 ^ 31 -> (32 < fuel)%nat ->
  cstr m s (reverse (int_buf xx 10 1)) -> atoi m s fuel = Some xx.
Proof. apply int_buf_atoi. Qed.

Lemma printint_atoi_witness :
  atoi (put_bytes (fun _ => 0) 100 [50; 49; 52; 55; 52; 56; 51; 54; 52; 55]) 100 40 = Some 2147483647.
Proof.
  apply (printint_atoi _ 100 2147483647 40); [lia|lia|].
  vm_compute. repeat split; discriminate.
Defined.


