(* ===== verification/Sh.v ===== *)
(** * The shell (sh.c)

    Lexer, recursive-descent parser and [nulterminate], on a buffer of bytes and
    positions in it; and [runcmd], as the tree of system calls it makes.

    The input string is a list [b] without its NUL; [es] is its length, and reading
    at [es] gives the NUL.  A parser function works on the position [*ps]; [panic]
    (a message and [exit]) is [Panic].  Every pointer into the buffer is a position.
    The parser's recursion takes fuel; [4 * length b + 4] is proved to be enough. *)

From stdpp Require Import base tactics list sets strings.
From Stdlib Require Import ZArith Lia.
From S2P Require Import Prelude Params StringC Ulib.
Open Scope Z_scope.

(** ** Commands *)

Definition MAXARGS : nat := 20.

(** The structures of a command; [A] is the type of its strings. *)
Inductive cmd (A : Type) :=
| EXEC (argv : list A)
| REDIR (c : cmd A) (file : A) (mode fd : Z)
| PIPE (left right : cmd A)
| LIST (left right : cmd A)
| BACK (c : cmd A).
Arguments EXEC {A} argv.
Arguments REDIR {A} c file mode fd.
Arguments PIPE {A} left right.
Arguments LIST {A} left right.
Arguments BACK {A} c.

(** A counted string: where it starts, and the character after it. *)
Definition span : Type := nat * nat.

(** ** The lexer *)

(** The bytes of [" \t\r\n\v"] and of ["<|>&;()"]. *)
Definition whitespace : list Z := [32; 9; 13; 10; 11].
Definition symbols : list Z := [60; 124; 62; 38; 59; 40; 41].

(** [strchr(s, c) != 0] for a string constant [s]; a NUL is not found. *)
Definition has (s : list Z) (c : Z) : bool := existsb (Z.eqb c) s.

(** [while(s < es && p( *s )) s++;] from the bytes at [s]: how far it goes. *)
Fixpoint skip (p : Z -> bool) (l : list Z) : nat :=
  match l with
  | [] => O
  | c :: l => if p c then S (skip p l) else O
  end.

Definition wordchar (c : Z) : bool := negb (has whitespace c) && negb (has symbols c).

Section Parser.
Context (b : list Z).
Abbreviation P := (M nat).

Definition at_ (s : nat) : Z := nth s b 0.
Definition es : nat := length b.
Definition skip_ws (s : nat) : nat := (s + skip (has whitespace) (drop s b))%nat.

(** The kind of the token at [s], and its end. *)
Definition scan (s : nat) : Z * nat :=
  let c := at_ s in
  if c =? 0 then (0, s)
  else if has [124; 40; 41; 59; 38; 60] c then (c, S s)
  else if c =? 62 then (if at_ (S s) =? 62 then (43, S (S s)) else (62, S s))
  else (97, (s + skip wordchar (drop s b))%nat).

(** The token's kind and the pointers [*q] and [*eq]. *)
Definition gettoken : P (Z * span) :=
  s <- get ;;
  let s := skip_ws s in
  let q := s in
  let '(r, s) := scan s in
  let eq := s in
  modify (fun _ => skip_ws s) ;;;
  ret (r, (q, eq)).

Definition peek (toks : list Z) : P bool :=
  modify skip_ws ;;;
  s <- get ;;
  ret (negb (at_ s =? 0) && has toks (at_ s)).

(** ** The parser *)

(** [while(peek(ps, es, "<>")){ ... }] *)
Fixpoint parseredirs (fuel : nat) (c : cmd span) : P (cmd span) :=
  match fuel with
  | O => fuel_out
  | S fuel =>
      p <- peek [60; 62] ;;
      if negb p then ret c else
      tok <- gettoken ;;
      t <- gettoken ;;
      if negb (fst t =? 97) then panic "missing file for redirection" else
      let c :=
        if fst tok =? 60 then REDIR c (snd t) O_RDONLY 0
        else if fst tok =? 62 then REDIR c (snd t) (Z.lor O_WRONLY O_CREATE) 1
        else if fst tok =? 43 then REDIR c (snd t) (Z.lor O_WRONLY O_CREATE) 1
        else c in
      parseredirs fuel c
  end.

(** [cmd->argv[argc] = q] where [cmd] is the exec command inside the redirections
    [c] has been wrapped in. *)
Fixpoint add_arg {A : Type} (w : A) (c : cmd A) : cmd A :=
  match c with
  | EXEC argv => EXEC (argv ++ [w])
  | REDIR c file mode fd => REDIR (add_arg w c) file mode fd
  | _ => c
  end.

(** [while(!peek(ps, es, "|)&;")){ ... }] *)
Fixpoint parseargs (fuel : nat) (argc : nat) (c : cmd span) : P (cmd span) :=
  match fuel with
  | O => fuel_out
  | S fuel =>
      p <- peek [124; 41; 38; 59] ;;
      if (p : bool) then ret c else
      t <- gettoken ;;
      if fst t =? 0 then ret c else
      if negb (fst t =? 97) then panic "syntax" else
      let c := add_arg (snd t) c in
      let argc := S argc in
      if (MAXARGS <=? argc)%nat then panic "too many args" else
      c <- parseredirs fuel c ;;
      parseargs fuel argc c
  end.

(** [while(peek(ps, es, "&")){ ... }] *)
Fixpoint parsebacks (fuel : nat) (c : cmd span) : P (cmd span) :=
  match fuel with
  | O => fuel_out
  | S fuel =>
      p <- peek [38] ;;
      if (p : bool) then _ <- gettoken ;; parsebacks fuel (BACK c) else ret c
  end.

Fixpoint parseline (fuel : nat) : P (cmd span) :=
  match fuel with
  | O => fuel_out
  | S fuel =>
      c <- parsepipe fuel ;;
      c <- parsebacks fuel c ;;
      p <- peek [59] ;;
      if (p : bool) then _ <- gettoken ;; c2 <- parseline fuel ;; ret (LIST c c2) else ret c
  end
with parsepipe (fuel : nat) : P (cmd span) :=
  match fuel with
  | O => fuel_out
  | S fuel =>
      c <- parseexec fuel ;;
      p <- peek [124] ;;
      if (p : bool) then _ <- gettoken ;; c2 <- parsepipe fuel ;; ret (PIPE c c2) else ret c
  end
with parseexec (fuel : nat) : P (cmd span) :=
  match fuel with
  | O => fuel_out
  | S fuel =>
      p <- peek [40] ;;
      if (p : bool) then parseblock fuel else
      c <- parseredirs fuel (EXEC []) ;;
      parseargs fuel 0 c
  end
with parseblock (fuel : nat) : P (cmd span) :=
  match fuel with
  | O => fuel_out
  | S fuel =>
      p <- peek [40] ;;
      if negb p then panic "parseblock" else
      _ <- gettoken ;;
      c <- parseline fuel ;;
      p <- peek [41] ;;
      if negb p then panic "syntax - missing )" else
      _ <- gettoken ;;
      parseredirs fuel c
  end.

(** The command, before its strings are terminated. *)
Definition parse (fuel : nat) : P (cmd span) :=
  c <- parseline fuel ;;
  _ <- peek [] ;;
  s <- get ;;
  if negb (s =? es)%nat then panic "syntax" else ret c.

End Parser.

(** *** nulterminate *)

(** [*eargv[i] = 0] for the arguments of [c], and [*efile = 0]. *)
Fixpoint nulterminate (c : cmd span) (buf : list Z) : list Z :=
  match c with
  | EXEC argv => foldl (fun buf w => <[snd w := 0]> buf) buf argv
  | REDIR c file _ _ => <[snd file := 0]> (nulterminate c buf)
  | PIPE l r | LIST l r => nulterminate r (nulterminate l buf)
  | BACK c => nulterminate c buf
  end.

(** [parsecmd] on the string [b]: the command, and the buffer with its NULs. *)
Definition parsecmd (b : list Z) (fuel : nat) : M nat (cmd span * list Z) :=
  c <- parse b fuel ;;
  ret (c, nulterminate c (b ++ [0])).

(** The string a pointer points to. *)
Fixpoint cstring (l : list Z) : list Z :=
  match l with
  | [] => []
  | c :: l => if c =? 0 then [] else c :: cstring l
  end.

Fixpoint cmd_map {A B : Type} (f : A -> B) (c : cmd A) : cmd B :=
  match c with
  | EXEC argv => EXEC (f <$> argv)
  | REDIR c file mode fd => REDIR (cmd_map f c) (f file) mode fd
  | PIPE l r => PIPE (cmd_map f l) (cmd_map f r)
  | LIST l r => LIST (cmd_map f l) (cmd_map f r)
  | BACK c => BACK (cmd_map f c)
  end.

(** The command as [runcmd] sees it: pointers into the terminated buffer. *)
Definition strings_in (buf : list Z) (c : cmd span) : cmd (list Z) :=
  cmd_map (fun w => cstring (drop (fst w) buf)) c.

(** ** Running a command *)

(** The system calls of a process, in order; a call whose result the shell looks at
    is followed by what it does in each case. *)
Inductive prog :=
| Exit
| Exec (argv : list (list Z)) (failed : prog)
| Close (fd : Z) (k : prog)
| Open (file : list Z) (mode : Z) (k : Z -> prog)
| Pipe (failed : prog) (k : Z -> Z -> prog)
| Dup (fd : Z) (k : prog)
| Fork (failed child parent : prog)
| Wait (k : prog)
| Chdir (dir : list Z) (failed k : prog)
| Write (fd : Z) (bs : list Z) (k : prog).

(** [printf(2, "%s\n", s); exit();] *)
Definition sh_panic (s : list Z) : prog := Write 2 (s ++ [10]) Exit.

Definition fork1 (child parent : prog) : prog := Fork (sh_panic (bytes_of "fork")) child parent.

Fixpoint runcmd (c : cmd (list Z)) : prog :=
  match c with
  | EXEC [] => Exit
  | EXEC (a :: argv) => Exec (a :: argv) (Write 2 (bytes_of "exec " ++ a ++ bytes_of " failed" ++ [10]) Exit)
  | REDIR c file mode fd =>
      Close fd
        (Open file mode (fun r =>
           if r <? 0 then Write 2 (bytes_of "open " ++ file ++ bytes_of " failed" ++ [10]) Exit
           else runcmd c))
  | LIST l r => fork1 (runcmd l) (Wait (runcmd r))
  | PIPE l r =>
      Pipe (sh_panic (bytes_of "pipe")) (fun p0 p1 =>
        fork1 (Close 1 (Dup p1 (Close p0 (Close p1 (runcmd l)))))
        (fork1 (Close 0 (Dup p0 (Close p0 (Close p1 (runcmd r)))))
        (Close p0 (Close p1 (Wait (Wait Exit))))))
  | BACK c => fork1 (runcmd c) Exit
  end.

(** ** The main loop *)

(** [runcmd(parsecmd(buf))]: a message and exit if the parser panics. *)
Definition run_line (buf : list Z) : prog :=
  match parsecmd buf (4 * length buf + 4) 0%nat with
  | Ret (c, buf) _ => runcmd (strings_in buf c)
  | Panic msg => sh_panic (bytes_of msg)
  | _ => Exit
  end.

(** [while((fd = open("console", O_RDWR)) >= 0) ...]; a process has [NOFILE = 16]
    descriptors, so it opens at most 16 times. *)
Fixpoint open_console (n : nat) (k : prog) : prog :=
  match n with
  | O => k
  | S n => Open (bytes_of "console") O_RDWR (fun fd =>
             if fd <? 0 then k else if 3 <=? fd then Close fd k else open_console n k)
  end.

(** The lines [getcmd] reads, each up to and with its newline, at most 199 bytes. *)
Fixpoint main_loop (inputs : list (list Z)) : prog :=
  Write 2 (bytes_of "$ ")
    match inputs with
    | [] => Exit
    | buf :: inputs =>
        if bool_decide (take 3 buf = bytes_of "cd ") then
          let dir := drop 3 (removelast buf) in
          Chdir dir (Write 2 (bytes_of "cannot cd " ++ dir ++ [10]) (main_loop inputs)) (main_loop inputs)
        else fork1 (run_line buf) (Wait (main_loop inputs))
    end.
Definition sh_main (inputs : list (list Z)) : prog := open_console 17 (main_loop inputs).

(** ** Facts of the lexer *)

Lemma skip_length p l : (skip p l <= length l)%nat.
Proof. induction l as [|c l IH]; simpl; [lia|]. destruct (p c); simpl; lia. Qed.

Lemma skip_all p l i : (i < skip p l)%nat -> exists c, l !! i = Some c /\ p c = true.
Proof.
  revert i. induction l as [|c l IH]; intros i; simpl; [lia|].
  destruct (p c) eqn:E; [|lia]. destruct i as [|i]; [by exists c|]. intros Hi. apply IH. lia.
Qed.

Lemma skip_stop p l c : l !! skip p l = Some c -> p c = false.
Proof. induction l as [|d l IH]; simpl; [done|]. destruct (p d) eqn:E; [done|]. simpl. congruence. Qed.

Lemma skip_drop p l : skip p (drop (skip p l) l) = O.
Proof.
  destruct (drop (skip p l) l) as [|c k] eqn:E; [done|]. simpl.
  rewrite (skip_stop p l c); [done|]. rewrite <- (Nat.add_0_r (skip p l)), <- lookup_drop, E. done.
Qed.

Lemma no_symbol c : has [124; 40; 41; 59; 38; 60] c = false -> c <> 62 -> has symbols c = false.
Proof.
  unfold has, symbols. simpl. rewrite !orb_false_iff, !Z.eqb_neq. tauto.
Qed.

Section Lexer.
Context (b : list Z) (Hb : 0 ∉ b).

Lemma at_0 s : at_ b s = 0 <-> (es b <= s)%nat.
Proof using Hb.
  unfold at_, es. split.
  - intros H. destruct (Nat.le_gt_cases (length b) s); [done|]. exfalso. apply Hb. rewrite <- H.
    apply list_elem_of_In, nth_In. done.
  - intros H. by apply nth_overflow.
Qed.

Lemma at_lookup s c : b !! s = Some c -> at_ b s = c.
Proof. intros H. unfold at_. by apply nth_lookup_Some. Qed.

Lemma at_lookup_lt s : (s < es b)%nat -> b !! s = Some (at_ b s).
Proof. intros H. unfold at_. destruct (lookup_lt_is_Some_2 b s H) as [c Hc]. by rewrite (nth_lookup_Some _ _ _ _ Hc). Qed.

Lemma skip_ws_range s : (s <= es b)%nat -> (s <= skip_ws b s <= es b)%nat.
Proof.
  intros Hs. unfold skip_ws. pose proof (skip_length (has whitespace) (drop s b)) as H.
  rewrite length_drop in H. unfold es in *. lia.
Qed.

Lemma skip_ws_idem s : skip_ws b (skip_ws b s) = skip_ws b s.
Proof.
  unfold skip_ws. rewrite <- drop_drop, skip_drop. lia.
Qed.

(** A token that is not the end takes at least one character. *)
Lemma scan_range s : (s <= es b)%nat ->
  let '(k, s') := scan b s in
  (s <= s' <= es b)%nat /\ (k = 0 <-> at_ b s = 0) /\ (k <> 0 -> skip_ws b s = s -> (s < s')%nat).
Proof using Hb.
  intros Hs. unfold scan. destruct (Z.eqb_spec (at_ b s) 0) as [E|E]; [done|].
  assert (s < es b)%nat as Hlt. { destruct (Nat.le_gt_cases (es b) s) as [H|H]; [|done]. by apply at_0 in H. }
  destruct (has [124; 40; 41; 59; 38; 60] (at_ b s)) eqn:E1; [split; [lia|split; [done|lia]]|].
  destruct (Z.eqb_spec (at_ b s) 62) as [E2|E2].
  - destruct (Z.eqb_spec (at_ b (S s)) 62) as [E3|E3]; [|split; [lia|split; lia]].
    destruct (Nat.le_gt_cases (es b) (S s)) as [H|H]; [apply at_0 in H; lia|].
    split; [lia|split; lia].
  - pose proof (skip_length wordchar (drop s b)) as H. rewrite length_drop in H. unfold es in *.
    split; [lia|]. split; [lia|]. intros _ Hw. assert (wordchar (at_ b s) = true) as Hc.
    { unfold wordchar. unfold skip_ws in Hw. rewrite (drop_S b (at_ b s)) in Hw by by apply at_lookup_lt.
      cbn [skip] in Hw. destruct (has whitespace (at_ b s)) eqn:E3; [lia|].
      by rewrite no_symbol. }
    rewrite (drop_S b (at_ b s)) by by apply at_lookup_lt. cbn [skip]. rewrite Hc. lia.
Qed.

Lemma gettoken_range s : (s <= es b)%nat -> exists k q e s',
  gettoken b s = Ret (k, (q, e)) s' /\ (s <= q <= e)%nat /\ (e <= s' <= es b)%nat /\
  (k = 0 <-> at_ b (skip_ws b s) = 0) /\ (k <> 0 -> (s < s')%nat).
Proof using Hb.
  intros Hs. unfold gettoken. rewrite bind_get. pose proof (skip_ws_range s Hs) as Hw.
  pose proof (scan_range (skip_ws b s) ltac:(lia)) as Hr. destruct (scan b (skip_ws b s)) as [k e].
  destruct Hr as (Hr & Hk0 & Hlt). pose proof (skip_ws_range e ltac:(lia)).
  exists k, (skip_ws b s), e, (skip_ws b e). split; [done|]. split; [lia|]. split; [lia|].
  split; [done|]. intros Hk. specialize (Hlt Hk (skip_ws_idem s)). lia.
Qed.

Lemma peek_range toks s : (s <= es b)%nat -> exists p s',
  peek b toks s = Ret p s' /\ (s <= s' <= es b)%nat /\ (p = true -> at_ b s' <> 0 /\ skip_ws b s' = s').
Proof.
  intros Hs. unfold peek. rewrite bind_modify, bind_get. do 2 eexists. split; [done|].
  split; [by apply skip_ws_range|]. rewrite andb_true_iff, negb_true_iff, Z.eqb_neq.
  intros [H _]. split; [done|]. apply skip_ws_idem.
Qed.

End Lexer.

(** ** Termination *)

Section Termination.
Context (b : list Z) (Hb : 0 ∉ b).

(** A parser that keeps the position in the buffer, from [s] on. *)
Definition moves {A : Type} (s : nat) (r : res nat A) : Prop :=
  ends r (fun _ s' => (s <= s' <= es b)%nat).

Lemma moves_from {A : Type} s s1 (r : res nat A) : (s <= s1)%nat -> moves s1 r -> moves s r.
Proof. intros Hs. apply ends_mono. intros _ s' H. lia. Qed.

Lemma moves_gettoken {A : Type} (f : Z * span -> M nat A) s : (s <= es b)%nat ->
  (forall t s', (s <= s' <= es b)%nat -> (fst t <> 0 -> (s < s')%nat) -> moves s (f t s')) ->
  moves s (bind (gettoken b) f s).
Proof using Hb.
  intros Hs Hf. destruct (gettoken_range b Hb s Hs) as (k & q & e & s' & He & H1 & H2 & H3 & H4).
  rewrite (bind_Ret _ _ _ _ _ He). apply Hf; simpl; [lia|done].
Qed.

Lemma moves_peek {A : Type} toks (f : bool -> M nat A) s : (s <= es b)%nat ->
  (forall s', (s <= s' <= es b)%nat -> moves s (f false s')) ->
  (forall s', (s <= s' <= es b)%nat -> at_ b s' <> 0 -> skip_ws b s' = s' -> moves s (f true s')) ->
  moves s (bind (peek b toks) f s).
Proof.
  intros Hs Hf Ht. destruct (peek_range b toks s Hs) as (p & s' & He & H1 & H2).
  rewrite (bind_Ret _ _ _ _ _ He). destruct p; [|by apply Hf]. destruct (H2 eq_refl). by apply Ht.
Qed.

(** After a successful [peek] the next token takes a character. *)
Lemma moves_token {A : Type} (f : Z * span -> M nat A) s : (s <= es b)%nat ->
  at_ b s <> 0 -> skip_ws b s = s ->
  (forall t s', (s < s' <= es b)%nat -> moves s (f t s')) -> moves s (bind (gettoken b) f s).
Proof using Hb.
  intros Hs Hc Hw Hf. destruct (gettoken_range b Hb s Hs) as (k & q & e & s' & He & H1 & H2 & H3 & H4).
  rewrite (bind_Ret _ _ _ _ _ He). apply Hf. rewrite Hw in H3. assert (k <> 0) as Hk by tauto.
  specialize (H4 Hk). lia.
Qed.

Lemma moves_bind {A B : Type} (m : M nat A) (f : A -> M nat B) s s1 : (s <= s1)%nat ->
  moves s1 (m s1) -> (forall a s', (s1 <= s' <= es b)%nat -> moves s (f a s')) -> moves s (bind m f s1).
Proof. intros Hs Hm Hf. apply (ends_bind_mono _ _ _ _ _ Hm). intros a s' Hs'. by apply Hf. Qed.

Lemma moves_ret {A : Type} (a : A) s s' : (s <= s' <= es b)%nat -> moves s (ret a s').
Proof. done. Qed.

Lemma parseredirs_moves fuel : forall c s, (s <= es b)%nat -> (es b - s < fuel)%nat ->
  moves s (parseredirs b fuel c s).
Proof using Hb.
  induction fuel as [|fuel IH]; intros c s Hs Hf; [lia|]. cbn [parseredirs].
  apply moves_peek; [done| |]; cbn [negb]; intros s1 H1; [by apply moves_ret|]. intros Hc Hw.
  apply (moves_from s s1); [lia|]. apply moves_token; [lia|done|done|]. intros t1 s2 H2.
  apply (moves_from s1 s2); [lia|]. apply moves_gettoken; [lia|]. intros t2 s3 H3 _.
  destruct (negb (fst t2 =? 97)); [done|]. apply (moves_from s2 s3); [lia|]. apply IH; lia.
Qed.

Lemma parseargs_moves fuel : forall argc c s, (s <= es b)%nat -> (es b - s < fuel)%nat ->
  moves s (parseargs b fuel argc c s).
Proof using Hb.
  induction fuel as [|fuel IH]; intros argc c s Hs Hf; [lia|]. cbn [parseargs].
  apply moves_peek; [done| |]; intros s1 H1; [|intros _ _; by apply moves_ret].
  apply (moves_from s s1); [lia|]. apply moves_gettoken; [lia|]. intros t s2 H2 Ht.
  destruct (Z.eqb_spec (fst t) 0) as [|E]; [apply moves_ret; lia|]. specialize (Ht E).
  destruct (negb (fst t =? 97)); [done|]. destruct (MAXARGS <=? S argc)%nat; [done|].
  apply moves_bind; [lia|apply parseredirs_moves; lia|]. intros c' s3 H3.
  apply (moves_from s1 s3); [lia|]. apply IH; lia.
Qed.

Lemma parsebacks_moves fuel : forall c s, (s <= es b)%nat -> (es b - s < fuel)%nat ->
  moves s (parsebacks b fuel c s).
Proof using Hb.
  induction fuel as [|fuel IH]; intros c s Hs Hf; [lia|]. cbn [parsebacks].
  apply moves_peek; [done| |]; intros s1 H1; [by apply moves_ret|]. intros Hc Hw.
  apply (moves_from s s1); [lia|]. apply moves_token; [lia|done|done|]. intros t s2 H2.
  apply (moves_from s1 s2); [lia|]. apply IH; lia.
Qed.

(** [4 n + 4] calls are enough for a line of [n] characters. *)
Lemma parse_moves fuel : forall s, (s <= es b)%nat ->
  ((4 * (es b - s) + 4 <= fuel)%nat -> moves s (parseline b fuel s)) /\
  ((4 * (es b - s) + 3 <= fuel)%nat -> moves s (parsepipe b fuel s)) /\
  ((4 * (es b - s) + 2 <= fuel)%nat -> moves s (parseexec b fuel s)) /\
  ((4 * (es b - s) + 1 <= fuel)%nat -> moves s (parseblock b fuel s)).
Proof using Hb.
  induction fuel as [|fuel IH]; intros s Hs; [lia|]. split; [|split; [|split]]; intros Hf.
  - cbn [parseline]. apply moves_bind; [lia|apply IH; lia|]. intros c s1 H1.
    apply moves_bind; [lia|apply parsebacks_moves; lia|]. intros c2 s2 H2.
    apply (moves_from s s2); [lia|]. apply moves_peek; [lia| |]; intros s3 H3; [by apply moves_ret|].
    intros Hc Hw. apply (moves_from s2 s3); [lia|]. apply moves_token; [lia|done|done|]. intros t s4 H4.
    apply moves_bind; [lia|apply IH; lia|]. intros c3 s5 H5. apply moves_ret. lia.
  - cbn [parsepipe]. apply moves_bind; [lia|apply IH; lia|]. intros c s2 H2.
    apply (moves_from s s2); [lia|]. apply moves_peek; [lia| |]; intros s3 H3; [by apply moves_ret|].
    intros Hc Hw. apply (moves_from s2 s3); [lia|]. apply moves_token; [lia|done|done|]. intros t s4 H4.
    apply moves_bind; [lia|apply IH; lia|]. intros c3 s5 H5. apply moves_ret. lia.
  - cbn [parseexec]. apply moves_peek; [lia| |]; intros s1 H1.
    + apply moves_bind; [lia|apply parseredirs_moves; lia|]. intros c s2 H2.
      apply (moves_from s s2); [lia|]. apply parseargs_moves; lia.
    + intros _ _. apply (moves_from s s1); [lia|]. apply IH; lia.
  - cbn [parseblock]. apply moves_peek; [lia| |]; intros s1 H1; [done|]. intros Hc Hw. cbn [negb].
    apply (moves_from s s1); [lia|]. apply moves_token; [lia|done|done|]. intros t s2 H2.
    apply moves_bind; [lia|apply IH; lia|]. intros c s3 H3.
    apply (moves_from s1 s3); [lia|]. apply moves_peek; [lia| |]; intros s4 H4; [done|]. intros Hc4 Hw4.
    cbn [negb]. apply (moves_from s3 s4); [lia|]. apply moves_token; [lia|done|done|]. intros t5 s5 H5.
    apply (moves_from s4 s5); [lia|]. apply parseredirs_moves; lia.
Qed.

Lemma parse_ends : ends (parse b (4 * es b + 4) 0%nat) (fun _ s => s = es b).
Proof using Hb.
  unfold parse. eapply ends_bind_mono; [apply (parse_moves _ 0); lia|]. intros c s Hs. cbv beta in Hs.
  destruct (peek_range b [] s ltac:(lia)) as (p & s' & He & H1 & _). rewrite (bind_Ret _ _ _ _ _ He).
  rewrite bind_get. destruct (Nat.eqb_spec s' (es b)) as [->|]; done.
Qed.

End Termination.

(** ** The grammar

    A line is a pipeline, any number of '&', and possibly ';' and another line; a
    pipeline is one or more commands with '|' between them; a command is a line in
    parentheses with redirections after it, or words and redirections mixed. *)

Section Grammar.
Context {A : Type}.

(** A redirection: '<', '>' or "+" for ">>", and its file. *)
Definition redir : Type := Z * A.

Inductive gline :=
| Line (p : gpipe) (amps : nat)
| Seq (p : gpipe) (amps : nat) (l : gline)
with gpipe :=
| Last (e : gexec)
| Bar (e : gexec) (p : gpipe)
with gexec :=
| Block (l : gline) (rs : list redir)
| Simple (rs : list redir) (args : list (A * list redir)).

Inductive tok := Sym (k : Z) | Word (w : A).

(** The tokens of a line. *)
Definition yield_redirs (rs : list redir) : list tok := rs ≫= fun r => [Sym (fst r); Word (snd r)].
Definition yield_args (args : list (A * list redir)) : list tok :=
  args ≫= fun a => Word (fst a) :: yield_redirs (snd a).

Fixpoint yield_line (l : gline) : list tok :=
  match l with
  | Line p n => yield_pipe p ++ repeat (Sym 38) n
  | Seq p n l => yield_pipe p ++ repeat (Sym 38) n ++ Sym 59 :: yield_line l
  end
with yield_pipe (p : gpipe) : list tok :=
  match p with
  | Last e => yield_exec e
  | Bar e p => yield_exec e ++ Sym 124 :: yield_pipe p
  end
with yield_exec (e : gexec) : list tok :=
  match e with
  | Block l rs => Sym 40 :: yield_line l ++ Sym 41 :: yield_redirs rs
  | Simple rs args => yield_redirs rs ++ yield_args args
  end.

(** The command it stands for. *)
Definition redir_mode (k : Z) : Z := if k =? 60 then O_RDONLY else Z.lor O_WRONLY O_CREATE.
Definition redir_fd (k : Z) : Z := if k =? 60 then 0 else 1.
Definition with_redirs (rs : list redir) (c : cmd A) : cmd A :=
  foldl (fun c r => REDIR c (snd r) (redir_mode (fst r)) (redir_fd (fst r))) c rs.
Definition with_backs (n : nat) (c : cmd A) : cmd A := Nat.iter n BACK c.

Fixpoint build_line (l : gline) : cmd A :=
  match l with
  | Line p n => with_backs n (build_pipe p)
  | Seq p n l => LIST (with_backs n (build_pipe p)) (build_line l)
  end
with build_pipe (p : gpipe) : cmd A :=
  match p with
  | Last e => build_exec e
  | Bar e p => PIPE (build_exec e) (build_pipe p)
  end
with build_exec (e : gexec) : cmd A :=
  match e with
  | Block l rs => with_redirs rs (build_line l)
  | Simple rs args => with_redirs (rs ++ (args ≫= snd)) (EXEC (fst <$> args))
  end.

(** Redirections are of the three kinds, and a command has fewer than [MAXARGS]
    words. *)
Definition wf_redirs (rs : list redir) : Prop := Forall (fun r => fst r = 60 \/ fst r = 62 \/ fst r = 43) rs.
Fixpoint wf_line (l : gline) : Prop :=
  match l with
  | Line p _ => wf_pipe p
  | Seq p _ l => wf_pipe p /\ wf_line l
  end
with wf_pipe (p : gpipe) : Prop :=
  match p with
  | Last e => wf_exec e
  | Bar e p => wf_exec e /\ wf_pipe p
  end
with wf_exec (e : gexec) : Prop :=
  match e with
  | Block l rs => wf_line l /\ wf_redirs rs
  | Simple rs args =>
      wf_redirs rs /\ Forall (fun a => wf_redirs (snd a)) args /\ (length args < MAXARGS)%nat
  end.

(** The tokens that may follow a line, a pipeline and a command. *)
Definition next_in (ks : list Z) (ts : list tok) : Prop :=
  match ts with
  | [] => True
  | Sym k :: _ => k ∈ ks
  | Word _ :: _ => False
  end.

Lemma next_in_mono ks ks' ts : (forall k, k ∈ ks -> k ∈ ks') -> next_in ks ts -> next_in ks' ts.
Proof. intros Hk. destruct ts as [|[k|w] ts]; simpl; auto. Qed.

Lemma add_arg_redirs w rs argv :
  add_arg w (with_redirs rs (EXEC argv)) = with_redirs rs (EXEC (argv ++ [w])).
Proof.
  unfold with_redirs. revert argv. induction rs as [|r rs IH] using rev_ind; intros argv; [done|].
  rewrite !foldl_app. simpl. by rewrite IH.
Qed.

Lemma with_redirs_app rs rs' c : with_redirs (rs ++ rs') c = with_redirs rs' (with_redirs rs c).
Proof. unfold with_redirs. apply foldl_app. Qed.

Lemma yield_redirs_length rs : length (yield_redirs rs) = (2 * length rs)%nat.
Proof.
  unfold yield_redirs. induction rs as [|r rs IH]; [done|]. rewrite bind_cons, length_app, IH. simpl. lia.
Qed.

Lemma with_backs_S n c : with_backs n (BACK c) = with_backs (S n) c.
Proof. unfold with_backs. induction n as [|n IH]; simpl; [done|]. by rewrite IH. Qed.

End Grammar.
Arguments gline : clear implicits.
Arguments gpipe : clear implicits.
Arguments gexec : clear implicits.
Arguments tok : clear implicits.
Arguments redir : clear implicits.

Scheme gline_mut := Induction for gline Sort Prop
with gpipe_mut := Induction for gpipe Sort Prop
with gexec_mut := Induction for gexec Sort Prop.
Combined Scheme grammar_ind from gline_mut, gpipe_mut, gexec_mut.

(** ** The tokens of a string *)

(** The text of a span. *)
Definition text (b : list Z) (w : span) : list Z := take (snd w - fst w) (drop (fst w) b).

Definition tok_of (b : list Z) (t : Z * span) : tok (list Z) :=
  if fst t =? 97 then Word (text b (snd t)) else Sym (fst t).

(** All the tokens from a position on. *)
Fixpoint lex (b : list Z) (fuel : nat) (s : nat) : list (Z * span) :=
  match fuel with
  | O => []
  | S fuel =>
      match gettoken b s with
      | Ret t s' => if fst t =? 0 then [] else t :: lex b fuel s'
      | _ => []
      end
  end.
Definition tokens (b : list Z) : list (tok (list Z)) := tok_of b <$> lex b (S (length b)) 0.

(** The first character of a token of a kind. *)
Definition first_char (k : Z) : Z := if k =? 43 then 62 else k.

(** Whether [peek] sees one of [toks] before these tokens. *)
Definition starts {A : Type} (toks : list Z) (ts : list (tok A)) : bool :=
  match ts with
  | Sym k :: _ => has toks (first_char k)
  | _ => false
  end.

Lemma has_spec s c : has s c = true <-> c ∈ s.
Proof.
  unfold has. rewrite existsb_exists. setoid_rewrite Z.eqb_eq. rewrite list_elem_of_In. naive_solver.
Qed.

Lemma starts_next {A : Type} ks toks (ts : list (tok A)) : next_in ks ts ->
  (forall k, k ∈ ks -> has toks (first_char k) = false) -> starts toks ts = false.
Proof. intros Hn Hk. destruct ts as [|[k|w] ts]; simpl in *; auto. Qed.

(** The span of a word: characters of words, up to one that is not or the end. *)
Definition word_ok (b : list Z) (w : span) : Prop :=
  (fst w <= snd w <= es b)%nat /\
  (forall i, (fst w <= i < snd w)%nat -> exists c, b !! i = Some c /\ wordchar c = true) /\
  (forall c, b !! snd w = Some c -> wordchar c = false).

Fixpoint cmd_all {A : Type} (P : A -> Prop) (c : cmd A) : Prop :=
  match c with
  | EXEC argv => Forall P argv
  | REDIR c file _ _ => cmd_all P c /\ P file
  | PIPE l r | LIST l r => cmd_all P l /\ cmd_all P r
  | BACK c => cmd_all P c
  end.

Section Streams.
Context (b : list Z) (Hb : 0 ∉ b).

(** The tokens from a position on. *)
Inductive stream : nat -> list (Z * span) -> Prop :=
| SEnd s : (s <= es b)%nat -> at_ b (skip_ws b s) = 0 -> stream s []
| STok s t s' ts : (s <= es b)%nat -> gettoken b s = Ret t s' -> fst t <> 0 -> stream s' ts -> stream s (t :: ts).

Lemma gettoken_skip s : gettoken b (skip_ws b s) = gettoken b s.
Proof.
  unfold gettoken. rewrite !bind_get. cbv beta zeta.
  rewrite skip_ws_idem. by destruct (scan b (skip_ws b s)).
Qed.

Lemma stream_skip s ts : stream s ts -> stream (skip_ws b s) ts.
Proof.
  intros Hs. inversion Hs as [s0 H1 H2|s0 t s' ts' H1 H2 H3 H4]; subst.
  - constructor; [by apply skip_ws_range|]. by rewrite skip_ws_idem.
  - econstructor; [by apply skip_ws_range|by rewrite gettoken_skip|done|done].
Qed.

Lemma scan_kind s k e : scan b s = (k, e) ->
  (at_ b s = 0 /\ k = 0) \/ (at_ b s <> 0 /\ k = 97 /\ has symbols (at_ b s) = false) \/
  (at_ b s <> 0 /\ k <> 97 /\ first_char k = at_ b s).
Proof.
  unfold scan. destruct (Z.eqb_spec (at_ b s) 0) as [E|E]; [intros [= <- _]; by left|].
  destruct (has [124; 40; 41; 59; 38; 60] (at_ b s)) eqn:E1.
  - intros [= <- _]. right; right. split; [done|]. apply has_spec in E1. unfold first_char.
    rewrite !elem_of_cons in E1.
    assert (at_ b s <> 43 /\ at_ b s <> 97) as [H43 H97].
    { do 6 (destruct E1 as [E1|E1]; [lia|]). by apply elem_of_nil in E1. }
    apply Z.eqb_neq in H43. by rewrite H43.
  - destruct (Z.eqb_spec (at_ b s) 62) as [E2|E2].
    + intros H. right; right. split; [done|]. rewrite E2. destruct (at_ b (S s) =? 62); by injection H as <- _.
    + intros [= <- _]. right; left. split; [done|]. split; [done|]. by apply no_symbol.
Qed.

Lemma peek_stream toks s ts : stream s ts -> forallb (has symbols) toks = true ->
  exists s', peek b toks s = Ret (starts toks (tok_of b <$> ts)) s' /\ stream s' ts.
Proof.
  intros Hs Ht. unfold peek. rewrite bind_modify, bind_get. eexists. split; [|by apply stream_skip].
  unfold ret. f_equal.
  inversion Hs as [s0 H1 H2|s0 t s' ts' H1 H2 H3 H4]; subst; simpl.
  - by rewrite H2.
  - unfold gettoken in H2. rewrite bind_get in H2. cbv zeta in H2.
    destruct (scan b (skip_ws b s)) as [k e] eqn:Hsc. pose proof (scan_kind _ _ _ Hsc) as Hk. injection H2 as <- _. unfold tok_of. cbn [fst snd] in *.
    destruct Hk as [[_ ->]|[(Hc & -> & Hn)|(Hc & Hk & Hf)]]; [done| |].
    + cbn. apply Z.eqb_neq in Hc. rewrite Hc. simpl. apply not_true_is_false. intros Hh.
      apply has_spec in Hh. rewrite forallb_forall in Ht. apply list_elem_of_In, Ht in Hh. congruence.
    + apply Z.eqb_neq in Hk. rewrite Hk, Hf. apply Z.eqb_neq in Hc. by rewrite Hc.
Qed.

Lemma gettoken_stream s t ts : stream s (t :: ts) -> exists s', gettoken b s = Ret t s' /\ stream s' ts.
Proof. intros Hs. inversion Hs; subst. eauto. Qed.

Lemma gettoken_end s : stream s [] -> exists w s', gettoken b s = Ret (0, w) s' /\ stream s' [].
Proof.
  intros Hs. inversion Hs as [s0 H1 H2|]; subst. unfold gettoken. rewrite bind_get.
  unfold scan. rewrite H2. simpl. do 2 eexists. split; [done|]. rewrite skip_ws_idem.
  by apply stream_skip.
Qed.

(** The word of a token. *)
Lemma gettoken_word s w s' : (s <= es b)%nat -> gettoken b s = Ret (97, w) s' -> word_ok b w.
Proof.
  intros Hs. unfold gettoken. rewrite bind_get. pose proof (skip_ws_range b s Hs) as Hr.
  unfold scan. destruct (Z.eqb_spec (at_ b (skip_ws b s)) 0) as [E|E]; [intros [=]|].
  destruct (has [124; 40; 41; 59; 38; 60] (at_ b (skip_ws b s))) eqn:E1.
  { intros [= H _ _]. by rewrite H in E1. }
  destruct (Z.eqb_spec (at_ b (skip_ws b s)) 62); [by destruct (at_ b (S (skip_ws b s)) =? 62)|].
  intros [= <- _]. unfold word_ok. simpl.
  pose proof (skip_length wordchar (drop (skip_ws b s) b)) as Hl. rewrite length_drop in Hl. unfold es in *.
  split; [lia|]. split.
  - intros i Hi. destruct (skip_all wordchar (drop (skip_ws b s) b) (i - skip_ws b s)) as (c & Hc & Hw); [lia|].
    rewrite lookup_drop in Hc. exists c. split; [|done]. by replace (skip_ws b s + (i - skip_ws b s))%nat with i in Hc by lia.
  - intros c Hc. apply (skip_stop wordchar (drop (skip_ws b s) b)). by rewrite lookup_drop.
Qed.

Lemma stream_word s w ts : stream s ((97, w) :: ts) -> word_ok b w.
Proof. intros Hs. inversion Hs; subst. by eapply gettoken_word. Qed.

Lemma stream_range s ts : stream s ts -> (s <= es b)%nat.
Proof. by inversion 1. Qed.

(** Every token takes a character. *)
Lemma stream_length s ts : stream s ts -> (length ts <= es b - s)%nat.
Proof using Hb.
  induction 1 as [s Hs Ha|s t s' ts Hs He Hk Hs' IH]; simpl; [lia|].
  destruct (gettoken_range b Hb s Hs) as (k & q & e & s1 & He1 & H1 & H2 & H3 & H4).
  rewrite He in He1. injection He1 as -> ->. specialize (H4 Hk). lia.
Qed.

(** The tokens [lex] finds. *)
Lemma lex_stream fuel : forall s, (s <= es b)%nat -> (es b - s < fuel)%nat -> stream s (lex b fuel s).
Proof using Hb.
  induction fuel as [|fuel IH]; intros s Hs Hf; [lia|]. simpl.
  destruct (gettoken_range b Hb s Hs) as (k & q & e & s' & He & H1 & H2 & H3 & H4). rewrite He. simpl.
  destruct (Z.eqb_spec k 0) as [->|Hk].
  - constructor; [done|]. by apply H3.
  - econstructor; [done|done|done|]. specialize (H4 Hk). apply IH; lia.
Qed.

(** The run [r] reads the tokens up to [rest] and returns a command whose strings are
    those of [C]. *)
Definition accepts (r : res nat (cmd span)) (rest : list (tok (list Z))) (C : cmd (list Z)) : Prop :=
  exists c s' ts, r = Ret c s' /\ stream s' ts /\ tok_of b <$> ts = rest /\
    cmd_map (text b) c = C /\ cmd_all (word_ok b) c.

(** [m] continues a command whose strings are those of [C0]. *)
Definition extends (m : cmd span -> M nat (cmd span)) (s : nat) rest (C0 C : cmd (list Z)) : Prop :=
  forall c, cmd_map (text b) c = C0 -> cmd_all (word_ok b) c -> accepts (m c s) rest C.

Lemma peek_tokens toks s ts x :
  stream s ts -> tok_of b <$> ts = x -> forallb (has symbols) toks = true ->
  exists s', stream s' ts /\
    forall (B : Type) (f : bool -> M nat B), bind (peek b toks) f s = f (starts toks x) s'.
Proof.
  intros Hs <- Ht. destruct (peek_stream toks s ts Hs Ht) as (s' & He & Hs').
  exists s'. split; [done|]. intros B f. by rewrite (bind_Ret _ _ _ _ _ He).
Qed.

Lemma gettoken_sym s ts k rest :
  stream s ts -> tok_of b <$> ts = Sym k :: rest ->
  exists w s' ts', ts = (k, w) :: ts' /\ k <> 97 /\ stream s' ts' /\ tok_of b <$> ts' = rest /\
    forall (B : Type) (f : Z * span -> M nat B), bind (gettoken b) f s = f (k, w) s'.
Proof.
  intros Hs Ht. destruct ts as [|[k' w] ts]; [done|]. injection Ht as Hk Ht.
  unfold tok_of in Hk. simpl in Hk. destruct (Z.eqb_spec k' 97); [done|]. injection Hk as ->.
  destruct (gettoken_stream s _ _ Hs) as (s' & He & Hs'). exists w, s', ts.
  do 4 (split; [done|]). intros B f. by rewrite (bind_Ret _ _ _ _ _ He).
Qed.

Lemma gettoken_wordtok s ts x rest :
  stream s ts -> tok_of b <$> ts = Word x :: rest ->
  exists w s' ts', text b w = x /\ word_ok b w /\ stream s' ts' /\ tok_of b <$> ts' = rest /\
    forall (B : Type) (f : Z * span -> M nat B), bind (gettoken b) f s = f (97, w) s'.
Proof.
  intros Hs Ht. destruct ts as [|[k' w] ts]; [done|]. injection Ht as Hk Ht.
  unfold tok_of in Hk. simpl in Hk. destruct (Z.eqb_spec k' 97) as [->|]; [|done]. injection Hk as Hk.
  pose proof (stream_word _ _ _ Hs) as Hw.
  destruct (gettoken_stream s _ _ Hs) as (s' & He & Hs'). exists w, s', ts.
  do 4 (split; [done|]). intros B f. by rewrite (bind_Ret _ _ _ _ _ He).
Qed.

Lemma redirs_accept rs : wf_redirs rs -> forall rest C s ts fuel,
  stream s ts -> tok_of b <$> ts = yield_redirs rs ++ rest -> starts [60; 62] rest = false ->
  (length rs < fuel)%nat -> extends (parseredirs b fuel) s rest C (with_redirs rs C).
Proof.
  unfold wf_redirs. induction rs as [|[k x] rs IH]; intros Hwf rest C s ts fuel Hs Ht Hr Hf c Hc Hok;
    (destruct fuel as [|fuel]; [simpl in Hf; lia|]); cbn [parseredirs]; simpl in Ht.
  - destruct (peek_tokens [60; 62] s ts _ Hs Ht eq_refl) as (s1 & Hs1 & ->).
    rewrite Hr. by exists c, s1, ts.
  - apply Forall_cons in Hwf as [Hk Hwf]. simpl in Hk.
    destruct (peek_tokens [60; 62] s ts _ Hs Ht eq_refl) as (s1 & Hs1 & ->).
    assert (starts (A := list Z) [60; 62] (Sym k :: Word x :: yield_redirs rs ++ rest) = true) as ->.
    { by destruct Hk as [->|[->| ->]]. }
    cbn [negb]. destruct (gettoken_sym s1 ts _ _ Hs1 Ht) as (w1 & s2 & ts2 & -> & _ & Hs2 & Ht2 & ->).
    destruct (gettoken_wordtok s2 ts2 _ _ Hs2 Ht2) as (w2 & s3 & ts3 & Hx & Hw & Hs3 & Ht3 & ->).
    cbn [fst snd]. rewrite Z.eqb_refl. cbn [negb].
    assert ((if k =? 60 then REDIR c w2 O_RDONLY 0
             else if k =? 62 then REDIR c w2 (Z.lor O_WRONLY O_CREATE) 1
             else if k =? 43 then REDIR c w2 (Z.lor O_WRONLY O_CREATE) 1 else c) =
            REDIR c w2 (redir_mode k) (redir_fd k)) as ->.
    { by destruct Hk as [->|[->| ->]]. }
    apply (IH Hwf rest (REDIR C x (redir_mode k) (redir_fd k)) s3 ts3 fuel); try done; [simpl in Hf; lia|].
    simpl. by rewrite Hc, Hx.
Qed.

Lemma add_arg_map w c : cmd_map (text b) (add_arg w c) = add_arg (text b w) (cmd_map (text b) c).
Proof. induction c; simpl; try done; [by rewrite fmap_app|congruence]. Qed.

Lemma add_arg_all w c : word_ok b w -> cmd_all (word_ok b) c -> cmd_all (word_ok b) (add_arg w c).
Proof.
  intros Hw. induction c; simpl; try done.
  - intros H. apply Forall_app. split; [done|]. by constructor.
  - intros [H1 H2]. split; [auto|done].
Qed.

Lemma args_accept args : Forall (fun a => wf_redirs (snd a)) args -> forall rest argc argv rs s ts fuel,
  stream s ts -> tok_of b <$> ts = yield_args args ++ rest -> next_in [124; 38; 59; 41] rest ->
  (length (yield_args args) < fuel)%nat -> (argc + length args < MAXARGS)%nat ->
  extends (parseargs b fuel argc) s rest (with_redirs rs (EXEC argv))
    (with_redirs (rs ++ (args ≫= snd)) (EXEC (argv ++ (fst <$> args)))).
Proof.
  induction args as [|[x xs] args IH]; intros Hwf rest argc argv rs s ts fuel Hs Ht Hr Hf Hn c Hc Hok;
    (destruct fuel as [|fuel]; [simpl in Hf; lia|]); cbn [parseargs]; simpl in Ht.
  - rewrite !app_nil_r.
    destruct (peek_tokens [124; 41; 38; 59] s ts _ Hs Ht eq_refl) as (s1 & Hs1 & ->).
    destruct rest as [|[k|w] rest]; simpl in Hr; [| |done].
    + simpl. apply fmap_nil_inv in Ht as ->. destruct (gettoken_end s1 Hs1) as (w & s2 & He & Hs2).
      rewrite (bind_Ret _ _ _ _ _ He). simpl. by exists c, s2, [].
    + assert (starts (A := list Z) [124; 41; 38; 59] (Sym k :: rest) = true) as ->.
      { rewrite !elem_of_cons in Hr. do 4 (destruct Hr as [->|Hr]; [done|]). by apply elem_of_nil in Hr. }
      by exists c, s1, ts.
  - apply Forall_cons in Hwf as [Hx Hwf]. simpl in Hx.
    destruct (peek_tokens [124; 41; 38; 59] s ts _ Hs Ht eq_refl) as (s1 & Hs1 & ->).
    cbn [starts].
    destruct (gettoken_wordtok s1 ts _ _ Hs1 Ht) as (w & s2 & ts2 & Hw & Hwok & Hs2 & Ht2 & ->).
    cbn [fst snd]. change (97 =? 0) with false. change (97 =? 97) with true. cbn [negb].
    simpl in Hn, Hf. rewrite length_app in Hf.
    destruct (Nat.leb_spec MAXARGS (S argc)); [lia|]. rewrite <- app_assoc in Ht2.
    destruct (redirs_accept xs Hx (yield_args args ++ rest) (with_redirs rs (EXEC (argv ++ [x]))) s2 ts2 fuel
      Hs2 Ht2) with (c := add_arg w c) as (c2 & s3 & ts3 & He & Hs3 & Ht3 & Hc3 & Hok3).
    + destruct args as [|[y ys] args]; [|done]. simpl. eapply starts_next; [exact Hr|].
      intros k Hk. rewrite !elem_of_cons in Hk. do 4 (destruct Hk as [->|Hk]; [done|]). by apply elem_of_nil in Hk.
    + pose proof (yield_redirs_length xs). lia.
    + by rewrite add_arg_map, Hc, Hw, add_arg_redirs.
    + by apply add_arg_all.
    + rewrite (bind_Ret _ _ _ _ _ He).
      replace (with_redirs (rs ++ (((x, xs) :: args) ≫= snd)) (EXEC (argv ++ (fst <$> (x, xs) :: args))))
        with (with_redirs ((rs ++ xs) ++ (args ≫= snd)) (EXEC ((argv ++ [x]) ++ (fst <$> args)))).
      2:{ simpl. by rewrite <- !app_assoc. }
      apply (IH Hwf rest (S argc) _ _ s3 ts3 fuel); try done; [lia|lia|]. by rewrite with_redirs_app.
Qed.

Lemma backs_accept n : forall rest C s ts fuel,
  stream s ts -> tok_of b <$> ts = repeat (Sym 38) n ++ rest -> starts [38] rest = false ->
  (n < fuel)%nat -> extends (parsebacks b fuel) s rest C (with_backs n C).
Proof.
  induction n as [|n IH]; intros rest C s ts fuel Hs Ht Hr Hf c Hc Hok;
    (destruct fuel as [|fuel]; [lia|]); cbn [parsebacks]; simpl in Ht;
    destruct (peek_tokens [38] s ts _ Hs Ht eq_refl) as (s1 & Hs1 & ->).
  - rewrite Hr. by exists c, s1, ts.
  - change (starts [38] _) with true. cbv iota.
    destruct (gettoken_sym s1 ts _ _ Hs1 Ht) as (w1 & s2 & ts2 & -> & _ & Hs2 & Ht2 & ->).
    rewrite <- with_backs_S. apply (IH rest (BACK C) s2 ts2 fuel); try done; [lia|]. simpl. by rewrite Hc.
Qed.

Lemma accepts_bind r (f : cmd span -> M nat (cmd span)) rest C rest' C' :
  accepts r rest C ->
  (forall c s ts, stream s ts -> tok_of b <$> ts = rest -> cmd_map (text b) c = C -> cmd_all (word_ok b) c ->
     accepts (f c s) rest' C') ->
  accepts (bindR r f) rest' C'.
Proof. intros (c & s & ts & -> & Hs & Ht & Hc & Ho) Hf. simpl. by apply (Hf c s ts). Qed.

Lemma next_backs n rest : next_in [59; 41] rest -> next_in [38; 59; 41] (repeat (Sym 38) n ++ rest : list (tok (list Z))).
Proof. destruct n; simpl; [|intros _; set_solver]. apply next_in_mono. set_solver. Qed.

Ltac in_cases H := rewrite !elem_of_cons in H; repeat (destruct H as [->|H]; [done|]); by apply elem_of_nil in H.

Lemma starts_not ks toks (rest : list (tok (list Z))) : next_in ks rest ->
  forallb (fun k => negb (has toks (first_char k))) ks = true -> starts toks rest = false.
Proof.
  intros Hn Hk. apply (starts_next ks); [done|]. intros k Hin. rewrite forallb_forall in Hk.
  apply negb_true_iff, Hk. by apply list_elem_of_In.
Qed.

(** What the three functions of the parser accept. *)
Definition line_ok (l : gline (list Z)) : Prop := wf_line l -> forall rest s ts fuel,
  stream s ts -> tok_of b <$> ts = yield_line l ++ rest -> next_in [41] rest ->
  (4 * length ts + 4 <= fuel)%nat -> accepts (parseline b fuel s) rest (build_line l).
Definition pipe_ok (p : gpipe (list Z)) : Prop := wf_pipe p -> forall rest s ts fuel,
  stream s ts -> tok_of b <$> ts = yield_pipe p ++ rest -> next_in [38; 59; 41] rest ->
  (4 * length ts + 3 <= fuel)%nat -> accepts (parsepipe b fuel s) rest (build_pipe p).
Definition exec_ok (e : gexec (list Z)) : Prop := wf_exec e -> forall rest s ts fuel,
  stream s ts -> tok_of b <$> ts = yield_exec e ++ rest -> next_in [124; 38; 59; 41] rest ->
  (4 * length ts + 2 <= fuel)%nat -> accepts (parseexec b fuel s) rest (build_exec e).

Ltac tok_len Ht :=
  let H := fresh "Hlen" in
  pose proof (f_equal length Ht) as H; rewrite length_fmap in H; simpl in H;
  repeat (progress (rewrite ?length_app, ?repeat_length in H; simpl in H)).

(** The pipeline of a line and its '&'s. *)
Lemma pipe_backs_accept p n rest s ts fuel f rest' C : pipe_ok p -> wf_pipe p -> stream s ts ->
  tok_of b <$> ts = yield_pipe p ++ repeat (Sym 38) n ++ rest -> next_in [59; 41] rest ->
  (4 * length ts + 3 <= fuel)%nat ->
  (forall c s ts, stream s ts -> tok_of b <$> ts = rest -> cmd_map (text b) c = with_backs n (build_pipe p) ->
     cmd_all (word_ok b) c -> accepts (f c s) rest' C) ->
  accepts ((c <- parsepipe b fuel ;; c <- parsebacks b fuel c ;; f c) s) rest' C.
Proof.
  intros Hp Hwf Hs Ht Hr Hf Hn.
  eapply accepts_bind; [apply (Hp Hwf _ s ts); [done|exact Ht|by apply next_backs|lia]|].
  intros c s1 ts1 Hs1 Ht1 Hc Hok. cbv beta. tok_len Ht. tok_len Ht1.
  eapply accepts_bind; [eapply (backs_accept n); [done|exact Ht1|by eapply starts_not|lia|done|done]|exact Hn].
Qed.

Lemma line_case p n : pipe_ok p -> line_ok (Line p n).
Proof.
  intros Hp Hwf rest s ts fuel Hs Ht Hr Hf. destruct fuel as [|fuel]; [lia|]. cbn [parseline].
  simpl in Ht. rewrite <- app_assoc in Ht.
  eapply pipe_backs_accept; [exact Hp|done|done|exact Ht| |lia|].
  { eapply next_in_mono; [|exact Hr]. set_solver. }
  intros c2 s2 ts2 Hs2 Ht2 Hc2 Hok2.
  destruct (peek_tokens [59] s2 ts2 _ Hs2 Ht2 eq_refl) as (s3 & Hs3 & ->).
  rewrite (starts_not [41]) by done. by exists c2, s3, ts2.
Qed.

Lemma seq_case p n l : pipe_ok p -> line_ok l -> line_ok (Seq p n l).
Proof.
  intros Hp IH [Hwf Hwfl] rest s ts fuel Hs Ht Hr Hf. destruct fuel as [|fuel]; [lia|]. cbn [parseline].
  simpl in Ht. rewrite <- !app_assoc in Ht. tok_len Ht.
  eapply pipe_backs_accept; [exact Hp|done|done|exact Ht|simpl; set_solver|lia|].
  intros c2 s2 ts2 Hs2 Ht2 Hc2 Hok2. simpl in Ht2. tok_len Ht2.
  destruct (peek_tokens [59] s2 ts2 _ Hs2 Ht2 eq_refl) as (s3 & Hs3 & ->).
  change (starts [59] _) with true. cbv iota.
  destruct (gettoken_sym s3 ts2 _ _ Hs3 Ht2) as (w & s4 & ts4 & -> & _ & Hs4 & Ht4 & ->). simpl in Hlen0.
  eapply accepts_bind; [apply (IH Hwfl rest s4 ts4 fuel); [done|done|done|lia]|].
  intros c5 s5 ts5 Hs5 Ht5 Hc5 Hok5. exists (LIST c2 c5), s5, ts5. simpl. by rewrite Hc2, Hc5.
Qed.

Lemma last_case e : exec_ok e -> pipe_ok (Last e).
Proof.
  intros He Hwf rest s ts fuel Hs Ht Hr Hf. destruct fuel as [|fuel]; [lia|]. cbn [parsepipe].
  eapply accepts_bind; [apply (He Hwf rest s ts fuel); [done|done| |lia]|].
  { eapply next_in_mono; [|exact Hr]. set_solver. }
  intros c s1 ts1 Hs1 Ht1 Hc Hok.
  destruct (peek_tokens [124] s1 ts1 _ Hs1 Ht1 eq_refl) as (s2 & Hs2 & ->).
  rewrite (starts_not [38; 59; 41]) by done. by exists c, s2, ts1.
Qed.

Lemma bar_case e p : exec_ok e -> pipe_ok p -> pipe_ok (Bar e p).
Proof.
  intros He IH [Hwf Hwfp] rest s ts fuel Hs Ht Hr Hf. destruct fuel as [|fuel]; [lia|]. cbn [parsepipe].
  simpl in Ht. rewrite <- !app_assoc in Ht. simpl in Ht. tok_len Ht.
  eapply accepts_bind; [apply (He Hwf _ s ts fuel); [done|exact Ht|simpl; set_solver|lia]|].
  intros c s1 ts1 Hs1 Ht1 Hc Hok. tok_len Ht1.
  destruct (peek_tokens [124] s1 ts1 _ Hs1 Ht1 eq_refl) as (s2 & Hs2 & ->).
  change (starts [124] _) with true. cbv iota.
  destruct (gettoken_sym s2 ts1 _ _ Hs2 Ht1) as (w & s4 & ts4 & -> & _ & Hs4 & Ht4 & ->). simpl in Hlen0.
  eapply accepts_bind; [apply (IH Hwfp rest s4 ts4 fuel); [done|done|done|lia]|].
  intros c5 s5 ts5 Hs5 Ht5 Hc5 Hok5. exists (PIPE c c5), s5, ts5. simpl. by rewrite Hc, Hc5.
Qed.

Lemma block_case l rs : line_ok l -> exec_ok (Block l rs).
Proof.
  intros IH [Hwf Hwfr] rest s ts fuel Hs Ht Hr Hf. destruct fuel as [|fuel]; [lia|]. cbn [parseexec].
  simpl in Ht. rewrite <- !app_assoc in Ht. simpl in Ht. tok_len Ht.
  destruct (peek_tokens [40] s ts _ Hs Ht eq_refl) as (s1 & Hs1 & ->).
  change (starts [40] _) with true. cbv iota. destruct fuel as [|fuel]; [lia|]. cbn [parseblock].
  destruct (peek_tokens [40] s1 ts _ Hs1 Ht eq_refl) as (s2 & Hs2 & ->).
  change (starts [40] _) with true. cbn [negb].
  destruct (gettoken_sym s2 ts _ _ Hs2 Ht) as (w & s3 & ts3 & -> & _ & Hs3 & Ht3 & ->). simpl in Hf, Hlen.
  eapply accepts_bind; [apply (IH Hwf _ s3 ts3 fuel); [done|exact Ht3|simpl; set_solver|lia]|].
  intros c s4 ts4 Hs4 Ht4 Hc Hok. tok_len Ht4.
  destruct (peek_tokens [41] s4 ts4 _ Hs4 Ht4 eq_refl) as (s5 & Hs5 & ->).
  change (starts [41] _) with true. cbn [negb].
  destruct (gettoken_sym s5 ts4 _ _ Hs5 Ht4) as (w6 & s6 & ts6 & -> & _ & Hs6 & Ht6 & ->). simpl in Hlen0.
  pose proof (yield_redirs_length rs).
  apply (redirs_accept rs Hwfr rest (build_line l) s6 ts6 fuel); try done; [by eapply starts_not|lia].
Qed.

Lemma simple_case rs args : exec_ok (Simple rs args).
Proof.
  intros (Hwf & Hwfa & Hn) rest s ts fuel Hs Ht Hr Hf. destruct fuel as [|fuel]; [lia|]. cbn [parseexec].
  assert (starts [40] (yield_exec (Simple rs args) ++ rest) = false) as Hno.
  { destruct rs as [|[k x] rs].
    - destruct args as [|a args]; simpl; [|done]. by eapply starts_not.
    - apply Forall_cons in Hwf as [Hk _]. simpl in Hk. by destruct Hk as [->|[->| ->]]. }
  destruct (peek_tokens [40] s ts _ Hs Ht eq_refl) as (s1 & Hs1 & ->). rewrite Hno.
  simpl in Ht. rewrite <- app_assoc in Ht. tok_len Ht. pose proof (yield_redirs_length rs).
  eapply accepts_bind.
  - apply (redirs_accept rs Hwf (yield_args args ++ rest) (EXEC []) s1 ts fuel); try done; [|lia|constructor].
    destruct args as [|a args]; [|done]. by eapply starts_not.
  - intros c s2 ts2 Hs2 Ht2 Hc Hok.
    apply (args_accept args Hwfa rest 0 [] rs s2 ts2 fuel); try done. lia.
Qed.

Lemma parse_accept l : line_ok l.
Proof.
  apply (gline_mut (list Z) line_ok pipe_ok exec_ok);
    auto using line_case, seq_case, last_case, bar_case, block_case, simple_case.
Qed.

End Streams.

(** ** Terminated strings *)

Section Terminate.
Context (b : list Z) (Hb : 0 ∉ b).

(** The buffer [buf] is the line with NULs only where no word goes on. *)
Definition cut (buf : list Z) : Prop :=
  length buf = S (length b) /\
  forall i, (buf !! i = (b ++ [0]) !! i) \/
    (buf !! i = Some 0 /\ forall c, b !! i = Some c -> wordchar c = false).

Lemma cut_insert buf w : word_ok b w -> cut buf ->
  cut (<[snd w := 0]> buf) /\ (<[snd w := 0]> buf) !! snd w = Some 0 /\
  (forall i, buf !! i = Some 0 -> (<[snd w := 0]> buf) !! i = Some 0).
Proof.
  intros (Hw & _ & He) [Hl Hi]. unfold es in Hw.
  assert ((<[snd w := 0]> buf) !! snd w = Some 0) as H0 by (apply list_lookup_insert_eq; lia).
  split; [|split; [done|]].
  - split; [by rewrite length_insert|]. intros i. destruct (decide (i = snd w)) as [->|Hne].
    + right. split; [done|]. exact He.
    + rewrite list_lookup_insert_ne by done. apply Hi.
  - intros i Hbi. destruct (decide (i = snd w)) as [->|Hne]; [done|]. by rewrite list_lookup_insert_ne.
Qed.

(** Terminating keeps the NULs that are there and puts one after each string. *)
Definition terminates (c : cmd span) : Prop := forall buf, cut buf ->
  cut (nulterminate c buf) /\ (forall i, buf !! i = Some 0 -> nulterminate c buf !! i = Some 0) /\
  cmd_all (fun w => nulterminate c buf !! snd w = Some 0) c.

Lemma cmd_all_mono {A : Type} (P Q : A -> Prop) c : (forall w, P w -> Q w) -> cmd_all P c -> cmd_all Q c.
Proof.
  intros HPQ. induction c; simpl; try tauto; [|by intros [? ?]; auto..].
  intros H. eapply Forall_impl; eauto.
Qed.

Lemma terminate_args argv : Forall (word_ok b) argv -> terminates (EXEC argv).
Proof.
  unfold terminates. simpl. induction 1 as [|w argv Hw _ IH]; intros buf Hc; simpl; [by split; [|split]|].
  destruct (cut_insert buf w Hw Hc) as (H1 & H2 & H3). destruct (IH _ H1) as (H4 & H5 & H6).
  split; [done|]. split; [auto|]. constructor; auto.
Qed.

Lemma nulterminate_ok c : cmd_all (word_ok b) c -> terminates c.
Proof.
  induction c as [argv|c IH file mode fd|l IHl r IHr|l IHl r IHr|c IH]; simpl.
  - apply terminate_args.
  - intros [Hc Hf] buf Hb0. destruct (IH Hc buf Hb0) as (H1 & H2 & H3). simpl.
    destruct (cut_insert _ file Hf H1) as (H4 & H5 & H6). split; [done|]. split; [auto|].
    split; [|done]. eapply cmd_all_mono; [|exact H3]. auto.
  - intros [Hl Hr] buf Hb0. destruct (IHl Hl buf Hb0) as (H1 & H2 & H3).
    destruct (IHr Hr _ H1) as (H4 & H5 & H6). split; [done|]. split; [auto|].
    simpl. split; [|done]. eapply cmd_all_mono; [|exact H3]. auto.
  - intros [Hl Hr] buf Hb0. destruct (IHl Hl buf Hb0) as (H1 & H2 & H3).
    destruct (IHr Hr _ H1) as (H4 & H5 & H6). split; [done|]. split; [auto|].
    simpl. split; [|done]. eapply cmd_all_mono; [|exact H3]. auto.
  - intros Hc buf Hb0. exact (IH Hc buf Hb0).
Qed.

Lemma cstring_take n : forall l, (forall i, (i < n)%nat -> exists c, l !! i = Some c /\ c <> 0) ->
  l !! n = Some 0 -> cstring l = take n l.
Proof.
  induction n as [|n IH]; intros l Hi Hn; (destruct l as [|c l]; [done|]); simpl in *.
  - injection Hn as ->. done.
  - destruct (Hi O ltac:(lia)) as (c' & [= <-] & Hc). destruct (Z.eqb_spec c 0); [done|]. f_equal.
    apply IH; [|done]. intros i Hlt. apply (Hi (S i)). lia.
Qed.

(** A string of the command is the word it was scanned from. *)
Lemma cstring_text buf w : cut buf -> word_ok b w -> buf !! snd w = Some 0 ->
  cstring (drop (fst w) buf) = text b w.
Proof using Hb.
  intros [Hl Hi] (Hw & Hc & _) H0. unfold text, es in *.
  assert (forall i, (fst w <= i < snd w)%nat -> exists c, buf !! i = Some c /\ b !! i = Some c /\ c <> 0) as Hsame.
  { intros i Hr. destruct (Hc i Hr) as (c & Hbc & Hwc). exists c. split; [|split; [done|]].
    - destruct (Hi i) as [He|[_ He]]; [|specialize (He c Hbc); congruence].
      rewrite He. by apply lookup_app_l_Some.
    - intros ->. apply Hb. by eapply list_elem_of_lookup_2. }
  rewrite (cstring_take (snd w - fst w)).
  - apply list_eq. intros i. destruct (decide (i < snd w - fst w)%nat) as [Hlt|Hge].
    + rewrite !lookup_take_lt, !lookup_drop by done.
      destruct (Hsame (fst w + i)%nat ltac:(lia)) as (c & -> & -> & _). done.
    + rewrite !lookup_take_ge by lia. done.
  - intros i Hlt. rewrite lookup_drop. destruct (Hsame (fst w + i)%nat ltac:(lia)) as (c & Hc1 & _ & Hn). eauto.
  - rewrite lookup_drop. by replace (fst w + (snd w - fst w))%nat with (snd w) by lia.
Qed.

Lemma cmd_map_ext {A B : Type} (P : A -> Prop) (f g : A -> B) c :
  cmd_all P c -> (forall w, P w -> f w = g w) -> cmd_map f c = cmd_map g c.
Proof.
  intros Hc Hfg. induction c; simpl in *.
  - f_equal. apply list_fmap_ext. intros i w Hw. apply Hfg. by eapply Forall_lookup_1.
  - destruct Hc as [H1 H2]. rewrite IHc, (Hfg _ H2) by done. done.
  - destruct Hc. by rewrite IHc1, IHc2.
  - destruct Hc. by rewrite IHc1, IHc2.
  - by rewrite IHc.
Qed.

Lemma cmd_all_and {A : Type} (P Q : A -> Prop) c :
  cmd_all P c -> cmd_all Q c -> cmd_all (fun w => P w /\ Q w) c.
Proof. induction c; simpl; try tauto. rewrite !Forall_forall. auto. Qed.

Lemma strings_text c : cmd_all (word_ok b) c ->
  strings_in (nulterminate c (b ++ [0])) c = cmd_map (text b) c.
Proof using Hb.
  intros Hc. destruct (nulterminate_ok c Hc (b ++ [0])) as (H1 & _ & H3).
  { split; [rewrite length_app; simpl; lia|]. intros i. by left. }
  eapply cmd_map_ext; [apply (cmd_all_and _ _ _ Hc H3)|]. intros w [Hw H0]. by apply cstring_text.
Qed.

End Terminate.

(** ** What a command line runs

    The programs that a process and its children start when no system call fails, each
    with the open files it starts with.  As in the kernel a new descriptor is the
    lowest free one, and a child gets a copy of its parent's table. *)

Inductive fobj := Tty | OpenFile (file : list Z) (mode : Z) | PipeRead (id : nat) | PipeWrite (id : nat).

Definition fdtable : Type := list (option fobj).

Fixpoint lowest (t : fdtable) : option nat :=
  match t with
  | [] => None
  | None :: _ => Some O
  | Some _ :: t => S <$> lowest t
  end.

(** The descriptor of a new file, or -1. *)
Definition fd_new (f : fobj) (t : fdtable) : Z * fdtable :=
  match lowest t with
  | Some i => (Z.of_nat i, <[i := Some f]> t)
  | None => (-1, t)
  end.

Definition fd_get (fd : Z) (t : fdtable) : option fobj := t !! Z.to_nat fd ≫= id.

Fixpoint execs (p : prog) (t : fdtable) (id : nat) : list (list (list Z) * fdtable) * nat :=
  match p with
  | Exit => ([], id)
  | Exec argv _ => ([(argv, t)], id)
  | Close fd k => execs k (<[Z.to_nat fd := None]> t) id
  | Open file mode k => let '(fd, t) := fd_new (OpenFile file mode) t in execs (k fd) t id
  | Pipe failed k =>
      let '(p0, t) := fd_new (PipeRead id) t in
      let '(p1, t) := fd_new (PipeWrite id) t in
      execs (k p0 p1) t (S id)
  | Dup fd k =>
      match fd_get fd t with
      | Some f => execs k (fd_new f t).2 id
      | None => execs k t id
      end
  | Fork _ child parent =>
      let '(es1, id) := execs child t id in
      let '(es2, id) := execs parent t id in
      (es1 ++ es2, id)
  | Wait k => execs k t id
  | Chdir _ _ k => execs k t id
  | Write _ _ k => execs k t id
  end.

(** A process with files on its first three descriptors. *)
Definition fds (f0 f1 f2 : fobj) : fdtable := [Some f0; Some f1; Some f2] ++ repeat None 13.

Fixpoint pipeline (a : list (list Z)) (rest : list (list (list Z))) : cmd (list Z) :=
  match rest with
  | [] => EXEC a
  | a' :: rest => PIPE (EXEC a) (pipeline a' rest)
  end.

(** Each program of a pipeline reads what the one before it writes. *)
Fixpoint stages (f0 f1 f2 : fobj) (a : list (list Z)) (rest : list (list (list Z))) (id : nat) :
    list (list (list Z) * fdtable) :=
  match rest with
  | [] => [(a, fds f0 f1 f2)]
  | a' :: rest => (a, fds f0 (PipeWrite id) f2) :: stages (PipeRead id) f1 f2 a' rest (S id)
  end.

Lemma execs_exec a t id : a <> [] -> execs (runcmd (EXEC a)) t id = ([(a, t)], id).
Proof. by destruct a. Qed.

Lemma execs_pipe l r f0 f1 f2 n :
  execs (runcmd (PIPE l r)) (fds f0 f1 f2) n =
  let '(es1, n1) := execs (runcmd l) (fds f0 (PipeWrite n) f2) (S n) in
  let '(es2, n2) := execs (runcmd r) (fds (PipeRead n) f1 f2) n1 in (es1 ++ es2, n2).
Proof.
  cbn [runcmd]. generalize (runcmd l) (runcmd r). intros pl pr.
  transitivity (let '(es1, n1) := execs pl (fds f0 (PipeWrite n) f2) (S n) in
    let '(es2, n2) := (let '(es2, n2) := execs pr (fds (PipeRead n) f1 f2) n1 in (es2 ++ [], n2)) in
    (es1 ++ es2, n2)); [reflexivity|].
  destruct (execs pl _ _) as [es1 n1]. destruct (execs pr _ _) as [es2 n2]. by rewrite app_nil_r.
Qed.

Lemma pipeline_stages f1 f2 rest : forall a f0 id, Forall (fun a => a <> []) (a :: rest) ->
  execs (runcmd (pipeline a rest)) (fds f0 f1 f2) id = (stages f0 f1 f2 a rest id, (id + length rest)%nat).
Proof.
  induction rest as [|a' rest IH]; intros a f0 id Ha; apply Forall_cons in Ha as [Ha Hrest].
  - simpl pipeline. rewrite execs_exec by done. by rewrite Nat.add_0_r.
  - simpl pipeline. rewrite execs_pipe, execs_exec by done. rewrite IH by done. simpl.
    by replace (id + S (length rest))%nat with (S (id + length rest)) by lia.
Qed.

(** ** Theorems *)

(** C34: the parser comes to an end on every command line: it returns a command having
    read the whole line, or it reports a syntax error; it neither loops nor reads
    outside the line. *)
Theorem parse_terminates (b : list Z) : 0 ∉ b ->
  (exists c, parse b (4 * length b + 4) 0%nat = Ret c (length b)) \/
  (exists msg, parse b (4 * length b + 4) 0%nat = Panic msg).
Proof.
  intros Hb. pose proof (parse_ends b Hb) as He. unfold es in He.
  destruct (parse b (4 * length b + 4) 0%nat) as [c s|msg| | | | |]; simpl in He; try done.
  - left. exists c. by rewrite He.
  - right. by exists msg.
Qed.

(** "a | ( b" *)
Lemma parse_terminates_witness :
  (exists c, parse (bytes_of "a | ( b") 32 0%nat = Ret c 7%nat) \/
  (exists msg, parse (bytes_of "a | ( b") 32 0%nat = Panic msg).
Proof.
  apply (parse_terminates (bytes_of "a | ( b")). simpl. rewrite !not_elem_of_cons.
  repeat split; try lia. apply not_elem_of_nil.
Defined.



(** C35: a pipeline is wired as it is written: every program starts with its standard
    input on the pipe the program before it writes to and its standard output on the
    pipe the next one reads, the outer ends are the shell's, and no other descriptor
    of a pipe stays open in any of them, so that readers see the end of their input. *)
Theorem pipeline_wiring (f0 f1 f2 : fobj) (a : list (list Z)) (rest : list (list (list Z))) (n : nat) :
  Forall (fun a => a <> []) (a :: rest) ->
  execs (runcmd (pipeline a rest)) (fds f0 f1 f2) n = (stages f0 f1 f2 a rest n, (n + length rest)%nat).
Proof. apply pipeline_stages. Qed.

(** "a | b | c" *)
Lemma pipeline_wiring_witness :
  execs (run_line (bytes_of "a | b | c")) (fds Tty Tty Tty) 0 =
  ([([bytes_of "a"], fds Tty (PipeWrite 0) Tty);
    ([bytes_of "b"], fds (PipeRead 0) (PipeWrite 1) Tty);
    ([bytes_of "c"], fds (PipeRead 1) Tty Tty)], 2%nat).
Proof.
  apply (pipeline_wiring Tty Tty Tty [bytes_of "a"] [[bytes_of "b"]; [bytes_of "c"]] 0).
  repeat (apply Forall_cons_2; [done|]). apply Forall_nil_2.
Defined.
