(* ===== verification/Comp.v ===== *)
(** * Components of the kernel

    The frame in which the components below proc.c are modelled: pipes, the buffer
    cache, the log, the file system.

    - A [cell] is a variable inside a state: a field, an array element, a field of an
      array element.  Reading it through a pointer that is not valid is a fault.
    - [Part X S]: the state [X] of a component is a part of the state [S] of the
      kernel, apart from the machine.
    - [Procs S]: what proc.c offers to the other components, as its interface;
      [ProcsLaws] is what they rely on while they do not sleep.
    - [runs]: the code of a component, executed by a process, returns with a given
      result and leaves its component in a given state, whatever the rest of the
      kernel is. *)

From stdpp Require Import base tactics list sets strings.
From Stdlib Require Import ZArith Lia.
From S2P Require Import Prelude Params Spinlock ProcState.
Open Scope Z_scope.

(** ** Cells *)

Record cell (X Y : Type) := mkCell { cget : X -> option Y; cset : Y -> X -> X }.
Arguments mkCell {X Y}.
Arguments cget {X Y}.
Arguments cset {X Y}.

Class CellLaws {X Y : Type} (c : cell X Y) := {
  cget_cset : forall y y0 x, cget c x = Some y0 -> cget c (cset c y x) = Some y;
  cset_cset : forall y y' x, cset c y (cset c y' x) = cset c y x;
  cset_same : forall y x, cget c x = Some y -> cset c y x = x
}.

(** A field of a structure. *)
Definition field {X Y : Type} (g : X -> Y) (st : Y -> X -> X) : cell X Y := mkCell (fun x => Some (g x)) st.

(** An element of an array. *)
Definition elem {Y : Type} (i : nat) : cell (list Y) Y := mkCell (fun l => l !! i) (fun y l => <[i := y]> l).

(** A cell inside a cell. *)
Definition inside {X Y Z : Type} (c : cell X Y) (d : cell Y Z) : cell X Z :=
  mkCell (fun x => cget c x ≫= cget d)
    (fun z x => match cget c x with Some y => cset c (cset d z y) x | None => x end).
Infix "@" := inside (at level 35, right associativity) : kern_scope.

#[global] Instance elem_laws {Y : Type} i : CellLaws (@elem Y i).
Proof.
  constructor; simpl.
  - intros y y0 l Hl. apply list_lookup_insert_eq. by eapply lookup_lt_Some.
  - intros y y' l. apply list_insert_insert_eq.
  - intros y l Hl. by apply list_insert_id.
Qed.

#[global] Instance inside_laws {X Y Z : Type} (c : cell X Y) (d : cell Y Z) :
  CellLaws c -> CellLaws d -> CellLaws (inside c d).
Proof.
  intros Hc Hd. constructor; simpl.
  - intros z z0 x Hx. destruct (cget c x) as [y|] eqn:Hy; [|done]. simpl in Hx.
    rewrite (cget_cset _ y) by done. simpl. by eapply cget_cset.
  - intros z z' x. destruct (cget c x) as [y|] eqn:Hy; [|by rewrite Hy].
    rewrite (cget_cset _ y) by done. by rewrite cset_cset, cset_cset.
  - intros z x Hx. destruct (cget c x) as [y|] eqn:Hy; [|done]. simpl in Hx.
    rewrite (cset_same z y) by done. by apply cset_same.
Qed.

(** ** Parts of the state *)

Class Part (X S : Type) `{HasMach S} := {
  part : S -> X;
  set_part : X -> S -> S;
  part_set : forall x s, part (set_part x s) = x;
  set_part_same : forall s, set_part (part s) s = s;
  set_part_set : forall x y s, set_part x (set_part y s) = set_part x s;
  part_mach : forall m s, part (set_mach m s) = part s;
  mach_part : forall x s, mach_of (set_part x s) = mach_of s;
  set_part_mach : forall x m s, set_part x (set_mach m s) = set_mach m (set_part x s)
}.

Section Cells.
Context {X S : Type} `{PX : Part X S}.

Definition load {Y : Type} (c : cell X Y) : M S Y := x <- gets part ;; deref (cget c x).
Definition store {Y : Type} (c : cell X Y) (y : Y) : M S unit :=
  _ <- load c ;; modify (fun s => set_part (cset c y (part s)) s).
Definition update {Y : Type} (c : cell X Y) (f : Y -> Y) : M S unit :=
  y <- load c ;; modify (fun s => set_part (cset c (f y) (part s)) s).

(** A spinlock in a cell. *)
Definition spin_of (c : cell X spinlock) : lockref S :=
  mkLockref (fun s => cget c (part s)) (fun l s => set_part (cset c l (part s)) s).

#[global] Instance spin_of_laws c : CellLaws c -> LockLaws (spin_of c).
Proof.
  intros Hc. constructor; simpl; intros.
  - rewrite part_set. by eapply cget_cset.
  - by rewrite part_set, set_part_set, cset_cset.
  - rewrite cset_same by done. apply set_part_same.
  - by rewrite part_mach.
  - apply mach_part.
  - by rewrite part_mach, set_part_mach.
Qed.

End Cells.

(** ** The interface of proc.c *)

Class Procs (S : Type) := {
  sleep_on : chan -> lockref S -> M S unit;
  wakeup_on : chan -> M S unit;
  my_pid : M S Z;                             (* myproc()->pid *)
  my_killed : M S Z                           (* myproc()->killed *)
}.

(** [in_proc pid n s]: process [pid] executes, [n] calls of [pushcli] deep, and the
    lock of the process table is free. *)
Class ProcsLaws (X S : Type) `{PX : Part X S} `{PR : Procs S} := {
  in_proc : Z -> Z -> S -> Prop;
  ip_cpu : forall pid n s, in_proc pid n s -> exists cp cq, kcpu 0 (mach_of s) n cp cq /\
    forall m n', kcpu 0 m n' cp cq -> in_proc pid n' (set_mach m s);
  ip_part : forall pid n s x, in_proc pid n s -> in_proc pid n (set_part x s);
  ip_wakeup : forall pid n s c, in_proc pid n s -> shallow n ->
    exists s', wakeup_on c s = Ret tt s' /\ in_proc pid n s' /\ part s' = part s;
  ip_pid : forall pid n s, in_proc pid n s -> shallow n ->
    exists s', my_pid s = Ret pid s' /\ in_proc pid n s' /\ part s' = part s
}.

(** ** Running the code of a component *)

Section Runs.
Context {X S : Type} `{PL : ProcsLaws X S} (pid : Z).

(** Run by process [pid] at depth [n] with the component in state [x], [m] returns
    [a] at depth [n'] and leaves the component in state [x']. *)
Definition runs {A : Type} (n : Z) (m : M S A) (x : X) (n' : Z) (a : A) (x' : X) : Prop :=
  forall s, in_proc pid n s -> part s = x ->
  exists s', m s = Ret a s' /\ in_proc pid n' s' /\ part s' = x'.

(** It panics. *)
Definition panics {A : Type} (n : Z) (m : M S A) (x : X) (msg : string) : Prop :=
  forall s, in_proc pid n s -> part s = x -> m s = Panic msg.

Lemma runs_ret {A : Type} n (a : A) x : runs n (ret a) x n a x.
Proof. intros s Hs Hx. by exists s. Qed.

Lemma runs_bind {A B : Type} n n1 n2 (m : M S A) (f : A -> M S B) x x1 x2 a b :
  runs n m x n1 a x1 -> runs n1 (f a) x1 n2 b x2 -> runs n (bind m f) x n2 b x2.
Proof.
  intros Hm Hf s Hs Hx. destruct (Hm s Hs Hx) as (s1 & He & Hs1 & Hx1).
  destruct (Hf s1 Hs1 Hx1) as (s2 & He2 & Hs2 & Hx2). exists s2.
  by rewrite (bind_Ret _ _ _ _ _ He).
Qed.

(** The first two statements of a sequence as one. *)
Lemma runs_bind_assoc {A B C : Type} n n1 n2 (m : M S A) (f : A -> M S B) (g : B -> M S C) x x1 x2 b c :
  runs n (bind m f) x n1 b x1 -> runs n1 (g b) x1 n2 c x2 ->
  runs n (bind m (fun a => bind (f a) g)) x n2 c x2.
Proof.
  intros Hm Hg s Hs Hx. destruct (Hm s Hs Hx) as (s1 & He & Hs1 & Hx1).
  destruct (Hg s1 Hs1 Hx1) as (s2 & He2 & Hs2 & Hx2). exists s2.
  by rewrite (bind_bind_Ret _ _ _ _ _ _ He).
Qed.

Lemma panics_bind {A B : Type} n n1 (m : M S A) (f : A -> M S B) x x1 a msg :
  runs n m x n1 a x1 -> panics n1 (f a) x1 msg -> panics n (bind m f) x msg.
Proof.
  intros Hm Hf s Hs Hx. destruct (Hm s Hs Hx) as (s1 & He & Hs1 & Hx1).
  rewrite (bind_Ret _ _ _ _ _ He). by apply Hf.
Qed.

Lemma panics_panic {A : Type} n x msg : panics n (panic (A := A) msg) x msg.
Proof. intros s _ _. done. Qed.

Lemma runs_gets {A : Type} n (f : X -> A) x : runs n (gets (fun s => f (part s))) x n (f x) x.
Proof. intros s Hs Hx. exists s. rewrite <- Hx. done. Qed.

Lemma runs_modify n (f : X -> X) x : runs n (modify (fun s => set_part (f (part s)) s)) x n tt (f x).
Proof.
  intros s Hs Hx. eexists. split; [done|]. split; [by apply ip_part|]. by rewrite part_set, Hx.
Qed.

Lemma runs_load {Y : Type} n (c : cell X Y) x y : cget c x = Some y -> runs n (load c) x n y x.
Proof.
  intros Hc. unfold load. eapply runs_bind; [apply (runs_gets n (fun x => x))|]. rewrite Hc. apply runs_ret.
Qed.

Lemma runs_store {Y : Type} n (c : cell X Y) x y0 y : cget c x = Some y0 ->
  runs n (store c y) x n tt (cset c y x).
Proof. intros Hc. eapply runs_bind; [by apply runs_load|]. apply (runs_modify n (cset c y)). Qed.

Lemma runs_update {Y : Type} n (c : cell X Y) x y f : cget c x = Some y ->
  runs n (update c f) x n tt (cset c (f y) x).
Proof. intros Hc. eapply runs_bind; [by apply runs_load|]. apply (runs_modify n (cset c (f y))). Qed.

Lemma runs_acquire n (c : cell X spinlock) `{!CellLaws c} x l : cget c x = Some l -> free_lock l -> shallow n ->
  runs n (acquire (spin_of c)) x (n + 1) tt (cset c (mkLock 1 (lk_name l) (Some 0%nat)) x).
Proof.
  intros Hc Hf Hn s Hs Hx. destruct (ip_cpu _ _ _ Hs) as (cp & cq & Hk & Hm).
  destruct (k_acquire (spin_of c) 0 s n cp cq l Hk Hn) as (m & He & Hk' & _); [by simpl; rewrite Hx|done|].
  eexists. split; [exact He|]. simpl. rewrite part_mach, Hx, part_set. split; [|done].
  apply ip_part. by apply Hm.
Qed.

Lemma runs_release n (c : cell X spinlock) `{!CellLaws c} x l : cget c x = Some l -> held_by 0 l -> shallow n -> 0 < n ->
  runs n (release (spin_of c)) x (n - 1) tt (cset c (mkLock 0 (lk_name l) None) x).
Proof.
  intros Hc Hf Hn Hpos s Hs Hx. destruct (ip_cpu _ _ _ Hs) as (cp & cq & Hk & Hm).
  destruct (k_release (spin_of c) 0 s n cp cq l Hk Hn Hpos) as (m & He & Hk' & _); [by simpl; rewrite Hx|done|].
  eexists. split; [exact He|]. simpl. rewrite part_mach, Hx, part_set. split; [|done].
  apply ip_part. by apply Hm.
Qed.

Lemma runs_wakeup n ch x : shallow n -> runs n (wakeup_on ch) x n tt x.
Proof. intros Hn s Hs Hx. destruct (ip_wakeup _ _ _ ch Hs Hn) as (s' & He & Hs' & Hp). exists s'. by rewrite Hp. Qed.

Lemma runs_pid n x : shallow n -> runs n my_pid x n pid x.
Proof. intros Hn s Hs Hx. destruct (ip_pid _ _ _ Hs Hn) as (s' & He & Hs' & Hp). exists s'. by rewrite Hp. Qed.

(** ** Total correctness *)

(** From every state with [P], [m] run at depth [n] returns at depth [n'], with [Q]. *)
Definition does {A : Type} (n : Z) (P : X -> Prop) (m : M S A) (n' : Z) (Q : A -> X -> Prop) : Prop :=
  forall x, P x -> exists a x', runs n m x n' a x' /\ Q a x'.

Lemma does_ret {A : Type} n (P : X -> Prop) (a : A) (Q : A -> X -> Prop) :
  (forall x, P x -> Q a x) -> does n P (ret a) n Q.
Proof. intros HPQ x Hx. exists a, x. split; [apply runs_ret|by apply HPQ]. Qed.

Lemma does_bind {A B : Type} n n1 n2 (m : M S A) (f : A -> M S B) (P : X -> Prop) (R : A -> X -> Prop) (Q : B -> X -> Prop) :
  does n P m n1 R -> (forall a, does n1 (R a) (f a) n2 Q) -> does n P (bind m f) n2 Q.
Proof.
  intros Hm Hf x Hx. destruct (Hm x Hx) as (a & x1 & Hr & H1). destruct (Hf a x1 H1) as (b & x2 & Hr2 & H2).
  exists b, x2. split; [by eapply runs_bind|done].
Qed.

(** When the first statement has a known result, or none. *)
Lemma does_bind_eq {A B : Type} n n1 n2 (m : M S A) (f : A -> M S B) (P R : X -> Prop) (Q : B -> X -> Prop) a :
  does n P m n1 (fun b x => b = a /\ R x) -> does n1 R (f a) n2 Q -> does n P (bind m f) n2 Q.
Proof. intros Hm Hf. eapply does_bind; [exact Hm|]. intros b x [-> Hx]. by apply Hf. Qed.

Lemma does_bind_tt {B : Type} n n1 n2 (m : M S unit) (f : unit -> M S B) (P R : X -> Prop) (Q : B -> X -> Prop) :
  does n P m n1 (fun _ x => R x) -> does n1 R (f tt) n2 Q -> does n P (bind m f) n2 Q.
Proof. intros Hm Hf. eapply does_bind; [exact Hm|]. intros []. exact Hf. Qed.

Lemma does_pre {A : Type} n n' (P P' : X -> Prop) (m : M S A) (Q : A -> X -> Prop) :
  does n P' m n' Q -> (forall x, P x -> P' x) -> does n P m n' Q.
Proof. intros Hd HP x Hx. apply Hd. by apply HP. Qed.

Lemma does_post {A : Type} n n' (P : X -> Prop) (m : M S A) (Q Q' : A -> X -> Prop) :
  does n P m n' Q' -> (forall a x, Q' a x -> Q a x) -> does n P m n' Q.
Proof. intros Hd HQ x Hx. destruct (Hd x Hx) as (a & x' & Hr & Hq). exists a, x'. eauto. Qed.

(** What the precondition says apart from the state may be assumed. *)
Lemma does_fact {A : Type} n n' (F : Prop) (P : X -> Prop) (m : M S A) (Q : A -> X -> Prop) :
  (forall x, P x -> F) -> (F -> does n P m n' Q) -> does n P m n' Q.
Proof. intros HF Hd x Hx. apply Hd; [by eapply HF|done]. Qed.

Lemma does_ex {A V : Type} n n' (P : V -> X -> Prop) (m : M S A) (Q : A -> X -> Prop) :
  (forall v, does n (P v) m n' Q) -> does n (fun x => exists v, P v x) m n' Q.
Proof. intros Hd x [v Hv]. by apply (Hd v). Qed.

Lemma does_when {A : Type} n n' (F : Prop) (P : X -> Prop) (m : M S A) (Q : A -> X -> Prop) :
  (F -> does n P m n' Q) -> does n (fun x => P x /\ F) m n' Q.
Proof. intros Hd x [Hx Hf]. by apply Hd. Qed.

Lemma does_load {Y : Type} n (c : cell X Y) (P : X -> Prop) y :
  (forall x, P x -> cget c x = Some y) -> does n P (load c) n (fun a x => a = y /\ P x).
Proof. intros Hc x Hx. exists y, x. split; [|done]. apply runs_load. by apply Hc. Qed.

Lemma does_store {Y : Type} n (c : cell X Y) (P Q : X -> Prop) y :
  (forall x, P x -> is_Some (cget c x) /\ Q (cset c y x)) -> does n P (store c y) n (fun _ x => Q x).
Proof.
  intros Hc x Hx. destruct (Hc x Hx) as [[y0 Hy] Hq]. exists tt, (cset c y x). split; [|done].
  by eapply runs_store.
Qed.

(** A loop over [l], with an invariant of the elements passed. *)
Lemma does_for_each {A : Type} n (I : list A -> X -> Prop) (body : A -> M S unit) (l : list A) :
  (forall l1 a l2, l = l1 ++ a :: l2 -> does n (I l1) (body a) n (fun _ x => I (l1 ++ [a]) x)) ->
  does n (I []) (for_each l body) n (fun _ x => I l x).
Proof.
  intros Hb. assert (forall l2 l1, l = l1 ++ l2 -> does n (I l1) (for_each l2 body) n (fun _ x => I l x)) as Hgen.
  { induction l2 as [|a l2 IH]; intros l1 Hl; cbn [for_each].
    - apply does_ret. rewrite app_nil_r in Hl. by rewrite Hl.
    - eapply does_bind; [by eapply Hb|]. intros []. apply IH. by rewrite <- app_assoc. }
  by apply Hgen.
Qed.

(** ** Code that may sleep *)

(** When [m], run from a state with [P], returns, it does so with [Q]. *)
Definition may {A : Type} (n : Z) (P : X -> Prop) (m : M S A) (n' : Z) (Q : A -> X -> Prop) : Prop :=
  forall s a s', in_proc pid n s -> P (part s) -> m s = Ret a s' -> in_proc pid n' s' /\ Q a (part s').

Lemma does_may {A : Type} n n' P (m : M S A) Q : does n P m n' Q -> may n P m n' Q.
Proof.
  intros Hd s a s' Hs HP He. destruct (Hd _ HP) as (b & x & Hr & HQ). destruct (Hr s Hs eq_refl) as (s1 & He1 & Hs1 & Hx).
  rewrite He in He1. injection He1 as -> ->. by rewrite Hx.
Qed.

Lemma may_bind {A B : Type} n n1 n2 (m : M S A) (f : A -> M S B) (P : X -> Prop) (R : A -> X -> Prop) (Q : B -> X -> Prop) :
  may n P m n1 R -> (forall a, may n1 (R a) (f a) n2 Q) -> may n P (bind m f) n2 Q.
Proof.
  intros Hm Hf s b s' Hs HP He. unfold bind, bindR in He. destruct (m s) as [a s1| | | | | |] eqn:E; try done.
  destruct (Hm s a s1 Hs HP E) as [Hs1 HR]. by eapply Hf.
Qed.

Lemma may_bind_eq {A B : Type} n n1 n2 (m : M S A) (f : A -> M S B) (P R : X -> Prop) (Q : B -> X -> Prop) a :
  does n P m n1 (fun b x => b = a /\ R x) -> may n1 R (f a) n2 Q -> may n P (bind m f) n2 Q.
Proof.
  intros Hm Hf. eapply may_bind; [by apply does_may|]. intros b s b' s' Hs [-> HR]. by apply Hf.
Qed.

Lemma may_bind_tt {B : Type} n n1 n2 (m : M S unit) (f : unit -> M S B) (P R : X -> Prop) (Q : B -> X -> Prop) :
  may n P m n1 (fun _ x => R x) -> may n1 R (f tt) n2 Q -> may n P (bind m f) n2 Q.
Proof. intros Hm Hf. eapply may_bind; [exact Hm|]. intros []. exact Hf. Qed.

Lemma may_pre {A : Type} n n' (P P' : X -> Prop) (m : M S A) (Q : A -> X -> Prop) :
  may n P' m n' Q -> (forall x, P x -> P' x) -> may n P m n' Q.
Proof. intros Hd HP s a s' Hs Hx. apply Hd; [done|]. by apply HP. Qed.

Lemma may_post {A : Type} n n' (P : X -> Prop) (m : M S A) (Q Q' : A -> X -> Prop) :
  may n P m n' Q' -> (forall a x, Q' a x -> Q a x) -> may n P m n' Q.
Proof. intros Hd HQ s a s' Hs Hx He. destruct (Hd s a s' Hs Hx He). eauto. Qed.

Lemma may_ex {A V : Type} n n' (P : V -> X -> Prop) (m : M S A) (Q : A -> X -> Prop) :
  (forall v, may n (P v) m n' Q) -> may n (fun x => exists v, P v x) m n' Q.
Proof. intros Hd s a s' Hs [v Hv]. by apply (Hd v). Qed.

Lemma may_when {A : Type} n n' (F : Prop) (P : X -> Prop) (m : M S A) (Q : A -> X -> Prop) :
  (F -> may n P m n' Q) -> may n (fun x => P x /\ F) m n' Q.
Proof. intros Hd s a s' Hs [Hx Hf]. by apply Hd. Qed.

Lemma may_fuel_out {A : Type} n n' P (Q : A -> X -> Prop) : may n P fuel_out n' Q.
Proof. intros s a s' _ _ He. done. Qed.

Lemma runs_initlock n (c : cell X spinlock) x name :
  runs n (initlock (spin_of c) name) x n tt (cset c (mkLock 0 name None) x).
Proof. apply (runs_modify n (cset c (mkLock 0 name None))). Qed.

(** A body between [acquire] and [release] of a lock it leaves alone. *)
Definition locked_by0 (l : spinlock) : spinlock := mkLock 1 (lk_name l) (Some 0%nat).

Lemma free_unlocked l : free_lock l -> mkLock 0 (lk_name l) None = l.
Proof. destruct l as [k nm cp]. unfold free_lock. simpl. by intros [-> ->]. Qed.

End Runs.
