(* ===== verification/SysState.v ===== *)
(** * The state of the other components

    The data structures of kalloc.c, pipe.c, bio.c, memide.c, log.c, fs.c and file.c,
    one record with all of them, and the cells of its fields.

    Memory is the kernel's view of physical memory, a byte at every address; the
    structures below have memory of their own.  A pointer to a buffer, an inode or a
    file is its index in its array; the buffer with index [NBUF] is the head of the
    list of buffers. *)

From stdpp Require Import base tactics list sets strings gmap.
From Stdlib Require Import ZArith Lia.
From S2P Require Import Prelude Params StringC Spinlock ProcState Comp.
Open Scope Z_scope.

Inductive fdtype := FD_NONE | FD_PIPE | FD_INODE.

#[global] Instance fdtype_eq_dec : EqDecision fdtype.
Proof. solve_decision. Defined.

(** sleeplock.h *)
Record sleeplock := mkSl {
  sl_locked : Z;
  sl_lk : spinlock;
  sl_name : string;
  sl_pid : Z
}.
Definition set_sl_locked (v : Z) (r : sleeplock) : sleeplock :=
  mkSl v (sl_lk r) (sl_name r) (sl_pid r).
Definition set_sl_lk (v : spinlock) (r : sleeplock) : sleeplock :=
  mkSl (sl_locked r) v (sl_name r) (sl_pid r).
Definition set_sl_name (v : string) (r : sleeplock) : sleeplock :=
  mkSl (sl_locked r) (sl_lk r) v (sl_pid r).
Definition set_sl_pid (v : Z) (r : sleeplock) : sleeplock :=
  mkSl (sl_locked r) (sl_lk r) (sl_name r) v.

(** buf.h; [b_prev], [b_next] and [b_qnext] point to buffers by their index *)
Record buf := mkBuf {
  b_flags : Z;
  b_dev : Z;
  b_blockno : Z;
  b_lock : sleeplock;
  b_refcnt : Z;
  b_prev : nat;
  b_next : nat;
  b_qnext : option nat;
  b_data : list Z
}.
Definition set_b_flags (v : Z) (r : buf) : buf :=
  mkBuf v (b_dev r) (b_blockno r) (b_lock r) (b_refcnt r) (b_prev r) (b_next r) (b_qnext r) (b_data r).
Definition set_b_dev (v : Z) (r : buf) : buf :=
  mkBuf (b_flags r) v (b_blockno r) (b_lock r) (b_refcnt r) (b_prev r) (b_next r) (b_qnext r) (b_data r).
Definition set_b_blockno (v : Z) (r : buf) : buf :=
  mkBuf (b_flags r) (b_dev r) v (b_lock r) (b_refcnt r) (b_prev r) (b_next r) (b_qnext r) (b_data r).
Definition set_b_lock (v : sleeplock) (r : buf) : buf :=
  mkBuf (b_flags r) (b_dev r) (b_blockno r) v (b_refcnt r) (b_prev r) (b_next r) (b_qnext r) (b_data r).
Definition set_b_refcnt (v : Z) (r : buf) : buf :=
  mkBuf (b_flags r) (b_dev r) (b_blockno r) (b_lock r) v (b_prev r) (b_next r) (b_qnext r) (b_data r).
Definition set_b_prev (v : nat) (r : buf) : buf :=
  mkBuf (b_flags r) (b_dev r) (b_blockno r) (b_lock r) (b_refcnt r) v (b_next r) (b_qnext r) (b_data r).
Definition set_b_next (v : nat) (r : buf) : buf :=
  mkBuf (b_flags r) (b_dev r) (b_blockno r) (b_lock r) (b_refcnt r) (b_prev r) v (b_qnext r) (b_data r).
Definition set_b_qnext (v : option nat) (r : buf) : buf :=
  mkBuf (b_flags r) (b_dev r) (b_blockno r) (b_lock r) (b_refcnt r) (b_prev r) (b_next r) v (b_data r).
Definition set_b_data (v : list Z) (r : buf) : buf :=
  mkBuf (b_flags r) (b_dev r) (b_blockno r) (b_lock r) (b_refcnt r) (b_prev r) (b_next r) (b_qnext r) v.

(** memide.c: the image; [md_writes] records the writes, for reasoning about crashes *)
Record memdisk := mkMemdisk {
  md_size : Z;
  md_blocks : list (list Z);
  md_writes : list (Z * list Z)
}.
Definition set_md_size (v : Z) (r : memdisk) : memdisk :=
  mkMemdisk v (md_blocks r) (md_writes r).
Definition set_md_blocks (v : list (list Z)) (r : memdisk) : memdisk :=
  mkMemdisk (md_size r) v (md_writes r).
Definition set_md_writes (v : list (Z * list Z)) (r : memdisk) : memdisk :=
  mkMemdisk (md_size r) (md_blocks r) v.

(** log.c, struct log with its struct logheader *)
Record logst := mkLog {
  lg_lock : spinlock;
  lg_start : Z;
  lg_size : Z;
  lg_outstanding : Z;
  lg_committing : Z;
  lg_dev : Z;
  lh_n : Z;
  lh_block : list Z
}.
Definition set_lg_lock (v : spinlock) (r : logst) : logst :=
  mkLog v (lg_start r) (lg_size r) (lg_outstanding r) (lg_committing r) (lg_dev r) (lh_n r) (lh_block r).
Definition set_lg_start (v : Z) (r : logst) : logst :=
  mkLog (lg_lock r) v (lg_size r) (lg_outstanding r) (lg_committing r) (lg_dev r) (lh_n r) (lh_block r).
Definition set_lg_size (v : Z) (r : logst) : logst :=
  mkLog (lg_lock r) (lg_start r) v (lg_outstanding r) (lg_committing r) (lg_dev r) (lh_n r) (lh_block r).
Definition set_lg_outstanding (v : Z) (r : logst) : logst :=
  mkLog (lg_lock r) (lg_start r) (lg_size r) v (lg_committing r) (lg_dev r) (lh_n r) (lh_block r).
Definition set_lg_committing (v : Z) (r : logst) : logst :=
  mkLog (lg_lock r) (lg_start r) (lg_size r) (lg_outstanding r) v (lg_dev r) (lh_n r) (lh_block r).
Definition set_lg_dev (v : Z) (r : logst) : logst :=
  mkLog (lg_lock r) (lg_start r) (lg_size r) (lg_outstanding r) (lg_committing r) v (lh_n r) (lh_block r).
Definition set_lh_n (v : Z) (r : logst) : logst :=
  mkLog (lg_lock r) (lg_start r) (lg_size r) (lg_outstanding r) (lg_committing r) (lg_dev r) v (lh_block r).
Definition set_lh_block (v : list Z) (r : logst) : logst :=
  mkLog (lg_lock r) (lg_start r) (lg_size r) (lg_outstanding r) (lg_committing r) (lg_dev r) (lh_n r) v.

(** fs.h *)
Record superblock := mkSb {
  sb_size : Z;
  sb_nblocks : Z;
  sb_ninodes : Z;
  sb_nlog : Z;
  sb_logstart : Z;
  sb_inodestart : Z;
  sb_bmapstart : Z
}.
Definition set_sb_size (v : Z) (r : superblock) : superblock :=
  mkSb v (sb_nblocks r) (sb_ninodes r) (sb_nlog r) (sb_logstart r) (sb_inodestart r) (sb_bmapstart r).
Definition set_sb_nblocks (v : Z) (r : superblock) : superblock :=
  mkSb (sb_size r) v (sb_ninodes r) (sb_nlog r) (sb_logstart r) (sb_inodestart r) (sb_bmapstart r).
Definition set_sb_ninodes (v : Z) (r : superblock) : superblock :=
  mkSb (sb_size r) (sb_nblocks r) v (sb_nlog r) (sb_logstart r) (sb_inodestart r) (sb_bmapstart r).
Definition set_sb_nlog (v : Z) (r : superblock) : superblock :=
  mkSb (sb_size r) (sb_nblocks r) (sb_ninodes r) v (sb_logstart r) (sb_inodestart r) (sb_bmapstart r).
Definition set_sb_logstart (v : Z) (r : superblock) : superblock :=
  mkSb (sb_size r) (sb_nblocks r) (sb_ninodes r) (sb_nlog r) v (sb_inodestart r) (sb_bmapstart r).
Definition set_sb_inodestart (v : Z) (r : superblock) : superblock :=
  mkSb (sb_size r) (sb_nblocks r) (sb_ninodes r) (sb_nlog r) (sb_logstart r) v (sb_bmapstart r).
Definition set_sb_bmapstart (v : Z) (r : superblock) : superblock :=
  mkSb (sb_size r) (sb_nblocks r) (sb_ninodes r) (sb_nlog r) (sb_logstart r) (sb_inodestart r) v.

(** file.h *)
Record inode := mkInode {
  i_dev : Z;
  i_inum : Z;
  i_ref : Z;
  i_lock : sleeplock;
  i_valid : Z;
  i_type : Z;
  i_major : Z;
  i_minor : Z;
  i_nlink : Z;
  i_size : Z;
  i_addrs : list Z
}.
Definition set_i_dev (v : Z) (r : inode) : inode :=
  mkInode v (i_inum r) (i_ref r) (i_lock r) (i_valid r) (i_type r) (i_major r) (i_minor r) (i_nlink r) (i_size r) (i_addrs r).
Definition set_i_inum (v : Z) (r : inode) : inode :=
  mkInode (i_dev r) v (i_ref r) (i_lock r) (i_valid r) (i_type r) (i_major r) (i_minor r) (i_nlink r) (i_size r) (i_addrs r).
Definition set_i_ref (v : Z) (r : inode) : inode :=
  mkInode (i_dev r) (i_inum r) v (i_lock r) (i_valid r) (i_type r) (i_major r) (i_minor r) (i_nlink r) (i_size r) (i_addrs r).
Definition set_i_lock (v : sleeplock) (r : inode) : inode :=
  mkInode (i_dev r) (i_inum r) (i_ref r) v (i_valid r) (i_type r) (i_major r) (i_minor r) (i_nlink r) (i_size r) (i_addrs r).
Definition set_i_valid (v : Z) (r : inode) : inode :=
  mkInode (i_dev r) (i_inum r) (i_ref r) (i_lock r) v (i_type r) (i_major r) (i_minor r) (i_nlink r) (i_size r) (i_addrs r).
Definition set_i_type (v : Z) (r : inode) : inode :=
  mkInode (i_dev r) (i_inum r) (i_ref r) (i_lock r) (i_valid r) v (i_major r) (i_minor r) (i_nlink r) (i_size r) (i_addrs r).
Definition set_i_major (v : Z) (r : inode) : inode :=
  mkInode (i_dev r) (i_inum r) (i_ref r) (i_lock r) (i_valid r) (i_type r) v (i_minor r) (i_nlink r) (i_size r) (i_addrs r).
Definition set_i_minor (v : Z) (r : inode) : inode :=
  mkInode (i_dev r) (i_inum r) (i_ref r) (i_lock r) (i_valid r) (i_type r) (i_major r) v (i_nlink r) (i_size r) (i_addrs r).
Definition set_i_nlink (v : Z) (r : inode) : inode :=
  mkInode (i_dev r) (i_inum r) (i_ref r) (i_lock r) (i_valid r) (i_type r) (i_major r) (i_minor r) v (i_size r) (i_addrs r).
Definition set_i_size (v : Z) (r : inode) : inode :=
  mkInode (i_dev r) (i_inum r) (i_ref r) (i_lock r) (i_valid r) (i_type r) (i_major r) (i_minor r) (i_nlink r) v (i_addrs r).
Definition set_i_addrs (v : list Z) (r : inode) : inode :=
  mkInode (i_dev r) (i_inum r) (i_ref r) (i_lock r) (i_valid r) (i_type r) (i_major r) (i_minor r) (i_nlink r) (i_size r) v.

(** file.h; [f_pipe] is the address of the pipe's page, [f_ip] an index of the inode cache *)
Record file := mkFile {
  f_type : fdtype;
  f_ref : Z;
  f_readable : Z;
  f_writable : Z;
  f_pipe : Z;
  f_ip : option nat;
  f_off : Z
}.
Definition set_f_type (v : fdtype) (r : file) : file :=
  mkFile v (f_ref r) (f_readable r) (f_writable r) (f_pipe r) (f_ip r) (f_off r).
Definition set_f_ref (v : Z) (r : file) : file :=
  mkFile (f_type r) v (f_readable r) (f_writable r) (f_pipe r) (f_ip r) (f_off r).
Definition set_f_readable (v : Z) (r : file) : file :=
  mkFile (f_type r) (f_ref r) v (f_writable r) (f_pipe r) (f_ip r) (f_off r).
Definition set_f_writable (v : Z) (r : file) : file :=
  mkFile (f_type r) (f_ref r) (f_readable r) v (f_pipe r) (f_ip r) (f_off r).
Definition set_f_pipe (v : Z) (r : file) : file :=
  mkFile (f_type r) (f_ref r) (f_readable r) (f_writable r) v (f_ip r) (f_off r).
Definition set_f_ip (v : option nat) (r : file) : file :=
  mkFile (f_type r) (f_ref r) (f_readable r) (f_writable r) (f_pipe r) v (f_off r).
Definition set_f_off (v : Z) (r : file) : file :=
  mkFile (f_type r) (f_ref r) (f_readable r) (f_writable r) (f_pipe r) (f_ip r) v.

(** pipe.c *)
Record pipe := mkPipe {
  pi_lock : spinlock;
  pi_data : list Z;
  pi_nread : Z;
  pi_nwrite : Z;
  pi_readopen : Z;
  pi_writeopen : Z
}.
Definition set_pi_lock (v : spinlock) (r : pipe) : pipe :=
  mkPipe v (pi_data r) (pi_nread r) (pi_nwrite r) (pi_readopen r) (pi_writeopen r).
Definition set_pi_data (v : list Z) (r : pipe) : pipe :=
  mkPipe (pi_lock r) v (pi_nread r) (pi_nwrite r) (pi_readopen r) (pi_writeopen r).
Definition set_pi_nread (v : Z) (r : pipe) : pipe :=
  mkPipe (pi_lock r) (pi_data r) v (pi_nwrite r) (pi_readopen r) (pi_writeopen r).
Definition set_pi_nwrite (v : Z) (r : pipe) : pipe :=
  mkPipe (pi_lock r) (pi_data r) (pi_nread r) v (pi_readopen r) (pi_writeopen r).
Definition set_pi_readopen (v : Z) (r : pipe) : pipe :=
  mkPipe (pi_lock r) (pi_data r) (pi_nread r) (pi_nwrite r) v (pi_writeopen r).
Definition set_pi_writeopen (v : Z) (r : pipe) : pipe :=
  mkPipe (pi_lock r) (pi_data r) (pi_nread r) (pi_nwrite r) (pi_readopen r) v.

(** kalloc.c *)
Record kmem := mkKmem {
  fl_lock : spinlock;
  fl_use_lock : Z;
  fl_freelist : Z
}.
Definition set_fl_lock (v : spinlock) (r : kmem) : kmem :=
  mkKmem v (fl_use_lock r) (fl_freelist r).
Definition set_fl_use_lock (v : Z) (r : kmem) : kmem :=
  mkKmem (fl_lock r) v (fl_freelist r).
Definition set_fl_freelist (v : Z) (r : kmem) : kmem :=
  mkKmem (fl_lock r) (fl_use_lock r) v.

(** proc.h, the running process: the fields of [*myproc()] that sysfile.c and exec.c
    use; [t_eip] and [t_esp] are those of its trap frame *)
Record task := mkTask {
  t_ofile : list (option nat);
  t_cwd : option nat;
  t_pgdir : Z;
  t_sz : Z;
  t_name : list Z;
  t_eip : Z;
  t_esp : Z
}.
Definition set_t_ofile (v : list (option nat)) (r : task) : task :=
  mkTask v (t_cwd r) (t_pgdir r) (t_sz r) (t_name r) (t_eip r) (t_esp r).
Definition set_t_cwd (v : option nat) (r : task) : task :=
  mkTask (t_ofile r) v (t_pgdir r) (t_sz r) (t_name r) (t_eip r) (t_esp r).
Definition set_t_pgdir (v : Z) (r : task) : task :=
  mkTask (t_ofile r) (t_cwd r) v (t_sz r) (t_name r) (t_eip r) (t_esp r).
Definition set_t_sz (v : Z) (r : task) : task :=
  mkTask (t_ofile r) (t_cwd r) (t_pgdir r) v (t_name r) (t_eip r) (t_esp r).
Definition set_t_name (v : list Z) (r : task) : task :=
  mkTask (t_ofile r) (t_cwd r) (t_pgdir r) (t_sz r) v (t_eip r) (t_esp r).
Definition set_t_eip (v : Z) (r : task) : task :=
  mkTask (t_ofile r) (t_cwd r) (t_pgdir r) (t_sz r) (t_name r) v (t_esp r).
Definition set_t_esp (v : Z) (r : task) : task :=
  mkTask (t_ofile r) (t_cwd r) (t_pgdir r) (t_sz r) (t_name r) (t_eip r) v.

(** Everything below proc.c *)
Record sys := mkSys {
  kmem_ : kmem;
  mem : memory;
  pipes : gmap Z pipe;
  bc_lock : spinlock;
  bufs : list buf;
  disk : memdisk;
  log : logst;
  sb : superblock;
  ic_lock : spinlock;
  inodes : list inode;
  ft_lock : spinlock;
  files : list file;
  self : task
}.
Definition set_kmem_ (v : kmem) (r : sys) : sys :=
  mkSys v (mem r) (pipes r) (bc_lock r) (bufs r) (disk r) (log r) (sb r) (ic_lock r) (inodes r) (ft_lock r) (files r) (self r).
Definition set_mem (v : memory) (r : sys) : sys :=
  mkSys (kmem_ r) v (pipes r) (bc_lock r) (bufs r) (disk r) (log r) (sb r) (ic_lock r) (inodes r) (ft_lock r) (files r) (self r).
Definition set_pipes (v : gmap Z pipe) (r : sys) : sys :=
  mkSys (kmem_ r) (mem r) v (bc_lock r) (bufs r) (disk r) (log r) (sb r) (ic_lock r) (inodes r) (ft_lock r) (files r) (self r).
Definition set_bc_lock (v : spinlock) (r : sys) : sys :=
  mkSys (kmem_ r) (mem r) (pipes r) v (bufs r) (disk r) (log r) (sb r) (ic_lock r) (inodes r) (ft_lock r) (files r) (self r).
Definition set_bufs (v : list buf) (r : sys) : sys :=
  mkSys (kmem_ r) (mem r) (pipes r) (bc_lock r) v (disk r) (log r) (sb r) (ic_lock r) (inodes r) (ft_lock r) (files r) (self r).
Definition set_disk (v : memdisk) (r : sys) : sys :=
  mkSys (kmem_ r) (mem r) (pipes r) (bc_lock r) (bufs r) v (log r) (sb r) (ic_lock r) (inodes r) (ft_lock r) (files r) (self r).
Definition set_log (v : logst) (r : sys) : sys :=
  mkSys (kmem_ r) (mem r) (pipes r) (bc_lock r) (bufs r) (disk r) v (sb r) (ic_lock r) (inodes r) (ft_lock r) (files r) (self r).
Definition set_sb (v : superblock) (r : sys) : sys :=
  mkSys (kmem_ r) (mem r) (pipes r) (bc_lock r) (bufs r) (disk r) (log r) v (ic_lock r) (inodes r) (ft_lock r) (files r) (self r).
Definition set_ic_lock (v : spinlock) (r : sys) : sys :=
  mkSys (kmem_ r) (mem r) (pipes r) (bc_lock r) (bufs r) (disk r) (log r) (sb r) v (inodes r) (ft_lock r) (files r) (self r).
Definition set_inodes (v : list inode) (r : sys) : sys :=
  mkSys (kmem_ r) (mem r) (pipes r) (bc_lock r) (bufs r) (disk r) (log r) (sb r) (ic_lock r) v (ft_lock r) (files r) (self r).
Definition set_ft_lock (v : spinlock) (r : sys) : sys :=
  mkSys (kmem_ r) (mem r) (pipes r) (bc_lock r) (bufs r) (disk r) (log r) (sb r) (ic_lock r) (inodes r) v (files r) (self r).
Definition set_files (v : list file) (r : sys) : sys :=
  mkSys (kmem_ r) (mem r) (pipes r) (bc_lock r) (bufs r) (disk r) (log r) (sb r) (ic_lock r) (inodes r) (ft_lock r) v (self r).
Definition set_self (v : task) (r : sys) : sys :=
  mkSys (kmem_ r) (mem r) (pipes r) (bc_lock r) (bufs r) (disk r) (log r) (sb r) (ic_lock r) (inodes r) (ft_lock r) (files r) v.

(** ** Cells *)

Definition c_sl_locked : cell sleeplock (Z) := field sl_locked set_sl_locked.
#[global] Instance c_sl_locked_laws : CellLaws c_sl_locked.
Proof. constructor; simpl; try done; intros ? [] [= <-]; done. Qed.
Definition c_sl_lk : cell sleeplock (spinlock) := field sl_lk set_sl_lk.
#[global] Instance c_sl_lk_laws : CellLaws c_sl_lk.
Proof. constructor; simpl; try done; intros ? [] [= <-]; done. Qed.
Definition c_sl_name : cell sleeplock (string) := field sl_name set_sl_name.
#[global] Instance c_sl_name_laws : CellLaws c_sl_name.
Proof. constructor; simpl; try done; intros ? [] [= <-]; done. Qed.
Definition c_sl_pid : cell sleeplock (Z) := field sl_pid set_sl_pid.
#[global] Instance c_sl_pid_laws : CellLaws c_sl_pid.
Proof. constructor; simpl; try done; intros ? [] [= <-]; done. Qed.

Definition c_b_flags : cell buf (Z) := field b_flags set_b_flags.
#[global] Instance c_b_flags_laws : CellLaws c_b_flags.
Proof. constructor; simpl; try done; intros ? [] [= <-]; done. Qed.
Definition c_b_dev : cell buf (Z) := field b_dev set_b_dev.
#[global] Instance c_b_dev_laws : CellLaws c_b_dev.
Proof. constructor; simpl; try done; intros ? [] [= <-]; done. Qed.
Definition c_b_blockno : cell buf (Z) := field b_blockno set_b_blockno.
#[global] Instance c_b_blockno_laws : CellLaws c_b_blockno.
Proof. constructor; simpl; try done; intros ? [] [= <-]; done. Qed.
Definition c_b_lock : cell buf (sleeplock) := field b_lock set_b_lock.
#[global] Instance c_b_lock_laws : CellLaws c_b_lock.
Proof. constructor; simpl; try done; intros ? [] [= <-]; done. Qed.
Definition c_b_refcnt : cell buf (Z) := field b_refcnt set_b_refcnt.
#[global] Instance c_b_refcnt_laws : CellLaws c_b_refcnt.
Proof. constructor; simpl; try done; intros ? [] [= <-]; done. Qed.
Definition c_b_prev : cell buf (nat) := field b_prev set_b_prev.
#[global] Instance c_b_prev_laws : CellLaws c_b_prev.
Proof. constructor; simpl; try done; intros ? [] [= <-]; done. Qed.
Definition c_b_next : cell buf (nat) := field b_next set_b_next.
#[global] Instance c_b_next_laws : CellLaws c_b_next.
Proof. constructor; simpl; try done; intros ? [] [= <-]; done. Qed.
Definition c_b_qnext : cell buf (option nat) := field b_qnext set_b_qnext.
#[global] Instance c_b_qnext_laws : CellLaws c_b_qnext.
Proof. constructor; simpl; try done; intros ? [] [= <-]; done. Qed.
Definition c_b_data : cell buf (list Z) := field b_data set_b_data.
#[global] Instance c_b_data_laws : CellLaws c_b_data.
Proof. constructor; simpl; try done; intros ? [] [= <-]; done. Qed.

Definition c_md_size : cell memdisk (Z) := field md_size set_md_size.
#[global] Instance c_md_size_laws : CellLaws c_md_size.
Proof. constructor; simpl; try done; intros ? [] [= <-]; done. Qed.
Definition c_md_blocks : cell memdisk (list (list Z)) := field md_blocks set_md_blocks.
#[global] Instance c_md_blocks_laws : CellLaws c_md_blocks.
Proof. constructor; simpl; try done; intros ? [] [= <-]; done. Qed.
Definition c_md_writes : cell memdisk (list (Z * list Z)) := field md_writes set_md_writes.
#[global] Instance c_md_writes_laws : CellLaws c_md_writes.
Proof. constructor; simpl; try done; intros ? [] [= <-]; done. Qed.

Definition c_lg_lock : cell logst (spinlock) := field lg_lock set_lg_lock.
#[global] Instance c_lg_lock_laws : CellLaws c_lg_lock.
Proof. constructor; simpl; try done; intros ? [] [= <-]; done. Qed.
Definition c_lg_start : cell logst (Z) := field lg_start set_lg_start.
#[global] Instance c_lg_start_laws : CellLaws c_lg_start.
Proof. constructor; simpl; try done; intros ? [] [= <-]; done. Qed.
Definition c_lg_size : cell logst (Z) := field lg_size set_lg_size.
#[global] Instance c_lg_size_laws : CellLaws c_lg_size.
Proof. constructor; simpl; try done; intros ? [] [= <-]; done. Qed.
Definition c_lg_outstanding : cell logst (Z) := field lg_outstanding set_lg_outstanding.
#[global] Instance c_lg_outstanding_laws : CellLaws c_lg_outstanding.
Proof. constructor; simpl; try done; intros ? [] [= <-]; done. Qed.
Definition c_lg_committing : cell logst (Z) := field lg_committing set_lg_committing.
#[global] Instance c_lg_committing_laws : CellLaws c_lg_committing.
Proof. constructor; simpl; try done; intros ? [] [= <-]; done. Qed.
Definition c_lg_dev : cell logst (Z) := field lg_dev set_lg_dev.
#[global] Instance c_lg_dev_laws : CellLaws c_lg_dev.
Proof. constructor; simpl; try done; intros ? [] [= <-]; done. Qed.
Definition c_lh_n : cell logst (Z) := field lh_n set_lh_n.
#[global] Instance c_lh_n_laws : CellLaws c_lh_n.
Proof. constructor; simpl; try done; intros ? [] [= <-]; done. Qed.
Definition c_lh_block : cell logst (list Z) := field lh_block set_lh_block.
#[global] Instance c_lh_block_laws : CellLaws c_lh_block.
Proof. constructor; simpl; try done; intros ? [] [= <-]; done. Qed.

Definition c_i_dev : cell inode (Z) := field i_dev set_i_dev.
#[global] Instance c_i_dev_laws : CellLaws c_i_dev.
Proof. constructor; simpl; try done; intros ? [] [= <-]; done. Qed.
Definition c_i_inum : cell inode (Z) := field i_inum set_i_inum.
#[global] Instance c_i_inum_laws : CellLaws c_i_inum.
Proof. constructor; simpl; try done; intros ? [] [= <-]; done. Qed.
Definition c_i_ref : cell inode (Z) := field i_ref set_i_ref.
#[global] Instance c_i_ref_laws : CellLaws c_i_ref.
Proof. constructor; simpl; try done; intros ? [] [= <-]; done. Qed.
Definition c_i_lock : cell inode (sleeplock) := field i_lock set_i_lock.
#[global] Instance c_i_lock_laws : CellLaws c_i_lock.
Proof. constructor; simpl; try done; intros ? [] [= <-]; done. Qed.
Definition c_i_valid : cell inode (Z) := field i_valid set_i_valid.
#[global] Instance c_i_valid_laws : CellLaws c_i_valid.
Proof. constructor; simpl; try done; intros ? [] [= <-]; done. Qed.
Definition c_i_type : cell inode (Z) := field i_type set_i_type.
#[global] Instance c_i_type_laws : CellLaws c_i_type.
Proof. constructor; simpl; try done; intros ? [] [= <-]; done. Qed.
Definition c_i_major : cell inode (Z) := field i_major set_i_major.
#[global] Instance c_i_major_laws : CellLaws c_i_major.
Proof. constructor; simpl; try done; intros ? [] [= <-]; done. Qed.
Definition c_i_minor : cell inode (Z) := field i_minor set_i_minor.
#[global] Instance c_i_minor_laws : CellLaws c_i_minor.
Proof. constructor; simpl; try done; intros ? [] [= <-]; done. Qed.
Definition c_i_nlink : cell inode (Z) := field i_nlink set_i_nlink.
#[global] Instance c_i_nlink_laws : CellLaws c_i_nlink.
Proof. constructor; simpl; try done; intros ? [] [= <-]; done. Qed.
Definition c_i_size : cell inode (Z) := field i_size set_i_size.
#[global] Instance c_i_size_laws : CellLaws c_i_size.
Proof. constructor; simpl; try done; intros ? [] [= <-]; done. Qed.
Definition c_i_addrs : cell inode (list Z) := field i_addrs set_i_addrs.
#[global] Instance c_i_addrs_laws : CellLaws c_i_addrs.
Proof. constructor; simpl; try done; intros ? [] [= <-]; done. Qed.

Definition c_f_type : cell file (fdtype) := field f_type set_f_type.
#[global] Instance c_f_type_laws : CellLaws c_f_type.
Proof. constructor; simpl; try done; intros ? [] [= <-]; done. Qed.
Definition c_f_ref : cell file (Z) := field f_ref set_f_ref.
#[global] Instance c_f_ref_laws : CellLaws c_f_ref.
Proof. constructor; simpl; try done; intros ? [] [= <-]; done. Qed.
Definition c_f_readable : cell file (Z) := field f_readable set_f_readable.
#[global] Instance c_f_readable_laws : CellLaws c_f_readable.
Proof. constructor; simpl; try done; intros ? [] [= <-]; done. Qed.
Definition c_f_writable : cell file (Z) := field f_writable set_f_writable.
#[global] Instance c_f_writable_laws : CellLaws c_f_writable.
Proof. constructor; simpl; try done; intros ? [] [= <-]; done. Qed.
Definition c_f_pipe : cell file (Z) := field f_pipe set_f_pipe.
#[global] Instance c_f_pipe_laws : CellLaws c_f_pipe.
Proof. constructor; simpl; try done; intros ? [] [= <-]; done. Qed.
Definition c_f_ip : cell file (option nat) := field f_ip set_f_ip.
#[global] Instance c_f_ip_laws : CellLaws c_f_ip.
Proof. constructor; simpl; try done; intros ? [] [= <-]; done. Qed.
Definition c_f_off : cell file (Z) := field f_off set_f_off.
#[global] Instance c_f_off_laws : CellLaws c_f_off.
Proof. constructor; simpl; try done; intros ? [] [= <-]; done. Qed.

Definition c_pi_lock : cell pipe (spinlock) := field pi_lock set_pi_lock.
#[global] Instance c_pi_lock_laws : CellLaws c_pi_lock.
Proof. constructor; simpl; try done; intros ? [] [= <-]; done. Qed.
Definition c_pi_data : cell pipe (list Z) := field pi_data set_pi_data.
#[global] Instance c_pi_data_laws : CellLaws c_pi_data.
Proof. constructor; simpl; try done; intros ? [] [= <-]; done. Qed.
Definition c_pi_nread : cell pipe (Z) := field pi_nread set_pi_nread.
#[global] Instance c_pi_nread_laws : CellLaws c_pi_nread.
Proof. constructor; simpl; try done; intros ? [] [= <-]; done. Qed.
Definition c_pi_nwrite : cell pipe (Z) := field pi_nwrite set_pi_nwrite.
#[global] Instance c_pi_nwrite_laws : CellLaws c_pi_nwrite.
Proof. constructor; simpl; try done; intros ? [] [= <-]; done. Qed.
Definition c_pi_readopen : cell pipe (Z) := field pi_readopen set_pi_readopen.
#[global] Instance c_pi_readopen_laws : CellLaws c_pi_readopen.
Proof. constructor; simpl; try done; intros ? [] [= <-]; done. Qed.
Definition c_pi_writeopen : cell pipe (Z) := field pi_writeopen set_pi_writeopen.
#[global] Instance c_pi_writeopen_laws : CellLaws c_pi_writeopen.
Proof. constructor; simpl; try done; intros ? [] [= <-]; done. Qed.

Definition c_fl_lock : cell kmem (spinlock) := field fl_lock set_fl_lock.
#[global] Instance c_fl_lock_laws : CellLaws c_fl_lock.
Proof. constructor; simpl; try done; intros ? [] [= <-]; done. Qed.
Definition c_fl_use_lock : cell kmem (Z) := field fl_use_lock set_fl_use_lock.
#[global] Instance c_fl_use_lock_laws : CellLaws c_fl_use_lock.
Proof. constructor; simpl; try done; intros ? [] [= <-]; done. Qed.
Definition c_fl_freelist : cell kmem (Z) := field fl_freelist set_fl_freelist.
#[global] Instance c_fl_freelist_laws : CellLaws c_fl_freelist.
Proof. constructor; simpl; try done; intros ? [] [= <-]; done. Qed.

Definition c_t_ofile : cell task (list (option nat)) := field t_ofile set_t_ofile.
#[global] Instance c_t_ofile_laws : CellLaws c_t_ofile.
Proof. constructor; simpl; try done; intros ? [] [= <-]; done. Qed.
Definition c_t_cwd : cell task (option nat) := field t_cwd set_t_cwd.
#[global] Instance c_t_cwd_laws : CellLaws c_t_cwd.
Proof. constructor; simpl; try done; intros ? [] [= <-]; done. Qed.
Definition c_t_pgdir : cell task (Z) := field t_pgdir set_t_pgdir.
#[global] Instance c_t_pgdir_laws : CellLaws c_t_pgdir.
Proof. constructor; simpl; try done; intros ? [] [= <-]; done. Qed.
Definition c_t_sz : cell task (Z) := field t_sz set_t_sz.
#[global] Instance c_t_sz_laws : CellLaws c_t_sz.
Proof. constructor; simpl; try done; intros ? [] [= <-]; done. Qed.
Definition c_t_name : cell task (list Z) := field t_name set_t_name.
#[global] Instance c_t_name_laws : CellLaws c_t_name.
Proof. constructor; simpl; try done; intros ? [] [= <-]; done. Qed.
Definition c_t_eip : cell task (Z) := field t_eip set_t_eip.
#[global] Instance c_t_eip_laws : CellLaws c_t_eip.
Proof. constructor; simpl; try done; intros ? [] [= <-]; done. Qed.
Definition c_t_esp : cell task (Z) := field t_esp set_t_esp.
#[global] Instance c_t_esp_laws : CellLaws c_t_esp.
Proof. constructor; simpl; try done; intros ? [] [= <-]; done. Qed.

Definition c_kmem_ : cell sys (kmem) := field kmem_ set_kmem_.
#[global] Instance c_kmem__laws : CellLaws c_kmem_.
Proof. constructor; simpl; try done; intros ? [] [= <-]; done. Qed.
Definition c_mem : cell sys (memory) := field mem set_mem.
#[global] Instance c_mem_laws : CellLaws c_mem.
Proof. constructor; simpl; try done; intros ? [] [= <-]; done. Qed.
Definition c_pipes : cell sys (gmap Z pipe) := field pipes set_pipes.
#[global] Instance c_pipes_laws : CellLaws c_pipes.
Proof. constructor; simpl; try done; intros ? [] [= <-]; done. Qed.
Definition c_bc_lock : cell sys (spinlock) := field bc_lock set_bc_lock.
#[global] Instance c_bc_lock_laws : CellLaws c_bc_lock.
Proof. constructor; simpl; try done; intros ? [] [= <-]; done. Qed.
Definition c_bufs : cell sys (list buf) := field bufs set_bufs.
#[global] Instance c_bufs_laws : CellLaws c_bufs.
Proof. constructor; simpl; try done; intros ? [] [= <-]; done. Qed.
Definition c_disk : cell sys (memdisk) := field disk set_disk.
#[global] Instance c_disk_laws : CellLaws c_disk.
Proof. constructor; simpl; try done; intros ? [] [= <-]; done. Qed.
Definition c_log : cell sys (logst) := field log set_log.
#[global] Instance c_log_laws : CellLaws c_log.
Proof. constructor; simpl; try done; intros ? [] [= <-]; done. Qed.
Definition c_sb : cell sys (superblock) := field sb set_sb.
#[global] Instance c_sb_laws : CellLaws c_sb.
Proof. constructor; simpl; try done; intros ? [] [= <-]; done. Qed.
Definition c_ic_lock : cell sys (spinlock) := field ic_lock set_ic_lock.
#[global] Instance c_ic_lock_laws : CellLaws c_ic_lock.
Proof. constructor; simpl; try done; intros ? [] [= <-]; done. Qed.
Definition c_inodes : cell sys (list inode) := field inodes set_inodes.
#[global] Instance c_inodes_laws : CellLaws c_inodes.
Proof. constructor; simpl; try done; intros ? [] [= <-]; done. Qed.
Definition c_ft_lock : cell sys (spinlock) := field ft_lock set_ft_lock.
#[global] Instance c_ft_lock_laws : CellLaws c_ft_lock.
Proof. constructor; simpl; try done; intros ? [] [= <-]; done. Qed.
Definition c_files : cell sys (list file) := field files set_files.
#[global] Instance c_files_laws : CellLaws c_files.
Proof. constructor; simpl; try done; intros ? [] [= <-]; done. Qed.
Definition c_self : cell sys (task) := field self set_self.
#[global] Instance c_self_laws : CellLaws c_self.
Proof. constructor; simpl; try done; intros ? [] [= <-]; done. Qed.

(** A pipe by its address. *)
Definition c_pipe (a : Z) : cell sys pipe :=
  mkCell (fun x => pipes x !! a) (fun p x => set_pipes (<[a := p]> (pipes x)) x).
#[global] Instance c_pipe_laws a : CellLaws (c_pipe a).
Proof.
  constructor; simpl; intros.
  - apply lookup_insert_eq.
  - unfold set_pipes. simpl. by rewrite insert_insert_eq.
  - rewrite insert_id by done. by destruct x.
Qed.

Definition c_buf (b : nat) : cell sys buf := c_bufs @ elem b.
Definition c_inode (i : nat) : cell sys inode := c_inodes @ elem i.
Definition c_file (f : nat) : cell sys file := c_files @ elem f.
