(* ===== verification/Words.v ===== *)
(** * Words in blocks

    The on-disk structures of fs.h are C structures laid over the bytes of a block:
    little endian words of two and four bytes.  [splice] is [memmove] into a block,
    [getn] and [putn] read and write a field of [k] bytes at an offset. *)

From stdpp Require Import base tactics list.
From Stdlib Require Import ZArith Lia.
From S2P Require Import Prelude StringC.
Open Scope Z_scope.

(** ** Overwriting a part of a block *)

Section Splice.
Context {A : Type}.
Implicit Types (s d : list A) (o k : nat).

Definition slice o k d : list A := take k (drop o d).
Definition splice o s d : list A := take o d ++ s ++ drop (o + length s) d.

Lemma length_splice o s d : (o + length s <= length d)%nat -> length (splice o s d) = length d.
Proof. intros Hl. unfold splice. rewrite !length_app, length_take, length_drop. lia. Qed.

Lemma length_slice o k d : (o + k <= length d)%nat -> length (slice o k d) = k.
Proof. intros Hl. unfold slice. rewrite length_take, length_drop. lia. Qed.

Lemma lookup_slice o k d i : (i < k)%nat -> slice o k d !! i = d !! (o + i)%nat.
Proof. intros Hi. unfold slice. by rewrite lookup_take_lt, lookup_drop. Qed.

Lemma lookup_splice_in o s d i : (o + length s <= length d)%nat -> (o <= i < o + length s)%nat ->
  splice o s d !! i = s !! (i - o)%nat.
Proof.
  intros Hl Hi. unfold splice. rewrite lookup_app_r; rewrite length_take, ?Nat.min_l by lia; [|lia].
  by rewrite lookup_app_l by lia.
Qed.

Lemma lookup_splice_out o s d i : (o + length s <= length d)%nat -> (i < o \/ o + length s <= i)%nat ->
  splice o s d !! i = d !! i.
Proof.
  intros Hl [Hi|Hi]; unfold splice.
  - rewrite lookup_app_l by (rewrite length_take; lia). by rewrite lookup_take_lt.
  - rewrite lookup_app_r; rewrite length_take, ?Nat.min_l by lia; [|lia].
    rewrite lookup_app_r, lookup_drop by lia. f_equal. lia.
Qed.

Lemma slice_splice_same o s d : (o + length s <= length d)%nat -> slice o (length s) (splice o s d) = s.
Proof.
  intros Hl. unfold slice, splice. rewrite drop_app_ge; rewrite length_take, Nat.min_l by lia; [|lia].
  rewrite Nat.sub_diag, drop_0. by rewrite take_app_length.
Qed.

Lemma slice_splice_other o s d o' k : (o + length s <= length d)%nat -> (o' + k <= length d)%nat ->
  (o' + k <= o \/ o + length s <= o')%nat -> slice o' k (splice o s d) = slice o' k d.
Proof.
  intros Hl Hk Hd. apply list_eq_same_length with (n := k);
    [by apply length_slice|rewrite length_slice; rewrite ?length_splice; lia|].
  intros i a b Hi. rewrite !lookup_slice, lookup_splice_out by lia. congruence.
Qed.

Lemma splice_slice o k d : (o + k <= length d)%nat -> splice o (slice o k d) d = d.
Proof.
  intros Hl. unfold splice. rewrite length_slice by done. unfold slice.
  rewrite <- (take_drop o d) at 4. f_equal. rewrite <- (take_drop k (drop o d)) at 2. f_equal.
  by rewrite drop_drop.
Qed.

End Splice.

(** ** Little endian numbers *)

Fixpoint le_bytes (k : nat) (v : Z) : list Z :=
  match k with O => [] | S k => (v mod 256) :: le_bytes k (v / 256) end.

Fixpoint le_val (bs : list Z) : Z :=
  match bs with [] => 0 | b :: bs => b + 256 * le_val bs end.

Lemma length_le_bytes k : forall v, length (le_bytes k v) = k.
Proof. induction k; intros; simpl; auto. Qed.

Lemma le_val_bytes k : forall v, le_val (le_bytes k v) = v mod 2 ^ (8 * Z.of_nat k).
Proof.
  induction k as [|k IH]; intros v; cbn [le_bytes le_val]; [by rewrite Z.mod_1_r|].
  rewrite IH. replace (8 * Z.of_nat (S k)) with (8 + 8 * Z.of_nat k) by lia.
  rewrite Z.pow_add_r by lia. change (2 ^ 8) with 256. rewrite Z.rem_mul_r by lia. lia.
Qed.

Lemma le_bytes_ok k : forall v, Forall (fun b => 0 <= b < 256) (le_bytes k v).
Proof.
  induction k as [|k IH]; intros v; simpl; constructor; [|apply IH]. apply Z.mod_pos_bound. lia.
Qed.

Lemma le_val_range bs : Forall (fun b => 0 <= b < 256) bs -> 0 <= le_val bs < 2 ^ (8 * Z.of_nat (length bs)).
Proof.
  induction bs as [|b bs IH]; intros Hb; cbn [le_val length]; [done|].
  apply Forall_cons in Hb as [Hb Hbs]. specialize (IH Hbs).
  replace (8 * Z.of_nat (S (length bs))) with (8 + 8 * Z.of_nat (length bs)) by lia.
  rewrite Z.pow_add_r by lia. change (2 ^ 8) with 256. nia.
Qed.

(** A field of [k] bytes at offset [o]. *)
Definition getn (k o : nat) (d : list Z) : Z := le_val (slice o k d).
Definition putn (k o : nat) (v : Z) (d : list Z) : list Z := splice o (le_bytes k v) d.

Abbreviation get16 := (getn 2).
Abbreviation get32 := (getn 4).
Abbreviation put16 := (putn 2).
Abbreviation put32 := (putn 4).

Lemma length_putn k o v d : (o + k <= length d)%nat -> length (putn k o v d) = length d.
Proof. intros Hl. apply length_splice. by rewrite length_le_bytes. Qed.

Lemma getn_putn_same k o v d : (o + k <= length d)%nat -> getn k o (putn k o v d) = v mod 2 ^ (8 * Z.of_nat k).
Proof.
  intros Hl. unfold getn, putn. rewrite <- le_val_bytes. f_equal. rewrite <- (length_le_bytes k v) at 1.
  apply slice_splice_same. by rewrite length_le_bytes.
Qed.

Lemma getn_putn_other k o v d k' o' : (o + k <= length d)%nat -> (o' + k' <= length d)%nat ->
  (o' + k' <= o \/ o + k <= o')%nat -> getn k' o' (putn k o v d) = getn k' o' d.
Proof.
  intros Hl Hl' Ho. unfold getn, putn. f_equal. apply slice_splice_other; rewrite ?length_le_bytes; lia.
Qed.

Lemma getn_range k o d : (o + k <= length d)%nat -> Forall (fun b => 0 <= b < 256) d ->
  0 <= getn k o d < 2 ^ (8 * Z.of_nat k).
Proof.
  intros Hl Hd. unfold getn. rewrite <- (length_slice o k d Hl) at 3. apply le_val_range.
  by apply Forall_take, Forall_drop.
Qed.

Create Rewrite HintDb words.
#[export] Hint Rewrite @length_putn @length_splice @length_le_bytes @length_insert using (rewrite ?length_le_bytes; lia) : words.

(** A [short]. *)
Definition i16 (z : Z) : Z := (z + 2 ^ 15) mod 2 ^ 16 - 2 ^ 15.

Lemma i16_id z : - 2 ^ 15 <= z < 2 ^ 15 -> i16 z = z.
Proof. intros. unfold i16. rewrite Z.mod_small; lia. Qed.

(** ** Words in memory *)

Definition load_word (m : memory) (a : Z) : Z := le_val [m a; m (a + 1); m (a + 2); m (a + 3)].

Lemma land_byte z : Z.land z 0xff = z mod 256.
Proof. change 0xff with (Z.ones 8). by rewrite Z.land_ones by lia. Qed.

Lemma load_store_word m a w : 0 <= w < 2 ^ 32 -> load_word (store_word m a w) a = w.
Proof.
  intros Hw. unfold load_word, store_word, upd.
  rewrite !(proj2 (Z.eqb_neq _ _)) by lia. rewrite !Z.eqb_refl. rewrite !(proj2 (Z.eqb_neq _ _)) by lia. rewrite ?Z.eqb_refl.
  transitivity (le_val (le_bytes 4 w)); [|rewrite le_val_bytes; by apply Z.mod_small].
  cbn [le_bytes]. rewrite !land_byte, !Z.shiftr_div_pow2, !Z.div_div by lia. done.
Qed.

Lemma load_word_frame m m' p : (forall a, p <= a < p + 4 -> m' a = m a) -> load_word m' p = load_word m p.
Proof. intros H'. unfold load_word. rewrite !H' by lia. done. Qed.

Lemma store_word_out (m : memory) a w b : b < a \/ a + 4 <= b -> store_word m a w b = m b.
Proof. intros Hb. unfold store_word, upd. by rewrite !(proj2 (Z.eqb_neq _ _)) by lia. Qed.

Lemma load_store_other m a w b : b + 4 <= a \/ a + 4 <= b -> load_word (store_word m a w) b = load_word m b.
Proof. intros Hb. apply load_word_frame. intros c Hc. apply store_word_out. lia. Qed.
