(* ===== verification/Solo.v ===== *)
(** * A machine with one process

    The smallest kernel the components run on: one CPU, one process that never has to
    wait.  The examples of the storage stack run on it. *)

From stdpp Require Import base tactics list sets strings.
From Stdlib Require Import ZArith Lia.
From S2P Require Import Prelude Params Spinlock ProcState Comp SysState Words.
Open Scope Z_scope.

Record solo := mkSolo { so_mach : mach; so_sys : sys; so_pid : Z }.

#[export] Instance solo_mach : HasMach solo.
Proof.
  refine {| mach_of := so_mach; set_mach m s := mkSolo m (so_sys s) (so_pid s) |}; try done. by intros [].
Defined.

#[export] Instance solo_part : Part sys solo.
Proof.
  refine {| part := so_sys; set_part x s := mkSolo (so_mach s) x (so_pid s) |}; try done. by intros [].
Defined.

(** With nobody else to wait for, a process that sleeps sleeps for ever. *)
#[export] Instance solo_procs : Procs solo := {|
  sleep_on _ _ := fun _ => Spin;
  wakeup_on _ := ret tt;
  my_pid := gets so_pid;
  my_killed := ret 0
|}.

#[export] Instance solo_laws : ProcsLaws sys solo.
Proof.
  refine {| in_proc pid n s := so_pid s = pid /\ exists cp cq, kcpu 0 (so_mach s) n cp cq |}.
  - intros pid n s [Hp (cp & cq & Hk)]. exists cp, cq. split; [done|]. intros m n' Hk'. split; [done|]. by exists cp, cq.
  - done.
  - intros pid n s c Hs _. by exists s.
  - intros pid n s [<- Hs] _. by exists s.
Defined.

(** The machine between two system calls. *)
Definition solo_cpu : cpu := mkCpu 0 1 0 0 None None 0 0 0 0 (SEG16 0 0 0 0).
Definition solo_machine : mach := mkMach [solo_cpu] 1 0 true 0 0.

Lemma solo_in_proc x : in_proc (X := sys) 1 0 (mkSolo solo_machine x 1).
Proof.
  split; [done|]. exists None, None, solo_cpu. split; [|done].
  constructor; simpl; [done|done|lia|lia|lia|lia].
Qed.

(** Memory as the kernel is loaded, with a disk and a log. *)
Definition zero_lock : spinlock := mkLock 0 EmptyString None.
Definition zero_sl : sleeplock := mkSl 0 zero_lock EmptyString 0.
Definition zero_buffer : buf := mkBuf 0 0 0 zero_sl 0 0 0 None (replicate 512 0).
Definition zero_inode : inode := mkInode 0 0 0 zero_sl 0 0 0 0 0 0 (replicate 13 0).
Definition zero_file : file := mkFile FD_NONE 0 0 0 0 None 0.
Definition zero_task : task := mkTask (replicate 16 None) None 0 0 [] 0 0.
Definition blank_sys (m : memdisk) (l : logst) : sys :=
  mkSys (mkKmem zero_lock 0 0) (fun _ => 0) ∅ zero_lock (replicate (S NBUF) zero_buffer) m l
    (mkSb 0 0 0 0 0 0 0) zero_lock (replicate NINODE zero_inode) zero_lock (replicate NFILE zero_file) zero_task.

(** A disk of eight blocks with a log of four. *)
Definition zeros : list Z := replicate 512 0.
Definition example_disk : memdisk :=
  mkMemdisk 8 [zeros; put32 16 2 (put32 12 4 zeros); zeros; zeros; zeros; zeros; zeros; zeros] [].
Definition example_log : logst := mkLog zero_lock 2 4 1 0 1 0 (replicate LOGSIZE 0).
