(* ===== verification/Sleeplock.v ===== *)
(** * Sleep locks (sleeplock.c)

    The lock at a cell, with the channel [ch] its waiters sleep on; [fuel] bounds how
    often [acquiresleep] sleeps.  The lemmas are those of a process that finds the
    lock free. *)

From stdpp Require Import base tactics list sets strings gmap.
From Stdlib Require Import ZArith Lia.
From S2P Require Import Prelude Params StringC Spinlock ProcState Comp SysState.
Open Scope Z_scope.

Section Ops.
Context {S : Type} `{PX : Part sys S} `{PR : Procs S} (fuel : nat).

(** [lk->lk] *)
Definition inner (c : cell sys sleeplock) : lockref S := spin_of (c @ c_sl_lk).

Definition initsleeplock (c : cell sys sleeplock) (name : string) : M S unit :=
  initlock (inner c) "sleep lock" ;;;
  store (c @ c_sl_name) name ;;;
  store (c @ c_sl_locked) 0 ;;;
  store (c @ c_sl_pid) 0.

Definition acquiresleep (c : cell sys sleeplock) (ch : chan) : M S unit :=
  acquire (inner c) ;;;
  while_fuel (Datatypes.S fuel)
    (l <- load (c @ c_sl_locked) ;; ret (negb (l =? 0)))
    (sleep_on ch (inner c)) ;;;
  store (c @ c_sl_locked) 1 ;;;
  pid <- my_pid ;;
  store (c @ c_sl_pid) pid ;;;
  release (inner c).

Definition releasesleep (c : cell sys sleeplock) (ch : chan) : M S unit :=
  acquire (inner c) ;;;
  store (c @ c_sl_locked) 0 ;;;
  store (c @ c_sl_pid) 0 ;;;
  wakeup_on ch ;;;
  release (inner c).

Definition holdingsleep (c : cell sys sleeplock) : M S bool :=
  acquire (inner c) ;;;
  l <- load (c @ c_sl_locked) ;;
  r <- (if l =? 0 then ret false
        else p <- load (c @ c_sl_pid) ;; me <- my_pid ;; ret (p =? me)) ;;
  release (inner c) ;;;
  ret r.

End Ops.

(** ** Facts *)

Section Facts.
Context {S : Type} `{PL : ProcsLaws sys S} (fuel : nat) (pid : Z).
Implicit Types (c : cell sys sleeplock) (x : sys).

Abbreviation runs := (runs (X := sys) (S := S) pid).

(** A lock nobody holds, and one process [pid] holds. *)
Definition sl_free (l : sleeplock) : Prop := sl_locked l = 0 /\ sl_pid l = 0 /\ free_lock (sl_lk l).
Definition sl_held (l : sleeplock) : Prop := sl_locked l = 1 /\ sl_pid l = pid /\ free_lock (sl_lk l).

Definition sl_take (l : sleeplock) : sleeplock := mkSl 1 (sl_lk l) (sl_name l) pid.
Definition sl_drop (l : sleeplock) : sleeplock := mkSl 0 (sl_lk l) (sl_name l) 0.

Lemma inside_get {Y Z : Type} (c : cell sys Y) (d : cell Y Z) x y z :
  cget c x = Some y -> cget d y = Some z -> cget (c @ d) x = Some z.
Proof. intros Hc Hd. simpl. by rewrite Hc. Qed.

Lemma inside_set {Y Z : Type} (c : cell sys Y) (d : cell Y Z) x y z :
  cget c x = Some y -> cset (c @ d) z x = cset c (cset d z y) x.
Proof. intros Hc. simpl. by rewrite Hc. Qed.

Lemma shallow_le n : 0 <= n <= 5 -> shallow n.
Proof. unfold shallow. lia. Qed.

(** One step of straight-line code on the lock [l] at [c]: the state is [cset c l x]. *)
Lemma sl_load {Z : Type} n c `{!CellLaws c} x l0 l (d : cell sleeplock Z) z :
  cget c x = Some l0 -> cget d l = Some z -> runs n (load (c @ d)) (cset c l x) n z (cset c l x).
Proof. intros Hc Hd. apply runs_load. eapply inside_get; [|done]. by eapply cget_cset. Qed.

Lemma sl_store {Z : Type} n c `{!CellLaws c} x l0 l (d : cell sleeplock Z) z z0 :
  cget c x = Some l0 -> cget d l = Some z0 ->
  runs n (store (c @ d) z) (cset c l x) n tt (cset c (cset d z l) x).
Proof.
  intros Hc Hd. pose proof (cget_cset l l0 x Hc) as Hl.
  replace (cset c (cset d z l) x) with (cset (c @ d) z (cset c l x)).
  - eapply runs_store. by eapply inside_get.
  - rewrite (inside_set _ _ _ l) by done. apply cset_cset.
Qed.

Lemma sl_acquire n c `{!CellLaws c} x l0 l : cget c x = Some l0 -> free_lock (sl_lk l) -> shallow n ->
  runs n (acquire (inner c)) (cset c l x) (n + 1) tt (cset c (set_sl_lk (locked_by0 (sl_lk l)) l) x).
Proof.
  intros Hc Hf Hn. pose proof (cget_cset l l0 x Hc) as Hl.
  replace (cset c (set_sl_lk (locked_by0 (sl_lk l)) l) x) with
    (cset (c @ c_sl_lk) (locked_by0 (sl_lk l)) (cset c l x)).
  - apply runs_acquire; [apply _| |done|done]. by eapply inside_get.
  - rewrite (inside_set _ _ _ l) by done. apply cset_cset.
Qed.

Lemma sl_release n c `{!CellLaws c} x l0 l lk : cget c x = Some l0 -> free_lock lk ->
  shallow n -> 0 < n -> sl_lk l = locked_by0 lk ->
  runs n (release (inner c)) (cset c l x) (n - 1) tt (cset c (set_sl_lk lk l) x).
Proof.
  intros Hc Hf Hn Hp Hlk. pose proof (cget_cset l l0 x Hc) as Hl.
  replace (cset c (set_sl_lk lk l) x) with
    (cset (c @ c_sl_lk) (mkLock 0 (lk_name (sl_lk l)) None) (cset c l x)).
  - apply runs_release; [apply _| | |done|done]; [by eapply inside_get|]. by rewrite Hlk.
  - rewrite (inside_set _ _ _ l) by done. rewrite cset_cset, Hlk. simpl. by rewrite free_unlocked.
Qed.

Lemma initsleeplock_runs n c `{!CellLaws c} name x l : cget c x = Some l ->
  runs n (initsleeplock c name) x n tt (cset c (mkSl 0 (mkLock 0 "sleep lock" None) name 0) x).
Proof.
  intros Hc. unfold initsleeplock.
  eapply runs_bind; [apply (runs_initlock pid n (c @ c_sl_lk))|]. rewrite (inside_set _ _ _ l) by done.
  eapply runs_bind; [by eapply sl_store|]. eapply runs_bind; [by eapply sl_store|]. by eapply sl_store.
Qed.

Lemma acquiresleep_runs c `{!CellLaws c} ch x l : cget c x = Some l -> sl_free l ->
  runs 0 (acquiresleep fuel c ch) x 0 tt (cset c (sl_take l) x).
Proof.
  intros Hc (Hl & Hp & Hf). unfold acquiresleep.
  rewrite <- (cset_same l x Hc) at 1. pose proof (shallow_le 0 ltac:(lia)). pose proof (shallow_le 1 ltac:(lia)).
  eapply runs_bind; [by eapply sl_acquire|]. eapply runs_bind.
  { cbn [while_fuel]. eapply runs_bind.
    - eapply runs_bind; [by eapply sl_load|apply runs_ret].
    - simpl. rewrite Hl. apply runs_ret. }
  eapply runs_bind; [by eapply sl_store|]. eapply runs_bind; [by apply runs_pid|].
  eapply runs_bind; [by eapply sl_store|].
  replace (cset c (sl_take l) x) with (cset c (set_sl_lk (sl_lk l)
    (cset c_sl_pid pid (cset c_sl_locked 1 (set_sl_lk (locked_by0 (sl_lk l)) l)))) x) by done.
  by eapply (sl_release 1).
Qed.

Lemma releasesleep_runs c `{!CellLaws c} ch x l : cget c x = Some l -> free_lock (sl_lk l) ->
  runs 0 (releasesleep c ch) x 0 tt (cset c (sl_drop l) x).
Proof.
  intros Hc Hf. unfold releasesleep.
  rewrite <- (cset_same l x Hc) at 1. pose proof (shallow_le 0 ltac:(lia)). pose proof (shallow_le 1 ltac:(lia)).
  eapply runs_bind; [by eapply sl_acquire|]. eapply runs_bind; [by eapply sl_store|].
  eapply runs_bind; [by eapply sl_store|]. eapply runs_bind; [by apply runs_wakeup|].
  replace (cset c (sl_drop l) x) with (cset c (set_sl_lk (sl_lk l)
    (cset c_sl_pid 0 (cset c_sl_locked 0 (set_sl_lk (locked_by0 (sl_lk l)) l)))) x) by done.
  by eapply (sl_release 1).
Qed.

Lemma holdingsleep_runs c `{!CellLaws c} x l : cget c x = Some l -> free_lock (sl_lk l) ->
  runs 0 (holdingsleep c) x 0 (negb (sl_locked l =? 0) && (sl_pid l =? pid)) x.
Proof.
  intros Hc Hf. unfold holdingsleep.
  rewrite <- (cset_same l x Hc). pose proof (shallow_le 0 ltac:(lia)). pose proof (shallow_le 1 ltac:(lia)).
  eapply runs_bind; [by eapply sl_acquire|]. eapply runs_bind; [by eapply sl_load|].
  eapply (runs_bind pid 1 1 0) with (x1 := cset c (set_sl_lk (locked_by0 (sl_lk l)) l) x)
    (a := negb (sl_locked l =? 0) && (sl_pid l =? pid)).
  - simpl. destruct (sl_locked l =? 0); [apply runs_ret|].
    eapply runs_bind; [by eapply (sl_load 1 c x l _ c_sl_pid)|]. eapply runs_bind; [by apply runs_pid|]. apply runs_ret.
  - eapply runs_bind; [by eapply (sl_release 1)|].
    replace (set_sl_lk (sl_lk l) (set_sl_lk (locked_by0 (sl_lk l)) l)) with l by (by destruct l). apply runs_ret.
Qed.

Lemma holdingsleep_held c `{!CellLaws c} x l : cget c x = Some l -> sl_held l ->
  runs 0 (holdingsleep c) x 0 true x.
Proof.
  intros Hc (Hl & Hp & Hf). pose proof (holdingsleep_runs c x l Hc Hf) as Hr.
  by rewrite Hl, Hp, Z.eqb_refl in Hr.
Qed.

End Facts.
