(* ===== verification/Bio.v ===== *)
(** * The buffer cache and the memory disk (bio.c, memide.c)

    [bget], [bread], [bwrite] and [brelse] on the array of buffers and its doubly
    linked list, over the disk driver of memide.c.

    The cache is proved to implement a store of blocks: [content] is what a reader of
    a block sees, and reading, releasing and recycling buffers do not change it. *)

From stdpp Require Import base tactics list sets strings gmap.
From Stdlib Require Import ZArith Lia.
From S2P Require Import Prelude Params StringC Spinlock ProcState Comp SysState Solo Sleeplock.
Open Scope Z_scope.

(** fs.h and buf.h *)
Definition BSIZE : Z := 512.
Definition B_VALID : Z := 2.
Definition B_DIRTY : Z := 4.

(** [flags & m], [flags |= m] and [flags &= ~m]. *)
Definition has_flag (m fl : Z) : bool := negb (Z.land fl m =? 0).
Definition set_flag (m fl : Z) : Z := Z.lor fl m.
Definition clear_flag (m fl : Z) : Z := Z.land fl (Z.lnot m).

(** The address a process waiting for the lock of a buffer sleeps on. *)
Definition buflock_chan (b : nat) : chan := AddrChan (8 * Z.of_nat b).

Section Ops.
Context {S : Type} `{PX : Part sys S} `{PR : Procs S} (fuel : nat).
Abbreviation K := (M S).

Definition bcache_lock : lockref S := spin_of c_bc_lock.
Definition c_block (n : nat) : cell sys (list Z) := c_disk @ c_md_blocks @ elem n.

(** ** memide.c *)

(** [extern uchar _binary_fs_img_size]: the size of the image, in bytes. *)
Definition ideinit (img_size : Z) : K unit :=
  store (c_disk @ c_md_size) (img_size / BSIZE).

Definition ideintr : K unit := ret tt.

Definition iderw (b : nat) : K unit :=
  h <- holdingsleep (c_buf b @ c_b_lock) ;;
  if negb h then panic "iderw: buf not locked" else
  r <- load (c_buf b) ;;
  if Z.land (b_flags r) (Z.lor B_VALID B_DIRTY) =? B_VALID then panic "iderw: nothing to do" else
  if negb (b_dev r =? 1) then panic "iderw: request not for disk 1" else
  n <- load (c_disk @ c_md_size) ;;
  if n <=? b_blockno r then panic "iderw: block out of range" else
  let p := Z.to_nat (b_blockno r) in
  (if has_flag B_DIRTY (b_flags r) then
     update (c_buf b @ c_b_flags) (clear_flag B_DIRTY) ;;;
     store (c_block p) (b_data r) ;;;
     update (c_disk @ c_md_writes) (fun ws => ws ++ [(b_blockno r, b_data r)])
   else
     d <- load (c_block p) ;;
     store (c_buf b @ c_b_data) d) ;;;
  update (c_buf b @ c_b_flags) (set_flag B_VALID).

(** ** bio.c *)

Definition binit : K unit :=
  initlock bcache_lock "bcache" ;;;
  store (c_buf NBUF @ c_b_prev) NBUF ;;;
  store (c_buf NBUF @ c_b_next) NBUF ;;;
  for_each (seq 0 NBUF) (fun b =>
    h <- load (c_buf NBUF @ c_b_next) ;;
    store (c_buf b @ c_b_next) h ;;;
    store (c_buf b @ c_b_prev) NBUF ;;;
    initsleeplock (c_buf b @ c_b_lock) "buffer" ;;;
    h <- load (c_buf NBUF @ c_b_next) ;;
    store (c_buf h @ c_b_prev) b ;;;
    store (c_buf NBUF @ c_b_next) b).

(** [for(b = ...; b != &bcache.head; b = b->next)] up to a buffer [p] accepts; [dir]
    is [b_next] or [b_prev].  The list has [NBUF] buffers. *)
Fixpoint find_buf (dir : buf -> nat) (p : buf -> bool) (n : nat) (b : nat) : K (option nat) :=
  match n with
  | O => fuel_out
  | Datatypes.S n =>
      if (b =? NBUF)%nat then ret None else
      r <- load (c_buf b) ;;
      if p r then ret (Some b) else find_buf dir p n (dir r)
  end.

Definition bget (dev blockno : Z) : K nat :=
  acquire bcache_lock ;;;
  h <- load (c_buf NBUF @ c_b_next) ;;
  b <- find_buf b_next (fun r => (b_dev r =? dev) && (b_blockno r =? blockno)) (Datatypes.S NBUF) h ;;
  match b with
  | Some b =>
      update (c_buf b @ c_b_refcnt) (fun n => u32 (n + 1)) ;;;
      release bcache_lock ;;;
      acquiresleep fuel (c_buf b @ c_b_lock) (buflock_chan b) ;;;
      ret b
  | None =>
      h <- load (c_buf NBUF @ c_b_prev) ;;
      b <- find_buf b_prev (fun r => (b_refcnt r =? 0) && negb (has_flag B_DIRTY (b_flags r)))
             (Datatypes.S NBUF) h ;;
      match b with
      | Some b =>
          store (c_buf b @ c_b_dev) dev ;;;
          store (c_buf b @ c_b_blockno) blockno ;;;
          store (c_buf b @ c_b_flags) 0 ;;;
          store (c_buf b @ c_b_refcnt) 1 ;;;
          release bcache_lock ;;;
          acquiresleep fuel (c_buf b @ c_b_lock) (buflock_chan b) ;;;
          ret b
      | None => panic "bget: no buffers"
      end
  end.

Definition bread (dev blockno : Z) : K nat :=
  b <- bget dev blockno ;;
  fl <- load (c_buf b @ c_b_flags) ;;
  when (negb (has_flag B_VALID fl)) (iderw b) ;;;
  ret b.

Definition bwrite (b : nat) : K unit :=
  h <- holdingsleep (c_buf b @ c_b_lock) ;;
  if negb h then panic "bwrite" else
  update (c_buf b @ c_b_flags) (set_flag B_DIRTY) ;;;
  iderw b.

(** The list operations of [brelse]. *)
Definition move_to_front (b : nat) : K unit :=
  nx <- load (c_buf b @ c_b_next) ;; pv <- load (c_buf b @ c_b_prev) ;;
  store (c_buf nx @ c_b_prev) pv ;;;
  pv <- load (c_buf b @ c_b_prev) ;; nx <- load (c_buf b @ c_b_next) ;;
  store (c_buf pv @ c_b_next) nx ;;;
  h <- load (c_buf NBUF @ c_b_next) ;;
  store (c_buf b @ c_b_next) h ;;;
  store (c_buf b @ c_b_prev) NBUF ;;;
  h <- load (c_buf NBUF @ c_b_next) ;;
  store (c_buf h @ c_b_prev) b ;;;
  store (c_buf NBUF @ c_b_next) b.

Definition brelse (b : nat) : K unit :=
  h <- holdingsleep (c_buf b @ c_b_lock) ;;
  if negb h then panic "brelse" else
  releasesleep (c_buf b @ c_b_lock) (buflock_chan b) ;;;
  acquire bcache_lock ;;;
  update (c_buf b @ c_b_refcnt) (fun n => u32 (n - 1)) ;;;
  n <- load (c_buf b @ c_b_refcnt) ;;
  when (n =? 0) (move_to_front b) ;;;
  release bcache_lock.

End Ops.

(** ** Doubly linked lists *)

Section Lists.
Implicit Types (nx pv : nat -> nat) (l : list nat).

Definition fupd (f : nat -> nat) (a v : nat) : nat -> nat := fun b => if decide (b = a) then v else f b.

Lemma fupd_eq f a v : fupd f a v a = v.
Proof. unfold fupd. by rewrite decide_True. Qed.

Lemma fupd_ne f a v b : b <> a -> fupd f a v b = f b.
Proof. intros. unfold fupd. by rewrite decide_False. Qed.

(** From [a] through [l] to [z], both ways. *)
Fixpoint seg nx pv (a : nat) l (z : nat) : Prop :=
  match l with
  | [] => nx a = z /\ pv z = a
  | b :: l => nx a = b /\ pv b = a /\ seg nx pv b l z
  end.

Lemma seg_app nx pv a l1 b l2 z :
  seg nx pv a (l1 ++ b :: l2) z <-> seg nx pv a l1 b /\ seg nx pv b l2 z.
Proof.
  revert a. induction l1 as [|c l1 IH]; intros a; simpl; [tauto|]. rewrite IH. tauto.
Qed.

Lemma seg_ext nx pv nx' pv' a l z : seg nx pv a l z ->
  (forall b, b ∈ a :: l -> nx' b = nx b) -> (forall b, b ∈ l ++ [z] -> pv' b = pv b) -> seg nx' pv' a l z.
Proof.
  revert a. induction l as [|c l IH]; intros a Hs Hn Hp; simpl in *.
  - rewrite Hn, Hp by set_solver. done.
  - destruct Hs as (H1 & H2 & H3). rewrite Hn, Hp by set_solver. split; [done|]. split; [done|].
    apply IH; [done|set_solver|set_solver].
Qed.

Lemma seg_head nx pv a l z : seg nx pv a l z -> nx a = hd z l.
Proof. destruct l; simpl; tauto. Qed.

(** The list with its head [h]. *)
Definition ring nx pv (h : nat) l : Prop := seg nx pv h l h /\ NoDup (h :: l).

(** Taking [b] out of the list. *)
Lemma ring_unlink nx pv h l1 b l2 : ring nx pv h (l1 ++ b :: l2) ->
  ring (fupd nx (pv b) (nx b)) (fupd pv (nx b) (pv b)) h (l1 ++ l2).
Proof.
  intros [Hs Hd]. apply seg_app in Hs as [H1 H2].
  assert (NoDup (h :: l1 ++ l2)) as Hd'.
  { rewrite NoDup_cons, NoDup_app, NoDup_cons in Hd. rewrite NoDup_cons, NoDup_app. set_solver. }
  split; [|done]. pose proof (seg_head _ _ _ _ _ H2) as Hnb.
  destruct l1 as [|c l1 _] using rev_ind.
  - simpl in H1. destruct H1 as [_ Hpb]. rewrite Hpb. destruct l2 as [|d l2]; simpl in *.
    + rewrite Hnb. by rewrite !fupd_eq.
    + destruct H2 as (_ & _ & H2). rewrite Hnb, !fupd_eq. split; [done|]. split; [done|].
      rewrite !NoDup_cons in Hd'. apply (seg_ext _ _ _ _ _ _ _ H2); intros e He; apply fupd_ne.
      * set_solver.
      * apply elem_of_app in He as [He|He%list_elem_of_singleton]; set_solver.
  - apply seg_app in H1 as [H1 [Hc Hpb]]. rewrite Hpb.
    rewrite <- !app_assoc in *. simpl in *. apply seg_app. split.
    + rewrite NoDup_cons, NoDup_app, NoDup_cons in Hd'. apply (seg_ext _ _ _ _ _ _ _ H1); intros e He; apply fupd_ne.
      * set_solver.
      * rewrite Hnb. destruct l2 as [|d l2]; simpl; set_solver.
    + destruct l2 as [|d l2]; simpl in *.
      * rewrite Hnb. by rewrite !fupd_eq.
      * destruct H2 as (_ & _ & H2). rewrite Hnb, !fupd_eq. split; [done|]. split; [done|].
        rewrite !NoDup_cons, NoDup_app, !NoDup_cons in Hd'.
        apply (seg_ext _ _ _ _ _ _ _ H2); intros e He; apply fupd_ne.
        -- set_solver.
        -- apply elem_of_app in He as [He|He%list_elem_of_singleton]; set_solver.
Qed.

(** Putting [b] at its front. *)
Lemma ring_push nx pv h l b : ring nx pv h l -> b ∉ h :: l ->
  ring (fupd (fupd nx b (nx h)) h b) (fupd (fupd pv b h) (nx h) b) h (b :: l).
Proof.
  intros [Hs Hd] Hb. pose proof (seg_head _ _ _ _ _ Hs) as Hh. apply not_elem_of_cons in Hb as [Hbh Hbl].
  rewrite NoDup_cons in Hd. destruct Hd as [Hhl Hd]. split.
  - simpl. rewrite fupd_eq. split; [done|]. destruct l as [|d l]; simpl in *.
    + rewrite Hh. rewrite (fupd_ne _ h b b), fupd_eq by done. rewrite fupd_eq.
      rewrite (fupd_ne _ h b b), fupd_eq by done. done.
    + destruct Hs as (_ & _ & Hs). rewrite Hh. apply not_elem_of_cons in Hbl as [Hbd Hbl].
      rewrite (fupd_ne _ d b b), fupd_eq by done. rewrite (fupd_ne _ h b b), fupd_eq by done. rewrite fupd_eq.
      split; [done|]. split; [done|]. split; [done|]. apply NoDup_cons in Hd as [Hdl Hd].
      apply (seg_ext _ _ _ _ _ _ _ Hs); intros e He.
      * rewrite !fupd_ne; [done| |]; set_solver.
      * apply elem_of_app in He as [He|He%list_elem_of_singleton]; rewrite !fupd_ne; set_solver.
  - rewrite !NoDup_cons. set_solver.
Qed.

End Lists.

Lemma seg_rev nx pv a l z : seg nx pv a l z -> seg pv nx z (reverse l) a.
Proof.
  revert a. induction l as [|c l IH]; intros a Hs; simpl in Hs.
  - rewrite reverse_nil. simpl. tauto.
  - destruct Hs as (H1 & H2 & H3). rewrite reverse_cons. apply seg_app. split; [by apply IH|]. done.
Qed.

(** ** The cache *)

(** The buffer [b] of [x] replaced. *)
Definition put_buf (b : nat) (r : buf) (x : sys) : sys := set_bufs (<[b := r]> (bufs x)) x.

(** The two directions of the list. *)
Definition link (dir : buf -> nat) (x : sys) (b : nat) : nat :=
  match bufs x !! b with Some r => dir r | None => b end.

(** The buffers of the cache: not its head. *)
Definition buf_at (x : sys) (b : nat) (r : buf) : Prop := (b < NBUF)%nat /\ bufs x !! b = Some r.

Definition block_in (m : memdisk) (n : Z) : list Z := nth (Z.to_nat n) (md_blocks m) [].
Definition block_of (x : sys) (n : Z) : list Z := block_in (disk x) n.

(** What a reader of block [n] sees: a buffer of it, or the disk. *)
Definition content (x : sys) (n : Z) : list Z :=
  match first_some (fun b => match bufs x !! b with
                             | Some r => if (b_dev r =? 1) && (b_blockno r =? n) then Some (b_data r) else None
                             | None => None
                             end) (seq 0 NBUF) with
  | Some d => d
  | None => block_of x n
  end.

Section Cache.
Context (pid : Z).

(** A buffer, free or held by process [pid]. *)
Record buf_ok (m : memdisk) (hs : list nat) (b : nat) (r : buf) : Prop := {
  bo_lock : if decide (b ∈ hs) then sl_held pid (b_lock r) /\ b_refcnt r = 1 /\ b_dev r = 1
            else sl_free (b_lock r) /\ b_refcnt r = 0;
  bo_flags : (b_dev r = 0 /\ b_flags r = 0) \/
             (b_dev r = 1 /\ (b_flags r = 2 \/ b_flags r = 6) /\ 0 <= b_blockno r < md_size m);
  bo_clean : b ∉ hs -> b_dev r = 1 -> b_flags r = 2 -> b_data r = block_in m (b_blockno r)
}.

(** The cache with the buffers [hs] held, when no other process uses it. *)
Record cache (hs : list nat) (x : sys) : Prop := {
  ca_lock : free_lock (bc_lock x);
  ca_len : length (bufs x) = S NBUF;
  ca_ring : exists l, l ≡ₚ seq 0 NBUF /\ ring (link b_next x) (link b_prev x) NBUF l;
  ca_buf : forall b r, buf_at x b r -> buf_ok (disk x) hs b r;
  ca_inj : forall b c r q, buf_at x b r -> buf_at x c q -> b_dev r = 1 -> b_dev q = 1 ->
    b_blockno r = b_blockno q -> b = c;
  ca_held : NoDup hs /\ forall b, b ∈ hs -> (b < NBUF)%nat;
  ca_disk : md_size (disk x) = Z.of_nat (length (md_blocks (disk x)))
}.

Lemma content_cached hs x b r : cache hs x -> buf_at x b r -> b_dev r = 1 ->
  content x (b_blockno r) = b_data r.
Proof.
  intros Hc Hb Hd. unfold content.
  destruct (first_some _ _) as [d|] eqn:E.
  - apply first_some_Some in E as (c & Hc2 & Hf). destruct (bufs x !! c) as [q|] eqn:Hq; [|done].
    destruct ((b_dev q =? 1) && (b_blockno q =? b_blockno r)) eqn:Ht; [|done]. injection Hf as <-.
    apply andb_prop in Ht as [H1%Z.eqb_eq H2%Z.eqb_eq]. apply elem_of_seq in Hc2.
    assert (c = b) as ->.
    { apply (ca_inj _ _ Hc c b q r); try done. split; [lia|done]. }
    destruct Hb as [_ Hb]. congruence.
  - rewrite first_some_None in E. destruct Hb as [Hlt Hb]. specialize (E b). rewrite elem_of_seq in E.
    specialize (E ltac:(lia)). rewrite Hb in E. rewrite Hd, Z.eqb_refl in E. simpl in E. by rewrite Z.eqb_refl in E.
Qed.

Lemma content_disk x n : (forall b r, buf_at x b r -> b_dev r = 1 -> b_blockno r <> n) ->
  content x n = block_of x n.
Proof.
  intros Hn. unfold content. destruct (first_some _ _) as [d|] eqn:E; [|done].
  apply first_some_Some in E as (c & Hc & Hf). destruct (bufs x !! c) as [q|] eqn:Hq; [|done].
  destruct ((b_dev q =? 1) && (b_blockno q =? n)) eqn:Ht; [|done].
  apply andb_prop in Ht as [H1%Z.eqb_eq H2%Z.eqb_eq]. apply elem_of_seq in Hc.
  destruct (Hn c q); [split; [lia|done]|done|done].
Qed.

(** The content of a block depends only on the buffers that hold it and the disk. *)
Lemma content_dec x n : (exists b r, buf_at x b r /\ b_dev r = 1 /\ b_blockno r = n) \/
  (forall b r, buf_at x b r -> b_dev r = 1 -> b_blockno r <> n).
Proof.
  destruct (first_some (fun b => match bufs x !! b with
     | Some r => if (b_dev r =? 1) && (b_blockno r =? n) then Some b else None | None => None end) (seq 0 NBUF)) as [b|] eqn:E.
  - left. apply first_some_Some in E as (c & Hc & Hf). destruct (bufs x !! c) as [q|] eqn:Hq; [|done].
    destruct ((b_dev q =? 1) && (b_blockno q =? n)) eqn:Ht; [|done].
    apply andb_prop in Ht as [H1%Z.eqb_eq H2%Z.eqb_eq]. apply elem_of_seq in Hc. exists c, q.
    split; [split; [lia|done]|done].
  - right. rewrite first_some_None in E. intros b r [Hlt Hb] Hd Hn. specialize (E b). rewrite elem_of_seq in E.
    specialize (E ltac:(lia)). rewrite Hb in E. rewrite Hd, Hn, !Z.eqb_refl in E. done.
Qed.

Lemma put_buf_at x b r r0 c q : bufs x !! b = Some r0 ->
  buf_at (put_buf b r x) c q <-> ((c < NBUF)%nat /\ c = b /\ q = r) \/ (c <> b /\ buf_at x c q).
Proof.
  intros Hb. unfold buf_at, put_buf. simpl. destruct (decide (c = b)) as [->|Hne].
  - rewrite list_lookup_insert_eq by (by eapply lookup_lt_Some). naive_solver.
  - rewrite list_lookup_insert_ne by done. naive_solver.
Qed.

Lemma put_buf_get x b r r0 : bufs x !! b = Some r0 -> bufs (put_buf b r x) !! b = Some r.
Proof. intros Hb. apply list_lookup_insert_eq. by eapply lookup_lt_Some. Qed.

Lemma put_buf_put x b r r' : put_buf b r (put_buf b r' x) = put_buf b r x.
Proof. unfold put_buf. simpl. by rewrite list_insert_insert_eq. Qed.

Lemma put_buf_same x b r : bufs x !! b = Some r -> put_buf b r x = x.
Proof. intros Hb. unfold put_buf. rewrite list_insert_id by done. by destruct x. Qed.

Lemma link_put dir x b r r0 c : bufs x !! b = Some r0 ->
  link dir (put_buf b r x) c = if decide (c = b) then dir r else link dir x c.
Proof.
  intros Hb. unfold link, put_buf. simpl. destruct (decide (c = b)) as [->|Hne].
  - by rewrite list_lookup_insert_eq by (by eapply lookup_lt_Some).
  - by rewrite list_lookup_insert_ne.
Qed.

(** Replacing a buffer by one with the same links keeps the list. *)
Lemma link_keep dir x b r r0 : bufs x !! b = Some r0 -> dir r = dir r0 ->
  forall c, link dir (put_buf b r x) c = link dir x c.
Proof.
  intros Hb Hd c. rewrite (link_put _ _ _ _ r0) by done. destruct (decide (c = b)) as [->|]; [|done].
  unfold link. by rewrite Hb.
Qed.

Lemma ring_keep x b r r0 h l : bufs x !! b = Some r0 -> b_next r = b_next r0 -> b_prev r = b_prev r0 ->
  ring (link b_next x) (link b_prev x) h l -> ring (link b_next (put_buf b r x)) (link b_prev (put_buf b r x)) h l.
Proof.
  intros Hb Hn Hp [Hs Hd]. split; [|done]. apply (seg_ext _ _ _ _ _ _ _ Hs); intros; by eapply link_keep.
Qed.

End Cache.

(** ** The operations *)

Section Facts.
Context {S : Type} `{PL : ProcsLaws sys S} (fuel : nat) (pid : Z).
Implicit Types (x : sys) (hs : list nat).
Abbreviation runs := (runs (X := sys) (S := S) pid).
Abbreviation cache := (cache pid).

(** *** Accesses to a buffer *)

Lemma c_buf_get x b r : bufs x !! b = Some r -> cget (c_buf b) x = Some r.
Proof. done. Qed.

Lemma c_buf_set x b r : cset (c_buf b) r x = put_buf b r x.
Proof. done. Qed.

#[local] Instance c_buf_laws b : CellLaws (c_buf b).
Proof. apply inside_laws; apply _. Qed.

Lemma buf_load {Z : Type} n x b r (d : cell buf Z) z : bufs x !! b = Some r -> cget d r = Some z ->
  runs n (load (c_buf b @ d)) x n z x.
Proof. intros Hb Hd. apply runs_load. eapply inside_get; [by apply c_buf_get|done]. Qed.

Lemma buf_store {Z : Type} n x b r (d : cell buf Z) z z0 : bufs x !! b = Some r -> cget d r = Some z0 ->
  runs n (store (c_buf b @ d) z) x n tt (put_buf b (cset d z r) x).
Proof.
  intros Hb Hd. rewrite <- c_buf_set, <- (inside_set (c_buf b) d x r z) by done.
  eapply runs_store. eapply inside_get; [by apply c_buf_get|done].
Qed.

Lemma buf_update {Z : Type} n x b r (d : cell buf Z) z f : bufs x !! b = Some r -> cget d r = Some z ->
  runs n (update (c_buf b @ d) f) x n tt (put_buf b (cset d (f z) r) x).
Proof.
  intros Hb Hd. rewrite <- c_buf_set, <- (inside_set (c_buf b) d x r (f z)) by done.
  eapply runs_update. eapply inside_get; [by apply c_buf_get|done].
Qed.

Lemma buf_flags n x b r fl f : bufs x !! b = Some r -> b_flags r = fl ->
  runs n (update (c_buf b @ c_b_flags) f) x n tt (put_buf b (set_b_flags (f fl) r) x).
Proof. intros Hb <-. by apply (buf_update n x b r c_b_flags). Qed.

Lemma buf_acquire x b r : bufs x !! b = Some r -> sl_free (b_lock r) ->
  runs 0 (acquiresleep fuel (c_buf b @ c_b_lock) (buflock_chan b)) x 0 tt
    (put_buf b (set_b_lock (sl_take pid (b_lock r)) r) x).
Proof.
  intros Hb Hf. rewrite <- c_buf_set.
  change (set_b_lock (sl_take pid (b_lock r)) r) with (cset c_b_lock (sl_take pid (b_lock r)) r).
  rewrite <- (inside_set (c_buf b) c_b_lock x r _) by done.
  eapply acquiresleep_runs; [apply _| |done]. eapply inside_get; [by apply c_buf_get|done].
Qed.

Lemma buf_release x b r : bufs x !! b = Some r -> free_lock (sl_lk (b_lock r)) ->
  runs 0 (releasesleep (c_buf b @ c_b_lock) (buflock_chan b)) x 0 tt
    (put_buf b (set_b_lock (sl_drop (b_lock r)) r) x).
Proof.
  intros Hb Hf. rewrite <- c_buf_set.
  change (set_b_lock (sl_drop (b_lock r)) r) with (cset c_b_lock (sl_drop (b_lock r)) r).
  rewrite <- (inside_set (c_buf b) c_b_lock x r _) by done.
  eapply releasesleep_runs; [apply _| |done]. eapply inside_get; [by apply c_buf_get|done].
Qed.

Lemma buf_holding x b r : bufs x !! b = Some r -> sl_held pid (b_lock r) ->
  runs 0 (holdingsleep (c_buf b @ c_b_lock)) x 0 true x.
Proof.
  intros Hb Hh. eapply holdingsleep_held; [apply _| |exact Hh].
  eapply inside_get; [by apply c_buf_get|done].
Qed.

(** *** Finding a buffer *)

(** The first buffer of [l] that [p] accepts. *)
Definition pick (p : buf -> bool) x (l : list nat) : option nat :=
  first_some (fun b => match bufs x !! b with Some r => if p r then Some b else None | None => None end) l.

Lemma find_buf_runs k dir bk p l : forall a n x,
  seg (link dir x) bk a l NBUF -> (forall b, b ∈ l -> (b < NBUF)%nat) -> length (bufs x) = Datatypes.S NBUF ->
  (length l < n)%nat -> runs k (find_buf dir p n (hd NBUF l)) x k (pick p x l) x.
Proof.
  induction l as [|b l IH]; intros a n x Hs Hl Hlen Hn; (destruct n as [|n]; [simpl in Hn; lia|]); cbn [find_buf hd].
  - rewrite Nat.eqb_refl. apply runs_ret.
  - destruct Hs as (_ & _ & Hs). specialize (Hl b) as Hb. specialize (Hb ltac:(set_solver)).
    destruct (Nat.eqb_spec b NBUF); [lia|].
    destruct (lookup_lt_is_Some_2 (bufs x) b) as [r Hr]; [lia|].
    eapply runs_bind; [apply runs_load; by apply c_buf_get|].
    unfold pick. simpl. rewrite Hr. destruct (p r) eqn:Hp; [apply runs_ret|].
    pose proof (seg_head _ _ _ _ _ Hs) as Hd. unfold link in Hd. rewrite Hr in Hd. rewrite Hd.
    apply (IH b n x); [done|set_solver|done|simpl in Hn; lia].
Qed.

Lemma pick_Some p x l b : pick p x l = Some b -> exists r, b ∈ l /\ bufs x !! b = Some r /\ p r = true.
Proof.
  unfold pick. intros (c & Hc & Hf)%first_some_Some. destruct (bufs x !! c) as [r|] eqn:Hr; [|done].
  destruct (p r) eqn:Hp; [|done]. injection Hf as ->. by exists r.
Qed.

Lemma pick_None p x l b r : pick p x l = None -> b ∈ l -> bufs x !! b = Some r -> p r = false.
Proof.
  unfold pick. rewrite first_some_None. intros Hn Hb Hr. specialize (Hn b Hb). rewrite Hr in Hn.
  by destruct (p r).
Qed.

(** *** memide.c *)

(** The disk after a write. *)
Definition write_block (n : Z) (d : list Z) (m : memdisk) : memdisk :=
  mkMemdisk (md_size m) (<[Z.to_nat n := d]> (md_blocks m)) (md_writes m ++ [(n, d)]).

Definition disk_has x (n : Z) : Prop :=
  0 <= n < md_size (disk x) /\ md_size (disk x) = Z.of_nat (length (md_blocks (disk x))).

Lemma block_cell x n : disk_has x n -> cget (c_block (Z.to_nat n)) x = Some (block_of x n).
Proof.
  intros [Hn Hs]. unfold c_block, block_of, block_in. simpl.
  destruct (lookup_lt_is_Some_2 (md_blocks (disk x)) (Z.to_nat n)) as [d Hd]; [lia|].
  by rewrite (nth_lookup_Some _ _ _ _ Hd).
Qed.

Lemma iderw_read x b r : bufs x !! b = Some r -> sl_held pid (b_lock r) -> b_flags r = 0 -> b_dev r = 1 ->
  disk_has x (b_blockno r) ->
  runs 0 (iderw b) x 0 tt (put_buf b (set_b_flags 2 (set_b_data (block_of x (b_blockno r)) r)) x).
Proof.
  intros Hb Hh Hf Hd Hn. unfold iderw. eapply runs_bind; [by eapply buf_holding|]. cbn [negb].
  eapply runs_bind; [apply runs_load; by apply c_buf_get|]. rewrite Hf, Hd.
  cbn [Z.land Z.lor B_VALID B_DIRTY Z.eqb negb Pos.eqb].
  eapply runs_bind; [by apply (runs_load pid 0 (c_disk @ c_md_size))|].
  destruct (Z.leb_spec (md_size (disk x)) (b_blockno r)) as [H1|_]; [destruct Hn; lia|].
  change (has_flag B_DIRTY 0) with false. cbv iota.
  eapply runs_bind; [eapply runs_bind; [apply runs_load; by apply block_cell|by eapply buf_store]|].
  rewrite <- (put_buf_put x b (set_b_flags 2 (set_b_data (block_of x (b_blockno r)) r))
    (cset c_b_data (block_of x (b_blockno r)) r)).
  eapply (buf_flags 0 _ b _ 0 (set_flag B_VALID)); [by eapply put_buf_get|done].
Qed.

Lemma iderw_write x b r : bufs x !! b = Some r -> sl_held pid (b_lock r) -> b_flags r = 6 -> b_dev r = 1 ->
  disk_has x (b_blockno r) ->
  runs 0 (iderw b) x 0 tt
    (set_disk (write_block (b_blockno r) (b_data r) (disk x)) (put_buf b (set_b_flags 2 r) x)).
Proof.
  intros Hb Hh Hf Hd Hn. unfold iderw. eapply runs_bind; [by eapply buf_holding|]. cbn [negb].
  eapply runs_bind; [apply runs_load; by apply c_buf_get|]. rewrite Hf, Hd.
  cbn [Z.land Z.lor B_VALID B_DIRTY Z.eqb negb Pos.eqb Pos.land Pos.lor].
  eapply runs_bind; [by apply (runs_load pid 0 (c_disk @ c_md_size))|].
  destruct (Z.leb_spec (md_size (disk x)) (b_blockno r)) as [H1|_]; [destruct Hn; lia|].
  change (has_flag B_DIRTY 6) with true. cbv iota.
  set (x1 := set_disk (write_block (b_blockno r) (b_data r) (disk x)) (put_buf b (set_b_flags 2 r) x)).
  assert (bufs x1 !! b = Some (set_b_flags 2 r)) as Hb1 by (by eapply put_buf_get).
  eapply (runs_bind pid 0 0 0) with (x1 := x1) (a := tt).
  - eapply runs_bind; [by eapply (buf_flags 0 x b r 6)|].
    eapply runs_bind; [eapply runs_store; apply (block_cell (put_buf b _ x)); exact Hn|].
    apply (runs_update pid 0 (c_disk @ c_md_writes)
      (cset (c_block (Z.to_nat (b_blockno r))) (b_data r) (put_buf b (set_b_flags 2 r) x)) (md_writes (disk x))).
    reflexivity.
  - rewrite <- (put_buf_same x1 b (set_b_flags 2 r) Hb1) at 2.
    by eapply (buf_flags 0 x1 b (set_b_flags 2 r) 2 (set_flag B_VALID)).
Qed.

(** *** Replacing a buffer *)

Lemma cache_put hs hs' x b r r' : cache hs x -> buf_at x b r ->
  b_next r' = b_next r -> b_prev r' = b_prev r -> buf_ok pid (disk x) hs' b r' ->
  (forall c, c <> b -> c ∈ hs <-> c ∈ hs') -> NoDup hs' -> (forall c, c ∈ hs' -> (c < NBUF)%nat) ->
  (b_dev r' = 1 -> forall c q, buf_at x c q -> c <> b -> b_dev q = 1 -> b_blockno q <> b_blockno r') ->
  cache hs' (put_buf b r' x).
Proof.
  intros [H1 H2 (l & Hl & Hr) H4 H5 H6 H7] [Hlt Hb] Hn Hp Hok Hhs Hnd Hbd Hnew. constructor; try done.
  - simpl. by rewrite length_insert.
  - exists l. split; [done|]. by eapply ring_keep.
  - intros c q Hq. apply (put_buf_at x b r' r c q Hb) in Hq as [(_ & -> & ->)|[Hne Hq]]; [done|].
    destruct (H4 c q Hq) as [K1 K2 K3]. specialize (Hhs c Hne). constructor; [|done|].
    + destruct (decide (c ∈ hs)), (decide (c ∈ hs')); tauto.
    + intros Hc. apply K3. tauto.
  - intros c d q q' Hq Hq' Hd Hd' He.
    apply (put_buf_at x b r' r c q Hb) in Hq as [(_ & -> & ->)|[Hne Hq]];
      apply (put_buf_at x b r' r d q' Hb) in Hq' as [(_ & -> & ->)|[Hne' Hq']]; try done.
    + destruct (Hnew Hd d q'); done.
    + destruct (Hnew Hd' c q); done.
    + by eapply H5.
Qed.

(** Blocks other than those of the old and the new buffer read the same. *)
Lemma content_put_other hs hs' x b r r' n : cache hs x -> cache hs' (put_buf b r' x) -> buf_at x b r ->
  (b_dev r = 1 -> b_blockno r <> n) -> (b_dev r' = 1 -> b_blockno r' <> n) ->
  content (put_buf b r' x) n = content x n.
Proof.
  intros Hc Hc' [Hlt Hb] Hn Hn'. destruct (content_dec x n) as [(c & q & Hq & Hd & <-)|Hno].
  - rewrite (content_cached _ _ _ _ _ Hc Hq Hd). apply (content_cached pid hs' _ c); [done| |done].
    apply (put_buf_at x b r' r); [done|]. right. split; [|done]. intros ->.
    destruct Hq as [_ Hq]. simplify_eq. by apply Hn.
  - rewrite (content_disk x n Hno). apply (content_disk (put_buf b r' x) n). intros c q Hq Hd.
    apply (put_buf_at x b r' r) in Hq as [(_ & -> & ->)|[_ Hq]]; [by apply Hn'|by eapply Hno|done].
Qed.

(** A buffer that keeps its block and its data. *)
Lemma content_put_same hs hs' x b r r' : cache hs x -> cache hs' (put_buf b r' x) -> buf_at x b r ->
  b_dev r' = b_dev r -> b_blockno r' = b_blockno r -> b_data r' = b_data r ->
  forall n, content (put_buf b r' x) n = content x n.
Proof.
  intros Hc Hc' Hb E1 E2 E3 n. destruct (decide (b_dev r = 1 /\ b_blockno r = n)) as [[Hd <-]|Hne].
  - rewrite (content_cached _ _ _ _ _ Hc Hb Hd), <- E3, <- E2. destruct Hb as [Hlt Hb].
    apply (content_cached pid hs' _ b); [done| |congruence]. split; [done|by eapply put_buf_get].
  - eapply content_put_other; [done|done|done| |]; intros; rewrite ?E2; intros ?; apply Hne; split; congruence.
Qed.

(** *** The locks of the cache *)

Lemma bc_acquire x : free_lock (bc_lock x) ->
  runs 0 (acquire bcache_lock) x 1 tt (set_bc_lock (locked_by0 (bc_lock x)) x).
Proof.
  intros Hf. apply (runs_acquire pid 0 c_bc_lock x (bc_lock x)); [done|done|]. apply shallow_le. lia.
Qed.

Lemma bc_release x l : free_lock l ->
  runs 1 (release bcache_lock) (set_bc_lock (locked_by0 l) x) 0 tt (set_bc_lock l x).
Proof.
  intros Hf. rewrite <- (free_unlocked l Hf) at 2.
  apply (runs_release pid 1 c_bc_lock (set_bc_lock (locked_by0 l) x) (locked_by0 l)); [done|done| |lia].
  apply shallow_le. lia.
Qed.

Lemma bc_same x : set_bc_lock (bc_lock x) x = x.
Proof. by destruct x. Qed.

(** *** bget *)

(** Walking the list of a cache, in either direction, from its head. *)
Lemma walk_runs hs x (dir : buf -> nat) (cell_dir : cell buf nat) p :
  cache hs x -> (dir = b_next /\ cell_dir = c_b_next) \/ (dir = b_prev /\ cell_dir = c_b_prev) ->
  exists l, l ≡ₚ seq 0 NBUF /\ forall k lk,
    runs k (h <- load (c_buf NBUF @ cell_dir) ;; find_buf dir p (Datatypes.S NBUF) h)
      (set_bc_lock lk x) k (pick p x l) (set_bc_lock lk x).
Proof.
  intros Hc Hdir. destruct (ca_ring _ _ _ Hc) as (l & Hl & Hr & _). pose proof (ca_len _ _ _ Hc) as Hlen.
  destruct (lookup_lt_is_Some_2 (bufs x) NBUF) as [hd Hhd]; [lia|].
  assert (exists l' bk, l' ≡ₚ seq 0 NBUF /\ seg (link dir x) bk NBUF l' NBUF) as (l' & bk & Hl' & Hseg).
  { destruct Hdir as [[-> _]|[-> _]]; [by exists l, (link b_prev x)|].
    exists (reverse l), (link b_next x). split; [by rewrite reverse_Permutation|]. by apply seg_rev. }
  exists l'. split; [done|]. intros k lk. eapply runs_bind.
  - assert (cget cell_dir hd = Some (dir hd)) as Hcd by (by destruct Hdir as [[-> ->]|[-> ->]]).
    by apply (buf_load k (set_bc_lock lk x) NBUF hd cell_dir (dir hd)).
  - pose proof (seg_head _ _ _ _ _ Hseg) as Hh. unfold link in Hh. rewrite Hhd in Hh. rewrite Hh.
    apply (find_buf_runs k dir bk p l' NBUF (Datatypes.S NBUF) (set_bc_lock lk x)); [done| |done|].
    + intros b Hb. rewrite Hl', elem_of_seq in Hb. lia.
    + rewrite Hl', length_seq. lia.
Qed.

Lemma pick_unique p x l b r : l ≡ₚ seq 0 NBUF -> buf_at x b r -> p r = true ->
  (forall c q, buf_at x c q -> p q = true -> c = b) -> pick p x l = Some b.
Proof.
  intros Hl [Hlt Hb] Hp Hu. destruct (pick p x l) as [c|] eqn:E.
  - apply pick_Some in E as (q & Hc & Hq & Hpq). f_equal. rewrite Hl, elem_of_seq in Hc.
    apply (Hu c q); [split; [lia|done]|done].
  - assert (b ∈ l) as Hin by (rewrite Hl, elem_of_seq; lia).
    rewrite (pick_None _ _ _ _ _ E Hin Hb) in Hp. done.
Qed.

Lemma pick_absent p x l : l ≡ₚ seq 0 NBUF -> (forall c q, buf_at x c q -> p q = false) -> pick p x l = None.
Proof.
  intros Hl Hn. destruct (pick p x l) as [c|] eqn:E; [|done].
  apply pick_Some in E as (q & Hc & Hq & Hpq). rewrite Hl, elem_of_seq in Hc.
  rewrite (Hn c q) in Hpq; [done|]. split; [lia|done].
Qed.

Definition taken (r : buf) : buf := set_b_lock (sl_take pid (b_lock r)) (set_b_refcnt 1 r).

(** How [bget] ends. *)
Lemma bget_end x b r0 r : free_lock (bc_lock x) -> bufs x !! b = Some r0 -> sl_free (b_lock r) ->
  runs 1 (release bcache_lock ;;; acquiresleep fuel (c_buf b @ c_b_lock) (buflock_chan b) ;;; ret b)
    (put_buf b (set_b_refcnt 1 r) (set_bc_lock (locked_by0 (bc_lock x)) x)) 0 b (put_buf b (taken r) x).
Proof.
  intros Hf Hb Hl. set (x1 := put_buf b (set_b_refcnt 1 r) x).
  eapply runs_bind; [by apply (bc_release x1 (bc_lock x))|].
  change (set_bc_lock (bc_lock x) x1) with (set_bc_lock (bc_lock x1) x1). rewrite bc_same.
  rewrite <- (put_buf_put x b (taken r) (set_b_refcnt 1 r)).
  eapply runs_bind; [|apply runs_ret].
  apply (buf_acquire x1 b (set_b_refcnt 1 r)); [by eapply put_buf_get|done].
Qed.

(** The block has a buffer nobody holds. *)
Lemma bget_hit hs x b r : cache hs x -> buf_at x b r -> b_dev r = 1 -> b ∉ hs ->
  runs 0 (bget fuel 1 (b_blockno r)) x 0 b (put_buf b (taken r) x).
Proof.
  intros Hc Hb Hd Hnh. pose proof (ca_lock _ _ _ Hc) as Hf.
  destruct (ca_buf _ _ _ Hc b r Hb) as [Hlk _ _]. rewrite decide_False in Hlk by done. destruct Hlk as [Hsl Hrc].
  destruct (walk_runs hs x b_next c_b_next (fun q => (b_dev q =? 1) && (b_blockno q =? b_blockno r)) Hc) as (l & Hl & Hw);
    [by left|].
  rewrite (pick_unique _ x l b r Hl Hb) in Hw.
  2:{ by rewrite Hd, !Z.eqb_refl. }
  2:{ intros c q Hq [H1%Z.eqb_eq H2%Z.eqb_eq]%andb_prop. by apply (ca_inj _ _ _ Hc c b q r). }
  unfold bget. eapply runs_bind; [by apply bc_acquire|].
  eapply runs_bind_assoc; [apply (Hw 1)|]. cbv iota. destruct Hb as [Hlt Hb].
  eapply runs_bind; [by apply (buf_update 1 (set_bc_lock _ x) b r c_b_refcnt (b_refcnt r))|]. rewrite Hrc.
  by apply (bget_end x b r r).
Qed.

(** No buffer has the block; the last free buffer of the list that is not dirty is recycled. *)
Definition recycled (n : Z) (r : buf) : buf :=
  taken (set_b_flags 0 (set_b_blockno n (set_b_dev 1 r))).

Definition usable hs (b : nat) (r : buf) : Prop := (b ∉ hs) /\ b_flags r <> 6.

Lemma bget_recycle hs x n : cache hs x -> (forall b r, buf_at x b r -> b_dev r = 1 -> b_blockno r <> n) ->
  (exists b r, buf_at x b r /\ usable hs b r) ->
  exists b r, buf_at x b r /\ usable hs b r /\ runs 0 (bget fuel 1 n) x 0 b (put_buf b (recycled n r) x).
Proof.
  intros Hc Hno (b0 & r0 & Hb0 & Hu0). pose proof (ca_lock _ _ _ Hc) as Hf.
  destruct (walk_runs hs x b_next c_b_next (fun q => (b_dev q =? 1) && (b_blockno q =? n)) Hc) as (l & Hl & Hw);
    [by left|].
  rewrite (pick_absent _ x l Hl) in Hw.
  2:{ intros c q Hq. apply andb_false_iff. destruct (Z.eqb_spec (b_dev q) 1); [right|by left].
      apply Z.eqb_neq. by apply (Hno c). }
  set (p := fun q => (b_refcnt q =? 0) && negb (has_flag B_DIRTY (b_flags q))).
  assert (forall c q, buf_at x c q -> p q = true <-> usable hs c q) as Hp.
  { intros c q Hq. destruct (ca_buf _ _ _ Hc c q Hq) as [K1 K2 _]. unfold p, usable.
    destruct (decide (c ∈ hs)) as [Hi|Hi].
    - destruct K1 as (_ & -> & _). split; [done|tauto].
    - destruct K1 as (_ & ->). destruct K2 as [[_ ->]|(_ & [->| ->] & _)]; cbn; split; try done; tauto. }
  destruct (walk_runs hs x b_prev c_b_prev p Hc) as (l' & Hl' & Hw'); [by right|].
  destruct (pick p x l') as [b|] eqn:E.
  2:{ exfalso. rewrite <- (Hp b0 r0 Hb0) in Hu0. destruct Hb0 as [Hlt Hb0].
      assert (b0 ∈ l') as Hin by (rewrite Hl', elem_of_seq; lia).
      by rewrite (pick_None _ _ _ _ _ E Hin Hb0) in Hu0. }
  apply pick_Some in E as (r & Hin & Hb & Hpr). rewrite Hl', elem_of_seq in Hin.
  assert (buf_at x b r) as Hba by (split; [lia|done]). exists b, r. split; [done|].
  pose proof (proj1 (Hp b r Hba) Hpr) as Hu. split; [done|].
  destruct (ca_buf _ _ _ Hc b r Hba) as [K1 _ _]. rewrite decide_False in K1 by (by destruct Hu).
  unfold bget. eapply runs_bind; [by apply bc_acquire|].
  eapply runs_bind_assoc; [apply (Hw 1)|]. cbv iota. eapply runs_bind_assoc; [apply (Hw' 1)|]. cbv iota.
  set (xl := set_bc_lock _ x).
  set (r1 := set_b_flags 0 (set_b_blockno n (set_b_dev 1 r))).
  eapply (runs_bind pid 1 1 0); [by apply (buf_store 1 xl b r c_b_dev 1 (b_dev r))|].
  eapply (runs_bind pid 1 1 0); [eapply (buf_store 1 _ b (set_b_dev 1 r) c_b_blockno n); [by eapply put_buf_get|done]|].
  rewrite put_buf_put.
  eapply (runs_bind pid 1 1 0); [eapply (buf_store 1 _ b (set_b_blockno n (set_b_dev 1 r)) c_b_flags 0); [by eapply put_buf_get|done]|].
  rewrite put_buf_put.
  eapply (runs_bind pid 1 1 0); [eapply (buf_store 1 _ b r1 c_b_refcnt 1); [by eapply put_buf_get|done]|].
  rewrite put_buf_put.
  apply (bget_end x b r r1); [done|done|by destruct K1].
Qed.

(** *** bread *)

(** What [bread] does to the buffer it returns, from [r] to [r']. *)
Record fetched x (n : Z) (r r' : buf) : Prop := {
  fe_links : b_next r' = b_next r /\ b_prev r' = b_prev r;
  fe_block : b_dev r' = 1 /\ b_blockno r' = n;
  fe_data : b_data r' = content x n;
  fe_lock : sl_held pid (b_lock r') /\ b_refcnt r' = 1;
  fe_flags : (b_dev r = 1 /\ b_blockno r = n /\ b_flags r' = b_flags r) \/
             (b_flags r <> 6 /\ b_flags r' = 2 /\
              forall c q, buf_at x c q -> b_dev q = 1 -> b_blockno q <> n)
}.

Lemma take_held l : sl_free l -> sl_held pid (sl_take pid l).
Proof. intros (_ & _ & Hf). done. Qed.

Lemma bread_runs hs x n : cache hs x -> 0 <= n < md_size (disk x) ->
  (forall b r, buf_at x b r -> b ∈ hs -> b_blockno r <> n) ->
  ((forall b r, buf_at x b r -> b_dev r = 1 -> b_blockno r <> n) -> exists b r, buf_at x b r /\ usable hs b r) ->
  exists b r r', buf_at x b r /\ (b ∉ hs) /\ runs 0 (bread fuel 1 n) x 0 b (put_buf b r' x) /\ fetched x n r r'.
Proof.
  intros Hc Hn Hnh Hroom. unfold bread. destruct (content_dec x n) as [(b & r & Hb & Hd & <-)|Hno].
  - assert (b ∉ hs) as Hi by (intros Hi; by apply (Hnh b r)). exists b, r, (taken r). split; [done|]. split; [done|].
    destruct (ca_buf _ _ _ Hc b r Hb) as [K1 K2 _]. rewrite decide_False in K1 by done. destruct K1 as [Hsl _].
    split; [|constructor; try done; [by rewrite (content_cached _ _ _ _ _ Hc Hb Hd)|by split; [apply take_held|]|by left]].
    eapply runs_bind; [by eapply bget_hit|]. destruct Hb as [Hlt Hb].
    eapply runs_bind; [eapply (buf_load 0 _ b (taken r) c_b_flags); [by eapply put_buf_get|done]|].
    change (b_flags (taken r)) with (b_flags r).
    assert (has_flag B_VALID (b_flags r) = true) as -> by (destruct K2 as [[? _]|(_ & [->| ->] & _)]; [congruence|done|done]).
    eapply runs_bind; apply runs_ret.
  - destruct (bget_recycle hs x n Hc Hno (Hroom Hno)) as (b & r & Hb & Hu & Hr).
    destruct (ca_buf _ _ _ Hc b r Hb) as [K1 _ _]. rewrite decide_False in K1 by apply Hu.
    exists b, r, (set_b_flags 2 (set_b_data (block_of x n) (recycled n r))). split; [done|]. split; [apply Hu|].
    split; [|constructor; try done; [by rewrite (content_disk _ _ Hno)|split; [apply (take_held (b_lock r) (proj1 K1))|done]|right; by destruct Hu]].
    eapply runs_bind; [exact Hr|]. destruct Hb as [Hlt Hb].
    assert (bufs (put_buf b (recycled n r) x) !! b = Some (recycled n r)) as Hb' by (by eapply put_buf_get).
    eapply runs_bind; [by eapply (buf_load 0 _ b (recycled n r) c_b_flags)|].
    eapply runs_bind; [|apply runs_ret]. cbv [cget c_b_flags field].
    rewrite <- (put_buf_put x b (set_b_flags 2 (set_b_data (block_of x n) (recycled n r))) (recycled n r)).
    apply (iderw_read (put_buf b (recycled n r) x) b (recycled n r)); try done; [apply (take_held (b_lock r) (proj1 K1))|].
    split; [done|]. apply (ca_disk _ _ _ Hc).
Qed.

(** ** The cache as a store of blocks *)

Definition holds x (b : nat) (n : Z) : Prop := exists r, buf_at x b r /\ b_dev r = 1 /\ b_blockno r = n.
Definition dirty x (n : Z) : Prop := exists b r, buf_at x b r /\ b_dev r = 1 /\ b_blockno r = n /\ b_flags r = 6.

(** The cache as its clients see it: the process holds the blocks [hb], each in its
    buffer; the blocks [D] are dirty; block [n] reads as [f n]; the disk is [m], and
    the rest of the system is that of [y]. *)
Record Bc (hb : list (nat * Z)) (D : list Z) (f : Z -> list Z) (m : memdisk) (y x : sys) : Prop := {
  bv_rest : x = set_disk m (set_bufs (bufs x) y);
  bv_cache : cache hb.*1 x;
  bv_held : forall b n, (b, n) ∈ hb -> holds x b n;
  bv_dirty : forall n, dirty x n <-> n ∈ D;
  bv_cont : forall n, 0 <= n < md_size m -> content x n = f n
}.

Lemma Bc_disk hb D f m y x : Bc hb D f m y x -> disk x = m.
Proof. intros Hv. by rewrite (bv_rest _ _ _ _ _ _ Hv). Qed.

Lemma Bc_ext hb D f g m y x : (forall n, 0 <= n < md_size m -> f n = g n) -> Bc hb D f m y x -> Bc hb D g m y x.
Proof. intros Hfg [A1 A2 A3 A4 A5]. constructor; try done. intros n Hn. by rewrite A5, Hfg. Qed.

(** The buffers [Bc] describes. *)
Lemma Bc_buf hb D f m y x b n : Bc hb D f m y x -> (b, n) ∈ hb ->
  exists r, buf_at x b r /\ b_dev r = 1 /\ b_blockno r = n /\ b ∈ hb.*1 /\ b_data r = f n /\
    sl_held pid (b_lock r) /\ b_refcnt r = 1 /\ 0 <= n < md_size m /\
    (b_flags r = 6 /\ n ∈ D \/ b_flags r = 2 /\ n ∉ D).
Proof.
  intros Hv Hin. destruct (bv_held _ _ _ _ _ _ Hv b n Hin) as (r & Hb & Hd & Hn).
  pose proof (bv_cache _ _ _ _ _ _ Hv) as Hc. pose proof (Bc_disk _ _ _ _ _ _ Hv) as Hm.
  assert (b ∈ hb.*1) as Hb1 by (apply list_elem_of_fmap; by exists (b, n)).
  destruct (ca_buf _ _ _ Hc b r Hb) as [K1 K2 _]. rewrite decide_True in K1 by done. destruct K1 as (K1 & K3 & _).
  destruct K2 as [[? _]|(_ & K2 & K4)]; [congruence|]. rewrite Hm in K4.
  exists r. subst n. rewrite <- (bv_cont _ _ _ _ _ _ Hv), (content_cached _ _ _ _ _ Hc Hb Hd) by lia.
  repeat (split; [done|]). destruct K2 as [K2|K2].
  - right. split; [done|]. rewrite <- (bv_dirty _ _ _ _ _ _ Hv). intros (c & q & Hq & Hqd & Hqn & Hf).
    assert (c = b) as -> by (apply (ca_inj _ _ _ Hc c b q r); congruence).
    destruct Hb, Hq. simplify_eq. lia.
  - left. split; [done|]. apply (bv_dirty _ _ _ _ _ _ Hv). by exists b, r.
Qed.

(** Replacing the buffer of a block. *)
Lemma Bc_put hb hb' D D' f f' m y x b r r' : Bc hb D f m y x -> buf_at x b r ->
  cache hb'.*1 (put_buf b r' x) -> b_dev r' = 1 ->
  (forall c n, (c, n) ∈ hb' -> (c = b /\ n = b_blockno r') \/ c <> b /\ (c, n) ∈ hb) ->
  (b_dev r = 1 -> b_blockno r = b_blockno r' \/ b_flags r <> 6 /\ b_data r = block_in m (b_blockno r)) ->
  (forall n, n <> b_blockno r' -> n ∈ D <-> n ∈ D') -> (b_flags r' = 6 <-> b_blockno r' ∈ D') ->
  (forall n, n <> b_blockno r' -> 0 <= n < md_size m -> f n = f' n) -> f' (b_blockno r') = b_data r' ->
  Bc hb' D' f' m y (put_buf b r' x).
Proof.
  intros Hv Hb Hc' Hd' Hhs Hold HD HD' Hf Hf'. pose proof (bv_cache _ _ _ _ _ _ Hv) as Hc.
  pose proof (Bc_disk _ _ _ _ _ _ Hv) as Hm. destruct (Hb) as [Hlt Hbx].
  assert (buf_at (put_buf b r' x) b r') as Hb' by (split; [done|by eapply put_buf_get]). constructor.
  - rewrite (bv_rest _ _ _ _ _ _ Hv). done.
  - done.
  - intros c n [[-> ->]|[Hne Hin]]%Hhs; [by exists r'|].
    destruct (bv_held _ _ _ _ _ _ Hv c n Hin) as (q & Hq & Hqd & Hqn). exists q. split; [|done].
    apply (put_buf_at x b r' r); [done|]. by right.
  - intros n. destruct (decide (n = b_blockno r')) as [->|Hne].
    + rewrite <- HD'. split; [|intros ?; by exists b, r'].
      intros (c & q & Hq & Hqd & Hqn & Hfl). assert (c = b) as -> by (by apply (ca_inj _ _ _ Hc' c b q r')).
      destruct Hq, Hb'. by simplify_eq.
    + rewrite <- HD, <- (bv_dirty _ _ _ _ _ _ Hv) by done. split.
      * intros (c & q & Hq & Hqd & Hqn & Hfl). exists c, q. split; [|done].
        apply (put_buf_at x b r' r) in Hq as [(_ & -> & ->)|[_ Hq]]; [congruence|done|done].
      * intros (c & q & Hq & Hqd & Hqn & Hfl). exists c, q. split; [|done].
        apply (put_buf_at x b r' r); [done|]. right. split; [|done]. intros ->.
        destruct Hq as [_ Hq]. simplify_eq. destruct (Hold Hqd) as [?|[? _]]; congruence.
  - intros n Hn. destruct (decide (n = b_blockno r')) as [->|Hne].
    + by rewrite (content_cached _ _ _ _ _ Hc' Hb' Hd').
    + rewrite <- Hf, <- (bv_cont _ _ _ _ _ _ Hv n Hn) by done.
      destruct (decide (b_dev r = 1 /\ b_blockno r = n)) as [[Hrd Hrn]|Hrn].
      * destruct (Hold Hrd) as [?|[_ Hdat]]; [congruence|]. subst n.
        rewrite (content_cached _ _ _ _ _ Hc Hb Hrd), Hdat.
        rewrite content_disk; [unfold block_of; simpl; by rewrite Hm|].
        intros c q Hq Hqd Heq. apply (put_buf_at x b r' r) in Hq as [(_ & -> & ->)|[Hcb Hq]]; [congruence| |done].
        apply Hcb. by apply (ca_inj _ _ _ Hc c b q r).
      * eapply content_put_other; [done|done|done| |]; [intros ? ?; by apply Hrn|congruence].
Qed.

(** *** Moving a buffer in the list *)

(** Only links changed. *)
Record relinked x x' : Prop := {
  rl_rest : x' = set_bufs (bufs x') x;
  rl_len : length (bufs x') = length (bufs x);
  rl_buf : forall c r', bufs x' !! c = Some r' ->
    exists r, bufs x !! c = Some r /\ r' = set_b_next (b_next r') (set_b_prev (b_prev r') r)
}.

Lemma relinked_trans x1 x2 x3 : relinked x1 x2 -> relinked x2 x3 -> relinked x1 x3.
Proof.
  intros [A1 A2 A3] [B1 B2 B3]. constructor.
  - rewrite B1, A1. done.
  - congruence.
  - intros c r' Hr'. destruct (B3 c r' Hr') as (r2 & H2 & E2). destruct (A3 c r2 H2) as (r & H1 & E1).
    exists r. split; [done|]. rewrite E2, E1. done.
Qed.

Lemma link_load k x a (dir : buf -> nat) (d : cell buf nat) :
  (dir = b_next /\ d = c_b_next) \/ (dir = b_prev /\ d = c_b_prev) -> (a < length (bufs x))%nat ->
  runs k (load (c_buf a @ d)) x k (link dir x a) x.
Proof.
  intros Hd [r Hr]%lookup_lt_is_Some. unfold link. rewrite Hr. eapply buf_load; [done|].
  by destruct Hd as [[-> ->]|[-> ->]].
Qed.

Lemma next_store k x a v : (a < length (bufs x))%nat ->
  exists x', runs k (store (c_buf a @ c_b_next) v) x k tt x' /\ relinked x x' /\
    (forall c, link b_next x' c = fupd (link b_next x) a v c) /\ (forall c, link b_prev x' c = link b_prev x c).
Proof.
  intros [r Hr]%lookup_lt_is_Some. exists (put_buf a (set_b_next v r) x).
  split; [by eapply (buf_store k x a r c_b_next)|]. split; [|split].
  - constructor; [done|simpl; apply length_insert|]. intros c r' Hc. simpl in Hc. destruct (decide (c = a)) as [->|].
    + rewrite list_lookup_insert_eq in Hc by (by eapply lookup_lt_Some). injection Hc as <-. exists r. by destruct r.
    + rewrite list_lookup_insert_ne in Hc by done. exists r'. by destruct r'.
  - intros c. by rewrite (link_put _ _ _ _ r).
  - intros c. by apply (link_keep b_prev x a _ r).
Qed.

Lemma prev_store k x a v : (a < length (bufs x))%nat ->
  exists x', runs k (store (c_buf a @ c_b_prev) v) x k tt x' /\ relinked x x' /\
    (forall c, link b_prev x' c = fupd (link b_prev x) a v c) /\ (forall c, link b_next x' c = link b_next x c).
Proof.
  intros [r Hr]%lookup_lt_is_Some. exists (put_buf a (set_b_prev v r) x).
  split; [by eapply (buf_store k x a r c_b_prev)|]. split; [|split].
  - constructor; [done|simpl; apply length_insert|]. intros c r' Hc. simpl in Hc. destruct (decide (c = a)) as [->|].
    + rewrite list_lookup_insert_eq in Hc by (by eapply lookup_lt_Some). injection Hc as <-. exists r. by destruct r.
    + rewrite list_lookup_insert_ne in Hc by done. exists r'. by destruct r'.
  - intros c. by rewrite (link_put _ _ _ _ r).
  - intros c. by apply (link_keep b_next x a _ r).
Qed.

Lemma ring_ext nx pv nx' pv' h l : ring nx pv h l -> (forall c, nx' c = nx c) -> (forall c, pv' c = pv c) ->
  ring nx' pv' h l.
Proof. intros [Hs Hd] Hn Hp. split; [|done]. by eapply seg_ext. Qed.

(** In a list with a head, no element is next to itself. *)
Lemma ring_next nx pv h l b : ring nx pv h l -> b ∈ l -> nx b <> b /\ pv b <> b /\ nx b ∈ h :: l /\ pv b ∈ h :: l.
Proof.
  intros [Hs Hd] Hb. apply list_elem_of_split in Hb as (l1 & l2 & ->). apply seg_app in Hs as [H1 H2].
  apply seg_rev in H1. apply seg_head in H1, H2. rewrite NoDup_cons, NoDup_app, NoDup_cons in Hd.
  destruct Hd as (D1 & D2 & D3 & D4 & D5). rewrite H1, H2. clear H1 H2.
  assert (hd h l2 ∈ h :: l2) by (destruct l2; set_solver).
  assert (hd h (reverse l1) ∈ h :: l1).
  { assert (hd h (reverse l1) ∈ h :: reverse l1) as Hin by (destruct (reverse l1); set_solver).
    by rewrite elem_of_cons, elem_of_reverse, <- elem_of_cons in Hin. }
  set_solver.
Qed.

Lemma move_to_front_runs k x b l : length (bufs x) = Datatypes.S NBUF ->
  l ≡ₚ seq 0 NBUF -> ring (link b_next x) (link b_prev x) NBUF l -> (b < NBUF)%nat ->
  exists x', runs k (move_to_front b) x k tt x' /\ relinked x x' /\
    exists l', l' ≡ₚ seq 0 NBUF /\ ring (link b_next x') (link b_prev x') NBUF l'.
Proof.
  intros Hlen Hl Hr Hlt. assert (b ∈ l) as Hb by (rewrite Hl, elem_of_seq; lia).
  destruct (ring_next _ _ _ _ _ Hr Hb) as (Hnb & Hpb & Hnin & Hpin).
  assert (forall c, c ∈ NBUF :: l -> (c < Datatypes.S NBUF)%nat) as Hin.
  { intros c Hc. rewrite Hl, elem_of_cons, elem_of_seq in Hc. lia. }
  pose proof (Hin _ Hnin) as Hnl. pose proof (Hin _ Hpin) as Hpl.
  apply list_elem_of_split in Hb as (l1 & l2 & ->).
  pose proof (ring_unlink _ _ _ _ _ _ Hr) as Hr1.
  assert (b ∉ NBUF :: l1 ++ l2) as Hbn.
  { destruct Hr as [_ Hd]. rewrite NoDup_cons, NoDup_app, NoDup_cons in Hd. set_solver. }
  pose proof (ring_push _ _ _ _ b Hr1 Hbn) as Hr2.
  destruct (prev_store k x (link b_next x b) (link b_prev x b)) as (x1 & R1 & L1 & P1 & N1); [lia|].
  pose proof (rl_len _ _ L1) as E1.
  destruct (next_store k x1 (link b_prev x1 b) (link b_next x1 b)) as (x2 & R2 & L2 & N2 & P2).
  { rewrite P1, fupd_ne by done. lia. }
  pose proof (rl_len _ _ L2) as E2.
  destruct (next_store k x2 b (link b_next x2 NBUF)) as (x3 & R3 & L3 & N3 & P3); [lia|]. pose proof (rl_len _ _ L3) as E3.
  destruct (prev_store k x3 b NBUF) as (x4 & R4 & L4 & P4 & N4); [lia|]. pose proof (rl_len _ _ L4) as E4.
  assert (forall c, link b_next x2 c = fupd (link b_next x) (link b_prev x b) (link b_next x b) c) as N2'.
  { intros c. rewrite N2. unfold fupd. rewrite P1, fupd_ne, !N1 by done. done. }
  assert (forall c, link b_prev x2 c = fupd (link b_prev x) (link b_next x b) (link b_prev x b) c) as P2'.
  { intros c. by rewrite P2, P1. }
  assert (link b_next x4 NBUF = link b_next x2 NBUF) as N4'.
  { rewrite N4, N3. apply fupd_ne. lia. }
  assert (hd NBUF (l1 ++ l2) < Datatypes.S NBUF)%nat as Hhd.
  { destruct (l1 ++ l2) as [|c l3] eqn:El; [simpl; lia|]. simpl. apply Hin. apply elem_of_cons. right.
    assert (c ∈ l1 ++ l2) as Hc by (rewrite El; set_solver). set_solver. }
  destruct (prev_store k x4 (link b_next x4 NBUF) b) as (x5 & R5 & L5 & P5 & N5).
  { rewrite N4', N2'. rewrite (seg_head _ _ _ _ _ (proj1 Hr1)). lia. }
  pose proof (rl_len _ _ L5) as E5.
  destruct (next_store k x5 NBUF b) as (x6 & R6 & L6 & N6 & P6); [lia|].
  exists x6. split; [|split].
  - unfold move_to_front. eapply runs_bind; [apply (link_load k x b b_next); [by left|lia]|].
    eapply runs_bind; [apply (link_load k x b b_prev); [by right|lia]|]. eapply runs_bind; [exact R1|].
    eapply runs_bind; [apply (link_load k x1 b b_prev); [by right|lia]|].
    eapply runs_bind; [apply (link_load k x1 b b_next); [by left|lia]|]. eapply runs_bind; [exact R2|].
    eapply runs_bind; [apply (link_load k x2 NBUF b_next); [by left|lia]|]. eapply runs_bind; [exact R3|].
    eapply runs_bind; [exact R4|].
    eapply runs_bind; [apply (link_load k x4 NBUF b_next); [by left|lia]|]. by eapply runs_bind; [exact R5|].
  - do 5 (eapply relinked_trans; [eassumption|]). done.
  - exists (b :: l1 ++ l2). split; [rewrite <- Hl; apply Permutation_middle|].
    apply (ring_ext _ _ _ _ _ _ Hr2); intros c.
    + rewrite N6. unfold fupd at 1 4. rewrite N5, N4, N3. unfold fupd at 1 3. rewrite !N2'. done.
    + rewrite P6, P5. rewrite N4', <- N2'. unfold fupd at 1 3. rewrite P4. unfold fupd at 1 3. rewrite P3, P2'. done.
Qed.

(** *** The operations on the store of blocks *)

Implicit Types (hb : list (nat * Z)) (D : list Z) (f : Z -> list Z) (m : memdisk) (y : sys).

(** There is a buffer to recycle. *)
Lemma Bc_room hb D f m y x : Bc hb D f m y x -> (length D + length hb < NBUF)%nat ->
  exists b r, buf_at x b r /\ usable hb.*1 b r.
Proof.
  intros Hv Hlen. pose proof (bv_cache _ _ _ _ _ _ Hv) as Hc.
  set (bad := filter (fun b => b ∉ hb.*1) (seq 0 NBUF)).
  set (num b := match bufs x !! b with Some r => b_blockno r | None => 0 end).
  set (flg b := match bufs x !! b with Some r => b_flags r | None => 0 end).
  destruct (decide (Forall (fun b => flg b = 6) bad)) as [Hall|Hex].
  - exfalso. rewrite Forall_forall in Hall.
    assert (length (filter (fun b => b ∈ hb.*1) (seq 0 NBUF)) <= length hb)%nat as H1.
    { rewrite <- (length_fmap fst hb). apply submseteq_length, NoDup_submseteq; [apply NoDup_filter, NoDup_seq|].
      intros b Hb. by apply list_elem_of_filter in Hb as [? _]. }
    assert (forall b, b ∈ bad -> exists r, buf_at x b r /\ b_flags r = 6 /\ b_dev r = 1) as Hbad.
    { intros b Hb. specialize (Hall b Hb). unfold flg in Hall. apply list_elem_of_filter in Hb as [_ Hs%elem_of_seq].
      destruct (bufs x !! b) as [r|] eqn:Hr; [|done]. exists r. assert (buf_at x b r) as Hb by (split; [lia|done]).
      split; [done|]. split; [done|]. destruct (bo_flags _ _ _ _ _ (ca_buf _ _ _ Hc b r Hb)) as [[_ ?]|[? _]]; [lia|done]. }
    assert (length bad <= length D)%nat as H2.
    { rewrite <- (length_fmap num bad). apply submseteq_length, NoDup_submseteq.
      - apply NoDup_fmap_2_strong; [|apply NoDup_filter, NoDup_seq]. intros b c Hb Hc2 He.
        destruct (Hbad b Hb) as (r & Hr & _ & Hd), (Hbad c Hc2) as (q & Hq & _ & Hd').
        apply (ca_inj _ _ _ Hc b c r q); try done. unfold num in He. destruct Hr as [_ Hr], Hq as [_ Hq].
        by rewrite Hr, Hq in He.
      - intros n Hn. apply list_elem_of_fmap in Hn as (b & -> & Hb). destruct (Hbad b Hb) as (r & Hr & Hf & Hd).
        apply (bv_dirty _ _ _ _ _ _ Hv). exists b, r. split; [done|]. split; [done|]. destruct Hr as [_ Hr].
        unfold num. by rewrite Hr. }
    pose proof (length_filter_split (fun b => b ∈ hb.*1) (seq 0 NBUF)) as H3. rewrite length_seq in H3.
    fold bad in H3. lia.
  - apply not_Forall_Exists in Hex; [|apply _]. apply Exists_exists in Hex as (b & Hb & Hf).
    apply list_elem_of_filter in Hb as [Hi Hs%elem_of_seq].
    destruct (lookup_lt_is_Some_2 (bufs x) b) as [r Hr]; [rewrite (ca_len _ _ _ Hc); lia|].
    change (flg b <> 6) in Hf. unfold flg in Hf. rewrite Hr in Hf. exists b, r. split; [split; [lia|done]|done].
Qed.

Lemma bread_does hb D f m y n : 0 <= n < md_size m -> n ∉ hb.*2 -> n ∈ D \/ (length D + length hb < NBUF)%nat ->
  does pid 0 (Bc hb D f m y) (bread fuel 1 n) 0 (fun b x => Bc ((b, n) :: hb) D f m y x).
Proof.
  intros Hn Hnh Hlen x Hv. pose proof (bv_cache _ _ _ _ _ _ Hv) as Hc. pose proof (Bc_disk _ _ _ _ _ _ Hv) as Hm.
  destruct (bread_runs hb.*1 x n Hc) as (b & r & r' & Hb & Hi & Hr & Hf).
  { by rewrite Hm. }
  { intros b r Hb Hi Hrn. apply list_elem_of_fmap in Hi as ([b' k] & -> & Hin).
    destruct (Bc_buf _ _ _ _ _ _ _ _ Hv Hin) as (q & Hq & _ & Hqn & _). destruct Hb as [_ Hb], Hq as [_ Hq].
    simpl in *. simplify_eq. apply Hnh. apply list_elem_of_fmap. by eexists (_, _). }
  { intros Hno. destruct Hlen as [HD|Hlen]; [|by eapply Bc_room].
    destruct (proj2 (bv_dirty _ _ _ _ _ _ Hv n) HD) as (b & r & Hb & Hrd & Hrn & _). by destruct (Hno b r). }
  exists b, (put_buf b r' x). split; [done|]. destruct Hf as [[Hnx Hpv] [Hd <-] Hdat [Hlk Hrc] Hfl].
  destruct (ca_buf _ _ _ Hc b r Hb) as [_ K2 K3]. specialize (K3 Hi). destruct (ca_held _ _ _ Hc) as [Hnd Hbd].
  apply (Bc_put hb _ D D f f m y x b r r'); try done.
  - apply (cache_put hb.*1 _ x b r r'); try done; cbn [fmap list_fmap].
    + constructor; [rewrite decide_True by (by left); done| |by intros []; left].
      right. split; [done|]. split; [|by rewrite Hm]. destruct Hfl as [(H1 & H2 & ->)|(_ & -> & _)]; [|by left].
      destruct K2 as [[? _]|(_ & K2 & _)]; [congruence|done].
    + set_solver.
    + by apply NoDup_cons.
    + intros c [->|Hc2]%elem_of_cons; [apply Hb|by apply Hbd].
    + intros _ c q Hq Hcb Hqd Heq. destruct Hfl as [(H1 & H2 & _)|(_ & _ & Hno)]; [|by eapply Hno].
      apply Hcb. apply (ca_inj _ _ _ Hc c b q r); congruence.
  - intros c k [[= -> ->]|Hin]%elem_of_cons; [by left|]. right. split; [|done]. intros ->. apply Hi.
    apply list_elem_of_fmap. by exists (b, k).
  - intros Hrd. destruct Hfl as [(_ & H2 & _)|(Hf6 & _ & _)]; [by left|]. right. split; [done|].
    rewrite <- Hm. apply K3; [done|]. destruct K2 as [[? _]|(_ & [?|?] & _)]; congruence.
  - rewrite <- (bv_dirty _ _ _ _ _ _ Hv). destruct Hfl as [(H1 & H2 & ->)|(Hf6 & -> & Hno)].
    + split; [intros Hf6; by exists b, r|]. intros (c & q & Hq & Hqd & Hqn & Hqf).
      assert (c = b) as -> by (apply (ca_inj _ _ _ Hc c b q r); congruence). destruct Hb, Hq. by simplify_eq.
    + split; [done|]. intros (c & q & Hq & Hqd & Hqn & Hqf). by destruct (Hno c q).
  - rewrite Hdat. symmetry. by apply (bv_cont _ _ _ _ _ _ Hv).
Qed.

(** Replacing a held buffer by one of the same block, held. *)
Lemma Bc_held_put hb D D' f f' m y x b n r r' : Bc hb D f m y x -> (b, n) ∈ hb -> buf_at x b r ->
  b_next r' = b_next r -> b_prev r' = b_prev r -> b_dev r' = b_dev r -> b_blockno r' = b_blockno r ->
  b_lock r' = b_lock r -> b_refcnt r' = b_refcnt r -> b_flags r' = 2 \/ b_flags r' = 6 ->
  (forall k, k <> n -> k ∈ D <-> k ∈ D') -> (b_flags r' = 6 <-> n ∈ D') ->
  (forall k, k <> n -> f k = f' k) -> f' n = b_data r' -> Bc hb D' f' m y (put_buf b r' x).
Proof.
  intros Hv Hin Hb E1 E2 E3 E4 E5 E6 E7 HD HD' Hf Hf'. pose proof (bv_cache _ _ _ _ _ _ Hv) as Hc.
  destruct (Bc_buf _ _ _ _ _ _ _ _ Hv Hin) as (q & Hq & Hqd & Hqn & Hi & _).
  assert (q = r) as -> by (destruct Hb, Hq; congruence).
  destruct (ca_buf _ _ _ Hc b r Hb) as [K1 K2 K3]. destruct (ca_held _ _ _ Hc) as [Hnd Hbd].
  assert (b_blockno r' = n) as En by congruence.
  apply (Bc_put hb hb D D' f f' m y x b r r'); try (rewrite ?En; done || congruence).
  - apply (cache_put hb.*1 hb.*1 x b r r'); try done.
    + constructor.
      * rewrite E5, E6, E3. done.
      * right. split; [congruence|]. split; [done|]. rewrite E4. destruct K2 as [[? _]|(_ & _ & K2)]; [congruence|done].
      * done.
    + intros _ c k Hk Hcb Hkd Hkn. apply Hcb. apply (ca_inj _ _ _ Hc c b k r); congruence.
  - intros c k Hck. destruct (decide (c = b)) as [->|]; [left|by right]. split; [done|].
    destruct (bv_held _ _ _ _ _ _ Hv b k Hck) as (q & Hq' & _ & <-). destruct Hb, Hq'. congruence.
  - intros _. left. congruence.
  - rewrite En. intros. by apply Hf.
Qed.

Lemma data_load k hb D f m y b n : (b, n) ∈ hb ->
  does pid k (Bc hb D f m y) (load (c_buf b @ c_b_data)) k (fun d x => d = f n /\ Bc hb D f m y x).
Proof.
  intros Hin x Hv. destruct (Bc_buf _ _ _ _ _ _ _ _ Hv Hin) as (r & [_ Hb] & _ & _ & _ & Hd & _).
  exists (b_data r), x. split; [by eapply buf_load|done].
Qed.

(** Block [n] overwritten. *)
Definition bset (n : Z) (d : list Z) (f : Z -> list Z) : Z -> list Z := fun k => if k =? n then d else f k.

Lemma bset_eq n d f : bset n d f n = d.
Proof. unfold bset. by rewrite Z.eqb_refl. Qed.

Lemma bset_ne n d f k : k <> n -> bset n d f k = f k.
Proof. intros Hk. unfold bset. by rewrite (proj2 (Z.eqb_neq _ _) Hk). Qed.

Lemma data_update hb D f m y b n g : (b, n) ∈ hb ->
  does pid 0 (Bc hb D f m y) (update (c_buf b @ c_b_data) g) 0 (fun _ x => Bc hb D (bset n (g (f n)) f) m y x).
Proof.
  intros Hin x Hv. destruct (Bc_buf _ _ _ _ _ _ _ _ Hv Hin) as (r & Hb & Hrd & Hrn & _ & Hd & _ & _ & _ & Hfl).
  exists tt, (put_buf b (set_b_data (g (b_data r)) r) x).
  split; [apply (buf_update 0 x b r c_b_data (b_data r) g); [apply Hb|done]|]. rewrite <- Hd.
  apply (Bc_held_put hb D D f _ m y x b n r); try done; simpl; try tauto.
  - destruct Hfl as [[-> ?]|[-> ?]]; done.
  - intros k Hk. by rewrite bset_ne.
  - apply bset_eq.
Qed.

Lemma data_store hb D f m y b n d : (b, n) ∈ hb ->
  does pid 0 (Bc hb D f m y) (store (c_buf b @ c_b_data) d) 0 (fun _ x => Bc hb D (bset n d f) m y x).
Proof. intros Hin. apply (data_update hb D f m y b n (fun _ => d) Hin). Qed.

Lemma blockno_load k hb D f m y b n : (b, n) ∈ hb ->
  does pid k (Bc hb D f m y) (load (c_buf b @ c_b_blockno)) k (fun a x => a = n /\ Bc hb D f m y x).
Proof.
  intros Hin x Hv. destruct (Bc_buf _ _ _ _ _ _ _ _ Hv Hin) as (r & [_ Hb] & _ & Hn & _).
  exists (b_blockno r), x. split; [by eapply buf_load|done].
Qed.

Lemma flags_dirty k hb D D' f m y b n : (b, n) ∈ hb -> (forall k, k ∈ D' <-> k = n \/ k ∈ D) ->
  does pid k (Bc hb D f m y) (update (c_buf b @ c_b_flags) (set_flag B_DIRTY)) k (fun _ x => Bc hb D' f m y x).
Proof.
  intros Hin HD x Hv. destruct (Bc_buf _ _ _ _ _ _ _ _ Hv Hin) as (r & Hb & Hrd & Hrn & _ & Hd & _ & _ & _ & Hfl).
  exists tt, (put_buf b (set_b_flags 6 r) x).
  assert (set_flag B_DIRTY (b_flags r) = 6) as H6 by (destruct Hfl as [[-> _]|[-> _]]; done).
  split; [rewrite <- H6; apply (buf_update k x b r c_b_flags (b_flags r)); [apply Hb|done]|].
  apply (Bc_held_put hb D D' f f m y x b n r); try done; simpl; try tauto.
  - intros j Hj. rewrite HD. tauto.
  - rewrite HD. tauto.
Qed.

Lemma write_block_in n d m k : 0 <= n < md_size m -> md_size m = Z.of_nat (length (md_blocks m)) -> 0 <= k ->
  block_in (write_block n d m) k = if k =? n then d else block_in m k.
Proof.
  intros Hn Hm Hk. unfold block_in, write_block. simpl. destruct (Z.eqb_spec k n) as [->|Hne].
  - apply nth_lookup_Some. apply list_lookup_insert_eq. lia.
  - rewrite !nth_lookup, list_lookup_insert_ne by lia. done.
Qed.

(** A write to the disk of a block the process holds. *)
Lemma Bc_write hb D f m y x b n d : Bc hb D f m y x -> (b, n) ∈ hb ->
  Bc hb D f (write_block n d m) y (set_disk (write_block n d m) x).
Proof.
  intros Hv Hin. pose proof (bv_cache _ _ _ _ _ _ Hv) as Hc. pose proof (Bc_disk _ _ _ _ _ _ Hv) as Hm.
  destruct (Bc_buf _ _ _ _ _ _ _ _ Hv Hin) as (r & Hb & Hrd & Hrn & Hi & _ & _ & _ & Hn & _).
  pose proof (ca_disk _ _ _ Hc) as Hsz. rewrite Hm in Hsz.
  assert (cache hb.*1 (set_disk (write_block n d m) x)) as Hc'.
  { destruct Hc as [A1 A2 A3 A4 A5 A6 _]. constructor; try done; [|simpl; by rewrite length_insert].
    intros c q Hq. destruct (A4 c q Hq) as [B1 B2 B3]. rewrite Hm in *. constructor; [done|done|].
    intros Hc Hqd Hqf. specialize (B3 Hc Hqd Hqf). rewrite B3. simpl. rewrite write_block_in; [|done|done|].
    - destruct (Z.eqb_spec (b_blockno q) n) as [E|]; [|done].
      assert (c = b) as -> by (apply (A5 c b q r); first [done|congruence]). done.
    - destruct B2 as [[? _]|(_ & _ & ?)]; [congruence|lia]. }
  constructor; [by rewrite (bv_rest _ _ _ _ _ _ Hv)|done| | |].
  - apply (bv_held _ _ _ _ _ _ Hv).
  - apply (bv_dirty _ _ _ _ _ _ Hv).
  - intros k Hk. simpl in Hk. rewrite <- (bv_cont _ _ _ _ _ _ Hv k Hk).
    change (content (set_disk (write_block n d m) x) k = content x k).
    destruct (content_dec x k) as [(c & q & Hq & Hqd & Hqk)|Hno].
    + rewrite <- Hqk, (content_cached _ _ _ _ _ Hc Hq Hqd). by apply (content_cached pid hb.*1 (set_disk _ x) c).
    + rewrite (content_disk x k Hno), (content_disk (set_disk _ x) k Hno). unfold block_of. simpl.
      rewrite write_block_in, Hm by (done || lia). destruct (Z.eqb_spec k n) as [->|]; [|done].
      by destruct (Hno b r).
Qed.

Lemma bwrite_does hb D D' f m y b n : (b, n) ∈ hb -> (forall k, k ∈ D' <-> k <> n /\ k ∈ D) ->
  does pid 0 (Bc hb D f m y) (bwrite b) 0 (fun _ x => Bc hb D' f (write_block n (f n) m) y x).
Proof.
  intros Hin HD x Hv.
  destruct (Bc_buf _ _ _ _ _ _ _ _ Hv Hin) as (r & Hb & Hrd & Hrn & _ & Hd & Hlk & _ & Hn & Hfl).
  destruct (Hb) as [Hlt Hbx]. pose proof (ca_disk _ _ _ (bv_cache _ _ _ _ _ _ Hv)) as Hsz.
  rewrite (Bc_disk _ _ _ _ _ _ Hv) in Hsz.
  assert (set_flag B_DIRTY (b_flags r) = 6) as H6 by (destruct Hfl as [[-> _]|[-> _]]; done).
  set (x1 := put_buf b (set_b_flags 6 r) x).
  exists tt, (set_disk (write_block n (f n) m) (put_buf b (set_b_flags 2 (set_b_flags 6 r)) x1)). split.
  - unfold bwrite. eapply runs_bind; [by eapply buf_holding|]. cbn [negb].
    eapply (runs_bind pid 0 0 0) with (x1 := x1) (a := tt).
    + unfold x1. rewrite <- H6. by apply (buf_update 0 x b r c_b_flags (b_flags r)).
    + rewrite <- Hd, <- Hrn, <- (Bc_disk _ _ _ _ _ _ Hv).
      apply (iderw_write x1 b (set_b_flags 6 r)); try done; [by eapply put_buf_get|].
      split; simpl; rewrite (Bc_disk _ _ _ _ _ _ Hv); [congruence|done].
  - apply (Bc_write hb D' f m y _ b n); [|done]. unfold x1. rewrite put_buf_put.
    apply (Bc_held_put hb D D' f f m y x b n r); try done; simpl; try tauto.
    + intros k Hk. rewrite HD. tauto.
    + rewrite HD. split; [done|tauto].
Qed.

(** The clients of the cache do not see the order of its list. *)
Lemma relinked_at x x' c r' : relinked x x' -> buf_at x' c r' ->
  exists r, buf_at x c r /\ b_dev r = b_dev r' /\ b_blockno r = b_blockno r' /\ b_flags r = b_flags r' /\
    b_data r = b_data r' /\ b_lock r = b_lock r' /\ b_refcnt r = b_refcnt r'.
Proof.
  intros [_ _ Hb] [Hlt Hc]. destruct (Hb c r' Hc) as (r & Hr & ->). exists r. split; [by split|]. done.
Qed.

Lemma relinked_sym x x' : relinked x x' -> relinked x' x.
Proof.
  intros [H1 H2 H3]. constructor; [rewrite H1; by destruct x|done|].
  intros c r Hr. assert (c < length (bufs x'))%nat as [r' Hr']%lookup_lt_is_Some by (rewrite H2; by eapply lookup_lt_Some).
  destruct (H3 c r' Hr') as (r0 & Hr0 & E). exists r'. split; [done|]. assert (r0 = r) as -> by congruence.
  rewrite E. by destruct r.
Qed.

Lemma relinked_cache hs x x' l : relinked x x' -> cache hs x ->
  l ≡ₚ seq 0 NBUF -> ring (link b_next x') (link b_prev x') NBUF l -> cache hs x'.
Proof.
  intros Hrl [A1 A2 A3 A4 A5 A6 A7] Hl Hr. pose proof (rl_rest _ _ Hrl) as E.
  assert (disk x' = disk x) as Ed by (by rewrite E). constructor.
  - rewrite E. done.
  - rewrite (rl_len _ _ Hrl). done.
  - by exists l.
  - intros c r' Hc. destruct (relinked_at _ _ _ _ Hrl Hc) as (r & Hr0 & E1 & E2 & E3 & E4 & E5 & E6).
    destruct (A4 c r Hr0) as [B1 B2 B3]. rewrite Ed. constructor; rewrite <- ?E1, <- ?E2, <- ?E3, <- ?E4, <- ?E5, <- ?E6; done.
  - intros b c r q Hb Hc Hd Hd' Hn.
    destruct (relinked_at _ _ _ _ Hrl Hb) as (r0 & Hr0 & E1 & E2 & _), (relinked_at _ _ _ _ Hrl Hc) as (q0 & Hq0 & E1' & E2' & _).
    apply (A5 b c r0 q0); congruence.
  - done.
  - by rewrite Ed.
Qed.

Lemma relinked_Bc hb D f m y x x' l : relinked x x' -> Bc hb D f m y x ->
  l ≡ₚ seq 0 NBUF -> ring (link b_next x') (link b_prev x') NBUF l -> Bc hb D f m y x'.
Proof.
  intros Hrl Hv Hl Hr. pose proof (bv_cache _ _ _ _ _ _ Hv) as Hc. pose proof (relinked_sym _ _ Hrl) as Hrs.
  pose proof (relinked_cache _ _ _ _ Hrl Hc Hl Hr) as Hc'. constructor.
  - rewrite (rl_rest _ _ Hrl), (bv_rest _ _ _ _ _ _ Hv). done.
  - done.
  - intros b n (r & Hb & Hd & Hn)%(bv_held _ _ _ _ _ _ Hv).
    destruct (relinked_at _ _ _ _ Hrs Hb) as (r' & Hb' & E1 & E2 & _). exists r'. split; [done|]. split; congruence.
  - intros n. rewrite <- (bv_dirty _ _ _ _ _ _ Hv). split; intros (b & r & Hb & Hd & Hn & Hf).
    + destruct (relinked_at _ _ _ _ Hrl Hb) as (r' & Hb' & E1 & E2 & E3 & _). exists b, r'.
      split; [done|]. repeat split; congruence.
    + destruct (relinked_at _ _ _ _ Hrs Hb) as (r' & Hb' & E1 & E2 & E3 & _). exists b, r'.
      split; [done|]. repeat split; congruence.
  - intros n Hn. rewrite <- (bv_cont _ _ _ _ _ _ Hv n Hn). destruct (content_dec x n) as [(b & r & Hb & Hd & <-)|Hno].
    + destruct (relinked_at _ _ _ _ Hrs Hb) as (r' & Hb' & E1 & E2 & E3 & E4 & _).
      rewrite (content_cached _ _ _ _ _ Hc Hb Hd), <- E2. rewrite (content_cached _ _ _ _ _ Hc' Hb'); congruence.
    + rewrite (content_disk x n Hno). rewrite (content_disk x' n).
      * unfold block_of. by rewrite (rl_rest _ _ Hrl).
      * intros b r' Hb. destruct (relinked_at _ _ _ _ Hrl Hb) as (r & Hr0 & E1 & E2 & _). rewrite <- E1, <- E2. by apply (Hno b r).
Qed.

(** A buffer put down. *)
Lemma Bc_drop hb D f m y x b n r : Bc ((b, n) :: hb) D f m y x -> buf_at x b r ->
  (n ∈ D \/ f n = block_in m n) ->
  Bc hb D f m y (put_buf b (set_b_refcnt 0 (set_b_lock (sl_drop (b_lock r)) r)) x).
Proof.
  intros Hv Hb Hcl. pose proof (bv_cache _ _ _ _ _ _ Hv) as Hc. pose proof (Bc_disk _ _ _ _ _ _ Hv) as Hm.
  destruct (Bc_buf _ _ _ _ _ _ b n Hv) as (q & Hq & Hd & Hn & Hi & Hdat & Hlk & Hrc & Hr & Hfl); [by left|].
  assert (q = r) as -> by (destruct Hb, Hq; congruence). destruct (ca_held _ _ _ Hc) as [Hnd Hbd].
  simpl in Hnd. apply NoDup_cons in Hnd as [Hnb Hnd].
  eapply (Bc_put ((b, n) :: hb) hb D D f f m y x b r); try done; simpl.
  - apply (cache_put (b :: hb.*1) hb.*1 x b r); try done.
    + constructor; simpl.
      * rewrite decide_False by done. by destruct Hlk as (_ & _ & ?).
      * right. split; [done|]. split; [tauto|]. by rewrite Hm, Hn.
      * intros _ _ Hf2. rewrite Hdat, Hm, Hn. destruct Hcl as [HD|]; [|done].
        destruct Hfl as [[? _]|[_ ?]]; [lia|done].
    + set_solver.
    + intros c Hc2. apply Hbd. by right.
    + simpl. intros _ c q Hq' Hcb Hqd Heq. apply Hcb. apply (ca_inj _ _ _ Hc c b q r); congruence.
  - intros c k Hck. right. split; [|by right]. intros ->. apply Hnb. apply list_elem_of_fmap. by exists (b, k).
  - intros _. by left.
  - rewrite Hn. destruct Hfl as [[-> ?]|[-> ?]]; done.
  - by rewrite Hn.
Qed.

Lemma brelse_does hb D f m y b n : (n ∈ D \/ f n = block_in m n) ->
  does pid 0 (Bc ((b, n) :: hb) D f m y) (brelse b) 0 (fun _ x => Bc hb D f m y x).
Proof.
  intros Hcl x Hv. pose proof (bv_cache _ _ _ _ _ _ Hv) as Hc.
  destruct (Bc_buf _ _ _ _ _ _ b n Hv) as (r & Hb & Hd & Hn & Hi & Hdat & Hlk & Hrc & Hr & Hfl); [by left|].
  pose proof (Bc_drop _ _ _ _ _ _ _ _ _ Hv Hb Hcl) as Hv'. destruct (Hb) as [Hlt Hbx].
  set (r1 := set_b_lock (sl_drop (b_lock r)) r) in *. set (x1 := put_buf b (set_b_refcnt 0 r1) x) in *.
  pose proof (bv_cache _ _ _ _ _ _ Hv') as Hc'. destruct (ca_ring _ _ _ Hc') as (l & Hl & Hring).
  destruct (move_to_front_runs 1 (set_bc_lock (locked_by0 (bc_lock x)) x1) b l) as (x2 & Hmv & Hrl & l' & Hl' & Hr');
    [apply (ca_len _ _ _ Hc')|done|done|done|].
  exists tt, (set_bc_lock (bc_lock x) x2). split.
  - unfold brelse. eapply runs_bind; [by eapply buf_holding|]. cbn [negb].
    eapply runs_bind; [apply buf_release; [done|by destruct Hlk as (_ & _ & ?)]|].
    eapply runs_bind; [apply bc_acquire; apply (ca_lock _ _ _ Hc)|].
    assert (bufs (put_buf b r1 x) !! b = Some r1) as Hb1 by (by eapply put_buf_get).
    eapply (runs_bind pid 1 1 0) with (x1 := set_bc_lock (locked_by0 (bc_lock x)) x1) (a := tt).
    { unfold x1. rewrite <- (put_buf_put x b (set_b_refcnt 0 r1) r1).
      assert (set_b_refcnt 0 r1 = cset c_b_refcnt (u32 (b_refcnt r1 - 1)) r1) as ->.
      { change (b_refcnt r1) with (b_refcnt r). by rewrite Hrc. }
      by apply (buf_update 1 (set_bc_lock (locked_by0 (bc_lock x)) (put_buf b r1 x)) b r1 c_b_refcnt (b_refcnt r1)
        (fun n => u32 (n - 1))). }
    eapply runs_bind.
    { eapply (buf_load 1 _ b (set_b_refcnt 0 r1) c_b_refcnt); [|done]. simpl. by eapply put_buf_get. }
    eapply runs_bind; [exact Hmv|]. rewrite (rl_rest _ _ Hrl).
    change (set_bufs (bufs x2) (set_bc_lock (locked_by0 (bc_lock x)) x1))
      with (set_bc_lock (locked_by0 (bc_lock x)) (set_bufs (bufs x2) x1)).
    apply (bc_release (set_bufs (bufs x2) x1) (bc_lock x)). apply (ca_lock _ _ _ Hc).
  - apply (relinked_Bc hb D f m y x1 _ l'); [|done|done|done]. destruct Hrl as [R1 R2 R3].
    constructor; [|done|done]. by rewrite R1 at 1.
Qed.

(** The order in which blocks are held does not matter. *)
Lemma Bc_perm hb hb' D f m y x : hb ≡ₚ hb' -> Bc hb D f m y x -> Bc hb' D f m y x.
Proof.
  intros Hp [A1 [C1 C2 C3 C4 C5 [C6 C6'] C7] A3 A4 A5]. constructor; try done.
  - assert (hb.*1 ≡ₚ hb'.*1) as Hp1 by (by apply fmap_Permutation).
    assert (forall c, c ∈ hb.*1 <-> c ∈ hb'.*1) as He by (intros c; by rewrite Hp1). constructor; try done.
    + intros b r Hb. destruct (C4 b r Hb) as [B1 B2 B3]. constructor; [|done|].
      * specialize (He b). destruct (decide (b ∈ hb.*1)), (decide (b ∈ hb'.*1)); tauto.
      * intros Hn. apply B3. by rewrite He.
    + split; [by rewrite <- Hp1|]. intros b. rewrite <- He. apply C6'.
  - intros b n. rewrite <- Hp. apply A3.
Qed.

(** *** The rest of the system *)

(** A variable apart from the cache and the disk. *)
Class Rest {Y : Type} (c : cell sys Y) := {
  rest_get : forall m bs y, cget c (set_disk m (set_bufs bs y)) = cget c y;
  rest_set : forall v m bs y, cset c v (set_disk m (set_bufs bs y)) = set_disk m (set_bufs bs (cset c v y));
  rest_lock : forall v y, bc_lock (cset c v y) = bc_lock y
}.

#[global] Instance rest_inside {Y Z : Type} (c : cell sys Y) (d : cell Y Z) : Rest c -> Rest (c @ d).
Proof.
  intros [H1 H2 H3]. constructor; simpl.
  - intros. by rewrite H1.
  - intros. rewrite H1. destruct (cget c y); [apply H2|done].
  - intros. destruct (cget c y); [apply H3|done].
Qed.

#[global] Instance rest_log : Rest c_log.
Proof. done. Qed.
#[global] Instance rest_sb : Rest c_sb.
Proof. done. Qed.
#[global] Instance rest_ic_lock : Rest c_ic_lock.
Proof. done. Qed.
#[global] Instance rest_inodes : Rest c_inodes.
Proof. done. Qed.
#[global] Instance rest_ft_lock : Rest c_ft_lock.
Proof. done. Qed.
#[global] Instance rest_files : Rest c_files.
Proof. done. Qed.

Lemma Bc_get {Y : Type} (c : cell sys Y) `{!Rest c} hb D f m y x : Bc hb D f m y x -> cget c x = cget c y.
Proof. intros Hv. rewrite (bv_rest _ _ _ _ _ _ Hv). apply rest_get. Qed.

Lemma Bc_set {Y : Type} (c : cell sys Y) `{!Rest c} hb D f m y x v : Bc hb D f m y x ->
  Bc hb D f m (cset c v y) (cset c v x).
Proof.
  intros Hv. pose proof (bv_rest _ _ _ _ _ _ Hv) as E.
  assert (cset c v x = set_disk m (set_bufs (bufs x) (cset c v y))) as E' by (rewrite E at 1; apply rest_set).
  assert (bufs (cset c v x) = bufs x) as Eb by (by rewrite E').
  assert (disk (cset c v x) = disk x) as Ed by (rewrite E'; by rewrite (Bc_disk _ _ _ _ _ _ Hv)).
  assert (bc_lock (cset c v x) = bc_lock x) as El.
  { rewrite E'. rewrite E at 2. apply (rest_lock v y). }
  destruct Hv as [_ [A1 A2 A3 A4 A5 A6 A7] A8 A9 A10].
  constructor.
  - by rewrite Eb.
  - constructor; unfold buf_at, link in *; rewrite ?Eb, ?Ed, ?El; done.
  - unfold holds, buf_at in *. by rewrite Eb.
  - unfold dirty, buf_at in *. by rewrite Eb.
  - unfold content, block_of in *. by rewrite Eb, Ed.
Qed.

Lemma rest_load {Y : Type} k (c : cell sys Y) `{!Rest c} hb D f m y v : cget c y = Some v ->
  does pid k (Bc hb D f m y) (load c) k (fun a x => a = v /\ Bc hb D f m y x).
Proof. intros Hc. apply does_load. intros x Hv. by rewrite (Bc_get c _ _ _ _ _ _ Hv). Qed.

Lemma rest_store {Y : Type} k (c : cell sys Y) `{!Rest c} hb D f m y v v0 : cget c y = Some v0 ->
  does pid k (Bc hb D f m y) (store c v) k (fun _ x => Bc hb D f m (cset c v y) x).
Proof.
  intros Hc. apply does_store. intros x Hv. rewrite (Bc_get c _ _ _ _ _ _ Hv), Hc. split; [by eexists|]. by apply Bc_set.
Qed.

Lemma rest_update {Y : Type} k (c : cell sys Y) `{!Rest c} hb D f m y g v : cget c y = Some v ->
  does pid k (Bc hb D f m y) (update c g) k (fun _ x => Bc hb D f m (cset c (g v) y) x).
Proof.
  intros Hc x Hv. exists tt, (cset c (g v) x). split; [|by apply Bc_set].
  apply runs_update. by rewrite (Bc_get c _ _ _ _ _ _ Hv).
Qed.

Lemma rest_acquire k (c : cell sys spinlock) `{!Rest c} `{!CellLaws c} hb D f m y l :
  cget c y = Some l -> free_lock l -> shallow k ->
  does pid k (Bc hb D f m y) (acquire (spin_of c)) (k + 1) (fun _ x => Bc hb D f m (cset c (locked_by0 l) y) x).
Proof.
  intros Hc Hf Hk x Hv. eexists _, _. split; [apply runs_acquire; [done| |exact Hf|done]|].
  - rewrite (Bc_get c _ _ _ _ _ _ Hv). done.
  - by apply Bc_set.
Qed.

Lemma rest_release k (c : cell sys spinlock) `{!Rest c} `{!CellLaws c} hb D f m y l :
  cget c y = Some (locked_by0 l) -> free_lock l -> shallow k -> 0 < k ->
  does pid k (Bc hb D f m y) (release (spin_of c)) (k - 1) (fun _ x => Bc hb D f m (cset c l y) x).
Proof.
  intros Hc Hf Hk Hp x Hv. exists tt, (cset c l x). split; [|by apply Bc_set].
  rewrite <- (free_unlocked l Hf). apply (runs_release pid k c x (locked_by0 l)); [|done|done|done].
  by rewrite (Bc_get c _ _ _ _ _ _ Hv).
Qed.

Lemma rest_wakeup k ch hb D f m y : shallow k ->
  does pid k (Bc hb D f m y) (wakeup_on ch) k (fun _ x => Bc hb D f m y x).
Proof. intros Hk x Hv. exists tt, x. split; [by apply runs_wakeup|done]. Qed.

(** *** binit *)

(** The buffers as the kernel is loaded: zero. *)
Definition zero_buf (r : buf) : Prop := b_dev r = 0 /\ b_flags r = 0 /\ b_refcnt r = 0.
Definition blank_cache x : Prop :=
  length (bufs x) = Datatypes.S NBUF /\ forall b r, bufs x !! b = Some r -> zero_buf r.

(** The cache while [binit] builds its list: the buffers of [l] are in it. *)
Record building (y : sys) (l : list nat) x : Prop := {
  bi_rest : x = set_bufs (bufs x) y;
  bi_blank : blank_cache x;
  bi_ring : ring (link b_next x) (link b_prev x) NBUF (reverse l);
  bi_lock : forall b r, b ∈ l -> bufs x !! b = Some r -> sl_free (b_lock r)
}.

Lemma relinked_blank x x' : relinked x x' -> blank_cache x -> blank_cache x'.
Proof.
  intros Hr [H1 H2]. split; [by rewrite (rl_len _ _ Hr)|]. intros b r' Hb.
  destruct (rl_buf _ _ Hr b r' Hb) as (r & Hr0 & ->). by apply (H2 b r).
Qed.

Lemma binit_step y l1 b l2 : seq 0 NBUF = l1 ++ b :: l2 ->
  does pid 0 (building y l1)
    (h <- load (c_buf NBUF @ c_b_next) ;;
     store (c_buf b @ c_b_next) h ;;;
     store (c_buf b @ c_b_prev) NBUF ;;;
     initsleeplock (c_buf b @ c_b_lock) "buffer" ;;;
     h <- load (c_buf NBUF @ c_b_next) ;;
     store (c_buf h @ c_b_prev) b ;;;
     store (c_buf NBUF @ c_b_next) b) 0 (fun _ x => building y (l1 ++ [b]) x).
Proof.
  intros Hl x [Hy Hb Hr Hlk]. pose proof Hb as [Hlen Hz].
  assert (forall c, c ∈ l1 ++ [b] -> (c < NBUF)%nat) as Hlt.
  { intros c Hc. assert (c ∈ seq 0 NBUF) as Hs by (rewrite Hl; set_solver). apply elem_of_seq in Hs. lia. }
  assert (b < NBUF)%nat as Hbl by (apply Hlt; set_solver).
  assert (b ∉ NBUF :: reverse l1) as Hbn.
  { pose proof (NoDup_seq 0 NBUF) as Hnd. rewrite Hl in Hnd. apply NoDup_app in Hnd as (_ & Hd & _).
    rewrite not_elem_of_cons, elem_of_reverse. split; [lia|]. intros Hi. apply (Hd b Hi). by left. }
  pose proof (ring_push _ _ _ _ b Hr Hbn) as Hr2.
  destruct (next_store 0 x b (link b_next x NBUF)) as (x1 & R1 & L1 & N1 & P1); [lia|]. pose proof (rl_len _ _ L1) as E1.
  destruct (prev_store 0 x1 b NBUF) as (x2 & R2 & L2 & P2 & N2); [lia|]. pose proof (rl_len _ _ L2) as E2.
  destruct (lookup_lt_is_Some_2 (bufs x2) b) as [r2 Hr2b]; [lia|].
  set (r3 := set_b_lock (mkSl 0 (mkLock 0 "sleep lock" None) "buffer" 0) r2). set (x3 := put_buf b r3 x2).
  assert (length (bufs x3) = Datatypes.S NBUF) as E3 by (unfold x3; simpl; rewrite length_insert; lia).
  assert (forall c, link b_next x3 c = link b_next x2 c) as N3 by (by apply (link_keep b_next x2 b r3 r2)).
  assert (forall c, link b_prev x3 c = link b_prev x2 c) as P3 by (by apply (link_keep b_prev x2 b r3 r2)).
  assert (link b_next x3 NBUF = link b_next x NBUF) as N3'.
  { rewrite N3, N2, N1. apply fupd_ne. lia. }
  destruct (prev_store 0 x3 (link b_next x3 NBUF) b) as (x4 & R4 & L4 & P4 & N4).
  { rewrite N3', (seg_head _ _ _ _ _ (proj1 Hr)), E3. destruct (reverse l1) as [|c k] eqn:El; [simpl; lia|].
    simpl. assert (c ∈ l1) as Hc by (apply elem_of_reverse; rewrite El; by left).
    specialize (Hlt c ltac:(set_solver)). lia. }
  pose proof (rl_len _ _ L4) as E4.
  destruct (next_store 0 x4 NBUF b) as (x5 & R5 & L5 & N5 & P5); [lia|].
  assert (relinked x x2) as L12 by (by eapply relinked_trans).
  assert (relinked x3 x5) as L35 by (by eapply relinked_trans).
  assert (blank_cache x3) as B3.
  { pose proof (relinked_blank _ _ L12 Hb) as [_ Hz2]. split; [done|]. intros c r Hc. simpl in Hc.
    destruct (decide (c = b)) as [->|]; [|rewrite list_lookup_insert_ne in Hc by done; by apply (Hz2 c)].
    rewrite list_lookup_insert_eq in Hc by lia. injection Hc as <-. by apply (Hz2 b r2). }
  exists tt, x5. split.
  - eapply runs_bind; [apply (link_load 0 x NBUF b_next); [by left|lia]|]. eapply runs_bind; [exact R1|].
    eapply runs_bind; [exact R2|]. eapply (runs_bind pid 0 0 0) with (x1 := x3) (a := tt).
    { unfold x3, r3. rewrite <- c_buf_set.
      change (set_b_lock ?l r2) with (cset c_b_lock l r2). rewrite <- (inside_set (c_buf b) c_b_lock x2 r2) by done.
      eapply initsleeplock_runs; [apply _|]. by eapply inside_get. }
    eapply runs_bind; [apply (link_load 0 x3 NBUF b_next); [by left|lia]|]. by eapply runs_bind; [exact R4|].
  - constructor.
    + rewrite (rl_rest _ _ L35). unfold x3, put_buf. rewrite (rl_rest _ _ L12), Hy. done.
    + by eapply relinked_blank.
    + rewrite reverse_app. simpl. apply (ring_ext _ _ _ _ _ _ Hr2); intros c.
      * rewrite N5. unfold fupd at 1 2. rewrite N4, N3, N2, N1. done.
      * rewrite P5, P4. rewrite N3'. unfold fupd at 1 3. rewrite P3, P2. unfold fupd at 1 2. by rewrite P1.
    + intros c r Hc Hcr. destruct (rl_buf _ _ L35 c r Hcr) as (r0 & Hr0 & ->). simpl. unfold x3, put_buf in Hr0. simpl in Hr0.
      destruct (decide (c = b)) as [->|Hcb].
      * rewrite list_lookup_insert_eq in Hr0 by lia. injection Hr0 as <-. done.
      * rewrite list_lookup_insert_ne in Hr0 by done. destruct (rl_buf _ _ L12 c r0 Hr0) as (r1 & Hr1 & ->).
        simpl. apply (Hlk c); [set_solver|done].
Qed.

(** With all buffers in the list, the cache shows the disk. *)
Lemma building_Bc y x : building y (seq 0 NBUF) x -> free_lock (bc_lock y) ->
  md_size (disk y) = Z.of_nat (length (md_blocks (disk y))) -> Bc [] [] (block_in (disk y)) (disk y) y x.
Proof.
  intros [Hy [Hlen Hz] Hr Hlk] Hf Hd.
  assert (forall b r, buf_at x b r -> b_dev r = 0) as Hdev by (intros b r [_ Hb]; by apply (Hz b r)).
  assert (disk x = disk y) as Ed by (by rewrite Hy). constructor.
  - rewrite Hy at 1. by destruct y.
  - constructor; simpl; rewrite ?Ed; [by rewrite Hy|done| | | | |done].
    + exists (reverse (seq 0 NBUF)). split; [by rewrite reverse_Permutation|done].
    + intros b r [Hlt Hb]. destruct (Hz b r Hb) as (Z1 & Z2 & Z3). constructor; [|by left|intros _ ?; congruence].
      simpl. split; [|done]. apply (Hlk b); [apply elem_of_seq; lia|done].
    + intros b c r q Hb _ Hd1. rewrite (Hdev b r Hb) in Hd1. done.
    + split; [apply NoDup_nil_2|]. intros b. by rewrite elem_of_nil.
  - intros b n. by rewrite elem_of_nil.
  - intros n. rewrite elem_of_nil. split; [|done]. intros (b & r & Hb & Hd1 & _). by rewrite (Hdev b r Hb) in Hd1.
  - intros n _. rewrite content_disk; [unfold block_of; by rewrite Ed|]. intros b r Hb. by rewrite (Hdev b r Hb).
Qed.

Lemma binit_does x : blank_cache x -> md_size (disk x) = Z.of_nat (length (md_blocks (disk x))) ->
  exists x', runs 0 binit x 0 tt x' /\
    Bc [] [] (block_in (disk x)) (disk x) (set_bc_lock (mkLock 0 "bcache" None) x) x'.
Proof.
  intros Hb Hd. set (y := set_bc_lock (mkLock 0 "bcache" None) x). pose proof Hb as [Hlen Hz].
  destruct (prev_store 0 y NBUF NBUF) as (x1 & R1 & L1 & P1 & N1); [simpl; lia|]. pose proof (rl_len _ _ L1) as E1.
  destruct (next_store 0 x1 NBUF NBUF) as (x2 & R2 & L2 & N2 & P2); [simpl in E1; lia|].
  assert (relinked y x2) as L12 by (by eapply relinked_trans).
  assert (building y [] x2) as Hbl.
  { constructor; [apply (rl_rest _ _ L12)|by apply (relinked_blank _ _ L12)| |by intros ? ? ?%elem_of_nil].
    rewrite reverse_nil. split; [|apply NoDup_singleton]. simpl. by rewrite N2, P2, P1, !fupd_eq. }
  destruct (does_for_each pid 0 (building y) _ (seq 0 NBUF) (binit_step y) x2 Hbl) as ([] & x' & Hrun & Hbl').
  exists x'. split; [|by apply (building_Bc y)].
  unfold binit. eapply runs_bind; [apply (runs_initlock pid 0 c_bc_lock)|]. eapply runs_bind; [exact R1|].
  by eapply runs_bind; [exact R2|].
Qed.

(** ** Writing and reading back *)

(** Read and release the blocks [ns]. *)
Definition visit (ns : list Z) : M S unit := for_each ns (fun k => c <- bread fuel 1 k ;; brelse c).

Lemma visit_does f m y ns : (forall k, 0 <= k < md_size m -> f k = block_in m k) ->
  Forall (fun k => 0 <= k < md_size m) ns ->
  does pid 0 (Bc [] [] f m y) (visit ns) 0 (fun _ x => Bc [] [] f m y x).
Proof.
  intros Hcl Hns. apply (does_for_each pid 0 (fun _ x => Bc [] [] f m y x)).
  intros l1 k l2 ->. apply Forall_app in Hns as [_ [Hk _]%Forall_cons].
  eapply does_bind; [apply bread_does; [done|apply not_elem_of_nil|right; simpl; unfold NBUF; lia]|].
  intros c. apply brelse_does. right. by apply Hcl.
Qed.


End Facts.

Lemma blank_sys_cache m l : blank_cache (blank_sys m l).
Proof.
  split; [done|]. intros b r Hb. change (replicate (S NBUF) zero_buffer !! b = Some r) in Hb.
  by apply lookup_replicate in Hb as [-> _].
Qed.

