(* ===== verification/Log.v ===== *)
(** * The log (log.c)

    Every change a file system call makes to the disk goes through the log: the
    blocks are pinned in the cache while the call runs, and [commit] writes them to
    the log, then the header, then to their home locations.

    The theorems describe a machine that stops anywhere inside [commit]: after
    [initlog] of the next boot, the blocks outside the log are either all as before
    the transaction or all as after it, and the machine may stop again during the
    recovery. *)

From stdpp Require Import base tactics list sets strings gmap.
From Stdlib Require Import ZArith Lia.
From S2P Require Import Prelude Params StringC Spinlock ProcState Comp SysState Words Sleeplock Bio.
Open Scope Z_scope.

(** [&log], the channel [begin_op] sleeps on. *)
Definition log_chan : chan := AddrChan (-4).

(** Offsets in the header block. *)
Definition lh_n_off : nat := 0.
Definition lh_block_off (i : Z) : nat := Z.to_nat (4 + 4 * i).

(** The super block laid over the bytes of a block. *)
Definition decode_sb (d : list Z) : superblock :=
  mkSb (get32 0 d) (get32 4 d) (get32 8 d) (get32 12 d) (get32 16 d) (get32 20 d) (get32 24 d).

Section Ops.
Context {S : Type} `{PX : Part sys S} `{PR : Procs S} (fuel : nat).
Abbreviation K := (M S).

Definition log_lock : lockref S := spin_of (c_log @ c_lg_lock).

(** fs.c *)
Definition readsb (dev : Z) : K superblock :=
  bp <- bread fuel dev 1 ;;
  d <- load (c_buf bp @ c_b_data) ;;
  brelse bp ;;;
  ret (decode_sb d).

(** [for(i = ...; i < log.lh.n; i++) body], at most [n] rounds. *)
Fixpoint for_log (n : nat) (i : Z) (body : Z -> K unit) : K unit :=
  match n with
  | O => fuel_out
  | Datatypes.S n =>
      c <- load (c_log @ c_lh_n) ;;
      if i <? c then body i ;;; for_log n (i + 1) body else ret tt
  end.

Definition log_rounds : nat := Datatypes.S LOGSIZE.
Definition lh_entry (i : Z) : cell sys Z := c_log @ c_lh_block @ elem (Z.to_nat i).

(** [log.start+tail+1], as the block number of a log block. *)
Definition log_block (tail : Z) : K Z :=
  start <- load (c_log @ c_lg_start) ;; ret (u32 (start + tail + 1)).

Definition install_trans : K unit :=
  for_log log_rounds 0 (fun tail =>
    dev <- load (c_log @ c_lg_dev) ;; n <- log_block tail ;;
    lbuf <- bread fuel (u32 dev) n ;;
    dev <- load (c_log @ c_lg_dev) ;; n <- load (lh_entry tail) ;;
    dbuf <- bread fuel (u32 dev) (u32 n) ;;
    d <- load (c_buf lbuf @ c_b_data) ;;
    store (c_buf dbuf @ c_b_data) d ;;;
    bwrite dbuf ;;;
    brelse lbuf ;;;
    brelse dbuf).

Definition read_head : K unit :=
  dev <- load (c_log @ c_lg_dev) ;; start <- load (c_log @ c_lg_start) ;;
  buf <- bread fuel (u32 dev) (u32 start) ;;
  d <- load (c_buf buf @ c_b_data) ;;
  store (c_log @ c_lh_n) (i32 (get32 lh_n_off d)) ;;;
  for_log log_rounds 0 (fun i =>
    d <- load (c_buf buf @ c_b_data) ;;
    store (lh_entry i) (i32 (get32 (lh_block_off i) d))) ;;;
  brelse buf.

Definition write_head : K unit :=
  dev <- load (c_log @ c_lg_dev) ;; start <- load (c_log @ c_lg_start) ;;
  buf <- bread fuel (u32 dev) (u32 start) ;;
  n <- load (c_log @ c_lh_n) ;;
  update (c_buf buf @ c_b_data) (put32 lh_n_off n) ;;;
  for_log log_rounds 0 (fun i =>
    b <- load (lh_entry i) ;;
    update (c_buf buf @ c_b_data) (put32 (lh_block_off i) b)) ;;;
  bwrite buf ;;;
  brelse buf.

Definition recover_from_log : K unit :=
  read_head ;;;
  install_trans ;;;
  store (c_log @ c_lh_n) 0 ;;;
  write_head.

Definition sizeof_logheader : Z := 4 + 4 * Z.of_nat LOGSIZE.

Definition initlog (dev : Z) : K unit :=
  if BSIZE <=? sizeof_logheader then panic "initlog: too big logheader" else
  initlock log_lock "log" ;;;
  sb <- readsb (u32 dev) ;;
  store (c_log @ c_lg_start) (i32 (sb_logstart sb)) ;;;
  store (c_log @ c_lg_size) (i32 (sb_nlog sb)) ;;;
  store (c_log @ c_lg_dev) dev ;;;
  recover_from_log.

(** One round of the loop of [begin_op]: whether it is done. *)
Definition begin_op_try : K bool :=
  l <- load c_log ;;
  if negb (lg_committing l =? 0) then sleep_on log_chan log_lock ;;; ret false
  else if Z.of_nat LOGSIZE <? lh_n l + (lg_outstanding l + 1) * MAXOPBLOCKS then
    sleep_on log_chan log_lock ;;; ret false
  else
    update (c_log @ c_lg_outstanding) (fun n => i32 (n + 1)) ;;;
    release log_lock ;;;
    ret true.

Definition begin_op : K unit :=
  acquire log_lock ;;;
  loop_fuel (Datatypes.S fuel) (b <- begin_op_try ;; ret (if (b : bool) then Some tt else None)).

Definition write_log : K unit :=
  for_log log_rounds 0 (fun tail =>
    dev <- load (c_log @ c_lg_dev) ;; n <- log_block tail ;;
    to <- bread fuel (u32 dev) n ;;
    dev <- load (c_log @ c_lg_dev) ;; n <- load (lh_entry tail) ;;
    from <- bread fuel (u32 dev) (u32 n) ;;
    d <- load (c_buf from @ c_b_data) ;;
    store (c_buf to @ c_b_data) d ;;;
    bwrite to ;;;
    brelse from ;;;
    brelse to).

Definition commit : K unit :=
  n <- load (c_log @ c_lh_n) ;;
  when (0 <? n)
    (write_log ;;;
     write_head ;;;
     install_trans ;;;
     store (c_log @ c_lh_n) 0 ;;;
     write_head).

Definition end_op : K unit :=
  acquire log_lock ;;;
  update (c_log @ c_lg_outstanding) (fun n => i32 (n - 1)) ;;;
  l <- load c_log ;;
  if negb (lg_committing l =? 0) then panic "log.committing" else
  let do_commit := lg_outstanding l =? 0 in
  (if do_commit then store (c_log @ c_lg_committing) 1 else wakeup_on log_chan) ;;;
  release log_lock ;;;
  when do_commit
    (commit ;;;
     acquire log_lock ;;;
     store (c_log @ c_lg_committing) 0 ;;;
     wakeup_on log_chan ;;;
     release log_lock).

(** [for (i = 0; i < log.lh.n; i++) if (log.lh.block[i] == b->blockno) break;] *)
Fixpoint absorb (n : nat) (i blockno : Z) : K Z :=
  match n with
  | O => fuel_out
  | Datatypes.S n =>
      c <- load (c_log @ c_lh_n) ;;
      if i <? c then
        e <- load (lh_entry i) ;;
        if u32 e =? blockno then ret i else absorb n (i + 1) blockno
      else ret i
  end.

Definition log_write (b : nat) : K unit :=
  l <- load c_log ;;
  if (Z.of_nat LOGSIZE <=? lh_n l) || (lg_size l - 1 <=? lh_n l) then panic "too big a transaction" else
  if lg_outstanding l <? 1 then panic "log_write outside of trans" else
  acquire log_lock ;;;
  blockno <- load (c_buf b @ c_b_blockno) ;;
  i <- absorb log_rounds 0 blockno ;;
  store (lh_entry i) (i32 blockno) ;;;
  n <- load (c_log @ c_lh_n) ;;
  when (i =? n) (store (c_log @ c_lh_n) (i32 (n + 1))) ;;;
  update (c_buf b @ c_b_flags) (set_flag B_DIRTY) ;;;
  release log_lock.

End Ops.

(** ** Sequences of block writes *)

Abbreviation writes := (list (Z * list Z)).

Definition apply_writes (W : writes) (m : memdisk) : memdisk := foldl (fun m w => write_block w.1 w.2 m) m W.
Definition set_all (W : writes) (f : Z -> list Z) : Z -> list Z := foldl (fun f w => bset w.1 w.2 f) f W.

Section Writes.
Implicit Types (W : writes) (m : memdisk) (f : Z -> list Z).

Lemma apply_writes_app W1 W2 m : apply_writes (W1 ++ W2) m = apply_writes W2 (apply_writes W1 m).
Proof. apply foldl_app. Qed.

Lemma set_all_app W1 W2 f : set_all (W1 ++ W2) f = set_all W2 (set_all W1 f).
Proof. apply foldl_app. Qed.

Lemma set_all_cons w W f : set_all (w :: W) f = set_all W (bset w.1 w.2 f).
Proof. done. Qed.

Lemma apply_writes_S W i w m : W !! i = Some w ->
  apply_writes (take (S i) W) m = write_block w.1 w.2 (apply_writes (take i W) m).
Proof. intros Hw. by rewrite (take_S_r _ _ w), apply_writes_app. Qed.

Lemma set_all_S W i w f : W !! i = Some w -> set_all (take (S i) W) f = bset w.1 w.2 (set_all (take i W) f).
Proof. intros Hw. by rewrite (take_S_r _ _ w), set_all_app. Qed.

Lemma apply_writes_size W : forall m, md_size (apply_writes W m) = md_size m.
Proof. induction W as [|w W IH]; intros m; [done|]. unfold apply_writes in *. simpl. by rewrite IH. Qed.

Lemma apply_writes_len W : forall m, length (md_blocks (apply_writes W m)) = length (md_blocks m).
Proof.
  induction W as [|w W IH]; intros m; [done|]. unfold apply_writes in *. simpl. rewrite IH. apply length_insert.
Qed.

Lemma apply_writes_trace W : forall m, md_writes (apply_writes W m) = md_writes m ++ W.
Proof.
  induction W as [|[n d] W IH]; intros m; [by rewrite app_nil_r|]. unfold apply_writes in *. simpl.
  rewrite IH. simpl. by rewrite <- app_assoc.
Qed.

Lemma set_all_other W n : forall f, n ∉ W.*1 -> set_all W f n = f n.
Proof.
  induction W as [|w W IH]; intros f Hn; [done|]. simpl in Hn. apply not_elem_of_cons in Hn as [Hw Hn].
  unfold set_all in *. simpl. rewrite IH by done. by apply bset_ne.
Qed.

Lemma set_all_in W n d : forall f, NoDup W.*1 -> (n, d) ∈ W -> set_all W f n = d.
Proof.
  induction W as [|w W IH]; intros f Hd Hn; [by apply elem_of_nil in Hn|]. simpl in Hd. apply NoDup_cons in Hd as [Hw Hd].
  apply elem_of_cons in Hn as [<-|Hn]; [|by apply IH].
  change (set_all W (bset n d f) n = d). rewrite set_all_other by done. apply bset_eq.
Qed.

Lemma set_all_ext W n : forall f g, (n ∉ W.*1 -> f n = g n) -> set_all W f n = set_all W g n.
Proof.
  induction W as [|w W IH]; intros f g Hfg; [apply Hfg; apply not_elem_of_nil|]. apply (IH (bset w.1 w.2 f) (bset w.1 w.2 g)).
  intros Hn. unfold bset. destruct (Z.eqb_spec n w.1) as [|Hne]; [done|]. apply Hfg. by apply not_elem_of_cons.
Qed.

(** What is on the disk after the writes. *)
Definition sized m : Prop := md_size m = Z.of_nat (length (md_blocks m)).

Lemma apply_writes_sized W m : sized m -> sized (apply_writes W m).
Proof. unfold sized. by rewrite apply_writes_size, apply_writes_len. Qed.

Lemma apply_writes_block W n : forall m, sized m -> Forall (fun w => 0 <= w.1 < md_size m) W -> 0 <= n ->
  block_in (apply_writes W m) n = set_all W (block_in m) n.
Proof.
  induction W as [|w W IH]; intros m Hm HW Hn; [done|]. apply Forall_cons in HW as [Hw HW].
  change (block_in (apply_writes W (write_block w.1 w.2 m)) n = set_all W (bset w.1 w.2 (block_in m)) n).
  rewrite IH; [|by apply (apply_writes_sized [w])|done|done].
  apply set_all_ext. intros _. by rewrite write_block_in.
Qed.

Lemma fst_take W i n : n ∉ W.*1 -> n ∉ (take i W).*1.
Proof. intros Hn. rewrite <- (take_drop i W), fmap_app in Hn. set_solver. Qed.

End Writes.

(** ** The header block *)

(** A header block that records the blocks [L]. *)
Definition head_is (L : list Z) (d : list Z) : Prop :=
  get32 lh_n_off d = Z.of_nat (length L) /\
  forall i b, L !! i = Some b -> get32 (lh_block_off (Z.of_nat i)) d = b.

(** What [write_head] makes of the header block. *)
Fixpoint put_entries (i : Z) (L : list Z) (d : list Z) : list Z :=
  match L with
  | [] => d
  | b :: L => put_entries (i + 1) L (put32 (lh_block_off i) b d)
  end.
Definition head_put (L : list Z) (d : list Z) : list Z :=
  put_entries 0 L (put32 lh_n_off (Z.of_nat (length L)) d).

Lemma put_entries_app L1 L2 : forall i d,
  put_entries i (L1 ++ L2) d = put_entries (i + Z.of_nat (length L1)) L2 (put_entries i L1 d).
Proof.
  induction L1 as [|b L1 IH]; intros i d; simpl; [by rewrite Z.add_0_r|]. rewrite IH. f_equal. lia.
Qed.

Lemma put_entries_len L : forall i d, 0 <= i -> i + Z.of_nat (length L) <= 127 -> length d = 512%nat ->
  length (put_entries i L d) = 512%nat.
Proof.
  induction L as [|b L IH]; intros i d Hi Hl Hd; simpl in *; [done|]. apply IH; [lia|lia|].
  rewrite length_putn; unfold lh_block_off; lia.
Qed.

(** The entries below and above [i] stay. *)
Lemma put_entries_keep L : forall i o d, 0 <= i -> i + Z.of_nat (length L) <= 127 -> length d = 512%nat ->
  (o + 4 <= lh_block_off i)%nat -> get32 o (put_entries i L d) = get32 o d.
Proof.
  induction L as [|b L IH]; intros i o d Hi Hl Hd Ho; [done|]. simpl in Hl.
  cbn [put_entries]. unfold lh_block_off in *. rewrite IH; [|lia|lia|rewrite length_putn; lia|lia].
  apply getn_putn_other; lia.
Qed.

Lemma put_entries_get L : forall i d k b, 0 <= i -> i + Z.of_nat (length L) <= 127 -> length d = 512%nat ->
  L !! k = Some b -> 0 <= b < 2 ^ 32 -> get32 (lh_block_off (i + Z.of_nat k)) (put_entries i L d) = b.
Proof.
  induction L as [|c L IH]; intros i d k b Hi Hl Hd Hk Hb; [done|]. simpl in Hl.
  assert (length (put32 (lh_block_off i) c d) = 512%nat) by (rewrite length_putn; unfold lh_block_off; lia).
  destruct k as [|k]; cbn [put_entries].
  - injection Hk as ->. rewrite Z.add_0_r, put_entries_keep; [|lia|lia|done|unfold lh_block_off; lia].
    rewrite getn_putn_same by (unfold lh_block_off; lia). by apply Z.mod_small.
  - replace (i + Z.of_nat (S k)) with (i + 1 + Z.of_nat k) by lia. apply IH; [lia|lia|done|done|done].
Qed.

Lemma length_head_put L d : length d = 512%nat -> (length L <= LOGSIZE)%nat -> length (head_put L d) = 512%nat.
Proof.
  intros Hd Hl. unfold LOGSIZE in Hl. apply put_entries_len; [done|lia|]. rewrite length_putn; unfold lh_n_off; lia.
Qed.

Lemma head_put_is L d : length d = 512%nat -> (length L <= LOGSIZE)%nat -> Forall (fun b => 0 <= b < 2 ^ 31) L ->
  head_is L (head_put L d).
Proof.
  intros Hd Hl HL. unfold LOGSIZE in Hl. unfold head_put.
  assert (length (put32 lh_n_off (Z.of_nat (length L)) d) = 512%nat) by (rewrite length_putn; unfold lh_n_off; lia).
  split.
  - rewrite put_entries_keep; [|lia|lia|done|unfold lh_n_off, lh_block_off; lia].
    rewrite getn_putn_same by (unfold lh_n_off; lia). apply Z.mod_small. lia.
  - intros i b Hb. apply (put_entries_get L 0); [lia|lia|done|done|].
    rewrite Forall_lookup in HL. specialize (HL i b Hb). lia.
Qed.

(** ** The operations *)

Section Facts.
Context {S : Type} `{PL : ProcsLaws sys S} (fuel : nat) (pid : Z).
Context (start N : Z).                 (* the log: its header and N - 1 blocks *)
Implicit Types (D L : list Z) (f : Z -> list Z) (m : memdisk) (y : sys) (l : logst) (W : writes).
Abbreviation does := (does (X := sys) (S := S) pid).
Abbreviation Bc := (Bc pid).

Definition in_log (n : Z) : Prop := start <= n < start + N.

(** The log lies on the disk. *)
Definition geo m : Prop := 2 <= start /\ start + N <= md_size m /\ md_size m < 2 ^ 31 /\ sized m.

(** Blocks a transaction may log: not the boot block, the super block, the log. *)
Definition home m (n : Z) : Prop := 2 <= n < md_size m /\ ~ in_log n.
Definition logged m L : Prop :=
  NoDup L /\ Forall (home m) L /\ (length L <= LOGSIZE)%nat /\ Z.of_nat (length L) < N.

(** The variable [log] with the blocks [L] in its header. *)
Record Lh l L : Prop := {
  lh_dev : lg_dev l = 1;
  lh_start : lg_start l = start;
  lh_size : lg_size l = N;
  lh_count : lh_n l = Z.of_nat (length L);
  lh_len : length (lh_block l) = LOGSIZE;
  lh_take : take (length L) (lh_block l) = L
}.

Lemma Lh_entry l L i b y : Lh l L -> L !! i = Some b -> cget (lh_entry (Z.of_nat i)) (set_log l y) = Some b.
Proof.
  intros H1 Hb. simpl. rewrite Nat2Z.id. rewrite <- (lh_take _ _ H1) in Hb.
  rewrite lookup_take_Some in Hb. by destruct Hb.
Qed.

Lemma for_log_does (I : nat -> sys -> Prop) (body : Z -> M S unit) (c : nat) :
  (forall i x, I i x -> cget (c_log @ c_lh_n) x = Some (Z.of_nat c)) -> (c <= LOGSIZE)%nat ->
  (forall i, (i < c)%nat -> does 0 (I i) (body (Z.of_nat i)) 0 (fun _ x => I (Datatypes.S i) x)) ->
  does 0 (I 0%nat) (for_log log_rounds 0 body) 0 (fun _ x => I c x).
Proof.
  intros Hc Hle Hb.
  assert (forall n i, (i <= c)%nat -> (c - i < n)%nat ->
    does 0 (I i) (for_log n (Z.of_nat i) body) 0 (fun _ x => I c x)) as Hgen.
  { induction n as [|n IH]; intros i Hi Hn; [lia|]. cbn [for_log].
    eapply does_bind_eq; [apply does_load; by apply Hc|].
    destruct (Z.ltb_spec (Z.of_nat i) (Z.of_nat c)).
    - eapply does_bind_tt; [apply Hb; lia|]. replace (Z.of_nat i + 1) with (Z.of_nat (Datatypes.S i)) by lia.
      apply IH; lia.
    - assert (i = c) as -> by lia. by apply does_ret. }
  apply (Hgen log_rounds 0%nat); [lia|unfold log_rounds; lia].
Qed.

Lemma log_field {Y : Type} k (g : cell logst Y) hb D f m l y v : cget g l = Some v ->
  does k (Bc hb D f m (set_log l y)) (load (c_log @ g)) k (fun a x => a = v /\ Bc hb D f m (set_log l y) x).
Proof. intros Hg. by apply rest_load. Qed.

Lemma log_block_does hb D f m l L y i : Lh l L -> 0 <= start + i + 1 < 2 ^ 31 ->
  does 0 (Bc hb D f m (set_log l y)) (log_block i) 0 (fun a x => a = start + i + 1 /\ Bc hb D f m (set_log l y) x).
Proof.
  intros Hl Hi. eapply does_bind_eq; [by apply log_field|]. rewrite (lh_start _ _ Hl).
  apply does_ret. intros x Hx. by rewrite u32_id by lia.
Qed.

Lemma log_entry k hb D f m l L y i b : Lh l L -> L !! i = Some b ->
  does k (Bc hb D f m (set_log l y)) (load (lh_entry (Z.of_nat i))) k (fun a x => a = b /\ Bc hb D f m (set_log l y) x).
Proof. intros Hl Hb. apply rest_load; [apply _|by eapply Lh_entry]. Qed.

Lemma logged_home m L i b : logged m L -> L !! i = Some b -> home m b.
Proof. intros (_ & Hf & _) Hb. rewrite Forall_lookup in Hf. by eapply Hf. Qed.

(** *** write_log *)

Definition log_writes f L : writes := imap (fun i b => (start + Z.of_nat i + 1, f b)) L.

Lemma log_writes_lookup f L i b : L !! i = Some b -> log_writes f L !! i = Some (start + Z.of_nat i + 1, f b).
Proof. intros Hb. unfold log_writes. by rewrite list_lookup_imap, Hb. Qed.

Lemma log_writes_elem f L n d : (n, d) ∈ log_writes f L ->
  exists i b, L !! i = Some b /\ n = start + Z.of_nat i + 1 /\ d = f b.
Proof.
  intros (i & Hi)%list_elem_of_lookup. unfold log_writes in Hi. rewrite list_lookup_imap in Hi.
  destruct (L !! i) as [b|] eqn:Hb; [|done]. injection Hi as <- <-. eauto.
Qed.

Lemma log_writes_in f L n : Z.of_nat (length L) < N -> n ∈ (log_writes f L).*1 -> in_log n.
Proof.
  intros HN ([k d] & -> & Hin)%list_elem_of_fmap. apply log_writes_elem in Hin as (i & b & Hb & -> & _).
  apply lookup_lt_Some in Hb. unfold in_log. simpl. lia.
Qed.

Lemma log_writes_nodup f L : NoDup (log_writes f L).*1.
Proof.
  apply NoDup_alt. intros i j n Hi Hj. rewrite list_lookup_fmap in Hi, Hj. unfold log_writes in *.
  rewrite list_lookup_imap in Hi, Hj. destruct (L !! i), (L !! j); simpl in *; simplify_eq. lia.
Qed.

Lemma write_log_does D f m l L y : geo m -> logged m L -> Lh l L -> L ⊆ D -> (forall n, n ∈ D -> ~ in_log n) ->
  (length D < NBUF)%nat ->
  does 0 (Bc [] D f m (set_log l y)) (write_log fuel) 0
    (fun _ x => Bc [] D (set_all (log_writes f L) f) (apply_writes (log_writes f L) m) (set_log l y) x).
Proof.
  intros (G1 & G2 & G3 & Hsz) HL Hl HLD HD Hlen. destruct (HL) as (_ & _ & L3 & L4).
  set (W := log_writes f L).
  assert (length W = length L) as HW by (unfold W, log_writes; apply length_imap).
  rewrite <- (take_ge W (length L)) by lia. unfold write_log.
  apply (for_log_does (fun i x => Bc [] D (set_all (take i W) f) (apply_writes (take i W) m) (set_log l y) x));
    [|done|].
  { intros i x Hx. rewrite (Bc_get pid _ _ _ _ _ _ _ Hx). simpl. by rewrite (lh_count _ _ Hl). }
  intros i Hi. destruct (lookup_lt_is_Some_2 L i Hi) as [b Hb].
  destruct (logged_home _ _ _ _ HL Hb) as [Hbr Hbl].
  assert (b ∈ D) as HbD by (apply HLD; by eapply list_elem_of_lookup_2).
  set (n := start + Z.of_nat i + 1).
  assert (in_log n) as Hn by (unfold n, in_log; lia).
  set (g := set_all (take i W) f). set (mi := apply_writes (take i W) m).
  assert (md_size mi = md_size m) as Hmi by apply apply_writes_size.
  assert (sized mi) as Hsi by (by apply apply_writes_sized).
  assert (g b = f b) as Hgb.
  { apply set_all_other, fst_take. intros Hc. apply Hbl. by eapply log_writes_in. }
  rewrite (set_all_S W i (n, f b)), (apply_writes_S W i (n, f b)) by (by apply log_writes_lookup). cbn [fst snd].
  fold g mi.
  eapply does_bind_eq; [by apply log_field|]. rewrite (lh_dev _ _ Hl). change (u32 1) with 1.
  eapply does_bind_eq; [eapply log_block_does; [done|lia]|].
  eapply does_bind; [apply bread_does; [lia|apply not_elem_of_nil|right; simpl; lia]|]. intros to.
  eapply does_bind_eq; [by apply log_field|]. rewrite (lh_dev _ _ Hl). change (u32 1) with 1.
  eapply does_bind_eq; [by eapply log_entry|]. rewrite u32_id by lia.
  eapply does_bind; [apply (bread_does fuel pid _ D g mi); [lia| |by left]|].
  { simpl. rewrite list_elem_of_singleton. intros ->. done. }
  intros from. eapply does_bind_eq; [apply (data_load pid 0 _ D g mi _ from b); by left|]. rewrite Hgb.
  eapply does_bind_tt; [apply (data_store pid _ D g mi _ to n); right; by left|].
  eapply does_bind_tt; [apply (bwrite_does pid _ D D _ mi _ to n); [right; by left|]|].
  { intros k. split; [|tauto]. intros Hk. split; [|done]. intros ->. by apply (HD n). }
  rewrite bset_eq.
  eapply does_bind_tt; [apply brelse_does; by left|].
  apply brelse_does. right. rewrite bset_eq, write_block_in, Z.eqb_refl; [done|lia|done|lia].
Qed.

(** *** write_head *)

Lemma write_head_does D f m l L y : geo m -> logged m L -> Lh l L -> (forall n, n ∈ D -> ~ in_log n) ->
  (length D < NBUF)%nat ->
  does 0 (Bc [] D f m (set_log l y)) (write_head fuel) 0
    (fun _ x => Bc [] D (bset start (head_put L (f start)) f) (write_block start (head_put L (f start)) m)
                  (set_log l y) x).
Proof.
  intros (G1 & G2 & G3 & Hsz) HL Hl HD Hlen. destruct (HL) as (_ & _ & L3 & L4).
  assert (in_log start) as Hst by (unfold in_log; lia). unfold write_head.
  eapply does_bind_eq; [by apply log_field|]. rewrite (lh_dev _ _ Hl). change (u32 1) with 1.
  eapply does_bind_eq; [by apply log_field|]. rewrite (lh_start _ _ Hl), u32_id by lia.
  eapply does_bind; [apply bread_does; [lia|apply not_elem_of_nil|right; simpl; lia]|]. intros b.
  eapply does_bind_eq; [by apply log_field|]. rewrite (lh_count _ _ Hl).
  eapply does_bind_tt; [apply (data_update pid _ D f m _ b start); by left|].
  set (d0 := put32 lh_n_off (Z.of_nat (length L)) (f start)).
  set (g i := bset start (put_entries 0 (take i L) d0) f).
  eapply does_bind_tt.
  { apply (for_log_does (fun i x => Bc [(b, start)] D (g i) m (set_log l y) x)); [|exact L3|].
    - intros i x Hx. rewrite (Bc_get pid _ _ _ _ _ _ _ Hx). simpl. by rewrite (lh_count _ _ Hl).
    - intros i Hi. destruct (lookup_lt_is_Some_2 L i Hi) as [c Hc].
      eapply does_bind_eq; [by eapply log_entry|].
      eapply does_post; [apply (data_update pid _ D (g i) m _ b start); by left|].
      intros [] x Hx. eapply Bc_ext; [|exact Hx]. intros k Hk. unfold g. rewrite (take_S_r _ _ c) by done.
      rewrite put_entries_app, bset_eq, length_take, Nat.min_l by lia. unfold bset. by destruct (k =? start). }
  unfold g. rewrite firstn_all.
  change (put_entries 0 L d0) with (head_put L (f start)).
  eapply does_bind_tt; [apply (bwrite_does pid _ D D _ m _ b start); [by left|]|].
  { intros k. split; [|tauto]. intros Hk. split; [|done]. intros ->. by apply (HD start). }
  rewrite bset_eq. apply brelse_does. right. rewrite bset_eq, write_block_in, Z.eqb_refl; [done|lia|done|lia].
Qed.

(** *** install_trans *)

Lemma length_list_difference (k1 k2 : list Z) : (length (list_difference k1 k2) <= length k1)%nat.
Proof. induction k1 as [|a k1 IH]; simpl; [lia|]. case_match; simpl; lia. Qed.

Definition install_writes f L : writes := imap (fun i b => (b, f (start + Z.of_nat i + 1))) L.

Lemma install_writes_fst f L : (install_writes f L).*1 = L.
Proof.
  apply list_eq. intros i. rewrite list_lookup_fmap. unfold install_writes. rewrite list_lookup_imap. by destruct (L !! i).
Qed.

Lemma install_writes_elem f L i b : L !! i = Some b -> (b, f (start + Z.of_nat i + 1)) ∈ install_writes f L.
Proof.
  intros Hb. apply (list_elem_of_lookup_2 _ i). unfold install_writes. by rewrite list_lookup_imap, Hb.
Qed.

Lemma list_difference_nil (k : list Z) : list_difference k [] = k.
Proof.
  induction k as [|a k IH]; simpl; [done|]. by rewrite IH.
Qed.

Lemma install_trans_does D f m l L y : geo m -> logged m L -> Lh l L ->
  (forall n, n ∈ D -> ~ in_log n) -> (length D < NBUF)%nat -> L ⊆ D \/ (length D + 1 < NBUF)%nat ->
  (forall n, in_log n -> f n = block_in m n) ->
  does 0 (Bc [] D f m (set_log l y)) (install_trans fuel) 0
    (fun _ x => Bc [] (list_difference D L) (set_all (install_writes f L) f) (apply_writes (install_writes f L) m)
                  (set_log l y) x).
Proof.
  intros (G1 & G2 & G3 & Hsz) HL Hl HD Hlen Hroom Hclean. destruct (HL) as (Hnd & _ & L3 & L4).
  set (W := install_writes f L).
  assert (W.*1 = L) as HW1 by apply install_writes_fst.
  assert (length W = length L) as HW by (by rewrite <- HW1, length_fmap).
  rewrite <- (take_ge W (length L)) by lia. assert (list_difference D L = list_difference D (take (length L) L)) as -> by (by rewrite firstn_all).
  unfold install_trans. eapply (does_pre pid 0 0 _ (fun x => Bc [] (list_difference D []) f m (set_log l y) x));
    [|by rewrite list_difference_nil].
  apply (for_log_does (fun i x => Bc [] (list_difference D (take i L)) (set_all (take i W) f)
    (apply_writes (take i W) m) (set_log l y) x)); [|exact L3|].
  { intros i x Hx. rewrite (Bc_get pid _ _ _ _ _ _ _ Hx). simpl. by rewrite (lh_count _ _ Hl). }
  intros i Hi. destruct (lookup_lt_is_Some_2 L i Hi) as [b Hb].
  destruct (logged_home _ _ _ _ HL Hb) as [Hbr Hbl].
  set (n := start + Z.of_nat i + 1).
  assert (in_log n) as Hn by (unfold n, in_log; lia).
  set (Di := list_difference D (take i L)).
  set (g := set_all (take i W) f). set (mi := apply_writes (take i W) m).
  assert (md_size mi = md_size m) as Hmi by apply apply_writes_size.
  assert (sized mi) as Hsi by (by apply apply_writes_sized).
  assert (length Di <= length D)%nat as HDi by apply length_list_difference.
  assert (n ∉ L) as HnL.
  { intros (j & Hj)%list_elem_of_lookup. by destruct (logged_home _ _ _ _ HL Hj). }
  assert (n ∉ (take i W).*1) as HnW by (apply fst_take; by rewrite HW1).
  assert (g n = f n) as Hgn by (by apply set_all_other).
  assert (f n = block_in mi n) as Hmn.
  { unfold mi. rewrite apply_writes_block; [|done| |lia].
    - rewrite set_all_other by done. by apply Hclean.
    - apply Forall_take, Forall_forall. intros w Hw. assert (w.1 ∈ L) as Hw1 by (rewrite <- HW1; by apply list_elem_of_fmap_2).
      destruct HL as (_ & HF & _). rewrite Forall_forall in HF. destruct (HF w.1 Hw1). lia. }
  rewrite (set_all_S W i (b, f n)), (apply_writes_S W i (b, f n))
    by (unfold W, install_writes; by rewrite list_lookup_imap, Hb). cbn [fst snd]. fold g mi.
  eapply does_bind_eq; [by apply log_field|]. rewrite (lh_dev _ _ Hl). change (u32 1) with 1.
  eapply does_bind_eq; [eapply log_block_does; [done|lia]|].
  eapply does_bind; [apply bread_does; [lia|apply not_elem_of_nil|right; simpl; lia]|]. intros lb.
  eapply does_bind_eq; [by apply log_field|]. rewrite (lh_dev _ _ Hl). change (u32 1) with 1.
  eapply does_bind_eq; [by eapply log_entry|]. rewrite u32_id by lia.
  eapply does_bind; [apply (bread_does fuel pid _ Di g mi); [lia| |]|].
  { simpl. rewrite list_elem_of_singleton. intros ->. done. }
  { destruct Hroom as [Hsub|Hr]; [left|right; simpl; lia]. apply list_elem_of_difference.
    split; [apply Hsub; by eapply list_elem_of_lookup_2|]. intros (j & Hj & Hji)%elem_of_take.
    assert (j = i) by (by eapply NoDup_lookup). lia. }
  intros db. eapply does_bind_eq; [apply (data_load pid 0 _ Di g mi _ lb n); right; by left|]. rewrite Hgn.
  eapply does_bind_tt; [apply (data_store pid _ Di g mi _ db b); by left|].
  eapply does_bind_tt; [apply (bwrite_does pid _ Di (list_difference D (take (Datatypes.S i) L)) _ mi _ db b); [by left|]|].
  { intros k. unfold Di. rewrite !list_elem_of_difference, (take_S_r _ _ b) by done. set_solver. }
  rewrite bset_eq.
  eapply does_bind_tt; [eapply does_pre; [apply (brelse_does pid [(db, b)])|intros x; by apply Bc_perm, Permutation_swap]|].
  { assert (n <> b) as Hnb by (intros E; apply Hbl; by rewrite <- E).
    right. fold n. rewrite bset_ne, Hgn, write_block_in by (lia || done). by destruct (Z.eqb_spec n b). }
  apply brelse_does. right. rewrite bset_eq, write_block_in, Z.eqb_refl; [done|lia|done|lia].
Qed.

(** *** read_head *)

(** The variable [log] once [initlog] has set it up. *)
Definition log_ready l : Prop :=
  lg_dev l = 1 /\ lg_start l = start /\ lg_size l = N /\ length (lh_block l) = LOGSIZE.

Definition with_head L l : logst :=
  set_lh_block (L ++ drop (length L) (lh_block l)) (set_lh_n (Z.of_nat (length L)) l).

Lemma with_head_Lh L l : log_ready l -> (length L <= LOGSIZE)%nat -> Lh (with_head L l) L.
Proof.
  intros (H1 & H2 & H3 & H4) HL. constructor; simpl; try done.
  - rewrite length_app, length_drop. lia.
  - apply take_app_length.
Qed.

Lemma insert_entry (L k : list Z) i b : L !! i = Some b -> (length L <= length k)%nat ->
  <[i := b]> (take i L ++ drop i k) = take (Datatypes.S i) L ++ drop (Datatypes.S i) k.
Proof.
  intros Hb Hl. pose proof (lookup_lt_Some _ _ _ Hb) as Hi. rewrite (take_S_r _ _ b) by done.
  rewrite insert_app_r_alt; rewrite length_take, Nat.min_l by lia; [|lia]. rewrite Nat.sub_diag, <- app_assoc. f_equal.
  destruct (lookup_lt_is_Some_2 k i) as [c Hc]; [lia|]. by rewrite (drop_S _ c).
Qed.

Lemma read_head_does D f m l L y : geo m -> logged m L -> log_ready l -> head_is L (f start) ->
  f start = block_in m start -> (length D < NBUF)%nat ->
  does 0 (Bc [] D f m (set_log l y)) (read_head fuel) 0 (fun _ x => Bc [] D f m (set_log (with_head L l) y) x).
Proof.
  intros (G1 & G2 & G3 & Hsz) HL (R1 & R2 & R3 & R4) [Hh1 Hh2] Hcl Hlen. destruct (HL) as (_ & _ & L3 & L4).
  unfold read_head.
  eapply does_bind_eq; [by apply log_field|]. rewrite R1. change (u32 1) with 1.
  eapply does_bind_eq; [by apply log_field|]. rewrite R2, u32_id by lia.
  eapply does_bind; [apply bread_does; [lia|apply not_elem_of_nil|right; simpl; lia]|]. intros b.
  eapply does_bind_eq; [apply (data_load pid 0 _ D f m _ b start); by left|]. rewrite Hh1.
  rewrite i32_id by (unfold LOGSIZE in L3; lia).
  eapply does_bind_tt; [by eapply (rest_store pid 0 (c_log @ c_lh_n))|].
  set (ln := set_lh_n (Z.of_nat (length L)) l).
  set (li i := set_lh_block (take i L ++ drop i (lh_block l)) ln).
  eapply does_bind_tt.
  { eapply does_pre; [apply (for_log_does (fun i x => Bc [(b, start)] D f m (set_log (li i) y) x) _ (length L)); [|exact L3|]|].
    - intros i x Hx. by rewrite (Bc_get pid _ _ _ _ _ _ _ Hx).
    - intros i Hi. destruct (lookup_lt_is_Some_2 L i Hi) as [c Hc]. destruct (logged_home _ _ _ _ HL Hc) as [Hbr _].
      eapply does_bind_eq; [apply (data_load pid 0 _ D f m _ b start); by left|].
      rewrite (Hh2 i c Hc), i32_id by lia.
      destruct (lookup_lt_is_Some_2 (lh_block (li i)) i) as [c0 Hc0].
      { simpl. rewrite length_app, length_take, length_drop. lia. }
      eapply does_post; [eapply (rest_store pid 0 (lh_entry (Z.of_nat i)) _ _ _ _ _ _ c0); simpl; by rewrite Nat2Z.id|].
      intros [] x. simpl. rewrite Nat2Z.id, insert_entry by (done || lia). done.
    - intros x. unfold li. rewrite drop_0. by destruct l. }
  unfold li. rewrite firstn_all. apply brelse_does. by right.
Qed.

(** *** recover_from_log *)

(** What the recovery writes: the blocks of the log to their homes, and an empty header. *)
Definition recover_writes f L : writes := install_writes f L ++ [(start, head_put [] (f start))].

Lemma Lh_clear l L : Lh l L -> Lh (set_lh_n 0 l) [].
Proof. intros [H1 H2 H3 H4 H5 H6]. by constructor. Qed.

Lemma logged_nil m : 0 < N -> logged m [].
Proof. intros HN. split; [apply NoDup_nil_2|]. split; [done|]. simpl. split; lia. Qed.

Lemma install_writes_home f m L : logged m L -> Forall (fun w => 0 <= w.1 < md_size m) (install_writes f L).
Proof.
  intros (_ & HF & _). apply Forall_forall. intros w Hw. rewrite Forall_forall in HF.
  destruct (HF w.1) as [Hr _]; [|lia]. rewrite <- (install_writes_fst f L). by apply list_elem_of_fmap_2.
Qed.

Lemma geo_apply W m : geo m -> geo (apply_writes W m).
Proof.
  intros (G1 & G2 & G3 & G4). unfold geo. rewrite apply_writes_size. repeat split; try done. by apply apply_writes_sized.
Qed.

Lemma logged_apply W m L : logged m L -> logged (apply_writes W m) L.
Proof. unfold logged, home. by rewrite apply_writes_size. Qed.

(** The blocks that are installed are not in the log. *)
Lemma install_writes_log f g m L n : logged m L -> in_log n -> set_all (install_writes f L) g n = g n.
Proof.
  intros (_ & HF & _) Hn. apply set_all_other. rewrite install_writes_fst. intros Hin.
  rewrite Forall_forall in HF. by apply (HF n Hin).
Qed.

(** Installing and clearing, as both [commit] and [recover_from_log] end. *)
Lemma install_clear_does D f m l L y : geo m -> logged m L -> Lh l L ->
  (forall n, n ∈ D -> ~ in_log n) -> (length D < NBUF)%nat -> L ⊆ D \/ (length D + 1 < NBUF)%nat ->
  (forall n, in_log n -> f n = block_in m n) ->
  does 0 (Bc [] D f m (set_log l y)) (install_trans fuel ;;; store (c_log @ c_lh_n) 0 ;;; write_head fuel) 0
    (fun _ x => Bc [] (list_difference D L) (set_all (recover_writes f L) f) (apply_writes (recover_writes f L) m)
                  (set_log (set_lh_n 0 l) y) x).
Proof.
  intros Hg HL Hl HD Hlen Hroom Hcl. destruct (HL) as (_ & _ & _ & L4).
  eapply does_bind_tt; [by eapply install_trans_does|].
  eapply does_bind_tt; [by eapply (rest_store pid 0 (c_log @ c_lh_n))|].
  unfold recover_writes. rewrite set_all_app, apply_writes_app. simpl.
  assert (set_all (install_writes f L) f start = f start) as Hst.
  { eapply install_writes_log; [done|]. unfold in_log. lia. }
  eapply does_post; [apply (write_head_does _ _ _ (set_lh_n 0 l) [])|].
  - by apply geo_apply.
  - apply logged_nil. lia.
  - by eapply Lh_clear.
  - intros n Hn. apply list_elem_of_difference in Hn as [Hn _]. by apply HD.
  - pose proof (length_list_difference D L). lia.
  - intros [] x. by rewrite Hst.
Qed.

Lemma recover_does f m l L y : geo m -> logged m L -> log_ready l -> head_is L (f start) ->
  (forall n, in_log n -> f n = block_in m n) ->
  does 0 (Bc [] [] f m (set_log l y)) (recover_from_log fuel) 0
    (fun _ x => Bc [] [] (set_all (recover_writes f L) f) (apply_writes (recover_writes f L) m)
                  (set_log (set_lh_n 0 (with_head L l)) y) x).
Proof.
  intros Hg HL Hr Hh Hcl. destruct (HL) as (_ & _ & L3 & L4). destruct (Hg) as (G1 & _).
  eapply does_bind_tt; [eapply read_head_does; try done; [apply Hcl; unfold in_log; lia|simpl; unfold NBUF; lia]|].
  eapply does_post; [apply (install_clear_does [] f m (with_head L l) L y)|]; try done.
  - by apply with_head_Lh.
  - intros n. by rewrite elem_of_nil.
  - simpl. unfold NBUF. lia.
  - right. simpl. unfold NBUF. lia.
Qed.

(** *** commit *)

(** The writes of a commit: the log, the header, the home locations, the header again. *)
Definition commit_writes f L : writes :=
  let h := head_put L (f start) in
  log_writes f L ++ (start, h) :: ((fun b => (b, f b)) <$> L) ++ [(start, head_put [] h)].

(** The cache after the log and the header are written. *)
Definition logged_view f L : Z -> list Z := bset start (head_put L (f start)) (set_all (log_writes f L) f).

Lemma logged_view_block f L i b : 2 <= start -> L !! i = Some b -> logged_view f L (start + Z.of_nat i + 1) = f b.
Proof.
  intros Hs Hb. unfold logged_view. rewrite bset_ne by lia. apply set_all_in; [apply log_writes_nodup|].
  apply (list_elem_of_lookup_2 _ i). by apply log_writes_lookup.
Qed.

Lemma logged_view_writes f L : 2 <= start ->
  recover_writes (logged_view f L) L =
  ((fun b => (b, f b)) <$> L) ++ [(start, head_put [] (head_put L (f start)))].
Proof.
  intros Hs. unfold recover_writes. f_equal.
  - apply list_eq. intros i. unfold install_writes. rewrite list_lookup_imap, list_lookup_fmap.
    destruct (L !! i) as [b|] eqn:Hb; [|done]. simpl. by rewrite (logged_view_block f L i b).
  - unfold logged_view. by rewrite bset_eq.
Qed.

Lemma commit_does D f m l L y : geo m -> logged m L -> L <> [] -> Lh l L -> L ⊆ D ->
  (forall n, n ∈ D -> ~ in_log n) -> (length D < NBUF)%nat -> (forall n, in_log n -> f n = block_in m n) ->
  does 0 (Bc [] D f m (set_log l y)) (commit fuel) 0
    (fun _ x => Bc [] (list_difference D L) (set_all (commit_writes f L) f) (apply_writes (commit_writes f L) m)
                  (set_log (set_lh_n 0 l) y) x).
Proof.
  intros Hg HL Hne Hl HLD HD Hlen Hcl. destruct (HL) as (_ & _ & L3 & L4). destruct (Hg) as (G1 & G2 & G3 & G4).
  unfold commit. eapply does_bind_eq; [by apply log_field|]. rewrite (lh_count _ _ Hl).
  assert ((0 <? Z.of_nat (length L)) = true) as -> by (apply Z.ltb_lt; destruct L; [done|simpl; lia]).
  cbn [when]. eapply does_bind_tt; [by apply write_log_does|].
  assert (set_all (log_writes f L) f start = f start) as Hst.
  { apply set_all_other. intros ([k d] & Hk & Hin)%list_elem_of_fmap.
    apply log_writes_elem in Hin as (i & b & _ & Hk' & _). simpl in *. lia. }
  eapply does_bind_tt; [apply (write_head_does _ _ _ l L); try done; [by apply geo_apply|by apply logged_apply]|].
  rewrite Hst. fold (logged_view f L).
  set (m2 := write_block start (head_put L (f start)) (apply_writes (log_writes f L) m)).
  assert (m2 = apply_writes (log_writes f L ++ [(start, head_put L (f start))]) m) as Hm2 by (by rewrite apply_writes_app).
  eapply does_post; [apply (install_clear_does D (logged_view f L) m2 l L y); try done|].
  - rewrite Hm2. by apply geo_apply.
  - rewrite Hm2. by apply logged_apply.
  - by left.
  - intros n Hn. rewrite Hm2, apply_writes_block; [|done| |unfold in_log in Hn; lia].
    + rewrite set_all_app. simpl. unfold logged_view, bset. destruct (n =? start); [done|].
      apply set_all_ext. intros _. by apply Hcl.
    + apply Forall_app. split; [|constructor; [simpl; lia|done]]. apply Forall_forall. intros w Hw.
      assert (in_log w.1) as Hw1 by (eapply log_writes_in; [exact L4|by apply list_elem_of_fmap_2]). unfold in_log in Hw1. lia.
  - intros [] x Hx. rewrite logged_view_writes in Hx by done.
    assert (logged_view f L = set_all (log_writes f L ++ [(start, head_put L (f start))]) f) as E by (by rewrite set_all_app).
    rewrite Hm2, <- apply_writes_app, E, <- set_all_app, <- app_assoc in Hx. exact Hx.
Qed.

(** *** begin_op, log_write and end_op *)

(** No commit is going on, [out] system calls are, and they have logged [L]. *)
Record log_at (out : Z) L l : Prop := {
  la_lock : free_lock (lg_lock l);
  la_out : lg_outstanding l = out;
  la_idle : lg_committing l = 0;
  la_lh : Lh l L
}.

Lemma log_at_out out out' L l : log_at out L l -> log_at out' L (set_lg_outstanding out' l).
Proof. intros [H1 H2 H3 [K1 K2 K3 K4 K5 K6]]. by constructor. Qed.

Lemma begin_op_does hb D f m l L out y : log_at out L l -> 0 <= out ->
  Z.of_nat (length L) + (out + 1) * MAXOPBLOCKS <= Z.of_nat LOGSIZE ->
  does 0 (Bc hb D f m (set_log l y)) (begin_op fuel) 0
    (fun _ x => Bc hb D f m (set_log (set_lg_outstanding (out + 1) l) y) x).
Proof.
  intros [Hf Ho Hc Hl] H0 Hle. unfold begin_op. unfold MAXOPBLOCKS, LOGSIZE in *.
  eapply does_bind_tt; [eapply (rest_acquire pid 0 (c_log @ c_lg_lock)); [done|exact Hf|apply shallow_le; lia]|].
  cbn [loop_fuel]. eapply (does_bind_eq pid 1 0 0) with (a := Some tt).
  - eapply (does_bind_eq pid 1 0 0) with (a := true); [|by apply does_ret].
    unfold begin_op_try. eapply does_bind_eq; [by apply rest_load|]. simpl. rewrite Hc, Ho, (lh_count _ _ Hl).
    unfold MAXOPBLOCKS, LOGSIZE.
    destruct (Z.ltb_spec (Z.of_nat 30) (Z.of_nat (length L) + (out + 1) * 10)); [lia|].
    eapply does_bind_tt; [by apply (rest_update pid 1 (c_log @ c_lg_outstanding))|]. simpl. rewrite Ho, i32_id by lia.
    eapply does_bind_tt; [apply (rest_release pid 1 (c_log @ c_lg_lock) _ _ _ _ _ (lg_lock l)); [done|exact Hf|apply shallow_le; lia|lia]|].
    apply does_ret. intros x Hx. split; [done|exact Hx].
  - apply does_ret. intros x Hx. by destruct l.
Qed.

(** Where the block is in the header, or the next free entry. *)
Fixpoint pos (n : Z) (L : list Z) : nat :=
  match L with [] => 0%nat | b :: L => if b =? n then 0%nat else Datatypes.S (pos n L) end.

Lemma pos_le n L : (pos n L <= length L)%nat.
Proof. induction L as [|b L IH]; simpl; [lia|]. destruct (b =? n); lia. Qed.

Lemma pos_in n L : n ∈ L -> L !! pos n L = Some n.
Proof.
  induction L as [|b L IH]; intros Hn; [by apply elem_of_nil in Hn|]. simpl. destruct (Z.eqb_spec b n) as [->|Hne]; [done|].
  apply elem_of_cons in Hn as [->|Hn]; [done|]. by apply IH.
Qed.

Lemma pos_out n L : n ∉ L -> pos n L = length L.
Proof.
  induction L as [|b L IH]; intros Hn; [done|]. apply not_elem_of_cons in Hn as [Hb Hn]. simpl.
  destruct (Z.eqb_spec b n) as [->|]; [done|]. by rewrite IH.
Qed.

Lemma absorb_does hb D f m l L y n : Lh l L -> Forall (fun b => 0 <= b < 2 ^ 31) L -> forall k i,
  (i <= length L)%nat -> (length L - i < k)%nat ->
  does 1 (Bc hb D f m (set_log l y)) (absorb k (Z.of_nat i) n) 1
    (fun a x => a = Z.of_nat (i + pos n (drop i L)) /\ Bc hb D f m (set_log l y) x).
Proof.
  intros Hl HL. induction k as [|k IH]; intros i Hi Hk; [lia|]. cbn [absorb].
  eapply does_bind_eq; [by apply log_field|]. rewrite (lh_count _ _ Hl).
  destruct (Z.ltb_spec (Z.of_nat i) (Z.of_nat (length L))).
  - destruct (lookup_lt_is_Some_2 L i) as [b Hb]; [lia|]. rewrite Forall_lookup in HL. specialize (HL i b Hb).
    eapply does_bind_eq; [by eapply log_entry|]. rewrite u32_id by lia.
    rewrite (drop_S _ b) by done. simpl. destruct (b =? n).
    + apply does_ret. intros x Hx. by rewrite Nat.add_0_r.
    + replace (Z.of_nat i + 1) with (Z.of_nat (Datatypes.S i)) by lia.
      replace (i + Datatypes.S (pos n (drop (Datatypes.S i) L)))%nat with (Datatypes.S i + pos n (drop (Datatypes.S i) L))%nat by lia.
      apply IH; lia.
  - apply does_ret. intros x Hx. rewrite drop_ge by lia. simpl. by rewrite Nat.add_0_r.
Qed.

(** The log with block [n] recorded. *)
Definition log_add (n : Z) L : list Z := if decide (n ∈ L) then L else L ++ [n].
Definition logst_add (n : Z) L l : logst :=
  let l := set_lh_block (<[pos n L := n]> (lh_block l)) l in
  if decide (n ∈ L) then l else set_lh_n (Z.of_nat (length L) + 1) l.

Lemma log_add_at out n L l : log_at out L l -> (length L < LOGSIZE)%nat -> log_at out (log_add n L) (logst_add n L l).
Proof.
  intros [H1 H2 H3 [K1 K2 K3 K4 K5 K6]] Hlen. unfold logst_add, log_add. destruct (decide (n ∈ L)) as [Hin|Hin].
  - constructor; try done. constructor; try done; simpl; [by rewrite length_insert|].
    rewrite list_insert_id; [done|]. assert (take (length L) (lh_block l) !! pos n L = Some n) as Hp by (rewrite K6; by apply pos_in).
    rewrite lookup_take_Some in Hp. by destruct Hp.
  - constructor; try done. constructor; try done; simpl; rewrite ?length_insert, ?length_app; simpl; [lia|done|].
    rewrite (pos_out n L Hin). replace (length L + 1)%nat with (Datatypes.S (length L)) by lia.
    rewrite (take_S_r _ _ n) by (apply list_lookup_insert_eq; lia). f_equal. rewrite take_insert_ge by lia. done.
Qed.

Lemma log_write_does hb D D' f m l L out y b n : log_at out L l -> 1 <= out -> Forall (fun b => 0 <= b < 2 ^ 31) L ->
  (length L < LOGSIZE)%nat -> Z.of_nat (length L) < N - 1 -> (b, n) ∈ hb -> 0 <= n < 2 ^ 31 ->
  (forall k, k ∈ D' <-> k = n \/ k ∈ D) ->
  does 0 (Bc hb D f m (set_log l y)) (log_write b) 0
    (fun _ x => Bc hb D' f m (set_log (logst_add n L l) y) x).
Proof.
  intros [Hf Ho Hc Hl] H1 HL Hlen HN Hin Hn HD. unfold log_write.
  eapply does_bind_eq; [by apply (rest_load pid 0 c_log _ _ _ _ _ l)|]. rewrite (lh_count _ _ Hl), (lh_size _ _ Hl), Ho.
  destruct (Z.leb_spec (Z.of_nat LOGSIZE) (Z.of_nat (length L))); [lia|].
  destruct (Z.leb_spec (N - 1) (Z.of_nat (length L))); [lia|]. cbn [orb].
  destruct (Z.ltb_spec out 1); [lia|].
  eapply does_bind_tt; [eapply (rest_acquire pid 0 (c_log @ c_lg_lock)); [done|exact Hf|apply shallow_le; lia]|].
  change (cset (c_log @ c_lg_lock) (locked_by0 (lg_lock l)) (set_log l y)) with (set_log (set_lg_lock (locked_by0 (lg_lock l)) l) y).
  set (l1 := set_lg_lock (locked_by0 (lg_lock l)) l).
  assert (Lh l1 L) as Hl1 by (destruct Hl; by constructor).
  eapply does_bind_eq; [by apply (blockno_load pid 1 hb D f m _ b n)|].
  eapply does_bind_eq; [apply (absorb_does hb D f m l1 L y n Hl1 HL log_rounds 0); [lia|unfold log_rounds; lia]|].
  rewrite drop_0, Nat.add_0_l. rewrite i32_id by lia. pose proof (pos_le n L) as Hp.
  destruct (lookup_lt_is_Some_2 (lh_block l1) (pos n L)) as [c Hcx]; [rewrite (lh_len _ _ Hl1); lia|].
  eapply does_bind_tt; [eapply (rest_store pid 1 (lh_entry (Z.of_nat (pos n L))) _ _ _ _ _ _ c); simpl; by rewrite Nat2Z.id|].
  set (l2 := set_lh_block (<[pos n L := n]> (lh_block l1)) l1).
  replace (cset (lh_entry (Z.of_nat (pos n L))) n (set_log l1 y)) with (set_log l2 y) by (simpl; by rewrite Nat2Z.id).
  eapply does_bind_eq; [by apply log_field|]. change (lh_n l2) with (lh_n l1). rewrite (lh_count _ _ Hl1).
  set (l3 := if decide (n ∈ L) then l2 else set_lh_n (Z.of_nat (length L) + 1) l2).
  eapply (does_bind_tt pid 1 1 0) with (R := fun x => Bc hb D f m (set_log l3 y) x).
  { unfold l3. destruct (decide (n ∈ L)) as [Hi|Hi].
    - pose proof (lookup_lt_Some _ _ _ (pos_in n L Hi)). destruct (Z.eqb_spec (Z.of_nat (pos n L)) (Z.of_nat (length L))); [lia|].
      by apply does_ret.
    - rewrite (pos_out n L Hi), Z.eqb_refl, i32_id by (unfold LOGSIZE in *; lia). cbn [when].
      by eapply (rest_store pid 1 (c_log @ c_lh_n)). }
  eapply does_bind_tt; [by apply (flags_dirty pid 1 hb D D' f m _ b n)|].
  eapply does_post; [apply (rest_release pid 1 (c_log @ c_lg_lock) _ _ _ _ _ (lg_lock l))|].
  - unfold l3. by destruct (decide (n ∈ L)).
  - exact Hf.
  - apply shallow_le. lia.
  - lia.
  - intros [] x. unfold l3, logst_add. destruct l. by destruct (decide (n ∈ L)).
Qed.

(** What [end_op] of the last system call writes. *)
Definition end_writes f L : writes := match L with [] => [] | _ => commit_writes f L end.

Lemma commit_any_does D f m l L y : geo m -> logged m L -> Lh l L -> L ⊆ D ->
  (forall n, n ∈ D -> ~ in_log n) -> (length D < NBUF)%nat -> (forall n, in_log n -> f n = block_in m n) ->
  does 0 (Bc [] D f m (set_log l y)) (commit fuel) 0
    (fun _ x => Bc [] (list_difference D L) (set_all (end_writes f L) f) (apply_writes (end_writes f L) m)
                  (set_log (set_lh_n 0 l) y) x).
Proof.
  intros Hg HL Hl HLD HD Hlen Hcl. destruct L as [|b L]; [|by apply commit_does].
  unfold commit. eapply does_bind_eq; [by apply log_field|]. rewrite (lh_count _ _ Hl). cbn.
  apply does_ret. intros x Hx. rewrite list_difference_nil. simpl.
  replace (set_lh_n 0 l) with l; [done|]. destruct Hl as [_ _ _ H4 _ _]. simpl in H4. destruct l; simpl in *. by subst.
Qed.

(** [end_op] of the last system call. *)
Lemma end_op_does D f m l L y : geo m -> logged m L -> log_at 1 L l -> L ⊆ D ->
  (forall n, n ∈ D -> ~ in_log n) -> (length D < NBUF)%nat -> (forall n, in_log n -> f n = block_in m n) ->
  does 0 (Bc [] D f m (set_log l y)) (end_op fuel) 0
    (fun _ x => Bc [] (list_difference D L) (set_all (end_writes f L) f) (apply_writes (end_writes f L) m)
                  (set_log (set_lh_n 0 (set_lg_outstanding 0 l)) y) x).
Proof.
  intros Hg HL [Hf Ho Hc Hl] HLD HD Hlen Hcl. unfold end_op.
  eapply does_bind_tt; [eapply (rest_acquire pid 0 (c_log @ c_lg_lock)); [done|exact Hf|apply shallow_le; lia]|].
  eapply does_bind_tt; [by apply (rest_update pid 1 (c_log @ c_lg_outstanding) _ _ _ _ _ _ (lg_outstanding l))|]. rewrite Ho. change (i32 (1 - 1)) with 0.
  set (l1 := set_lg_outstanding 0 (set_lg_lock (locked_by0 (lg_lock l)) l)).
  change (cset (c_log @ c_lg_outstanding) 0 (cset (c_log @ c_lg_lock) (locked_by0 (lg_lock l)) (set_log l y))) with (set_log l1 y).
  eapply does_bind_eq; [by apply (rest_load pid 1 c_log _ _ _ _ _ l1)|].
  change (lg_committing l1) with (lg_committing l). rewrite Hc. change (lg_outstanding l1 =? 0) with true. cbn [Z.eqb negb].
  eapply does_bind_tt; [by eapply (rest_store pid 1 (c_log @ c_lg_committing))|].
  eapply does_bind_tt; [apply (rest_release pid 1 (c_log @ c_lg_lock) _ _ _ _ _ (lg_lock l)); [done|exact Hf|apply shallow_le; lia|lia]|].
  set (l2 := set_lg_committing 1 (set_lg_outstanding 0 l)).
  change (cset (c_log @ c_lg_lock) (lg_lock l) (cset (c_log @ c_lg_committing) 1 (set_log l1 y))) with (set_log (set_lg_lock (lg_lock l) l2) y).
  replace (set_lg_lock (lg_lock l) l2) with l2 by (by destruct l). cbn [when].
  eapply does_bind_tt; [apply (commit_any_does D f m l2 L y); try done; destruct Hl; by constructor|].
  eapply does_bind_tt; [eapply (rest_acquire pid 0 (c_log @ c_lg_lock)); [done|exact Hf|apply shallow_le; lia]|].
  eapply does_bind_tt; [by eapply (rest_store pid 1 (c_log @ c_lg_committing))|].
  eapply does_bind_tt; [apply rest_wakeup, shallow_le; lia|].
  eapply does_post; [apply (rest_release pid 1 (c_log @ c_lg_lock) _ _ _ _ _ (lg_lock l)); [done|exact Hf|apply shallow_le; lia|lia]|].
  intros [] x Hx. destruct l. simpl in *. by subst.
Qed.

(** A system call that is not the last one only steps back. *)
Lemma end_op_more hb D f m l L out y : log_at out L l -> 1 < out < 2 ^ 31 ->
  does 0 (Bc hb D f m (set_log l y)) (end_op fuel) 0
    (fun _ x => Bc hb D f m (set_log (set_lg_outstanding (out - 1) l) y) x).
Proof.
  intros [Hf Ho Hc Hl] Hout. unfold end_op.
  eapply does_bind_tt; [eapply (rest_acquire pid 0 (c_log @ c_lg_lock)); [done|exact Hf|apply shallow_le; lia]|].
  eapply does_bind_tt; [by apply (rest_update pid 1 (c_log @ c_lg_outstanding) _ _ _ _ _ _ (lg_outstanding l))|]. rewrite Ho, i32_id by lia.
  set (l1 := set_lg_outstanding (out - 1) (set_lg_lock (locked_by0 (lg_lock l)) l)).
  change (cset (c_log @ c_lg_outstanding) (out - 1) (cset (c_log @ c_lg_lock) (locked_by0 (lg_lock l)) (set_log l y)))
    with (set_log l1 y).
  eapply does_bind_eq; [by apply (rest_load pid 1 c_log _ _ _ _ _ l1)|].
  change (lg_committing l1) with (lg_committing l). rewrite Hc. change (lg_outstanding l1) with (out - 1). cbn [Z.eqb negb].
  destruct (Z.eqb_spec (out - 1) 0); [lia|].
  eapply does_bind_tt; [apply rest_wakeup, shallow_le; lia|].
  eapply does_bind_tt; [apply (rest_release pid 1 (c_log @ c_lg_lock) _ _ _ _ _ (lg_lock l)); [done|exact Hf|apply shallow_le; lia|lia]|].
  apply does_ret. intros x Hx. destruct l. simpl in *. by subst.
Qed.

(** *** initlog *)

Definition sb_says (d : list Z) : Prop := get32 16 d = start /\ get32 12 d = N.

Lemma initlog_does m l L y : geo m -> 0 <= N -> logged m L -> length (lh_block l) = LOGSIZE ->
  sb_says (block_in m 1) -> head_is L (block_in m start) ->
  exists l', log_at (lg_outstanding l) [] (set_lg_committing 0 l') /\ lg_committing l' = lg_committing l /\
  does 0 (Bc [] [] (block_in m) m (set_log l y)) (initlog fuel 1) 0
    (fun _ x => Bc [] [] (set_all (recover_writes (block_in m) L) (block_in m))
                  (apply_writes (recover_writes (block_in m) L) m) (set_log l' y) x).
Proof.
  intros Hg HN HL Hlen [Hs1 Hs2] Hh. destruct (Hg) as (G1 & G2 & G3 & G4). destruct (HL) as (_ & _ & L3 & _).
  set (l1 := mkLog (mkLock 0 "log" None) start N (lg_outstanding l) (lg_committing l) 1 (lh_n l) (lh_block l)).
  exists (set_lh_n 0 (with_head L l1)). split; [|split; [done|]].
  { constructor; try done. constructor; try done. simpl. rewrite length_app, length_drop. lia. }
  unfold initlog. change (BSIZE <=? sizeof_logheader) with false. cbv iota.
  eapply does_bind_tt.
  { intros x Hx. exists tt, (cset (c_log @ c_lg_lock) (mkLock 0 "log" None) x). split; [apply (runs_initlock pid 0)|].
    by apply (Bc_set pid (c_log @ c_lg_lock)). }
  eapply (does_bind_eq pid 0 0 0) with (a := decode_sb (block_in m 1)).
  { unfold readsb. change (u32 1) with 1. eapply does_bind; [apply bread_does; [lia|apply not_elem_of_nil|right; simpl; unfold NBUF; lia]|].
    intros bp. eapply does_bind_eq; [apply data_load; by left|].
    eapply does_bind_tt; [apply brelse_does; by right|]. apply does_ret. by intros x Hx. }
  simpl sb_logstart. simpl sb_nlog. rewrite Hs1, Hs2, !i32_id by lia.
  eapply does_bind_tt; [by eapply (rest_store pid 0 (c_log @ c_lg_start))|].
  eapply does_bind_tt; [by eapply (rest_store pid 0 (c_log @ c_lg_size))|].
  eapply does_bind_tt; [by eapply (rest_store pid 0 (c_log @ c_lg_dev))|].
  by apply (recover_does (block_in m) m l1 L y).
Qed.

End Facts.
