(* ===== verification/Crash.v ===== *)
(** * Crashes and recovery (log.c)

    The machine may stop at any point: what survives is the disk, with the block
    writes made so far.  [recovers m g] says which contents [g] of the file system a
    disk [m] stands for: the logged blocks if the header on the disk lists them, and
    the blocks in their home locations otherwise.

    - While [end_op] runs, every intermediate disk stands for the contents before the
      transaction or for those after it; it changes from one to the other with the
      write of the header.
    - While [initlog] recovers, every intermediate disk stands for the same contents,
      and when it is done they are in their home locations. *)

From stdpp Require Import base tactics list sets strings gmap.
From Stdlib Require Import ZArith Lia.
From S2P Require Import Prelude Params StringC Spinlock ProcState Comp SysState Words Solo Sleeplock Bio Log.
Open Scope Z_scope.

Section Disks.
Context (start N : Z).
Implicit Types (L : list Z) (f g : Z -> list Z) (m : memdisk) (W : writes).
Abbreviation geo := (geo start N).
Abbreviation logged := (logged start N).
Abbreviation home := (home start N).
Abbreviation in_log := (in_log start N).

Record recovers m g : Prop := {
  rc_len : length (block_in m start) = 512%nat;
  rc_sb : sb_says start N (block_in m 1);
  rc_view : exists L, logged m L /\ head_is L (block_in m start) /\
    (forall i n, L !! i = Some n -> g n = block_in m (start + Z.of_nat i + 1)) /\
    (forall n, home m n -> n ∉ L -> g n = block_in m n)
}.

Lemma home_apply W m n : home (apply_writes W m) n <-> home m n.
Proof. unfold Log.home. by rewrite apply_writes_size. Qed.

Lemma head_put_nil_is d : length d = 512%nat -> head_is [] (head_put [] d).
Proof. intros Hd. by apply head_put_is; [|simpl; lia|]. Qed.

(** *** The writes of the recovery *)

Section Recovery.
Context (m : memdisk) (L : list Z) (Hg : geo m) (HL : logged m L) (Hlen : length (block_in m start) = 512%nat).

Lemma recover_writes_range : Forall (fun w => 0 <= w.1 < md_size m) (recover_writes start (block_in m) L).
Proof using Hg HL Hlen.
  apply Forall_app. split; [by eapply install_writes_home|]. constructor; [|done]. simpl.
  destruct HL as (_ & _ & _ & ?), Hg as (? & ? & _). lia.
Qed.

Lemma recover_prefix_block k n : 0 <= n ->
  block_in (apply_writes (take k (recover_writes start (block_in m) L)) m) n =
  set_all (take k (recover_writes start (block_in m) L)) (block_in m) n.
Proof using Hg HL Hlen.
  intros Hn. apply apply_writes_block; [apply Hg| |done]. apply Forall_take, recover_writes_range.
Qed.

Lemma install_take_fst k n : n ∉ L -> n ∉ (take k (install_writes start (block_in m) L)).*1.
Proof. intros Hn. apply fst_take. by rewrite install_writes_fst. Qed.

Lemma logged_not_in n : in_log n \/ n = 1 -> n ∉ L.
Proof using Hg HL Hlen.
  intros Hn Hin. destruct HL as (_ & HF & _). rewrite Forall_forall in HF. destruct (HF n Hin) as [? ?].
  destruct Hn as [?| ->]; [done|lia].
Qed.

Lemma recover_prefix g k : sb_says start N (block_in m 1) -> head_is L (block_in m start) ->
  (forall i n, L !! i = Some n -> g n = block_in m (start + Z.of_nat i + 1)) ->
  (forall n, home m n -> n ∉ L -> g n = block_in m n) ->
  recovers (apply_writes (take k (recover_writes start (block_in m) L)) m) g.
Proof using Hg HL Hlen.
  intros Hsb Hh Hin Hout. destruct (Hg) as (G1 & G2 & G3 & G4). destruct (HL) as (Hnd & _ & L3 & L4).
  assert (in_log start) as Hst by (unfold in_log; lia).
  assert (1 ∉ L) as H1 by (apply logged_not_in; by right).
  assert (start ∉ L) as Hs by (apply logged_not_in; by left).
  destruct (Nat.le_gt_cases k (length L)) as [Hk|Hk].
  - assert (take k (recover_writes start (block_in m) L) = take k (install_writes start (block_in m) L)) as E.
    { unfold recover_writes. rewrite take_app_le; [done|]. unfold install_writes. by rewrite length_imap. }
    constructor; [| |exists L; split; [by apply logged_apply|split; [|split]]].
    + by rewrite recover_prefix_block, E, set_all_other by (lia || by apply install_take_fst).
    + by rewrite recover_prefix_block, E, set_all_other by (lia || by apply install_take_fst).
    + by rewrite recover_prefix_block, E, set_all_other by (lia || by apply install_take_fst).
    + intros i n Hi. pose proof (lookup_lt_Some _ _ _ Hi). rewrite recover_prefix_block, E, set_all_other; [by apply Hin| |lia].
      apply install_take_fst, logged_not_in. left. unfold in_log. lia.
    + intros n Hn HnL. pose proof (proj1 (home_apply _ _ _) Hn) as Hn'. rewrite recover_prefix_block, E, set_all_other;
        [by apply Hout|by apply install_take_fst|]. destruct Hn'. lia.
  - assert (take k (recover_writes start (block_in m) L) = recover_writes start (block_in m) L) as E.
    { apply take_ge. unfold recover_writes, install_writes. rewrite length_app, length_imap. simpl. lia. }
    assert (forall n, 0 <= n -> n <> start -> n ∉ L ->
      block_in (apply_writes (take k (recover_writes start (block_in m) L)) m) n = block_in m n) as Hoth.
    { intros n Hn Hns HnL. rewrite recover_prefix_block, E by done. unfold recover_writes. rewrite set_all_app. simpl.
      rewrite bset_ne by done. apply set_all_other. by rewrite install_writes_fst. }
    assert (block_in (apply_writes (take k (recover_writes start (block_in m) L)) m) start = head_put [] (block_in m start)) as Hhd.
    { rewrite recover_prefix_block, E by lia. unfold recover_writes. rewrite set_all_app. simpl. apply bset_eq. }
    constructor; [| |exists []; split; [apply logged_nil; lia|split; [|split]]].
    + rewrite Hhd. apply length_head_put; [done|simpl; lia].
    + rewrite Hoth by (lia || done). done.
    + rewrite Hhd. by apply head_put_nil_is.
    + done.
    + intros n Hn _. apply (proj1 (home_apply _ _ _)) in Hn. destruct (decide (n ∈ L)) as [HnL|HnL].
      * apply list_elem_of_lookup in HnL as [i Hi]. rewrite (Hin i n Hi), recover_prefix_block, E by (destruct Hn; lia).
        unfold recover_writes. rewrite set_all_app. simpl. rewrite bset_ne by (intros ->; by destruct Hn). symmetry.
        apply set_all_in; [by rewrite install_writes_fst|by apply install_writes_elem].
      * rewrite Hoth; [by apply Hout|destruct Hn; lia|intros ->; by destruct Hn|done].
Qed.

End Recovery.

(** *** The writes of a commit *)

Section Commit.
Context (m : memdisk) (L : list Z) (f : Z -> list Z) (Hg : geo m) (HL : logged m L) (Hne : L <> []).
Context (Hlen : length (block_in m start) = 512%nat) (Hsb : sb_says start N (block_in m 1)).
Context (Hempty : head_is [] (block_in m start)) (Hst : f start = block_in m start).
Context (Hold : forall n, home m n -> n ∉ L -> f n = block_in m n).

(** A prefix that includes the header and [j] installed blocks. *)
Definition committed (j : nat) : writes :=
  log_writes start f L ++ (start, head_put L (f start)) :: take j ((fun b => (b, f b)) <$> L).

Lemma committed_home j n : home m n -> set_all (committed j) (block_in m) n =
  set_all (take j ((fun b => (b, f b)) <$> L)) (block_in m) n.
Proof using Hg HL Hne Hlen Hsb Hempty Hst Hold.
  intros [Hr Hn]. unfold committed. destruct HL as (_ & _ & _ & L4). rewrite set_all_app, set_all_cons.
  apply set_all_ext. intros _. simpl. rewrite bset_ne by (intros ->; apply Hn; unfold in_log; lia).
  apply set_all_other. intros Hin. apply Hn. by eapply log_writes_in.
Qed.

Lemma fst_installed j n : n ∉ L -> n ∉ (take j ((fun b => (b, f b)) <$> L)).*1.
Proof using Type*.
  intros Hn. apply fst_take. rewrite <- list_fmap_compose. intros (b & -> & Hb)%list_elem_of_fmap. by apply Hn.
Qed.

Lemma committed_log j n : ~ home m n -> 0 <= n -> set_all (committed j) (block_in m) n =
  bset start (head_put L (f start)) (set_all (log_writes start f L) (block_in m)) n.
Proof using Hg HL Hne Hlen Hsb Hempty Hst Hold.
  intros Hn H0. unfold committed. rewrite set_all_app, set_all_cons. apply set_all_other, fst_installed. intros Hin.
  destruct HL as (_ & HF & _). rewrite Forall_forall in HF. by apply Hn, HF.
Qed.

Lemma commit_range : Forall (fun w => 0 <= w.1 < md_size m) (commit_writes start f L).
Proof using Hg HL Hne Hlen Hsb Hempty Hst Hold.
  destruct Hg as (G1 & G2 & G3 & G4), HL as (_ & HF & _ & L4).
  unfold commit_writes. rewrite Forall_app, Forall_cons, Forall_app.
  split; [|split; [simpl; lia|split; [|constructor; [simpl; lia|done]]]].
  - apply Forall_forall. intros w Hw.
    assert (in_log w.1) as Hw1 by (eapply log_writes_in; [exact L4|by apply list_elem_of_fmap_2]). unfold in_log in Hw1. lia.
  - apply Forall_fmap, (Forall_impl _ _ _ HF). intros b [? _]. simpl. lia.
Qed.

Lemma not_home_log n : in_log n \/ n = 1 -> ~ home m n.
Proof using Type*. intros [Hn| ->] [? ?]; [done|lia]. Qed.

Lemma commit_prefix_early k : (k <= length L)%nat -> recovers (apply_writes (take k (commit_writes start f L)) m) (block_in m).
Proof using Hg HL Hne Hlen Hsb Hempty Hst Hold.
  intros Hk. destruct (Hg) as (G1 & G2 & G3 & G4). destruct (HL) as (_ & _ & _ & L4).
  assert (take k (commit_writes start f L) = take k (log_writes start f L)) as E.
  { unfold commit_writes. rewrite take_app_le; [done|]. unfold log_writes. by rewrite length_imap. }
  assert (forall n, 0 <= n -> (forall i, n <> start + Z.of_nat i + 1) \/ ~ in_log n ->
    block_in (apply_writes (take k (commit_writes start f L)) m) n = block_in m n) as Hsame.
  { intros n Hn Hnl. rewrite apply_writes_block by (done || apply Forall_take, commit_range). rewrite E.
    apply set_all_other, fst_take. intros Hin. destruct Hnl as [Hnl|Hnl].
    - apply list_elem_of_fmap in Hin as ([n' d] & -> & (i & b & _ & -> & _)%log_writes_elem). by apply (Hnl i).
    - apply Hnl. by eapply log_writes_in. }
  assert (forall i, start <> start + Z.of_nat i + 1) by lia.
  constructor; [| |exists []; split; [apply logged_nil; lia|split; [|split; [done|]]]].
  - rewrite Hsame by (lia || by left). done.
  - rewrite Hsame by (lia || right; unfold in_log; lia). done.
  - rewrite Hsame by (lia || by left). done.
  - intros n Hn _. apply (proj1 (home_apply _ _ _)) in Hn as [? ?]. rewrite Hsame by (lia || by right). done.
Qed.

Lemma commit_prefix_late k : (length L < k)%nat -> recovers (apply_writes (take k (commit_writes start f L)) m) f.
Proof using Hg HL Hne Hlen Hsb Hempty Hst Hold.
  intros Hk. destruct (Hg) as (G1 & G2 & G3 & G4). destruct (HL) as (Hnd & HF & L3 & L4).
  set (W := commit_writes start f L) in *. set (h := head_put L (f start)).
  assert (length h = 512%nat) as Hh by (apply length_head_put; [by rewrite Hst|done]).
  assert (forall n, 0 <= n -> block_in (apply_writes (take k W) m) n = set_all (take k W) (block_in m) n) as HB.
  { intros n Hn. apply apply_writes_block; [done| |done]. apply Forall_take, commit_range. }
  assert (in_log start) as Hs by (unfold in_log; lia).
  assert (~ in_log 1) as H1 by (unfold in_log; lia).
  assert (forall n, home m n -> n ∈ L -> set_all ((fun b => (b, f b)) <$> L) (block_in m) n = f n) as Hfull.
  { intros n _ Hn. apply set_all_in; [by rewrite <- list_fmap_compose, list_fmap_id|]. apply list_elem_of_fmap. by exists n. }
  assert (length (log_writes start f L) = length L) as HlW by (unfold log_writes; apply length_imap).
  destruct (decide (k < length W)%nat) as [HkW|HkW].
  - assert (take k W = committed (k - length L - 1)) as E.
    { unfold W, commit_writes, committed. rewrite take_app_ge by lia. f_equal.
      rewrite HlW. destruct (k - length L)%nat as [|j] eqn:Ej; [lia|]. simpl. rewrite Nat.sub_0_r. f_equal.
      apply take_app_le. rewrite length_fmap. unfold W, commit_writes in HkW.
      rewrite length_app, HlW in HkW. simpl in HkW. rewrite length_app, length_fmap in HkW. simpl in HkW. lia. }
    assert (block_in (apply_writes (take k W) m) start = h) as Hstart.
    { rewrite HB, E, committed_log by (lia || by apply not_home_log; left). apply bset_eq. }
    constructor; [by rewrite Hstart| |exists L; split; [by apply logged_apply|split; [|split]]].
    + rewrite HB, E, committed_log by (lia || by apply not_home_log; right).
      rewrite bset_ne by lia. rewrite set_all_other; [done|]. intros Hin. by eapply H1, log_writes_in.
    + rewrite Hstart. apply head_put_is; [by rewrite Hst|done|]. apply (Forall_impl _ _ _ HF). intros b [? _]. lia.
    + intros i n Hi. pose proof (lookup_lt_Some _ _ _ Hi).
      rewrite HB, E, committed_log by (lia || apply not_home_log; left; unfold in_log; lia).
      rewrite bset_ne by lia. symmetry. apply set_all_in; [apply log_writes_nodup|].
      apply (list_elem_of_lookup_2 _ i). by apply log_writes_lookup.
    + intros n Hn HnL. apply (proj1 (home_apply _ _ _)) in Hn. rewrite HB, E, committed_home by (done || destruct Hn; lia).
      rewrite set_all_other by (by apply fst_installed). by apply Hold.
  - assert (take k W = committed (length L) ++ [(start, head_put [] h)]) as E.
    { rewrite take_ge by lia. unfold W, commit_writes, committed. rewrite (take_ge _ (length L)) by (by rewrite length_fmap).
      by rewrite <- app_assoc. }
    assert (forall n, n <> start -> 0 <= n -> block_in (apply_writes (take k W) m) n = set_all (committed (length L)) (block_in m) n) as Hoth.
    { intros n Hn Hn0. rewrite HB, E, set_all_app by done. simpl. by rewrite bset_ne. }
    assert (block_in (apply_writes (take k W) m) start = head_put [] h) as Hstart.
    { rewrite HB, E, set_all_app by lia. simpl. apply bset_eq. }
    constructor; [rewrite Hstart; apply length_head_put; [done|simpl; lia]| |exists []; split; [apply logged_nil; lia|split; [|split; [done|]]]].
    + rewrite Hoth, committed_log by (lia || by apply not_home_log; right).
      rewrite bset_ne by lia. rewrite set_all_other; [done|]. intros Hin. by eapply H1, log_writes_in.
    + rewrite Hstart. by apply head_put_nil_is.
    + intros n Hn _. apply (proj1 (home_apply _ _ _)) in Hn.
      rewrite Hoth; [|intros ->; by destruct Hn|destruct Hn; lia]. rewrite committed_home by done.
      rewrite take_ge by (by rewrite length_fmap). symmetry. destruct (decide (n ∈ L)) as [HnL|HnL]; [by apply Hfull|].
      rewrite set_all_other by (rewrite <- list_fmap_compose, list_fmap_id; done). by rewrite Hold.
Qed.

(** A complete commit puts the new contents in their home locations. *)
Lemma commit_home n : home m n -> block_in (apply_writes (commit_writes start f L) m) n = f n.
Proof using Hg HL Hne Hlen Hsb Hempty Hst Hold.
  intros Hn. destruct (Hg) as (G1 & G2 & G3 & G4). destruct (HL) as (Hnd & HF & L3 & L4). destruct (Hn) as [Hr Hl].
  rewrite apply_writes_block by (done || apply commit_range || lia).
  assert (commit_writes start f L = committed (length L) ++ [(start, head_put [] (head_put L (f start)))]) as ->.
  { unfold commit_writes, committed. rewrite (take_ge _ (length L)) by (by rewrite length_fmap). by rewrite <- app_assoc. }
  rewrite set_all_app, set_all_cons. simpl. rewrite bset_ne by (intros ->; apply Hl; unfold in_log; lia).
  rewrite committed_home, take_ge by (done || by rewrite length_fmap).
  destruct (decide (n ∈ L)) as [HnL|HnL].
  - apply set_all_in; [by rewrite <- list_fmap_compose, list_fmap_id|]. apply list_elem_of_fmap. by exists n.
  - rewrite set_all_other by (rewrite <- list_fmap_compose, list_fmap_id; done). by rewrite Hold.
Qed.

End Commit.

End Disks.

(** ** The machine *)

Section Machine.
Context {S : Type} `{PL : ProcsLaws sys S} (fuel : nat) (pid : Z) (start N : Z).
Implicit Types (L : list Z) (f g : Z -> list Z) (m : memdisk) (W : writes) (x : sys).
Abbreviation geo := (geo start N).
Abbreviation logged := (logged start N).
Abbreviation home := (home start N).
Abbreviation recovers := (recovers start N).

(** A machine that has just been started, with the disk [m]. *)
Definition booted m x : Prop := disk x = m /\ blank_cache x /\ length (lh_block (log x)) = LOGSIZE.

(** What it does to the disk before the first file system call. *)
Definition start_up : M S unit := binit ;;; initlog fuel 1.

Lemma start_up_runs m g x : geo m -> 0 <= N -> recovers m g -> booted m x ->
  exists x' W, runs (X := sys) pid 0 start_up x 0 tt x' /\ disk x' = apply_writes W m /\
    (forall n, home m n -> block_in (disk x') n = g n) /\
    forall k, recovers (apply_writes (take k W) m) g.
Proof.
  intros Hg HN [Hlen Hsb (L & HL & Hh & Hin & Hout)] (Hd & Hb & Hlb). destruct (Hg) as (G1 & G2 & G3 & G4).
  set (W := recover_writes start (block_in m) L).
  assert (forall k, recovers (apply_writes (take k W) m) g) as Hall by (intros k; by apply recover_prefix).
  destruct (binit_does pid x Hb) as (x1 & Hr1 & Hv1); [by rewrite Hd|].
  set (y := set_bc_lock (mkLock 0 "bcache" None) x) in *.
  assert (y = set_log (log x) y) as Hy by (unfold y; by destruct x).
  destruct (initlog_does fuel pid start N m (log x) L y) as (l' & _ & _ & Hdo); try done.
  rewrite Hy, Hd in Hv1. destruct (Hdo x1 Hv1) as ([] & x2 & Hr2 & Hv2).
  exists x2, W. rewrite (Bc_disk pid _ _ _ _ _ _ Hv2). split; [by eapply runs_bind|]. split; [done|]. split; [|done].
  intros n Hn. destruct (Hall (length W)) as [_ _ (L' & HL' & Hh' & _ & Hout')]. rewrite firstn_all in *.
  assert (L' = []) as ->.
  { destruct Hh' as [Hh' _]. unfold W in Hh'. rewrite apply_writes_block in Hh'; [| |by eapply recover_writes_range|lia]; [|done].
    unfold recover_writes in Hh'. rewrite set_all_app in Hh'. simpl in Hh'. rewrite bset_eq in Hh'.
    destruct (head_put_nil_is _ Hlen) as [E _]. rewrite E in Hh'. destruct L'; [done|simpl in Hh'; lia]. }
  symmetry. apply Hout'; [by apply home_apply|apply not_elem_of_nil].
Qed.

(** The disks that may be found after the machine stopped with disk [m] and was
    started any number of times, each time stopping after [k] of its writes. *)
Inductive survives m : memdisk -> Prop :=
| survives_here : survives m m
| survives_boot m1 (s s' : S) W k : survives m m1 -> in_proc pid 0 s -> booted m1 (part s) ->
    start_up s = Ret tt s' -> disk (part s') = apply_writes W m1 -> survives m (apply_writes (take k W) m1).

Lemma survives_size m m1 : survives m m1 -> md_size m1 = md_size m.
Proof. intros Hs. induction Hs as [|m1 ? ? W k _ IH]; [done|]. by rewrite apply_writes_size. Qed.

Lemma survives_recovers m m1 g : geo m -> 0 <= N -> recovers m g -> survives m m1 -> geo m1 /\ recovers m1 g.
Proof.
  intros Hg HN Hr Hs. induction Hs as [|m1 s s' W k Hs IH Hp Hb He Hd]; [done|]. destruct IH as [Hg1 Hr1].
  destruct (start_up_runs m1 g (part s) Hg1 HN Hr1 Hb) as (x' & W' & Hrun & Hd' & _ & Hk).
  destruct (Hrun s Hp eq_refl) as (s2 & He2 & _ & Hx'). rewrite He in He2. injection He2 as <-.
  assert (W = W') as ->.
  { assert (apply_writes W m1 = apply_writes W' m1) as E by (rewrite <- Hd, <- Hd'; by rewrite Hx').
    apply (f_equal md_writes) in E. rewrite !apply_writes_trace in E. by apply app_inv_head in E. }
  split; [by apply geo_apply|apply Hk].
Qed.

(** A file system call about to end: it has logged the blocks [L], which read as [f];
    the disk is [m]. *)
Record in_call m L f x : Prop := {
  ic_geo : geo m;
  ic_size : 0 <= N;
  ic_logged : logged m L;
  ic_len : length (block_in m start) = 512%nat;
  ic_sb : sb_says start N (block_in m 1);
  ic_head : head_is [] (block_in m start);
  ic_state : exists l y, log_at start N 1 L l /\ Bc pid [] L f m (set_log l y) x;
  ic_clean : forall n, 0 <= n < md_size m -> n ∉ L -> f n = block_in m n;
  ic_room : (length L < NBUF)%nat
}.

Lemma end_op_runs m L f x : in_call m L f x ->
  exists x' W, runs (X := sys) pid 0 (end_op fuel) x 0 tt x' /\ disk x' = apply_writes W m /\
    (forall n, home m n -> block_in (disk x') n = f n) /\
    forall k, recovers (apply_writes (take k W) m) (if (k <=? length L)%nat then block_in m else f).
Proof.
  intros [Hg HN HL Hlen Hsb Hh (l & y & Hat & Hv) Hcl Hroom]. destruct (Hg) as (G1 & G2 & G3 & G4).
  assert (forall n, in_log start N n -> n ∉ L) as Hnl.
  { intros n Hn Hin. destruct HL as (_ & HF & _). rewrite Forall_forall in HF. by apply (HF n Hin). }
  assert (forall n, in_log start N n -> f n = block_in m n) as Hlog.
  { intros n Hn. apply Hcl; [unfold in_log in Hn; lia|by apply Hnl]. }
  destruct (end_op_does fuel pid start N L f m l L y Hg HL Hat) with (x := x) as ([] & x' & Hr & Hv'); try done.
  { intros n Hin Hn. by apply (Hnl n). }
  exists x', (end_writes start f L). split; [done|]. split; [by rewrite (Bc_disk pid _ _ _ _ _ _ Hv')|].
  destruct (decide (L = [])) as [->|HneL].
  - split.
    { intros n Hn. rewrite (Bc_disk pid _ _ _ _ _ _ Hv'). symmetry. apply Hcl; [destruct Hn; lia|apply not_elem_of_nil]. }
    intros k. cbn [end_writes]. rewrite take_nil. cbn [apply_writes foldl]. constructor; [done|done|].
    assert (forall n, home m n -> (if (k <=? 0)%nat then block_in m else f) n = block_in m n) as E.
    { intros n Hn. destruct (k <=? 0)%nat; [done|]. apply Hcl; [destruct Hn; lia|apply not_elem_of_nil]. }
    exists []. split; [done|]. split; [done|]. split; [done|]. intros n Hn _. by apply E.
  - assert (end_writes start f L = commit_writes start f L) as E by (by destruct L). rewrite E in *.
    assert (f start = block_in m start) as Hst by (apply Hlog; unfold in_log; destruct HL as (_ & _ & _ & ?); lia).
    assert (forall n, home m n -> n ∉ L -> f n = block_in m n) as Hold by (intros n [? _] ?; apply Hcl; [lia|done]).
    split; [intros n Hn; rewrite (Bc_disk pid _ _ _ _ _ _ Hv'); by eapply (commit_home start N)|].
    intros k. destruct (Nat.leb_spec k (length L)); [by apply commit_prefix_early|by apply commit_prefix_late].
Qed.

(** C3: Crash atomicity of the log.  A process ends a file system call that changed the
    blocks [L]; [f] is the contents of the disk as the call left it and [m] the disk
    without its changes.  [end_op] returns, with the new contents in their home
    locations.  If the machine stops after any number [k] of its disk writes, and then
    any number of times while it starts up again, the start-up that completes leaves the
    file system with all of the old contents ([k] up to the number of logged blocks) or
    all of the new ones (from the write of the header on). *)
Theorem crash_atomic m L f (s : S) : in_proc pid 0 s -> in_call m L f (part s) ->
  exists s' W, end_op fuel s = Ret tt s' /\ disk (part s') = apply_writes W m /\
    (forall n, home m n -> block_in (disk (part s')) n = f n) /\
    forall k m1 s1, survives (apply_writes (take k W) m) m1 -> in_proc pid 0 s1 -> booted m1 (part s1) ->
    exists s2, start_up s1 = Ret tt s2 /\
      forall n, home m n -> block_in (disk (part s2)) n = (if (k <=? length L)%nat then block_in m else f) n.
Proof.
  intros Hp Hic. pose proof (ic_geo _ _ _ _ Hic) as Hg. pose proof (ic_size _ _ _ _ Hic) as HN.
  destruct (end_op_runs m L f (part s) Hic) as (x' & W & Hr & Hd & Hh & Hk).
  destruct (Hr s Hp eq_refl) as (s' & He & _ & Hx'). exists s', W. rewrite Hx'. split; [done|]. split; [done|]. split; [done|].
  intros k m1 s1 Hs Hp1 Hb. specialize (Hk k).
  destruct (survives_recovers _ m1 _ (geo_apply _ _ (take k W) m Hg) HN Hk Hs) as [Hg1 Hr1].
  destruct (start_up_runs m1 _ (part s1) Hg1 HN Hr1 Hb) as (x2 & W2 & Hrun & _ & Hhome & _).
  destruct (Hrun s1 Hp1 eq_refl) as (s2 & He2 & _ & Hx2). exists s2. split; [done|]. intros n Hn. rewrite Hx2.
  apply Hhome. pose proof (survives_size _ _ Hs) as Hsz. rewrite apply_writes_size in Hsz.
  destruct Hn as [? ?]. split; [by rewrite Hsz|done].
Qed.


End Machine.

(** ** An example *)

(** A call that filled block 6. *)
Definition example_new : Z -> list Z := bset 6 (replicate 512 7) (block_in example_disk).

Lemma example_geo : geo 2 4 example_disk.
Proof. unfold geo, sized. simpl. lia. Qed.

Lemma example_logged : logged 2 4 example_disk [6].
Proof.
  split; [apply NoDup_singleton|]. split; [constructor; [unfold home, in_log; simpl; lia|done]|]. unfold LOGSIZE. simpl. lia.
Qed.

Lemma example_call : exists x, in_call 1 2 4 example_disk [6] example_new x.
Proof.
  destruct (binit_does (S := solo) 1 (blank_sys example_disk example_log)) as (x1 & _ & H1); [apply blank_sys_cache|done|].
  assert (does (S := solo) 1 0 (Bc 1 [] [] (block_in example_disk) example_disk
      (set_log example_log (set_bc_lock (mkLock 0 "bcache" None) (blank_sys example_disk example_log))))
    (b <- bread 0 1 6 ;; store (c_buf b @ c_b_data) (replicate 512 7) ;;; log_write b ;;; brelse b) 0
    (fun _ x => exists l y, log_at 2 4 1 [6] l /\ Bc 1 [] [6] example_new example_disk (set_log l y) x)) as Hd.
  { assert (log_at 2 4 1 [] example_log) as Hat by done.
    eapply does_bind; [apply bread_does; [simpl; lia|apply not_elem_of_nil|right; simpl; unfold NBUF; lia]|]. intros b.
    eapply does_bind_tt; [apply (data_store 1 _ [] _ _ _ b 6); by left|].
    eapply does_bind_tt; [apply (log_write_does 1 2 4 _ [] [6] _ _ example_log [] 1 _ b 6); try done;
      [unfold LOGSIZE; simpl; lia|by left|intros k; set_solver]|].
    eapply does_post; [apply brelse_does; left; set_solver|]. intros [] x Hx.
    eexists _, _. split; [|exact Hx]. apply (log_add_at 2 4 1 6 [] example_log Hat). unfold LOGSIZE. simpl. lia. }
  destruct (Hd x1 H1) as (_ & x & _ & Hx). exists x.
  constructor; [apply example_geo|lia|apply example_logged|done|done|done|done| |simpl; unfold NBUF; lia].
  intros n _ Hn. apply bset_ne. set_solver.
Qed.

Lemma crash_atomic_witness : exists (s s' : solo) W, end_op 0 s = Ret tt s' /\
  disk (part s') = apply_writes W example_disk /\ block_in (disk (part s')) 6 = replicate 512 7.
Proof.
  destruct example_call as [x Hx]. set (s := mkSolo solo_machine x 1).
  destruct (crash_atomic 0 1 2 4 example_disk [6] example_new s (solo_in_proc x) Hx) as (s' & W & He & Hd & Hn & _).
  exists s, s', W. split; [exact He|]. split; [exact Hd|]. rewrite (Hn 6); [reflexivity|].
  unfold home, in_log. simpl. lia.
Defined.

(** The same disk with the log variable of two and of three calls. *)
Definition gap_log (out : Z) (L : list Z) : logst :=
  mkLog zero_lock 2 30 out 0 1 (Z.of_nat (length L)) (L ++ replicate (LOGSIZE - length L) 0).

