(* ===== verification/Fs.v ===== *)
(** * The file system (fs.c)

    Blocks, inodes, the contents of files, directories and paths, on top of the log.

    The bytes a caller passes or receives are lists: [readi] returns the bytes it
    stores at [dst], [writei] takes the bytes at [src].  A pointer to an inode is its
    index in the inode cache.  A path or a name is the list of its bytes up to the nul. *)

From stdpp Require Import base tactics list sets strings gmap.
From Stdlib Require Import ZArith Lia.
From S2P Require Import Prelude Params StringC Spinlock ProcState Comp SysState Words Solo Sleeplock Bio Log.
Open Scope Z_scope.

(** fs.h *)
Definition ROOTINO : Z := 1.
Definition NDIRECT : Z := 12.
Definition NINDIRECT : Z := BSIZE / 4.
Definition MAXFILE : Z := NDIRECT + NINDIRECT.
Definition sizeof_dinode : Z := 64.
Definition IPB : Z := BSIZE / sizeof_dinode.
Definition IBLOCK (i : Z) (s : superblock) : Z := u32 (i / IPB + sb_inodestart s).
Definition BPB : Z := BSIZE * 8.
Definition BBLOCK (b : Z) (s : superblock) : Z := u32 (b / BPB + sb_bmapstart s).
Definition DIRSIZ : nat := 14.
Definition sizeof_dirent : Z := 16.

(** [struct dinode], over the bytes of its block. *)
Record dinode := mkDinode {
  di_type : Z; di_major : Z; di_minor : Z; di_nlink : Z; di_size : Z; di_addrs : list Z
}.

(** Where inode [inum] starts in its block. *)
Definition dinode_off (inum : Z) : nat := Z.to_nat (inum mod IPB * sizeof_dinode).

Definition get_dinode (o : nat) (d : list Z) : dinode :=
  mkDinode (i16 (get16 o d)) (i16 (get16 (o + 2) d)) (i16 (get16 (o + 4) d)) (i16 (get16 (o + 6) d))
    (get32 (o + 8) d) (map (fun k => get32 (o + 12 + 4 * k) d) (seq 0 13)).

(** [memmove(dip->addrs, ip->addrs, sizeof(ip->addrs))] *)
Fixpoint put_addrs (o : nat) (addrs : list Z) (d : list Z) : list Z :=
  match addrs with
  | [] => d
  | a :: addrs => put_addrs (o + 4) addrs (put32 o a d)
  end.

Definition put_dinode (o : nat) (di : dinode) (d : list Z) : list Z :=
  put_addrs (o + 12) (di_addrs di)
    (put32 (o + 8) (di_size di)
      (put16 (o + 6) (di_nlink di)
        (put16 (o + 4) (di_minor di)
          (put16 (o + 2) (di_major di) (put16 o (di_type di) d))))).

(** The device switch and [cprintf]. *)
Class DevSw (S : Type) := {
  dev_read : Z -> option (nat -> Z -> M S (Z * list Z));
  dev_write : Z -> option (nat -> list Z -> Z -> M S Z);
  kprintf : string -> list Z -> M S unit
}.

(** The bit of block [bi] in a block of the bitmap. *)
Definition bit_mask (bi : Z) : Z := Z.shiftl 1 (bi mod 8).
Definition bit_byte (bi : Z) : nat := Z.to_nat (bi / 8).
Definition byte_of (i : nat) (d : list Z) : Z := nth i d 0.
Definition bit_set (bi : Z) (d : list Z) : bool := negb (Z.land (byte_of (bit_byte bi) d) (bit_mask bi) =? 0).
Definition set_bit (bi : Z) (d : list Z) : list Z :=
  <[bit_byte bi := Z.lor (byte_of (bit_byte bi) d) (bit_mask bi)]> d.
Definition clear_bit (bi : Z) (d : list Z) : list Z :=
  <[bit_byte bi := Z.land (byte_of (bit_byte bi) d) (Z.lnot (bit_mask bi))]> d.

(** [for(bi = ...; bi < BPB && b + bi < sb.size; bi++)] up to a clear bit. *)
Fixpoint scan_bits (n : nat) (b bi size : Z) (d : list Z) : option Z :=
  match n with
  | O => None
  | S n => if (bi <? BPB) && (b + bi <? size) then
             if bit_set bi d then scan_bits n b (bi + 1) size d else Some bi
           else None
  end.

(** The bytes of a name up to the nul. *)
Fixpoint name_of (d : list Z) : list Z :=
  match d with [] => [] | c :: d => if c =? 0 then [] else c :: name_of d end.

(** string.c: [strncmp] on byte strings that end with a nul after their last byte. *)
Fixpoint list_strncmp (n : nat) (p q : list Z) : Z :=
  match n with
  | O => 0
  | S n =>
      let a := hd 0 p in let b := hd 0 q in
      if negb (a =? 0) && (a =? b) then list_strncmp n (tl p) (tl q) else a - b
  end.

Definition namecmp (s t : list Z) : Z := list_strncmp DIRSIZ s t.

(** string.c: [strncpy(de.name, name, DIRSIZ)] *)
Definition padded_name (name : list Z) : list Z :=
  take DIRSIZ (name ++ replicate DIRSIZ 0).

(** The loops of [skipelem]: past slashes, and up to a slash or the end. *)
Fixpoint skip_slashes (p : list Z) : list Z :=
  match p with c :: q => if c =? 47 then skip_slashes q else p | [] => [] end.
Fixpoint elem_end (p : list Z) : list Z * list Z :=
  match p with
  | c :: q => if c =? 47 then ([], p) else let (e, r) := elem_end q in (c :: e, r)
  | [] => ([], [])
  end.

(** The path after its first element, and that element. *)
Definition skipelem (path : list Z) : option (list Z * list Z) :=
  match skip_slashes path with
  | [] => None
  | s =>
      let (e, path) := elem_end s in
      let name := if (DIRSIZ <=? length e)%nat then take DIRSIZ e else e in
      Some (skip_slashes path, name)
  end.

Section Ops.
Context {S : Type} `{PX : Part sys S} `{PR : Procs S} `{DV : DevSw S} (fuel : nat).
Abbreviation K := (M S).

Definition icache_lock : lockref S := spin_of c_ic_lock.

(** The address a process waiting for the lock of an inode sleeps on. *)
Definition inodelock_chan (ip : nat) : chan := AddrChan (8 * Z.of_nat ip + 4).

(** [bp->data[...] = ...; log_write(bp); brelse(bp)] *)
Definition bzero (dev bno : Z) : K unit :=
  bp <- bread fuel (u32 dev) (u32 bno) ;;
  store (c_buf bp @ c_b_data) (replicate (Z.to_nat BSIZE) 0) ;;;
  log_write bp ;;;
  brelse bp.

(** The outer loop of [balloc], from block [b] on. *)
Fixpoint balloc_from (n : nat) (dev b : Z) : K Z :=
  match n with
  | O => fuel_out
  | Datatypes.S n =>
      s <- load c_sb ;;
      if b <? sb_size s then
        bp <- bread fuel dev (BBLOCK b s) ;;
        d <- load (c_buf bp @ c_b_data) ;;
        match scan_bits (Z.to_nat BPB) b 0 (sb_size s) d with
        | Some bi =>
            update (c_buf bp @ c_b_data) (set_bit bi) ;;;
            log_write bp ;;;
            brelse bp ;;;
            bzero (i32 dev) (b + bi) ;;;
            ret (b + bi)
        | None => brelse bp ;;; balloc_from n dev (b + BPB)
        end
      else panic "balloc: out of blocks"
  end.

Definition balloc (dev : Z) : K Z :=
  s <- load c_sb ;;
  balloc_from (Z.to_nat (sb_size s / BPB) + 2) dev 0.

Definition bfree (dev b : Z) : K unit :=
  s <- load c_sb ;;
  bp <- bread fuel (u32 dev) (BBLOCK b s) ;;
  let bi := b mod BPB in
  d <- load (c_buf bp @ c_b_data) ;;
  if negb (bit_set bi d) then panic "freeing free block" else
  update (c_buf bp @ c_b_data) (clear_bit bi) ;;;
  log_write bp ;;;
  brelse bp.

Definition iinit (dev : Z) : K unit :=
  initlock icache_lock "icache" ;;;
  for_each (seq 0 NINODE) (fun i => initsleeplock (c_inode i @ c_i_lock) "inode") ;;;
  s <- readsb fuel (u32 dev) ;;
  store c_sb s ;;;
  s <- load c_sb ;;
  kprintf "sb: size %d nblocks %d ninodes %d nlog %d logstart %d inodestart %d bmap start %d\n"
    [sb_size s; sb_nblocks s; sb_ninodes s; sb_nlog s; sb_logstart s; sb_inodestart s; sb_bmapstart s].

(** The loop of [iget]: the cached inode, or the first free entry. *)
Fixpoint iget_scan (n : nat) (ip : nat) (empty : option nat) (dev inum : Z) : K (bool * option nat) :=
  match n with
  | O => ret (false, empty)
  | Datatypes.S n =>
      r <- load (c_inode ip) ;;
      if (0 <? i_ref r) && (i_dev r =? dev) && (i_inum r =? inum) then ret (true, Some ip) else
      let empty := match empty with
                   | Some e => Some e
                   | None => if i_ref r =? 0 then Some ip else None
                   end in
      iget_scan n (Datatypes.S ip) empty dev inum
  end.

Definition iget (dev inum : Z) : K nat :=
  acquire icache_lock ;;;
  r <- iget_scan NINODE 0 None dev inum ;;
  match r with
  | (true, Some ip) =>
      update (c_inode ip @ c_i_ref) (fun n => i32 (n + 1)) ;;;
      release icache_lock ;;;
      ret ip
  | (_, None) => panic "iget: no inodes"
  | (false, Some ip) =>
      store (c_inode ip @ c_i_dev) dev ;;;
      store (c_inode ip @ c_i_inum) inum ;;;
      store (c_inode ip @ c_i_ref) 1 ;;;
      store (c_inode ip @ c_i_valid) 0 ;;;
      release icache_lock ;;;
      ret ip
  end.

Definition idup (ip : nat) : K nat :=
  acquire icache_lock ;;;
  update (c_inode ip @ c_i_ref) (fun n => i32 (n + 1)) ;;;
  release icache_lock ;;;
  ret ip.

(** The loop of [ialloc]. *)
Fixpoint ialloc_from (n : nat) (dev inum type : Z) : K nat :=
  match n with
  | O => fuel_out
  | Datatypes.S n =>
      s <- load c_sb ;;
      if inum <? sb_ninodes s then
        bp <- bread fuel dev (IBLOCK inum s) ;;
        d <- load (c_buf bp @ c_b_data) ;;
        let o := dinode_off inum in
        if di_type (get_dinode o d) =? 0 then
          update (c_buf bp @ c_b_data) (splice o (replicate (Z.to_nat sizeof_dinode) 0)) ;;;
          update (c_buf bp @ c_b_data) (put16 o type) ;;;
          log_write bp ;;;
          brelse bp ;;;
          iget dev inum
        else brelse bp ;;; ialloc_from n dev (inum + 1) type
      else panic "ialloc: no inodes"
  end.

Definition ialloc (dev type : Z) : K nat :=
  s <- load c_sb ;;
  ialloc_from (Z.to_nat (sb_ninodes s) + 1) dev 1 type.

(** The fields of an inode that live on the disk. *)
Definition disk_fields (r : inode) : dinode :=
  mkDinode (i_type r) (i_major r) (i_minor r) (i_nlink r) (i_size r) (i_addrs r).

Definition iupdate (ip : nat) : K unit :=
  r <- load (c_inode ip) ;; s <- load c_sb ;;
  bp <- bread fuel (i_dev r) (IBLOCK (i_inum r) s) ;;
  r <- load (c_inode ip) ;;
  update (c_buf bp @ c_b_data) (put_dinode (dinode_off (i_inum r)) (disk_fields r)) ;;;
  log_write bp ;;;
  brelse bp.

Definition ilock (p : option nat) : K unit :=
  match p with
  | None => panic "ilock"
  | Some ip =>
      n <- load (c_inode ip @ c_i_ref) ;;
      if n <? 1 then panic "ilock" else
      acquiresleep fuel (c_inode ip @ c_i_lock) (inodelock_chan ip) ;;;
      v <- load (c_inode ip @ c_i_valid) ;;
      when (v =? 0)
        (r <- load (c_inode ip) ;; s <- load c_sb ;;
         bp <- bread fuel (i_dev r) (IBLOCK (i_inum r) s) ;;
         d <- load (c_buf bp @ c_b_data) ;;
         let di := get_dinode (dinode_off (i_inum r)) d in
         store (c_inode ip @ c_i_type) (di_type di) ;;;
         store (c_inode ip @ c_i_major) (di_major di) ;;;
         store (c_inode ip @ c_i_minor) (di_minor di) ;;;
         store (c_inode ip @ c_i_nlink) (di_nlink di) ;;;
         store (c_inode ip @ c_i_size) (di_size di) ;;;
         store (c_inode ip @ c_i_addrs) (di_addrs di) ;;;
         brelse bp ;;;
         store (c_inode ip @ c_i_valid) 1 ;;;
         t <- load (c_inode ip @ c_i_type) ;;
         if t =? 0 then panic "ilock: no type" else ret tt)
  end.

Definition iunlock (p : option nat) : K unit :=
  match p with
  | None => panic "iunlock"
  | Some ip =>
      h <- holdingsleep (c_inode ip @ c_i_lock) ;;
      if negb h then panic "iunlock" else
      n <- load (c_inode ip @ c_i_ref) ;;
      if n <? 1 then panic "iunlock" else
      releasesleep (c_inode ip @ c_i_lock) (inodelock_chan ip)
  end.

(** One entry of [ip->addrs]. *)
Definition c_addr (ip : nat) (i : Z) : cell sys Z := c_inode ip @ c_i_addrs @ elem (Z.to_nat i).

(** [for(i = 0; i < NDIRECT; i++)] of [itrunc] *)
Definition trunc_direct (ip : nat) (i : Z) : K unit :=
  a <- load (c_addr ip i) ;;
  when (negb (a =? 0))
    (dev <- load (c_inode ip @ c_i_dev) ;;
     bfree (i32 dev) a ;;;
     store (c_addr ip i) 0).

(** [for(j = 0; j < NINDIRECT; j++)] of [itrunc] *)
Definition trunc_indirect (ip bp : nat) (j : nat) : K unit :=
  d <- load (c_buf bp @ c_b_data) ;;
  let a := get32 (4 * j) d in
  when (negb (a =? 0)) (dev <- load (c_inode ip @ c_i_dev) ;; bfree (i32 dev) a).

Definition itrunc (ip : nat) : K unit :=
  for_each (seq 0 (Z.to_nat NDIRECT)) (fun i => trunc_direct ip (Z.of_nat i)) ;;;
  a <- load (c_addr ip NDIRECT) ;;
  when (negb (a =? 0))
    (dev <- load (c_inode ip @ c_i_dev) ;;
     bp <- bread fuel dev a ;;
     for_each (seq 0 (Z.to_nat NINDIRECT)) (trunc_indirect ip bp) ;;;
     brelse bp ;;;
     dev <- load (c_inode ip @ c_i_dev) ;; a <- load (c_addr ip NDIRECT) ;;
     bfree (i32 dev) a ;;;
     store (c_addr ip NDIRECT) 0) ;;;
  store (c_inode ip @ c_i_size) 0 ;;;
  iupdate ip.

Definition iput (ip : nat) : K unit :=
  acquiresleep fuel (c_inode ip @ c_i_lock) (inodelock_chan ip) ;;;
  r <- load (c_inode ip) ;;
  when (negb (i_valid r =? 0) && (i_nlink r =? 0))
    (acquire icache_lock ;;;
     n <- load (c_inode ip @ c_i_ref) ;;
     release icache_lock ;;;
     when (n =? 1)
       (itrunc ip ;;;
        store (c_inode ip @ c_i_type) 0 ;;;
        iupdate ip ;;;
        store (c_inode ip @ c_i_valid) 0)) ;;;
  releasesleep (c_inode ip @ c_i_lock) (inodelock_chan ip) ;;;
  acquire icache_lock ;;;
  update (c_inode ip @ c_i_ref) (fun n => i32 (n - 1)) ;;;
  release icache_lock.

Definition iunlockput (ip : nat) : K unit := iunlock (Some ip) ;;; iput ip.

(** [if((addr = ip->addrs[i]) == 0) ip->addrs[i] = addr = balloc(ip->dev)] *)
Definition addr_alloc (ip : nat) (i : Z) : K Z :=
  a <- load (c_addr ip i) ;;
  if a =? 0 then
    dev <- load (c_inode ip @ c_i_dev) ;;
    a <- balloc dev ;;
    store (c_addr ip i) a ;;;
    ret a
  else ret a.

Definition bmap (ip : nat) (bn : Z) : K Z :=
  if bn <? NDIRECT then addr_alloc ip bn
  else
    let bn := bn - NDIRECT in
    if bn <? NINDIRECT then
      addr <- addr_alloc ip NDIRECT ;;
      dev <- load (c_inode ip @ c_i_dev) ;;
      bp <- bread fuel dev addr ;;
      d <- load (c_buf bp @ c_b_data) ;;
      let a := get32 (Z.to_nat (4 * bn)) d in
      r <- (if a =? 0 then
              dev <- load (c_inode ip @ c_i_dev) ;;
              a <- balloc dev ;;
              update (c_buf bp @ c_b_data) (put32 (Z.to_nat (4 * bn)) a) ;;;
              log_write bp ;;;
              ret a
            else ret a) ;;
      brelse bp ;;;
      ret r
    else panic "bmap: out of range".

Definition stati (ip : nat) : K stat :=
  r <- load (c_inode ip) ;;
  ret (mkStat (i_type r) (i_dev r) (i_inum r) (i_nlink r) (i_size r)).

(** [min(n - tot, BSIZE - off%BSIZE)] *)
Definition chunk (off tot n : Z) : Z := Z.min (n - tot) (BSIZE - off mod BSIZE).

Fixpoint readi_loop (k : nat) (ip : nat) (off tot n : Z) (dst : list Z) : K (list Z) :=
  match k with
  | O => fuel_out
  | Datatypes.S k =>
      if tot <? n then
        dev <- load (c_inode ip @ c_i_dev) ;;
        b <- bmap ip (off / BSIZE) ;;
        bp <- bread fuel dev b ;;
        let m := chunk off tot n in
        d <- load (c_buf bp @ c_b_data) ;;
        let dst := dst ++ slice (Z.to_nat (off mod BSIZE)) (Z.to_nat m) d in
        brelse bp ;;;
        readi_loop k ip (off + m) (tot + m) n dst
      else ret dst
  end.

(** The number of rounds [n] bytes can take. *)
Definition io_rounds (n : Z) : nat := Z.to_nat (n / BSIZE + 3).

Definition readi (ip : nat) (off n : Z) : K (Z * list Z) :=
  r <- load (c_inode ip) ;;
  if i_type r =? T_DEV then
    if (i_major r <? 0) || (NDEV <=? i_major r) then ret (-1, []) else
    match dev_read (i_major r) with
    | None => ret (-1, [])
    | Some rd => rd ip (i32 n)
    end
  else if (i_size r <? off) || (u32 (off + n) <? off) then ret (-1, [])
  else
    let n := if i_size r <? u32 (off + n) then u32 (i_size r - off) else n in
    dst <- readi_loop (io_rounds n) ip off 0 n [] ;;
    ret (i32 n, dst).

Fixpoint writei_loop (k : nat) (ip : nat) (src : list Z) (off tot n : Z) : K Z :=
  match k with
  | O => fuel_out
  | Datatypes.S k =>
      if tot <? n then
        dev <- load (c_inode ip @ c_i_dev) ;;
        b <- bmap ip (off / BSIZE) ;;
        bp <- bread fuel dev b ;;
        let m := chunk off tot n in
        update (c_buf bp @ c_b_data) (splice (Z.to_nat (off mod BSIZE)) (take (Z.to_nat m) src)) ;;;
        log_write bp ;;;
        brelse bp ;;;
        writei_loop k ip (drop (Z.to_nat m) src) (off + m) (tot + m) n
      else ret off
  end.

Definition writei (ip : nat) (src : list Z) (off n : Z) : K Z :=
  r <- load (c_inode ip) ;;
  if i_type r =? T_DEV then
    if (i_major r <? 0) || (NDEV <=? i_major r) then ret (-1) else
    match dev_write (i_major r) with
    | None => ret (-1)
    | Some wr => wr ip src (i32 n)
    end
  else if (i_size r <? off) || (u32 (off + n) <? off) then ret (-1)
  else if MAXFILE * BSIZE <? u32 (off + n) then ret (-1)
  else
    off <- writei_loop (io_rounds n) ip src off 0 n ;;
    r <- load (c_inode ip) ;;
    when ((0 <? n) && (i_size r <? off)) (store (c_inode ip @ c_i_size) off ;;; iupdate ip) ;;;
    ret (i32 n).

(** *** Directories *)

Definition de_inum (de : list Z) : Z := get16 0 de.
Definition de_name (de : list Z) : list Z := slice 2 DIRSIZ de.

Fixpoint dirlookup_from (k : nat) (dp : nat) (name : list Z) (off : Z) : K (option (nat * Z)) :=
  match k with
  | O => fuel_out
  | Datatypes.S k =>
      size <- load (c_inode dp @ c_i_size) ;;
      if off <? size then
        de <- readi dp off sizeof_dirent ;;
        if negb (fst de =? sizeof_dirent) then panic "dirlookup read" else
        let de := snd de in
        if de_inum de =? 0 then dirlookup_from k dp name (off + sizeof_dirent) else
        if namecmp name (de_name de) =? 0 then
          dev <- load (c_inode dp @ c_i_dev) ;;
          ip <- iget dev (de_inum de) ;;
          ret (Some (ip, off))
        else dirlookup_from k dp name (off + sizeof_dirent)
      else ret None
  end.

(** The number of entries a directory of [size] bytes can have. *)
Definition dir_rounds (size : Z) : nat := Z.to_nat (size / sizeof_dirent + 2).

(** The inode of the entry, and the offset [poff] would be set to. *)
Definition dirlookup (dp : nat) (name : list Z) : K (option (nat * Z)) :=
  r <- load (c_inode dp) ;;
  if negb (i_type r =? T_DIR) then panic "dirlookup not DIR" else
  dirlookup_from (dir_rounds (i_size r)) dp name 0.

(** The offset of the first free entry. *)
Fixpoint dirlink_slot (k : nat) (dp : nat) (off : Z) : K Z :=
  match k with
  | O => fuel_out
  | Datatypes.S k =>
      size <- load (c_inode dp @ c_i_size) ;;
      if off <? size then
        de <- readi dp off sizeof_dirent ;;
        if negb (fst de =? sizeof_dirent) then panic "dirlink read" else
        if de_inum (snd de) =? 0 then ret off else dirlink_slot k dp (off + sizeof_dirent)
      else ret off
  end.

Definition dirent_bytes (name : list Z) (inum : Z) : list Z := le_bytes 2 inum ++ padded_name name.

Definition dirlink (dp : nat) (name : list Z) (inum : Z) : K Z :=
  e <- dirlookup dp name ;;
  match e with
  | Some (ip, _) => iput ip ;;; ret (-1)
  | None =>
      r <- load (c_inode dp) ;;
      off <- dirlink_slot (dir_rounds (i_size r)) dp 0 ;;
      n <- writei dp (dirent_bytes name inum) off sizeof_dirent ;;
      if negb (n =? sizeof_dirent) then panic "dirlink" else ret 0
  end.

(** *** Paths *)

(** The loop of [namex] from the inode [ip]. *)
Fixpoint namex_from (k : nat) (ip : nat) (path : list Z) (nameiparent : bool) (name : list Z) : K (option (nat * list Z)) :=
  match k with
  | O => fuel_out
  | Datatypes.S k =>
      match skipelem path with
      | None => if nameiparent then iput ip ;;; ret None else ret (Some (ip, name))
      | Some (path, name) =>
          ilock (Some ip) ;;;
          t <- load (c_inode ip @ c_i_type) ;;
          if negb (t =? T_DIR) then iunlockput ip ;;; ret None
          else if nameiparent && bool_decide (path = []) then iunlock (Some ip) ;;; ret (Some (ip, name))
          else
            next <- dirlookup ip name ;;
            match next with
            | None => iunlockput ip ;;; ret None
            | Some (next, _) => iunlockput ip ;;; namex_from k next path nameiparent name
            end
      end
  end.

Definition namex (path : list Z) (nameiparent : bool) : K (option (nat * list Z)) :=
  ip <- (if hd 0 path =? 47 then iget ROOTDEV ROOTINO
         else c <- load (c_self @ c_t_cwd) ;; match c with Some c => idup c | None => fun _ => Fault end) ;;
  namex_from (length path + 1) ip path nameiparent [].

Definition namei (path : list Z) : K (option nat) :=
  r <- namex path false ;; ret (fst <$> r).

Definition nameiparent (path : list Z) : K (option (nat * list Z)) := namex path true.

End Ops.
