(* ===== verification/FsTx.v ===== *)
(** * File system calls as transactions

    Between [begin_op] and [end_op] the blocks a call changes are pinned in the cache
    and recorded in the log.  [Tx] describes the storage stack at that level: the
    blocks [L] are logged, block [n] reads as [f n], and every other block reads as it
    is on the disk. *)

From stdpp Require Import base tactics list sets strings gmap.
From Stdlib Require Import ZArith Lia.
From S2P Require Import Prelude Params StringC Spinlock ProcState Comp SysState Words Solo Sleeplock Bio Log.
Open Scope Z_scope.

(** A variable apart from the cache, the disk and the log. *)
Class Other {Y : Type} (c : cell sys Y) := {
  other_rest :: Rest c;
  other_get : forall l y, cget c (set_log l y) = cget c y;
  other_set : forall v l y, cset c v (set_log l y) = set_log l (cset c v y)
}.

#[global] Instance other_inside {Y Z : Type} (c : cell sys Y) (d : cell Y Z) : Other c -> Other (c @ d).
Proof.
  intros [H1 H2 H3]. constructor; [apply _| |]; simpl; intros.
  - by rewrite H2.
  - rewrite H2. destruct (cget c y); [apply H3|done].
Qed.

#[global] Instance other_sb : Other c_sb.
Proof. constructor; [apply _|done|done]. Qed.
#[global] Instance other_ic_lock : Other c_ic_lock.
Proof. constructor; [apply _|done|done]. Qed.
#[global] Instance other_inodes : Other c_inodes.
Proof. constructor; [apply _|done|done]. Qed.
#[global] Instance other_ft_lock : Other c_ft_lock.
Proof. constructor; [apply _|done|done]. Qed.
#[global] Instance other_files : Other c_files.
Proof. constructor; [apply _|done|done]. Qed.

Section Facts.
Context {S : Type} `{PL : ProcsLaws sys S} (fuel : nat) (pid : Z).
Context (start N : Z).
Implicit Types (hb : list (nat * Z)) (L : list Z) (U : option Z) (f g : Z -> list Z) (m : memdisk) (y x : sys).
Abbreviation does := (does (X := sys) (S := S) pid).
Abbreviation home := (home start N).

(** A system call holds the blocks [hb] and has logged the blocks [L]; [U] is a held
    block it has changed and not logged yet. *)
Record Tx hb L U f m y x : Prop := {
  tx_state : exists l, log_at start N 1 L l /\ Bc pid hb L f m (set_log l y) x;
  tx_nodup : NoDup L;
  tx_home : Forall (home m) L;
  tx_clean : forall n, 0 <= n < md_size m -> n ∉ L -> U <> Some n -> f n = block_in m n
}.

(** The log has room for [k] more blocks. *)
Definition budget (k : nat) L : Prop :=
  (length L + k <= LOGSIZE - 1)%nat /\ Z.of_nat (length L) + Z.of_nat k <= N - 1.

Lemma budget_le k k' L L' : budget k L -> (length L' + k' <= length L + k)%nat -> budget k' L'.
Proof. unfold budget. lia. Qed.

Lemma log_add_length n L : (length (log_add n L) <= length L + 1)%nat.
Proof. unfold log_add. destruct (decide (n ∈ L)); rewrite ?length_app; simpl; lia. Qed.

Lemma budget_add k n L : budget (Datatypes.S k) L -> budget k (log_add n L).
Proof. intros Hb. apply (budget_le _ _ _ _ Hb). pose proof (log_add_length n L). lia. Qed.

Lemma log_add_elem k n L : k ∈ log_add n L <-> k = n \/ k ∈ L.
Proof. unfold log_add. destruct (decide (n ∈ L)); set_solver. Qed.

(** The log fits the cache: there is a buffer for what a call reads. *)
Lemma budget_room k L hb n : budget k L -> (length hb <= k)%nat -> n ∈ L \/ (length L + length hb < NBUF)%nat.
Proof. unfold budget, LOGSIZE, NBUF. lia. Qed.

Lemma tx_bread k hb L U f m y n : 0 <= n < md_size m -> n ∉ hb.*2 -> budget k L -> (length hb <= k)%nat ->
  does 0 (Tx hb L U f m y) (bread fuel 1 n) 0 (fun b x => Tx ((b, n) :: hb) L U f m y x).
Proof.
  intros Hn Hnh Hb Hk x [(l & Hl & Hv) H2 H3 H4].
  destruct (bread_does fuel pid hb L f m (set_log l y) n Hn Hnh) with (x := x) as (b & x' & Hr & Hv'); [|done|].
  - by eapply budget_room.
  - exists b, x'. split; [done|]. constructor; try done. by exists l.
Qed.

Lemma tx_data k hb L U f m y b n : (b, n) ∈ hb ->
  does k (Tx hb L U f m y) (load (c_buf b @ c_b_data)) k (fun d x => d = f n /\ Tx hb L U f m y x).
Proof.
  intros Hin x [(l & Hl & Hv) H2 H3 H4].
  destruct (data_load pid k hb L f m (set_log l y) b n Hin x Hv) as (d & x' & Hr & -> & Hv').
  exists (f n), x'. split; [done|]. split; [done|]. constructor; try done. by exists l.
Qed.

Lemma tx_update hb L U f m y b n (h : list Z -> list Z) : (b, n) ∈ hb -> U = None \/ U = Some n ->
  does 0 (Tx hb L U f m y) (update (c_buf b @ c_b_data) h) 0 (fun _ x => Tx hb L (Some n) (bset n (h (f n)) f) m y x).
Proof.
  intros Hin HU x [(l & Hl & Hv) H2 H3 H4].
  destruct (data_update pid hb L f m (set_log l y) b n h Hin x Hv) as ([] & x' & Hr & Hv').
  exists tt, x'. split; [done|]. constructor; try done; [by exists l|].
  intros k Hk HkL Hne. rewrite bset_ne by congruence. apply H4; [done|done|]. destruct HU as [->| ->]; [done|done].
Qed.

Lemma tx_store hb L U f m y b n d : (b, n) ∈ hb -> U = None \/ U = Some n ->
  does 0 (Tx hb L U f m y) (store (c_buf b @ c_b_data) d) 0 (fun _ x => Tx hb L (Some n) (bset n d f) m y x).
Proof. intros Hin HU. apply (tx_update hb L U f m y b n (fun _ => d) Hin HU). Qed.

Lemma tx_log_write k hb L U f m y b n : geo start N m -> (b, n) ∈ hb -> home m n -> budget (Datatypes.S k) L ->
  U = None \/ U = Some n ->
  does 0 (Tx hb L U f m y) (log_write b) 0 (fun _ x => Tx hb (log_add n L) None f m y x).
Proof.
  intros (G1 & G2 & G3 & G4) Hin Hn Hb HU x [(l & Hl & Hv) H2 H3 H4]. destruct (Hn) as [Hnr _].
  unfold budget, LOGSIZE in Hb.
  destruct (log_write_does pid start N hb L (log_add n L) f m l L 1 y b n Hl) with (x := x) as ([] & x' & Hr & Hv');
    try done; try (unfold LOGSIZE; lia).
  - apply (Forall_impl _ _ _ H3). intros k' [? _]. lia.
  - intros k'. apply log_add_elem.
  - exists tt, x'. split; [done|]. constructor.
    + exists (logst_add n L l). split; [|done]. apply log_add_at; [done|unfold LOGSIZE; lia].
    + unfold log_add. destruct (decide (n ∈ L)); [done|]. apply NoDup_app. split; [done|].
      split; [set_solver|apply NoDup_singleton].
    + unfold log_add. destruct (decide (n ∈ L)); [done|]. apply Forall_app. split; [done|by constructor].
    + intros k' Hk HkL _. rewrite log_add_elem in HkL. apply H4; [done|tauto|]. destruct HU as [->| ->]; [done|]. intros [= ->]. tauto.
Qed.

Lemma tx_brelse hb L U f m y b n : 0 <= n < md_size m -> U <> Some n ->
  does 0 (Tx ((b, n) :: hb) L U f m y) (brelse b) 0 (fun _ x => Tx hb L U f m y x).
Proof.
  intros Hn HU x [(l & Hl & Hv) H2 H3 H4].
  destruct (brelse_does pid hb L f m (set_log l y) b n) with (x := x) as ([] & x' & Hr & Hv'); [|done|].
  - destruct (decide (n ∈ L)) as [|HnL]; [by left|right; by apply H4].
  - exists tt, x'. split; [done|]. constructor; try done. by exists l.
Qed.

Lemma tx_load {Y : Type} k (c : cell sys Y) `{!Other c} hb L U f m y v : cget c y = Some v ->
  does k (Tx hb L U f m y) (load c) k (fun a x => a = v /\ Tx hb L U f m y x).
Proof.
  intros Hc x [(l & Hl & Hv) H2 H3 H4].
  destruct (rest_load pid k c hb L f m (set_log l y) v) with (x := x) as (a & x' & Hr & -> & Hv');
    [by rewrite other_get|done|].
  exists v, x'. split; [done|]. split; [done|]. constructor; try done. by exists l.
Qed.

Lemma tx_set {Y : Type} (c : cell sys Y) `{!Other c} hb L U f m y x v : Tx hb L U f m y x ->
  Tx hb L U f m (cset c v y) (cset c v x).
Proof.
  intros [(l & Hl & Hv) H2 H3 H4]. constructor; try done. exists l. split; [done|]. rewrite <- other_set. by apply (Bc_set pid c).
Qed.

Lemma tx_get {Y : Type} (c : cell sys Y) `{!Other c} hb L U f m y x : Tx hb L U f m y x -> cget c x = cget c y.
Proof. intros [(l & Hl & Hv) _ _ _]. by rewrite (Bc_get pid c _ _ _ _ _ _ Hv), other_get. Qed.

Lemma tx_put {Y : Type} k (c : cell sys Y) `{!Other c} hb L U f m y v v0 : cget c y = Some v0 ->
  does k (Tx hb L U f m y) (store c v) k (fun _ x => Tx hb L U f m (cset c v y) x).
Proof.
  intros Hc. apply does_store. intros x Hx. rewrite (tx_get c _ _ _ _ _ _ _ Hx), Hc. split; [by eexists|by apply tx_set].
Qed.

Lemma tx_upd {Y : Type} k (c : cell sys Y) `{!Other c} hb L U f m y h v : cget c y = Some v ->
  does k (Tx hb L U f m y) (update c h) k (fun _ x => Tx hb L U f m (cset c (h v) y) x).
Proof.
  intros Hc x Hx. exists tt, (cset c (h v) x). split; [|by apply tx_set]. apply runs_update.
  by rewrite (tx_get c _ _ _ _ _ _ _ Hx).
Qed.

Lemma tx_acquire k (c : cell sys spinlock) `{!Other c} `{!CellLaws c} hb L U f m y lk :
  cget c y = Some lk -> free_lock lk -> shallow k ->
  does k (Tx hb L U f m y) (acquire (spin_of c)) (k + 1) (fun _ x => Tx hb L U f m (cset c (locked_by0 lk) y) x).
Proof.
  intros Hc Hf Hk x Hx. exists tt, (cset c (locked_by0 lk) x). split; [|by apply tx_set].
  apply runs_acquire; [done| |done|done]. by rewrite (tx_get c _ _ _ _ _ _ _ Hx).
Qed.

Lemma tx_release k (c : cell sys spinlock) `{!Other c} `{!CellLaws c} hb L U f m y lk :
  cget c y = Some (locked_by0 lk) -> free_lock lk -> shallow k -> 0 < k ->
  does k (Tx hb L U f m y) (release (spin_of c)) (k - 1) (fun _ x => Tx hb L U f m (cset c lk y) x).
Proof.
  intros Hc Hf Hk Hp x Hx. exists tt, (cset c lk x). split; [|by apply tx_set].
  rewrite <- (free_unlocked lk Hf). apply (runs_release pid k c x (locked_by0 lk)); [|done|done|done].
  by rewrite (tx_get c _ _ _ _ _ _ _ Hx).
Qed.

(** Contents that agree on the disk are the same. *)
Lemma tx_ext hb L U f g m y x : (forall n, 0 <= n < md_size m -> f n = g n) -> Tx hb L U f m y x -> Tx hb L U g m y x.
Proof.
  intros Hfg [(l & Hl & Hv) H2 H3 H4]. constructor; try done.
  - exists l. split; [done|]. by eapply Bc_ext.
  - intros n Hn HnL HU. rewrite <- Hfg by done. by apply H4.
Qed.

End Facts.
