(* ===== verification/FsBlocks.v ===== *)
(** * Allocation of disk blocks (fs.c: bzero, balloc, bfree)

    The bitmap as a set of blocks in use: [balloc] takes the first block that is not in
    it and zeroes it, [bfree] takes a block out. *)

From stdpp Require Import base tactics list sets strings gmap.
From Stdlib Require Import ZArith Lia.
From S2P Require Import Prelude Params StringC Spinlock ProcState Comp SysState Words Solo Sleeplock Bio Log Fs FsTx.
Open Scope Z_scope.

(** ** Bits *)

Lemma testbit_mask j i : 0 <= j -> 0 <= i -> Z.testbit (Z.shiftl 1 j) i = (i =? j).
Proof.
  intros Hj Hi. rewrite Z.shiftl_spec by lia. destruct (Z.eqb_spec i j) as [->|]; [by rewrite Z.sub_diag|].
  destruct (Z.lt_ge_cases (i - j) 0); [by rewrite Z.testbit_neg_r|].
  apply Z.bits_above_log2; [lia|simpl; lia].
Qed.

Lemma bit_set_testbit bi d : 0 <= bi -> bit_set bi d = Z.testbit (byte_of (bit_byte bi) d) (bi mod 8).
Proof. intros. unfold bit_set, bit_mask. apply land_bit. pose proof (Z.mod_pos_bound bi 8). lia. Qed.

Lemma byte_of_insert i j v d : (j < length d)%nat -> byte_of i (<[j := v]> d) = if decide (i = j) then v else byte_of i d.
Proof.
  intros Hj. unfold byte_of. rewrite !nth_lookup. destruct (decide (i = j)) as [->|].
  - by rewrite list_lookup_insert_eq.
  - by rewrite list_lookup_insert_ne.
Qed.

(** Two blocks have the same bit if and only if they are the same. *)
Lemma same_bit j k : 0 <= j -> 0 <= k -> bit_byte k = bit_byte j -> k mod 8 = j mod 8 -> k = j.
Proof.
  intros Hj Hk Hb Hm. unfold bit_byte in Hb. pose proof (Z.div_mod j 8). pose proof (Z.div_mod k 8).
  pose proof (Z.div_pos j 8). pose proof (Z.div_pos k 8). lia.
Qed.

Section Bits.
Context (d : list Z) (Hd : length d = 512%nat).

Lemma bit_byte_lt k : 0 <= k < BPB -> (bit_byte k < 512)%nat.
Proof. unfold bit_byte, BPB, BSIZE. intros. assert (k / 8 < 512) by (apply Z.div_lt_upper_bound; lia). lia. Qed.

Lemma bit_set_set j k : 0 <= j < BPB -> 0 <= k < BPB -> bit_set k (set_bit j d) = (k =? j) || bit_set k d.
Proof using Hd.
  intros Hj Hk. rewrite !bit_set_testbit by lia. unfold set_bit.
  rewrite byte_of_insert by (rewrite Hd; by apply bit_byte_lt).
  pose proof (Z.mod_pos_bound j 8). pose proof (Z.mod_pos_bound k 8).
  destruct (decide (bit_byte k = bit_byte j)) as [E|E].
  - unfold bit_mask. rewrite Z.lor_spec, testbit_mask, E, orb_comm by lia. f_equal.
    destruct (Z.eqb_spec (k mod 8) (j mod 8)) as [Em|], (Z.eqb_spec k j) as [Ek|]; try done.
    + by destruct (same_bit j k) as []; try lia.
    + congruence.
  - destruct (Z.eqb_spec k j) as [->|]; done.
Qed.

Lemma bit_set_clear j k : 0 <= j < BPB -> 0 <= k < BPB -> bit_set k (clear_bit j d) = negb (k =? j) && bit_set k d.
Proof using Hd.
  intros Hj Hk. rewrite !bit_set_testbit by lia. unfold clear_bit.
  rewrite byte_of_insert by (rewrite Hd; by apply bit_byte_lt).
  pose proof (Z.mod_pos_bound j 8). pose proof (Z.mod_pos_bound k 8).
  destruct (decide (bit_byte k = bit_byte j)) as [E|E].
  - unfold bit_mask. rewrite Z.land_spec, Z.lnot_spec, testbit_mask, E, andb_comm by lia. f_equal. f_equal.
    destruct (Z.eqb_spec (k mod 8) (j mod 8)) as [Em|], (Z.eqb_spec k j) as [Ek|]; try done.
    + by destruct (same_bit j k) as []; try lia.
    + congruence.
  - destruct (Z.eqb_spec k j) as [->|]; done.
Qed.

Lemma length_set_bit j : length (set_bit j d) = 512%nat.
Proof using Hd. unfold set_bit. by rewrite length_insert. Qed.

Lemma length_clear_bit j : length (clear_bit j d) = 512%nat.
Proof using Hd. unfold clear_bit. by rewrite length_insert. Qed.

End Bits.

(** [scan_bits] finds the first clear bit. *)
Lemma scan_bits_Some n b size d : forall bi j, scan_bits n b bi size d = Some j ->
  bi <= j < BPB /\ b + j < size /\ bit_set j d = false /\ forall k, bi <= k < j -> bit_set k d = true.
Proof.
  induction n as [|n IH]; intros bi j Hs; [done|]. cbn [scan_bits] in Hs.
  destruct (Z.ltb_spec bi BPB), (Z.ltb_spec (b + bi) size); try done. cbn [andb] in Hs.
  destruct (bit_set bi d) eqn:E.
  - apply IH in Hs as (H1 & H2 & H3 & H4). split; [lia|]. split; [done|]. split; [done|].
    intros k Hk. destruct (decide (k = bi)) as [->|]; [done|]. apply H4. lia.
  - injection Hs as <-. split; [lia|]. split; [done|]. split; [done|]. lia.
Qed.

Lemma scan_bits_None n b size d : forall bi, scan_bits n b bi size d = None -> BPB - bi <= Z.of_nat n ->
  forall k, bi <= k < BPB -> b + k < size -> bit_set k d = true.
Proof.
  induction n as [|n IH]; intros bi Hs Hn k Hk Hb; [lia|]. cbn [scan_bits] in Hs.
  destruct (Z.ltb_spec bi BPB), (Z.ltb_spec (b + bi) size); try lia. cbn [andb] in Hs.
  destruct (bit_set bi d) eqn:E; [|done]. destruct (decide (k = bi)) as [->|]; [done|]. apply (IH (bi + 1)); [done|lia|lia|done].
Qed.

(** ** The layout of the disk *)

Section Layout.
Context (start N : Z) (s : superblock) (dstart : Z).
Implicit Types (f : Z -> list Z) (m : memdisk).

(** The parts of the disk in their order: log, inodes, bitmap, data. *)
Record layout m : Prop := {
  ly_geo : geo start N m;
  ly_log : start + N <= sb_inodestart s;
  ly_inodes : 0 < sb_ninodes s /\ sb_inodestart s + (sb_ninodes s - 1) / IPB + 1 <= sb_bmapstart s;
  ly_bitmap : sb_bmapstart s + (sb_size s - 1) / BPB + 1 <= dstart;
  ly_data : 0 < sb_size s /\ dstart <= sb_size s <= md_size m;
  ly_nlog : 0 <= N
}.

(** The block of the bitmap that has the bit of block [b]. *)
Definition bmap_block (b : Z) : Z := sb_bmapstart s + b / BPB.
Definition is_bmap (n : Z) : Prop := sb_bmapstart s <= n < dstart.
Definition is_data (n : Z) : Prop := dstart <= n < sb_size s.

(** Block [b] is in use. *)
Definition used f (b : Z) : bool := bit_set (b mod BPB) (f (bmap_block b)).

(** Contents of a disk: whole blocks, with everything below the data marked. *)
Record disk_wf m f : Prop := {
  wf_len : forall n, 0 <= n < md_size m -> length (f n) = 512%nat;
  wf_meta : forall n, 0 <= n < dstart -> used f n = true
}.

Section Geometry.
Context (m : memdisk) (Hly : layout m).

Lemma bmap_block_range b : 0 <= b < sb_size s -> is_bmap (bmap_block b).
Proof using Hly.
  intros Hb. pose proof (ly_bitmap _ Hly). unfold is_bmap, bmap_block.
  assert (0 <= b / BPB) by (apply Z.div_pos; unfold BPB, BSIZE; lia).
  assert (b / BPB <= (sb_size s - 1) / BPB) by (apply Z.div_le_mono; unfold BPB, BSIZE; lia). lia.
Qed.

Lemma inode_start_pos : start + N <= sb_bmapstart s.
Proof using Hly.
  destruct (ly_inodes _ Hly) as [H1 H2]. pose proof (ly_log _ Hly).
  assert (0 <= (sb_ninodes s - 1) / IPB) by (apply Z.div_pos; [lia|reflexivity]). lia.
Qed.

Lemma home_bmap n : is_bmap n -> home start N m n.
Proof using Hly.
  intros [H1 H2]. pose proof inode_start_pos. destruct (ly_geo _ Hly) as (G1 & _). destruct (ly_data _ Hly) as (? & ? & ?).
  pose proof (ly_nlog _ Hly). unfold home, in_log. lia.
Qed.

Lemma home_data n : is_data n -> home start N m n.
Proof using Hly.
  intros [H1 H2]. pose proof inode_start_pos. destruct (ly_geo _ Hly) as (G1 & _). destruct (ly_data _ Hly) as (? & ? & ?).
  pose proof (ly_nlog _ Hly). pose proof (ly_bitmap _ Hly).
  assert (0 <= (sb_size s - 1) / BPB) by (apply Z.div_pos; unfold BPB, BSIZE; lia). unfold home, in_log. lia.
Qed.

Lemma BBLOCK_eq b : 0 <= b < sb_size s -> BBLOCK b s = bmap_block b.
Proof using Hly.
  intros Hb. pose proof (bmap_block_range b Hb) as [H1 H2]. unfold BBLOCK. rewrite Z.add_comm. apply u32_id.
  destruct (ly_geo _ Hly) as (G1 & _ & G3 & _). destruct (ly_data _ Hly) as (? & ? & ?). pose proof inode_start_pos.
  pose proof (ly_nlog _ Hly). unfold bmap_block in *. lia.
Qed.

Lemma bmap_block_inj b k : b / BPB = k / BPB <-> bmap_block b = bmap_block k.
Proof. unfold bmap_block. lia. Qed.

Lemma not_data_bmap n : is_data n -> ~ is_bmap n.
Proof. unfold is_data, is_bmap. lia. Qed.

(** A block that is free is a data block. *)
Lemma free_is_data f b : disk_wf m f -> 0 <= b < sb_size s -> used f b = false -> is_data b.
Proof.
  intros Hwf Hb Hu. unfold is_data. destruct (Z.lt_ge_cases b dstart); [|lia].
  rewrite (wf_meta _ _ Hwf) in Hu by lia. done.
Qed.

(** *** Marking blocks *)

Definition mark (b : Z) f : Z -> list Z := bset (bmap_block b) (set_bit (b mod BPB) (f (bmap_block b))) f.
Definition unmark (b : Z) f : Z -> list Z := bset (bmap_block b) (clear_bit (b mod BPB) (f (bmap_block b))) f.

Lemma mod_BPB b : 0 <= b mod BPB < BPB.
Proof. apply Z.mod_pos_bound. unfold BPB, BSIZE. lia. Qed.

Lemma range_bmap b : 0 <= b < sb_size s -> 0 <= bmap_block b < md_size m.
Proof using Hly. intros Hb. destruct (home_bmap _ (bmap_block_range b Hb)) as [? _]. lia. Qed.

Lemma same_block b k : bmap_block b = bmap_block k -> b mod BPB = k mod BPB -> b = k.
Proof.
  intros H1%bmap_block_inj H2. pose proof (Z.div_mod b BPB). pose proof (Z.div_mod k BPB).
  unfold BPB, BSIZE in *. lia.
Qed.

Lemma used_mark f b k : disk_wf m f -> 0 <= b < sb_size s -> 0 <= k < sb_size s ->
  used (mark b f) k = (k =? b) || used f k.
Proof using Hly.
  intros Hwf Hb Hk. unfold used, mark, bset. destruct (Z.eqb_spec (bmap_block k) (bmap_block b)) as [E|E].
  - rewrite bit_set_set; [|by apply (wf_len _ _ Hwf), range_bmap|apply mod_BPB|apply mod_BPB]. rewrite E. f_equal.
    destruct (Z.eqb_spec (k mod BPB) (b mod BPB)), (Z.eqb_spec k b) as [->|]; try done. by destruct (same_block k b).
  - destruct (Z.eqb_spec k b) as [->|]; done.
Qed.

Lemma used_unmark f b k : disk_wf m f -> 0 <= b < sb_size s -> 0 <= k < sb_size s ->
  used (unmark b f) k = negb (k =? b) && used f k.
Proof using Hly.
  intros Hwf Hb Hk. unfold used, unmark, bset. destruct (Z.eqb_spec (bmap_block k) (bmap_block b)) as [E|E].
  - rewrite bit_set_clear; [|by apply (wf_len _ _ Hwf), range_bmap|apply mod_BPB|apply mod_BPB]. rewrite E. f_equal.
    destruct (Z.eqb_spec (k mod BPB) (b mod BPB)), (Z.eqb_spec k b) as [->|]; try done. by destruct (same_block k b).
  - destruct (Z.eqb_spec k b) as [->|]; done.
Qed.

(** Writing a block outside the bitmap does not change which blocks are in use. *)
Lemma used_bset f b n d : 0 <= b < sb_size s -> ~ is_bmap n -> used (bset n d f) b = used f b.
Proof using Hly.
  intros Hb Hn. unfold used. rewrite bset_ne; [done|]. intros E. apply Hn. rewrite <- E. by apply bmap_block_range.
Qed.

Lemma wf_bset f n d : disk_wf m f -> ~ is_bmap n -> length d = 512%nat -> disk_wf m (bset n d f).
Proof using Hly.
  intros Hwf Hn Hd. constructor.
  - intros k Hk. unfold bset. destruct (k =? n); [done|by apply (wf_len _ _ Hwf)].
  - intros k Hk. rewrite used_bset; [by apply (wf_meta _ _ Hwf)| |done]. destruct (ly_data _ Hly) as (? & ? & ?). lia.
Qed.

Lemma wf_mark f b : disk_wf m f -> 0 <= b < sb_size s -> disk_wf m (mark b f).
Proof using Hly.
  intros Hwf Hb. constructor.
  - intros k Hk. unfold mark, bset. destruct (k =? bmap_block b); [|by apply (wf_len _ _ Hwf)].
    apply length_set_bit. by apply (wf_len _ _ Hwf), range_bmap.
  - intros k Hk. destruct (ly_data _ Hly) as (? & ? & ?). rewrite used_mark by (done || lia).
    rewrite (wf_meta _ _ Hwf k) by done. apply orb_true_r.
Qed.

Lemma wf_unmark f b : disk_wf m f -> is_data b -> disk_wf m (unmark b f).
Proof using Hly.
  intros Hwf Hb. destruct (ly_data _ Hly) as (? & ? & ?). destruct Hb as [Hb1 Hb2].
  assert (0 <= dstart) by (pose proof (ly_bitmap _ Hly); pose proof inode_start_pos; destruct (ly_geo _ Hly) as (? & _);
    pose proof (ly_nlog _ Hly); assert (0 <= (sb_size s - 1) / BPB) by (apply Z.div_pos; unfold BPB, BSIZE; lia); lia).
  constructor.
  - intros k Hk. unfold unmark, bset. destruct (k =? bmap_block b); [|by apply (wf_len _ _ Hwf)].
    apply length_clear_bit. apply (wf_len _ _ Hwf), range_bmap. lia.
  - intros k Hk. rewrite used_unmark by (done || lia). rewrite (wf_meta _ _ Hwf k) by done.
    destruct (Z.eqb_spec k b); [lia|done].
Qed.

End Geometry.
End Layout.

(** ** The operations *)

Section Facts.
Context {S : Type} `{PL : ProcsLaws sys S} (fuel : nat) (pid : Z).
Context (start N : Z) (s : superblock) (dstart : Z) (m : memdisk) (Hly : layout start N s dstart m).
Implicit Types (hb : list (nat * Z)) (L : list Z) (f : Z -> list Z) (y x : sys).
Abbreviation does := (does (X := sys) (S := S) pid).
Abbreviation Tx := (Tx pid start N).
Abbreviation budget := (budget N).
Abbreviation used := (used s).
Abbreviation bmap_block := (bmap_block s).
Abbreviation is_bmap := (is_bmap s dstart).
Abbreviation is_data := (is_data s dstart).
Abbreviation disk_wf := (disk_wf s dstart m).

Definition zero_block : list Z := replicate (Z.to_nat BSIZE) 0.

Lemma sb_load k hb L U f y : sb y = s ->
  does k (Tx hb L U f m y) (load c_sb) k (fun a x => a = s /\ Tx hb L U f m y x).
Proof using m. intros Hs. apply tx_load; [apply _|]. simpl. by rewrite Hs. Qed.

Lemma bzero_does k hb L f y n : is_data n -> n ∉ hb.*2 -> budget (Datatypes.S k) L -> (length hb <= k)%nat ->
  does 0 (Tx hb L None f m y) (bzero fuel 1 n) 0 (fun _ x => Tx hb (log_add n L) None (bset n zero_block f) m y x).
Proof using Hly.
  intros Hn Hnh Hb Hk. pose proof (home_data _ _ _ _ _ Hly n Hn) as Hh. destruct (Hh) as [Hr _].
  destruct (ly_geo _ _ _ _ _ Hly) as (_ & _ & G3 & _). unfold bzero. change (u32 1) with 1. rewrite u32_id by lia.
  eapply does_bind; [eapply (tx_bread fuel pid start N (Datatypes.S k)); [lia|done|done|lia]|]. intros bp.
  eapply does_bind_tt; [apply (tx_store pid start N _ _ _ _ _ _ bp n); [by left|by left]|].
  eapply does_bind_tt; [apply (tx_log_write pid start N k _ _ _ _ _ _ bp n); [apply Hly|by left|done|done|by right]|].
  apply tx_brelse; [lia|done].
Qed.

(** The first block that is not in use. *)
Definition fresh f (b : Z) : Prop :=
  0 <= b < sb_size s /\ used f b = false /\ forall k, 0 <= k < b -> used f k = true.

(** The contents after [b] was allocated. *)
Definition alloc_block (b : Z) f : Z -> list Z := bset b zero_block (mark s b f).

Lemma balloc_from_does k hb L f y : disk_wf f -> sb y = s -> (forall n, n ∈ hb.*2 -> is_data n /\ used f n = true) ->
  budget (Datatypes.S (Datatypes.S k)) L -> (length hb <= k)%nat ->
  forall n b, 0 <= b -> b mod BPB = 0 -> (forall i, 0 <= i < b -> i < sb_size s -> used f i = true) ->
  (exists i, 0 <= i < sb_size s /\ used f i = false) -> (sb_size s - b) / BPB + 1 < Z.of_nat n ->
  does 0 (Tx hb L None f m y) (balloc_from fuel n 1 b) 0
    (fun a x => fresh f a /\ Tx hb (log_add a (log_add (bmap_block a) L)) None (alloc_block a f) m y x).
Proof using Hly.
  intros Hwf Hsb Hhb Hbud Hk. induction n as [|n IH]; intros b Hb0 Hbm Hlow Hfree Hn.
  { exfalso. destruct Hfree as (i & Hi & Hu). assert (b <= i) as Hbi.
    { destruct (Z.lt_ge_cases i b); [|done]. rewrite Hlow in Hu by lia. done. }
    assert (0 <= (sb_size s - b) / BPB) by (apply Z.div_pos; [lia|reflexivity]). lia. }
  cbn [balloc_from]. eapply does_bind_eq; [by apply sb_load|].
  destruct (Z.ltb_spec b (sb_size s)) as [Hbs|Hbs].
  2:{ exfalso. destruct Hfree as (i & Hi & Hu). rewrite Hlow in Hu by lia. done. }
  rewrite (BBLOCK_eq _ _ _ _ _ Hly) by lia.
  pose proof (bmap_block_range _ _ _ _ _ Hly b ltac:(lia)) as Hbb.
  pose proof (home_bmap _ _ _ _ _ Hly _ Hbb) as Hhome. destruct (Hhome) as [Hrange _].
  assert (bmap_block b ∉ hb.*2) as Hnot.
  { intros Hin. destruct (Hhb _ Hin) as [Hd _]. by apply (not_data_bmap _ _ _ Hd). }
  eapply does_bind; [eapply (tx_bread fuel pid start N (Datatypes.S (Datatypes.S k))); [lia|done|done|lia]|]. intros bp.
  eapply does_bind_eq; [apply (tx_data pid start N 0 _ _ _ _ _ _ bp (bmap_block b)); by left|].
  assert (forall j, 0 <= j < BPB -> (b + j) mod BPB = j /\ bmap_block (b + j) = bmap_block b) as Hadd.
  { intros j Hj. unfold FsBlocks.bmap_block. pose proof (Z.div_mod b BPB ltac:(done)) as E. rewrite Hbm, Z.add_0_r in E.
    rewrite E, (Z.mul_comm BPB), Z.div_add_l, Z.div_mul, (Z.add_comm _ j), Z.mod_add, Z.mod_small by done.
    rewrite (Z.div_small j) by done. split; [done|lia]. }
  destruct (scan_bits _ _ _ _ _) as [bi|] eqn:Hscan.
  - apply scan_bits_Some in Hscan as (Hbi & Hlt & Hclr & Hset). destruct (Hadd bi ltac:(lia)) as [Hm Hblk].
    assert (fresh f (b + bi)) as Hfresh.
    { split; [lia|]. unfold FsBlocks.used. rewrite Hm, Hblk. split; [done|]. intros i Hi.
      destruct (Z.lt_ge_cases i b); [apply Hlow; lia|]. destruct (Hadd (i - b) ltac:(lia)) as [Hm' Hblk'].
      replace (b + (i - b)) with i in * by lia. rewrite Hm', Hblk'. apply Hset. lia. }
    assert (is_data (b + bi)) as Hdat by (by eapply free_is_data; [exact Hwf|destruct Hfresh; lia|apply Hfresh]).
    eapply does_bind_tt; [apply (tx_update pid start N _ _ _ _ _ _ bp (bmap_block b)); [by left|by left]|].
    eapply does_bind_tt; [apply (tx_log_write pid start N (Datatypes.S k) _ _ _ _ _ _ bp (bmap_block b));
      [apply Hly|by left|done|done|by right]|].
    eapply does_bind_tt; [apply tx_brelse; [lia|done]|]. change (i32 1) with 1.
    eapply does_bind_tt; [apply (bzero_does k); [done| |by apply budget_add|lia]|].
    { intros Hin. destruct (Hhb _ Hin) as [_ Hu]. destruct Hfresh as (_ & Hu' & _). congruence. }
    apply does_ret. intros x Hx. split; [done|]. unfold alloc_block, mark. rewrite Hm, Hblk. exact Hx.
  - pose proof (scan_bits_None _ _ _ _ _ Hscan ltac:(unfold BPB, BSIZE; lia)) as Hall.
    eapply does_bind_tt; [apply tx_brelse; [lia|done]|]. apply IH; [unfold BPB, BSIZE; lia| | |done|].
    + rewrite Z.add_mod, Hbm, Z.mod_same by done. done.
    + intros i Hi His. destruct (Z.lt_ge_cases i b); [apply Hlow; lia|]. destruct (Hadd (i - b) ltac:(lia)) as [Hm' Hblk'].
      replace (b + (i - b)) with i in * by lia. unfold FsBlocks.used. rewrite Hm', Hblk'. apply Hall; lia.
    + replace (sb_size s - (b + BPB)) with (sb_size s - b + (-1) * BPB) by lia. rewrite Z.div_add by done. lia.
Qed.

Lemma balloc_does k hb L f y : disk_wf f -> sb y = s -> (forall n, n ∈ hb.*2 -> is_data n /\ used f n = true) ->
  budget (Datatypes.S (Datatypes.S k)) L -> (length hb <= k)%nat -> (exists i, 0 <= i < sb_size s /\ used f i = false) ->
  does 0 (Tx hb L None f m y) (balloc fuel 1) 0
    (fun a x => fresh f a /\ Tx hb (log_add a (log_add (bmap_block a) L)) None (alloc_block a f) m y x).
Proof using Hly.
  intros Hwf Hsb Hhb Hbud Hk Hfree. unfold balloc. eapply does_bind_eq; [by apply sb_load|].
  eapply balloc_from_does; try done; [lia|]. rewrite Z.sub_0_r.
  assert (0 <= sb_size s / BPB) by (apply Z.div_pos; [destruct Hfree as (? & ? & _); lia|reflexivity]). lia.
Qed.

Lemma bfree_does k hb L f y b : disk_wf f -> sb y = s -> is_data b -> used f b = true -> 0 <= b ->
  (forall n, n ∈ hb.*2 -> is_data n) -> budget (Datatypes.S k) L -> (length hb <= k)%nat ->
  does 0 (Tx hb L None f m y) (bfree fuel 1 b) 0
    (fun _ x => Tx hb (log_add (bmap_block b) L) None (unmark s b f) m y x).
Proof using Hly.
  intros Hwf Hsb Hdat Hu Hb0 Hhb Hbud Hk. assert (0 <= b < sb_size s) as Hb by (destruct Hdat; lia).
  pose proof (bmap_block_range _ _ _ _ _ Hly b Hb) as Hbb.
  pose proof (home_bmap _ _ _ _ _ Hly _ Hbb) as Hhome. destruct (Hhome) as [Hrange _].
  unfold bfree. eapply does_bind_eq; [by apply sb_load|]. change (u32 1) with 1.
  rewrite (BBLOCK_eq _ _ _ _ _ Hly) by done.
  eapply does_bind; [eapply (tx_bread fuel pid start N (Datatypes.S k)); [lia| |done|lia]|].
  { intros Hin. by apply (not_data_bmap _ _ _ (Hhb _ Hin)). }
  intros bp. eapply does_bind_eq; [apply (tx_data pid start N 0 _ _ _ _ _ _ bp (bmap_block b)); by left|].
  fold (used f b). rewrite Hu. cbn [negb].
  eapply does_bind_tt; [apply (tx_update pid start N _ _ _ _ _ _ bp (bmap_block b)); [by left|by left]|].
  eapply does_bind_tt; [apply (tx_log_write pid start N k _ _ _ _ _ _ bp (bmap_block b)); [apply Hly|by left|done|done|by right]|].
  apply tx_brelse; [lia|done].
Qed.

End Facts.
