(* ===== verification/FsFile.v ===== *)
(** * The contents of files (fs.c: bmap, readi, writei)

    A locked inode with its blocks: [iblk f r bn] is the disk block with block [bn] of
    the file, directly from the inode or through the indirect block, and [fbyte] a byte
    of the file.  [writei] stores exactly the bytes it is given, keeps every other byte
    of this and of other files, and takes the blocks it adds from the free ones. *)

From stdpp Require Import base tactics list sets strings gmap.
From Stdlib Require Import ZArith Lia.
From S2P Require Import Prelude Params StringC Spinlock ProcState Comp SysState Words Solo Sleeplock Bio Log Fs FsTx FsBlocks.
Open Scope Z_scope.

(** ** Counting free blocks *)

Lemma filter_same {A : Type} (P Q : A -> Prop) `{!forall a, Decision (P a)} `{!forall a, Decision (Q a)} (l : list A) :
  (forall a, a ∈ l -> P a <-> Q a) -> filter P l = filter Q l.
Proof.
  induction l as [|a l IH]; intros He; [done|]. rewrite !filter_cons, IH by set_solver.
  specialize (He a ltac:(set_solver)). destruct (decide (P a)), (decide (Q a)); tauto.
Qed.

Section Free.
Context (start N : Z) (s : superblock) (dstart : Z) (m : memdisk) (Hly : layout start N s dstart m).
Implicit Types (f : Z -> list Z).

Definition nfree f : nat := length (filter (fun b => used s f b = false) (seqZ 0 (sb_size s))).

Lemma nfree_pos f : (0 < nfree f)%nat -> exists i, 0 <= i < sb_size s /\ used s f i = false.
Proof.
  unfold nfree. destruct (filter _ _) as [|i l] eqn:E; simpl; [lia|]. intros _. exists i.
  assert (i ∈ filter (fun b => used s f b = false) (seqZ 0 (sb_size s))) as Hi by (rewrite E; by left).
  apply list_elem_of_filter in Hi as [Hu Hi]. apply elem_of_seqZ in Hi. split; [lia|done].
Qed.

Lemma used_alloc f b k : disk_wf s dstart m f -> is_data s dstart b -> 0 <= b < sb_size s -> 0 <= k < sb_size s ->
  used s (alloc_block s b f) k = (k =? b) || used s f k.
Proof using Type*.
  intros Hwf Hd Hb Hk. unfold alloc_block. rewrite (used_bset _ _ _ _ _ Hly) by (done || by eapply not_data_bmap).
  by apply (used_mark _ _ _ _ _ Hly).
Qed.

Lemma nfree_ext f g : (forall b, 0 <= b < sb_size s -> used s g b = used s f b) -> nfree g = nfree f.
Proof.
  intros H. unfold nfree. f_equal. apply filter_same. intros b Hb%elem_of_seqZ. by rewrite H by lia.
Qed.

Lemma filter_remove (P : Z -> Prop) `{!forall a, Decision (P a)} (l : list Z) b : NoDup l -> b ∈ l -> P b ->
  length (filter P l) = Datatypes.S (length (filter (fun a => P a /\ a <> b) l)).
Proof.
  induction l as [|a l IH]; intros Hd Hb Hp; [by apply elem_of_nil in Hb|]. apply NoDup_cons in Hd as [Ha Hd].
  rewrite !filter_cons. destruct (decide (a = b)) as [->|Hab].
  - rewrite decide_True, decide_False by tauto. simpl. do 2 f_equal. apply filter_same. intros c Hc.
    split; [|tauto]. intros HP. split; [done|]. by intros ->.
  - apply elem_of_cons in Hb as [->|Hb]; [done|]. specialize (IH Hd Hb Hp).
    destruct (decide (P a)) as [Hpa|Hpa].
    + rewrite decide_True by tauto. simpl. by rewrite IH.
    + rewrite decide_False by tauto. done.
Qed.

Lemma nfree_alloc f b : disk_wf s dstart m f -> fresh s f b -> nfree f = Datatypes.S (nfree (alloc_block s b f)).
Proof using Type*.
  intros Hwf (Hb & Hu & _). assert (is_data s dstart b) as Hd by (by eapply free_is_data).
  unfold nfree. rewrite (filter_remove _ _ b); [|apply NoDup_seqZ|apply elem_of_seqZ; lia|done].
  do 2 f_equal. apply filter_same. intros k Hk%elem_of_seqZ. rewrite used_alloc by (done || lia).
  destruct (Z.eqb_spec k b) as [->|]; simpl; [|tauto]. split; [tauto|done].
Qed.

End Free.

(** ** The blocks of a file *)

Definition addr (r : inode) (i : Z) : Z := nth (Z.to_nat i) (i_addrs r) 0.

Definition iblk (f : Z -> list Z) (r : inode) (bn : Z) : Z :=
  if bn <? NDIRECT then addr r bn
  else if addr r NDIRECT =? 0 then 0 else get32 (Z.to_nat (4 * (bn - NDIRECT))) (f (addr r NDIRECT)).

(** The blocks an inode refers to, its indirect block included. *)
Definition owned (f : Z -> list Z) (r : inode) (n : Z) : Prop :=
  n <> 0 /\ (n = addr r NDIRECT \/ exists bn, 0 <= bn < MAXFILE /\ iblk f r bn = n).

(** The byte [i] of the file. *)
Definition fbyte (f : Z -> list Z) (r : inode) (i : Z) : Z :=
  nth (Z.to_nat (i mod BSIZE)) (f (iblk f r (i / BSIZE))) 0.

Definition set_addr (i v : Z) (r : inode) : inode := set_i_addrs (<[Z.to_nat i := v]> (i_addrs r)) r.

Lemma addr_set r i v k : length (i_addrs r) = 13%nat -> 0 <= i < 13 -> 0 <= k ->
  addr (set_addr i v r) k = if k =? i then v else addr r k.
Proof.
  intros Hl Hi Hk. unfold addr, set_addr. simpl. rewrite !nth_lookup. destruct (Z.eqb_spec k i) as [->|].
  - by rewrite list_lookup_insert_eq by lia.
  - by rewrite list_lookup_insert_ne by lia.
Qed.

Section File.
Context (start N : Z) (s : superblock) (dstart : Z) (m : memdisk) (Hly : layout start N s dstart m).
Implicit Types (f : Z -> list Z) (r : inode).
Abbreviation used := (used s).
Abbreviation is_bmap := (is_bmap s dstart).
Abbreviation is_data := (is_data s dstart).
Abbreviation disk_wf := (disk_wf s dstart m).

(** An inode with its blocks in order: they are in use, different from each other, and
    there are enough of them for the size of the file. *)
Record file_ok f r : Prop := {
  fo_dev : i_dev r = 1;
  fo_inum : 0 <= i_inum r < sb_ninodes s;
  fo_len : length (i_addrs r) = 13%nat;
  fo_own : forall n, owned f r n -> is_data n /\ used f n = true;
  fo_inj : forall bn k, 0 <= bn < MAXFILE -> 0 <= k < MAXFILE -> iblk f r bn = iblk f r k -> iblk f r bn <> 0 -> bn = k;
  fo_ind : forall bn, 0 <= bn < MAXFILE -> iblk f r bn <> 0 -> iblk f r bn <> addr r NDIRECT;
  fo_size : 0 <= i_size r <= MAXFILE * BSIZE;
  fo_alloc : forall bn, 0 <= bn -> bn * BSIZE < i_size r -> iblk f r bn <> 0
}.

(** What a step of [writei] may do to the disk: it adds blocks that were free to the
    file, and changes no block of anybody else. *)
Record ext f r f' r' : Prop := {
  ex_inode : r' = set_i_addrs (i_addrs r') r;
  ex_blk : forall k, 0 <= k < MAXFILE -> iblk f r k <> 0 -> iblk f' r' k = iblk f r k;
  ex_own : forall n, owned f' r' n -> owned f r n \/ used f n = false;
  ex_used : forall n, 0 <= n < sb_size s -> used f n = true -> used f' n = true;
  ex_other : forall n, 0 <= n < md_size m -> ~ is_bmap n -> ~ owned f r n -> (is_data n -> used f n = true) -> f' n = f n
}.

Lemma ext_refl f r : ext f r f r.
Proof. constructor; try done; [by destruct r|]. tauto. Qed.

Lemma data_range n : is_data n -> 2 <= n < md_size m.
Proof using Hly. intros Hn. apply (home_data _ _ _ _ _ Hly) in Hn as [? _]. done. Qed.

Lemma ext_trans f r f1 r1 f2 r2 : file_ok f1 r1 -> file_ok f2 r2 -> ext f r f1 r1 -> ext f1 r1 f2 r2 -> ext f r f2 r2.
Proof using Type*.
  intros Hok1 Hok2 [A1 A2 A3 A4 A5] [B1 B2 B3 B4 B5]. constructor.
  - rewrite B1, A1. done.
  - intros k Hk Hne. rewrite B2; [by apply A2|done|]. by rewrite A2.
  - intros n Hn. destruct (B3 n Hn) as [Ho|Hu]; [by apply A3|]. right.
    destruct (used f n) eqn:E; [|done]. destruct (fo_own _ _ Hok2 n Hn) as [Hd _].
    pose proof (data_range n Hd). rewrite (A4 n) in Hu; [done|destruct Hd; lia|done].
  - intros n Hn Hu. apply B4; [done|]. by apply A4.
  - intros n Hn Hbm Ho Hd. rewrite B5; [by apply A5|done|done| |].
    + intros Ho1. destruct (A3 n Ho1) as [?|Hu]; [done|]. destruct (fo_own _ _ Hok1 n Ho1) as [Hdn _].
      rewrite Hd in Hu; done.
    + intros Hdn. specialize (Hd Hdn). pose proof (data_range n Hdn). apply A4; [destruct Hdn; lia|done].
Qed.

Lemma not_owned_free f r b : file_ok f r -> used f b = false -> ~ owned f r b.
Proof. intros Hok Hu Ho. destruct (fo_own _ _ Hok b Ho) as [_ ?]. congruence. Qed.

Lemma owned_blk f r bn : 0 <= bn < MAXFILE -> iblk f r bn <> 0 -> owned f r (iblk f r bn).
Proof. intros Hb Hne. split; [done|]. right. by exists bn. Qed.

Lemma owned_ind f r : addr r NDIRECT <> 0 -> owned f r (addr r NDIRECT).
Proof. intros Hne. split; [done|]. by left. Qed.

(** A free block [b] becomes block [bn] of the file. *)
Lemma grow f r f' r' bn b : file_ok f r -> disk_wf f -> 0 <= bn < MAXFILE -> iblk f r bn = 0 -> fresh s f b ->
  length (i_addrs r') = 13%nat -> r' = set_i_addrs (i_addrs r') r -> addr r' NDIRECT = addr r NDIRECT ->
  (forall k, 0 <= k < MAXFILE -> iblk f' r' k = if k =? bn then b else iblk f r k) ->
  (forall k, 0 <= k < sb_size s -> used f' k = (k =? b) || used f k) ->
  (forall n, 0 <= n < md_size m -> ~ is_bmap n -> n <> b -> ~ (n <> 0 /\ n = addr r NDIRECT) -> f' n = f n) ->
  file_ok f' r' /\ ext f r f' r'.
Proof using Type*.
  intros Hok Hwf Hbn H0 Hfr Hlen Hr' Hind Hblk Hused Hoth.
  destruct (Hfr) as (Hb & Hub & _). assert (is_data b) as Hbd by (by eapply free_is_data).
  pose proof (data_range b Hbd) as Hbr. pose proof (not_owned_free f r b Hok Hub) as Hno.
  assert (forall n, owned f' r' n -> owned f r n \/ n = b) as Hown.
  { intros n [Hn [->|(k & Hk & <-)]].
    - left. rewrite Hind in *. by apply owned_ind.
    - rewrite Hblk in * by done. destruct (k =? bn); [by right|]. left. by apply owned_blk. }
  assert (forall n, 0 <= n < sb_size s -> used f n = true -> used f' n = true) as Hmono.
  { intros n Hn Hu. rewrite Hused, Hu by done. apply orb_true_r. }
  split.
  - destruct Hok as [O1 O2 O3 O4 O5 O6 O7 O8]. constructor; [by rewrite Hr'|by rewrite Hr'|done| | | |by rewrite Hr'|].
    + intros n [Ho| ->]%Hown.
      * destruct (O4 n Ho) as [Hd Hu]. split; [done|]. pose proof (data_range n Hd). apply Hmono; [destruct Hd; lia|done].
      * split; [done|]. rewrite Hused, Z.eqb_refl by lia. done.
    + intros j k Hj Hk. rewrite !Hblk by done. destruct (Z.eqb_spec j bn) as [->|], (Z.eqb_spec k bn) as [->|]; try done.
      * intros -> Hne. exfalso. apply Hno. by apply owned_blk.
      * intros E Hne. exfalso. apply Hno. rewrite <- E. by apply owned_blk.
      * by apply O5.
    + intros k Hk. rewrite Hblk, Hind by done. destruct (Z.eqb_spec k bn) as [->|]; [|by apply O6].
      intros _ ->. apply Hno. apply owned_ind. lia.
    + intros k Hk Hks. assert (i_size r' = i_size r) as Es by (by rewrite Hr'). rewrite Es in Hks.
      assert (k < MAXFILE) by (unfold MAXFILE, NDIRECT, NINDIRECT, BSIZE in *; change (512 / 4) with 128 in *; lia).
      rewrite Hblk by lia. destruct (k =? bn); [lia|by apply O8].
  - constructor.
    + done.
    + intros k Hk Hne. rewrite Hblk by done. destruct (Z.eqb_spec k bn) as [->|]; [|done]. done.
    + intros n [Ho| ->]%Hown; [by left|by right].
    + done.
    + intros n Hn Hbm Ho Hd. apply Hoth; [done|done| |].
      * intros ->. rewrite Hd in Hub; done.
      * intros [Hne ->]. by apply Ho, owned_ind.
Qed.

(** A free block [b] becomes the indirect block of the file. *)
Lemma grow_ind f r f' r' b : file_ok f r -> disk_wf f -> addr r NDIRECT = 0 -> fresh s f b ->
  length (i_addrs r') = 13%nat -> r' = set_i_addrs (i_addrs r') r -> addr r' NDIRECT = b ->
  (forall k, 0 <= k < MAXFILE -> iblk f' r' k = iblk f r k) ->
  (forall k, 0 <= k < sb_size s -> used f' k = (k =? b) || used f k) ->
  (forall n, 0 <= n < md_size m -> ~ is_bmap n -> n <> b -> f' n = f n) ->
  file_ok f' r' /\ ext f r f' r'.
Proof using Type*.
  intros Hok Hwf H0 Hfr Hlen Hr' Hind Hblk Hused Hoth.
  destruct (Hfr) as (Hb & Hub & _). assert (is_data b) as Hbd by (by eapply free_is_data).
  pose proof (data_range b Hbd) as Hbr. pose proof (not_owned_free f r b Hok Hub) as Hno.
  assert (forall n, owned f' r' n -> owned f r n \/ n = b) as Hown.
  { intros n [Hn [->|(k & Hk & <-)]]; [by right|]. left. rewrite Hblk in * by done. by apply owned_blk. }
  assert (forall n, 0 <= n < sb_size s -> used f n = true -> used f' n = true) as Hmono.
  { intros n Hn Hu. rewrite Hused, Hu by done. apply orb_true_r. }
  split.
  - destruct Hok as [O1 O2 O3 O4 O5 O6 O7 O8]. constructor; [by rewrite Hr'|by rewrite Hr'|done| | | |by rewrite Hr'|].
    + intros n [Ho| ->]%Hown.
      * destruct (O4 n Ho) as [Hd Hu]. split; [done|]. pose proof (data_range n Hd). apply Hmono; [destruct Hd; lia|done].
      * split; [done|]. rewrite Hused, Z.eqb_refl by lia. done.
    + intros j k Hj Hk. rewrite !Hblk by done. by apply O5.
    + intros k Hk. rewrite Hblk, Hind by done. intros Hne E. apply Hno. rewrite <- E. by apply owned_blk.
    + intros k Hk Hks. assert (i_size r' = i_size r) as Es by (by rewrite Hr'). rewrite Es in Hks.
      assert (k < MAXFILE) by (unfold MAXFILE, NDIRECT, NINDIRECT, BSIZE in *; change (512 / 4) with 128 in *; lia).
      rewrite Hblk by lia. by apply O8.
  - constructor; [done| | |done|].
    + intros k Hk Hne. by rewrite Hblk.
    + intros n [Ho| ->]%Hown; [by left|by right].
    + intros n Hn Hbm Ho Hd. apply Hoth; [done|done|]. intros ->. rewrite Hd in Hub; done.
Qed.

(** *** Allocation *)

Lemma alloc_other f b n : 0 <= b < sb_size s -> ~ is_bmap n -> n <> b -> alloc_block s b f n = f n.
Proof using Type*.
  intros Hb Hn Hne. unfold alloc_block, mark. rewrite !bset_ne; [done| |done]. intros ->.
  by apply Hn, (bmap_block_range _ _ _ _ _ Hly).
Qed.

Lemma alloc_wf f b : disk_wf f -> fresh s f b -> disk_wf (alloc_block s b f).
Proof using Type*.
  intros Hwf (Hb & Hu & _). apply (wf_bset _ _ _ _ _ Hly); [by apply (wf_mark _ _ _ _ _ Hly)| |apply length_replicate].
  eapply not_data_bmap. by eapply free_is_data.
Qed.

(** The data blocks a file has stay as they are. *)
Definition keeps_data f r f' : Prop :=
  forall k, 0 <= k < MAXFILE -> iblk f r k <> 0 -> f' (iblk f r k) = f (iblk f r k).

Lemma alloc_used f b : disk_wf f -> fresh s f b ->
  forall k, 0 <= k < sb_size s -> used (alloc_block s b f) k = (k =? b) || used f k.
Proof using Type*.
  intros Hwf (Hb & Hu & _) k Hk. apply (used_alloc _ _ _ _ _ Hly); try done. by eapply free_is_data.
Qed.

Lemma alloc_keeps f r b : file_ok f r -> fresh s f b -> keeps_data f r (alloc_block s b f).
Proof using Type*.
  intros Hok (Hb & Hu & _) k Hk Hne. destruct (fo_own _ _ Hok _ (owned_blk _ _ _ Hk Hne)) as [Hd Hu'].
  apply alloc_other; [done|by eapply not_data_bmap|congruence].
Qed.

Lemma alloc_ind f r b : file_ok f r -> fresh s f b -> addr r NDIRECT <> 0 ->
  alloc_block s b f (addr r NDIRECT) = f (addr r NDIRECT).
Proof using Type*.
  intros Hok (Hb & Hu & _) Hne. destruct (fo_own _ _ Hok _ (owned_ind f r Hne)) as [Hd Hu'].
  apply alloc_other; [done|by eapply not_data_bmap|congruence].
Qed.

Lemma ndirect_lt : 0 <= NDIRECT < 13.
Proof. unfold NDIRECT. lia. Qed.

(** The three ways in which [bmap] adds a block. *)
Lemma iblk_direct f r bn b : file_ok f r -> 0 <= bn < NDIRECT -> fresh s f b ->
  forall k, 0 <= k < MAXFILE -> iblk (alloc_block s b f) (set_addr bn b r) k = if k =? bn then b else iblk f r k.
Proof using Type*.
  intros Hok Hbn Hfr k Hk. pose proof (fo_len _ _ Hok) as Hlen. pose proof ndirect_lt. unfold NDIRECT in Hbn.
  unfold iblk. rewrite !addr_set by (done || lia). destruct (Z.ltb_spec k NDIRECT) as [|Hge]; [done|].
  unfold NDIRECT in Hge. destruct (Z.eqb_spec k bn); [lia|]. destruct (Z.eqb_spec NDIRECT bn) as [E|_]; [unfold NDIRECT in E; lia|].
  destruct (Z.eqb_spec (addr r NDIRECT) 0); [done|]. by rewrite alloc_ind.
Qed.

Lemma grow_direct f r bn b : file_ok f r -> disk_wf f -> 0 <= bn < NDIRECT -> addr r bn = 0 -> fresh s f b ->
  file_ok (alloc_block s b f) (set_addr bn b r) /\ ext f r (alloc_block s b f) (set_addr bn b r) /\
  iblk (alloc_block s b f) (set_addr bn b r) bn = b.
Proof using Type*.
  intros Hok Hwf Hbn H0 Hfr. pose proof (fo_len _ _ Hok) as Hlen. pose proof ndirect_lt.
  pose proof (iblk_direct f r bn b Hok Hbn Hfr) as Hblk. unfold NDIRECT in Hbn.
  assert (bn < MAXFILE) by (change MAXFILE with 140; lia).
  destruct (grow f r (alloc_block s b f) (set_addr bn b r) bn b) as [G1 G2]; try done.
  - lia.
  - unfold iblk. unfold NDIRECT. by destruct (Z.ltb_spec bn 12); [|lia].
  - simpl. by rewrite length_insert.
  - rewrite addr_set by (done || lia). destruct (Z.eqb_spec NDIRECT bn) as [E|_]; [unfold NDIRECT in E; lia|done].
  - by apply alloc_used.
  - intros n Hn Hbm Hne _. apply alloc_other; [apply Hfr|done|done].
  - split; [done|]. split; [done|]. rewrite Hblk, Z.eqb_refl by lia. done.
Qed.

Lemma get32_zero o : get32 o (replicate (Z.to_nat BSIZE) 0) = 0.
Proof.
  unfold getn, slice. rewrite drop_replicate, take_replicate. generalize (4 `min` (Z.to_nat BSIZE - o))%nat as k.
  induction k as [|k IH]; [done|]. simpl. by rewrite IH.
Qed.

Lemma iblk_indirect f r b : file_ok f r -> addr r NDIRECT = 0 -> b <> 0 ->
  forall k, 0 <= k < MAXFILE -> iblk (alloc_block s b f) (set_addr NDIRECT b r) k = iblk f r k.
Proof using Type*.
  intros Hok H0 Hb k Hk. pose proof (fo_len _ _ Hok) as Hlen. pose proof ndirect_lt as Hnd.
  unfold iblk. rewrite !addr_set, Z.eqb_refl, H0 by (done || lia). cbn [Z.eqb]. destruct (Z.ltb_spec k NDIRECT).
  - destruct (Z.eqb_spec k NDIRECT); [lia|done].
  - destruct (Z.eqb_spec b 0); [done|]. unfold alloc_block. rewrite bset_eq. apply get32_zero.
Qed.

Lemma grow_indirect f r b : file_ok f r -> disk_wf f -> addr r NDIRECT = 0 -> fresh s f b ->
  file_ok (alloc_block s b f) (set_addr NDIRECT b r) /\ ext f r (alloc_block s b f) (set_addr NDIRECT b r) /\
  addr (set_addr NDIRECT b r) NDIRECT = b /\
  forall bn, NDIRECT <= bn < MAXFILE -> iblk (alloc_block s b f) (set_addr NDIRECT b r) bn = 0 /\ iblk f r bn = 0.
Proof using Type*.
  intros Hok Hwf H0 Hfr. pose proof (fo_len _ _ Hok) as Hlen. pose proof ndirect_lt as Hnd.
  assert (addr (set_addr NDIRECT b r) NDIRECT = b) as Ha by (by rewrite addr_set, Z.eqb_refl by (done || lia)).
  assert (b <> 0) as Hb0.
  { destruct Hfr as (Hb & Hu & _). assert (is_data b) as Hd by (by eapply free_is_data). pose proof (data_range b Hd). lia. }
  pose proof (iblk_indirect f r b Hok H0 Hb0) as Hblk.
  destruct (grow_ind f r (alloc_block s b f) (set_addr NDIRECT b r) b) as [G1 G2]; try done.
  - simpl. by rewrite length_insert.
  - by apply alloc_used.
  - intros n Hn Hbm Hne. apply alloc_other; [apply Hfr|done|done].
  - split; [done|]. split; [done|]. split; [done|]. intros bn Hbn. rewrite Hblk by lia.
    assert (iblk f r bn = 0) as -> by (unfold iblk; rewrite H0; by destruct (Z.ltb_spec bn NDIRECT); [lia|]). done.
Qed.

(** The indirect block with a new entry. *)
Definition add_entry f r (bn b : Z) : Z -> list Z :=
  bset (addr r NDIRECT) (put32 (Z.to_nat (4 * (bn - NDIRECT))) b (f (addr r NDIRECT))) f.

Lemma entry_off bn : NDIRECT <= bn < MAXFILE -> (Z.to_nat (4 * (bn - NDIRECT)) + 4 <= 512)%nat.
Proof. change MAXFILE with 140. unfold NDIRECT. lia. Qed.

Lemma iblk_entry f r bn b : file_ok f r -> disk_wf f -> NDIRECT <= bn < MAXFILE -> addr r NDIRECT <> 0 -> fresh s f b ->
  forall k, 0 <= k < MAXFILE -> iblk (add_entry (alloc_block s b f) r bn b) r k = if k =? bn then b else iblk f r k.
Proof using Type*.
  intros Hok Hwf Hbn Hne Hfr k Hk. destruct (fo_own _ _ Hok _ (owned_ind f r Hne)) as [Hid _]. pose proof (data_range _ Hid) as Hir.
  assert (is_data b) as Hbd by (destruct Hfr as (? & ? & _); by eapply free_is_data). pose proof (data_range b Hbd) as Hbr.
  assert (length (f (addr r NDIRECT)) = 512%nat) as Hl512 by (apply (wf_len _ _ _ _ Hwf); lia).
  unfold iblk. destruct (Z.ltb_spec k NDIRECT) as [|Hge].
  { destruct (Z.eqb_spec k bn); [lia|done]. }
  destruct (Z.eqb_spec (addr r NDIRECT) 0); [done|]. unfold add_entry. rewrite bset_eq, (alloc_ind f r b Hok Hfr Hne).
  pose proof (entry_off k ltac:(lia)). pose proof (entry_off bn Hbn). destruct (Z.eqb_spec k bn) as [->|Hkn].
  - rewrite getn_putn_same by lia. destruct (ly_geo _ _ _ _ _ Hly) as (_ & _ & ? & _). apply Z.mod_small. lia.
  - apply getn_putn_other; [lia|lia|]. unfold NDIRECT in *. lia.
Qed.

Lemma grow_entry f r bn b : file_ok f r -> disk_wf f -> NDIRECT <= bn < MAXFILE -> addr r NDIRECT <> 0 ->
  iblk f r bn = 0 -> fresh s f b ->
  let f' := add_entry (alloc_block s b f) r bn b in
  file_ok f' r /\ ext f r f' r /\ iblk f' r bn = b /\ disk_wf f' /\ keeps_data f r f' /\ nfree s f = Datatypes.S (nfree s f').
Proof using Type*.
  intros Hok Hwf Hbn Hne H0 Hfr f'. pose proof (fo_len _ _ Hok) as Hlen. destruct (Hfr) as (Hb & Hub & _).
  destruct (fo_own _ _ Hok _ (owned_ind f r Hne)) as [Hid Hiu]. pose proof (data_range _ Hid) as Hir.
  pose proof (alloc_wf f b Hwf Hfr) as Hwf1. pose proof (iblk_entry f r bn b Hok Hwf Hbn Hne Hfr) as Hblk. fold f' in Hblk.
  assert (disk_wf f') as Hwf'.
  { apply (wf_bset _ _ _ _ _ Hly); [done|by eapply not_data_bmap|].
    rewrite (alloc_ind f r b Hok Hfr Hne), length_putn by (rewrite (wf_len _ _ _ _ Hwf) by lia; by apply entry_off).
    apply (wf_len _ _ _ _ Hwf). lia. }
  assert (forall k, 0 <= k < sb_size s -> used f' k = (k =? b) || used f k) as Hu'.
  { intros k Hk. unfold f', add_entry. rewrite (used_bset _ _ _ _ _ Hly) by (done || by eapply not_data_bmap). by apply alloc_used. }
  assert (forall n, ~ is_bmap n -> n <> b -> ~ (n <> 0 /\ n = addr r NDIRECT) -> f' n = f n) as Hoth.
  { intros n Hbm Hnb Hni. unfold f', add_entry. rewrite bset_ne by (intros ->; tauto). by apply alloc_other. }
  destruct (grow f r f' r bn b) as [G1 G2]; try done; [change NDIRECT with 12 in *; lia|by destruct r|by intros; apply Hoth|].
  split; [done|]. split; [done|]. split; [rewrite Hblk, Z.eqb_refl by (unfold NDIRECT in Hbn; lia); done|]. split; [done|]. split.
  - intros k Hk Hkn. destruct (fo_own _ _ Hok _ (owned_blk _ _ _ Hk Hkn)) as [Hd Hu]. apply Hoth.
    + by eapply not_data_bmap.
    + congruence.
    + intros [_ E]. by apply (fo_ind _ _ Hok k Hk Hkn).
  - rewrite (nfree_alloc _ _ _ _ _ Hly f b Hwf Hfr). f_equal. apply nfree_ext. intros k Hk. rewrite Hu' by done. by apply alloc_used.
Qed.

End File.

(** ** The code *)

Section Facts.
Context {S : Type} `{PL : ProcsLaws sys S} (fuel : nat) (pid : Z).
Context (start N : Z) (s : superblock) (dstart : Z) (m : memdisk) (Hly : layout start N s dstart m).
Context (y0 : sys) (ip : nat) (Hip : (ip < length (inodes y0))%nat) (Hsb : sb y0 = s).
Implicit Types (hb : list (nat * Z)) (L : list Z) (f : Z -> list Z) (r : inode) (x : sys).
Abbreviation does := (does (X := sys) (S := S) pid).
Abbreviation Tx := (Tx pid start N).
Abbreviation budget := (budget N).
Abbreviation used := (used s).
Abbreviation bmap_block := (bmap_block s).
Abbreviation is_bmap := (is_bmap s dstart).
Abbreviation is_data := (is_data s dstart).
Abbreviation disk_wf := (disk_wf s dstart m).
Abbreviation file_ok := (file_ok s dstart).
Abbreviation ext := (ext s dstart m).

(** The system with the inode [r] in the entry [ip] of the inode cache. *)
Definition with_inode r : sys := cset (c_inode ip) r y0.

#[local] Instance c_inode_laws i : CellLaws (c_inode i).
Proof. apply inside_laws; apply _. Qed.

Lemma inode_here r : cget (c_inode ip) (with_inode r) = Some r.
Proof using Hip.
  destruct (lookup_lt_is_Some_2 (inodes y0) ip Hip) as [r0 Hr0]. apply (cget_cset r r0). done.
Qed.

Lemma with_inode_sb r : sb (with_inode r) = s.
Proof using Hsb. unfold with_inode. simpl. done. Qed.

Lemma ino_load {Z : Type} k hb L U f r (d : cell inode Z) v : cget d r = Some v ->
  does k (Tx hb L U f m (with_inode r)) (load (c_inode ip @ d)) k (fun a x => a = v /\ Tx hb L U f m (with_inode r) x).
Proof using Hip. intros Hd. apply tx_load; [apply _|]. eapply inside_get; [apply inode_here|done]. Qed.

Lemma ino_store {Z : Type} k hb L U f r (d : cell inode Z) v v0 : cget d r = Some v0 ->
  does k (Tx hb L U f m (with_inode r)) (store (c_inode ip @ d) v) k (fun _ x => Tx hb L U f m (with_inode (cset d v r)) x).
Proof using Hip.
  intros Hd. eapply does_post; [eapply (tx_put pid start N k (c_inode ip @ d)); eapply inside_get; [apply inode_here|exact Hd]|].
  intros [] x. rewrite (inside_set _ _ _ r) by apply inode_here. unfold with_inode at 1. by rewrite cset_cset.
Qed.

Lemma addr_load k hb L U f r i : length (i_addrs r) = 13%nat -> 0 <= i < 13 ->
  does k (Tx hb L U f m (with_inode r)) (load (c_addr ip i)) k (fun a x => a = addr r i /\ Tx hb L U f m (with_inode r) x).
Proof using Hip.
  intros Hl Hi. apply (ino_load k hb L U f r (c_i_addrs @ elem (Z.to_nat i))). unfold addr. simpl.
  destruct (lookup_lt_is_Some_2 (i_addrs r) (Z.to_nat i)) as [a Ha]; [lia|]. by rewrite nth_lookup, Ha.
Qed.

Lemma addr_store k hb L U f r i v : length (i_addrs r) = 13%nat -> 0 <= i < 13 ->
  does k (Tx hb L U f m (with_inode r)) (store (c_addr ip i) v) k (fun _ x => Tx hb L U f m (with_inode (set_addr i v r)) x).
Proof using Hip.
  intros Hl Hi. destruct (lookup_lt_is_Some_2 (i_addrs r) (Z.to_nat i)) as [a Ha]; [lia|].
  by apply (ino_store k hb L U f r (c_i_addrs @ elem (Z.to_nat i)) v a).
Qed.

Lemma addr_alloc_present hb L f r i : file_ok f r -> 0 <= i < 13 -> addr r i <> 0 ->
  does 0 (Tx hb L None f m (with_inode r)) (addr_alloc fuel ip i) 0
    (fun a x => a = addr r i /\ Tx hb L None f m (with_inode r) x).
Proof using Hip Hsb.
  intros Hok Hi Hne. unfold addr_alloc. eapply does_bind_eq; [apply addr_load; [apply Hok|done]|].
  destruct (Z.eqb_spec (addr r i) 0); [done|]. apply does_ret. done.
Qed.

Lemma addr_alloc_new k hb L f r i : file_ok f r -> disk_wf f -> 0 <= i < 13 -> addr r i = 0 ->
  (forall n, n ∈ hb.*2 -> is_data n /\ used f n = true) -> budget (Datatypes.S (Datatypes.S k)) L -> (length hb <= k)%nat ->
  (0 < nfree s f)%nat ->
  does 0 (Tx hb L None f m (with_inode r)) (addr_alloc fuel ip i) 0
    (fun a x => fresh s f a /\ Tx hb (log_add a (log_add (bmap_block a) L)) None (alloc_block s a f) m (with_inode (set_addr i a r)) x).
Proof using Type*.
  intros Hok Hwf Hi H0 Hhb Hbud Hk Hfree. unfold addr_alloc. eapply does_bind_eq; [apply addr_load; [apply Hok|done]|].
  rewrite H0. cbn [Z.eqb]. eapply does_bind_eq; [by apply (ino_load 0 _ _ _ _ _ c_i_dev)|]. rewrite (fo_dev _ _ _ _ Hok).
  eapply does_bind; [apply (balloc_does fuel pid start N s dstart m Hly k); try done; by apply nfree_pos|].
  intros a. eapply does_fact with (F := fresh s f a); [by intros x [? _]|]. intros Hfr.
  eapply does_bind_tt; [eapply does_pre; [apply addr_store; [apply Hok|done]|intros x [_ Hx]; exact Hx]|].
  by apply does_ret.
Qed.

(** *** bmap *)

Lemma bmap_present k hb L f r bn : file_ok f r -> 0 <= bn < MAXFILE -> iblk f r bn <> 0 -> addr r NDIRECT ∉ hb.*2 ->
  budget k L -> (length hb <= k)%nat ->
  does 0 (Tx hb L None f m (with_inode r)) (bmap fuel ip bn) 0
    (fun a x => a = iblk f r bn /\ Tx hb L None f m (with_inode r) x).
Proof using Type*.
  intros Hok Hbn Hne Hnh Hbud Hk. unfold bmap. unfold iblk in *. pose proof ndirect_lt.
  destruct (Z.ltb_spec bn NDIRECT) as [Hlt|Hge]; [apply addr_alloc_present; [done|lia|done]|].
  destruct (Z.ltb_spec (bn - NDIRECT) NINDIRECT) as [_|]; [|unfold MAXFILE in Hbn; lia].
  destruct (Z.eqb_spec (addr r NDIRECT) 0) as [|Hind]; [done|].
  eapply does_bind_eq; [by apply addr_alloc_present|].
  eapply does_bind_eq; [by apply (ino_load 0 _ _ _ _ _ c_i_dev)|]. rewrite (fo_dev _ _ _ _ Hok).
  destruct (fo_own _ _ _ _ Hok _ (owned_ind f r Hind)) as [Hd _]. pose proof (data_range _ _ _ _ _ Hly _ Hd).
  eapply does_bind; [eapply (tx_bread fuel pid start N k); [lia|done|done|done]|]. intros bp.
  eapply does_bind_eq; [apply (tx_data pid start N 0 _ _ _ _ _ _ bp (addr r NDIRECT)); by left|].
  destruct (Z.eqb_spec (get32 (Z.to_nat (4 * (bn - NDIRECT))) (f (addr r NDIRECT))) 0); [done|].
  eapply does_bind_eq; [by apply does_ret|]. eapply does_bind_tt; [apply tx_brelse; [lia|done]|]. by apply does_ret.
Qed.

(** What [bmap] leaves: block [a] is block [bn] of the file. *)
Record mapped f r L (bn a : Z) f' r' L' : Prop := {
  mp_ok : file_ok f' r';
  mp_ext : ext f r f' r';
  mp_wf : disk_wf f';
  mp_blk : iblk f' r' bn = a;
  mp_data : keeps_data f r f';
  mp_log : (length L' <= length L + 5)%nat;
  mp_free : (nfree s f <= nfree s f' + 2)%nat;
  mp_same : iblk f r bn <> 0 -> f' = f /\ r' = r
}.

Lemma fresh_nonzero f a : disk_wf f -> fresh s f a -> a <> 0.
Proof using Type*.
  intros Hwf (Hb & Hu & _). assert (is_data a) as Hd by (by eapply free_is_data).
  pose proof (data_range _ _ _ _ _ Hly a Hd). lia.
Qed.

Lemma log_add2_length a b L : (length (log_add a (log_add b L)) <= length L + 2)%nat.
Proof. pose proof (log_add_length a (log_add b L)). pose proof (log_add_length b L). lia. Qed.

Lemma bmap_entry k L f r bn ib : addr r NDIRECT = ib -> file_ok f r -> disk_wf f -> NDIRECT <= bn < MAXFILE -> ib <> 0 ->
  budget (4 + k) L -> (0 < nfree s f)%nat ->
  does 0 (Tx [] L None f m (with_inode r))
    (dev <- load (c_inode ip @ c_i_dev) ;;
     bp <- bread fuel dev ib ;;
     d <- load (c_buf bp @ c_b_data) ;;
     let a := get32 (Z.to_nat (4 * (bn - NDIRECT))) d in
     b <- (if a =? 0 then
             dev <- load (c_inode ip @ c_i_dev) ;;
             a <- balloc fuel dev ;;
             update (c_buf bp @ c_b_data) (put32 (Z.to_nat (4 * (bn - NDIRECT))) a) ;;;
             log_write bp ;;;
             ret a
           else ret a) ;;
     brelse bp ;;;
     ret b) 0
    (fun a x => exists f' r' L', Tx [] L' None f' m (with_inode r') x /\ a <> 0 /\
       file_ok f' r' /\ ext f r f' r' /\ disk_wf f' /\ iblk f' r' bn = a /\ keeps_data f r f' /\
       (length L' <= length L + 3)%nat /\ (nfree s f <= nfree s f' + 1)%nat).
Proof using Type*.
  intros <- Hok Hwf Hbn Hind Hbud Hfree. pose proof ndirect_lt.
  destruct (fo_own _ _ _ _ Hok _ (owned_ind f r Hind)) as [Hd Hiu]. pose proof (data_range _ _ _ _ _ Hly _ Hd) as Hir.
  eapply does_bind_eq; [by apply (ino_load 0 _ _ _ _ _ c_i_dev)|]. rewrite (fo_dev _ _ _ _ Hok).
  eapply does_bind; [eapply (tx_bread fuel pid start N (4 + k)); [lia|apply not_elem_of_nil|done|simpl; lia]|]. intros bp.
  eapply does_bind_eq; [apply (tx_data pid start N 0 _ _ _ _ _ _ bp (addr r NDIRECT)); by left|].
  cbv zeta. set (e := get32 (Z.to_nat (4 * (bn - NDIRECT))) (f (addr r NDIRECT))).
  assert (iblk f r bn = e) as He.
  { unfold iblk. destruct (Z.ltb_spec bn NDIRECT); [lia|]. by destruct (Z.eqb_spec (addr r NDIRECT) 0). }
  destruct (Z.eqb_spec e 0) as [E0|E0].
  - eapply (does_bind pid 0 0 0) with (R := fun a x => fresh s f a /\
      Tx [(bp, addr r NDIRECT)] (log_add (addr r NDIRECT) (log_add a (log_add (bmap_block a) L))) None
        (add_entry (alloc_block s a f) r bn a) m (with_inode r) x).
    + eapply does_bind_eq; [by apply (ino_load 0 _ _ _ _ _ c_i_dev)|]. rewrite (fo_dev _ _ _ _ Hok).
      eapply does_bind; [apply (balloc_does fuel pid start N s dstart m Hly (2 + k)); try done|].
      { intros n Hn. simpl in Hn. apply list_elem_of_singleton in Hn as ->. done. }
      { simpl. lia. }
      { by apply nfree_pos. }
      intros a. eapply does_fact with (F := fresh s f a); [by intros x [? _]|]. intros Hfr.
      eapply does_pre; [|intros x [_ Hx]; exact Hx].
      eapply does_bind_tt; [apply (tx_update pid start N _ _ _ _ _ _ bp (addr r NDIRECT)); [by left|by left]|].
      eapply does_bind_tt; [apply (tx_log_write pid start N (1 + k) _ _ _ _ _ _ bp (addr r NDIRECT));
        [apply Hly|by left|by apply (home_data _ _ _ _ _ Hly)| |by right]|].
      { eapply budget_le; [exact Hbud|]. pose proof (log_add2_length a (bmap_block a) L). simpl. lia. }
      apply does_ret. by intros x Hx.
    + intros a. eapply does_fact with (F := fresh s f a); [by intros x [? _]|]. intros Hfr.
      eapply does_pre; [|intros x [_ Hx]; exact Hx].
      eapply does_bind_tt; [apply tx_brelse; [lia|done]|]. apply does_ret. intros x Hx.
      destruct (grow_entry _ _ _ _ _ Hly f r bn a Hok Hwf Hbn Hind) as (G1 & G2 & G3 & G4 & G5 & G6); [congruence|done|].
      eexists _, r, _. split; [exact Hx|]. split; [exact (fresh_nonzero f a Hwf Hfr)|]. repeat (split; [done|]). split; [|lia].
      pose proof (log_add_length (addr r NDIRECT) (log_add a (log_add (bmap_block a) L))).
      pose proof (log_add2_length a (bmap_block a) L). lia.
  - eapply does_bind_eq; [by apply does_ret|]. eapply does_bind_tt; [apply tx_brelse; [lia|done]|].
    apply does_ret. intros x Hx. exists f, r, L. split; [done|]. split; [congruence|]. split; [done|]. split; [apply ext_refl|].
    split; [done|]. split; [done|]. split; [by intros j Hj Hne|]. split; lia.
Qed.

Lemma bmap_mapped k L f r bn : file_ok f r -> disk_wf f -> 0 <= bn < MAXFILE -> iblk f r bn <> 0 -> budget k L ->
  does 0 (Tx [] L None f m (with_inode r)) (bmap fuel ip bn) 0
    (fun a x => exists f' r' L', Tx [] L' None f' m (with_inode r') x /\ a <> 0 /\ mapped f r L bn a f' r' L').
Proof using Type*.
  intros Hok Hwf Hbn Hne Hbud. eapply does_post; [apply (bmap_present k); try done; [apply not_elem_of_nil|simpl; lia]|].
  intros a x [-> Hx]. exists f, r, L. split; [done|]. split; [done|]. constructor; try done; [apply ext_refl|lia|lia].
Qed.

Lemma bmap_does k L f r bn : file_ok f r -> disk_wf f -> 0 <= bn < MAXFILE -> budget (6 + k) L -> (1 < nfree s f)%nat ->
  does 0 (Tx [] L None f m (with_inode r)) (bmap fuel ip bn) 0
    (fun a x => exists f' r' L', Tx [] L' None f' m (with_inode r') x /\ a <> 0 /\ mapped f r L bn a f' r' L').
Proof using Type*.
  intros Hok Hwf Hbn Hbud Hfree. destruct (decide (iblk f r bn = 0)) as [Ez|Ez]; [|by apply (bmap_mapped (6 + k))].
  assert (forall P : Prop, iblk f r bn <> 0 -> P) as Hz by done. unfold bmap. pose proof ndirect_lt.
  destruct (Z.ltb_spec bn NDIRECT) as [Hlt|Hge].
  - destruct (decide (addr r bn = 0)) as [E0|E0].
    + eapply does_post; [apply (addr_alloc_new (4 + k)); try done; [lia|by intros n Hn%elem_of_nil|simpl; lia|lia]|].
      intros a x [Hfr Hx]. destruct (grow_direct _ _ _ _ _ Hly f r bn a Hok Hwf ltac:(lia) E0 Hfr) as (G1 & G2 & G3).
      eexists _, _, _. split; [exact Hx|]. split; [exact (fresh_nonzero f a Hwf Hfr)|].
      constructor; try done; [by apply (alloc_wf _ _ _ _ _ Hly)|by apply (alloc_keeps _ _ _ _ _ Hly)| |].
      * pose proof (log_add2_length a (bmap_block a) L). lia.
      * rewrite (nfree_alloc _ _ _ _ _ Hly f a Hwf Hfr). lia.
    + exfalso. apply E0. unfold iblk in Ez. by destruct (Z.ltb_spec bn NDIRECT); [|lia].
  - destruct (Z.ltb_spec (bn - NDIRECT) NINDIRECT) as [_|]; [|unfold MAXFILE in Hbn; lia].
    destruct (decide (addr r NDIRECT = 0)) as [E0|E0].
    + eapply does_bind; [apply (addr_alloc_new (4 + k)); try done; [by intros n Hn%elem_of_nil|simpl; lia|lia]|].
      intros ib. eapply does_fact with (F := fresh s f ib); [by intros x [? _]|]. intros Hfr.
      destruct (grow_indirect _ _ _ _ _ Hly f r ib Hok Hwf E0 Hfr) as (G1 & G2 & G3 & G4).
      pose proof (alloc_wf _ _ _ _ _ Hly f ib Hwf Hfr) as Hwf1. pose proof (fresh_nonzero f ib Hwf Hfr) as Hib.
      pose proof (nfree_alloc _ _ _ _ _ Hly f ib Hwf Hfr) as Hnf. pose proof (log_add2_length ib (bmap_block ib) L) as HlL.
      eapply does_pre; [|intros x [_ Hx]; exact Hx].
      eapply does_post; [apply (bmap_entry k); try done; [lia| |lia]|].
      { eapply budget_le; [exact Hbud|]. simpl. lia. }
      intros a x (f' & r' & L' & Hx & Ha & K1 & K2 & K3 & K4 & K5 & K6 & K7).
      exists f', r', L'. split; [done|]. split; [done|]. constructor; try done; [exact (ext_trans _ _ _ _ _ Hly _ _ _ _ _ _ G1 K1 G2 K2)| |lia|lia].
      intros j Hj Hne. pose proof (ex_blk _ _ _ _ _ _ _ G2 j Hj Hne) as Ej. rewrite <- Ej at 1.
      rewrite K5 by (done || by rewrite Ej). rewrite Ej. by apply (alloc_keeps _ _ _ _ _ Hly f r ib).
    + eapply does_bind_eq; [by apply addr_alloc_present|].
      eapply does_post; [apply (bmap_entry (2 + k)); try done; lia|].
      intros a x (f' & r' & L' & Hx & Ha & K1 & K2 & K3 & K4 & K5 & K6 & K7).
      exists f', r', L'. split; [done|]. split; [done|]. constructor; try done; lia.
Qed.

End Facts.
