(* ===== verification/FsIo.v ===== *)
(** * The contents of files

    [iupdate], [readi] and [writei] of fs.c inside a transaction: the inode that is read
    back is the one that was written, a read returns the bytes of the file, and a write
    changes those bytes and nothing else. *)

From stdpp Require Import base tactics list sets strings gmap.
From Stdlib Require Import ZArith Lia.
From S2P Require Import Prelude Params StringC Spinlock ProcState Comp SysState Words Solo Sleeplock Bio Log Fs FsTx FsBlocks FsFile.
Open Scope Z_scope.

(** ** Inodes on the disk *)

Section Codec.
Implicit Types (d l : list Z) (o : nat).

Lemma length_put_addrs l : forall o d, (o + 4 * length l <= length d)%nat -> length (put_addrs o l d) = length d.
Proof.
  induction l as [|a l IH]; intros o d Hl; [done|]. cbn [put_addrs]. simpl in Hl.
  rewrite IH; rewrite length_putn; lia.
Qed.

Lemma getn_put_addrs k o' l : forall o d, (o + 4 * length l <= length d)%nat -> (o' + k <= length d)%nat ->
  (o' + k <= o \/ o + 4 * length l <= o')%nat -> getn k o' (put_addrs o l d) = getn k o' d.
Proof.
  induction l as [|a l IH]; intros o d Hl Hk Ho; [done|]. cbn [put_addrs]. simpl in Hl, Ho.
  rewrite IH by (rewrite ?length_putn; lia). apply getn_putn_other; lia.
Qed.

Lemma get32_put_addrs l : forall o d, (o + 4 * length l <= length d)%nat -> Forall (fun a => 0 <= a < 2 ^ 32) l ->
  map (fun k => get32 (o + 4 * k) (put_addrs o l d)) (seq 0 (length l)) = l.
Proof.
  induction l as [|a l IH]; intros o d Hl Ha; [done|]. apply Forall_cons in Ha as [Ha Hla]. simpl in Hl.
  cbn [length seq map put_addrs]. f_equal.
  - rewrite Nat.mul_0_r, Nat.add_0_r, getn_put_addrs by (rewrite ?length_putn; lia).
    rewrite getn_putn_same by lia. by apply Z.mod_small.
  - rewrite <- seq_shift, map_map. rewrite <- (IH (o + 4)%nat (put32 o a d)) at 2; [|rewrite length_putn; lia|done].
    apply map_ext. intros k. f_equal. lia.
Qed.

Definition short (z : Z) : Prop := - 2 ^ 15 <= z < 2 ^ 15.

(** The fields of an inode fit those of the structure on the disk. *)
Record dinode_ok (di : dinode) : Prop := {
  dk_type : short (di_type di); dk_major : short (di_major di); dk_minor : short (di_minor di);
  dk_nlink : short (di_nlink di); dk_size : 0 <= di_size di < 2 ^ 32;
  dk_len : length (di_addrs di) = 13%nat; dk_addrs : Forall (fun a => 0 <= a < 2 ^ 32) (di_addrs di)
}.

Lemma i16_mod z : short z -> i16 (z mod 2 ^ (8 * Z.of_nat 2)) = z.
Proof.
  intros Hz. unfold i16. change (2 ^ (8 * Z.of_nat 2)) with (2 ^ 16). rewrite Zplus_mod_idemp_l.
  rewrite Z.mod_small; unfold short in Hz; lia.
Qed.

(** The length of a block some fields of which were written. *)
Ltac field_length :=
  first [lia | rewrite length_put_addrs by field_length; field_length | rewrite length_putn by field_length; field_length].

Lemma length_put_dinode o di d : length (di_addrs di) = 13%nat -> (o + 64 <= length d)%nat ->
  length (put_dinode o di d) = length d.
Proof. intros Hl Ho. unfold put_dinode. field_length. Qed.

(** A field read past fields that were written. *)
Ltac read_field :=
  repeat first [rewrite getn_put_addrs by field_length | rewrite getn_putn_same by field_length
               | rewrite getn_putn_other by field_length].

Lemma get_put_dinode o di d : dinode_ok di -> (o + 64 <= length d)%nat -> get_dinode o (put_dinode o di d) = di.
Proof.
  intros [H1 H2 H3 H4 H5 H6 H7] Ho. unfold get_dinode, put_dinode. destruct di as [ty ma mi nl sz ad]. simpl in H1, H2, H3, H4, H5, H6, H7.
  cbn [di_type di_major di_minor di_nlink di_size di_addrs].
  f_equal; [read_field; by apply i16_mod|read_field; by apply i16_mod|read_field; by apply i16_mod|read_field; by apply i16_mod
           |read_field; by apply Z.mod_small|].
  rewrite <- H6. apply get32_put_addrs; [field_length|done].
Qed.

(** The other inodes of the block keep their fields. *)
Lemma get_put_dinode_other o o' di d : length (di_addrs di) = 13%nat -> (o + 64 <= length d)%nat -> (o' + 64 <= length d)%nat ->
  (o' + 64 <= o \/ o + 64 <= o')%nat -> get_dinode o' (put_dinode o di d) = get_dinode o' d.
Proof.
  intros Hl Ho Ho' Hd. unfold get_dinode, put_dinode. f_equal; [by read_field|by read_field|by read_field|by read_field|by read_field|].
  apply map_ext_in. intros k Hk%in_seq. by read_field.
Qed.

Lemma dinode_off_range inum : (dinode_off inum + 64 <= 512)%nat.
Proof.
  unfold dinode_off. assert (0 <= inum mod IPB < 8) by (apply Z.mod_pos_bound; reflexivity). unfold sizeof_dinode. lia.
Qed.

Lemma dinode_off_apart i j : i mod IPB <> j mod IPB -> (dinode_off i + 64 <= dinode_off j \/ dinode_off j + 64 <= dinode_off i)%nat.
Proof.
  intros Hne. unfold dinode_off. assert (0 <= i mod IPB < 8) by (apply Z.mod_pos_bound; reflexivity).
  assert (0 <= j mod IPB < 8) by (apply Z.mod_pos_bound; reflexivity). unfold sizeof_dinode. lia.
Qed.

End Codec.

Section Inodes.
Context (start N : Z) (s : superblock) (dstart : Z) (m : memdisk) (Hly : layout start N s dstart m).
Implicit Types (f : Z -> list Z) (r : inode).
Abbreviation used := (used s).
Abbreviation is_bmap := (is_bmap s dstart).
Abbreviation is_data := (is_data s dstart).
Abbreviation disk_wf := (disk_wf s dstart m).
Abbreviation file_ok := (file_ok s dstart).

(** The block of inode [i], and its fields on the disk. *)
Definition iblock (i : Z) : Z := sb_inodestart s + i / IPB.
Definition disk_inode f (i : Z) : dinode := get_dinode (dinode_off i) (f (iblock i)).

Lemma iblock_range i : 0 <= i < sb_ninodes s -> sb_inodestart s <= iblock i < sb_bmapstart s.
Proof using Hly.
  intros Hi. destruct (ly_inodes _ _ _ _ _ Hly) as [_ H]. unfold iblock.
  assert (0 <= i / IPB) by (apply Z.div_pos; [lia|reflexivity]).
  assert (i / IPB <= (sb_ninodes s - 1) / IPB) by (apply Z.div_le_mono; [reflexivity|lia]). lia.
Qed.

Lemma bmapstart_lt : sb_bmapstart s < dstart.
Proof using Hly.
  pose proof (ly_bitmap _ _ _ _ _ Hly). destruct (ly_data _ _ _ _ _ Hly) as (? & ? & ?).
  assert (0 <= (sb_size s - 1) / BPB) by (apply Z.div_pos; [|reflexivity]; pose proof (inode_start_pos _ _ _ _ _ Hly);
    destruct (ly_geo _ _ _ _ _ Hly) as (? & _); pose proof (ly_nlog _ _ _ _ _ Hly); lia). lia.
Qed.

Lemma home_iblock i : 0 <= i < sb_ninodes s -> home start N m (iblock i).
Proof using Hly.
  intros Hi. pose proof (iblock_range i Hi). pose proof bmapstart_lt. destruct (ly_geo _ _ _ _ _ Hly) as (G1 & _).
  destruct (ly_data _ _ _ _ _ Hly) as (? & ? & ?). pose proof (ly_nlog _ _ _ _ _ Hly). pose proof (ly_log _ _ _ _ _ Hly).
  unfold home, in_log. lia.
Qed.

Lemma IBLOCK_eq i : 0 <= i < sb_ninodes s -> IBLOCK i s = iblock i.
Proof using Hly.
  intros Hi. destruct (home_iblock i Hi) as [Hr _]. destruct (ly_geo _ _ _ _ _ Hly) as (_ & _ & G3 & _).
  unfold IBLOCK. rewrite Z.add_comm. change (sb_inodestart s + i / IPB) with (iblock i). apply u32_id. lia.
Qed.

Lemma iblock_other i : 0 <= i < sb_ninodes s -> ~ is_bmap (iblock i) /\ ~ is_data (iblock i).
Proof using Hly. intros Hi. pose proof (iblock_range i Hi). pose proof bmapstart_lt. unfold is_bmap, is_data. lia. Qed.

(** *** The disk after the inode was written back *)

Definition save_inode f r : Z -> list Z :=
  bset (iblock (i_inum r)) (put_dinode (dinode_off (i_inum r)) (disk_fields r) (f (iblock (i_inum r)))) f.

Lemma same_inode i j : 0 <= i -> 0 <= j -> iblock i = iblock j -> i mod IPB = j mod IPB -> i = j.
Proof. unfold iblock. intros Hi Hj H1 H2. rewrite (Z.div_mod i IPB), (Z.div_mod j IPB), H2 by done. lia. Qed.

Section Save.
Context f r (Hwf : disk_wf f) (Hi : 0 <= i_inum r < sb_ninodes s) (Hdi : dinode_ok (disk_fields r)).

Lemma iblock_len i : 0 <= i < sb_ninodes s -> length (f (iblock i)) = 512%nat.
Proof using Hly Hwf. intros H. apply (wf_len _ _ _ _ Hwf). destruct (home_iblock i H) as [? _]. lia. Qed.

Lemma saved : disk_inode (save_inode f r) (i_inum r) = disk_fields r.
Proof using Hly Hwf Hi Hdi.
  unfold disk_inode, save_inode. rewrite bset_eq. apply get_put_dinode; [done|].
  rewrite iblock_len by done. apply dinode_off_range.
Qed.

Lemma saved_other i : 0 <= i < sb_ninodes s -> i <> i_inum r -> disk_inode (save_inode f r) i = disk_inode f i.
Proof using Hly Hwf Hi Hdi.
  intros Hj Hne. unfold disk_inode, save_inode, bset. destruct (Z.eqb_spec (iblock i) (iblock (i_inum r))) as [E|]; [|done].
  rewrite E. apply get_put_dinode_other; [apply Hdi|rewrite iblock_len by done; apply dinode_off_range
    |rewrite iblock_len by done; apply dinode_off_range|].
  destruct (dinode_off_apart i (i_inum r)); [|by auto..]. intros E'. apply Hne, same_inode; try done; lia.
Qed.

Lemma saved_wf : disk_wf (save_inode f r).
Proof using Hly Hwf Hi Hdi.
  apply (wf_bset _ _ _ _ _ Hly); [done|by apply iblock_other|]. rewrite length_put_dinode;
    [by apply iblock_len|apply Hdi|]. rewrite iblock_len by done. apply dinode_off_range.
Qed.

Lemma saved_block n : n <> iblock (i_inum r) -> save_inode f r n = f n.
Proof. intros. unfold save_inode. by rewrite bset_ne. Qed.

End Save.

(** A file depends on its data blocks and on the bitmap. *)
Section Same.
Context f f' r (Hok : file_ok f r) (Hsame : forall n, is_data n \/ is_bmap n -> f' n = f n).

Lemma same_iblk k : iblk f' r k = iblk f r k.
Proof using Hok Hsame.
  unfold iblk. destruct (k <? NDIRECT); [done|]. destruct (Z.eqb_spec (addr r NDIRECT) 0) as [|Hne]; [done|].
  rewrite Hsame; [done|]. left. by apply (fo_own _ _ _ _ Hok), owned_ind.
Qed.

Lemma same_owned n : owned f' r n <-> owned f r n.
Proof using Hok Hsame. unfold owned. by setoid_rewrite same_iblk. Qed.

Lemma same_used b : 0 <= b < sb_size s -> used f' b = used f b.
Proof using Hok Hsame Hly.
  intros Hb. unfold FsBlocks.used. rewrite Hsame; [done|]. right. by apply (bmap_block_range _ _ _ _ _ Hly).
Qed.

Lemma same_file : file_ok f' r.
Proof using Hok Hsame Hly.
  destruct (Hok) as [H1 H2 H3 H4 H5 H6 H7 H8]. constructor; try done; setoid_rewrite same_iblk || setoid_rewrite same_owned; try done.
  intros n Hn. destruct (H4 n Hn) as [Hd Hu]. split; [done|]. rewrite same_used; [done|].
  pose proof (data_range _ _ _ _ _ Hly n Hd). unfold FsBlocks.is_data in Hd. lia.
Qed.

Lemma same_byte i : 0 <= i < MAXFILE * BSIZE -> iblk f r (i / BSIZE) <> 0 -> fbyte f' r i = fbyte f r i.
Proof using Hok Hsame.
  intros Hi Hne. unfold fbyte. rewrite same_iblk, Hsame; [done|]. left. apply (fo_own _ _ _ _ Hok), owned_blk; [|done].
  split; [apply Z.div_pos; [lia|reflexivity]|]. apply Z.div_lt_upper_bound; [reflexivity|lia].
Qed.

End Same.

End Inodes.

(** ** The bytes of a file *)

Lemma slice_map o k (d : list Z) : (o + k <= length d)%nat -> slice o k d = map (fun i => nth (o + i) d 0) (seq 0 k).
Proof.
  intros Hl. apply list_eq_same_length with (n := k); [by rewrite length_map, length_seq|by apply length_slice|].
  intros i a b Hi Ha Hb. rewrite lookup_slice in Ha by done. rewrite list_lookup_fmap, lookup_seq_lt in Hb by done.
  simpl in Hb. injection Hb as <-. by rewrite nth_lookup, Ha.
Qed.

(** [n] bytes of the file from offset [off] on. *)
Definition fbytes (f : Z -> list Z) (r : inode) (off n : Z) : list Z := map (fun i => fbyte f r (off + i)) (seqZ 0 n).

Lemma fbytes_app f r off n k : 0 <= n -> 0 <= k -> fbytes f r off (n + k) = fbytes f r off n ++ fbytes f r (off + n) k.
Proof.
  intros Hn Hk. unfold fbytes. rewrite seqZ_app by done. rewrite map_app. f_equal. rewrite Z.add_0_l.
  unfold seqZ. rewrite !map_map. apply map_ext. intros i. f_equal. lia.
Qed.

Lemma chunk_range off tot n : tot < n -> 0 < chunk off tot n <= n - tot /\ off mod BSIZE + chunk off tot n <= BSIZE.
Proof. intros. unfold chunk. assert (0 <= off mod BSIZE < BSIZE) by (apply Z.mod_pos_bound; reflexivity). lia. Qed.

(** Unless it is the last one, a round ends at the end of a block. *)
Lemma chunk_next off tot n : 0 <= off -> tot + chunk off tot n < n ->
  (off + chunk off tot n) mod BSIZE + (n - (tot + chunk off tot n)) = off mod BSIZE + (n - tot) - BSIZE.
Proof.
  intros Ho Hlt. pose proof (Z.div_mod off BSIZE ltac:(done)) as Hdm. unfold chunk in *.
  rewrite Z.min_r in * by lia. replace ((off + (BSIZE - off mod BSIZE)) mod BSIZE) with 0; [lia|].
  apply Z.mod_unique with (q := off / BSIZE + 1); [unfold BSIZE; lia|lia].
Qed.

Lemma same_sector off i : 0 <= off -> 0 <= i -> off mod BSIZE + i < BSIZE ->
  (off + i) / BSIZE = off / BSIZE /\ (off + i) mod BSIZE = off mod BSIZE + i.
Proof.
  intros Ho Hi Hl. pose proof (Z.div_mod off BSIZE ltac:(done)). assert (0 <= off mod BSIZE < BSIZE) by (by apply Z.mod_pos_bound).
  split; symmetry; [apply Z.div_unique with (r := off mod BSIZE + i)|apply Z.mod_unique with (q := off / BSIZE)]; lia.
Qed.

Lemma fbytes_slice f r off k : 0 <= off -> 0 <= k -> off mod BSIZE + k <= BSIZE -> length (f (iblk f r (off / BSIZE))) = 512%nat ->
  slice (Z.to_nat (off mod BSIZE)) (Z.to_nat k) (f (iblk f r (off / BSIZE))) = fbytes f r off k.
Proof.
  intros Ho Hk Hl Hd. assert (0 <= off mod BSIZE < BSIZE) by (by apply Z.mod_pos_bound). unfold BSIZE in Hl at 2.
  rewrite slice_map by lia. unfold fbytes, seqZ. rewrite map_map. apply map_ext_in. intros i Hi%in_seq. unfold fbyte.
  destruct (same_sector off (Z.of_nat i)) as [E1 E2]; [lia|lia|unfold BSIZE in *; lia|].
  rewrite Z.add_0_r, E1, E2. f_equal. lia.
Qed.

(** ** What a write does to a file *)

Section Written.
Context (start N : Z) (s : superblock) (dstart : Z) (m : memdisk) (Hly : layout start N s dstart m).
Implicit Types (f : Z -> list Z) (r : inode) (src : list Z).
Abbreviation used := (used s).
Abbreviation is_bmap := (is_bmap s dstart).
Abbreviation is_data := (is_data s dstart).
Abbreviation disk_wf := (disk_wf s dstart m).
Abbreviation file_ok := (file_ok s dstart).
Abbreviation ext := (ext s dstart m).

(** The bytes at [off] are those of [src]; the rest of the file, and everything that is
    not of the file, is what it was. *)
Record written f r (off : Z) src f' r' : Prop := {
  wr_ok : file_ok f' r';
  wr_ext : ext f r f' r';
  wr_wf : disk_wf f';
  wr_in : forall i, (i < length src)%nat ->
    iblk f' r' ((off + Z.of_nat i) / BSIZE) <> 0 /\ fbyte f' r' (off + Z.of_nat i) = nth i src 0;
  wr_out : forall j, 0 <= j < MAXFILE * BSIZE -> iblk f r (j / BSIZE) <> 0 ->
    j < off \/ off + Z.of_nat (length src) <= j -> fbyte f' r' j = fbyte f r j;
  wr_same : off + Z.of_nat (length src) <= i_size r -> r' = r
}.

Lemma sector_range j : 0 <= j < MAXFILE * BSIZE -> 0 <= j / BSIZE < MAXFILE.
Proof. intros Hj. split; [apply Z.div_pos; [lia|reflexivity]|apply Z.div_lt_upper_bound; [reflexivity|lia]]. Qed.

Lemma written_nil f r off : file_ok f r -> disk_wf f -> written f r off [] f r.
Proof. intros Hok Hwf. constructor; try done; [apply ext_refl|]. simpl. lia. Qed.

Lemma written_app f r f1 r1 f2 r2 off s1 s2 : 0 <= off -> off + Z.of_nat (length (s1 ++ s2)) <= MAXFILE * BSIZE ->
  written f r off s1 f1 r1 -> written f1 r1 (off + Z.of_nat (length s1)) s2 f2 r2 -> written f r off (s1 ++ s2) f2 r2.
Proof using Hly.
  intros Ho Hmax [A1 A2 A3 A4 A5 A6] [B1 B2 B3 B4 B5 B6]. rewrite length_app in Hmax.
  assert (forall j, 0 <= j < MAXFILE * BSIZE -> iblk f r (j / BSIZE) <> 0 -> iblk f1 r1 (j / BSIZE) <> 0) as Hk.
  { intros j Hj Hne. rewrite (ex_blk _ _ _ _ _ _ _ A2); [done|by apply sector_range|done]. }
  constructor; try done.
  - exact (ext_trans _ _ _ _ _ Hly _ _ _ _ _ _ A1 B1 A2 B2).
  - intros i Hi. destruct (Nat.lt_ge_cases i (length s1)) as [Hl|Hl].
    + destruct (A4 i Hl) as [C1 C2]. assert (0 <= off + Z.of_nat i < MAXFILE * BSIZE) as Hr by lia. split.
      * rewrite (ex_blk _ _ _ _ _ _ _ B2); [done|by apply sector_range|done].
      * rewrite B5; [|done|done|lia]. rewrite C2. by rewrite app_nth1.
    + rewrite length_app in Hi. destruct (B4 (i - length s1)%nat) as [C1 C2]; [lia|].
      replace (off + Z.of_nat (length s1) + Z.of_nat (i - length s1)) with (off + Z.of_nat i) in * by lia.
      split; [done|]. rewrite C2. by rewrite app_nth2 by lia.
  - intros j Hj Hne Hout. rewrite length_app in Hout. rewrite B5; [|done|by apply Hk|lia]. apply A5; [done|done|lia].
  - rewrite length_app. intros Hs. rewrite B6; [apply A6; lia|]. rewrite A6 by lia. lia.
Qed.

(** *** New contents for a block of the file *)

Section Put.
Context f r (Hok : file_ok f r) (Hwf : disk_wf f) (bn : Z) (Hbn : 0 <= bn < MAXFILE) (Ha : iblk f r bn <> 0).
Context (d : list Z) (Hd : length d = 512%nat).
Abbreviation f' := (bset (iblk f r bn) d f).

Lemma put_iblk k : iblk f' r k = iblk f r k.
Proof using Hok Hbn Ha.
  unfold iblk at 1 3. destruct (k <? NDIRECT); [done|]. destruct (Z.eqb_spec (addr r NDIRECT) 0) as [|Hne]; [done|].
  rewrite bset_ne; [done|]. symmetry. by apply (fo_ind _ _ _ _ Hok).
Qed.

Lemma put_owned n : owned f' r n <-> owned f r n.
Proof using Hok Hbn Ha. unfold owned. by setoid_rewrite put_iblk. Qed.

Lemma put_data : is_data (iblk f r bn).
Proof using Hok Hbn Ha. by apply (fo_own _ _ _ _ Hok), owned_blk. Qed.

Lemma put_used b : 0 <= b < sb_size s -> used f' b = used f b.
Proof using Hok Hbn Ha Hly. intros Hb. apply (used_bset _ _ _ _ _ Hly); [done|]. by apply not_data_bmap, put_data. Qed.

Lemma put_ok : file_ok f' r.
Proof using Hok Hbn Ha Hly.
  clear Hd. destruct (Hok) as [H1 H2 H3 H4 H5 H6 H7 H8]. constructor; try done; setoid_rewrite put_iblk || setoid_rewrite put_owned; try done.
  intros n Hn. destruct (H4 n Hn) as [Hdt Hu]. split; [done|]. rewrite put_used; [done|].
  pose proof (data_range _ _ _ _ _ Hly n Hdt). unfold FsBlocks.is_data in Hdt. lia.
Qed.

Lemma put_ext : ext f r f' r.
Proof using Hok Hbn Ha Hly.
  constructor; [by destruct r|by intros; apply put_iblk|intros n; rewrite put_owned; by left
               |by intros n Hn; rewrite put_used|].
  intros n Hn Hb Ho _. apply bset_ne. intros ->. apply Ho. by apply owned_blk.
Qed.

Lemma put_wf : disk_wf f'.
Proof using Hok Hbn Ha Hly Hwf Hd. apply (wf_bset _ _ _ _ _ Hly); [done|apply not_data_bmap, put_data|done]. Qed.

End Put.

(** A round of [writei]: [bmap] and a [memmove] into the block. *)
Lemma written_round f r L bn a f1 r1 L1 off data : file_ok f r -> mapped s dstart m f r L bn a f1 r1 L1 -> a <> 0 ->
  0 <= off -> off / BSIZE = bn -> 0 <= bn < MAXFILE -> (0 < length data)%nat -> off mod BSIZE + Z.of_nat (length data) <= BSIZE ->
  written f r off data (bset a (splice (Z.to_nat (off mod BSIZE)) data (f1 a)) f1) r1.
Proof using Hly.
  intros Hok [M1 M2 M3 M4 M5 M6 M7 M8] Ha Ho Hoff Hbn Hdl Hfit. subst a.
  assert (0 <= off mod BSIZE < BSIZE) as Hmod by (by apply Z.mod_pos_bound).
  pose proof (put_data f1 r1 M1 bn Hbn Ha) as Hdat. pose proof (data_range _ _ _ _ _ Hly _ Hdat) as Hr.
  assert (length (f1 (iblk f1 r1 bn)) = 512%nat) as Hlen by (apply (wf_len _ _ _ _ M3); lia).
  assert (Z.to_nat (off mod BSIZE) + length data <= 512)%nat as Hfit' by (unfold BSIZE in *; lia).
  assert (length (splice (Z.to_nat (off mod BSIZE)) data (f1 (iblk f1 r1 bn))) = 512%nat) as Hsp by (rewrite length_splice; lia).
  constructor.
  - by apply put_ok.
  - eapply (ext_trans _ _ _ _ _ Hly); [exact M1| |exact M2|]; [by apply put_ok|by apply put_ext].
  - by apply put_wf.
  - intros i Hi. destruct (same_sector off (Z.of_nat i)) as [E1 E2]; [lia|lia|lia|]. rewrite put_iblk, E1, Hoff by done.
    split; [done|]. unfold fbyte. rewrite put_iblk, E1, E2, Hoff, bset_eq by done.
    rewrite !nth_lookup, lookup_splice_in by lia. do 2 f_equal. lia.
  - intros j Hj Hne Hout. pose proof (sector_range j Hj) as Hjr. unfold fbyte. rewrite put_iblk by done.
    rewrite (ex_blk _ _ _ _ _ _ _ M2 _ Hjr Hne). destruct (decide (j / BSIZE = bn)) as [E|E].
    + rewrite E. rewrite E in Hne. pose proof (ex_blk _ _ _ _ _ _ _ M2 _ Hbn Hne) as Eb. rewrite <- Eb at 1. rewrite bset_eq.
      rewrite !nth_lookup, lookup_splice_out; [by rewrite Eb, M5| lia|].
      pose proof (Z.div_mod j BSIZE ltac:(done)). pose proof (Z.div_mod off BSIZE ltac:(done)). rewrite E in *. rewrite Hoff in *.
      assert (0 <= j mod BSIZE) by (by apply Z.mod_pos_bound). lia.
    + rewrite bset_ne; [by rewrite M5|]. intros E'. apply E. rewrite <- (ex_blk _ _ _ _ _ _ _ M2) in E' by done.
      apply (fo_inj _ _ _ _ M1); try done. by rewrite E'.
  - intros Hs. apply M8. apply (fo_alloc _ _ _ _ Hok); [lia|]. subst bn. pose proof (Z.mul_div_le off BSIZE ltac:(done)). lia.
Qed.

(** *** The whole write *)

(** The fields of an inode other than its size and addresses fit their [short]s. *)
Definition shorts r : Prop := short (i_type r) /\ short (i_major r) /\ short (i_minor r) /\ short (i_nlink r).

Lemma fields_ok f r : file_ok f r -> shorts r -> dinode_ok (disk_fields r).
Proof using Hly.
  intros Hok (H1 & H2 & H3 & H4). pose proof (fo_size _ _ _ _ Hok) as Hsz. change (MAXFILE * BSIZE) with 71680 in Hsz.
  pose proof (fo_len _ _ _ _ Hok) as Hl. constructor; try done; [simpl; lia|]. simpl. apply Forall_lookup. intros i a Ha.
  assert (addr r (Z.of_nat i) = a) as E by (unfold addr; by rewrite Nat2Z.id, nth_lookup, Ha).
  apply lookup_lt_Some in Ha. destruct (decide (a = 0)) as [->|Hne]; [lia|].
  assert (owned f r a) as Ho.
  { split; [done|]. destruct (decide (Z.of_nat i = NDIRECT)) as [Ei|Ei]; [left; by rewrite <- Ei|right].
    exists (Z.of_nat i). assert (Z.of_nat i < NDIRECT) by (unfold NDIRECT in *; lia). split; [change MAXFILE with 140; unfold NDIRECT in *; lia|].
    unfold iblk. by destruct (Z.ltb_spec (Z.of_nat i) NDIRECT); [|lia]. }
  destruct (fo_own _ _ _ _ Hok a Ho) as [Hd _]. pose proof (data_range _ _ _ _ _ Hly a Hd).
  destruct (ly_geo _ _ _ _ _ Hly) as (_ & _ & ? & _). lia.
Qed.

(** What [writei] leaves. *)
Record stored f r (off : Z) src f' r' : Prop := {
  st_ok : file_ok f' r';
  st_wf : disk_wf f';
  st_inode : r' = set_i_addrs (i_addrs r') (set_i_size (Z.max (i_size r) (off + Z.of_nat (length src))) r);
  st_bytes : fbytes f' r' off (Z.of_nat (length src)) = src;
  st_rest : forall j, 0 <= j < i_size r -> j < off \/ off + Z.of_nat (length src) <= j -> fbyte f' r' j = fbyte f r j;
  st_disk : disk_inode s f (i_inum r) = disk_fields r -> disk_inode s f' (i_inum r) = disk_fields r';
  st_inodes : forall i, 0 <= i < sb_ninodes s -> i <> i_inum r -> disk_inode s f' i = disk_inode s f i;
  st_own : forall n, owned f' r' n -> owned f r n \/ used f n = false;
  st_used : forall n, 0 <= n < sb_size s -> used f n = true -> used f' n = true;
  st_other : forall n, home start N m n -> ~ is_bmap n -> n <> iblock s (i_inum r) -> ~ owned f r n ->
    (is_data n -> used f n = true) -> f' n = f n
}.

Lemma grow_size f r off src f' r' : file_ok f r -> written f r off src f' r' -> 0 <= off <= i_size r ->
  i_size r < off + Z.of_nat (length src) <= MAXFILE * BSIZE -> file_ok f' (set_i_size (off + Z.of_nat (length src)) r').
Proof.
  intros Hok [[H1 H2 H3 H4 H5 H6 H7 H8] A2 A3 A4 A5 A6] Ho Hs. constructor; try done; [simpl; lia|].
  intros bn Hb Hlt. change (iblk f' r' bn <> 0). simpl in Hlt.
  destruct (Z.lt_ge_cases (bn * BSIZE) (i_size r)) as [Hl|Hl].
  - apply H8; [done|]. by rewrite (ex_inode _ _ _ _ _ _ _ A2).
  - destruct (A4 (Z.to_nat (bn * BSIZE - off))) as [E _]; [lia|].
    rewrite Z2Nat.id in E by lia. replace (off + (bn * BSIZE - off)) with (bn * BSIZE) in E by lia.
    by rewrite Z.div_mul in E.
Qed.

Lemma fbytes_written f r off src f' r' : written f r off src f' r' -> fbytes f' r' off (Z.of_nat (length src)) = src.
Proof.
  intros Hw. apply list_eq_same_length with (n := length src); [done|unfold fbytes; rewrite length_map, length_seqZ; lia|].
  intros i a b Hi Ha Hb. unfold fbytes in Ha. rewrite list_lookup_fmap, lookup_seqZ_lt in Ha by lia. cbn [fmap option_fmap option_map] in Ha. rewrite Z.add_0_l in Ha. injection Ha as <-.
  destruct (wr_in _ _ _ _ _ _ Hw i Hi) as [_ E]. rewrite E, nth_lookup, Hb. done.
Qed.

Lemma stored_grown f r off src f' r' : file_ok f r -> shorts r -> written f r off src f' r' -> 0 <= off <= i_size r ->
  i_size r < off + Z.of_nat (length src) <= MAXFILE * BSIZE ->
  let r2 := set_i_size (off + Z.of_nat (length src)) r' in stored f r off src (save_inode s f' r2) r2.
Proof using Hly.
  intros Hok Hsh Hw Ho Hs r2. pose proof (grow_size _ _ _ _ _ _ Hok Hw Ho Hs) as Hok2. fold r2 in Hok2.
  destruct (Hw) as [A1 A2 A3 A4 A5 A6]. pose proof (ex_inode _ _ _ _ _ _ _ A2) as Hin.
  assert (shorts r2) as Hsh2 by (unfold r2; rewrite Hin; done). assert (i_inum r2 = i_inum r) as Hi by (unfold r2; by rewrite Hin).
  pose proof (fo_inum _ _ _ _ Hok) as Hir.
  pose proof (fields_ok f' r2 Hok2 Hsh2) as Hdi. destruct (iblock_other _ _ _ _ _ Hly _ Hir) as [Hnb Hnd].
  assert (forall n, is_data n \/ is_bmap n -> save_inode s f' r2 n = f' n) as Hsame.
  { intros n Hn. apply saved_block. rewrite Hi. by intros ->; destruct Hn. }
  assert (forall j, 0 <= j < i_size r2 -> fbyte (save_inode s f' r2) r2 j = fbyte f' r' j) as Hfb.
  { intros j Hj. change (fbyte f' r' j) with (fbyte f' r2 j). eapply same_byte; try done; simpl in Hj; [lia|].
    apply (fo_alloc _ _ _ _ Hok2); [apply Z.div_pos; [lia|reflexivity]|]. simpl. pose proof (Z.mul_div_le j BSIZE ltac:(done)). lia. }
  constructor.
  - eapply (same_file _ _ _ _ _ Hly); done.
  - apply (saved_wf _ _ _ _ _ Hly); rewrite ?Hi; done.
  - unfold r2. rewrite Hin, Z.max_r by lia. done.
  - transitivity (fbytes f' r' off (Z.of_nat (length src))); [|by apply (fbytes_written _ _ _ _ _ _ Hw)]. unfold fbytes. apply map_ext_in. intros i Hin'%list_elem_of_In%elem_of_seqZ.
    apply Hfb. simpl. lia.
  - intros j Hj Hout. rewrite Hfb by (simpl; lia). apply A5; [lia| |done].
    apply (fo_alloc _ _ _ _ Hok); [apply Z.div_pos; [lia|reflexivity]|]. pose proof (Z.mul_div_le j BSIZE ltac:(done)). lia.
  - intros _. rewrite <- Hi. apply (saved _ _ _ _ _ Hly); rewrite ?Hi; done.
  - intros i Hir' Hne. rewrite (saved_other _ _ _ _ _ Hly) by (rewrite ?Hi; done). unfold disk_inode. f_equal.
    destruct (iblock_other _ _ _ _ _ Hly i Hir') as [Hb Hd]. destruct (home_iblock _ _ _ _ _ Hly i Hir') as [Hr _].
    apply (ex_other _ _ _ _ _ _ _ A2); [lia|done| |done]. intros Hown. by apply (fo_own _ _ _ _ Hok) in Hown as [? _].
  - intros n Hn. apply (ex_own _ _ _ _ _ _ _ A2). change (owned (save_inode s f' r2) r2 n) in Hn. by eapply (same_owned s dstart f' _ r2 Hok2 Hsame) in Hn.
  - intros n Hn Hu. rewrite (same_used _ _ _ _ _ Hly f' _ r2 Hok2 Hsame) by done. by apply (ex_used _ _ _ _ _ _ _ A2).
  - intros n [Hn _] Hb Hni Ho' Hu. rewrite saved_block by (rewrite Hi; done). apply (ex_other _ _ _ _ _ _ _ A2); (done || lia).
Qed.

Lemma stored_inside f r off src f' r' : file_ok f r -> written f r off src f' r' -> 0 <= off ->
  off + Z.of_nat (length src) <= i_size r -> stored f r off src f' r'.
Proof using Hly.
  intros Hok Hw Ho Hs. destruct (Hw) as [A1 A2 A3 A4 A5 A6]. specialize (A6 Hs). subst r'.
  pose proof (fo_size _ _ _ _ Hok) as Hsz. pose proof (fo_inum _ _ _ _ Hok) as Hir.
  assert (forall i, 0 <= i < sb_ninodes s -> disk_inode s f' i = disk_inode s f i) as Hdi.
  { intros i Hi. unfold disk_inode. f_equal.
    destruct (iblock_other _ _ _ _ _ Hly i Hi) as [Hb Hd]. destruct (home_iblock _ _ _ _ _ Hly i Hi) as [Hr _].
    apply (ex_other _ _ _ _ _ _ _ A2); [lia|done| |done]. intros Hown. by apply (fo_own _ _ _ _ Hok) in Hown as [? _]. }
  constructor; try done.
  - rewrite Z.max_l by lia. by destruct r.
  - by apply (fbytes_written _ _ _ _ _ _ Hw).
  - intros j Hj Hout. apply A5; [lia| |done].
    apply (fo_alloc _ _ _ _ Hok); [apply Z.div_pos; [lia|reflexivity]|]. pose proof (Z.mul_div_le j BSIZE ltac:(done)). lia.
  - by rewrite Hdi.
  - intros i Hi _. by apply Hdi.
  - apply (ex_own _ _ _ _ _ _ _ A2).
  - apply (ex_used _ _ _ _ _ _ _ A2).
  - intros n [Hn _] Hb _ Ho' Hu. apply (ex_other _ _ _ _ _ _ _ A2); (done || lia).
Qed.

End Written.

Section Facts.
Context {S : Type} `{PL : ProcsLaws sys S} `{DV : DevSw S} (fuel : nat) (pid : Z).
Context (start N : Z) (s : superblock) (dstart : Z) (m : memdisk) (Hly : layout start N s dstart m).
Context (y0 : sys) (ip : nat) (Hip : (ip < length (inodes y0))%nat) (Hsb : sb y0 = s).
Implicit Types (hb : list (nat * Z)) (L : list Z) (f : Z -> list Z) (r : inode) (x : sys).
Abbreviation does := (does (X := sys) (S := S) pid).
Abbreviation Tx := (Tx pid start N).
Abbreviation budget := (budget N).
Abbreviation used := (used s).
Abbreviation is_bmap := (is_bmap s dstart).
Abbreviation is_data := (is_data s dstart).
Abbreviation disk_wf := (disk_wf s dstart m).
Abbreviation file_ok := (file_ok s dstart).
Abbreviation ext := (ext s dstart m).
Abbreviation with_inode := (with_inode y0 ip).

Lemma inode_load k hb L U f r :
  does k (Tx hb L U f m (with_inode r)) (load (c_inode ip)) k (fun a x => a = r /\ Tx hb L U f m (with_inode r) x).
Proof using Hip. apply tx_load; [apply _|]. by apply inode_here. Qed.

Lemma iupdate_does k L f r : i_dev r = 1 -> 0 <= i_inum r < sb_ninodes s -> budget (Datatypes.S k) L ->
  does 0 (Tx [] L None f m (with_inode r)) (iupdate fuel ip) 0
    (fun _ x => Tx [] (log_add (iblock s (i_inum r)) L) None (save_inode s f r) m (with_inode r) x).
Proof using Hip Hsb Hly.
  intros Hdev Hi Hbud. unfold iupdate. pose proof (home_iblock _ _ _ _ _ Hly _ Hi) as Hh. destruct (Hh) as [Hr _].
  eapply does_bind_eq; [apply inode_load|]. eapply does_bind_eq; [apply sb_load; by apply with_inode_sb|].
  rewrite (IBLOCK_eq _ _ _ _ _ Hly) by done. rewrite Hdev.
  eapply does_bind; [eapply (tx_bread fuel pid start N (Datatypes.S k)); [lia|apply not_elem_of_nil|done|simpl; lia]|]. intros bp.
  eapply does_bind_eq; [apply inode_load|].
  eapply does_bind_tt; [apply (tx_update pid start N _ _ _ _ _ _ bp (iblock s (i_inum r))); [by left|by left]|].
  eapply does_bind_tt; [apply (tx_log_write pid start N k _ _ _ _ _ _ bp (iblock s (i_inum r)));
    [apply Hly|by left|done|done|by right]|].
  apply tx_brelse; [lia|done].
Qed.

(** *** readi *)

Lemma readi_loop_does L f r : file_ok f r -> disk_wf f -> budget 0 L -> forall k off tot n dst,
  0 <= off -> 0 <= tot <= n -> off + (n - tot) <= i_size r -> (0 < k)%nat ->
  (tot < n -> off mod BSIZE + (n - tot) <= BSIZE * (Z.of_nat k - 1)) ->
  does 0 (Tx [] L None f m (with_inode r)) (readi_loop fuel k ip off tot n dst) 0
    (fun a x => a = dst ++ fbytes f r off (n - tot) /\ Tx [] L None f m (with_inode r) x).
Proof using Hip Hsb Hly.
  intros Hok Hwf Hbud. pose proof (fo_size _ _ _ _ Hok) as Hsz.
  induction k as [|k IH]; intros off tot n dst Ho Ht Hs Hk Hm; [lia|]. cbn [readi_loop].
  destruct (Z.ltb_spec tot n) as [Hlt|Hge].
  2:{ apply does_ret. intros x Hx. split; [|done]. replace (n - tot) with 0 by lia. unfold fbytes. simpl. by rewrite app_nil_r. }
  specialize (Hm Hlt). destruct (chunk_range off tot n Hlt) as [Hc1 Hc2].
  assert (0 <= off / BSIZE) as Hb0 by (apply Z.div_pos; [lia|reflexivity]).
  assert (off / BSIZE < MAXFILE) as Hb1 by (apply Z.div_lt_upper_bound; [reflexivity|lia]).
  assert (iblk f r (off / BSIZE) <> 0) as Hne.
  { apply (fo_alloc _ _ _ _ Hok); [done|]. pose proof (Z.mul_div_le off BSIZE ltac:(done)). lia. }
  destruct (fo_own _ _ _ _ Hok _ (owned_blk f r _ (conj Hb0 Hb1) Hne)) as [Hd _]. pose proof (data_range _ _ _ _ _ Hly _ Hd) as Hr.
  eapply does_bind_eq; [by apply (ino_load pid start N m y0 ip Hip 0 _ _ _ _ _ c_i_dev)|]. rewrite (fo_dev _ _ _ _ Hok).
  eapply does_bind_eq; [by apply (bmap_present fuel pid start N s dstart m Hly y0 ip Hip Hsb 0); [..|apply not_elem_of_nil|done|simpl; lia]|].
  eapply does_bind; [eapply (tx_bread fuel pid start N 0); [lia|apply not_elem_of_nil|done|simpl; lia]|]. intros bp.
  eapply does_bind_eq; [apply (tx_data pid start N 0 _ _ _ _ _ _ bp (iblk f r (off / BSIZE))); by left|].
  eapply does_bind_tt; [apply tx_brelse; [lia|done]|].
  rewrite fbytes_slice; [|lia|lia|done|by apply (wf_len _ _ _ _ Hwf); lia].
  assert (0 < k)%nat as Hk' by (assert (0 <= off mod BSIZE) by (by apply Z.mod_pos_bound); unfold BSIZE in *; lia).
  eapply does_post; [apply IH; try lia|].
  - intros Hlt'. rewrite chunk_next by done. lia.
  - intros a x [-> Hx]. split; [|done]. rewrite <- app_assoc, <- fbytes_app by lia. do 2 f_equal. lia.
Qed.

Lemma io_rounds_enough off n : 0 <= n -> off mod BSIZE + n <= BSIZE * (Z.of_nat (io_rounds n) - 1).
Proof.
  intros Hn. assert (0 <= off mod BSIZE < BSIZE) as Hm by (by apply Z.mod_pos_bound). unfold io_rounds. unfold BSIZE in *.
  pose proof (Z.div_mod n 512 ltac:(done)). pose proof (Z.mod_pos_bound n 512 ltac:(done)). lia.
Qed.

(** [readi] of a file that is not a device: the bytes up to the end of the file. *)
Lemma readi_does L f r off n : file_ok f r -> disk_wf f -> budget 0 L -> i_type r <> T_DEV ->
  0 <= off <= i_size r -> 0 <= n -> off + n < 2 ^ 31 ->
  let n' := Z.min n (i_size r - off) in
  does 0 (Tx [] L None f m (with_inode r)) (readi fuel ip off n) 0
    (fun a x => a = (n', fbytes f r off n') /\ Tx [] L None f m (with_inode r) x).
Proof using Hip Hsb Hly.
  intros Hok Hwf Hbud Hty Ho Hn Hlt n'. pose proof (fo_size _ _ _ _ Hok) as Hsz. change (MAXFILE * BSIZE) with 71680 in Hsz.
  unfold readi. eapply does_bind_eq; [apply inode_load|].
  rewrite (proj2 (Z.eqb_neq _ _) Hty), u32_id by lia. rewrite (proj2 (Z.ltb_ge _ _)), (proj2 (Z.ltb_ge (off + n) off)) by lia.
  cbn [orb]. replace (if i_size r <? off + n then u32 (i_size r - off) else n) with n'.
  2:{ destruct (Z.ltb_spec (i_size r) (off + n)); rewrite ?u32_id by lia; lia. }
  cbv zeta. eapply does_bind_eq.
  - eapply does_post; [apply (readi_loop_does L f r Hok Hwf Hbud); try lia|].
    + unfold io_rounds. pose proof (Z.div_pos n' BSIZE ltac:(lia) ltac:(done)). lia.
    + intros _. rewrite Z.sub_0_r. apply io_rounds_enough. lia.
    + cbv beta. rewrite Z.sub_0_r, app_nil_l. by intros a x ?.
  - apply does_ret. intros x Hx. split; [|done]. rewrite i32_id by lia. done.
Qed.

(** *** writei *)

Lemma writei_loop_does e : forall q k L f r src off tot n,
  file_ok f r -> disk_wf f -> 0 <= off -> 0 <= tot <= n -> Z.of_nat (length src) = n - tot ->
  off + (n - tot) <= MAXFILE * BSIZE -> (q < k)%nat -> (tot < n -> off mod BSIZE + (n - tot) <= BSIZE * Z.of_nat q) ->
  budget (6 * q + e) L -> (2 * q <= nfree s f)%nat ->
  does 0 (Tx [] L None f m (with_inode r)) (writei_loop fuel k ip src off tot n) 0
    (fun a x => exists f' r' L', (Tx [] L' None f' m (with_inode r') x /\ a = off + (n - tot)) /\
       written s dstart m f r off src f' r' /\ (length L' <= length L + 6 * q)%nat /\ (nfree s f <= nfree s f' + 2 * q)%nat).
Proof using Hip Hsb Hly.
  induction q as [|q IH]; intros k L f r src off tot n Hok Hwf Ho Ht Hsrc Hmax Hk Hq Hbud Hfree;
    (destruct k as [|k]; [lia|]); cbn [writei_loop]; (destruct (Z.ltb_spec tot n) as [Hlt|Hge];
    [|apply does_ret; intros x Hx; destruct src; [|simpl in Hsrc; lia]; exists f, r, L; split; [split; [done|lia]|];
      split; [by apply written_nil|lia]]).
  { assert (0 <= off mod BSIZE) by (by apply Z.mod_pos_bound). specialize (Hq Hlt). lia. }
  specialize (Hq Hlt). destruct (chunk_range off tot n Hlt) as [Hc1 Hc2]. set (c := chunk off tot n) in *.
  assert (0 <= off / BSIZE < MAXFILE) as Hb by (apply sector_range; lia).
  eapply does_bind_eq; [by apply (ino_load pid start N m y0 ip Hip 0 _ _ _ _ _ c_i_dev)|]. rewrite (fo_dev _ _ _ _ Hok).
  eapply does_bind; [apply (bmap_does fuel pid start N s dstart m Hly y0 ip Hip Hsb (6 * q + e)); try done; [|lia]|].
  { eapply budget_le; [exact Hbud|lia]. }
  intros a. apply does_ex. intros f1. apply does_ex. intros r1. apply does_ex. intros L1. apply does_when. intros [Ha Hmp].
  destruct (Hmp) as [M1 M2 M3 M4 M5 M6 M7 M8]. rewrite <- M4 in Ha.
  pose proof (put_data s dstart f1 r1 M1 _ Hb Ha) as Hd. pose proof (data_range _ _ _ _ _ Hly _ Hd) as Har. rewrite M4 in Ha, Hd, Har.
  assert (length (take (Z.to_nat c) src) = Z.to_nat c) as Hlt1 by (rewrite length_take; lia).
  eapply does_bind; [eapply (tx_bread fuel pid start N (1 + 6 * q + e)); [lia|apply not_elem_of_nil| |simpl; lia]|].
  { eapply budget_le; [exact Hbud|lia]. }
  intros bp. eapply does_bind_tt; [apply (tx_update pid start N _ _ _ _ _ _ bp a); [by left|by left]|].
  eapply does_bind_tt; [apply (tx_log_write pid start N (6 * q + e) _ _ _ _ _ _ bp a);
    [apply Hly|by left|by apply (home_data _ _ _ _ _ Hly)|eapply budget_le; [exact Hbud|lia]|by right]|].
  eapply does_bind_tt; [apply tx_brelse; [lia|done]|].
  assert (written s dstart m f r off (take (Z.to_nat c) src) (bset a (splice (Z.to_nat (off mod BSIZE)) (take (Z.to_nat c) src) (f1 a)) f1) r1) as Hw.
  { apply (written_round start N s dstart m Hly f r L (off / BSIZE) a f1 r1 L1); try done; lia. }
  set (f2 := bset a _ f1) in *. pose proof (log_add_length a L1) as HL1.
  assert (nfree s f2 = nfree s f1) as Hnf.
  { apply nfree_ext. intros b Hbb. apply (used_bset _ _ _ _ _ Hly); [done|]. by apply not_data_bmap. }
  eapply does_post; [apply (IH k (log_add a L1) f2 r1 (drop (Z.to_nat c) src) (off + c) (tot + c) n); try lia|].
  - apply Hw.
  - apply Hw.
  - rewrite length_drop. lia.
  - intros Hlt'. unfold c in *. rewrite chunk_next by done. lia.
  - eapply budget_le; [exact Hbud|]. lia.
  - intros o x (f' & r' & L' & [Hx ->] & Hw' & HL' & Hf'). exists f', r', L'. split; [split; [done|lia]|]. split; [|lia].
    rewrite <- (take_drop (Z.to_nat c) src). apply (written_app start N s dstart m Hly f r f2 r1); [lia| |done|].
    + rewrite take_drop. lia.
    + rewrite Hlt1, Z2Nat.id by lia. done.
Qed.

(** [writei] on a file: all the bytes are stored. *)
Lemma writei_does e q L f r src off : file_ok f r -> disk_wf f -> shorts r -> i_type r <> T_DEV ->
  0 <= off <= i_size r -> off + Z.of_nat (length src) <= MAXFILE * BSIZE ->
  off mod BSIZE + Z.of_nat (length src) <= BSIZE * Z.of_nat q -> (q < io_rounds (Z.of_nat (length src)))%nat ->
  budget (6 * q + 1 + e) L -> (2 * q <= nfree s f)%nat ->
  does 0 (Tx [] L None f m (with_inode r)) (writei fuel ip src off (Z.of_nat (length src))) 0
    (fun a x => exists f' r' L', (Tx [] L' None f' m (with_inode r') x /\ a = Z.of_nat (length src)) /\
       stored start N s dstart m f r off src f' r' /\ (length L' <= length L + 6 * q + 1)%nat /\ (nfree s f <= nfree s f' + 2 * q)%nat).
Proof using Hip Hsb Hly.
  intros Hok Hwf Hsh Hty Ho Hmax Hq Hr Hbud Hfree. pose proof (fo_size _ _ _ _ Hok) as Hsz. unfold writei.
  change (MAXFILE * BSIZE) with 71680 in Hsz, Hmax. eapply does_bind_eq; [apply inode_load|].
  rewrite (proj2 (Z.eqb_neq _ _) Hty), u32_id by lia. rewrite (proj2 (Z.ltb_ge _ _)), (proj2 (Z.ltb_ge (off + Z.of_nat (length src)) off)) by lia.
  cbn [orb]. rewrite (proj2 (Z.ltb_ge (MAXFILE * BSIZE) _)) by (change (MAXFILE * BSIZE) with 71680; lia).
  eapply does_bind; [apply (writei_loop_does (1 + e) q); try done; try lia|].
  { change (MAXFILE * BSIZE) with 71680. lia. }
  { eapply budget_le; [exact Hbud|lia]. }
  rewrite Z.sub_0_r. intros a. apply does_ex. intros f1. apply does_ex. intros r1. apply does_ex. intros L1.
  eapply does_pre; [|intros x [[Hx Ha] HF]; exact (conj Hx (conj Ha HF))]. apply does_when. intros (-> & Hw & HL & Hnf).
  eapply does_bind_eq; [apply inode_load|]. pose proof (ex_inode _ _ _ _ _ _ _ (wr_ext _ _ _ _ _ _ _ _ _ Hw)) as Hin.
  assert (i_size r1 = i_size r) as Es by (by rewrite Hin). rewrite Es.
  destruct (Z.ltb_spec (i_size r) (off + Z.of_nat (length src))) as [Hlt|Hge].
  - rewrite (proj2 (Z.ltb_lt 0 _)) by lia. cbn [andb when].
    eapply does_bind_tt; [eapply does_bind_tt; [by apply (ino_store pid start N m y0 ip Hip 0 _ _ _ _ _ c_i_size _ (i_size r1))|]|].
    + apply (iupdate_does e); [by rewrite Hin; simpl; apply Hok|by rewrite Hin; simpl; apply Hok|].
      eapply budget_le; [exact Hbud|lia].
    + apply does_ret. intros x Hx. eexists _, _, _. split; [split; [exact Hx|apply i32_id; lia]|].
      split; [by apply (stored_grown _ _ _ _ _ Hly f r off src f1 r1)|]. split; [etrans; [apply log_add_length|lia]|].
      rewrite (nfree_ext s f1 (save_inode s f1 _)); [done|]. intros b Hb. apply (used_bset _ _ _ _ _ Hly); [done|].
      apply (iblock_other _ _ _ _ _ Hly). rewrite Hin. simpl. apply Hok.
  - rewrite andb_false_r. cbn [when]. eapply does_bind_tt; [by apply does_ret|]. apply does_ret. intros x Hx.
    exists f1, r1, L1. split; [split; [done|apply i32_id; lia]|]. split; [apply (stored_inside _ _ _ _ _ Hly); (done || lia)|lia].
Qed.

(** *** ilock and iunlock *)

(** The fields [ilock] reads from the disk. *)
Definition fill_inode (di : dinode) r : inode :=
  mkInode (i_dev r) (i_inum r) (i_ref r) (i_lock r) 1 (di_type di) (di_major di) (di_minor di) (di_nlink di) (di_size di) (di_addrs di).

(** The inode once it is locked. *)
Definition locked_inode f r : inode :=
  set_i_lock (sl_take pid (i_lock r)) (if i_valid r =? 0 then fill_inode (disk_inode s f (i_inum r)) r else r).

#[local] Instance inode_part_laws {Z : Type} (d : cell inode Z) : CellLaws d -> CellLaws (c_inode ip @ d).
Proof. intros Hd. apply inside_laws; [apply inside_laws; apply _|done]. Qed.

(** Code that works on one field of the inode. *)
Lemma ino_runs {Z A : Type} hb L U f r (d : cell inode Z) v v' (a : A) (c : M S A) : cget d r = Some v ->
  (forall x, cget (c_inode ip @ d) x = Some v -> runs (X := sys) pid 0 c x 0 a (cset (c_inode ip @ d) v' x)) ->
  does 0 (Tx hb L U f m (with_inode r)) c 0 (fun b x => b = a /\ Tx hb L U f m (with_inode (cset d v' r)) x).
Proof using Hip.
  intros Hd Hc x Hx. exists a, (cset (c_inode ip @ d) v' x).
  assert (cget (c_inode ip @ d) (with_inode r) = Some v) as Hg by (eapply inside_get; [by apply inode_here|done]).
  split; [apply Hc; by rewrite (tx_get _ _ _ (c_inode ip @ d) _ _ _ _ _ _ _ Hx)|]. split; [done|].
  apply (tx_set pid start N (c_inode ip @ d) _ _ _ _ _ _ _ v') in Hx.
  rewrite (inside_set _ _ _ r) in Hx by (by apply inode_here). unfold FsFile.with_inode in *. by rewrite cset_cset in Hx.
Qed.

Lemma ilock_does L f r : 1 <= i_ref r -> sl_free (i_lock r) -> i_dev r = 1 -> 0 <= i_inum r < sb_ninodes s -> budget 0 L ->
  i_type (locked_inode f r) <> 0 ->
  does 0 (Tx [] L None f m (with_inode r)) (ilock fuel (Some ip)) 0
    (fun _ x => Tx [] L None f m (with_inode (locked_inode f r)) x).
Proof using Hip Hsb Hly.
  intros Href Hl Hdev Hi Hbud Hty. unfold ilock. pose proof (home_iblock _ _ _ _ _ Hly _ Hi) as [Hr _].
  eapply does_bind_eq; [by apply (ino_load pid start N m y0 ip Hip 0 _ _ _ _ _ c_i_ref)|]. rewrite (proj2 (Z.ltb_ge _ _)) by lia.
  eapply does_bind_eq.
  { apply (ino_runs _ _ _ _ _ c_i_lock (i_lock r) (sl_take pid (i_lock r)) tt); [done|]. intros x Hx. by apply acquiresleep_runs; [apply _|..]. }
  eapply does_bind_eq; [by apply (ino_load pid start N m y0 ip Hip 0 _ _ _ _ _ c_i_valid)|]. cbn [c_i_valid].
  unfold locked_inode in *. change (i_valid (cset c_i_lock (sl_take pid (i_lock r)) r)) with (i_valid r).
  destruct (i_valid r =? 0); cbn [when]; [|by apply does_ret].
  eapply does_bind_eq; [apply inode_load|]. eapply does_bind_eq; [apply sb_load; by apply with_inode_sb|].
  cbn [i_dev i_inum cset c_i_lock field set_i_lock]. rewrite Hdev, (IBLOCK_eq _ _ _ _ _ Hly) by done.
  eapply does_bind; [eapply (tx_bread fuel pid start N 0); [lia|apply not_elem_of_nil|done|simpl; lia]|]. intros bp.
  eapply does_bind_eq; [apply (tx_data pid start N 0 _ _ _ _ _ _ bp (iblock s (i_inum r))); by left|].
  do 6 (eapply does_bind_tt; [eapply (ino_store pid start N m y0 ip Hip 0); reflexivity|]).
  eapply does_bind_tt; [apply tx_brelse; [lia|done]|].
  eapply does_bind_tt; [eapply (ino_store pid start N m y0 ip Hip 0); reflexivity|].
  eapply does_bind_eq; [by apply (ino_load pid start N m y0 ip Hip 0 _ _ _ _ _ c_i_type)|].
  rewrite (proj2 (Z.eqb_neq _ _)); [|exact Hty]. by apply does_ret.
Qed.

Lemma iunlock_does L f r : 1 <= i_ref r -> sl_held pid (i_lock r) ->
  does 0 (Tx [] L None f m (with_inode r)) (iunlock (Some ip)) 0
    (fun _ x => Tx [] L None f m (with_inode (set_i_lock (sl_drop (i_lock r)) r)) x).
Proof using Hip Hsb Hly.
  intros Href Hl. unfold iunlock. eapply does_bind_eq.
  { apply (ino_runs _ _ _ _ _ c_i_lock (i_lock r) (i_lock r) true); [done|]. intros x Hx.
    rewrite (cset_same (c := c_inode ip @ c_i_lock) _ _ Hx). by apply (holdingsleep_held pid _ x (i_lock r)). }
  cbn [negb]. replace (cset c_i_lock (i_lock r) r) with r by (by destruct r).
  eapply does_bind_eq; [by apply (ino_load pid start N m y0 ip Hip 0 _ _ _ _ _ c_i_ref)|]. rewrite (proj2 (Z.ltb_ge _ _)) by lia.
  eapply does_post.
  { apply (ino_runs _ _ _ _ _ c_i_lock (i_lock r) (sl_drop (i_lock r)) tt); [done|]. intros x Hx. apply releasesleep_runs; [apply _|done|apply Hl]. }
  by intros [] x [_ Hx].
Qed.

End Facts.
