(* ===== verification/FsCall.v ===== *)
(** * File system calls as transactions

    Between two file system calls the log is empty, the cache has no dirty block and the
    disk holds a file system.  A call leads from there into a transaction and back,
    and a crash anywhere leaves the contents of the disk before the call or after it. *)

From stdpp Require Import base tactics list sets strings gmap.
From Stdlib Require Import ZArith Lia.
From S2P Require Import Prelude Params StringC Spinlock ProcState Comp SysState Words Solo Sleeplock Bio Log Crash Fs FsTx FsBlocks FsFile FsIo.
Open Scope Z_scope.

Section Disks.
Context (start N : Z) (s : superblock) (dstart : Z).
Implicit Types (L : list Z) (f g : Z -> list Z) (m : memdisk) (W : writes).
Abbreviation layout := (layout start N s dstart).
Abbreviation home := (home start N).
Abbreviation in_log := (in_log start N).
Abbreviation logged := (logged start N).
Abbreviation disk_wf := (disk_wf s dstart).
Abbreviation recovers := (recovers start N).

(** A disk with a file system and an empty log. *)
Record consistent m : Prop := {
  cs_layout : layout m;
  cs_sb : sb_says start N (block_in m 1);
  cs_head : head_is [] (block_in m start);
  cs_wf : disk_wf m (block_in m)
}.

(** The writes [W] take the disk from [m] to contents [f], all at once. *)
Record commits m f W : Prop := {
  cm_atomic : forall k, recovers (apply_writes (take k W) m) (block_in m) \/ recovers (apply_writes (take k W) m) f;
  cm_home : forall n, home m n -> block_in (apply_writes W m) n = f n;
  cm_ok : consistent (apply_writes W m)
}.

Lemma set_all_len W n : forall f, length (f n) = 512%nat -> Forall (fun w => length w.2 = 512%nat) W ->
  length (set_all W f n) = 512%nat.
Proof.
  induction W as [|w W IH]; intros f Hf HW; [done|]. apply Forall_cons in HW as [Hw HW]. rewrite set_all_cons. apply IH; [|done].
  unfold bset. by destruct (n =? w.1).
Qed.

Lemma consistent_recovers m : consistent m -> 0 < N -> recovers m (block_in m).
Proof.
  intros Hm HN. destruct (cs_layout _ Hm) as [(G1 & G2 & _) _ _ _ _ _]. constructor; [|apply Hm|].
  - apply (wf_len _ _ _ _ (cs_wf _ Hm)). lia.
  - exists []. split; [|split; [apply Hm|done]]. split; [constructor|]. split; [done|]. simpl. lia.
Qed.

Section End.
Context m L f (Hm : consistent m) (HL : logged m L) (Hwf : disk_wf m f).
Context (Hclean : forall n, 0 <= n < md_size m -> n ∉ L -> f n = block_in m n).
Abbreviation W := (end_writes start f L).

Lemma geo_m : geo start N m.
Proof using Hm. apply (cs_layout _ Hm). Qed.

Lemma not_logged n : in_log n \/ n = 1 -> 0 <= n < md_size m -> f n = block_in m n.
Proof using HL Hclean.
  intros Hn Hr. apply Hclean; [done|]. intros Hin. destruct HL as (_ & HF & _). rewrite Forall_forall in HF. destruct (HF n Hin) as [? ?].
  destruct Hn as [| ->]; [done|lia].
Qed.

Lemma start_range : 0 <= start < md_size m.
Proof using Hm HL. destruct geo_m as (? & ? & _). destruct HL as (_ & _ & _ & ?). lia. Qed.

Lemma start_same : f start = block_in m start.
Proof using Hm HL Hclean. apply not_logged; [left|apply start_range]. unfold in_log. destruct HL as (_ & _ & _ & ?). lia. Qed.

Lemma end_commit : L <> [] -> W = commit_writes start f L.
Proof. by destruct L. Qed.

Lemma end_range : Forall (fun w => 0 <= w.1 < md_size m /\ w.1 <> 1 /\ length w.2 = 512%nat) W.
Proof using Hm HL Hwf Hclean.
  destruct (geo_m) as (G1 & G2 & G3 & G4). destruct (HL) as (Hnd & HF & L3 & L4). pose proof start_range as Hs.
  destruct (decide (L = [])) as [->|Hne]; [constructor|]. rewrite end_commit by done.
  rewrite Forall_forall in HF. assert (forall n, 0 <= n < md_size m -> length (f n) = 512%nat) as Hlen by apply Hwf.
  assert (length (head_put L (f start)) = 512%nat) as Hh by (apply length_head_put; [by apply Hlen|done]).
  unfold commit_writes. rewrite Forall_app, Forall_cons, Forall_app. split; [|split; [simpl; split; [lia|split; [lia|done]]|split]].
  - apply Forall_forall. intros [n d] Hw. apply log_writes_elem in Hw as (i & b & Hb & -> & ->). simpl.
    pose proof (lookup_lt_Some _ _ _ Hb). apply list_elem_of_lookup_2 in Hb. destruct (HF b Hb) as [? _]. split; [lia|]. split; [lia|]. apply Hlen. lia.
  - apply Forall_forall. intros w (b & -> & Hb)%list_elem_of_fmap. destruct (HF b Hb) as [? _]. simpl. split; [lia|]. split; [lia|]. apply Hlen. lia.
  - constructor; [|done]. cbn [fst snd]. split; [lia|]. split; [lia|]. apply length_head_put; [done|simpl; lia].
Qed.

Lemma end_block n : 0 <= n < md_size m -> block_in (apply_writes W m) n = set_all W f n.
Proof using Hm HL Hwf Hclean.
  intros Hn. rewrite apply_writes_block; [|apply geo_m| |lia].
  2:{ eapply Forall_impl; [apply end_range|]. by intros w [? _]. }
  apply set_all_ext. intros Hnw. symmetry. apply Hclean; [done|]. intros Hin. apply Hnw.
  rewrite end_commit by (intros E; rewrite E in Hin; by apply elem_of_nil in Hin).
  unfold commit_writes. rewrite fmap_app, fmap_cons, fmap_app, <- list_fmap_compose. apply elem_of_app. right. right.
  apply elem_of_app. left. apply list_elem_of_fmap. by exists n.
Qed.

Lemma end_lens n : 0 <= n < md_size m -> length (block_in (apply_writes W m) n) = 512%nat.
Proof using Hm HL Hwf Hclean.
  intros Hn. rewrite end_block by done. apply set_all_len; [by apply Hwf|].
  eapply Forall_impl; [apply end_range|]. by intros w (_ & _ & ?).
Qed.

Lemma end_home n : home m n -> block_in (apply_writes W m) n = f n.
Proof using Hm HL Hwf Hclean.
  intros Hn. destruct (decide (L = [])) as [E|Hne].
  - rewrite E. symmetry. apply Hclean; [destruct Hn; lia|rewrite E; apply not_elem_of_nil].
  - rewrite end_commit by done. apply (commit_home start N m L f); try done; [apply geo_m|apply (wf_len _ _ _ _ (cs_wf _ Hm)), start_range
      |apply Hm|apply Hm|apply start_same|]. intros k [? _] HkL. apply Hclean; [lia|done].
Qed.

Lemma end_sb : block_in (apply_writes W m) 1 = block_in m 1.
Proof using Hm HL Hwf Hclean.
  destruct (geo_m) as (G1 & G2 & _). assert (0 <= 1 < md_size m) as H1 by (pose proof start_range; lia).
  rewrite end_block, set_all_other by (done || (intros (w & E & Hw)%list_elem_of_fmap; pose proof end_range as HW;
    rewrite Forall_forall in HW; destruct (HW w Hw) as (_ & ? & _); congruence)).
  apply not_logged; [by right|done].
Qed.

Lemma end_head : head_is [] (block_in (apply_writes W m) start).
Proof using Hm HL Hwf Hclean.
  pose proof start_range as Hs. destruct (decide (L = [])) as [E|Hne]; [rewrite E; apply Hm|].
  rewrite end_block by done. rewrite end_commit by done. unfold commit_writes.
  rewrite set_all_app, set_all_cons, set_all_app. cbn [set_all foldl fst snd]. rewrite bset_eq.
  apply head_put_nil_is, length_head_put; [by apply Hwf|apply HL].
Qed.

Lemma used_home g b : (forall n, home m n -> g n = f n) -> 0 <= b < sb_size s -> used s g b = used s f b.
Proof using Hm.
  intros Hg Hb. unfold used. rewrite Hg; [done|]. apply (home_bmap _ _ _ _ _ (cs_layout _ Hm)).
  by apply (bmap_block_range _ _ _ _ _ (cs_layout _ Hm)).
Qed.

Lemma layout_apply V : layout (apply_writes V m).
Proof using Hm.
  destruct (cs_layout _ Hm) as [H1 H2 H3 H4 H5 H6]. constructor; try done; [by apply geo_apply|]. by rewrite apply_writes_size.
Qed.

Lemma end_commits : commits m f W.
Proof using Hm HL Hwf Hclean.
  pose proof start_range as Hs. constructor.
  - intros k. destruct (decide (L = [])) as [E|Hne].
    + left. rewrite E. cbn [end_writes]. rewrite take_nil. apply consistent_recovers; [done|]. destruct HL as (_ & _ & _ & ?). lia.
    + rewrite end_commit by done. assert (forall n, home m n -> n ∉ L -> f n = block_in m n) as Hold by (intros n [? _] ?; apply Hclean; [lia|done]).
      destruct (Nat.leb_spec k (length L)); [left; apply commit_prefix_early|right; apply commit_prefix_late]; try done;
        first [apply geo_m|by apply (cs_wf _ Hm)|apply (cs_sb _ Hm)|apply (cs_head _ Hm)|apply start_same].
  - apply end_home.
  - constructor; [apply layout_apply|rewrite end_sb; apply Hm|apply end_head|]. constructor.
    + rewrite apply_writes_size. apply end_lens.
    + intros n Hn. rewrite used_home; [by apply Hwf|apply end_home|]. destruct (ly_data _ _ _ _ _ (cs_layout _ Hm)) as (? & ? & ?). lia.
Qed.

End End.

End Disks.

Section Calls.
Context {S : Type} `{PL : ProcsLaws sys S} (fuel : nat) (pid : Z) (start N : Z) (s : superblock) (dstart : Z).
Implicit Types (L : list Z) (f : Z -> list Z) (m : memdisk) (W : writes) (x y : sys).
Abbreviation does := (does (X := sys) (S := S) pid).
Abbreviation Tx := (Tx pid start N).
Abbreviation consistent := (consistent start N s dstart).
Abbreviation commits := (commits start N s dstart).

(** Between two calls: nothing is logged, the cache agrees with the disk [m]. *)
Definition idle m y x : Prop := exists l, log_at start N 0 [] l /\ Bc pid [] [] (block_in m) m (set_log l y) x.

Lemma idle_disk m y x : idle m y x -> disk x = m.
Proof. intros (l & _ & Hv). by rewrite (Bc_disk pid _ _ _ _ _ _ Hv). Qed.

Lemma begin_does m y : does 0 (idle m y) (begin_op fuel) 0 (fun _ x => Tx [] [] None (block_in m) m y x).
Proof.
  intros x (l & Hl & Hv). destruct (begin_op_does fuel pid start N [] [] (block_in m) m l [] 0 y Hl) with (x := x) as ([] & x' & Hr & Hv');
    [lia|unfold MAXOPBLOCKS, LOGSIZE; simpl; lia|done|].
  exists tt, x'. split; [done|]. constructor; try done; [|constructor]. eexists. split; [by apply (log_at_out start N 0 1)|exact Hv'].
Qed.

Lemma end_does m L f y : consistent m -> disk_wf s dstart m f -> budget N 0 L ->
  does 0 (Tx [] L None f m y) (end_op fuel) 0
    (fun _ x => exists W, idle (apply_writes W m) y x /\ commits m f W).
Proof.
  intros Hm Hwf [Hb1 Hb2] x [(l & Hl & Hv) Hnd Hh Hcl]. rewrite Nat.add_0_r in Hb1. unfold LOGSIZE in Hb1.
  assert (logged start N m L) as HL by (split; [done|]; split; [done|]; unfold LOGSIZE; lia).
  assert (forall n, 0 <= n < md_size m -> n ∉ L -> f n = block_in m n) as Hclean by (intros n Hn HnL; by apply Hcl).
  assert (forall n, n ∈ L -> ~ in_log start N n) as Hnl by (intros n Hn; rewrite Forall_forall in Hh; by apply Hh).
  destruct (geo_m start N s dstart m Hm) as (G1 & G2 & _).
  destruct (end_op_does fuel pid start N L f m l L y (geo_m start N s dstart m Hm) HL Hl) with (x := x) as ([] & x' & Hr & Hv');
    [done|done|unfold NBUF; lia| |done|].
  { intros n Hn. apply Hclean; [unfold in_log in Hn; lia|]. intros Hin. by apply (Hnl n). }
  exists tt, x'. split; [done|]. exists (end_writes start f L). split; [|by apply end_commits].
  exists (set_lh_n 0 (set_lg_outstanding 0 l)). split.
  - destruct Hl as [K1 K2 K3 [J1 J2 J3 J4 J5 J6]]. constructor; try done.
  - assert (list_difference L L = []) as E by (apply elem_of_nil_inv; intros n Hn; by apply list_elem_of_difference in Hn as [? ?]).
    rewrite E in Hv'. eapply Bc_ext; [|exact Hv']. intros n Hn. rewrite apply_writes_size in Hn. symmetry. by eapply end_block.
Qed.

End Calls.
