(* ===== verification/Kalloc.v ===== *)
(** * Physical memory (kalloc.c)

    The allocator of pages keeps its free pages in a list that is threaded through the
    pages themselves: the first word of a free page is the address of the next one.
    [kend] is the address [end] the linker puts after the kernel. *)

From stdpp Require Import base tactics list sets strings gmap.
From Stdlib Require Import ZArith Lia.
From S2P Require Import Prelude Params StringC Spinlock ProcState Comp SysState Words Solo Sleeplock.
Open Scope Z_scope.

(** mmu.h *)
Definition PGROUNDUP (sz : Z) : Z := Z.land (u32 (sz + PGSIZE - 1)) (Z.lnot (PGSIZE - 1)).
Definition PGROUNDDOWN (a : Z) : Z := Z.land a (Z.lnot (PGSIZE - 1)).
(** The word at an address. *)
Section Ops.
Context {S : Type} `{PX : Part sys S} (kend : Z).
Abbreviation K := (M S).

(** memlayout.h: V2P and P2V *)
Definition v2p (a : Z) : K Z :=
  if a <? KERNBASE then panic "V2P on address < KERNBASE (not a kernel virtual address; consider walking page table to determine physical address of a user virtual address)" else ret (a - KERNBASE).
Definition p2v (a : Z) : K Z := if KERNBASE <? a then panic "P2V on address > KERNBASE" else ret (u32 (a + KERNBASE)).

Definition kmem_lock : lockref S := spin_of (c_kmem_ @ c_fl_lock).

Definition kfree (v : Z) : K unit :=
  bad <- (if negb (v mod PGSIZE =? 0) || (v <? kend) then ret true else pa <- v2p v ;; ret (PHYSTOP <=? pa)) ;;
  if bad then panic "kfree" else
  update c_mem (fun m => memset m v 1 PGSIZE) ;;;
  ul <- load (c_kmem_ @ c_fl_use_lock) ;;
  when (negb (ul =? 0)) (acquire kmem_lock) ;;;
  fl <- load (c_kmem_ @ c_fl_freelist) ;;
  update c_mem (fun m => store_word m v fl) ;;;
  store (c_kmem_ @ c_fl_freelist) v ;;;
  ul <- load (c_kmem_ @ c_fl_use_lock) ;;
  when (negb (ul =? 0)) (release kmem_lock).

Definition kalloc : K Z :=
  ul <- load (c_kmem_ @ c_fl_use_lock) ;;
  when (negb (ul =? 0)) (acquire kmem_lock) ;;;
  r <- load (c_kmem_ @ c_fl_freelist) ;;
  when (negb (r =? 0)) (m <- load c_mem ;; store (c_kmem_ @ c_fl_freelist) (load_word m r)) ;;;
  ul <- load (c_kmem_ @ c_fl_use_lock) ;;
  when (negb (ul =? 0)) (release kmem_lock) ;;;
  ret r.

(** [for(; p + PGSIZE <= vend; p += PGSIZE) kfree(p)] *)
Fixpoint free_pages (n : nat) (p vend : Z) : K unit :=
  match n with
  | O => fuel_out
  | Datatypes.S n =>
      if u32 (p + PGSIZE) <=? vend then kfree p ;;; free_pages n (u32 (p + PGSIZE)) vend else ret tt
  end.

Definition freerange (vstart vend : Z) : K unit :=
  if vend <? vstart then panic "freerange" else
  free_pages (Z.to_nat ((vend - vstart) / PGSIZE + 1)) (PGROUNDUP vstart) vend.

Definition kinit1 (vstart vend : Z) : K unit :=
  initlock kmem_lock "kmem" ;;;
  store (c_kmem_ @ c_fl_use_lock) 0 ;;;
  freerange vstart vend.

Definition kinit2 (vstart vend : Z) : K unit :=
  freerange vstart vend ;;;
  store (c_kmem_ @ c_fl_use_lock) 1.

End Ops.

(** ** The list of free pages *)

(** The pages from [fl] on, as the list leads through them. *)
Fixpoint chain (m : memory) (fl : Z) (l : list Z) : Prop :=
  match l with
  | [] => fl = 0
  | p :: l => fl = p /\ chain m (load_word m p) l
  end.

Section Facts.
Context {S : Type} `{PL : ProcsLaws sys S} (kend : Z) (Hend : 0 < kend) (pid : Z).
Implicit Types (m : memory) (k : kmem) (l : list Z) (x : sys).
Abbreviation runs := (runs (X := sys) (S := S) pid).
Abbreviation does := (does (X := sys) (S := S) pid).

Definition page_ok (p : Z) : Prop := p mod PGSIZE = 0 /\ kend <= p /\ KERNBASE <= p /\ p + PGSIZE <= KERNBASE + PHYSTOP.

Lemma pages_apart p q : page_ok p -> page_ok q -> p <> q -> p + PGSIZE <= q \/ q + PGSIZE <= p.
Proof.
  intros (Hp & _) (Hq & _) Hne. pose proof (Z.div_mod p PGSIZE ltac:(done)). pose proof (Z.div_mod q PGSIZE ltac:(done)).
  unfold PGSIZE in *. lia.
Qed.

Record free_list m k l : Prop := {
  fr_chain : chain m (fl_freelist k) l;
  fr_nodup : NoDup l;
  fr_pages : Forall page_ok l
}.

Lemma chain_frame m m' fl l : (forall p a, p ∈ l -> p <= a < p + 4 -> m' a = m a) -> chain m fl l -> chain m' fl l.
Proof.
  revert fl. induction l as [|p l IH]; intros fl Hf Hc; [done|]. destruct Hc as [-> Hc]. split; [done|].
  rewrite (load_word_frame m m' p); [|intros a Ha; apply (Hf p); [by left|done]].
  apply IH; [|done]. intros q a Hq. apply Hf. by right.
Qed.

(** The lock is taken if the allocator uses one. *)
Definition depth k (n : Z) : Z := if fl_use_lock k =? 0 then n else n + 1.
Definition entered k : kmem := if fl_use_lock k =? 0 then k else set_fl_lock (locked_by0 (fl_lock k)) k.

Lemma km_load {Z : Type} n x (d : cell kmem Z) v : cget d (kmem_ x) = Some v -> runs n (load (c_kmem_ @ d)) x n v x.
Proof. intros Hd. by apply runs_load. Qed.

Lemma km_store {Z : Type} n x (d : cell kmem Z) v v0 : cget d (kmem_ x) = Some v0 ->
  runs n (store (c_kmem_ @ d) v) x n tt (set_kmem_ (cset d v (kmem_ x)) x).
Proof. intros Hd. by eapply (runs_store pid n (c_kmem_ @ d)). Qed.

Lemma km_enter n x : free_lock (fl_lock (kmem_ x)) -> shallow n ->
  runs n (ul <- load (c_kmem_ @ c_fl_use_lock) ;; when (negb (ul =? 0)) (acquire kmem_lock)) x
    (depth (kmem_ x) n) tt (set_kmem_ (entered (kmem_ x)) x).
Proof.
  intros Hf Hn. eapply runs_bind; [by apply km_load|]. unfold depth, entered. destruct (fl_use_lock (kmem_ x) =? 0); cbn [negb when].
  - replace (set_kmem_ (kmem_ x) x) with x by (by destruct x). apply runs_ret.
  - by apply (runs_acquire pid n (c_kmem_ @ c_fl_lock) x (fl_lock (kmem_ x))).
Qed.

Lemma km_leave n x k : free_lock (fl_lock k) -> shallow n -> shallow (n + 1) -> 0 <= n ->
  fl_use_lock (kmem_ x) = fl_use_lock k -> fl_lock (kmem_ x) = fl_lock (entered k) ->
  runs (depth k n) (ul <- load (c_kmem_ @ c_fl_use_lock) ;; when (negb (ul =? 0)) (release kmem_lock)) x
    n tt (set_kmem_ (set_fl_lock (fl_lock k) (kmem_ x)) x).
Proof.
  intros Hf Hn Hn1 H0 Hu Hl. eapply runs_bind; [by apply km_load|]. rewrite Hu. unfold depth, entered in *.
  destruct (fl_use_lock k =? 0); cbn [negb when].
  - rewrite <- Hl. replace (set_kmem_ (set_fl_lock (fl_lock (kmem_ x)) (kmem_ x)) x) with x by (by destruct x as [[]]). apply runs_ret.
  - replace (set_kmem_ (set_fl_lock (fl_lock k) (kmem_ x)) x) with
      (cset (c_kmem_ @ c_fl_lock) (mkLock 0 (lk_name (fl_lock (kmem_ x))) None) x).
    + replace n with (n + 1 - 1) at 2 by lia. apply (runs_release pid (n + 1) (c_kmem_ @ c_fl_lock) x (fl_lock (kmem_ x)));
        [done|by rewrite Hl|done|lia].
    + simpl. rewrite Hl. simpl. by rewrite free_unlocked.
Qed.

Lemma leave_eq k v : set_fl_lock (fl_lock k) (set_fl_freelist v (entered k)) = set_fl_freelist v k.
Proof. unfold entered. destruct k as [lk u f]. simpl. by destruct (u =? 0). Qed.

Lemma entered_use k : fl_use_lock (entered k) = fl_use_lock k.
Proof. unfold entered. by destruct (fl_use_lock k =? 0) eqn:E. Qed.

Lemma entered_list k : fl_freelist (entered k) = fl_freelist k.
Proof. unfold entered. by destruct (fl_use_lock k =? 0). Qed.

(** The allocator's part of the state: locked nowhere, with the free pages [l]. *)
Definition alloc_ok l x : Prop := free_lock (fl_lock (kmem_ x)) /\ free_list (mem x) (kmem_ x) l.

Lemma page_nonzero p : page_ok p -> p <> 0.
Proof using Hend. unfold page_ok. lia. Qed.

Lemma kalloc_runs n l x : alloc_ok l x -> shallow n -> shallow (n + 1) -> 0 <= n ->
  exists x', runs n kalloc x n (hd 0 l) x' /\ alloc_ok (tl l) x' /\ mem x' = mem x /\
    x' = set_kmem_ (set_fl_freelist (fl_freelist (kmem_ x')) (kmem_ x)) x.
Proof using Hend.
  intros [Hf [Hc Hd Hp]] Hn Hn1 H0. set (k := kmem_ x) in *.
  set (v := match l with [] => fl_freelist k | p :: _ => load_word (mem x) p end).
  assert (chain (mem x) v (tl l)) as Hv by (subst v; destruct l; [done|by destruct Hc]).
  exists (set_kmem_ (set_fl_freelist v k) x). split; [|split; [|done]].
  2:{ split; [done|]. constructor; [done| |]; (destruct l; [done|]); [by apply NoDup_cons in Hd as [_ ?]|by apply Forall_cons in Hp as [_ ?]]. }
  unfold kalloc. eapply runs_bind_assoc; [by apply km_enter|].
  eapply runs_bind; [by apply (km_load _ _ c_fl_freelist)|].
  replace (fl_freelist _) with (hd 0 l) by (simpl; rewrite entered_list; destruct l; [done|by destruct Hc]).
  eapply (runs_bind pid _ (depth k n)) with (x1 := set_kmem_ (set_fl_freelist v (entered k)) x) (a := tt).
  - destruct l as [|p l]; cbn [hd].
    + replace (set_fl_freelist v (entered k)) with (entered k); [apply runs_ret|].
      subst v. cbn match. rewrite <- entered_list. by destruct (entered k).
    + apply Forall_cons in Hp as [Hp _]. rewrite (proj2 (Z.eqb_neq p 0)) by (by apply page_nonzero). cbn [negb when].
      eapply runs_bind; [by apply (runs_load pid _ c_mem)|].
      apply (km_store _ (set_kmem_ (entered k) x) c_fl_freelist _ (fl_freelist (entered k))). done.
  - eapply runs_bind_assoc; [apply (km_leave n _ k); try done|].
    + apply entered_use.
    + change (kmem_ (set_kmem_ (set_fl_freelist v (entered k)) x)) with (set_fl_freelist v (entered k)). rewrite leave_eq. apply runs_ret.
Qed.

(** Memory after the page [v] was freed. *)
Definition freed m v fl : memory := store_word (memset m v 1 PGSIZE) v fl.

Lemma freed_out m v fl a : a < v \/ v + PGSIZE <= a -> freed m v fl a = m a.
Proof.
  intros Ha. unfold freed, store_word, upd, PGSIZE in *. rewrite !(proj2 (Z.eqb_neq _ _)) by lia.
  rewrite memset_lem by lia. by rewrite (proj2 (in_range_false _ _ _)).
Qed.

Lemma v2p_runs n x a : KERNBASE <= a -> runs n (v2p a) x n (a - KERNBASE) x.
Proof. intros Ha. unfold v2p. rewrite (proj2 (Z.ltb_ge _ _)) by lia. apply runs_ret. Qed.

Lemma p2v_runs n x a : 0 <= a < KERNBASE -> runs n (p2v a) x n (a + KERNBASE) x.
Proof.
  intros Ha. unfold p2v. unfold KERNBASE in *. rewrite (proj2 (Z.ltb_ge _ _)), u32_id by lia. apply runs_ret.
Qed.

Lemma kfree_check n x v : page_ok v ->
  runs n (if negb (v mod PGSIZE =? 0) || (v <? kend) then ret true else pa <- v2p v ;; ret (PHYSTOP <=? pa)) x n false x.
Proof.
  intros (H1 & H2 & H3 & H4). rewrite H1. cbn [negb orb Z.eqb]. rewrite (proj2 (Z.ltb_ge _ _)) by lia.
  eapply runs_bind; [by apply v2p_runs|]. rewrite (proj2 (Z.leb_gt _ _)) by (unfold PGSIZE in *; lia). apply runs_ret.
Qed.

Lemma chain_range m fl l : Forall page_ok l -> chain m fl l -> 0 <= fl < 2 ^ 32.
Proof using Hend.
  destruct l as [|p l]; [by intros _ ->|]. intros [Hp _]%Forall_cons [-> _]. unfold page_ok, KERNBASE, PHYSTOP, PGSIZE in Hp. lia.
Qed.

Lemma free_list_push m k v l : page_ok v -> v ∉ l -> free_list m k l ->
  free_list (freed m v (fl_freelist k)) (set_fl_freelist v k) (v :: l).
Proof using Hend.
  intros Hv Hnv [Hc Hd Hp]. constructor; [|by apply NoDup_cons|by apply Forall_cons].
  split; [done|]. unfold freed. rewrite load_store_word by (by eapply chain_range).
  apply (chain_frame m); [|done]. intros p a Hin Ha. apply freed_out.
  rewrite Forall_forall in Hp. destruct (pages_apart v p Hv (Hp p Hin)); [by intros ->| |]; unfold PGSIZE in *; lia.
Qed.

Lemma kfree_runs n l x v : alloc_ok l x -> page_ok v -> v ∉ l -> shallow n -> shallow (n + 1) -> 0 <= n ->
  exists x', runs n (kfree kend v) x n tt x' /\ alloc_ok (v :: l) x' /\
    x' = set_kmem_ (set_fl_freelist v (kmem_ x)) (set_mem (freed (mem x) v (fl_freelist (kmem_ x))) x).
Proof using Hend.
  intros [Hf Hl] Hv Hnv Hn Hn1 H0. set (k := kmem_ x) in *. eexists. split; [|split; [|reflexivity]].
  2:{ split; [done|]. by apply free_list_push. }
  unfold kfree. eapply runs_bind; [by apply kfree_check|]. eapply runs_bind; [by apply (runs_update pid n c_mem x (mem x))|].
  eapply runs_bind_assoc; [by apply km_enter|]. eapply runs_bind; [by apply (km_load _ _ c_fl_freelist)|].
  eapply runs_bind; [by apply (runs_update pid _ c_mem)|]. eapply runs_bind; [by eapply (km_store _ _ c_fl_freelist)|].
  match goal with |- runs _ _ ?y _ _ _ => set (x2 := y) end.
  replace (set_kmem_ (set_fl_freelist v k) (set_mem (freed (mem x) v (fl_freelist k)) x)) with
    (set_kmem_ (set_fl_lock (fl_lock k) (kmem_ x2)) x2).
  - apply (km_leave n x2 k); try done. apply entered_use.
  - change (kmem_ x2) with (set_fl_freelist v (entered k)). rewrite leave_eq. unfold x2. simpl. unfold freed.
    by rewrite entered_list.
Qed.

(** *** Giving a range of memory to the allocator *)

Lemma page_mask a : Z.land a (Z.lnot (PGSIZE - 1)) = a / PGSIZE * PGSIZE.
Proof.
  change (PGSIZE - 1) with (Z.ones 12). rewrite <- Z.ldiff_land, Z.ldiff_ones_r by lia.
  by rewrite Z.shiftl_mul_pow2, Z.shiftr_div_pow2 by lia.
Qed.

(** The pages that lie between two addresses. *)
Definition pages (vstart vend : Z) : list Z :=
  let p := PGROUNDUP vstart in map (fun i => p + PGSIZE * i) (seqZ 0 ((vend - p) / PGSIZE)).

Definition in_memory (vstart vend : Z) : Prop :=
  kend <= vstart <= vend /\ KERNBASE <= vstart /\ vend <= KERNBASE + PHYSTOP.

Lemma roundup_range a : 0 <= a < 2 ^ 32 - PGSIZE -> a <= PGROUNDUP a < a + PGSIZE /\ PGROUNDUP a mod PGSIZE = 0.
Proof.
  intros Ha. unfold PGROUNDUP. rewrite page_mask, u32_id by (unfold PGSIZE in *; lia). split; [|by apply Z.mod_mul].
  pose proof (Z.div_mod (a + PGSIZE - 1) PGSIZE ltac:(done)). pose proof (Z.mod_pos_bound (a + PGSIZE - 1) PGSIZE ltac:(done)).
  unfold PGSIZE in *. lia.
Qed.

Lemma pages_elem vstart vend p : in_memory vstart vend -> p ∈ pages vstart vend ->
  page_ok p /\ vstart <= p /\ p + PGSIZE <= vend.
Proof using Hend.
  intros (H1 & H2 & H3) Hp. unfold pages in Hp. apply list_elem_of_fmap in Hp as (i & -> & Hi%elem_of_seqZ).
  destruct (roundup_range vstart) as [Hr Hm]; [unfold KERNBASE, PHYSTOP, PGSIZE in *; lia|].
  assert (PGROUNDUP vstart + PGSIZE * i + PGSIZE <= vend) as Hv.
  { pose proof (Z.mul_div_le (vend - PGROUNDUP vstart) PGSIZE ltac:(done)). unfold PGSIZE in *. lia. }
  split; [|unfold PGSIZE in *; lia]. split; [|unfold PGSIZE in *; lia].
  rewrite Z.mul_comm, Z.mod_add by done. done.
Qed.

Lemma pages_nodup vstart vend : NoDup (pages vstart vend).
Proof. unfold pages. apply (NoDup_fmap_2_strong _ _); [|apply NoDup_seqZ]. intros i j _ _ E. unfold PGSIZE in E. lia. Qed.

(** The allocator has [l] in some order. *)
Definition has_pages l x : Prop := exists l', Permutation l' l /\ alloc_ok l' x.

Lemma kfree_does l v : page_ok v -> v ∉ l ->
  does 0 (has_pages l) (kfree kend v) 0 (fun _ x => has_pages (v :: l) x).
Proof using Hend.
  intros Hv Hnv x (l' & Hl & Hx). destruct (kfree_runs 0 l' x v Hx Hv) as (x' & Hr & Hx' & _);
    [by rewrite Hl|apply shallow_le; lia|apply shallow_le; lia|lia|]. exists tt, x'. split; [done|]. exists (v :: l'). split; [by apply perm_skip|done].
Qed.

Definition pages_from (p vend : Z) : list Z := map (fun i => p + PGSIZE * i) (seqZ 0 ((vend - p) / PGSIZE)).

Lemma pages_from_none p vend : vend < p + PGSIZE -> pages_from p vend = [].
Proof.
  intros Hlt. unfold pages_from. assert ((vend - p) / PGSIZE < 1) by (apply Z.div_lt_upper_bound; [done|lia]).
  unfold seqZ. by rewrite Z2Nat.nonpos by lia.
Qed.

Lemma pages_from_next p vend : p + PGSIZE <= vend -> pages_from p vend = p :: pages_from (p + PGSIZE) vend.
Proof.
  intros Hle. unfold pages_from. replace (vend - (p + PGSIZE)) with (vend - p + (-1) * PGSIZE) by lia. rewrite Z.div_add by done.
  assert (0 < (vend - p) / PGSIZE) by (apply Z.div_str_pos; unfold PGSIZE in *; lia).
  rewrite seqZ_cons by done. cbn [map]. f_equal; [lia|]. unfold seqZ. rewrite !map_map. apply map_ext. intros i. unfold PGSIZE. lia.
Qed.

Lemma free_pages_does n : forall p vend l, p mod PGSIZE = 0 -> kend <= p -> KERNBASE <= p -> vend <= KERNBASE + PHYSTOP ->
  p <= KERNBASE + PHYSTOP + PGSIZE -> (0 < n)%nat -> (p + PGSIZE <= vend -> (vend - p) / PGSIZE < Z.of_nat n) -> (forall q, q ∈ l -> q < p) ->
  does 0 (has_pages l) (free_pages kend n p vend) 0 (fun _ x => has_pages (pages_from p vend ++ l) x).
Proof using Hend.
  induction n as [|n IH]; intros p vend l Hm Hk Hb He Hp Hn Hr Hl; [lia|]. cbn [free_pages].
  assert (PGSIZE = 4096 /\ KERNBASE = 0x80000000 /\ PHYSTOP = 0xE000000) as (E1 & E2 & E3) by done.
  rewrite u32_id by lia. destruct (Z.leb_spec (p + PGSIZE) vend) as [Hle|Hgt].
  2:{ apply does_ret. intros x Hx. by rewrite pages_from_none by lia. }
  specialize (Hr Hle). eapply does_bind_tt; [apply kfree_does; [by repeat split; lia|intros Hin; specialize (Hl p Hin); lia]|].
  rewrite pages_from_next by done. eapply does_post; [apply IH; try lia|].
  - rewrite E1 in *. rewrite <- (Z.mul_1_l 4096) at 1. rewrite Z.mod_add by done. done.
  - destruct n; [|lia]. assert (0 < (vend - p) / PGSIZE) by (apply Z.div_str_pos; lia). lia.
  - intros _. replace (vend - (p + PGSIZE)) with (vend - p + (-1) * PGSIZE) by lia. rewrite Z.div_add by (by rewrite E1). lia.
  - intros q Hq. apply elem_of_cons in Hq as [->|Hq]; [lia|]. specialize (Hl q Hq). lia.
  - intros [] x (l' & Hl' & Hx). exists l'. split; [|done]. rewrite Hl'. cbn [app]. symmetry. apply Permutation_middle.
Qed.

Lemma freerange_does vstart vend l : in_memory vstart vend -> (forall q, q ∈ l -> q < vstart) ->
  does 0 (has_pages l) (freerange kend vstart vend) 0 (fun _ x => has_pages (pages vstart vend ++ l) x).
Proof using Hend.
  intros (H1 & H2 & H3) Hl. unfold freerange. rewrite (proj2 (Z.ltb_ge _ _)) by lia.
  destruct (roundup_range vstart) as [Hr Hm]; [unfold KERNBASE, PHYSTOP, PGSIZE in *; lia|].
  apply free_pages_does; try (done || lia).
  - assert (0 <= (vend - vstart) / PGSIZE) by (apply Z.div_pos; [lia|done]). lia.
  - intros _. assert ((vend - PGROUNDUP vstart) / PGSIZE <= (vend - vstart) / PGSIZE) by (apply Z.div_le_mono; [done|lia]).
    assert (0 <= (vend - vstart) / PGSIZE) by (apply Z.div_pos; [lia|done]). lia.
  - intros q Hq. specialize (Hl q Hq). lia.
Qed.

Lemma kalloc_does l :
  does 0 (has_pages l) kalloc 0
    (fun p x => (p = 0 /\ l = [] /\ has_pages [] x) \/ exists l2, p <> 0 /\ Permutation l (p :: l2) /\ has_pages l2 x).
Proof using Hend.
  intros x (l' & Hl & Hx). destruct (kalloc_runs 0 l' x Hx) as (x' & Hr & Hx' & _);
    [apply shallow_le; lia|apply shallow_le; lia|lia|]. exists (hd 0 l'), x'. split; [done|].
  destruct l' as [|p l']; [left|right]; simpl in *.
  - apply Permutation_nil_l in Hl as <-. split; [done|]. split; [done|]. by exists [].
  - exists l'. split; [|by split; [|exists l']]. destruct Hx as [_ [_ _ Hp]]. apply Forall_cons in Hp as [Hp _]. by apply page_nonzero.
Qed.

Lemma kinit1_does vstart vend : in_memory vstart vend ->
  does 0 (fun x => fl_freelist (kmem_ x) = 0) (kinit1 kend vstart vend) 0 (fun _ x => has_pages (pages vstart vend) x).
Proof using Hend.
  intros Hm. unfold kinit1. eapply does_bind_tt with (R := fun x => fl_freelist (kmem_ x) = 0 /\ free_lock (fl_lock (kmem_ x))).
  { intros x Hx. eexists tt, _. split; [apply (runs_initlock pid 0 (c_kmem_ @ c_fl_lock))|]. done. }
  eapply does_bind_tt; [apply does_store with (Q := has_pages [])|].
  - intros x [H0 Hf]. split; [by eexists|]. exists []. split; [done|]. split; [done|]. constructor; [done|constructor|constructor].
  - rewrite <- (app_nil_r (pages vstart vend)). apply freerange_does; [done|]. by intros q Hq%elem_of_nil.
Qed.

Lemma kinit2_does vstart vend l : in_memory vstart vend -> (forall q, q ∈ l -> q < vstart) ->
  does 0 (has_pages l) (kinit2 kend vstart vend) 0 (fun _ x => has_pages (pages vstart vend ++ l) x).
Proof using Hend.
  intros Hm Hl. unfold kinit2. eapply does_bind_tt; [by apply freerange_does|]. apply does_store.
  intros x (l' & Hp & Hf & [Hc Hd Hpg]). split; [by eexists|]. exists l'. split; [done|]. split; [done|]. by constructor.
Qed.

(** *** Clients of the allocator *)

(** What the rest of the kernel does with memory: it asks for a page, gives back one of
    the pages it holds, and writes to one of them. *)
Inductive op := Alloc | Free (i : nat) | Write (i : nat) (o v : Z).

Fixpoint run_ops (ops : list op) (held : list Z) : M S (list Z) :=
  match ops with
  | [] => ret held
  | Alloc :: ops => p <- kalloc ;; run_ops ops (if p =? 0 then held else p :: held)
  | Free i :: ops =>
      match held !! i with
      | Some p => kfree kend p ;;; run_ops ops (delete i held)
      | None => run_ops ops held
      end
  | Write i o v :: ops =>
      match held !! i with
      | Some p => when ((0 <=? o) && (o <? PGSIZE)) (update c_mem (fun m => upd m (p + o) v)) ;;; run_ops ops held
      | None => run_ops ops held
      end
  end.

Lemma has_pages_perm l l' x : Permutation l l' -> has_pages l x -> has_pages l' x.
Proof. intros Hl (l1 & H1 & Hx). exists l1. split; [by rewrite H1|done]. Qed.

Lemma write_does l p o v : page_ok p -> p ∉ l -> Forall page_ok l -> 0 <= o < PGSIZE ->
  does 0 (has_pages l) (update c_mem (fun m => upd m (p + o) v)) 0 (fun _ x => has_pages l x).
Proof.
  intros Hp Hn Hl Ho x (l' & Hp' & Hf & [Hc Hd Hpg]). eexists tt, _. split; [by apply (runs_update pid 0 c_mem)|].
  exists l'. split; [done|]. split; [done|]. constructor; [|done|done]. simpl. eapply chain_frame; [|exact Hc].
  intros q a Hq Ha. apply upd_ne. intros ->. rewrite Forall_forall in Hpg. specialize (Hpg q Hq).
  destruct (pages_apart p q Hp Hpg); [intros ->; by rewrite Hp' in Hq|unfold PGSIZE in *; lia..].
Qed.

Lemma run_ops_does ops : forall held l, Forall page_ok (held ++ l) -> NoDup (held ++ l) ->
  does 0 (has_pages l) (run_ops ops held) 0
    (fun held' x => exists l', Permutation (held' ++ l') (held ++ l) /\ has_pages l' x).
Proof using Hend.
  induction ops as [|[|i|i o v] ops IH]; intros held l Hp Hd; cbn [run_ops].
  - apply does_ret. intros x Hx. by exists l.
  - eapply does_bind; [apply kalloc_does|]. intros p x [(-> & -> & Hx)|(l2 & Hne & Hl & Hx)].
    + cbn [Z.eqb]. by apply (IH held []).
    + rewrite (proj2 (Z.eqb_neq p 0)) by done.
      assert (Permutation ((p :: held) ++ l2) (held ++ l)) as Hq by (rewrite Hl; apply Permutation_middle).
      destruct (IH (p :: held) l2) with (x := x) as (h & x' & Hr & l' & Hl' & Hx'); [by rewrite Hq|by rewrite Hq|done|].
      exists h, x'. split; [done|]. exists l'. split; [by rewrite Hl'|done].
  - destruct (held !! i) as [p|] eqn:Hi; [|by apply IH].
    assert (Permutation (delete i held ++ p :: l) (held ++ l)) as Hq.
    { rewrite <- Permutation_middle. change (p :: delete i held ++ l) with ((p :: delete i held) ++ l).
      by rewrite <- (delete_Permutation held i p Hi). }
    rewrite <- Hq in Hp, Hd. eapply does_bind_tt; [apply kfree_does|].
    + rewrite Forall_app, Forall_cons in Hp. tauto.
    + apply NoDup_app in Hd as (_ & _ & Hd). by apply NoDup_cons in Hd as [? _].
    + eapply does_post; [by apply IH|]. intros h x (l' & Hl' & Hx). exists l'. split; [by rewrite Hl'|done].
  - destruct (held !! i) as [p|] eqn:Hi; [|by apply IH]. apply list_elem_of_lookup_2 in Hi.
    eapply does_bind_tt; [|by apply IH]. destruct (Z.leb_spec 0 o), (Z.ltb_spec o PGSIZE); cbn [andb when]; try by apply does_ret.
    rewrite Forall_app in Hp. apply write_does; [|apply NoDup_app in Hd as (_ & Hd & _); by apply Hd|by destruct Hp|lia].
    destruct Hp as [Hp _]. rewrite Forall_forall in Hp. by apply Hp.
Qed.

Lemma pages_ordered vstart mid vend : in_memory vstart mid -> in_memory mid vend ->
  Forall page_ok (pages mid vend ++ pages vstart mid) /\ NoDup (pages mid vend ++ pages vstart mid).
Proof using Hend.
  intros H1 H2. rewrite Forall_app, NoDup_app, !Forall_forall. pose proof (fun p => pages_elem vstart mid p H1) as K1.
  pose proof (fun p => pages_elem mid vend p H2) as K2. split; [split; intros p Hp; [by apply K2|by apply K1]|].
  split; [apply pages_nodup|]. split; [|apply pages_nodup]. intros p Hp Hp'. apply K1 in Hp'. apply K2 in Hp. unfold PGSIZE in *. lia.
Qed.

(** C17: The allocator of pages hands out a page to one client at a time.  After [kinit1]
    and [kinit2] on two adjacent ranges of memory, and whatever pages the rest of the
    kernel then asks for, gives back and writes to, in any order: no page is held
    twice, none that is held is in the free list, and the pages held and the free
    ones are together exactly the pages of the two ranges; neither [kalloc] nor
    [kfree] has failed. *)
Theorem pages_once vstart mid vend ops (s : S) : in_proc pid 0 s -> fl_freelist (kmem_ (part s)) = 0 ->
  in_memory vstart mid -> in_memory mid vend ->
  exists held free s', (kinit1 kend vstart mid ;;; kinit2 kend mid vend ;;; run_ops ops []) s = Ret held s' /\
    alloc_ok free (part s') /\ NoDup (held ++ free) /\
    Permutation (held ++ free) (pages vstart mid ++ pages mid vend).
Proof using Hend.
  intros Hs H0 H1 H2. destruct (pages_ordered vstart mid vend H1 H2) as [Hpg Hnd].
  assert (does 0 (fun x => fl_freelist (kmem_ x) = 0) (kinit1 kend vstart mid ;;; kinit2 kend mid vend ;;; run_ops ops []) 0
    (fun held x => exists l', Permutation (held ++ l') (pages mid vend ++ pages vstart mid) /\ has_pages l' x)) as Hd.
  { eapply does_bind_tt; [by apply kinit1_does|]. eapply does_bind_tt; [apply kinit2_does; [done|]|].
    - intros q Hq. apply pages_elem in Hq; [|done]. unfold PGSIZE in *. lia.
    - by apply (run_ops_does ops []). }
  destruct (Hd (part s) H0) as (held & x' & Hr & l' & Hl' & free & Hf & Hx'). destruct (Hr s Hs eq_refl) as (s' & He & _ & Hp).
  exists held, free, s'. rewrite Hp. split; [done|]. split; [done|]. rewrite Hf, Hl'. split; [done|]. apply Permutation_app_comm.
Qed.

End Facts.

Definition example_ops : list op := [Alloc; Alloc; Write 0 8 7; Free 1; Alloc].

Lemma pages_once_witness : exists held free (s' : solo),
  (kinit1 0x80100000 0x80100000 0x80102000 ;;; kinit2 0x80100000 0x80102000 0x80104000 ;;; run_ops 0x80100000 example_ops [])
    (mkSolo solo_machine (blank_sys example_disk example_log) 1) = Ret held s' /\
  alloc_ok 0x80100000 free (part s') /\ NoDup (held ++ free) /\
  Permutation (held ++ free) (pages 0x80100000 0x80102000 ++ pages 0x80102000 0x80104000).
Proof.
  apply (pages_once 0x80100000 ltac:(lia) 1 0x80100000 0x80102000 0x80104000 example_ops).
  - apply solo_in_proc.
  - reflexivity.
  - unfold in_memory, KERNBASE, PHYSTOP. lia.
  - unfold in_memory, KERNBASE, PHYSTOP. lia.
Defined.
