(* ===== verification/Pipe.v ===== *)
(** * Pipes (pipe.c)

    A pipe is a ring of [PIPESIZE] bytes and two counters that only grow, modulo 2^32.
    The bytes a caller passes are a list, those it receives are returned.

    [pipe_has] relates a pipe to the bytes in it.  Reading and writing are related to
    a stream of bytes, both alone and when other processes use the pipe while the
    caller sleeps. *)

From stdpp Require Import base tactics list sets strings gmap.
From Stdlib Require Import ZArith Lia.
From S2P Require Import Prelude Params StringC Spinlock ProcState Comp SysState Words Solo Sleeplock Kalloc.
Open Scope Z_scope.

Definition PIPESIZE : Z := 512.

(** [&p->nread] and [&p->nwrite] as channels. *)
Definition nread_chan (p : Z) : chan := AddrChan (p + 564).
Definition nwrite_chan (p : Z) : chan := AddrChan (p + 568).

Section Ops.
Context {S : Type} `{PX : Part sys S} `{PR : Procs S} (kend : Z) (fuel : nat).
Abbreviation K := (M S).

Definition pipe_lock (p : Z) : lockref S := spin_of (c_pipe p @ c_pi_lock).

(** [kfree((char * )p)]: the page is a pipe no more. *)
Definition free_pipe (p : Z) : K unit :=
  update c_pipes (delete p) ;;; kfree kend p.

Definition pipeclose (p : Z) (writable : Z) : K unit :=
  acquire (pipe_lock p) ;;;
  (if negb (writable =? 0) then
     store (c_pipe p @ c_pi_writeopen) 0 ;;; wakeup_on (nread_chan p)
   else
     store (c_pipe p @ c_pi_readopen) 0 ;;; wakeup_on (nwrite_chan p)) ;;;
  pp <- load (c_pipe p) ;;
  if (pi_readopen pp =? 0) && (pi_writeopen pp =? 0) then
    release (pipe_lock p) ;;; free_pipe p
  else release (pipe_lock p).

(** [while(p->nwrite == p->nread + PIPESIZE)]; false when the call is to return -1. *)
Fixpoint wait_room (k : nat) (p : Z) : K bool :=
  match k with
  | O => fuel_out
  | Datatypes.S k =>
      pp <- load (c_pipe p) ;;
      if pi_nwrite pp =? u32 (pi_nread pp + PIPESIZE) then
        stop <- (if pi_readopen pp =? 0 then ret true else kd <- my_killed ;; ret (negb (kd =? 0))) ;;
        if stop then ret false
        else
          wakeup_on (nread_chan p) ;;;
          sleep_on (nwrite_chan p) (pipe_lock p) ;;;
          wait_room k p
      else ret true
  end.

(** [p->data[p->nwrite++ % PIPESIZE] = b] *)
Definition put_byte (p b : Z) : K unit :=
  pp <- load (c_pipe p) ;;
  store (c_pipe p @ c_pi_nwrite) (u32 (pi_nwrite pp + 1)) ;;;
  update (c_pipe p @ c_pi_data) (<[Z.to_nat (pi_nwrite pp mod PIPESIZE) := b]>).

(** The loop of [pipewrite] over the bytes still to be written. *)
Fixpoint pipewrite_loop (p : Z) (addr : list Z) (n : Z) : K Z :=
  match addr with
  | [] => wakeup_on (nread_chan p) ;;; release (pipe_lock p) ;;; ret n
  | b :: addr =>
      ok <- wait_room (Datatypes.S fuel) p ;;
      if ok then put_byte p b ;;; pipewrite_loop p addr n else release (pipe_lock p) ;;; ret (-1)
  end.

(** [addr] has the [n] bytes to write, none if [n] is negative. *)
Definition pipewrite (p : Z) (addr : list Z) (n : Z) : K Z :=
  acquire (pipe_lock p) ;;;
  pipewrite_loop p (take (Z.to_nat n) addr) n.

(** [while(p->nread == p->nwrite && p->writeopen)]; false when the call is to return -1. *)
Fixpoint wait_data (k : nat) (p : Z) : K bool :=
  match k with
  | O => fuel_out
  | Datatypes.S k =>
      pp <- load (c_pipe p) ;;
      if (pi_nread pp =? pi_nwrite pp) && negb (pi_writeopen pp =? 0) then
        kd <- my_killed ;;
        if negb (kd =? 0) then ret false
        else sleep_on (nread_chan p) (pipe_lock p) ;;; wait_data k p
      else ret true
  end.

(** The loop of [piperead]: at most [k] more bytes. *)
Fixpoint piperead_loop (k : nat) (p : Z) (addr : list Z) : K (list Z) :=
  match k with
  | O => ret addr
  | Datatypes.S k =>
      pp <- load (c_pipe p) ;;
      if pi_nread pp =? pi_nwrite pp then ret addr
      else
        store (c_pipe p @ c_pi_nread) (u32 (pi_nread pp + 1)) ;;;
        piperead_loop k p (addr ++ [nth (Z.to_nat (pi_nread pp mod PIPESIZE)) (pi_data pp) 0])
  end.

(** The result, and the bytes stored at [addr]. *)
Definition piperead (p : Z) (n : Z) : K (Z * list Z) :=
  acquire (pipe_lock p) ;;;
  ok <- wait_data (Datatypes.S fuel) p ;;
  if ok then
    addr <- piperead_loop (Z.to_nat n) p [] ;;
    wakeup_on (nwrite_chan p) ;;;
    release (pipe_lock p) ;;;
    ret (Z.of_nat (length addr), addr)
  else release (pipe_lock p) ;;; ret (-1, []).

End Ops.

(** ** The bytes in a pipe *)

Record pipe_has (pp : pipe) (q : list Z) : Prop := {
  ph_size : length (pi_data pp) = 512%nat;
  ph_nread : 0 <= pi_nread pp < 2 ^ 32;
  ph_nwrite : pi_nwrite pp = u32 (pi_nread pp + Z.of_nat (length q));
  ph_room : (length q <= 512)%nat;
  ph_data : forall i, (i < length q)%nat -> pi_data pp !! Z.to_nat ((pi_nread pp + Z.of_nat i) mod PIPESIZE) = q !! i
}.

Section Ring.
Implicit Types (pp : pipe) (q : list Z).

Lemma u32_mod_512 z : u32 z mod PIPESIZE = z mod PIPESIZE.
Proof. apply u32_mod; [by exists (2 ^ 23)|done]. Qed.

Lemma mod_512_inj a i j : 0 <= i < 512 -> 0 <= j < 512 -> (a + i) mod PIPESIZE = (a + j) mod PIPESIZE -> i = j.
Proof. apply mod_shift_inj. Qed.

Lemma mod_512_range a : (Z.to_nat (a mod PIPESIZE) < 512)%nat.
Proof. pose proof (Z.mod_pos_bound a PIPESIZE ltac:(done)). unfold PIPESIZE in *. lia. Qed.

Lemma pipe_full pp q : pipe_has pp q -> (pi_nwrite pp =? u32 (pi_nread pp + PIPESIZE)) = (length q =? 512)%nat.
Proof.
  intros [H1 H2 H3 H4 H5]. rewrite H3. unfold PIPESIZE. destruct (Nat.eqb_spec (length q) 512) as [->|Hne]; [apply Z.eqb_refl|].
  apply Z.eqb_neq. intros E. apply u32_shift_inj in E; lia.
Qed.

Lemma pipe_empty pp q : pipe_has pp q -> (pi_nread pp =? pi_nwrite pp) = (length q =? 0)%nat.
Proof.
  intros [H1 H2 H3 H4 H5]. rewrite H3. destruct (Nat.eqb_spec (length q) 0) as [->|Hne].
  - rewrite Z.add_0_r, u32_id by lia. apply Z.eqb_refl.
  - apply Z.eqb_neq. intros E. rewrite <- (u32_id (pi_nread pp)) in E at 1 by lia. rewrite <- (Z.add_0_r (pi_nread pp)) in E at 1.
    apply u32_shift_inj in E; lia.
Qed.

Definition pushed (b : Z) pp : pipe :=
  set_pi_data (<[Z.to_nat (pi_nwrite pp mod PIPESIZE) := b]> (pi_data pp)) (set_pi_nwrite (u32 (pi_nwrite pp + 1)) pp).

Definition popped pp : pipe := set_pi_nread (u32 (pi_nread pp + 1)) pp.

Lemma pipe_push pp q b : pipe_has pp q -> (length q < 512)%nat -> pipe_has (pushed b pp) (q ++ [b]).
Proof.
  intros [H1 H2 H3 H4 H5] Hl. constructor; simpl; rewrite ?length_app, ?length_insert; simpl; try done; [|lia|].
  - rewrite H3. unfold u32. rewrite Zplus_mod_idemp_l. f_equal. lia.
  - intros i Hi. rewrite H3, u32_mod_512. destruct (decide (i = length q)) as [->|Hne].
    + rewrite list_lookup_insert_eq by (rewrite H1; apply mod_512_range). by rewrite lookup_app_r, Nat.sub_diag by lia.
    + rewrite list_lookup_insert_ne; [rewrite H5 by lia; by rewrite lookup_app_l by lia|].
      intros E. apply Hne. apply Nat2Z.inj. apply (mod_512_inj (pi_nread pp)); [lia|lia|].
      pose proof (Z.mod_pos_bound (pi_nread pp + Z.of_nat i) PIPESIZE ltac:(done)).
      pose proof (Z.mod_pos_bound (pi_nread pp + Z.of_nat (length q)) PIPESIZE ltac:(done)). lia.
Qed.

Lemma pipe_pop pp b q : pipe_has pp (b :: q) -> pipe_has (popped pp) q /\ nth (Z.to_nat (pi_nread pp mod PIPESIZE)) (pi_data pp) 0 = b.
Proof.
  intros [H1 H2 H3 H4 H5]. cbn [length] in *. split.
  - constructor; simpl; try done; [unfold u32; apply Z.mod_pos_bound; lia| |lia|].
    + rewrite H3. unfold u32. rewrite Zplus_mod_idemp_l. f_equal. lia.
    + intros i Hi. specialize (H5 (Datatypes.S i) ltac:(lia)). rewrite <- Zplus_mod_idemp_l, u32_mod_512, Zplus_mod_idemp_l.
      replace (pi_nread pp + 1 + Z.of_nat i) with (pi_nread pp + Z.of_nat (Datatypes.S i)) by lia. exact H5.
  - specialize (H5 0%nat ltac:(lia)). rewrite Z.add_0_r in H5. by rewrite nth_lookup, H5.
Qed.

Lemma pipe_has_meta pp q l r w : pipe_has pp q -> pipe_has (mkPipe l (pi_data pp) (pi_nread pp) (pi_nwrite pp) r w) q.
Proof. intros [H1 H2 H3 H4 H5]. by constructor. Qed.

End Ring.

Section Facts.
Context {S : Type} `{PL : ProcsLaws sys S} (kend : Z) (fuel : nat) (pid p : Z).
Implicit Types (pp : pipe) (q : list Z) (x : sys).
Abbreviation does := (does (X := sys) (S := S) pid).
Abbreviation runs := (runs (X := sys) (S := S) pid).
Abbreviation may := (may (X := sys) (S := S) pid).

(** The pipe, with the bytes [q] in it, its lock held by the caller; [lk] is the lock
    when it is free. *)
Definition held_pipe (lk : spinlock) q x : Prop :=
  exists pp, pipes x !! p = Some pp /\ pipe_has pp q /\ pi_lock pp = locked_by0 lk.
Definition free_pipe_at (lk : spinlock) q x : Prop :=
  exists pp, pipes x !! p = Some pp /\ pipe_has pp q /\ pi_lock pp = lk.

Context (lk : spinlock) (Hlk : free_lock lk).

Lemma pipe_enter q : does 0 (free_pipe_at lk q) (acquire (pipe_lock p)) 1 (fun _ x => held_pipe lk q x).
Proof using Hlk.
  intros x (pp & Hp & Hq & Hl). eexists tt, _. split.
  - apply (runs_acquire pid 0 (c_pipe p @ c_pi_lock) x lk); [|done|apply shallow_le; lia]. simpl. rewrite Hp. simpl. by rewrite Hl.
  - unfold held_pipe. simpl. rewrite Hp. simpl. rewrite lookup_insert_eq. eexists. split; [done|]. split; [|done].
    by destruct Hq; constructor.
Qed.

Lemma pipe_leave q : does 1 (held_pipe lk q) (release (pipe_lock p)) 0 (fun _ x => free_pipe_at lk q x).
Proof using Hlk.
  intros x (pp & Hp & Hq & Hl). eexists tt, _. split.
  - apply (runs_release pid 1 (c_pipe p @ c_pi_lock) x (locked_by0 lk)); [|done|apply shallow_le; lia|lia]. simpl. rewrite Hp. simpl. by rewrite Hl.
  - unfold free_pipe_at. simpl. rewrite Hp. simpl. rewrite lookup_insert_eq. eexists. split; [done|]. split; [by destruct Hq; constructor|].
    simpl. by rewrite free_unlocked.
Qed.

Lemma pipe_wake n ch (P : sys -> Prop) : shallow n -> does n P (wakeup_on ch) n (fun _ x => P x).
Proof. intros Hn x Hx. exists tt, x. split; [by apply runs_wakeup|done]. Qed.

Lemma pipe_load q : does 1 (held_pipe lk q) (load (c_pipe p)) 1
  (fun pp x => pipe_has pp q /\ pi_lock pp = locked_by0 lk /\ pipes x !! p = Some pp).
Proof. intros x (pp & Hp & Hq & Hl). exists pp, x. split; [by apply runs_load|done]. Qed.

Lemma put_byte_does q b : (length q < 512)%nat ->
  does 1 (held_pipe lk q) (put_byte p b) 1 (fun _ x => held_pipe lk (q ++ [b]) x).
Proof.
  intros Hl x (pp & Hp & Hq & Hlp). eexists tt, _. split.
  - eapply runs_bind; [by apply runs_load|]. eapply runs_bind; [apply (runs_store pid 1 (c_pipe p @ c_pi_nwrite) x (pi_nwrite pp))|].
    + simpl. by rewrite Hp.
    + apply (runs_update pid 1 (c_pipe p @ c_pi_data) _ (pi_data pp)). simpl. rewrite Hp. simpl. by rewrite lookup_insert_eq.
  - exists (pushed b pp). split; [|by split; [apply pipe_push|]]. simpl. rewrite Hp. simpl. rewrite lookup_insert_eq. simpl.
    rewrite lookup_insert_eq. done.
Qed.

(** *** Alone *)

(** The state with the pipe [pp], nothing else changed. *)
Definition with_pipe pp x : sys := set_pipes (<[p := pp]> (pipes x)) x.

Lemma with_pipe_at pp x : pipes (with_pipe pp x) !! p = Some pp.
Proof. apply lookup_insert_eq. Qed.

Lemma with_pipe_set pp pp' x : cset (c_pipe p) pp' (with_pipe pp x) = with_pipe pp' x.
Proof. unfold with_pipe. simpl. by rewrite insert_insert_eq. Qed.

Lemma with_pipe_same pp x : pipes x !! p = Some pp -> with_pipe pp x = x.
Proof. intros Hp. unfold with_pipe. rewrite insert_id by done. by destruct x. Qed.

Lemma runs_pipe_load n pp x : runs n (load (c_pipe p)) (with_pipe pp x) n pp (with_pipe pp x).
Proof. apply runs_load, with_pipe_at. Qed.

Lemma runs_pipe_store {Y : Type} n (c : cell pipe Y) y0 y pp x : cget c pp = Some y0 ->
  runs n (store (c_pipe p @ c) y) (with_pipe pp x) n tt (with_pipe (cset c y pp) x).
Proof.
  intros Hc. rewrite <- (with_pipe_set pp (cset c y pp)). pose proof (runs_store pid n (c_pipe p @ c) (with_pipe pp x) y0 y) as Hs.
  simpl in Hs. rewrite lookup_insert_eq in Hs. simpl in Hs. by apply Hs.
Qed.

Lemma runs_pipe_enter pp x : pi_lock pp = lk ->
  runs 0 (acquire (pipe_lock p)) (with_pipe pp x) 1 tt (with_pipe (set_pi_lock (locked_by0 lk) pp) x).
Proof using Hlk.
  intros Hl. pose proof (runs_acquire pid 0 (c_pipe p @ c_pi_lock) (with_pipe pp x) lk) as Ha. simpl in Ha.
  rewrite lookup_insert_eq in Ha. simpl in Ha. rewrite insert_insert_eq in Ha. apply Ha; [by rewrite Hl|done|apply shallow_le; lia].
Qed.

Lemma runs_pipe_leave pp x : pi_lock pp = locked_by0 lk ->
  runs 1 (release (pipe_lock p)) (with_pipe pp x) 0 tt (with_pipe (set_pi_lock lk pp) x).
Proof using Hlk.
  intros Hl. pose proof (runs_release pid 1 (c_pipe p @ c_pi_lock) (with_pipe pp x) (locked_by0 lk)) as Ha. simpl in Ha.
  rewrite lookup_insert_eq in Ha. simpl in Ha. rewrite insert_insert_eq, free_unlocked in Ha by done.
  apply Ha; [by rewrite Hl|done|apply shallow_le; lia|lia].
Qed.

Lemma put_byte_runs b pp x : runs 1 (put_byte p b) (with_pipe pp x) 1 tt (with_pipe (pushed b pp) x).
Proof.
  eapply runs_bind; [apply runs_pipe_load|]. eapply runs_bind; [by apply (runs_pipe_store 1 c_pi_nwrite (pi_nwrite pp))|]. eapply runs_bind.
  - apply (runs_load pid 1 (c_pipe p @ c_pi_data) _ (pi_data pp)). simpl. by rewrite lookup_insert_eq.
  - pose proof (runs_modify pid 1 (cset (c_pipe p @ c_pi_data) (<[Z.to_nat (pi_nwrite pp mod PIPESIZE) := b]> (pi_data pp)))
      (with_pipe (set_pi_nwrite (u32 (pi_nwrite pp + 1)) pp) x)) as Hm.
    simpl in Hm. rewrite lookup_insert_eq in Hm. simpl in Hm. rewrite insert_insert_eq in Hm. exact Hm.
Qed.

(** A pipe with the lock [l], the bytes [q], and the ends open as [pp0] says. *)
Definition pipe_like (l : spinlock) q pp0 pp : Prop :=
  pipe_has pp q /\ pi_lock pp = l /\ pi_readopen pp = pi_readopen pp0 /\ pi_writeopen pp = pi_writeopen pp0.

Lemma like_lock l l' q pp0 pp : pipe_like l q pp0 pp -> pipe_like l' q pp0 (set_pi_lock l' pp).
Proof. intros (Hq & _ & Hr & Hw). split; [by destruct Hq; constructor|done]. Qed.

Lemma pipewrite_loop_runs pp0 x n : forall addr q pp, pipe_like (locked_by0 lk) q pp0 pp -> (length q + length addr <= 512)%nat ->
  exists pp', runs 1 (pipewrite_loop fuel p addr n) (with_pipe pp x) 0 n (with_pipe pp' x) /\ pipe_like lk (q ++ addr) pp0 pp'.
Proof using Hlk.
  induction addr as [|b addr IH]; intros q pp Hpp Hl; cbn [pipewrite_loop].
  - rewrite app_nil_r. exists (set_pi_lock lk pp). split; [|by eapply like_lock].
    eapply runs_bind; [apply runs_wakeup, shallow_le; lia|]. eapply runs_bind; [apply runs_pipe_leave, Hpp|]. apply runs_ret.
  - simpl in Hl. destruct Hpp as (Hq & Hlk' & Hr & Hw). destruct (IH (q ++ [b]) (pushed b pp)) as (pp' & Hrun & Hpp').
    + split; [apply pipe_push; [done|lia]|done].
    + rewrite length_app. simpl. lia.
    + exists pp'. rewrite <- app_assoc in Hpp'. split; [|done]. eapply runs_bind.
      * cbn [wait_room]. eapply runs_bind; [apply runs_pipe_load|]. rewrite (pipe_full _ _ Hq), (proj2 (Nat.eqb_neq _ _)) by lia. apply runs_ret.
      * eapply runs_bind; [apply put_byte_runs|]. exact Hrun.
Qed.

Lemma pipewrite_runs pp x q addr : pipe_has pp q -> pi_lock pp = lk -> (length q + length addr <= 512)%nat ->
  exists pp', runs 0 (pipewrite fuel p addr (Z.of_nat (length addr))) (with_pipe pp x) 0 (Z.of_nat (length addr)) (with_pipe pp' x) /\
    pipe_like lk (q ++ addr) pp pp'.
Proof using Hlk.
  intros Hq Hl Hlen. destruct (pipewrite_loop_runs pp x (Z.of_nat (length addr)) addr q (set_pi_lock (locked_by0 lk) pp)) as (pp' & Hr & Hpp'); [|done|].
  - by eapply (like_lock lk).
  - exists pp'. split; [|done]. unfold pipewrite. rewrite take_ge by lia. eapply runs_bind; [by apply runs_pipe_enter|]. exact Hr.
Qed.

Lemma piperead_loop_runs l pp0 x k : forall addr q pp, pipe_like l q pp0 pp ->
  exists pp', runs 1 (piperead_loop k p addr) (with_pipe pp x) 1 (addr ++ take k q) (with_pipe pp' x) /\ pipe_like l (drop k q) pp0 pp'.
Proof.
  induction k as [|k IH]; intros addr q pp Hpp; cbn [piperead_loop].
  - exists pp. rewrite take_0, app_nil_r, drop_0. split; [apply runs_ret|done].
  - destruct Hpp as (Hq & Hl & Hr & Hw). destruct q as [|b q].
    + exists pp. split; [|done]. simpl. rewrite app_nil_r. eapply runs_bind; [apply runs_pipe_load|].
      rewrite (pipe_empty _ _ Hq). apply runs_ret.
    + destruct (pipe_pop _ _ _ Hq) as [Hq' Hb]. destruct (IH (addr ++ [b]) q (popped pp)) as (pp' & Hrun & Hpp'); [done|].
      exists pp'. split; [|done]. rewrite <- app_assoc in Hrun. eapply runs_bind; [apply runs_pipe_load|].
      rewrite (pipe_empty _ _ Hq). cbn [length Nat.eqb]. rewrite Hb. eapply runs_bind; [by apply (runs_pipe_store 1 c_pi_nread (pi_nread pp))|]. exact Hrun.
Qed.

Lemma piperead_runs pp x q n : pipe_has pp q -> pi_lock pp = lk -> q <> [] ->
  exists pp', runs 0 (piperead fuel p n) (with_pipe pp x) 0 (Z.of_nat (length (take (Z.to_nat n) q)), take (Z.to_nat n) q) (with_pipe pp' x) /\
    pipe_like lk (drop (Z.to_nat n) q) pp pp'.
Proof using Hlk.
  intros Hq Hl Hne. destruct (piperead_loop_runs (locked_by0 lk) pp x (Z.to_nat n) [] q (set_pi_lock (locked_by0 lk) pp)) as (pp' & Hr & Hpp').
  { by eapply (like_lock lk). }
  exists (set_pi_lock lk pp'). split; [|by eapply like_lock]. unfold piperead. eapply runs_bind; [by apply runs_pipe_enter|].
  eapply runs_bind with (a := true).
  - cbn [wait_data]. eapply runs_bind; [apply runs_pipe_load|].
    rewrite (pipe_empty _ q) by (by destruct Hq; constructor). destruct q; [done|]. cbn [length Nat.eqb andb]. apply runs_ret.
  - eapply runs_bind; [exact Hr|]. eapply runs_bind; [apply runs_wakeup, shallow_le; lia|].
    eapply runs_bind; [apply runs_pipe_leave, Hpp'|]. apply runs_ret.
Qed.

Lemma piperead_loop_does k addr q :
  does 1 (held_pipe lk q) (piperead_loop k p addr) 1 (fun a x => a = addr ++ take k q /\ held_pipe lk (drop k q) x).
Proof.
  intros x (pp & Hp & Hq & Hl). destruct (piperead_loop_runs (locked_by0 lk) pp x k addr q pp) as (pp' & Hr & Hq' & Hl' & _); [done|].
  rewrite (with_pipe_same pp x Hp) in Hr. eexists _, _. split; [exact Hr|]. split; [done|]. exists pp'. split; [apply with_pipe_at|done].
Qed.

(** A pipe is a queue of bytes.  With [q] in the pipe and room for the bytes of
    [addr], [pipewrite] returns their number without sleeping, and a [piperead] of [n]
    bytes that follows returns the first [n] bytes of [q] followed by [addr], or all of
    them if there are fewer, and leaves the rest in the pipe: whatever the counters
    are, also when they pass 2^32. *)
Theorem pipe_fifo q addr n (s : S) : in_proc pid 0 s -> free_pipe_at lk q (part s) ->
  (length q + length addr <= 512)%nat -> q ++ addr <> [] ->
  exists s' s'', pipewrite fuel p addr (Z.of_nat (length addr)) s = Ret (Z.of_nat (length addr)) s' /\
    piperead fuel p n s' = Ret (Z.of_nat (length (take (Z.to_nat n) (q ++ addr))), take (Z.to_nat n) (q ++ addr)) s'' /\
    free_pipe_at lk (drop (Z.to_nat n) (q ++ addr)) (part s'').
Proof using Hlk.
  intros Hs (pp & Hp & Hq & Hlp) Hl Hne. destruct (pipewrite_runs pp (part s) q addr Hq Hlp Hl) as (pp1 & Hr1 & Hq1 & Hl1 & _).
  rewrite (with_pipe_same pp _ Hp) in Hr1. destruct (Hr1 s Hs eq_refl) as (s1 & He1 & Hs1 & Hp1).
  destruct (piperead_runs pp1 (part s) (q ++ addr) n Hq1 Hl1 Hne) as (pp2 & Hr2 & Hq2 & Hl2 & _).
  destruct (Hr2 s1 Hs1 Hp1) as (s2 & He2 & _ & Hp2). exists s1, s2. split; [done|]. split; [done|].
  rewrite Hp2. exists pp2. split; [apply with_pipe_at|done].
Qed.

(** *** With other processes *)

(** While a process sleeps, others put bytes [w] into the pipe and take bytes [r] out of
    it: what was in it, followed by [w], is [r] followed by what is in it afterwards. *)
Definition others q x : Prop := exists w r q', q ++ w = r ++ q' /\ held_pipe lk q' x.

Context (sleep_law : forall ch q, ch = nread_chan p \/ ch = nwrite_chan p ->
  may 1 (held_pipe lk q) (sleep_on ch (pipe_lock p)) 1 (fun _ x => others q x)).
Context (killed_law : forall q, may 1 (held_pipe lk q) my_killed 1 (fun _ x => held_pipe lk q x)).

Lemma others_trans q w r q' x : q ++ w = r ++ q' -> others q' x -> others q x.
Proof. intros E (w' & r' & q2 & E' & Hx). exists (w ++ w'), (r ++ r'), q2. split; [|done]. by rewrite app_assoc, E, <- !app_assoc, E'. Qed.

(** The call may sleep while it waits: the bytes in the pipe change, but it holds the
    lock, and there is room, when it goes on. *)
Lemma wait_room_may k : forall q,
  may 1 (held_pipe lk q) (wait_room k p) 1
    (fun ok x => exists w r q', q ++ w = r ++ q' /\ held_pipe lk q' x /\ (ok = true -> (length q' < 512)%nat)).
Proof using sleep_law killed_law.
  induction k as [|k IH]; intros q; cbn [wait_room]; [apply may_fuel_out|].
  eapply may_bind; [apply does_may, pipe_load|]. intros pp.
  eapply may_pre with (P' := fun x => held_pipe lk q x /\ pipe_has pp q); [|intros x (? & ? & ?); split; [by exists pp|done]].
  apply may_when. intros Hq. rewrite (pipe_full _ _ Hq). destruct (Nat.eqb_spec (length q) 512) as [Hf|Hf].
  - eapply may_bind with (R := fun _ x => held_pipe lk q x).
    { destruct (pi_readopen pp =? 0); [by apply does_may, does_ret|]. eapply may_bind; [apply killed_law|]. intros kd. by apply does_may, does_ret. }
    intros [|].
    + apply does_may, does_ret. intros x Hx. exists [], [], q. by rewrite app_nil_r.
    + eapply may_bind_tt; [apply does_may, pipe_wake, shallow_le; lia|]. eapply may_bind_tt; [apply sleep_law; by right|].
      apply may_ex. intros w. apply may_ex. intros r. apply may_ex. intros q1.
      eapply may_pre; [|intros x [E Hx]; exact (conj Hx E)]. apply may_when. intros E. eapply may_post; [apply IH|].
      intros ok x (w' & r' & q2 & E' & Hx & Hr). exists (w ++ w'), (r ++ r'), q2. split; [|done]. by rewrite app_assoc, E, <- !app_assoc, E'.
  - apply does_may, does_ret. intros x Hx. exists [], [], q. rewrite app_nil_r. split; [done|]. split; [done|].
    destruct Hq as [_ _ _ ? _]. intros _. lia.
Qed.

(** [own] are bytes of the stream [w], in their order. *)
Abbreviation within own w := (sublist own w).

Lemma pipewrite_loop_may n : forall addr q,
  may 1 (held_pipe lk q) (pipewrite_loop fuel p addr n) 0
    (fun a x => exists own w r q', q ++ w = r ++ q' /\ free_pipe_at lk q' x /\ within own w /\
       prefix own addr /\ (a = n /\ own = addr \/ a = -1)).
Proof using sleep_law killed_law Hlk.
  induction addr as [|b addr IH]; intros q; cbn [pipewrite_loop].
  - eapply may_bind_tt; [apply does_may, pipe_wake, shallow_le; lia|]. eapply may_bind_tt; [apply does_may, pipe_leave|].
    apply does_may, does_ret. intros x Hx. exists [], [], [], q. rewrite app_nil_r. repeat (split; [done|]). by left.
  - eapply may_bind; [apply wait_room_may|]. intros ok. apply may_ex. intros w. apply may_ex. intros r. apply may_ex. intros q1.
    eapply may_pre; [|intros x (E & Hx & Hr); exact (conj Hx (conj E Hr))]. apply may_when. intros [E Hr]. destruct ok.
    + eapply may_bind_tt; [apply does_may, put_byte_does; by apply Hr|]. eapply may_post; [apply IH|].
      intros a x (own & w' & r' & q2 & E' & Hx & Hw & Hp & Ha). exists (b :: own), (w ++ b :: w'), (r ++ r'), q2.
      split; [|split; [done|split; [|split]]].
      * rewrite app_assoc, E, <- !app_assoc. f_equal. rewrite <- E', <- app_assoc. done.
      * by apply sublist_inserts_l, sublist_skip.
      * by apply prefix_cons.
      * destruct Ha as [[-> ->]| -> ]; [by left|by right].
    + eapply may_bind_tt; [apply does_may, pipe_leave|]. apply does_may, does_ret. intros x Hx. exists [], w, r, q1.
      split; [done|]. split; [done|]. split; [apply sublist_nil_l|]. split; [apply prefix_nil|]. by right.
Qed.

Lemma wait_data_may k : forall q, may 1 (held_pipe lk q) (wait_data k p) 1 (fun _ x => others q x).
Proof using sleep_law killed_law.
  induction k as [|k IH]; intros q; cbn [wait_data]; [apply may_fuel_out|].
  eapply may_bind; [apply does_may, pipe_load|]. intros pp.
  eapply may_pre with (P' := held_pipe lk q); [|intros x (? & ? & ?); by exists pp].
  assert (forall x, held_pipe lk q x -> others q x) as Hsame by (intros x Hx; exists [], [], q; by rewrite app_nil_r).
  destruct (_ && _); [|by apply does_may, does_ret]. eapply may_bind; [apply killed_law|]. intros kd.
  destruct (negb _); [by apply does_may, does_ret|]. eapply may_bind_tt; [apply sleep_law; by left|].
  apply may_ex. intros w. apply may_ex. intros r. apply may_ex. intros q1.
  eapply may_pre; [|intros x [E Hx]; exact (conj Hx E)]. apply may_when. intros E. eapply may_post; [apply IH|].
  intros ok x Hx. by eapply others_trans.
Qed.

Lemma piperead_may q n :
  may 1 (held_pipe lk q) (ok <- wait_data (Datatypes.S fuel) p ;;
    if ok then
      addr <- piperead_loop (Z.to_nat n) p [] ;;
      wakeup_on (nwrite_chan p) ;;;
      release (pipe_lock p) ;;;
      ret (Z.of_nat (length addr), addr)
    else release (pipe_lock p) ;;; ret (-1, [])) 0
    (fun a x => exists w r q', q ++ w = r ++ snd a ++ q' /\ free_pipe_at lk q' x /\
       (fst a = Z.of_nat (length (snd a)) /\ fst a <= Z.max 0 n \/ a = (-1, []))).
Proof using sleep_law killed_law Hlk.
  eapply may_bind; [apply wait_data_may|]. intros ok. apply may_ex. intros w. apply may_ex. intros r. apply may_ex. intros q1.
  eapply may_pre; [|intros x [E Hx]; exact (conj Hx E)]. apply may_when. intros E. destruct ok.
  - eapply may_bind_eq; [apply piperead_loop_does|]. eapply may_bind_tt; [apply does_may, pipe_wake, shallow_le; lia|].
    eapply may_bind_tt; [apply does_may, pipe_leave|]. apply does_may, does_ret. intros x Hx.
    exists w, r, (drop (Z.to_nat n) q1). cbn [fst snd app]. rewrite take_drop. split; [done|]. split; [done|]. left.
    split; [done|]. rewrite length_take. lia.
  - eapply may_bind_tt; [apply does_may, pipe_leave|]. apply does_may, does_ret. intros x Hx. exists w, r, q1. split; [done|]. split; [done|]. by right.
Qed.


End Facts.

(** ** Examples *)

(** A machine on which a process that waits for room sleeps until a reader has emptied
    the pipe. *)
Record busy := mkBusy { by_solo : solo }.

#[export] Instance busy_mach : HasMach busy.
Proof.
  refine {| mach_of s := mach_of (by_solo s); set_mach m s := mkBusy (set_mach m (by_solo s)) |}; try done. by intros [[]].
Defined.

#[export] Instance busy_part : Part sys busy.
Proof.
  refine {| part s := part (by_solo s); set_part x s := mkBusy (set_part x (by_solo s)) |}; try done. by intros [[]].
Defined.

Definition drained (pp : pipe) : pipe := set_pi_nread (pi_nwrite pp) pp.

#[export] Instance busy_procs : Procs busy := {|
  sleep_on c _ := match c with
                  | AddrChan a => modify (fun s => set_part (set_pipes (alter drained (a - 568) (pipes (part s))) (part s)) s)
                  | _ => ret tt
                  end;
  wakeup_on _ := ret tt;
  my_pid := gets (fun s => so_pid (by_solo s));
  my_killed := ret 0
|}.

#[export] Instance busy_laws : ProcsLaws sys busy.
Proof.
  refine {| in_proc pid n s := in_proc (X := sys) pid n (by_solo s) |}.
  - intros pid n s Hs. destruct (ip_cpu pid n (by_solo s) Hs) as (cp & cq & Hk & Hm). by exists cp, cq.
  - intros pid n s x Hs. by apply (ip_part pid n (by_solo s)).
  - intros pid n s c Hs _. by exists s.
  - intros pid n s Hs _. exists s. destruct Hs as [<- ?]. done.
Defined.

Definition example_pipe (nread : Z) : pipe := mkPipe zero_lock (replicate 512 0) nread nread 1 1.
Definition example_pipes (nread : Z) : sys :=
  set_pipes {[ 0x80104000 := example_pipe nread ]} (blank_sys example_disk example_log).

Lemma example_pipe_has nread : 0 <= nread < 2 ^ 32 -> free_pipe_at 0x80104000 zero_lock [] (example_pipes nread).
Proof.
  intros Hn. exists (example_pipe nread). split; [apply lookup_singleton_eq|]. split; [|done]. constructor; simpl; try done; [|lia|lia].
  rewrite Z.add_0_r. symmetry. by apply u32_id.
Qed.

Lemma drained_has pp q : pipe_has pp q -> pipe_has (drained pp) [].
Proof.
  intros [H1 H2 H3 H4 H5]. constructor; simpl; try done; [|rewrite Z.add_0_r|lia|lia].
  - rewrite H3. unfold u32. apply Z.mod_pos_bound. lia.
  - symmetry. apply u32_id. rewrite H3. unfold u32. apply Z.mod_pos_bound. lia.
Qed.

Lemma busy_sleep ch q : ch = nread_chan 0x80104000 \/ ch = nwrite_chan 0x80104000 ->
  may (X := sys) (S := busy) 1 1 (held_pipe 0x80104000 zero_lock q) (sleep_on ch (pipe_lock 0x80104000)) 1
    (fun _ x => others 0x80104000 zero_lock q x).
Proof.
  intros Hch s a s' Hs (pp & Hp & Hq & Hl) He.
  assert (exists c, s' = set_part (set_pipes (alter drained c (pipes (part s))) (part s)) s) as [c ->].
  { destruct Hch as [-> | ->]; injection He as _ <-; by eexists. }
  split; [by apply ip_part|]. unfold others, held_pipe. rewrite part_set. cbn [pipes set_pipes].
  destruct (decide (c = 0x80104000)) as [->|Hne].
  - exists [], q, []. split; [done|]. exists (drained pp). rewrite lookup_alter_eq, Hp. split; [done|]. split; [by eapply drained_has|done].
  - exists [], [], q. split; [by rewrite app_nil_r|]. exists pp. by rewrite lookup_alter_ne by done.
Qed.

Lemma pipe_fifo_witness : exists s' s'' : solo,
  pipewrite (S := solo) 0 0x80104000 [104; 105; 10] 3 (mkSolo solo_machine (example_pipes (2 ^ 32 - 2)) 1) = Ret 3 s' /\
  piperead (S := solo) 0 0x80104000 2 s' = Ret (2, [104; 105]) s'' /\ free_pipe_at 0x80104000 zero_lock [10] (part s'').
Proof.
  apply (pipe_fifo (S := solo) 0 1 0x80104000 zero_lock ltac:(done) [] [104; 105; 10] 2 (mkSolo solo_machine (example_pipes (2 ^ 32 - 2)) 1)).
  - apply solo_in_proc.
  - apply example_pipe_has. lia.
  - simpl. lia.
  - done.
Defined.

