(* ===== verification/File.v ===== *)
(** * Open files (file.c, and pipealloc of pipe.c)

    The table of open files.  A pointer to a file is its index in the table.  The bytes
    to be written are a list, those read are returned. *)

From stdpp Require Import base tactics list sets strings gmap.
From Stdlib Require Import ZArith Lia.
From S2P Require Import Prelude Params StringC Spinlock ProcState Comp SysState Words Solo Sleeplock Bio Log Fs Kalloc Pipe.
Open Scope Z_scope.

Section Ops.
Context {S : Type} `{PX : Part sys S} `{PR : Procs S} `{DV : DevSw S} (kend : Z) (fuel : nat).
Abbreviation K := (M S).

Definition ftable_lock : lockref S := spin_of c_ft_lock.

Definition fileinit : K unit := initlock ftable_lock "ftable".

(** The loop of [filealloc] from entry [f] on. *)
Fixpoint filealloc_scan (n : nat) (f : nat) : K (option nat) :=
  match n with
  | O => ret None
  | Datatypes.S n =>
      ref <- load (c_file f @ c_f_ref) ;;
      if ref =? 0 then store (c_file f @ c_f_ref) 1 ;;; ret (Some f) else filealloc_scan n (Datatypes.S f)
  end.

Definition filealloc : K (option nat) :=
  acquire ftable_lock ;;;
  f <- filealloc_scan NFILE 0 ;;
  release ftable_lock ;;;
  ret f.

Definition filedup (f : nat) : K nat :=
  acquire ftable_lock ;;;
  ref <- load (c_file f @ c_f_ref) ;;
  if ref <? 1 then panic "filedup" else
  store (c_file f @ c_f_ref) (i32 (ref + 1)) ;;;
  release ftable_lock ;;;
  ret f.

Definition fileclose (f : nat) : K unit :=
  acquire ftable_lock ;;;
  ref <- load (c_file f @ c_f_ref) ;;
  if ref <? 1 then panic "fileclose" else
  store (c_file f @ c_f_ref) (ref - 1) ;;;
  if 0 <? ref - 1 then release ftable_lock
  else
    ff <- load (c_file f) ;;
    store (c_file f @ c_f_ref) 0 ;;;
    store (c_file f @ c_f_type) FD_NONE ;;;
    release ftable_lock ;;;
    match f_type ff with
    | FD_PIPE => pipeclose kend (f_pipe ff) (f_writable ff)
    | FD_INODE =>
        begin_op fuel ;;;
        ip <- deref (f_ip ff) ;;
        iput fuel ip ;;;
        end_op fuel
    | FD_NONE => ret tt
    end.

(** The metadata, none for -1. *)
Definition filestat (f : nat) : K (option stat) :=
  ff <- load (c_file f) ;;
  match f_type ff with
  | FD_INODE =>
      ilock fuel (f_ip ff) ;;;
      ip <- deref (f_ip ff) ;;
      st <- stati ip ;;
      iunlock (f_ip ff) ;;;
      ret (Some st)
  | _ => ret None
  end.

Definition fileread (f : nat) (n : Z) : K (Z * list Z) :=
  ff <- load (c_file f) ;;
  if f_readable ff =? 0 then ret (-1, []) else
  match f_type ff with
  | FD_PIPE => piperead fuel (f_pipe ff) n
  | FD_INODE =>
      ilock fuel (f_ip ff) ;;;
      ip <- deref (f_ip ff) ;;
      off <- load (c_file f @ c_f_off) ;;
      r <- readi fuel ip off (u32 n) ;;
      when (0 <? fst r) (update (c_file f @ c_f_off) (fun o => u32 (o + fst r))) ;;;
      iunlock (f_ip ff) ;;;
      ret r
  | FD_NONE => panic "fileread"
  end.

(** A few blocks at a time, for the log. *)
Definition max_write : Z := (MAXOPBLOCKS - 1 - 1 - 2) / 2 * 512.

(** One transaction of [filewrite]: the [n1] first bytes of [addr]. *)
Definition write_chunk (f : nat) (p : option nat) (addr : list Z) (n1 : Z) : K Z :=
  begin_op fuel ;;;
  ilock fuel p ;;;
  ip <- deref p ;;
  off <- load (c_file f @ c_f_off) ;;
  r <- writei fuel ip addr off (u32 n1) ;;
  when (0 <? r) (update (c_file f @ c_f_off) (fun o => u32 (o + r))) ;;;
  iunlock p ;;;
  end_op fuel ;;;
  ret r.

(** The bytes written when the loop of [filewrite] ends. *)
Fixpoint filewrite_loop (k : nat) (f : nat) (p : option nat) (addr : list Z) (i n : Z) : K Z :=
  match k with
  | O => fuel_out
  | Datatypes.S k =>
      if i <? n then
        let n1 := if max_write <? n - i then max_write else n - i in
        r <- write_chunk f p (slice (Z.to_nat i) (Z.to_nat n1) addr) n1 ;;
        if r <? 0 then ret i
        else if negb (r =? n1) then panic "short filewrite"
        else filewrite_loop k f p addr (i + r) n
      else ret i
  end.

Definition filewrite (f : nat) (addr : list Z) (n : Z) : K Z :=
  ff <- load (c_file f) ;;
  if f_writable ff =? 0 then ret (-1) else
  match f_type ff with
  | FD_PIPE => pipewrite fuel (f_pipe ff) addr n
  | FD_INODE =>
      i <- filewrite_loop (Z.to_nat (n / max_write) + 2) f (f_ip ff) addr 0 n ;;
      ret (if i =? n then n else -1)
  | FD_NONE => panic "filewrite"
  end.

(** ** pipe.c: pipealloc *)

(** The bytes of the structure at [p] are what the page holds. *)
Definition pipe_at (m : memory) (p : Z) : pipe :=
  mkPipe (mkLock 0 EmptyString None) (map (fun i => m (p + 52 + i)) (seqZ 0 PIPESIZE)) 0 0 1 1.

Definition pipealloc : K (option (nat * nat)) :=
  f0 <- filealloc ;;
  f1 <- match f0 with Some _ => filealloc | None => ret None end ;;
  match f0, f1 with
  | Some f0, Some f1 =>
      p <- kalloc ;;
      if p =? 0 then fileclose f0 ;;; fileclose f1 ;;; ret None
      else
        m <- load c_mem ;;
        update c_pipes (<[p := pipe_at m p]>) ;;;
        initlock (pipe_lock p) "pipe" ;;;
        store (c_file f0 @ c_f_type) FD_PIPE ;;;
        store (c_file f0 @ c_f_readable) 1 ;;;
        store (c_file f0 @ c_f_writable) 0 ;;;
        store (c_file f0 @ c_f_pipe) p ;;;
        store (c_file f1 @ c_f_type) FD_PIPE ;;;
        store (c_file f1 @ c_f_readable) 0 ;;;
        store (c_file f1 @ c_f_writable) 1 ;;;
        store (c_file f1 @ c_f_pipe) p ;;;
        ret (Some (f0, f1))
  | Some f0, None => fileclose f0 ;;; ret None
  | None, _ => ret None
  end.

End Ops.
