(* ===== verification/FileFacts.v ===== *)
(** * Writing to a file

    [filewrite] on an open file, alone in the kernel: it stores the bytes in a series of
    transactions, and a crash leaves the file with the bytes of the transactions that
    were committed. *)

From stdpp Require Import base tactics list sets strings gmap.
From Stdlib Require Import ZArith Lia.
From S2P Require Import Prelude Params StringC Spinlock ProcState Comp SysState Words Solo Sleeplock Bio Log Crash.
From S2P Require Import Fs FsTx FsBlocks FsFile FsIo FsCall Kalloc Pipe File.
Open Scope Z_scope.

(** ** Contents that agree where files are *)

Section Agree.
Context (start N : Z) (s : superblock) (dstart : Z) (m : memdisk) (Hly : layout start N s dstart m).
Implicit Types (f g : Z -> list Z) (r : inode) (src : list Z).
Abbreviation home := (home start N m).
Abbreviation file_ok := (file_ok s dstart).
Abbreviation disk_wf := (disk_wf s dstart m).
Abbreviation stored := (stored start N s dstart m).

Lemma home_files f g : (forall n, home n -> g n = f n) -> forall n, is_data s dstart n \/ is_bmap s dstart n -> g n = f n.
Proof using Hly. intros Hg n [Hn|Hn]; apply Hg; [by apply (home_data _ _ _ _ _ Hly)|by apply (home_bmap _ _ _ _ _ Hly)]. Qed.

Lemma home_inode f g i : (forall n, home n -> g n = f n) -> 0 <= i < sb_ninodes s -> disk_inode s g i = disk_inode s f i.
Proof using Hly. intros Hg Hi. unfold disk_inode. rewrite Hg; [done|]. by apply (home_iblock _ _ _ _ _ Hly). Qed.

Lemma stored_home f r off src f' r' g : stored f r off src f' r' -> (forall n, home n -> g n = f' n) -> disk_wf g ->
  0 <= off -> 0 <= i_inum r < sb_ninodes s -> stored f r off src g r'.
Proof using Hly.
  intros [H1 H2 H3 H4 H5 H6 H7 H9 H10 H8] Hg Hwf Ho Hi. pose proof (home_files f' g Hg) as Hsame.
  pose proof (fo_size _ _ _ _ H1) as Hsz. assert (i_size r' = Z.max (i_size r) (off + Z.of_nat (length src))) as Es by (by rewrite H3).
  assert (forall j, 0 <= j < i_size r' -> fbyte g r' j = fbyte f' r' j) as Hb.
  { intros j Hj. eapply same_byte; try done; [lia|]. apply (fo_alloc _ _ _ _ H1); [apply Z.div_pos; [lia|reflexivity]|].
    pose proof (Z.mul_div_le j BSIZE ltac:(done)). lia. }
  constructor; try done.
  - by eapply (same_file _ _ _ _ _ Hly).
  - rewrite <- H4 at 2. unfold fbytes. apply map_ext_in. intros i Hin%list_elem_of_In%elem_of_seqZ. apply Hb. lia.
  - intros j Hj Hout. rewrite Hb by lia. by apply H5.
  - intros Hd. rewrite (home_inode f') by done. by apply H6.
  - intros i Hir Hne. rewrite (home_inode f') by done. by apply H7.
  - intros n Hn. apply H9. by eapply (same_owned s dstart f' g r' H1 Hsame).
  - intros n Hn Hu. rewrite (same_used _ _ _ _ _ Hly f' g r' H1 Hsame) by done. by apply H10.
  - intros n Hn Hnb Hni Hno Hu. rewrite Hg by done. by apply H8.
Qed.

(** The lock of an inode says nothing of its file. *)
Lemma file_ok_lock f r l : file_ok f r -> file_ok f (set_i_lock l r).
Proof. intros [H1 H2 H3 H4 H5 H6 H7 H8]. by constructor. Qed.

Lemma stored_lock f r l off src f' r' : stored f (set_i_lock l r) off src f' r' -> stored f r off src f' (set_i_lock (i_lock r) r').
Proof.
  intros [H1 H2 H3 H4 H5 H6 H7 H8 H9 H10]. constructor; try done; [by apply file_ok_lock|]. rewrite H3 at 1. by destruct r.
Qed.

(** Two writes, one after the other. *)
Lemma stored_app f r f1 r1 f2 r2 off s1 s2 : file_ok f r -> 0 <= off <= i_size r ->
  stored f r off s1 f1 r1 -> stored f1 r1 (off + Z.of_nat (length s1)) s2 f2 r2 -> stored f r off (s1 ++ s2) f2 r2.
Proof using Hly.
  intros Hok Ho [A1 A2 A3 A4 A5 A6 A7 A9 A10 A8] [B1 B2 B3 B4 B5 B6 B7 B9 B10 B8].
  assert (i_inum r1 = i_inum r) as Ei by (by rewrite A3).
  assert (i_size r1 = Z.max (i_size r) (off + Z.of_nat (length s1))) as Es by (by rewrite A3).
  assert (forall n, owned f1 r1 n -> 0 <= n < sb_size s) as Hr.
  { intros n Hn. destruct (fo_own _ _ _ _ A1 n Hn) as [Hd _]. pose proof (data_range _ _ _ _ _ Hly n Hd). destruct Hd. lia. }
  assert (forall n, owned f2 r2 n -> 0 <= n < sb_size s) as Hr2.
  { intros n Hn. destruct (fo_own _ _ _ _ B1 n Hn) as [Hd _]. pose proof (data_range _ _ _ _ _ Hly n Hd). destruct Hd. lia. }
  constructor; try done.
  - etrans; [exact B3|]. rewrite Es, length_app. rewrite A3 at 1. unfold set_i_addrs, set_i_size. cbn. f_equal. lia.
  - rewrite length_app, Nat2Z.inj_add, fbytes_app by lia. f_equal; [|done]. transitivity (fbytes f1 r1 off (Z.of_nat (length s1))); [|done].
    unfold fbytes. apply map_ext_in. intros i Hin%list_elem_of_In%elem_of_seqZ. apply B5; lia.
  - intros j Hj Hout. rewrite length_app in Hout. rewrite B5 by lia. apply A5; lia.
  - intros Hd. rewrite <- Ei. apply B6. rewrite Ei. by apply A6.
  - intros i Hi Hne. rewrite B7 by (rewrite ?Ei; done). by apply A7.
  - intros n Hn. destruct (B9 n Hn) as [Hn1|Hu]; [by apply A9|]. right. destruct (used s f n) eqn:E; [|done].
    rewrite (A10 n) in Hu by (done || by apply Hr2). done.
  - intros n Hn Hu. apply B10; [done|]. by apply A10.
  - intros n Hn Hb Hni Hno Hu. rewrite B8; [by apply A8|done|done|by rewrite Ei| |].
    + intros Hn1. destruct (A9 n Hn1) as [?|Hf]; [done|]. rewrite Hu in Hf; [done|]. by apply (fo_own _ _ _ _ A1).
    + intros Hd. apply A10; [|by apply Hu]. pose proof (data_range _ _ _ _ _ Hly n Hd). destruct Hd. lia.
Qed.

End Agree.

Section Write.
Context {S : Type} `{PL : ProcsLaws sys S} `{DV : DevSw S} (kend : Z) (fuel : nat) (pid : Z).
Context (start N : Z) (s : superblock) (dstart : Z) (HN : 26 <= N).
Context (y0 : sys) (ip fi : nat) (ff : file).
Context (Hip : (ip < length (inodes y0))%nat) (Hsb : sb y0 = s) (Hff : files y0 !! fi = Some ff).
Implicit Types (L src : list Z) (f : Z -> list Z) (m : memdisk) (r : inode) (x : sys).
Abbreviation does := (does (X := sys) (S := S) pid).
Abbreviation Tx := (Tx pid start N).
Abbreviation consistent := (consistent start N s dstart).
Abbreviation commits := (commits start N s dstart).
Abbreviation idle := (idle pid start N).
Abbreviation stored := (stored start N s dstart).

(** The system with the offset [o] in the open file and the inode [r]. *)
Definition at_offset (o : Z) : sys := cset (c_file fi) (set_f_off o ff) y0.
Definition file_state (o : Z) r : sys := with_inode (at_offset o) ip r.

Lemma at_offset_inodes o : (ip < length (inodes (at_offset o)))%nat.
Proof using Hip. done. Qed.

Lemma at_offset_sb o : sb (at_offset o) = s.
Proof using Hsb. done. Qed.

Lemma off_load hb L U f m o r :
  does 0 (Tx hb L U f m (file_state o r)) (load (c_file fi @ c_f_off)) 0 (fun a x => a = o /\ Tx hb L U f m (file_state o r) x).
Proof using Hff.
  apply tx_load; [apply _|]. simpl. rewrite list_lookup_insert_eq by (by eapply lookup_lt_Some). done.
Qed.

Lemma off_update hb L U f m o r h :
  does 0 (Tx hb L U f m (file_state o r)) (update (c_file fi @ c_f_off) h) 0 (fun _ x => Tx hb L U f m (file_state (h o) r) x).
Proof using Hff.
  assert (fi < length (files y0))%nat as Hl by (by eapply lookup_lt_Some).
  eapply does_post; [apply (tx_upd pid start N 0 (c_file fi @ c_f_off) _ _ _ _ _ _ h o)|].
  - simpl. by rewrite list_lookup_insert_eq.
  - intros [] x Hx. simpl in Hx. rewrite list_lookup_insert_eq in Hx by done. simpl in Hx.
    unfold file_state, at_offset, with_inode. simpl. by rewrite list_insert_insert_eq in Hx.
Qed.

(** An open file that is not a device: its inode is in the cache, nobody has locked it. *)
Record opened m r : Prop := {
  op_file : file_ok s dstart (block_in m) r;
  op_ref : 1 <= i_ref r;
  op_lock : sl_free (i_lock r);
  op_valid : i_valid r = 1;
  op_type : i_type r <> T_DEV /\ i_type r <> 0;
  op_shorts : shorts r;
  op_disk : disk_inode s (block_in m) (i_inum r) = disk_fields r
}.

(** What a transaction of [filewrite] leaves: [W] are its writes. *)
Record wrote m r (off : Z) src W r' : Prop := {
  wt_commits : exists g, commits m g W /\ stored m (block_in m) r off src g r';
  wt_stored : stored m (block_in m) r off src (block_in (apply_writes W m)) r';
  wt_opened : opened (apply_writes W m) r';
  wt_free : (nfree s (block_in m) <= nfree s (block_in (apply_writes W m)) + 8)%nat
}.

Lemma opened_stored m r off src g r' W : consistent m -> opened m r -> 0 <= off -> commits m g W -> stored m (block_in m) r off src g r' ->
  (nfree s (block_in m) <= nfree s g + 8)%nat -> wrote m r off src W r'.
Proof using Type.
  intros Hm Hop Ho Hc Hst Hfree. pose proof (cs_layout _ _ _ _ _ Hm) as Hly.
  pose proof (cm_ok _ _ _ _ _ _ _ Hc) as Hm'. pose proof (fo_inum _ _ _ _ (op_file _ _ Hop)) as Hi.
  assert (disk_wf s dstart m (block_in (apply_writes W m))) as Hwf'.
  { destruct (cs_wf _ _ _ _ _ Hm') as [H1 H2]. constructor; [|done]. by rewrite apply_writes_size in H1. }
  assert (stored m (block_in m) r off src (block_in (apply_writes W m)) r') as Hst'.
  { apply (stored_home _ _ _ _ _ Hly _ _ _ _ g); try done. apply Hc. }
  destruct (Hop) as [O1 O2 O3 O4 O5 O6 O7]. pose proof (st_inode _ _ _ _ _ _ _ _ _ _ _ Hst) as Hin.
  constructor; [by exists g|done| |].
  - constructor; [by apply Hst'|by rewrite Hin|by rewrite Hin|by rewrite Hin|by rewrite Hin|by rewrite Hin|].
    assert (i_inum r' = i_inum r) as -> by (by rewrite Hin). by apply (st_disk _ _ _ _ _ _ _ _ _ _ _ Hst').
  - rewrite (nfree_ext s g (block_in (apply_writes W m))); [done|]. intros b Hb. apply (used_home _ _ _ _ m g Hm); [apply Hc|done].
Qed.

(** The number of blocks a transaction touches. *)
Definition rounds (off n : Z) : nat := Z.to_nat ((off mod BSIZE + n + BSIZE - 1) / BSIZE).

Lemma rounds_ok off n : 0 <= n <= max_write ->
  off mod BSIZE + n <= BSIZE * Z.of_nat (rounds off n) /\ (rounds off n < io_rounds n)%nat /\ (rounds off n <= 4)%nat.
Proof.
  intros Hn. change max_write with 1536 in Hn. unfold rounds, io_rounds. assert (0 <= off mod BSIZE < BSIZE) as Hm by (by apply Z.mod_pos_bound).
  set (o := off mod BSIZE) in *. unfold BSIZE in *. pose proof (Z.div_mod (o + n + 512 - 1) 512). pose proof (Z.mod_pos_bound (o + n + 512 - 1) 512).
  pose proof (Z.div_mod n 512). pose proof (Z.mod_pos_bound n 512). lia.
Qed.

Lemma write_chunk_does m r off src : consistent m -> opened m r -> 0 <= off <= i_size r ->
  off + Z.of_nat (length src) <= MAXFILE * BSIZE -> Z.of_nat (length src) <= max_write -> (8 <= nfree s (block_in m))%nat ->
  does 0 (idle m (file_state off r)) (write_chunk fuel fi (Some ip) src (Z.of_nat (length src))) 0
    (fun a x => exists W r', (idle (apply_writes W m) (file_state (off + Z.of_nat (length src)) r') x /\ a = Z.of_nat (length src)) /\
       wrote m r off src W r').
Proof using HN Hip Hsb Hff.
  intros Hm Hop Ho Hmax Hlen Hfree. pose proof (cs_layout _ _ _ _ _ Hm) as Hly. destruct (Hop) as [O1 O2 O3 O4 [O5 O6] O7 O8].
  unfold write_chunk. change (MAXFILE * BSIZE) with 71680 in Hmax.
  eapply does_bind_tt; [apply begin_does|].
  assert (locked_inode pid s (block_in m) r = set_i_lock (sl_take pid (i_lock r)) r) as El by (unfold locked_inode; by rewrite O4).
  eapply does_bind_tt.
  { apply (ilock_does fuel pid start N s dstart m Hly (at_offset off) ip (at_offset_inodes off) (at_offset_sb off)); try done;
      [apply O1|apply O1|unfold budget, LOGSIZE; simpl; lia|by rewrite El]. }
  rewrite El. set (r1 := set_i_lock (sl_take pid (i_lock r)) r).
  eapply does_bind_eq; [by apply does_ret|]. eapply does_bind_eq; [apply off_load|]. rewrite u32_id by lia.
  destruct (rounds_ok off (Z.of_nat (length src)) ltac:(lia)) as (Hq1 & Hq2 & Hq3). set (q := rounds off (Z.of_nat (length src))) in *.
  eapply does_bind.
  { apply (writei_does fuel pid start N s dstart m Hly (at_offset off) ip (at_offset_inodes off) (at_offset_sb off) 0 q [] (block_in m) r1 src off);
      try done; [by apply file_ok_lock|apply Hm|unfold budget, LOGSIZE; simpl; lia|lia]. }
  intros a. apply does_ex. intros f'. apply does_ex. intros r2. apply does_ex. intros L2.
  eapply does_pre; [|intros x [[Hx Ha] HF]; exact (conj Hx (conj Ha HF))]. apply does_when. intros (-> & Hst & HL2 & Hfr).
  pose proof (st_inode _ _ _ _ _ _ _ _ _ _ _ Hst) as Hin.
  eapply does_bind_tt with (R := Tx [] L2 None f' m (file_state (off + Z.of_nat (length src)) r2)).
  { destruct (Z.ltb_spec 0 (Z.of_nat (length src))) as [Hp|Hz]; cbn [when].
    - eapply does_post; [apply off_update|]. intros [] x Hx. cbv beta in Hx. rewrite u32_id in Hx by lia. exact Hx.
    - apply does_ret. intros x Hx. replace (off + Z.of_nat (length src)) with off by lia. exact Hx. }
  eapply does_bind_tt.
  { apply (iunlock_does pid start N s dstart m Hly (at_offset (off + Z.of_nat (length src))) ip (at_offset_inodes _) (at_offset_sb _));
      rewrite Hin; [done|]. split; [done|]. split; [done|apply O3]. }
  apply (stored_lock start N s dstart m) in Hst. cbn in Hst.
  assert (sl_drop (i_lock r2) = i_lock r) as -> by (rewrite Hin; cbn; destruct O3 as (E1 & E2 & _); destruct (i_lock r); simpl in *; by subst).
  eapply does_bind_tt.
  { apply (end_does fuel pid start N s dstart m L2 f'); [done|apply Hst|]. simpl in HL2. unfold budget, LOGSIZE. lia. }
  apply does_ret. intros x (W & Hx & Hc). exists W, (set_i_lock (i_lock r) r2). split; [done|].
  apply (opened_stored m r off src f'); try done; lia.
Qed.

(** *** The loop of filewrite *)

Lemma stored_apply W m f r off src f' r' : stored (apply_writes W m) f r off src f' r' -> stored m f r off src f' r'.
Proof.
  intros [H1 [W1 W2] H3 H4 H5 H6 H7 H8 H9 H10]. rewrite apply_writes_size in W1. constructor; try done.
  intros n Hn. apply H10. by apply home_apply.
Qed.

Lemma stored_nil m r off : consistent m -> opened m r -> off <= i_size r -> stored m (block_in m) r off [] (block_in m) r.
Proof using Type.
  clear Hip HN. intros Hm Hop Ho. constructor; try done; [apply Hop|apply Hm| |by left].
  cbn [length]. rewrite Z.max_l by lia. by destruct r.
Qed.

Lemma slice_app {A : Type} (o a b : nat) (l : list A) : slice o a l ++ slice (o + a) b l = slice o (a + b) l.
Proof. unfold slice. rewrite <- drop_drop. by rewrite take_take_drop. Qed.

(** What [filewrite] of [n] bytes leaves when it goes on with byte [i]: the writes [W],
    and at any point of them a file with the bytes up to some [j]. *)
Record finished m r (off : Z) (addr : list Z) (i : Z) W r' : Prop := {
  fn_ok : consistent (apply_writes W m);
  fn_opened : opened (apply_writes W m) r';
  fn_stored : stored m (block_in m) r (off + i) (drop (Z.to_nat i) addr) (block_in (apply_writes W m)) r';
  fn_crash : forall k, exists j g r1, i <= j <= Z.of_nat (length addr) /\
    recovers start N (apply_writes (take k W) m) g /\
    stored m (block_in m) r (off + i) (slice (Z.to_nat i) (Z.to_nat (j - i)) addr) g r1
}.

Lemma finished_done m r off addr : consistent m -> opened m r -> off + Z.of_nat (length addr) <= i_size r ->
  finished m r off addr (Z.of_nat (length addr)) [] r.
Proof using HN.
  clear Hip. intros Hm Hop Ho. pose proof (stored_nil m r (off + Z.of_nat (length addr)) Hm Hop Ho) as Hst. constructor; try done.
  - rewrite Nat2Z.id, drop_all. exact Hst.
  - intros k. exists (Z.of_nat (length addr)), (block_in m), r. split; [lia|]. rewrite take_nil. split; [apply (consistent_recovers _ _ _ _ _ Hm); lia|].
    rewrite Z.sub_diag. exact Hst.
Qed.

Lemma finished_chunk m r off addr i n1 W1 r1 W2 r2 : consistent m -> opened m r -> 0 <= off -> 0 <= i -> 0 <= n1 -> off + i <= i_size r ->
  i + n1 <= Z.of_nat (length addr) -> wrote m r (off + i) (slice (Z.to_nat i) (Z.to_nat n1) addr) W1 r1 ->
  finished (apply_writes W1 m) r1 off addr (i + n1) W2 r2 -> finished m r off addr i (W1 ++ W2) r2.
Proof using HN.
  clear Hip. intros Hm Hop Ho Hi Hn1 Hs Hl [Hc Hst Hop1 _] [F1 F2 F3 F4]. pose proof (cs_layout _ _ _ _ _ Hm) as Hly.
  assert (Z.of_nat (length (slice (Z.to_nat i) (Z.to_nat n1) addr)) = n1) as El by (rewrite length_slice; lia).
  assert (forall s2 g r3, stored (apply_writes W1 m) (block_in (apply_writes W1 m)) r1 (off + (i + n1)) s2 g r3 ->
    stored m (block_in m) r (off + i) (slice (Z.to_nat i) (Z.to_nat n1) addr ++ s2) g r3) as Happ.
  { intros s2 g r3 H2. eapply (stored_app _ _ _ _ _ Hly); [apply Hop|lia|exact Hst|]. rewrite El.
    replace (off + i + n1) with (off + (i + n1)) by lia. by apply stored_apply in H2. }
  constructor; [by rewrite apply_writes_app..| |].
  - rewrite apply_writes_app. apply Happ in F3. rewrite Z2Nat.inj_add, <- drop_drop in F3 by lia. unfold slice in F3.
    by rewrite take_drop in F3.
  - intros k. destruct (Nat.le_gt_cases k (length W1)) as [Hk|Hk].
    + rewrite take_app_le by done. destruct Hc as (g & Hc & Hg). destruct (cm_atomic _ _ _ _ _ _ _ Hc k) as [Hr|Hr].
      * exists i, (block_in m), r. split; [lia|]. split; [done|]. rewrite Z.sub_diag. by apply stored_nil.
      * exists (i + n1), g, r1. split; [lia|]. split; [done|]. by replace (i + n1 - i) with n1 by lia.
    + rewrite take_app_ge by lia. rewrite apply_writes_app. destruct (F4 (k - length W1)%nat) as (j & g & r3 & Hj & Hr & H3).
      exists j, g, r3. split; [lia|]. split; [done|]. apply Happ in H3. rewrite Z2Nat.inj_add, slice_app in H3 by lia.
      by replace (Z.to_nat n1 + Z.to_nat (j - (i + n1)))%nat with (Z.to_nat (j - i)) in H3 by lia.
Qed.

Lemma wrote_consistent m r off src W r' : wrote m r off src W r' -> consistent (apply_writes W m).
Proof. intros [(g & Hc & _) _ _ _]. apply Hc. Qed.

Lemma filewrite_loop_does addr off : 0 <= off -> off + Z.of_nat (length addr) <= MAXFILE * BSIZE -> forall k m r i,
  consistent m -> opened m r -> 0 <= i <= Z.of_nat (length addr) -> off + i <= i_size r -> (0 < k)%nat ->
  Z.of_nat (length addr) - i <= max_write * (Z.of_nat k - 1) -> (8 * (k - 1) <= nfree s (block_in m))%nat ->
  does 0 (idle m (file_state (off + i) r)) (filewrite_loop fuel k fi (Some ip) addr i (Z.of_nat (length addr))) 0
    (fun a x => exists W r', (idle (apply_writes W m) (file_state (off + Z.of_nat (length addr)) r') x /\ a = Z.of_nat (length addr)) /\
       finished m r off addr i W r').
Proof using HN Hip Hsb Hff.
  intros Ho Hmax. induction k as [|k IH]; intros m r i Hm Hop Hi Hs Hk Hrem Hfree; [lia|]. cbn [filewrite_loop].
  destruct (Z.ltb_spec i (Z.of_nat (length addr))) as [Hlt|Hge].
  2:{ apply does_ret. intros x Hx. assert (i = Z.of_nat (length addr)) as -> by lia. exists [], r. split; [done|]. by apply finished_done. }
  set (n1 := if max_write <? Z.of_nat (length addr) - i then max_write else Z.of_nat (length addr) - i).
  assert (0 < n1 <= max_write /\ i + n1 <= Z.of_nat (length addr) /\ (n1 < max_write -> i + n1 = Z.of_nat (length addr))) as (Hn1 & Hn2 & Hn3).
  { unfold n1. change max_write with 1536. destruct (Z.ltb_spec 1536 (Z.of_nat (length addr) - i)); lia. }
  assert (Z.of_nat (length (slice (Z.to_nat i) (Z.to_nat n1) addr)) = n1) as El by (rewrite length_slice; lia).
  assert (0 < k)%nat as Hk1 by (change max_write with 1536 in *; lia).
  eapply does_bind.
  { rewrite <- El at 2. apply (write_chunk_does m r (off + i)); try done; try lia. }
  rewrite El. intros a. apply does_ex. intros W1. apply does_ex. intros r1.
  eapply does_pre; [|intros x [[Hx Ha] HF]; exact (conj Hx (conj Ha HF))]. apply does_when. intros (-> & Hw).
  rewrite (proj2 (Z.ltb_ge n1 0)), Z.eqb_refl by lia. cbn [negb]. replace (off + i + n1) with (off + (i + n1)) by lia.
  pose proof (st_inode _ _ _ _ _ _ _ _ _ _ _ (wt_stored _ _ _ _ _ _ Hw)) as Hin. rewrite El in Hin.
  assert (off + (i + n1) <= i_size r1) as Hs1 by (rewrite Hin; simpl; lia).
  eapply does_post; [apply IH; try done; [by eapply wrote_consistent|apply Hw|lia| |]|].
  - destruct (Z.lt_ge_cases n1 max_write) as [Hlt1|Hge1]; [rewrite Hn3 by done; change max_write with 1536; lia|change max_write with 1536 in *; lia].
  - pose proof (wt_free _ _ _ _ _ _ Hw). lia.
  - intros a x (W2 & r2 & [Hx ->] & Hf). exists (W1 ++ W2), r2. rewrite apply_writes_app. split; [done|].
    eapply (finished_chunk m r off addr i n1); try done; lia.
Qed.

(** C4: A write to a file does what it says, and is safe against crashes.  When nothing
    else is going on, [filewrite] of [addr] to an open file whose offset is within the
    file returns the number of bytes; then the bytes of the file at the offset are
    those of [addr], every other byte of the file, every other inode and every block
    of anybody else is what it was, the inode on the disk is up to date, and the
    offset is after the bytes written.  If the machine stops after any number [k] of
    the disk writes [W], and again and again while it recovers, then after the next
    recovery the disk holds a file to which some first [j] bytes of [addr] have been
    written in the same sense, and nothing else. *)
Theorem filewrite_stores m r off addr (st : S) : in_proc pid 0 st -> idle m (file_state off r) (part st) ->
  f_type ff = FD_INODE -> f_writable ff <> 0 -> f_ip ff = Some ip -> consistent m -> opened m r -> 0 <= off <= i_size r ->
  off + Z.of_nat (length addr) <= MAXFILE * BSIZE -> (8 * Z.to_nat (Z.of_nat (length addr) / max_write + 1) <= nfree s (block_in m))%nat ->
  exists st' W r', filewrite fuel fi addr (Z.of_nat (length addr)) st = Ret (Z.of_nat (length addr)) st' /\
    disk (part st') = apply_writes W m /\ idle (apply_writes W m) (file_state (off + Z.of_nat (length addr)) r') (part st') /\
    opened (apply_writes W m) r' /\ stored m (block_in m) r off addr (block_in (apply_writes W m)) r' /\
    forall k m1 st1, survives fuel pid (apply_writes (take k W) m) m1 -> in_proc pid 0 st1 -> booted m1 (part st1) ->
    exists j g r1 st2, (j <= length addr)%nat /\ start_up fuel st1 = Ret tt st2 /\ stored m (block_in m) r off (take j addr) g r1 /\
      forall n, home start N m n -> block_in (disk (part st2)) n = g n.
Proof using HN Hip Hsb Hff.
  intros Hst Hx Hty Hwr Hp Hm Hop Ho Hmax Hfree. pose proof (cs_layout _ _ _ _ _ Hm) as Hly. pose proof (ly_geo _ _ _ _ _ Hly) as Hg.
  assert (fi < length (files y0))%nat as Hl by (by eapply lookup_lt_Some).
  assert (does 0 (idle m (file_state off r)) (filewrite fuel fi addr (Z.of_nat (length addr))) 0
    (fun a x => exists W r', (idle (apply_writes W m) (file_state (off + Z.of_nat (length addr)) r') x /\ a = Z.of_nat (length addr)) /\
       finished m r off addr 0 W r')) as Hd.
  { unfold filewrite. eapply does_bind_eq; [apply (does_load pid 0 (c_file fi) _ (set_f_off off ff))|].
    - intros x (l & _ & Hv). rewrite (Bc_get pid (c_file fi) _ _ _ _ _ _ Hv). simpl. by rewrite list_lookup_insert_eq.
    - cbn [f_writable f_type f_ip set_f_off]. rewrite (proj2 (Z.eqb_neq _ _) Hwr), Hty, Hp.
      assert (0 <= Z.of_nat (length addr) / max_write) by (apply Z.div_pos; [lia|reflexivity]).
      eapply does_bind; [|]. 
      + replace (file_state off r) with (file_state (off + 0) r) by (by rewrite Z.add_0_r).
        apply (filewrite_loop_does addr off); try done; try lia.
        pose proof (Z.div_mod (Z.of_nat (length addr)) max_write ltac:(done)). pose proof (Z.mod_pos_bound (Z.of_nat (length addr)) max_write ltac:(done)).
        change max_write with 1536 in *. lia.
      + intros a. apply does_ret. intros x (W & r' & [Hx' ->] & Hf). exists W, r'. by rewrite Z.eqb_refl. }
  destruct (Hd (part st) Hx) as (a & x' & Hr & W & r' & [Hx' ->] & [F1 F2 F3 F4]). destruct (Hr st Hst eq_refl) as (st' & He & _ & Hpt).
  rewrite Z.add_0_r in F3. cbn [Z.to_nat] in F3. rewrite drop_0 in F3.
  exists st', W, r'. rewrite Hpt. split; [done|]. split; [by apply (idle_disk pid start N) in Hx'|]. split; [done|]. split; [done|]. split; [done|].
  intros k m1 st1 Hsv Hp1 Hb. destruct (F4 k) as (j & g & r1 & Hj & Hrc & Hsj).
  destruct (survives_recovers fuel pid start N _ m1 g (geo_apply _ _ (take k W) m Hg) ltac:(lia) Hrc Hsv) as [Hg1 Hr1].
  destruct (start_up_runs fuel pid start N m1 g (part st1) Hg1 ltac:(lia) Hr1 Hb) as (x2 & W2 & Hrun & _ & Hhome & _).
  destruct (Hrun st1 Hp1 eq_refl) as (st2 & He2 & _ & Hx2). exists (Z.to_nat j), g, r1, st2. split; [lia|]. split; [done|]. split.
  - rewrite Z.add_0_r, Z.sub_0_r in Hsj. unfold slice in Hsj. by rewrite drop_0 in Hsj.
  - intros n Hn. rewrite Hx2. apply Hhome. pose proof (survives_size _ _ _ _ Hsv) as Hsz. rewrite apply_writes_size in Hsz.
    destruct Hn as [? ?]. split; [by rewrite Hsz|done].
Qed.

End Write.

(** ** An example *)

#[export] Instance solo_dev : DevSw solo := {|
  dev_read _ := None; dev_write _ := None; kprintf _ _ := ret tt
|}.

(** A disk of 64 blocks: log, one block of inodes, one of the bitmap, data from block 34
    on; inode 2 is an empty file. *)
Definition sample_sb : superblock := mkSb 64 30 8 30 2 32 33.
Definition sample_inode : inode := mkInode 1 2 1 zero_sl 1 T_FILE 0 0 1 0 (replicate 13 0).
Definition sample_bitmap : list Z := replicate 4 255 ++ [3] ++ replicate 507 0.
Definition sample_disk : memdisk :=
  mkMemdisk 64 (zeros :: put32 16 2 (put32 12 30 zeros) :: replicate 30 zeros ++
    [put_dinode (dinode_off 2) (disk_fields sample_inode) zeros; sample_bitmap] ++ replicate 30 zeros) [].
Definition sample_file : file := mkFile FD_INODE 1 1 1 0 (Some 0%nat) 0.
Definition sample_log : logst := mkLog zero_lock 2 30 0 0 1 0 (replicate LOGSIZE 0).
Definition sample_sys : sys :=
  set_sb sample_sb (set_inodes (sample_inode :: replicate 49 zero_inode)
    (set_files (sample_file :: replicate 99 zero_file) (blank_sys sample_disk sample_log))).

Lemma sample_consistent : consistent 2 30 sample_sb 34 sample_disk.
Proof.
  constructor.
  - constructor; try (cbn; lia); [|by split; vm_compute|by vm_compute].
    unfold geo, sized. split; [lia|]. split; [cbn; lia|]. split; [cbn; lia|vm_compute; reflexivity].
  - split; vm_compute; reflexivity.
  - split; [vm_compute; reflexivity|done].
  - assert (forallb (fun d => (length d =? 512)%nat) (md_blocks sample_disk) = true) as Hl by (vm_compute; reflexivity).
    rewrite forallb_forall in Hl.
    assert (forallb (fun n => used sample_sb (block_in sample_disk) n) (seqZ 0 34) = true) as Hu by (vm_compute; reflexivity).
    rewrite forallb_forall in Hu. constructor.
    + intros n Hn. unfold block_in. rewrite nth_lookup. destruct (md_blocks sample_disk !! Z.to_nat n) as [d|] eqn:E.
      * apply list_elem_of_lookup_2, list_elem_of_In in E. simpl. by apply Nat.eqb_eq, Hl.
      * exfalso. apply lookup_ge_None in E. assert (length (md_blocks sample_disk) = 64%nat) as El by (vm_compute; reflexivity). cbn in Hn. lia.
    + intros n Hn. apply Hu, list_elem_of_In, elem_of_seqZ. lia.
Qed.

Lemma sample_opened : opened sample_sb 34 sample_disk sample_inode.
Proof.
  assert (forall bn, iblk (block_in sample_disk) sample_inode bn = 0) as Hb.
  { intros bn. unfold iblk, addr. change (i_addrs sample_inode) with (replicate 13 0). 
    rewrite !nth_lookup. destruct (bn <? NDIRECT); [|done]. destruct (replicate 13 0 !! Z.to_nat bn) eqn:E; [|done].
    by apply lookup_replicate in E as [-> _]. }
  constructor; try done.
  constructor; try done.
  - intros n [Hn [E|(bn & _ & E)]]; [by rewrite E in Hn|by rewrite Hb in E].
  - intros bn k _ _ _ Hne. by rewrite Hb in Hne.
  - intros bn Hbn Hlt. cbn in Hlt. unfold BSIZE in Hlt. lia.
Qed.

Definition sample_idle : sys := set_bc_lock (mkLock 0 "bcache" None) sample_sys.

Lemma sample_state : exists x, idle 1 2 30 sample_disk (file_state sample_idle 0 0 sample_file 0 sample_inode) x.
Proof.
  destruct (binit_does (S := solo) 1 sample_sys) as (x & _ & Hx); [|vm_compute; reflexivity|].
  - split; [done|]. intros b r Hb. change (replicate (Datatypes.S NBUF) zero_buffer !! b = Some r) in Hb.
    by apply lookup_replicate in Hb as [-> _].
  - exists x, sample_log. split; [|exact Hx]. constructor; try done.
Qed.

Lemma filewrite_stores_witness : exists (st st' : solo) W r', filewrite 0 0 [104; 105; 10] 3 st = Ret 3 st' /\
  disk (part st') = apply_writes W sample_disk /\
  stored 2 30 sample_sb 34 sample_disk (block_in sample_disk) sample_inode 0 [104; 105; 10] (block_in (disk (part st'))) r'.
Proof.
  destruct sample_state as [x Hx]. exists (mkSolo solo_machine x 1).
  destruct (filewrite_stores (S := solo) 0 1 2 30 sample_sb 34 ltac:(lia) sample_idle 0 0 sample_file ltac:(cbn; lia) eq_refl eq_refl
    sample_disk sample_inode 0 [104; 105; 10] (mkSolo solo_machine x 1)) as (st' & W & r' & He & Hd & _ & _ & Hst & _).
  - apply solo_in_proc.
  - exact Hx.
  - reflexivity.
  - discriminate.
  - reflexivity.
  - apply sample_consistent.
  - apply sample_opened.
  - cbn. lia.
  - cbn. unfold MAXFILE, NDIRECT, NINDIRECT, BSIZE. vm_compute. discriminate.
  - vm_compute. lia.
  - exists st', W, r'. split; [exact He|]. split; [exact Hd|]. rewrite Hd. exact Hst.
Defined.
