(* ===== verification/Vm.v ===== *)
(** * Virtual memory (vm.c)

    Page tables in physical memory.  The kernel maps all of it at [KERNBASE], so a
    physical page is a range of addresses of [mem].  [kend] and [kdata] are the
    addresses [end] and [data] of the linker script.  The bytes [copyout] copies are a
    list. *)

From stdpp Require Import base tactics list sets strings gmap.
From Stdlib Require Import ZArith Lia.
From S2P Require Import Prelude Params StringC Spinlock ProcState Comp SysState Words Solo Sleeplock Bio Log Fs Kalloc.
Open Scope Z_scope.

(** mmu.h *)
Definition PTE_P : Z := 0x001.
Definition PTE_W : Z := 0x002.
Definition PTE_U : Z := 0x004.
Definition PDX (va : Z) : Z := Z.land (Z.shiftr va PDXSHIFT) 0x3FF.
Definition PTX (va : Z) : Z := Z.land (Z.shiftr va PTXSHIFT) 0x3FF.
Definition PGADDR (d t o : Z) : Z := u32 (Z.lor (Z.lor (Z.shiftl d PDXSHIFT) (Z.shiftl t PTXSHIFT)) o).
Definition PTE_ADDR (pte : Z) : Z := Z.land pte (Z.lnot 0xFFF).
Definition PTE_FLAGS (pte : Z) : Z := Z.land pte 0xFFF.

(** [memmove] from a list of bytes. *)
Fixpoint write_bytes (m : memory) (a : Z) (bs : list Z) : memory :=
  match bs with [] => m | b :: bs => write_bytes (upd m a b) (a + 1) bs end.

Definition has (w flag : Z) : bool := negb (Z.land w flag =? 0).

Section Ops.
Context {S : Type} `{PX : Part sys S} `{PR : Procs S} `{DV : DevSw S} (kend kdata : Z) (fuel : nat).
Abbreviation K := (M S).

Definition loadw (a : Z) : K Z := m <- load c_mem ;; ret (load_word m a).
Definition storew (a v : Z) : K unit := update c_mem (fun m => store_word m a v).
Definition fill (a c n : Z) : K unit := update c_mem (fun m => memset m a c n).

(** The address of the PTE, none for 0. *)
Definition walkpgdir (pgdir va : Z) (alloc : bool) : K (option Z) :=
  let pde := pgdir + 4 * PDX va in
  e <- loadw pde ;;
  if has e PTE_P then
    pgtab <- p2v (PTE_ADDR e) ;;
    ret (Some (pgtab + 4 * PTX va))
  else if negb alloc then ret None
  else
    pgtab <- kalloc ;;
    if pgtab =? 0 then ret None else
    fill pgtab 0 PGSIZE ;;;
    pa <- v2p pgtab ;;
    storew pde (Z.lor (Z.lor (Z.lor pa PTE_P) PTE_W) PTE_U) ;;;
    ret (Some (pgtab + 4 * PTX va)).

(** [for(;;)] of [mappages], from page [a] on. *)
Fixpoint map_loop (n : nat) (pgdir a last pa perm : Z) : K Z :=
  match n with
  | O => fuel_out
  | Datatypes.S n =>
      pte <- walkpgdir pgdir a true ;;
      match pte with
      | None => ret (-1)
      | Some pte =>
          e <- loadw pte ;;
          if has e PTE_P then panic "remap" else
          storew pte (Z.lor (Z.lor pa perm) PTE_P) ;;;
          if a =? last then ret 0 else map_loop n pgdir (u32 (a + PGSIZE)) last (u32 (pa + PGSIZE)) perm
      end
  end.

Definition mappages (pgdir va size pa perm : Z) : K Z :=
  let a := PGROUNDDOWN va in
  let last := PGROUNDDOWN (u32 (va + size - 1)) in
  map_loop (Z.to_nat (u32 (last - a) / PGSIZE) + 1) pgdir a last pa perm.

(** The loop of [deallocuvm]. *)
Fixpoint dealloc_loop (n : nat) (pgdir a oldsz : Z) : K unit :=
  match n with
  | O => fuel_out
  | Datatypes.S n =>
      if a <? oldsz then
        pte <- walkpgdir pgdir a false ;;
        match pte with
        | None => dealloc_loop n pgdir (u32 (u32 (PGADDR (PDX a + 1) 0 0 - PGSIZE) + PGSIZE)) oldsz
        | Some pte =>
            e <- loadw pte ;;
            when (has e PTE_P)
              (let pa := PTE_ADDR e in
               if pa =? 0 then panic "kfree" else
               v <- p2v pa ;;
               kfree kend v ;;;
               storew pte 0) ;;;
            dealloc_loop n pgdir (u32 (a + PGSIZE)) oldsz
        end
      else ret tt
  end.

Definition deallocuvm (pgdir oldsz newsz : Z) : K Z :=
  if oldsz <=? newsz then ret oldsz else
  dealloc_loop (Z.to_nat ((oldsz - newsz) / PGSIZE) + 2) pgdir (PGROUNDUP newsz) oldsz ;;;
  ret newsz.

Definition freevm (pgdir : Z) : K unit :=
  if pgdir =? 0 then panic "freevm: no pgdir" else
  _ <- deallocuvm pgdir KERNBASE 0 ;;
  for_each (seq 0 NPDENTRIES)
    (fun i => e <- loadw (pgdir + 4 * Z.of_nat i) ;;
              when (has e PTE_P) (v <- p2v (PTE_ADDR e) ;; kfree kend v)) ;;;
  kfree kend pgdir.

(** [kmap]: virt, phys_start, phys_end, perm *)
Definition kmap : list (Z * Z * Z * Z) :=
  [(KERNBASE, 0, EXTMEM, PTE_W);
   (KERNLINK, KERNLINK - KERNBASE, kdata - KERNBASE, 0);
   (kdata, kdata - KERNBASE, PHYSTOP, PTE_W);
   (DEVSPACE, DEVSPACE, 0, PTE_W)].

(** The loop of [setupkvm]: the result is what [setupkvm] returns. *)
Fixpoint setup_loop (ks : list (Z * Z * Z * Z)) (pgdir : Z) : K Z :=
  match ks with
  | [] => ret pgdir
  | (virt, phys_start, phys_end, perm) :: ks =>
      r <- mappages pgdir virt (u32 (phys_end - phys_start)) phys_start perm ;;
      if r <? 0 then freevm pgdir ;;; ret 0 else setup_loop ks pgdir
  end.

Definition setupkvm : K Z :=
  pgdir <- kalloc ;;
  if pgdir =? 0 then ret 0 else
  fill pgdir 0 PGSIZE ;;;
  top <- p2v PHYSTOP ;;
  if DEVSPACE <? top then panic "PHYSTOP too high" else
  setup_loop kmap pgdir.

(** [kalloc] may return 0, to which [memset] then writes. *)
Definition inituvm (pgdir init sz : Z) : K unit :=
  if PGSIZE <=? sz then panic "inituvm: more than a page" else
  mem <- kalloc ;;
  if mem =? 0 then fault else
  fill mem 0 PGSIZE ;;;
  pa <- v2p mem ;;
  _ <- mappages pgdir 0 PGSIZE pa (Z.lor PTE_W PTE_U) ;;
  update c_mem (fun m => memmove m mem init sz).

(** The loop of [loaduvm]. *)
Fixpoint load_loop (n : nat) (pgdir addr : Z) (ip : nat) (offset i sz : Z) : K Z :=
  match n with
  | O => fuel_out
  | Datatypes.S k =>
      if i <? sz then
        pte <- walkpgdir pgdir (u32 (addr + i)) false ;;
        match pte with
        | None => panic "loaduvm: address should exist"
        | Some pte =>
            e <- loadw pte ;;
            let n := if sz - i <? PGSIZE then sz - i else PGSIZE in
            dst <- p2v (PTE_ADDR e) ;;
            r <- readi fuel ip (u32 (offset + i)) n ;;
            update c_mem (fun m => write_bytes m dst (snd r)) ;;;
            if negb (fst r =? n) then ret (-1) else load_loop k pgdir addr ip offset (u32 (i + PGSIZE)) sz
        end
      else ret 0
  end.

Definition loaduvm (pgdir addr : Z) (ip : nat) (offset sz : Z) : K Z :=
  if negb (addr mod PGSIZE =? 0) then panic "loaduvm: addr must be page aligned" else
  load_loop (Z.to_nat (sz / PGSIZE) + 2) pgdir addr ip offset 0 sz.

(** The loop of [allocuvm]. *)
Fixpoint alloc_loop (n : nat) (pgdir a oldsz newsz : Z) : K Z :=
  match n with
  | O => fuel_out
  | Datatypes.S n =>
      if a <? newsz then
        mem <- kalloc ;;
        if mem =? 0 then
          kprintf "allocuvm out of memory\n" [] ;;;
          _ <- deallocuvm pgdir newsz oldsz ;;
          ret 0
        else
          fill mem 0 PGSIZE ;;;
          pa <- v2p mem ;;
          r <- mappages pgdir a PGSIZE pa (Z.lor PTE_W PTE_U) ;;
          if r <? 0 then
            kprintf "allocuvm out of memory (2)\n" [] ;;;
            _ <- deallocuvm pgdir newsz oldsz ;;
            kfree kend mem ;;;
            ret 0
          else alloc_loop n pgdir (u32 (a + PGSIZE)) oldsz newsz
      else ret newsz
  end.

Definition allocuvm (pgdir oldsz newsz : Z) : K Z :=
  if KERNBASE <=? newsz then ret 0
  else if newsz <? oldsz then ret oldsz
  else alloc_loop (Z.to_nat ((newsz - oldsz) / PGSIZE) + 2) pgdir (PGROUNDUP oldsz) oldsz newsz.

Definition clearpteu (pgdir uva : Z) : K unit :=
  pte <- walkpgdir pgdir uva false ;;
  match pte with
  | None => panic "clearpteu"
  | Some pte => e <- loadw pte ;; storew pte (Z.land e (Z.lnot PTE_U))
  end.

(** The loop of [copyuvm]: false for [goto bad]. *)
Fixpoint copy_loop (n : nat) (pgdir d i sz : Z) : K bool :=
  match n with
  | O => fuel_out
  | Datatypes.S n =>
      if i <? sz then
        pte <- walkpgdir pgdir i false ;;
        match pte with
        | None => panic "copyuvm: pte should exist"
        | Some pte =>
            e <- loadw pte ;;
            if negb (has e PTE_P) then panic "copyuvm: page not present" else
            let pa := PTE_ADDR e in
            let flags := PTE_FLAGS e in
            mem <- kalloc ;;
            if mem =? 0 then ret false else
            src <- p2v pa ;;
            update c_mem (fun m => memmove m mem src PGSIZE) ;;;
            pm <- v2p mem ;;
            r <- mappages d i PGSIZE pm flags ;;
            if r <? 0 then kfree kend mem ;;; ret false
            else copy_loop n pgdir d (u32 (i + PGSIZE)) sz
        end
      else ret true
  end.

Definition copyuvm (pgdir sz : Z) : K Z :=
  d <- setupkvm ;;
  if d =? 0 then ret 0 else
  ok <- copy_loop (Z.to_nat (sz / PGSIZE) + 2) pgdir d 0 sz ;;
  if ok then ret d else freevm d ;;; ret 0.

(** [walkpgdir] may return 0, which is then dereferenced. *)
Definition uva2ka (pgdir uva : Z) : K Z :=
  pte <- walkpgdir pgdir uva false ;;
  pte <- deref pte ;;
  e <- loadw pte ;;
  if negb (has e PTE_P) then ret 0
  else if negb (has e PTE_U) then ret 0
  else p2v (PTE_ADDR e).

(** The loop of [copyout], [buf] the bytes still to be copied. *)
Fixpoint copyout_loop (n : nat) (pgdir va : Z) (buf : list Z) : K Z :=
  match n with
  | O => fuel_out
  | Datatypes.S k =>
      match buf with
      | [] => ret 0
      | _ =>
          let va0 := PGROUNDDOWN va in
          pa0 <- uva2ka pgdir va0 ;;
          if pa0 =? 0 then ret (-1) else
          let len := Z.of_nat (length buf) in
          let n := PGSIZE - (va - va0) in
          let n := if len <? n then len else n in
          update c_mem (fun m => write_bytes m (pa0 + (va - va0)) (take (Z.to_nat n) buf)) ;;;
          copyout_loop k pgdir (u32 (va0 + PGSIZE)) (drop (Z.to_nat n) buf)
      end
  end.

Definition copyout (pgdir va : Z) (buf : list Z) : K Z :=
  copyout_loop (length buf + 1) pgdir va buf.

End Ops.
