(* ===== verification/VmFacts.v ===== *)
(** * Address spaces

    [space] describes the page table at [pgdir] in memory [m]: [T] are its page tables,
    by the index of their directory entry, [U] the pages of the user part, by their
    number, and [l] the free pages.  No page occurs twice in all of these.  The
    operations of vm.c lead from one such description to another; pages move between
    the free list and the space, none is lost or shared. *)

From stdpp Require Import base tactics list sets strings gmap.
From Stdlib Require Import ZArith Lia.
From S2P Require Import Prelude Params StringC Spinlock ProcState Comp SysState Words Solo Sleeplock Bio Log Fs Kalloc Vm.
Open Scope Z_scope.

(** ** Entries *)

Section Bits.

Lemma PTE_ADDR_eq w : PTE_ADDR w = w / PGSIZE * PGSIZE.
Proof. apply page_mask. Qed.

Lemma PTE_FLAGS_eq w : PTE_FLAGS w = w mod PGSIZE.
Proof. unfold PTE_FLAGS. change 0xFFF with (Z.ones 12). by rewrite Z.land_ones by lia. Qed.

Lemma PGROUNDDOWN_eq a : PGROUNDDOWN a = a / PGSIZE * PGSIZE.
Proof. apply page_mask. Qed.

Lemma land_ten z : Z.land z 0x3FF = z mod 1024.
Proof. change 0x3FF with (Z.ones 10). by rewrite Z.land_ones by lia. Qed.

Lemma PDX_eq va : 0 <= va < 2 ^ 32 -> PDX va = va / PGSIZE / 1024.
Proof.
  intros Hv. unfold PDX, PDXSHIFT, PGSIZE. rewrite land_ten, Z.shiftr_div_pow2, Z.div_div by lia. change (2 ^ 22) with (4096 * 1024).
  apply Z.mod_small. split; [apply Z.div_pos; lia|apply Z.div_lt_upper_bound; lia].
Qed.

Lemma PTX_eq va : PTX va = va / PGSIZE mod 1024.
Proof. unfold PTX, PTXSHIFT, PGSIZE. by rewrite land_ten, Z.shiftr_div_pow2 by lia. Qed.

(** Flags in the low bits of an address. *)
Lemma lor_flags a f : a mod PGSIZE = 0 -> 0 <= f < PGSIZE -> Z.lor a f = a + f.
Proof.
  intros Ha Hf. apply Z.div_exact in Ha; [|done]. rewrite Ha. change PGSIZE with (2 ^ 12) in *. rewrite Z.mul_comm, <- Z.shiftl_mul_pow2 by lia.
  rewrite <- Z.add_lor_land.
  assert (Z.land (Z.shiftl (a / 2 ^ 12) 12) f = 0) as ->; [|lia].
  apply Z.bits_inj'. intros n Hn. rewrite Z.bits_0, Z.land_spec. destruct (Z.lt_ge_cases n 12).
  - by rewrite Z.shiftl_spec_low by lia.
  - rewrite andb_comm. destruct (decide (f = 0)) as [->|]; [by rewrite Z.bits_0|]. rewrite (Z.bits_above_log2 f); [done|lia|].
    assert (Z.log2 f < 12) by (apply Z.log2_lt_pow2; lia). lia.
Qed.

Lemma addr_flags a f : a mod PGSIZE = 0 -> 0 <= f < PGSIZE -> PTE_ADDR (a + f) = a /\ PTE_FLAGS (a + f) = f.
Proof.
  intros Ha Hf. rewrite PTE_ADDR_eq, PTE_FLAGS_eq. apply Z.div_exact in Ha; [|done]. rewrite Ha at 1 3. rewrite (Z.mul_comm PGSIZE).
  rewrite Z.div_add_l, (Z.div_small f), Z.add_0_r by done. split; [lia|]. by rewrite Z.add_comm, Z.mod_add, Z.mod_small.
Qed.

Lemma has_P w : has w PTE_P = Z.odd w.
Proof.
  unfold has, PTE_P. change 1 with (Z.ones 1). rewrite Z.land_ones by lia. change (2 ^ 1) with 2. rewrite Zmod_odd. by destruct (Z.odd w).
Qed.

Lemma odd_page a f : a mod PGSIZE = 0 -> Z.odd (a + f) = Z.odd f.
Proof.
  intros Ha. apply Z.div_exact in Ha; [|done]. rewrite Ha, Z.odd_add, Z.odd_mul. done.
Qed.

(** The entry [mappages] writes. *)
Definition entry (pa perm : Z) : Z := Z.lor (Z.lor pa perm) PTE_P.

Lemma odd_lor_1 a : Z.odd (Z.lor a 1) = true.
Proof. rewrite <- Z.bit0_odd, Z.lor_spec. by rewrite orb_true_r. Qed.

Lemma entry_eq pa perm : pa mod PGSIZE = 0 -> 0 <= perm < PGSIZE ->
  entry pa perm = pa + Z.lor perm 1 /\ 0 <= Z.lor perm 1 < PGSIZE /\ Z.odd (Z.lor perm 1) = true.
Proof.
  intros Ha Hp. assert (0 <= Z.lor perm 1) as H0 by (apply Z.lor_nonneg; lia). assert (Z.lor perm 1 < PGSIZE) as H1.
  { destruct (decide (Z.lor perm 1 = 0)) as [->|]; [done|]. change PGSIZE with (2 ^ 12) in *. apply Z.log2_lt_pow2; [lia|].
    rewrite Z.log2_lor by lia. destruct (decide (perm = 0)) as [->|]; [done|]. apply Z.max_lub_lt; [|done]. apply Z.log2_lt_pow2; lia. }
  split; [|split; [lia|apply odd_lor_1]]. unfold entry. rewrite <- Z.lor_assoc. by apply lor_flags.
Qed.

Lemma entry_odd pa perm : Z.odd (entry pa perm) = true.
Proof. apply odd_lor_1. Qed.

End Bits.

(** ** Words in memory *)

Section Mem.
Implicit Types (m : memory) (a b w : Z).

Lemma load_zero m p a : p <= a -> a + 4 <= p + PGSIZE -> load_word (memset m p 0 PGSIZE) a = 0.
Proof.
  intros H1 H2. unfold load_word. rewrite !memset_lem by done. rewrite !(proj2 (in_range_spec _ _ _)) by lia. done.
Qed.

Lemma memset_out m p a : a < p \/ p + PGSIZE <= a -> memset m p 0 PGSIZE a = m a.
Proof. intros Ha. rewrite memset_lem by done. by rewrite (proj2 (in_range_false _ _ _)) by lia. Qed.

(** [a] is in the page at [p]. *)
Definition in_page (p a : Z) : Prop := p <= a < p + PGSIZE.

(** [m'] differs from [m] only in the pages [ps]. *)
Definition only (ps : list Z) m m' : Prop := forall a, (forall p, p ∈ ps -> ~ in_page p a) -> m' a = m a.

Lemma only_refl ps m : only ps m m.
Proof. by intros a _. Qed.

Lemma only_trans ps m m1 m2 : only ps m m1 -> only ps m1 m2 -> only ps m m2.
Proof. intros H1 H2 a Ha. rewrite H2, H1; done. Qed.

Lemma only_mono ps qs m m' : ps ⊆ qs -> only ps m m' -> only qs m m'.
Proof. intros Hs H a Ha. apply H. intros p Hp. by apply Ha, Hs. Qed.

#[export] Instance only_proper : Proper (Permutation ==> eq ==> eq ==> iff) only.
Proof. intros ps qs Hp m ? <- m' ? <-. unfold only. split; intros H a Ha; apply H; intros p Hq; apply Ha; by rewrite ?Hp in *. Qed.

Lemma only_word ps m m' a p : only ps m m' -> (forall q, q ∈ ps -> q + PGSIZE <= p \/ p + PGSIZE <= q) -> in_page p a -> in_page p (a + 3) ->
  load_word m' a = load_word m a.
Proof.
  intros Ho Hq Ha Ha3. apply load_word_frame. intros b Hb. apply Ho. intros q Hin Hqb. destruct (Hq q Hin); unfold in_page in *; lia.
Qed.

End Mem.

(** ** Spaces *)

Section Space.
Context (kend : Z) (Hend : 0 < kend).
Implicit Types (m : memory) (T U : gmap Z Z) (l : list Z) (v w t u : Z).
Abbreviation page_ok := (page_ok kend).

(** The user part of an address space ends with page [UTOP]. *)
Definition UTOP : Z := KERNBASE / PGSIZE.

(** The entry of page [v]. *)
Definition pte m T v : Z := match T !! (v / 1024) with Some t => load_word m (t + 4 * (v mod 1024)) | None => 0 end.

Definition tables T : list Z := (map_to_list T).*2.
Definition pages_of (d : Z) T U l : list Z := d :: tables T ++ tables U ++ l.

Record space m (d : Z) T U l : Prop := {
  sp_pde : forall i, 0 <= i < 1024 -> match T !! i with
             | Some t => load_word m (d + 4 * i) = t - KERNBASE + 7
             | None => Z.odd (load_word m (d + 4 * i)) = false
             end;
  sp_dom : forall i t, T !! i = Some t -> 0 <= i < 1024;
  sp_pte : forall v, 0 <= v < UTOP -> match U !! v with
             | Some u => exists f, 0 <= f < PGSIZE /\ Z.odd f = true /\ pte m T v = u - KERNBASE + f
             | None => Z.odd (pte m T v) = false
             end;
  sp_user : forall v u, U !! v = Some u -> 0 <= v < UTOP;
  sp_ok : Forall page_ok (pages_of d T U l);
  sp_nodup : NoDup (pages_of d T U l)
}.

Lemma tables_elem T t : t ∈ tables T <-> exists i, T !! i = Some t.
Proof.
  unfold tables. rewrite list_elem_of_fmap. split.
  - intros ([i t'] & -> & Hi%elem_of_map_to_list). by exists i.
  - intros [i Hi]. exists (i, t). split; [done|]. by apply elem_of_map_to_list.
Qed.

Lemma tables_insert T i t : T !! i = None -> Permutation (tables (<[i := t]> T)) (t :: tables T).
Proof. intros Hi. unfold tables. by rewrite map_to_list_insert by done. Qed.

Lemma tables_delete T i t : T !! i = Some t -> Permutation (tables T) (t :: tables (delete i T)).
Proof. intros Hi. unfold tables. by rewrite <- (map_to_list_delete T i t Hi). Qed.

Lemma pages_elem_of d T U l p : p ∈ pages_of d T U l <-> p = d \/ (exists i, T !! i = Some p) \/ (exists v, U !! v = Some p) \/ p ∈ l.
Proof. unfold pages_of. rewrite elem_of_cons, !elem_of_app, !tables_elem. tauto. Qed.

Section Facts.
Context m d T U l (Hsp : space m d T U l).

Lemma dir_ok : page_ok d.
Proof using Hsp. pose proof (sp_ok _ _ _ _ _ Hsp) as H. by apply Forall_cons in H as [? _]. Qed.

Lemma table_ok i t : T !! i = Some t -> page_ok t.
Proof using Hsp.
  intros Hi. pose proof (sp_ok _ _ _ _ _ Hsp) as H. rewrite Forall_forall in H. apply H, pages_elem_of. right. left. by exists i.
Qed.

Lemma user_ok v u : U !! v = Some u -> page_ok u.
Proof using Hsp.
  intros Hi. pose proof (sp_ok _ _ _ _ _ Hsp) as H. rewrite Forall_forall in H. apply H, pages_elem_of. right. right. left. by exists v.
Qed.

Lemma dir_not_table i : T !! i <> Some d.
Proof using Hsp.
  intros Hi. pose proof (sp_nodup _ _ _ _ _ Hsp) as H. apply NoDup_cons in H as [Hn _]. apply Hn, elem_of_app. left.
  apply tables_elem. by exists i.
Qed.

Lemma table_inj i j t : T !! i = Some t -> T !! j = Some t -> i = j.
Proof using Hsp.
  intros Hi Hj. destruct (decide (i = j)) as [|Hne]; [done|]. exfalso. pose proof (sp_nodup _ _ _ _ _ Hsp) as H.
  apply NoDup_cons in H as [_ H]. rewrite (tables_delete T i t Hi) in H. cbn in H. apply NoDup_cons in H as [Hn _].
  apply Hn, elem_of_app. left. apply tables_elem. exists j. by rewrite lookup_delete_ne.
Qed.

Lemma page_aligned p : page_ok p -> p mod PGSIZE = 0 /\ (p - KERNBASE) mod PGSIZE = 0.
Proof.
  intros (Hp & _). split; [done|]. change KERNBASE with (0x80000 * PGSIZE). rewrite <- Z.add_opp_r, <- Z.mul_opp_l, Z.mod_add by done. done.
Qed.

Lemma entry_range v : 0 <= v -> 0 <= 4 * (v mod 1024) /\ 4 * (v mod 1024) + 4 <= PGSIZE.
Proof. intros Hv. pose proof (Z.mod_pos_bound v 1024). unfold PGSIZE. lia. Qed.

End Facts.

(** Entries of different pages are apart. *)
Lemma pages_disjoint p q : page_ok p -> page_ok q -> p <> q -> p + PGSIZE <= q \/ q + PGSIZE <= p.
Proof. apply pages_apart. Qed.

Lemma entry_apart m d T U l v v' t t' : space m d T U l -> 0 <= v -> 0 <= v' -> v <> v' ->
  T !! (v / 1024) = Some t -> T !! (v' / 1024) = Some t' ->
  t + 4 * (v mod 1024) + 4 <= t' + 4 * (v' mod 1024) \/ t' + 4 * (v' mod 1024) + 4 <= t + 4 * (v mod 1024).
Proof.
  intros Hsp Hv Hv' Hne Ht Ht'. pose proof (entry_range v Hv). pose proof (entry_range v' Hv').
  destruct (decide (t = t')) as [->|Htt].
  - assert (v mod 1024 <> v' mod 1024); [|lia]. intros E. apply Hne. pose proof (table_inj _ _ _ _ _ Hsp _ _ _ Ht Ht') as Ed.
    rewrite (Z.div_mod v 1024), (Z.div_mod v' 1024), Ed, E by done. done.
  - destruct (pages_disjoint t t' (table_ok _ _ _ _ _ Hsp _ _ Ht) (table_ok _ _ _ _ _ Hsp _ _ Ht') Htt); lia.
Qed.

(** The description only depends on the directory and the tables. *)
Lemma pte_frame m m' d T U l v : space m d T U l -> 0 <= v ->
  (forall i t a, T !! i = Some t -> in_page t a -> m' a = m a) -> pte m' T v = pte m T v.
Proof.
  intros Hsp Hv Hm. unfold pte. destruct (T !! (v / 1024)) as [t|] eqn:Ht; [|done]. pose proof (entry_range v Hv).
  apply load_word_frame. intros a Ha. apply (Hm (v / 1024) t); [done|]. unfold in_page. lia.
Qed.

Lemma space_frame m m' d T U l l' : space m d T U l ->
  (forall i t a, T !! i = Some t -> in_page t a -> m' a = m a) -> (forall a, in_page d a -> m' a = m a) ->
  Forall page_ok (pages_of d T U l') -> NoDup (pages_of d T U l') -> space m' d T U l'.
Proof.
  intros Hsp Ht Hd H5 H6. destruct (Hsp) as [H1 H2 H3 H4 _ _]. constructor; try done.
  - intros i Hi. specialize (H1 i Hi). assert (load_word m' (d + 4 * i) = load_word m (d + 4 * i)) as ->; [|done].
    apply load_word_frame. intros a Ha. apply Hd. unfold in_page, PGSIZE. lia.
  - intros v Hv. specialize (H3 v Hv). rewrite (pte_frame m m' d T U l v Hsp); [done|lia|done].
Qed.

(** *** A new page table *)

Definition new_table m (d i p : Z) : memory := store_word (memset m p 0 PGSIZE) (d + 4 * i) (p - KERNBASE + 7).

Lemma entry_word p : page_ok p -> 0 <= p - KERNBASE /\ p - KERNBASE + PGSIZE < 2 ^ 31.
Proof. intros (_ & _ & ? & ?). unfold KERNBASE, PHYSTOP, PGSIZE in *. lia. Qed.

Section Table.
Context m d T U l i p (Hsp : space m d T U (p :: l)) (Hi : 0 <= i < 1024) (Hn : T !! i = None).

Lemma new_ok : page_ok p /\ p <> d /\ forall j, T !! j <> Some p.
Proof using Hsp.
  pose proof (sp_ok _ _ _ _ _ Hsp) as Ho. rewrite Forall_forall in Ho. pose proof (sp_nodup _ _ _ _ _ Hsp) as Hd.
  unfold pages_of in Hd. rewrite <- Permutation_middle, <- Permutation_middle in Hd. apply NoDup_cons in Hd as [Hd1 Hd2].
  apply NoDup_cons in Hd2 as [Hp _]. split; [apply Ho, pages_elem_of; do 3 right; by left|]. split.
  - intros ->. apply Hd1. by left.
  - intros j Hj. apply Hp, elem_of_app. left. apply tables_elem. by exists j.
Qed.

Lemma new_only : only [d; p] m (new_table m d i p).
Proof using Hi.
  intros a Ha. unfold new_table. pose proof (Ha d ltac:(by left)) as Hd. pose proof (Ha p ltac:(right; by left)) as Hp.
  unfold in_page, PGSIZE in *. rewrite store_word_out by lia. apply memset_out. unfold PGSIZE. lia.
Qed.

Lemma new_pte v : 0 <= v -> pte (new_table m d i p) (<[i := p]> T) v = pte m T v.
Proof using Hsp Hi Hn.
  intros Hv. destruct new_ok as (Hp & Hpd & Hpt). pose proof (dir_ok _ _ _ _ _ Hsp) as Hdo. pose proof (entry_range v Hv) as He.
  unfold pte. destruct (decide (v / 1024 = i)) as [E|E].
  - rewrite E, lookup_insert_eq, Hn. unfold new_table. destruct (pages_disjoint p d Hp Hdo Hpd) as [Hx|Hx].
    + rewrite load_store_other by (unfold PGSIZE in *; lia). apply load_zero; lia.
    + rewrite load_store_other by (unfold PGSIZE in *; lia). apply load_zero; lia.
  - rewrite lookup_insert_ne by done. destruct (T !! (v / 1024)) as [t|] eqn:Ht; [|done].
    pose proof (table_ok _ _ _ _ _ Hsp _ _ Ht) as Hto. eapply (only_word [d; p] _ _ _ t); [apply new_only| |unfold in_page; lia..].
    intros q Hq. apply elem_of_cons in Hq as [->|Hq].
    + apply pages_disjoint; try done. intros <-. by eapply dir_not_table.
    + apply list_elem_of_singleton in Hq as ->. apply pages_disjoint; try done. intros <-. by eapply Hpt.
Qed.

Lemma new_pages : Permutation (pages_of d (<[i := p]> T) U l) (pages_of d T U (p :: l)).
Proof using Hn. unfold pages_of. rewrite tables_insert by done. cbn [app]. by rewrite <- !Permutation_middle. Qed.

Lemma new_space : space (new_table m d i p) d (<[i := p]> T) U l.
Proof using Hsp Hi Hn.
  destruct new_ok as (Hp & Hpd & Hpt). pose proof (dir_ok _ _ _ _ _ Hsp) as Hdo. destruct (Hsp) as [H1 H2 H3 H4 H5 H6].
  pose proof (entry_word p Hp) as Hw. constructor; try done.
  - intros j Hj. unfold new_table. destruct (decide (j = i)) as [->|Hne].
    + rewrite lookup_insert_eq. apply load_store_word. unfold PGSIZE in *. lia.
    + rewrite lookup_insert_ne by done. rewrite load_store_other by lia. specialize (H1 j Hj).
      assert (load_word (memset m p 0 PGSIZE) (d + 4 * j) = load_word m (d + 4 * j)) as ->; [|done].
      apply load_word_frame. intros a Ha. apply memset_out. destruct (pages_disjoint p d Hp Hdo Hpd); unfold PGSIZE in *; lia.
  - intros j t Hj. destruct (decide (j = i)) as [->|Hne]; [done|]. rewrite lookup_insert_ne in Hj by done. by eapply H2.
  - intros v Hv. rewrite new_pte by lia. by apply H3.
  - by rewrite new_pages.
  - by rewrite new_pages.
Qed.

End Table.

(** *** Setting an entry *)

Definition set_pte m t v w : memory := store_word m (t + 4 * (v mod 1024)) w.

Section Entry.
Context m d T U l v t w (Hsp : space m d T U l) (Hv : 0 <= v) (Ht : T !! (v / 1024) = Some t) (Hw : 0 <= w < 2 ^ 32).

Lemma set_only : only [t] m (set_pte m t v w).
Proof using Hv.
  intros a Ha. apply store_word_out. specialize (Ha t ltac:(by left)). pose proof (entry_range v Hv). unfold in_page in Ha. lia.
Qed.

Lemma pte_set v' : 0 <= v' -> pte (set_pte m t v w) T v' = if v' =? v then w else pte m T v'.
Proof using Hsp Hv Ht Hw.
  intros Hv'. unfold pte, set_pte. destruct (Z.eqb_spec v' v) as [->|Hne]; [rewrite Ht; by apply load_store_word|].
  destruct (T !! (v' / 1024)) as [t'|] eqn:Ht'; [|done]. apply load_store_other.
  pose proof (entry_apart _ _ _ _ _ v v' t t' Hsp Hv Hv' (not_eq_sym Hne) Ht Ht'). lia.
Qed.

Lemma set_pde i : 0 <= i < 1024 -> load_word (set_pte m t v w) (d + 4 * i) = load_word m (d + 4 * i).
Proof using Hsp Hv Ht.
  intros Hi. eapply (only_word [t] _ _ _ d); [apply set_only| |unfold in_page, PGSIZE; lia..].
  intros q Hq. apply list_elem_of_singleton in Hq as ->. apply pages_disjoint; [by eapply table_ok|by eapply dir_ok|].
  intros ->. by eapply dir_not_table.
Qed.

(** The space with other user pages [U'] and free pages [l']. *)
Lemma set_space U' l' : (forall v u, U' !! v = Some u -> 0 <= v < UTOP) -> Forall page_ok (pages_of d T U' l') -> NoDup (pages_of d T U' l') ->
  (forall v', 0 <= v' < UTOP -> v' <> v -> U' !! v' = U !! v') ->
  (v < UTOP -> match U' !! v with Some u => exists f, 0 <= f < PGSIZE /\ Z.odd f = true /\ w = u - KERNBASE + f | None => Z.odd w = false end) ->
  space (set_pte m t v w) d T U' l'.
Proof using Hsp Hv Ht Hw.
  intros K1 K2 K3 K4 K5. destruct (Hsp) as [H1 H2 H3 H4 H5 H6]. constructor; try done.
  - intros i Hi. rewrite set_pde by done. by apply H1.
  - intros v' Hv'. rewrite pte_set by lia. destruct (Z.eqb_spec v' v) as [->|Hne]; [apply K5; lia|]. rewrite K4 by (done || lia). by apply H3.
Qed.

Lemma set_kernel : UTOP <= v -> space (set_pte m t v w) d T U l.
Proof using Hsp Hv Ht Hw. intros Hk. destruct (Hsp). apply set_space; try done. lia. Qed.

Lemma set_user u f : v < UTOP -> U !! v = None -> page_ok u -> u ∉ pages_of d T U l -> 0 <= f < PGSIZE -> Z.odd f = true ->
  w = u - KERNBASE + f -> space (set_pte m t v w) d T (<[v := u]> U) l.
Proof using Hsp Hv Ht Hw.
  intros Hu Hn Hok Hfr Hf Hodd Hwe. destruct (Hsp) as [H1 H2 H3 H4 H5 H6].
  assert (Permutation (pages_of d T (<[v := u]> U) l) (u :: pages_of d T U l)) as Hp.
  { unfold pages_of. rewrite (tables_insert U) by done. cbn [app]. by rewrite <- !Permutation_middle, perm_swap. }
  apply set_space.
  - intros v' u' Hl. destruct (decide (v' = v)) as [->|]; [lia|]. rewrite lookup_insert_ne in Hl by done. by eapply H4.
  - rewrite Hp. by constructor.
  - rewrite Hp. by constructor.
  - intros v' _ Hne. by rewrite lookup_insert_ne.
  - intros _. rewrite lookup_insert_eq. by exists f.
Qed.

Lemma set_clear u : U !! v = Some u -> Z.odd w = false -> space (set_pte m t v w) d T (delete v U) l.
Proof using Hsp Hv Ht Hw.
  intros Hu Hodd. destruct (Hsp) as [H1 H2 H3 H4 H5 H6].
  assert (Permutation (pages_of d T U l) (u :: pages_of d T (delete v U) l)) as Hp.
  { unfold pages_of. rewrite (tables_delete U v u) by done. cbn [app]. by rewrite <- !Permutation_middle, perm_swap. }
  rewrite Hp in H5, H6. apply Forall_cons in H5 as [_ H5]. apply NoDup_cons in H6 as [_ H6]. apply set_space; try done.
  - intros v' u' Hl. destruct (decide (v' = v)) as [->|]; [by rewrite lookup_delete_eq in Hl|]. rewrite lookup_delete_ne in Hl by done. by eapply H4.
  - intros v' _ Hne. by rewrite lookup_delete_ne.
  - intros _. by rewrite lookup_delete_eq.
Qed.

End Entry.

End Space.

(** ** The code *)

Section Code.
Context {S : Type} `{PL : ProcsLaws sys S} `{DV : DevSw S} (kend kdata : Z) (Hend : 0 < kend) (fuel : nat) (pid : Z).
Implicit Types (m : memory) (T U : gmap Z Z) (l : list Z) (v w t u : Z) (x y : sys).
Abbreviation does := (does (X := sys) (S := S) pid).
Abbreviation page_ok := (page_ok kend).
Abbreviation space := (space kend).

(** The system [y] with memory [m] and the free pages [l]. *)
Definition Vs y l m x : Prop := x = set_kmem_ (kmem_ x) (set_mem m y) /\ alloc_ok kend l x.

Lemma vs_mem y l m x : Vs y l m x -> mem x = m.
Proof. intros [-> _]. done. Qed.

Lemma loadw_vs y l m a : does 0 (Vs y l m) (loadw a) 0 (fun w x => w = load_word m a /\ Vs y l m x).
Proof.
  unfold loadw. eapply does_bind_eq; [apply (does_load pid 0 c_mem _ m)|].
  - intros x Hx. simpl. by rewrite (vs_mem _ _ _ _ Hx).
  - by apply does_ret.
Qed.

Lemma update_vs y l m h : (forall p a, p ∈ l -> p <= a < p + 4 -> h m a = m a) ->
  does 0 (Vs y l m) (update c_mem h) 0 (fun _ x => Vs y l (h m) x).
Proof.
  intros Hh x Hx. pose proof (vs_mem _ _ _ _ Hx) as Em. destruct Hx as [Ex [Hf [Hc Hd Hp]]]. exists tt, (set_mem (h m) x). split.
  - rewrite <- Em. by apply (runs_update pid 0 c_mem).
  - split; [rewrite Ex at 1 2; done|]. split; [done|]. constructor; [|done|done]. simpl. eapply chain_frame; [|exact Hc].
    rewrite Em. exact Hh.
Qed.

(** A change inside a page that is not free. *)
Lemma update_page_vs y l m h p : page_ok p -> p ∉ l -> Forall page_ok l -> only [p] m (h m) ->
  does 0 (Vs y l m) (update c_mem h) 0 (fun _ x => Vs y l (h m) x).
Proof.
  intros Hp Hn Hl Ho. apply update_vs. intros q a Hq Ha. apply Ho. intros p' Hp'. apply list_elem_of_singleton in Hp' as ->.
  rewrite Forall_forall in Hl. destruct (pages_apart kend p q Hp (Hl q Hq)); [by intros ->|unfold in_page, PGSIZE in *; lia..].
Qed.

Lemma store_only m a w p : p <= a -> a + 4 <= p + PGSIZE -> only [p] m (store_word m a w).
Proof.
  intros H1 H2 b Hb. apply store_word_out. specialize (Hb p (list_elem_of_here _ _)). unfold in_page in Hb. lia.
Qed.

Lemma memset_only m p : only [p] m (memset m p 0 PGSIZE).
Proof. intros b Hb. apply memset_out. specialize (Hb p (list_elem_of_here _ _)). unfold in_page in Hb. lia. Qed.

Lemma kalloc_vs y l m : does 0 (Vs y l m) kalloc 0 (fun p x => p = hd 0 l /\ Vs y (tl l) m x).
Proof using Hend.
  intros x Hx. pose proof (vs_mem _ _ _ _ Hx) as Em. destruct Hx as [Ex Ha].
  destruct (kalloc_runs kend Hend pid 0 l x Ha) as (x' & Hr & Ha' & Em' & Ex'); [apply shallow_le; lia|apply shallow_le; lia|lia|].
  exists (hd 0 l), x'. split; [done|]. split; [done|]. split; [|done]. rewrite Ex' at 1. rewrite Ex at 2. rewrite Ex'. done.
Qed.

Lemma kfree_vs y l m p : page_ok p -> p ∉ l ->
  does 0 (Vs y l m) (kfree kend p) 0 (fun _ x => exists m', Vs y (p :: l) m' x /\ only [p] m m').
Proof using Hend.
  intros Hp Hn x Hx. pose proof (vs_mem _ _ _ _ Hx) as Em. destruct Hx as [Ex Ha].
  destruct (kfree_runs kend Hend pid 0 l x p Ha Hp Hn) as (x' & Hr & Ha' & Ex'); [apply shallow_le; lia|apply shallow_le; lia|lia|].
  exists tt, x'. split; [done|]. exists (mem x'). split.
  - split; [|done]. rewrite Ex' at 1. rewrite Ex at 4. rewrite Ex'. done.
  - rewrite Ex'. simpl. rewrite Em. intros a Hna. apply freed_out. specialize (Hna p (list_elem_of_here _ _)). unfold in_page in Hna. lia.
Qed.

Lemma v2p_does P a : KERNBASE <= a -> does 0 P (v2p a) 0 (fun b x => b = a - KERNBASE /\ P x).
Proof. intros Ha x Hx. eexists _, x. split; [by apply v2p_runs|done]. Qed.

Lemma p2v_does P a : 0 <= a < KERNBASE -> does 0 P (p2v a) 0 (fun b x => b = a + KERNBASE /\ P x).
Proof. intros Ha x Hx. eexists _, x. split; [by apply p2v_runs|done]. Qed.

(** *** walkpgdir *)

Lemma pde_addr p : page_ok p -> PTE_ADDR (p - KERNBASE + 7) = p - KERNBASE /\ 0 <= p - KERNBASE < KERNBASE.
Proof.
  intros Hp. destruct (page_aligned kend p Hp) as [_ Ha]. split; [by apply addr_flags|].
  destruct Hp as (_ & _ & ? & ?). unfold KERNBASE, PHYSTOP, PGSIZE in *. lia.
Qed.

Lemma walk_get y k m d T U l va : space m d T U l -> 0 <= va < 2 ^ 32 ->
  does 0 (Vs y k m) (walkpgdir d va false) 0
    (fun r x => r = (fun t => t + 4 * PTX va) <$> T !! PDX va /\ Vs y k m x).
Proof.
  intros Hsp Hva. unfold walkpgdir. eapply does_bind_eq; [apply loadw_vs|].
  assert (0 <= PDX va < 1024) as Hi by (unfold PDX; rewrite land_ten; apply Z.mod_pos_bound; lia).
  pose proof (sp_pde _ _ _ _ _ _ Hsp _ Hi) as Hpde. rewrite has_P. destruct (T !! PDX va) as [t|] eqn:Ht.
  - pose proof (table_ok _ _ _ _ _ _ Hsp _ _ Ht) as Hok. destruct (pde_addr t Hok) as [E1 E2]. rewrite Hpde.
    rewrite odd_page by (by apply (page_aligned kend t)). cbn [Z.odd]. rewrite E1. eapply does_bind_eq; [by apply p2v_does|].
    apply does_ret. intros x Hx. split; [|done]. simpl. do 2 f_equal. lia.
  - rewrite Hpde. cbn [negb]. by apply does_ret.
Qed.

(** What [walkpgdir] leaves when it may create a table, [i] and [j] the indices of the
    address. *)
Record walked m d T U l (i j : Z) (r : option Z) m' T' l' : Prop := {
  wk_space : space m' d T' U l';
  wk_pages : Permutation (pages_of d T' U l') (pages_of d T U l);
  wk_pte : forall v, 0 <= v -> pte m' T' v = pte m T v;
  wk_sub : T ⊆ T';
  wk_only : only (d :: tables T') m m';
  wk_res : match r with Some a => exists t, T' !! i = Some t /\ a = t + 4 * j | None => l = [] end
}.

Lemma pde_value p : page_ok p -> Z.lor (Z.lor (Z.lor (p - KERNBASE) PTE_P) PTE_W) PTE_U = p - KERNBASE + 7.
Proof.
  intros Hp. rewrite <- !Z.lor_assoc. change (Z.lor PTE_P (Z.lor PTE_W PTE_U)) with 7. apply lor_flags; [|done].
  by apply (page_aligned kend p).
Qed.

Lemma walk_alloc y m d T U l va : space m d T U l -> 0 <= va < 2 ^ 32 ->
  does 0 (Vs y l m) (walkpgdir d va true) 0
    (fun r x => exists m' T' l', Vs y l' m' x /\ walked m d T U l (PDX va) (PTX va) r m' T' l').
Proof using Hend.
  intros Hsp Hva. unfold walkpgdir. eapply does_bind_eq; [apply loadw_vs|].
  assert (0 <= PDX va < 1024) as Hi by (unfold PDX; rewrite land_ten; apply Z.mod_pos_bound; lia).
  pose proof (sp_pde _ _ _ _ _ _ Hsp _ Hi) as Hpde. rewrite has_P. destruct (T !! PDX va) as [t|] eqn:Ht; rewrite Hpde.
  - pose proof (table_ok _ _ _ _ _ _ Hsp _ _ Ht) as Hok. destruct (pde_addr t Hok) as [E1 E2].
    rewrite odd_page by (by apply (page_aligned kend t)). cbn [Z.odd]. rewrite E1. eapply does_bind_eq; [by apply p2v_does|].
    apply does_ret. intros x Hx. exists m, T, l. split; [done|]. constructor; try done. exists t. split; [done|]. lia.
  - cbn [negb]. eapply does_bind_eq; [apply kalloc_vs|]. destruct l as [|p l]; cbn [hd tl].
    + apply does_ret. intros x Hx. exists m, T, []. split; [done|]. by constructor.
    + destruct (new_ok _ _ _ _ _ _ _ Hsp) as (Hp & Hpd & Hpt). rewrite (proj2 (Z.eqb_neq p 0)) by (by eapply page_nonzero).
      assert (Forall page_ok l /\ (p ∉ l) /\ d ∉ l) as (Hl & Hpl & Hdl).
      { pose proof (sp_ok _ _ _ _ _ _ Hsp) as Ho. pose proof (sp_nodup _ _ _ _ _ _ Hsp) as Hd. unfold pages_of in *.
        rewrite Forall_cons, !Forall_app, Forall_cons in Ho. apply NoDup_cons in Hd as [Hd1 Hd2]. apply NoDup_app in Hd2 as (_ & _ & Hd2).
        apply NoDup_app in Hd2 as (_ & _ & Hd2). apply NoDup_cons in Hd2 as [Hd2 _]. split; [tauto|]. split; [done|]. intros Hin. apply Hd1.
        rewrite !elem_of_app, elem_of_cons. tauto. }
      eapply does_bind_tt; [apply (update_page_vs y l m _ p); [done|done|done|apply memset_only]|].
      eapply does_bind_eq; [apply v2p_does; apply Hp|]. rewrite pde_value by done.
      eapply does_bind_tt; [apply (update_page_vs y l _ _ d); [by eapply dir_ok|done|done|apply store_only; unfold PGSIZE; lia]|].
      apply does_ret. intros x Hx. exists (new_table m d (PDX va) p), (<[PDX va := p]> T), l. split; [done|]. constructor.
      * by eapply new_space.
      * by eapply new_pages.
      * intros v Hv. by eapply new_pte.
      * by apply insert_subseteq.
      * eapply only_mono; [|by apply new_only]. intros q Hq. rewrite tables_insert by done. apply elem_of_cons in Hq as [->|Hq]; [by left|]. right. apply list_elem_of_singleton in Hq as ->. by left.
      * exists p. by rewrite lookup_insert_eq.
Qed.

(** *** mappages *)

(** Pages that are not free can be written to. *)
Lemma space_split m d T U l : space m d T U l -> Forall page_ok l /\ forall p, p ∈ d :: tables T ++ tables U -> page_ok p /\ p ∉ l.
Proof.
  intros [_ _ _ _ H5 H6]. unfold pages_of in *. rewrite app_assoc, app_comm_cons in H5, H6. rewrite Forall_app in H5. apply NoDup_app in H6 as (_ & H6 & _).
  destruct H5 as [H5 H7]. split; [done|]. intros p Hp. rewrite Forall_forall in H5. split; [by apply H5|by apply H6].
Qed.

Lemma storew_vs y m d T U l v t w : space m d T U l -> 0 <= v -> T !! (v / 1024) = Some t ->
  does 0 (Vs y l m) (storew (t + 4 * (v mod 1024)) w) 0 (fun _ x => Vs y l (set_pte m t v w) x).
Proof.
  intros Hsp Hv Ht. destruct (space_split _ _ _ _ _ Hsp) as [Hl Hpg]. destruct (Hpg t) as [Ho Hn].
  { right. apply elem_of_app. left. apply tables_elem. by exists (v / 1024). }
  apply (update_page_vs y l m (fun m => store_word m _ w) t); try done. by apply (set_only m v t w).
Qed.

Lemma vpn_addr v : 0 <= v < 2 ^ 20 -> PDX (v * PGSIZE) = v / 1024 /\ PTX (v * PGSIZE) = v mod 1024.
Proof. intros Hv. rewrite PDX_eq, PTX_eq, Z.div_mul by (done || unfold PGSIZE; lia). done. Qed.

(** What mapping the [n] pages from [v] on to [pa] leaves, when [j] of them were mapped. *)
Record maps m d T U l (v pa perm j : Z) m' T' U' l' : Prop := {
  mp_space : space m' d T' U' l';
  mp_pte : forall v', 0 <= v' -> pte m' T' v' = if (v <=? v') && (v' <? v + j) then entry (pa + PGSIZE * (v' - v)) perm else pte m T v';
  mp_sub : T ⊆ T';
  mp_only : only (d :: tables T') m m'
}.

Lemma tables_mono T T' : T ⊆ T' -> tables T ⊆ tables T'.
Proof. intros Hs t Ht. apply tables_elem in Ht as [i Hi]. apply tables_elem. exists i. by eapply lookup_weaken. Qed.

(** One page of [mappages], with the rest of its loop. *)
Lemma map_step y m d T U l v w (k : M S Z) Q : space m d T U l -> 0 <= v < 2 ^ 20 -> Z.odd (pte m T v) = false ->
  (forall m' T' l' x, walked m d T U l (v / 1024) (v mod 1024) None m' T' l' -> Vs y l' m' x -> Q (-1) x) ->
  (forall m' T' l' t, walked m d T U l (v / 1024) (v mod 1024) (Some (t + 4 * (v mod 1024))) m' T' l' -> T' !! (v / 1024) = Some t ->
     does 0 (Vs y l' (set_pte m' t v w)) k 0 Q) ->
  does 0 (Vs y l m) (pte <- walkpgdir d (v * PGSIZE) true ;;
    match pte with
    | None => ret (-1)
    | Some pte => e <- loadw pte ;; if has e PTE_P then panic "remap" else storew pte w ;;; k
    end) 0 Q.
Proof using Hend.
  intros Hsp Hv Hodd Hnone Hsome. destruct (vpn_addr v Hv) as [E1 E2].
  eapply does_bind; [apply walk_alloc; [exact Hsp|unfold PGSIZE; lia]|]. rewrite E1, E2. intros r.
  apply does_ex. intros m'. apply does_ex. intros T'. apply does_ex. intros l'. apply does_when. intros Hw.
  destruct r as [a|]; [|apply does_ret; intros x Hx; exact (Hnone _ _ _ _ Hw Hx)].
  destruct (wk_res _ _ _ _ _ _ _ _ _ _ _ Hw) as (t & Ht & ->). eapply does_bind_eq; [apply loadw_vs|].
  assert (load_word m' (t + 4 * (v mod 1024)) = pte m' T' v) as -> by (unfold pte; by rewrite Ht).
  rewrite has_P, (wk_pte _ _ _ _ _ _ _ _ _ _ _ Hw), Hodd by lia.
  eapply does_bind_tt; [eapply storew_vs; [apply Hw|lia|done]|]. exact (Hsome _ _ _ _ Hw Ht).
Qed.

Lemma maps_none m d T U l v pa perm i j m' T' l' : walked m d T U l i j None m' T' l' -> maps m d T U l v pa perm 0 m' T' U l'.
Proof.
  intros [W1 W2 W3 W4 W5 W6]. constructor; try done. intros v' Hv'. rewrite Z.add_0_r.
  destruct (Z.leb_spec v v'), (Z.ltb_spec v' v); try lia; by apply W3.
Qed.

Lemma maps_one m d T U l v pa perm r m' T' l' t U' : walked m d T U l (v / 1024) (v mod 1024) r m' T' l' -> 0 <= v ->
  T' !! (v / 1024) = Some t -> 0 <= entry pa perm < 2 ^ 32 -> space (set_pte m' t v (entry pa perm)) d T' U' l' ->
  maps m d T U l v pa perm 1 (set_pte m' t v (entry pa perm)) T' U' l'.
Proof.
  intros [W1 W2 W3 W4 W5 W6] Hv Ht He Hs. constructor; try done.
  - intros v' Hv'. rewrite (pte_set kend m' d T' U l' v t) by done. destruct (Z.eqb_spec v' v) as [->|Hne].
    + rewrite (proj2 (Z.leb_le _ _)), (proj2 (Z.ltb_lt _ _)) by lia. cbn [andb]. by rewrite Z.sub_diag, Z.mul_0_r, Z.add_0_r.
    + destruct (Z.leb_spec v v'), (Z.ltb_spec v' (v + 1)); try lia; by apply W3.
  - eapply only_trans; [exact W5|]. eapply only_mono; [|by apply (set_only m' v t)]. intros q Hq. apply list_elem_of_singleton in Hq as ->.
    right. apply tables_elem. by exists (v / 1024).
Qed.

Lemma maps_trans m d T U l v pa perm k m1 T1 U1 l1 m2 T2 U2 l2 : 0 <= k ->
  maps m d T U l v pa perm 1 m1 T1 U1 l1 -> maps m1 d T1 U1 l1 (v + 1) (pa + PGSIZE) perm k m2 T2 U2 l2 ->
  maps m d T U l v pa perm (k + 1) m2 T2 U2 l2.
Proof.
  intros Hk [A1 A2 A3 A4] [B1 B2 B3 B4]. constructor; try done.
  - intros v' Hv'. rewrite B2, A2 by done. destruct (Z.leb_spec (v + 1) v'), (Z.ltb_spec v' (v + 1 + k)), (Z.leb_spec v v'), (Z.ltb_spec v' (v + 1)), (Z.ltb_spec v' (v + (k + 1)));
      try lia; cbn [andb]; try done; f_equal; lia.
  - by etrans.
  - eapply only_trans; [|exact B4]. eapply only_mono; [|exact A4]. intros q Hq. apply elem_of_cons in Hq as [->|Hq]; [by left|]. right.
    by eapply tables_mono.
Qed.

Lemma map_kernel y d U perm : 0 <= perm < PGSIZE -> forall n m T l v pa,
  space m d T U l -> UTOP <= v -> v + Z.of_nat n < 2 ^ 20 -> pa mod PGSIZE = 0 -> 0 <= pa -> pa + PGSIZE * Z.of_nat n + PGSIZE <= 2 ^ 32 ->
  (forall v', v <= v' <= v + Z.of_nat n -> Z.odd (pte m T v') = false) ->
  does 0 (Vs y l m) (map_loop (Datatypes.S n) d (v * PGSIZE) ((v + Z.of_nat n) * PGSIZE) pa perm) 0
    (fun r x => exists m' T' l' k, Vs y l' m' x /\ maps m d T U l v pa perm k m' T' U l' /\
       Permutation (pages_of d T' U l') (pages_of d T U l) /\
       (r = 0 /\ k = Z.of_nat n + 1 \/ r = -1 /\ 0 <= k <= Z.of_nat n)).
Proof using Hend.
  intros Hperm. induction n as [|n IH]; intros m T l v pa Hsp Hu Hv Hpa Hpa0 Hp Hodd;
    (assert (0 <= UTOP) as HU by done); destruct (entry_eq pa perm Hpa Hperm) as (Ee & Er & Eo);
    assert (0 <= entry pa perm < 2 ^ 32) as He by (unfold PGSIZE in *; lia);
    cbn [map_loop]; (apply (map_step y m d T U l v); [done|lia|apply Hodd; lia| |]).
  1,3: intros m' T' l' x Hw Hx; exists m', T', l', 0; split; [done|]; split; [by eapply maps_none|split; [apply Hw|right; lia]].
  all: intros m' T' l' t Hw Ht;
    assert (maps m d T U l v pa perm 1 (set_pte m' t v (entry pa perm)) T' U l') as Hm1
      by (eapply maps_one; [exact Hw|lia|done|done|]; apply (set_kernel kend m' d T' U l'); [apply Hw|lia|done|done|done]).
  - rewrite Z.add_0_r, Z.eqb_refl. apply does_ret. intros x Hx. exists (set_pte m' t v (entry pa perm)), T', l', 1.
    split; [done|]. split; [done|]. split; [apply Hw|]. by left.
  - rewrite (proj2 (Z.eqb_neq _ _)) by (unfold PGSIZE; lia). rewrite !u32_id by (unfold PGSIZE in *; lia).
    replace (v * PGSIZE + PGSIZE) with ((v + 1) * PGSIZE) by lia.
    replace ((v + Z.of_nat (Datatypes.S n)) * PGSIZE) with ((v + 1 + Z.of_nat n) * PGSIZE) by lia.
    eapply does_post; [apply IH; [apply Hm1|lia|lia| |unfold PGSIZE in *; lia|unfold PGSIZE in *; lia|]|].
    + rewrite <- (Z.mul_1_l PGSIZE) at 1. by rewrite Z.mod_add.
    + intros v' Hv'. rewrite (mp_pte _ _ _ _ _ _ _ _ _ _ _ _ _ Hm1) by lia. destruct (Z.leb_spec v v'), (Z.ltb_spec v' (v + 1)); try lia.
      cbn [andb]. apply Hodd. lia.
    + intros r x (m2 & T2 & l2 & k & Hx & Hm2 & Hp2 & Hr). exists m2, T2, l2, (k + 1). split; [done|].
      split; [eapply maps_trans; [lia|exact Hm1|exact Hm2]|]. split; [rewrite Hp2; apply Hw|]. lia.
Qed.

End Code.
