(* ===== verification/VmSpace.v ===== *)
(** * Building, copying and freeing address spaces

    The operations of vm.c on the spaces of [VmFacts]: [mappages], [deallocuvm],
    [freevm], [setupkvm], [allocuvm], [copyuvm] and [copyout].  What an operation that
    fails had allocated is back on the free list. *)

From stdpp Require Import base tactics list sets strings gmap.
From Stdlib Require Import ZArith Lia.
From S2P Require Import Prelude Params StringC Spinlock ProcState Comp SysState Words Solo Sleeplock Bio Log Fs Kalloc Vm VmFacts.
Open Scope Z_scope.

Section Code.
Context {S : Type} `{PL : ProcsLaws sys S} `{DV : DevSw S} (kend kdata : Z) (Hend : KERNBASE < kend) (fuel : nat) (pid : Z).
Implicit Types (m : memory) (T U : gmap Z Z) (l : list Z) (v w t u : Z) (x y : sys).
Abbreviation does := (does (X := sys) (S := S) pid).
Abbreviation page_ok := (page_ok kend).
Abbreviation space := (space kend).
Abbreviation Vs := (Vs kend).
Abbreviation maps := (maps kend).

Lemma kend_pos : 0 < kend.
Proof using Hend. unfold KERNBASE in Hend. lia. Qed.

(** ** mappages *)

Lemma mappages_pages d v n pa perm : 0 <= v -> v + Z.of_nat n < 2 ^ 20 ->
  mappages d (v * PGSIZE) ((Z.of_nat n + 1) * PGSIZE) pa perm =
  map_loop (Datatypes.S n) d (v * PGSIZE) ((v + Z.of_nat n) * PGSIZE) pa perm.
Proof.
  intros Hv Hn. unfold mappages. rewrite !PGROUNDDOWN_eq. rewrite Z.div_mul by done.
  rewrite (u32_id (v * PGSIZE + (Z.of_nat n + 1) * PGSIZE - 1)) by (unfold PGSIZE; lia).
  assert ((v * PGSIZE + (Z.of_nat n + 1) * PGSIZE - 1) / PGSIZE = v + Z.of_nat n) as ->.
  { symmetry. apply (Z.div_unique _ _ _ (PGSIZE - 1)); unfold PGSIZE; lia. }
  f_equal. rewrite u32_id by (unfold PGSIZE; lia). replace ((v + Z.of_nat n) * PGSIZE - v * PGSIZE) with (Z.of_nat n * PGSIZE) by lia.
  rewrite Z.div_mul by done. lia.
Qed.

Lemma mappages_kernel y m d T U l v n pa perm : 0 <= perm < PGSIZE -> space m d T U l -> UTOP <= v -> v + Z.of_nat n < 2 ^ 20 ->
  pa mod PGSIZE = 0 -> 0 <= pa -> pa + PGSIZE * Z.of_nat n + PGSIZE <= 2 ^ 32 ->
  (forall v', v <= v' <= v + Z.of_nat n -> Z.odd (pte m T v') = false) ->
  does 0 (Vs y l m) (mappages d (v * PGSIZE) ((Z.of_nat n + 1) * PGSIZE) pa perm) 0
    (fun r x => exists m' T' l' k, Vs y l' m' x /\ maps m d T U l v pa perm k m' T' U l' /\
       Permutation (pages_of d T' U l') (pages_of d T U l) /\
       (r = 0 /\ k = Z.of_nat n + 1 \/ r = -1 /\ 0 <= k <= Z.of_nat n)).
Proof using Hend PL.
  intros. assert (0 <= UTOP) by done. rewrite mappages_pages by lia. by apply (map_kernel kend kend_pos).
Qed.

(** A page for the user. *)
Lemma mappages_user y m d T U l v u perm : 0 <= perm < PGSIZE -> space m d T U l -> 0 <= v < UTOP -> U !! v = None ->
  page_ok u -> u ∉ pages_of d T U l ->
  does 0 (Vs y l m) (mappages d (v * PGSIZE) PGSIZE (u - KERNBASE) perm) 0
    (fun r x => exists m' T' l', Vs y l' m' x /\ T ⊆ T' /\ only (d :: tables T') m m' /\
       Permutation (pages_of d T' U l') (pages_of d T U l) /\
       (r = 0 /\ maps m d T U l v (u - KERNBASE) perm 1 m' T' (<[v := u]> U) l' \/
        r = -1 /\ maps m d T U l v (u - KERNBASE) perm 0 m' T' U l')).
Proof using Hend PL.
  intros Hperm Hsp Hv Hn Hu Hfr. assert (UTOP = 0x80000) as HU by done.
  pose proof (mappages_pages d v 0 (u - KERNBASE) perm ltac:(lia) ltac:(lia)) as E.
  change ((Z.of_nat 0 + 1) * PGSIZE) with PGSIZE in E. rewrite E, Z.add_0_r. clear E. cbn [map_loop].
  destruct (page_aligned kend u Hu) as [_ Ha]. destruct (entry_eq (u - KERNBASE) perm Ha Hperm) as (Ee & Er & Eo).
  pose proof (entry_word kend u Hu) as Hw.
  assert (Z.odd (pte m T v) = false) as Hodd by (pose proof (sp_pte _ _ _ _ _ _ Hsp v Hv) as Hp; by rewrite Hn in Hp).
  apply (map_step kend kend_pos pid y m d T U l v); [done|lia|done| |].
  - intros m' T' l' x Hwk Hx. exists m', T', l'. destruct (Hwk) as [W1 W2 W3 W4 W5 W6]. repeat (split; [done|]). right. split; [done|].
    by eapply maps_none.
  - intros m' T' l' t Hwk Ht. rewrite Z.eqb_refl. apply does_ret. intros x Hx. exists (set_pte m' t v (entry (u - KERNBASE) perm)), T', l'.
    assert (0 <= entry (u - KERNBASE) perm < 2 ^ 32) as He by (unfold PGSIZE in *; lia).
    assert (maps m d T U l v (u - KERNBASE) perm 1 (set_pte m' t v (entry (u - KERNBASE) perm)) T' (<[v := u]> U) l') as Hm.
    { eapply maps_one; [exact Hwk|lia|done|done|]. eapply (set_user kend); [apply Hwk|lia|done|done|lia|done|done| |exact Er|done|lia].
      by rewrite (wk_pages _ _ _ _ _ _ _ _ _ _ _ _ Hwk). }
    destruct (Hm) as [M1 M2 M3 M4]. destruct (Hwk) as [W1 W2 W3 W4 W5 W6]. split; [done|]. repeat (split; [done|]). by left.
Qed.

(** ** deallocuvm *)

(** The user pages that satisfy [R] are taken out and freed. *)
Record trimmed m d T U l (R : Z -> bool) m' U' l' : Prop := {
  tr_space : space m' d T U' l';
  tr_pages : Permutation (pages_of d T U' l') (pages_of d T U l);
  tr_user : forall v, U' !! v = if R v then None else U !! v;
  tr_pte : forall v, 0 <= v -> R v = false -> pte m' T v = pte m T v;
  tr_only : only (tables T ++ l') m m';
  tr_free : l ⊆ l'
}.

Lemma trimmed_refl m d T U l R : space m d T U l -> (forall v, R v = true -> U !! v = None) -> trimmed m d T U l R m U l.
Proof. intros Hsp Hi. constructor; try done. intros v. destruct (R v) eqn:E; [by apply Hi|done]. Qed.

Lemma trimmed_trans m d T U l R R1 R2 m1 U1 l1 m2 U2 l2 : trimmed m d T U l R1 m1 U1 l1 -> trimmed m1 d T U1 l1 R2 m2 U2 l2 ->
  (forall v, R v = R1 v || R2 v) -> trimmed m d T U l R m2 U2 l2.
Proof.
  intros [A1 A2 A3 A4 A5 A6] [B1 B2 B3 B4 B5 B6] HR. constructor; try done.
  - by rewrite B2.
  - intros v. rewrite B3, A3, HR. by destruct (R1 v), (R2 v).
  - intros v Hv E. rewrite HR in E. apply orb_false_iff in E as [E1 E2]. by rewrite B4, A4.
  - eapply only_trans; [|exact B5]. eapply only_mono; [|exact A5]. intros q. rewrite !elem_of_app. intros [?|?]; [by left|right; by apply B6].
  - by etrans.
Qed.

(** Freeing the page [u] of the user and clearing its entry. *)
Lemma free_user m d T U l v u t m1 : space m d T U l -> U !! v = Some u -> T !! (v / 1024) = Some t -> only [u] m m1 ->
  trimmed m d T U l (Z.eqb v) (set_pte m1 t v 0) (delete v U) (u :: l).
Proof.
  intros Hsp Hu Ht Ho. pose proof (sp_user _ _ _ _ _ _ Hsp _ _ Hu) as Hv. pose proof (user_ok _ _ _ _ _ _ Hsp _ _ Hu) as Huo.
  assert (Permutation (pages_of d T U l) (u :: pages_of d T (delete v U) l)) as Hp.
  { unfold pages_of. rewrite (tables_delete U v u) by done. cbn [app]. by rewrite <- !Permutation_middle, perm_swap. }
  assert (Permutation (pages_of d T (delete v U) (u :: l)) (u :: pages_of d T (delete v U) l)) as Hp'.
  { unfold pages_of. cbn [app]. by rewrite <- !Permutation_middle, perm_swap. }
  pose proof (sp_ok _ _ _ _ _ _ Hsp) as Hok. pose proof (sp_nodup _ _ _ _ _ _ Hsp) as Hnd. rewrite Hp in Hnd.
  assert (forall q a, page_ok q -> q <> u -> in_page q a -> m1 a = m a) as Hm1.
  { intros q a Hq Hqu Ha. apply Ho. intros p' Hp1. apply list_elem_of_singleton in Hp1 as ->. destruct (pages_apart kend q u Hq Huo Hqu); unfold in_page in *; lia. }
  apply NoDup_cons in Hnd as [Hnu Hnd]. assert (space m1 d T U l) as Hs1.
  { eapply (space_frame kend m); [done| | |apply Hsp|apply Hsp].
    - intros i t' a Hi. apply Hm1; [by eapply table_ok|]. intros ->. apply Hnu, pages_elem_of. right. left. by exists i.
    - intros a. apply Hm1; [by eapply dir_ok|]. intros ->. apply Hnu. by left. }
  assert (forall v', 0 <= v' -> pte m1 T v' = pte m T v') as Hpte.
  { intros v' Hv'. eapply (pte_frame kend); [exact Hsp|done|]. intros i t' a Hi. apply Hm1; [by eapply table_ok|].
    intros ->. apply Hnu, pages_elem_of. right. left. by exists i. }
  assert (space (set_pte m1 t v 0) d T (delete v U) l) as Hs2 by (eapply (set_clear kend); [exact Hs1|lia|done|lia|exact Hu|done]).
  constructor.
  - destruct Hs2. constructor; try done; rewrite Hp'; [by apply Forall_cons|by apply NoDup_cons].
  - by rewrite Hp', Hp.
  - intros v'. destruct (Z.eqb_spec v v') as [->|Hne]; [by rewrite lookup_delete_eq|by rewrite lookup_delete_ne].
  - intros v' Hv' Hne. rewrite (pte_set kend m1 d T U l) by (done || lia). rewrite Z.eqb_sym, Hne. by apply Hpte.
  - eapply only_trans; [eapply only_mono; [|exact Ho]|eapply only_mono; [|apply (set_only m1 v t 0); lia]].
    + intros q Hq. apply list_elem_of_singleton in Hq as ->. apply elem_of_app. right. by left.
    + intros q Hq. apply list_elem_of_singleton in Hq as ->. apply elem_of_app. left. apply tables_elem. by exists (v / 1024).
  - intros q Hq. by right.
Qed.

(** The pages from [v] on that start below [sz]. *)
Definition inside v (sz v' : Z) : bool := (v <=? v') && (v' * PGSIZE <? sz).

Lemma inside_true v sz v' : inside v sz v' = true <-> v <= v' /\ v' * PGSIZE < sz.
Proof. unfold inside. rewrite andb_true_iff, Z.leb_le, Z.ltb_lt. done. Qed.

Lemma inside_step v sz v' : v * PGSIZE < sz -> inside v sz v' = (v =? v') || inside (v + 1) sz v'.
Proof.
  intros Hv. apply eq_true_iff_eq. rewrite orb_true_iff, !inside_true, Z.eqb_eq. unfold PGSIZE in *. lia.
Qed.

(** The address of the next table. *)
Lemma next_table v : 0 <= v < UTOP -> u32 (u32 (PGADDR (PDX (v * PGSIZE) + 1) 0 0 - PGSIZE) + PGSIZE) = (v / 1024 + 1) * 1024 * PGSIZE.
Proof.
  intros Hv. assert (UTOP = 0x80000) as HU by done. destruct (vpn_addr v ltac:(lia)) as [-> _].
  assert (0 <= v / 1024 < 512) as Hd by (split; [apply Z.div_pos; lia|apply Z.div_lt_upper_bound; lia]).
  unfold PGADDR, PDXSHIFT, PTXSHIFT. rewrite Z.shiftl_0_l, !Z.lor_0_r, Z.shiftl_mul_pow2 by lia. unfold PGSIZE.
  set (q := (v / 1024 + 1) * 2 ^ 22). assert (2 ^ 22 <= q <= 2 ^ 31) as Hq by (unfold q; lia).
  rewrite (u32_id q), (u32_id (q - 4096)), (u32_id (q - 4096 + 4096)) by lia. unfold q. lia.
Qed.

Lemma user_present m d T U l v u : space m d T U l -> U !! v = Some u ->
  exists t f, T !! (v / 1024) = Some t /\ pte m T v = u - KERNBASE + f /\ 0 <= f < PGSIZE /\ Z.odd f = true /\ PTE_ADDR (pte m T v) = u - KERNBASE /\
    load_word m (t + 4 * (v mod 1024)) = pte m T v /\ Z.odd (pte m T v) = true /\ PTE_FLAGS (pte m T v) = f.
Proof.
  intros Hsp Hu. pose proof (sp_user _ _ _ _ _ _ Hsp _ _ Hu) as Hv. pose proof (sp_pte _ _ _ _ _ _ Hsp v Hv) as Hp. rewrite Hu in Hp.
  destruct Hp as (f & Hf & Ho & Hp). destruct (page_aligned kend u (user_ok _ _ _ _ _ _ Hsp _ _ Hu)) as [_ Ha].
  unfold pte in Hp |- *. destruct (T !! (v / 1024)) as [t|]; [|exfalso; pose proof (entry_word kend u (user_ok _ _ _ _ _ _ Hsp _ _ Hu)); destruct f; [done|lia|lia]].
  exists t, f. destruct (addr_flags _ f Ha Hf) as [E1 E2]. rewrite Hp, odd_page by done. repeat (split; [done|]). done.
Qed.

Lemma dealloc_page y m d T U l v u t : space m d T U l -> U !! v = Some u -> T !! (v / 1024) = Some t ->
  does 0 (Vs y l m) (if u - KERNBASE =? 0 then panic "kfree" else v' <- p2v (u - KERNBASE) ;; kfree kend v' ;;; storew (t + 4 * (v mod 1024)) 0) 0
    (fun _ x => exists m', Vs y (u :: l) m' x /\ trimmed m d T U l (Z.eqb v) m' (delete v U) (u :: l)).
Proof using Hend PL.
  intros Hsp Hu Ht. pose proof (user_ok _ _ _ _ _ _ Hsp _ _ Hu) as Huo. pose proof (entry_word kend u Huo) as Hw.
  destruct (space_split _ _ _ _ _ _ Hsp) as [Hl Hpg]. rewrite (proj2 (Z.eqb_neq _ _)) by (destruct Huo as (_ & ? & _); lia).
  eapply does_bind_eq; [apply p2v_does; unfold KERNBASE, PGSIZE in *; lia|]. replace (u - KERNBASE + KERNBASE) with u by lia.
  assert (u ∉ l) as Hul by (apply Hpg; right; apply elem_of_app; right; apply tables_elem; by exists v).
  eapply does_bind; [by apply (kfree_vs kend kend_pos)|]. intros []. apply does_ex. intros m1.
  apply does_when. intros Ho.
  eapply does_post; [apply (update_page_vs kend pid y (u :: l) m1 _ t)|].
  - by eapply table_ok.
  - intros Hin. assert (t ∈ d :: tables T) as Htt by (right; apply tables_elem; by exists (v / 1024)). apply elem_of_cons in Hin as [->|Hin].
    + pose proof (sp_nodup _ _ _ _ _ _ Hsp) as Hnd. unfold pages_of in Hnd. rewrite app_comm_cons in Hnd. apply NoDup_app in Hnd as (_ & Hnd & _).
      apply (Hnd u Htt), elem_of_app. left. apply tables_elem. by exists v.
    + apply (Hpg t); [|done]. rewrite app_comm_cons. apply elem_of_app. by left.
  - by constructor.
  - apply (set_only m1 v t 0). by apply (sp_user _ _ _ _ _ _ Hsp _ _ Hu).
  - intros [] x Hx. exists (set_pte m1 t v 0). split; [done|]. by apply free_user.
Qed.

Lemma dealloc_does y d T sz : 0 <= sz <= KERNBASE -> forall n m U l v, space m d T U l -> 0 <= v <= UTOP -> sz - v * PGSIZE <= PGSIZE * Z.of_nat n ->
  does 0 (Vs y l m) (dealloc_loop kend (Datatypes.S n) d (v * PGSIZE) sz) 0
    (fun _ x => exists m' U' l', Vs y l' m' x /\ trimmed m d T U l (inside v sz) m' U' l').
Proof using Hend PL.
  intros Hsz. assert (UTOP = 0x80000 /\ KERNBASE = 0x80000000 /\ PGSIZE = 4096) as (HU & HK & HP) by done.
  induction n as [|n IH]; intros m U l v Hsp Hv Hn; cbn [dealloc_loop].
  { rewrite (proj2 (Z.ltb_ge _ _)) by lia. apply does_ret. intros x Hx. exists m, U, l. split; [done|]. apply trimmed_refl; [done|].
    intros v' Hi%inside_true. lia. }
  destruct (Z.ltb_spec (v * PGSIZE) sz) as [Hlt|Hge].
  2: { apply does_ret. intros x Hx. exists m, U, l. split; [done|]. apply trimmed_refl; [done|]. intros v' Hi%inside_true. lia. }
  assert (v < UTOP) as Hvu by lia. destruct (vpn_addr v ltac:(lia)) as [E1 E2]. pose proof (next_table v ltac:(lia)) as Enext.
  eapply does_bind_eq; [apply (walk_get kend pid y l m d T U l); [done|lia]|]. rewrite E1, E2 in *.
  destruct (T !! (v / 1024)) as [t|] eqn:Ht; cbn [fmap option_fmap option_map].
  - assert (u32 (v * PGSIZE + PGSIZE) = (v + 1) * PGSIZE) as -> by (rewrite u32_id; lia).
    eapply does_bind_eq; [apply loadw_vs|]. rewrite has_P. destruct (U !! v) as [u|] eqn:Hu.
    + destruct (user_present _ _ _ _ _ _ _ Hsp Hu) as (t' & f & Ht' & Ep & Hf & Hof & Ea & El & Eo & _). simplify_eq. rewrite El, Eo, Ea. cbn [when].
      eapply does_bind; [by apply dealloc_page|]. intros []. apply does_ex. intros m1.
      apply does_when. intros Htr.
      eapply does_post; [apply IH; [apply Htr|lia|lia]|]. intros [] x (m2 & U2 & l2 & Hx & Htr2). exists m2, U2, l2. split; [done|].
      eapply trimmed_trans; [exact Htr|exact Htr2|]. intros v'. by apply inside_step.
    + pose proof (sp_pte _ _ _ _ _ _ Hsp v ltac:(lia)) as Hp. rewrite Hu in Hp. unfold pte in Hp. rewrite Ht in Hp. rewrite Hp. cbn [when].
      eapply does_bind_tt; [by apply does_ret|]. eapply does_post; [apply IH; [done|lia|lia]|].
      intros [] x (m2 & U2 & l2 & Hx & Htr2). exists m2, U2, l2. split; [done|]. eapply (trimmed_trans _ _ _ _ _ _ (Z.eqb v)); [|exact Htr2|].
      * apply trimmed_refl; [done|]. by intros v' <-%Z.eqb_eq.
      * intros v'. by apply inside_step.
  - rewrite Enext. set (v1 := (v / 1024 + 1) * 1024) in *. pose proof (Z.div_mod v 1024 ltac:(done)) as Hdm. pose proof (Z.mod_pos_bound v 1024 ltac:(done)) as Hmb.
    assert (0 <= v / 1024 < 512) as Hd by (split; [apply Z.div_pos; lia|apply Z.div_lt_upper_bound; lia]).
    eapply does_post; [apply IH; [done|lia|lia]|]. intros [] x (m2 & U2 & l2 & Hx & Htr2). exists m2, U2, l2. split; [done|].
    eapply (trimmed_trans _ _ _ _ _ _ (fun v' => inside v sz v' && (v' <? v1))); [|exact Htr2|].
    + apply trimmed_refl; [done|]. intros v' [Hi%inside_true Hlt'%Z.ltb_lt]%andb_true_iff. assert (v' / 1024 = v / 1024) as Ed.
      { symmetry. apply (Z.div_unique _ _ _ (v' - v / 1024 * 1024)); lia. }
      destruct (U !! v') as [u|] eqn:Hu; [|done]. exfalso. destruct (user_present _ _ _ _ _ _ _ Hsp Hu) as (t' & f & Ht' & _). congruence.
    + intros v'. apply eq_true_iff_eq. rewrite orb_true_iff, andb_true_iff, !inside_true, Z.ltb_lt. lia.
Qed.

(** The number of pages of [sz] bytes. *)
Definition npages (sz : Z) : Z := (sz + PGSIZE - 1) / PGSIZE.

Lemma PGROUNDUP_eq sz : 0 <= sz <= KERNBASE -> PGROUNDUP sz = npages sz * PGSIZE.
Proof.
  intros Hs. unfold PGROUNDUP, npages. rewrite page_mask, u32_id by (unfold KERNBASE, PGSIZE in *; lia). done.
Qed.

Lemma npages_range sz : sz <= npages sz * PGSIZE < sz + PGSIZE.
Proof. unfold npages. pose proof (Z.div_mod (sz + PGSIZE - 1) PGSIZE ltac:(done)). pose proof (Z.mod_pos_bound (sz + PGSIZE - 1) PGSIZE ltac:(done)). unfold PGSIZE in *. lia. Qed.

Lemma deallocuvm_does y m d T U l oldsz newsz : space m d T U l -> 0 <= newsz < oldsz -> oldsz <= KERNBASE ->
  does 0 (Vs y l m) (deallocuvm kend d oldsz newsz) 0
    (fun r x => exists m' U' l', Vs y l' m' x /\ r = newsz /\ trimmed m d T U l (inside (npages newsz) oldsz) m' U' l').
Proof using Hend PL.
  intros Hsp Hn Ho. unfold deallocuvm. rewrite (proj2 (Z.leb_gt _ _)) by lia. pose proof (npages_range newsz) as Hr.
  rewrite PGROUNDUP_eq by lia. assert (UTOP * PGSIZE = KERNBASE) as HU by done. pose proof (Z.mul_div_le (oldsz - newsz) PGSIZE ltac:(done)).
  pose proof (Z.div_mod (oldsz - newsz) PGSIZE ltac:(done)). pose proof (Z.mod_pos_bound (oldsz - newsz) PGSIZE ltac:(done)).
  assert (0 <= (oldsz - newsz) / PGSIZE) by (apply Z.div_pos; [lia|done]). assert (PGSIZE = 4096) as HP by done.
  replace (Z.to_nat ((oldsz - newsz) / PGSIZE) + 2)%nat with (Datatypes.S (Z.to_nat ((oldsz - newsz) / PGSIZE) + 1)) by lia.
  eapply does_bind; [apply dealloc_does; [lia|exact Hsp|lia|lia]|]. intros []. apply does_ret. intros x (m' & U' & l' & Hx & Ht).
  by exists m', U', l'.
Qed.

(** ** freevm *)

(** The tables from entry [k] on. *)
Definition rest (k : nat) T : gmap Z Z := filter (fun p => Z.of_nat k <= p.1) T.

Lemma rest_lookup k T i : rest k T !! i = if Z.of_nat k <=? i then T !! i else None.
Proof.
  unfold rest. rewrite map_lookup_filter. destruct (T !! i) as [t|]; simpl; [|by destruct (_ <=? _)].
  case_guard as Hg; [rewrite (proj2 (Z.leb_le _ _)) by done|rewrite (proj2 (Z.leb_gt _ _)) by lia]; done.
Qed.

Lemma rest_none k T : T !! Z.of_nat k = None -> rest (k + 1) T = rest k T.
Proof.
  intros Hn. apply map_eq. intros i. rewrite !rest_lookup. destruct (Z.leb_spec (Z.of_nat (k + 1)) i), (Z.leb_spec (Z.of_nat k) i); try done; try lia.
  by assert (i = Z.of_nat k) as -> by lia.
Qed.

Lemma rest_some k T t : T !! Z.of_nat k = Some t -> Permutation (tables (rest k T)) (t :: tables (rest (k + 1) T)).
Proof.
  intros Hs. rewrite (tables_delete _ (Z.of_nat k) t) by (rewrite rest_lookup, (proj2 (Z.leb_le _ _)); done || lia).
  enough (delete (Z.of_nat k) (rest k T) = rest (k + 1) T) as -> by done. apply map_eq. intros i. destruct (decide (i = Z.of_nat k)) as [->|Hne].
  - rewrite lookup_delete_eq, rest_lookup, (proj2 (Z.leb_gt _ _)) by lia. done.
  - rewrite lookup_delete_ne, !rest_lookup by done. destruct (Z.leb_spec (Z.of_nat (k + 1)) i), (Z.leb_spec (Z.of_nat k) i); try done; lia.
Qed.

Lemma rest_end m d T U l : space m d T U l -> rest NPDENTRIES T = ∅.
Proof.
  intros Hsp. apply map_eq. intros i. rewrite rest_lookup, lookup_empty. destruct (Z.leb_spec (Z.of_nat NPDENTRIES) i) as [Hi|]; [|done].
  destruct (T !! i) as [t|] eqn:Ht; [|done]. pose proof (sp_dom _ _ _ _ _ _ Hsp _ _ Ht). unfold NPDENTRIES in Hi. lia.
Qed.

Lemma rest_start m d T U l : space m d T U l -> rest 0 T = T.
Proof.
  intros Hsp. apply map_eq. intros i. rewrite rest_lookup. destruct (Z.leb_spec (Z.of_nat 0) i) as [Hi|]; [done|].
  destruct (T !! i) as [t|] eqn:Ht; [|done]. pose proof (sp_dom _ _ _ _ _ _ Hsp _ _ Ht). lia.
Qed.

(** The tables below entry [k] are freed, [m] and [l] as before the first. *)
Definition freeing y m d T l (k : nat) x : Prop :=
  exists m' l', Vs y l' m' x /\ only (tables T) m m' /\ Permutation (d :: tables (rest k T) ++ l') (d :: tables T ++ l).

Lemma free_table y m d T l k : space m d T ∅ l -> (k < NPDENTRIES)%nat ->
  does 0 (freeing y m d T l k) (e <- loadw (d + 4 * Z.of_nat k) ;; when (has e PTE_P) (v <- p2v (PTE_ADDR e) ;; kfree kend v)) 0
    (fun _ x => freeing y m d T l (k + 1) x).
Proof using Hend PL.
  intros Hsp Hk. apply does_ex. intros m1. apply does_ex. intros l1. apply does_when. intros [Ho Hp].
  eapply does_bind_eq; [apply loadw_vs|]. unfold NPDENTRIES in Hk.
  assert (load_word m1 (d + 4 * Z.of_nat k) = load_word m (d + 4 * Z.of_nat k)) as ->.
  { eapply (only_word _ _ _ _ d); [exact Ho| |unfold in_page, PGSIZE; lia..]. intros q [i Hq]%tables_elem.
    apply (pages_disjoint kend); [by eapply table_ok|by eapply dir_ok|]. intros ->. by eapply dir_not_table. }
  pose proof (sp_pde _ _ _ _ _ _ Hsp (Z.of_nat k) ltac:(lia)) as Hpde. rewrite has_P. destruct (T !! Z.of_nat k) as [t|] eqn:Ht.
  - pose proof (table_ok _ _ _ _ _ _ Hsp _ _ Ht) as Hok. destruct (pde_addr kend t Hok) as [E1 E2]. rewrite Hpde.
    rewrite odd_page by (by apply (page_aligned kend t)). cbn [Z.odd when]. rewrite E1. eapply does_bind_eq; [by apply p2v_does|].
    replace (t - KERNBASE + KERNBASE) with t by lia. rewrite (rest_some _ _ _ Ht) in Hp. eapply does_post; [apply (kfree_vs kend kend_pos); [done|]|].
    + pose proof (sp_nodup _ _ _ _ _ _ Hsp) as Hnd. unfold pages_of in Hnd. change (tables ∅) with (@nil Z) in Hnd. cbn [app] in Hnd.
      rewrite <- Hp in Hnd. cbn [app] in Hnd. apply NoDup_cons in Hnd as [_ Hnd]. apply NoDup_cons in Hnd as [Hnd _]. intros Hin. apply Hnd, elem_of_app. by right.
    + intros [] x (m2 & Hx & Ho2). exists m2, (t :: l1). split; [done|]. split.
      * eapply only_trans; [exact Ho|]. eapply only_mono; [|exact Ho2]. intros q Hq. apply list_elem_of_singleton in Hq as ->.
        apply tables_elem. by exists (Z.of_nat k).
      * rewrite <- Hp. cbn [app]. by rewrite <- Permutation_middle.
  - rewrite Hpde. cbn [when]. apply does_ret. intros x Hx. exists m1, l1. by rewrite rest_none.
Qed.

Lemma trimmed_all m d T U l m' U' l' : space m d T U l -> trimmed m d T U l (inside (npages 0) KERNBASE) m' U' l' -> U' = ∅.
Proof.
  intros Hsp Htr. apply map_eq. intros v. rewrite (tr_user _ _ _ _ _ _ _ _ _ Htr), lookup_empty.
  destruct (inside (npages 0) KERNBASE v) eqn:E; [done|]. destruct (U !! v) as [u|] eqn:Hu; [|done].
  pose proof (sp_user _ _ _ _ _ _ Hsp _ _ Hu) as Hv. assert (inside (npages 0) KERNBASE v = true); [|congruence].
  apply inside_true. change (npages 0) with 0. change KERNBASE with (UTOP * PGSIZE). unfold PGSIZE. lia.
Qed.

Lemma freevm_does y m d T U l : space m d T U l ->
  does 0 (Vs y l m) (freevm kend d) 0
    (fun _ x => exists m' l', Vs y l' m' x /\ Permutation l' (pages_of d T U l) /\ only (pages_of d T U l) m m').
Proof using Hend PL.
  intros Hsp. unfold freevm. rewrite (proj2 (Z.eqb_neq d 0)) by exact (page_nonzero kend kend_pos d (dir_ok _ _ _ _ _ _ Hsp)).
  eapply does_bind; [apply (deallocuvm_does y m d T U l KERNBASE 0 Hsp); unfold KERNBASE; lia|]. intros r.
  apply does_ex. intros m1. apply does_ex. intros U1. apply does_ex. intros l1. apply does_when. intros [_ Htr].
  pose proof (trimmed_all _ _ _ _ _ _ _ _ Hsp Htr) as ->. destruct (Htr) as [K1 K2 K3 K4 K5 K6].
  eapply does_bind_tt.
  { eapply does_pre; [apply (does_for_each pid 0 (fun ls x => freeing y m1 d T l1 (length ls) x))|].
    - intros ls a l2 Hl. assert (a = length ls /\ (a < NPDENTRIES)%nat) as [-> Ha].
      { assert (seq 0 NPDENTRIES !! length ls = Some a) as Hs by (rewrite Hl; by apply list_lookup_middle). apply lookup_seq in Hs. lia. }
      rewrite length_app. by apply free_table.
    - intros x Hx. exists m1, l1. split; [done|]. split; [apply only_refl|]. simpl. by rewrite (rest_start _ _ _ _ _ K1). }
  rewrite length_seq. apply does_ex. intros m2. apply does_ex. intros l2. apply does_when. intros [Ho Hp].
  rewrite (rest_end _ _ _ _ _ K1) in Hp. change (tables ∅) with (@nil Z) in Hp. cbn [app] in Hp.
  assert (Permutation (d :: l2) (pages_of d T U l)) as Hp2 by (rewrite Hp, <- K2; done).
  eapply does_post; [apply (kfree_vs kend kend_pos); [by eapply dir_ok|]|].
  - pose proof (sp_nodup _ _ _ _ _ _ Hsp) as Hnd. rewrite <- Hp2 in Hnd. by apply NoDup_cons in Hnd as [? _].
  - intros [] x (m3 & Hx & Ho3). exists m3, (d :: l2). split; [done|]. split; [done|]. rewrite <- K2. unfold pages_of. change (tables ∅) with (@nil Z).
    eapply only_trans; [eapply only_mono; [|exact K5]|eapply only_trans; [eapply only_mono; [|exact Ho]|eapply only_mono; [|exact Ho3]]]; intros q; cbn [app];
      rewrite ?elem_of_cons, ?elem_of_app; [tauto|tauto|]. intros [->|?%elem_of_nil]; [by left|done].
Qed.

(** ** setupkvm *)

(** A range of [kmap]: its pages, and what is to be mapped. *)
Definition kin (k : Z * Z * Z * Z) v : bool :=
  let '(virt, phys_start, phys_end, perm) := k in
  (virt / PGSIZE <=? v) && (v <? virt / PGSIZE + u32 (phys_end - phys_start) / PGSIZE).

Definition kok (k : Z * Z * Z * Z) : Prop :=
  let '(virt, phys_start, phys_end, perm) := k in let size := u32 (phys_end - phys_start) in
  virt mod PGSIZE = 0 /\ size mod PGSIZE = 0 /\ 0 < size /\ KERNBASE <= virt /\ virt + size <= 2 ^ 32 /\
  phys_start mod PGSIZE = 0 /\ 0 <= phys_start /\ phys_start + size <= 2 ^ 32 /\ 0 <= perm < PGSIZE.

(** The entry of page [v] after the ranges [ks], [e] before. *)
Fixpoint kpte (ks : list (Z * Z * Z * Z)) (e v : Z) : Z :=
  match ks with
  | [] => e
  | k :: ks => kpte ks (if kin k v then let '(virt, phys_start, _, perm) := k in entry (phys_start + PGSIZE * (v - virt / PGSIZE)) perm else e) v
  end.

Fixpoint kapart (ks : list (Z * Z * Z * Z)) : Prop :=
  match ks with [] => True | k :: ks => (forall k' v, k' ∈ ks -> kin k v = true -> kin k' v = true -> False) /\ kapart ks end.

Lemma mappages_range y m d T l virt ps pe perm : kok (virt, ps, pe, perm) -> space m d T ∅ l ->
  (forall v, kin (virt, ps, pe, perm) v = true -> Z.odd (pte m T v) = false) ->
  does 0 (Vs y l m) (mappages d virt (u32 (pe - ps)) ps perm) 0
    (fun r x => exists m' T' l', Vs y l' m' x /\ space m' d T' ∅ l' /\ Permutation (pages_of d T' ∅ l') (pages_of d T ∅ l) /\
       only (pages_of d T ∅ l) m m' /\
       (r = -1 \/ r = 0 /\ forall v, 0 <= v -> pte m' T' v = if kin (virt, ps, pe, perm) v then entry (ps + PGSIZE * (v - virt / PGSIZE)) perm else pte m T v)).
Proof using Hend PL.
  intros (K1 & K2 & K3 & K4 & K5 & K6 & K7 & K8 & K9) Hsp Hodd. unfold kin in *. remember (u32 (pe - ps)) as sz eqn:Esz.
  apply Z.div_exact in K1; [|done]. apply Z.div_exact in K2; [|done]. remember (virt / PGSIZE) as v0 eqn:E0. remember (sz / PGSIZE) as n eqn:En.
  assert (UTOP = 0x80000 /\ KERNBASE = 0x80000000 /\ PGSIZE = 4096) as (HU & HK & HP) by done.
  assert (sz = (Z.of_nat (Z.to_nat (n - 1)) + 1) * PGSIZE) as E by lia. rewrite E, K1, (Z.mul_comm PGSIZE v0). clear E0 En Esz.
  eapply does_post; [apply (mappages_kernel y m d T ∅ l v0); try done; try lia|].
  - intros v' Hv'. apply Hodd. rewrite (proj2 (Z.leb_le _ _)), (proj2 (Z.ltb_lt _ _)) by lia. done.
  - intros r x (m' & T' & l' & k & Hx & [M1 M2 M3 M4] & Hp & Hr). exists m', T', l'. split; [done|]. split; [done|]. split; [done|]. split.
    + rewrite <- Hp. eapply only_mono; [|exact M4]. intros q. unfold pages_of. rewrite !elem_of_cons, elem_of_app. tauto.
    + destruct Hr as [[-> ->]|[-> _]]; [right|by left]. split; [done|]. intros v Hv. rewrite M2 by done.
      by replace (v0 + (Z.of_nat (Z.to_nat (n - 1)) + 1)) with (v0 + n) by lia.
Qed.

Lemma setup_loop_does y d ks : Forall kok ks -> kapart ks -> forall m T l, space m d T ∅ l ->
  (forall k v, k ∈ ks -> kin k v = true -> Z.odd (pte m T v) = false) ->
  does 0 (Vs y l m) (setup_loop kend ks d) 0
    (fun r x => exists m' l', Vs y l' m' x /\ only (pages_of d T ∅ l) m m' /\
       (r = 0 /\ Permutation l' (pages_of d T ∅ l) \/
        r = d /\ exists T', space m' d T' ∅ l' /\ Permutation (pages_of d T' ∅ l') (pages_of d T ∅ l) /\
                           forall v, 0 <= v -> pte m' T' v = kpte ks (pte m T v) v)).
Proof using Hend PL.
  induction 1 as [|[[[virt ps] pe] perm] ks Hk Hks IH]; cbn [setup_loop kapart]; intros Hap m T l Hsp Hodd.
  - apply does_ret. intros x Hx. exists m, l. split; [done|]. split; [apply only_refl|]. right. split; [done|]. by exists T.
  - destruct Hap as [Hap1 Hap2]. eapply does_bind; [apply mappages_range; [done|done|]|].
    { intros v Hv. eapply Hodd; [|exact Hv]. by left. }
    intros r. apply does_ex. intros m1. apply does_ex. intros T1. apply does_ex. intros l1. apply does_when. intros (Hs1 & Hp1 & Ho1 & Hr).
    destruct Hr as [-> | [-> Hpte]]; cbn [Z.ltb Z.compare].
    + eapply does_bind; [by apply freevm_does|]. intros []. apply does_ret. intros x (m2 & l2 & Hx & Hp2 & Ho2). exists m2, l2.
      split; [done|]. rewrite Hp1 in Ho2, Hp2. split; [by eapply only_trans|]. by left.
    + eapply does_post; [apply (IH Hap2 m1 T1 l1 Hs1)|].
      * intros k v Hin Hv. assert (0 <= v) as Hv0.
        { pose proof (proj1 (Forall_forall _ _) Hks k Hin) as Hkk. destruct k as [[[virt' ps'] pe'] perm']. unfold kin, kok in *.
          apply andb_true_iff in Hv as [Hv _]. apply Z.leb_le in Hv. assert (0 <= virt' / PGSIZE); [|lia]. apply Z.div_pos; [|done]. unfold KERNBASE in Hkk. lia. }
        rewrite Hpte by done. destruct (kin (virt, ps, pe, perm) v) eqn:E; [exfalso; by eapply Hap1|]. eapply Hodd; [|exact Hv]. by right.
      * intros r x (m2 & l2 & Hx & Ho2 & Hr). exists m2, l2. split; [done|]. rewrite Hp1 in Ho2. split; [by eapply only_trans|].
        destruct Hr as [[-> Hp2]|[-> (T2 & Hs2 & Hp2 & Hpte2)]]; [left; by rewrite Hp2|right]. split; [done|]. exists T2. split; [done|].
        split; [by rewrite Hp2|]. intros v Hv. rewrite Hpte2, Hpte by done. done.
Qed.

(** kernel.ld: the data of the kernel starts on a page of its own, after the text. *)
Definition data_ok : Prop := kdata mod PGSIZE = 0 /\ KERNLINK < kdata < KERNBASE + PHYSTOP.

Lemma kmap_ok : data_ok -> Forall kok (kmap kdata) /\ kapart (kmap kdata).
Proof.
  intros [H1 H2]. assert (exists q, kdata = q * PGSIZE) as [q Hq] by (apply Z.div_exact in H1; [exists (kdata / PGSIZE); lia|done]).
  assert (KERNBASE = 0x80000 * PGSIZE /\ KERNLINK = 0x80100 * PGSIZE /\ EXTMEM = 0x100 * PGSIZE /\ PHYSTOP = 0xE000 * PGSIZE /\
    DEVSPACE = 0xFE000 * PGSIZE /\ u32 (0 - DEVSPACE) = 0x2000 * PGSIZE /\ 2 ^ 32 = 0x100000 * PGSIZE) as (E1 & E2 & E3 & E4 & E5 & E6 & E7) by done.
  assert (0x80100 < q < 0x8E000) as Hr by (unfold PGSIZE in *; lia).
  assert (u32 (EXTMEM - 0) = 0x100 * PGSIZE) as S1 by done.
  assert (u32 (kdata - KERNBASE - (KERNLINK - KERNBASE)) = (q - 0x80100) * PGSIZE) as S2 by (rewrite u32_id; unfold PGSIZE in *; lia).
  assert (u32 (PHYSTOP - (kdata - KERNBASE)) = (0x8E000 - q) * PGSIZE) as S3 by (rewrite u32_id; unfold PGSIZE in *; lia).
  unfold kmap. rewrite !Forall_cons. split.
  - unfold kok. rewrite S1, S2, S3, E6, E7, E5, E2, E1, Hq, <- !Z.mul_sub_distr_r, !Z.mod_mul by done.
    repeat split; unfold PTE_W, PGSIZE; (done || lia).
  - cbn [kapart]. repeat split; intros k v Hk; repeat (apply elem_of_cons in Hk as [->|Hk]); try (by apply elem_of_nil in Hk); unfold kin;
      rewrite ?S1, ?S2, ?S3, ?E6, ?E5, ?E2, ?E1, ?Hq, ?Z.div_mul, ?andb_true_iff, ?Z.leb_le, ?Z.ltb_lt by done; lia.
Qed.

Lemma setupkvm_does y m l : data_ok -> Forall page_ok l -> NoDup l ->
  does 0 (Vs y l m) (setupkvm kend kdata) 0
    (fun r x => exists m' l', Vs y l' m' x /\ only l m m' /\
       (r = 0 /\ Permutation l' l \/
        r <> 0 /\ exists T', space m' r T' ∅ l' /\ Permutation (pages_of r T' ∅ l') l /\ forall v, 0 <= v -> pte m' T' v = kpte (kmap kdata) 0 v)).
Proof using Hend PL.
  intros Hd Hl Hnd. unfold setupkvm. eapply does_bind_eq; [apply (kalloc_vs kend kend_pos)|]. destruct l as [|d l]; cbn [hd tl].
  { apply does_ret. intros x Hx. exists m, []. split; [done|]. split; [apply only_refl|]. by left. }
  apply Forall_cons in Hl as [Hdo Hl]. apply NoDup_cons in Hnd as [Hdl Hnd].
  pose proof (page_nonzero kend kend_pos d Hdo) as Hd0. rewrite (proj2 (Z.eqb_neq d 0)) by done.
  eapply does_bind_tt; [apply (update_page_vs kend pid y l m _ d); [done|done|done|apply memset_only]|].
  eapply does_bind_eq; [by apply p2v_does|]. cbn [DEVSPACE PHYSTOP KERNBASE].
  change (DEVSPACE <? PHYSTOP + KERNBASE) with false. cbv iota.
  assert (pages_of d ∅ ∅ l = d :: l) as Ep by done. set (m0 := memset m d 0 PGSIZE).
  assert (space m0 d ∅ ∅ l) as Hsp.
  { constructor; rewrite ?Ep; try done; try (by intros ? ? ?%lookup_empty_Some); [|by constructor..]. intros i Hi. rewrite lookup_empty. unfold m0.
    rewrite load_zero by (unfold PGSIZE; lia). done. }
  destruct (kmap_ok Hd) as [Hk Ha]. eapply does_post; [apply (setup_loop_does y d (kmap kdata) Hk Ha m0 ∅ l Hsp)|].
  - intros k v _ _. unfold pte. by rewrite lookup_empty.
  - intros r x (m' & l' & Hx & Ho & Hr). rewrite Ep in *. exists m', l'. split; [done|]. split.
    + eapply only_trans; [|exact Ho]. eapply only_mono; [|apply memset_only]. intros q Hq. apply list_elem_of_singleton in Hq as ->. by left.
    + destruct Hr as [[-> Hp]|[-> (T' & Hs & Hp & Hpte)]]; [by left|right]. split; [done|]. exists T'. split; [done|]. split; [done|].
      intros v Hv. rewrite Hpte by done. unfold pte. by rewrite lookup_empty.
Qed.

End Code.
