(* ===== verification/VmCopy.v ===== *)
(** * Copies of address spaces, growing them, and copying into them

    [copyuvm] for [fork], [allocuvm] for [exec] and [growproc], [copyout] for [exec]. *)

From stdpp Require Import base tactics list sets strings gmap.
From Stdlib Require Import ZArith Lia.
From S2P Require Import Prelude Params StringC Spinlock ProcState Comp SysState Words Solo Sleeplock Bio Log Fs Kalloc FileFacts Vm VmFacts VmSpace.
Open Scope Z_scope.

Section Code.
Context {S : Type} `{PL : ProcsLaws sys S} `{DV : DevSw S} (kend kdata : Z) (Hend : KERNBASE < kend) (Hdata : data_ok kdata) (pid : Z).
Implicit Types (m : memory) (T U : gmap Z Z) (l : list Z) (v w t u : Z) (x y : sys).
Abbreviation does := (does (X := sys) (S := S) pid).
Abbreviation page_ok := (page_ok kend).
Abbreviation space := (space kend).
Abbreviation Vs := (Vs kend).
Abbreviation maps := (maps kend).

Lemma lor_odd f : 0 <= f -> Z.odd f = true -> Z.lor f 1 = f.
Proof.
  intros Hf Ho. apply Z.bits_inj'. intros n Hn. rewrite Z.lor_spec. destruct (Z.eq_dec n 0) as [->|Hne].
  - by rewrite Z.bit0_odd, Ho.
  - rewrite (Z.bits_above_log2 1 n) by (simpl; lia). by rewrite orb_false_r.
Qed.

(** ** copyuvm *)

(** A space is as it was when only free pages changed. *)
Lemma space_kept m m' d T U l : space m d T U l -> only l m m' ->
  space m' d T U l /\ (forall v, 0 <= v -> pte m' T v = pte m T v) /\ forall v u a, U !! v = Some u -> in_page u a -> m' a = m a.
Proof.
  intros Hsp Ho. destruct (space_split _ _ _ _ _ _ Hsp) as [Hl Hpg].
  assert (forall q a, q ∈ d :: tables T ++ tables U -> in_page q a -> m' a = m a) as Hq.
  { intros q a Hq Ha. apply Ho. intros p Hp Hpa. destruct (Hpg q Hq) as [Hqo Hql]. rewrite Forall_forall in Hl.
    destruct (pages_apart kend q p Hqo (Hl p Hp)); [by intros ->|unfold in_page in *; lia..]. }
  assert (forall i t a, T !! i = Some t -> in_page t a -> m' a = m a) as Ht.
  { intros i t a Hi. apply Hq. right. apply elem_of_app. left. apply tables_elem. by exists i. }
  split; [|split].
  - eapply (space_frame kend m); [done|done| |apply Hsp|apply Hsp]. intros a. apply Hq. by left.
  - intros v Hv. by eapply (pte_frame kend).
  - intros v u a Hu. apply Hq. right. apply elem_of_app. right. apply tables_elem. by exists v.
Qed.

Lemma memmove_only m p q : only [p] m (memmove m p q PGSIZE).
Proof.
  intros a Ha. rewrite memmove_lem by done. rewrite (proj2 (in_range_false _ _ _)); [done|]. specialize (Ha p (list_elem_of_here _ _)).
  unfold in_page in Ha. lia.
Qed.

(** A free page that is taken and filled. *)
Lemma take_page m d T U u l : space m d T U (u :: l) ->
  page_ok u /\ (u ∉ pages_of d T U l) /\ Permutation (pages_of d T U (u :: l)) (u :: pages_of d T U l) /\
  forall m', only [u] m m' -> space m' d T U l /\ forall v, 0 <= v -> pte m' T v = pte m T v.
Proof.
  intros Hsp. assert (Permutation (pages_of d T U (u :: l)) (u :: pages_of d T U l)) as Hp.
  { unfold pages_of. by rewrite <- !Permutation_middle, perm_swap. }
  pose proof (sp_ok _ _ _ _ _ _ Hsp) as Ho. pose proof (sp_nodup _ _ _ _ _ _ Hsp) as Hn. rewrite Hp in Ho, Hn.
  apply Forall_cons in Ho as [Hu Ho]. apply NoDup_cons in Hn as [Hn1 Hn2]. split; [done|]. split; [done|]. split; [done|]. intros m' Hm.
  destruct (space_kept m m' d T U (u :: l) Hsp) as (Hs & Hpte & _).
  - eapply only_mono; [|exact Hm]. intros q Hq. apply list_elem_of_singleton in Hq as ->. by left.
  - split; [|done]. destruct Hs. by constructor.
Qed.

(** The directory and the tables are not pages of the user. *)
Lemma user_apart m d T U l v u a : space m d T U l -> U !! v = Some u -> in_page u a -> forall q, q ∈ d :: tables T -> ~ in_page q a.
Proof.
  intros Hsp Hu Ha q Hq Hqa. pose proof (sp_nodup _ _ _ _ _ _ Hsp) as Hn. pose proof (sp_ok _ _ _ _ _ _ Hsp) as Ho. unfold pages_of in *.
  rewrite app_comm_cons in Hn, Ho. apply Forall_app in Ho as [Ho _]. rewrite Forall_forall in Ho. apply NoDup_app in Hn as (_ & Hn & _).
  destruct (pages_apart kend q u (Ho q Hq) (user_ok _ _ _ _ _ _ Hsp _ _ Hu)); [|unfold in_page in *; lia..].
  intros ->. apply (Hn u Hq), elem_of_app. left. apply tables_elem. by exists v.
Qed.

Section Parent.
Context m0 p T U l0 (Hpar : space m0 p T U l0).

(** The child at [d] has copies of the parent's pages below [v]. *)
Record copying m d T1 U1 l1 v : Prop := {
  cp_space : space m d T1 U1 l1;
  cp_pages : Permutation (pages_of d T1 U1 l1) l0;
  cp_only : only l0 m0 m;
  cp_kernel : forall v', UTOP <= v' -> pte m T1 v' = kpte (kmap kdata) 0 v';
  cp_copy : forall v', 0 <= v' < v -> exists u u', U !! v' = Some u /\ U1 !! v' = Some u' /\
              PTE_FLAGS (pte m T1 v') = PTE_FLAGS (pte m0 T v') /\ forall k, 0 <= k < PGSIZE -> m (u' + k) = m0 (u + k);
  cp_none : forall v', v <= v' -> U1 !! v' = None
}.

(** What [copyuvm] leaves of the child when it fails. *)
Definition failed y d x : Prop := exists m T1 U1 l1, Vs y l1 m x /\ space m d T1 U1 l1 /\ Permutation (pages_of d T1 U1 l1) l0 /\ only l0 m0 m.

(** Another page is copied to [u1]. *)
Lemma copied_page m d T1 U1 l2 v u u1 m2 T2 l3 : copying m d T1 U1 (u1 :: l2) v -> 0 <= v < UTOP -> U !! v = Some u ->
  maps (memmove m u1 u PGSIZE) d T1 U1 l2 v (u1 - KERNBASE) (PTE_FLAGS (pte m0 T v)) 1 m2 T2 (<[v := u1]> U1) l3 ->
  Permutation (pages_of d T2 U1 l3) (pages_of d T1 U1 l2) -> copying m2 d T2 (<[v := u1]> U1) l3 (v + 1).
Proof using Hpar.
  intros [C1 C2 C3 C4 C5 C6] Hv Hu [M1 M2 M3 M4] Hp. destruct (take_page _ _ _ _ _ _ C1) as (Hu1 & Hn1 & Hp1 & Hs1).
  assert (only [u1] m (memmove m u1 u PGSIZE)) as Hom by apply memmove_only.
  destruct (Hs1 _ Hom) as [Hs2 Hpte]. pose proof (C6 v ltac:(lia)) as Hvn. pose proof (user_ok _ _ _ _ _ _ Hpar _ _ Hu) as Huo.
  assert (Permutation (pages_of d T2 (<[v := u1]> U1) l3) l0) as Hp2.
  { rewrite <- C2, Hp1, <- Hp. unfold pages_of. rewrite (tables_insert U1) by done. cbn [app]. by rewrite <- !Permutation_middle, perm_swap. }
  constructor; try done.
  - eapply only_trans; [exact C3|]. rewrite <- Hp2. eapply only_trans; [eapply only_mono; [|exact Hom]|eapply only_mono; [|exact M4]].
    + intros q Hq. apply list_elem_of_singleton in Hq as ->. apply pages_elem_of. right. right. left. exists v. by rewrite lookup_insert_eq.
    + intros q. unfold pages_of. rewrite !elem_of_cons, elem_of_app. tauto.
  - intros v' Hv'. rewrite M2 by (assert (UTOP = 0x80000) by done; lia). rewrite (proj2 (Z.ltb_ge v' (v + 1))), andb_false_r by lia.
    rewrite Hpte by (assert (UTOP = 0x80000) by done; lia). by apply C4.
  - intros v' Hv'. rewrite M2 by lia. destruct (decide (v' = v)) as [->|Hne].
    + exists u, u1. split; [done|]. split; [by rewrite lookup_insert_eq|]. rewrite (proj2 (Z.leb_le _ _)), (proj2 (Z.ltb_lt _ _)) by lia. cbn [andb]. split.
      * rewrite Z.sub_diag, Z.mul_0_r, Z.add_0_r. destruct (page_aligned kend u1 Hu1) as [_ Ha]. destruct (user_present kend _ _ _ _ _ _ _ Hpar Hu) as (_ & f & _ & _ & Hf & Hof & _ & _ & _ & ->).
        destruct (entry_eq (u1 - KERNBASE) f Ha Hf) as (-> & Hr & _). destruct (addr_flags _ _ Ha Hr) as [_ ->]. apply lor_odd; [lia|done].
      * intros k Hk. rewrite M4; [|eapply user_apart; [exact M1|by rewrite lookup_insert_eq|unfold in_page; lia]].
        rewrite memmove_lem by done. rewrite (proj2 (in_range_spec _ _ _)) by lia. replace (u + (u1 + k - u1)) with (u + k) by lia.
        destruct (space_kept _ _ _ _ _ _ Hpar C3) as (_ & _ & Hc). eapply Hc; [exact Hu|unfold in_page; lia].
    + destruct (C5 v' ltac:(lia)) as (w & w' & Hw & Hw' & Hfl & Hc). exists w, w'. split; [done|]. split; [by rewrite lookup_insert_ne|].
      rewrite (proj2 (Z.leb_gt v v')) by lia. cbn [andb]. rewrite Hpte by lia. split; [done|]. intros k Hk. rewrite <- Hc by done.
      rewrite M4; [|eapply user_apart; [exact M1|by rewrite lookup_insert_ne|unfold in_page; lia]]. apply Hom. intros q Hq. apply list_elem_of_singleton in Hq as ->.
      intros Hin. destruct (pages_apart kend u1 w' Hu1 (user_ok _ _ _ _ _ _ C1 _ _ Hw')); [|unfold in_page in Hin; lia..].
      intros ->. apply Hn1, pages_elem_of. right. right. left. by exists v'.
  - intros v' Hv'. rewrite lookup_insert_ne by lia. apply C6. lia.
Qed.

(** A page that cannot be mapped goes back. *)
Lemma copy_fail y m d U1 u1 m2 T2 l2 : only l0 m0 m -> space m2 d T2 U1 l2 -> page_ok u1 -> u1 ∉ pages_of d T2 U1 l2 ->
  only (u1 :: pages_of d T2 U1 l2) m m2 -> Permutation (u1 :: pages_of d T2 U1 l2) l0 ->
  does 0 (Vs y l2 m2) (kfree kend u1 ;;; ret false) 0 (fun b x => b = false /\ failed y d x).
Proof using Hend PL.
  intros Ho Hs Hu Hn Ho2 Hp. eapply does_bind; [apply (kfree_vs kend (kend_pos kend Hend)); [done|]|].
  - intros Hin. apply Hn. unfold pages_of. rewrite elem_of_cons, !elem_of_app. tauto.
  - intros []. apply does_ret. intros x (m3 & Hx & Ho3). split; [done|]. exists m3, T2, U1, (u1 :: l2). split; [done|].
    assert (Permutation (pages_of d T2 U1 (u1 :: l2)) (u1 :: pages_of d T2 U1 l2)) as Hp'.
    { unfold pages_of. by rewrite <- !Permutation_middle, perm_swap. }
    assert (space m3 d T2 U1 (u1 :: l2)) as Hs'.
    { assert (space m2 d T2 U1 (u1 :: l2)) as Hs2 by (destruct (Hs); constructor; rewrite ?Hp'; [done..|by constructor|by constructor]).
      apply (space_kept m2); [done|]. eapply only_mono; [|exact Ho3]. intros q Hq. apply list_elem_of_singleton in Hq as ->. by left. }
    split; [done|]. split; [by rewrite Hp'|]. rewrite <- Hp in Ho |- *. eapply only_trans; [exact Ho|]. eapply only_trans; [exact Ho2|].
    eapply only_mono; [|exact Ho3]. intros q Hq. apply list_elem_of_singleton in Hq as ->. by left.
Qed.

Lemma copy_loop_does y d sz : 0 <= sz <= KERNBASE -> (forall v, 0 <= v -> v * PGSIZE < sz -> is_Some (U !! v)) ->
  forall n m T1 U1 l1 v, copying m d T1 U1 l1 v -> 0 <= v <= npages sz -> sz - v * PGSIZE <= PGSIZE * Z.of_nat n ->
  does 0 (Vs y l1 m) (copy_loop kend (Datatypes.S n) p d (v * PGSIZE) sz) 0
    (fun b x => if b then exists m' T' U' l', Vs y l' m' x /\ copying m' d T' U' l' (npages sz) else failed y d x).
Proof using Hend PL Hpar.
  intros Hsz Hfull. assert (UTOP = 0x80000 /\ KERNBASE = 0x80000000 /\ PGSIZE = 4096) as (HU & HK & HP) by done.
  pose proof (npages_range sz) as Hnp. induction n as [|n IH]; intros m T1 U1 l1 v Hc Hv Hn.
  { cbn [copy_loop]. rewrite (proj2 (Z.ltb_ge _ _)) by lia. apply does_ret. intros x Hx. exists m, T1, U1, l1. by assert (v = npages sz) as <- by lia. }
  remember (Datatypes.S n) as k eqn:Ek. cbn [copy_loop]. subst k. destruct (Z.ltb_spec (v * PGSIZE) sz) as [Hlt|Hge].
  2: { apply does_ret. intros x Hx. exists m, T1, U1, l1. by assert (v = npages sz) as <- by lia. }
  destruct (Hfull v ltac:(lia) Hlt) as [u Hu]. pose proof (sp_user _ _ _ _ _ _ Hpar _ _ Hu) as Hvu. destruct (vpn_addr v ltac:(lia)) as [E1 E2].
  destruct (space_kept _ _ _ _ _ _ Hpar (cp_only _ _ _ _ _ _ Hc)) as (Hpm & Hpte & _).
  destruct (user_present kend _ _ _ _ _ _ _ Hpm Hu) as (t & f & Ht & Ep & Hf & Hof & Ea & El & Eo & Ef).
  eapply does_bind_eq; [apply (walk_get kend pid y l1 m p T U l0); [done|lia]|]. rewrite E1, E2, Ht. cbn [fmap option_fmap option_map].
  eapply does_bind_eq; [apply loadw_vs|]. rewrite has_P, El, Eo, Ea, Hpte by lia. cbn [negb].
  eapply does_bind_eq; [apply (kalloc_vs kend (kend_pos kend Hend))|]. destruct l1 as [|u1 l1]; cbn [hd tl].
  { apply does_ret. intros x Hx. destruct Hc. by exists m, T1, U1, []. }
  destruct (take_page _ _ _ _ _ _ (cp_space _ _ _ _ _ _ Hc)) as (Hu1 & Hn1 & Hp1 & Hs1). pose proof (cp_pages _ _ _ _ _ _ Hc) as Hp0.
  rewrite (proj2 (Z.eqb_neq u1 0)) by exact (page_nonzero kend (kend_pos kend Hend) u1 Hu1).
  eapply does_bind_eq; [apply p2v_does; pose proof (entry_word kend u (user_ok _ _ _ _ _ _ Hpar _ _ Hu)); lia|].
  replace (u - KERNBASE + KERNBASE) with u by lia.
  assert (only [u1] m (memmove m u1 u PGSIZE)) as Hom by apply memmove_only. destruct (Hs1 _ Hom) as [Hs2 _].
  destruct (space_split _ _ _ _ _ _ Hs2) as [Hl1 _].
  eapply does_bind_tt; [apply (update_page_vs kend pid y l1 m _ u1); [done| |done|done]|].
  { intros Hin. apply Hn1. unfold pages_of. rewrite elem_of_cons, !elem_of_app. tauto. }
  eapply does_bind_eq; [apply v2p_does; apply Hu1|].
  eapply does_bind; [apply (mappages_user kend Hend pid y _ d T1 U1 l1 v u1); [|done|lia|apply Hc; lia|done|done]|].
  { rewrite <- Hpte, Ef by lia. done. }
  intros r. apply does_ex. intros m2. apply does_ex. intros T2. apply does_ex. intros l2. apply does_when. intros (Hsub & Ho2 & Hp2 & Hr).
  destruct Hr as [[-> Hm]|[-> Hm]]; cbn [Z.ltb Z.compare].
  - assert (u32 (v * PGSIZE + PGSIZE) = (v + 1) * PGSIZE) as -> by (rewrite u32_id; lia).
    apply (IH m2 T2 (<[v := u1]> U1) l2 (v + 1)); [|lia|lia]. by eapply copied_page.
  - assert (Permutation (u1 :: pages_of d T2 U1 l2) l0) as Hp3 by (rewrite Hp2, <- Hp1; exact Hp0).
    eapply does_post; [apply (copy_fail y m d U1 u1 m2 T2 l2)|]; [apply Hc|apply Hm|done|by rewrite Hp2| |done|by intros b x [-> Hx]].
    eapply only_trans; [eapply only_mono; [|exact Hom]|eapply only_mono; [|exact Ho2]]; intros q; unfold pages_of; rewrite ?list_elem_of_singleton, !elem_of_cons, ?elem_of_app; tauto.
Qed.

Lemma copyuvm_does y sz : 0 <= sz <= KERNBASE -> (forall v, 0 <= v -> v * PGSIZE < sz -> is_Some (U !! v)) ->
  does 0 (Vs y l0 m0) (copyuvm kend kdata p sz) 0
    (fun r x => exists m' l', Vs y l' m' x /\ only l0 m0 m' /\
       (r = 0 /\ Permutation l' l0 \/ r <> 0 /\ exists T' U', copying m' r T' U' l' (npages sz))).
Proof using Hend PL Hpar Hdata.
  intros Hsz Hfull. unfold copyuvm. destruct (space_split _ _ _ _ _ _ Hpar) as [Hl0 _].
  assert (NoDup l0) as Hnd.
  { pose proof (sp_nodup _ _ _ _ _ _ Hpar) as Hn. unfold pages_of in Hn. rewrite app_assoc, app_comm_cons in Hn. by apply NoDup_app in Hn as (_ & _ & ?). }
  eapply does_bind; [by apply (setupkvm_does kend kdata Hend)|]. intros d. apply does_ex. intros m1. apply does_ex. intros l1.
  apply does_when. intros [Ho Hr]. destruct Hr as [[-> Hp]|[Hd (T1 & Hs1 & Hp & Hpte)]].
  { apply does_ret. intros x Hx. exists m1, l1. split; [done|]. split; [done|]. by left. }
  rewrite (proj2 (Z.eqb_neq d 0)) by done. pose proof (npages_range sz) as Hnp.
  assert (copying m1 d T1 ∅ l1 0) as Hc.
  { constructor; try done; [|lia]. intros v' Hv'. apply Hpte. assert (UTOP = 0x80000) by done. lia. }
  assert (0 <= sz / PGSIZE) by (apply Z.div_pos; [lia|done]). assert (PGSIZE = 4096) as HP by done.
  pose proof (Z.div_mod sz PGSIZE ltac:(done)). pose proof (Z.mod_pos_bound sz PGSIZE ltac:(done)).
  replace (Z.to_nat (sz / PGSIZE) + 2)%nat with (Datatypes.S (Z.to_nat (sz / PGSIZE) + 1)) by lia.
  eapply does_bind; [apply (copy_loop_does y d sz Hsz Hfull _ m1 T1 ∅ l1 0 Hc); lia|]. intros [].
  - apply does_ret. intros x (m' & T' & U' & l' & Hx & Hc'). exists m', l'. split; [done|]. split; [apply Hc'|]. right. split; [done|]. by exists T', U'.
  - apply does_ex. intros m2. apply does_ex. intros T2. apply does_ex. intros U2. apply does_ex. intros l2. apply does_when. intros (Hs2 & Hp2 & Ho2).
    eapply does_bind; [by apply (freevm_does kend Hend)|]. intros []. apply does_ret. intros x (m3 & l3 & Hx & Hp3 & Ho3). exists m3, l3.
    split; [done|]. rewrite Hp2 in Hp3, Ho3. split; [by eapply only_trans|]. by left.
Qed.

End Parent.

(** ** allocuvm *)

(** The pages from [v0] up to [v] are new. *)
Record grown m d T U l v0 v m' T' U' l' : Prop := {
  gr_space : space m' d T' U' l';
  gr_pages : Permutation (pages_of d T' U' l') (pages_of d T U l);
  gr_user : forall v', 0 <= v' -> ~ (v0 <= v' < v) -> U' !! v' = U !! v';
  gr_pte : forall v', 0 <= v' -> ~ (v0 <= v' < v) -> is_Some (U !! v') \/ UTOP <= v' -> pte m' T' v' = pte m T v';
  gr_new : forall v', v0 <= v' < v -> exists u, U' !! v' = Some u /\ pte m' T' v' = u - KERNBASE + 7 /\ forall k, 0 <= k < PGSIZE -> m' (u + k) = 0;
  gr_from : tables T' ++ l' ⊆ tables T ++ l;
  gr_only : only (d :: tables T ++ l) m m'
}.

(** Only pages of the user are taken out, so what else there is has not changed. *)
Lemma pages_rest d T U T' l l' : Permutation (pages_of d T' U l') (pages_of d T U l) -> Permutation (tables T' ++ l') (tables T ++ l).
Proof.
  unfold pages_of. intros Hp%(Permutation_cons_inv (a := d)). apply (Permutation_app_inv_l (tables U)).
  rewrite !(Permutation_app_comm (tables U)), <- !app_assoc. rewrite !(Permutation_app_comm _ (tables U)). done.
Qed.

Lemma grown_page m d T U l v0 v m1 T1 U1 l1 u1 m2 T2 l2 : grown m d T U l v0 v m1 T1 U1 (u1 :: l1) -> 0 <= v0 <= v -> v < UTOP ->
  U1 !! v = None ->
  maps (memset m1 u1 0 PGSIZE) d T1 U1 l1 v (u1 - KERNBASE) 6 1 m2 T2 (<[v := u1]> U1) l2 ->
  Permutation (pages_of d T2 U1 l2) (pages_of d T1 U1 l1) ->
  grown m d T U l v0 (v + 1) m2 T2 (<[v := u1]> U1) l2.
Proof.
  intros [G1 G2 G3 G3' G4 G6 G5] Hv Hvu Hvn [M1 M2 M3 M4] Hp. destruct (take_page _ _ _ _ _ _ G1) as (Hu1 & Hn1 & Hp1 & Hs1).
  pose proof (memset_only m1 u1) as Hom. destruct (Hs1 _ Hom) as [Hs2 Hpte].
  assert (tables T2 ++ l2 ⊆ tables T ++ l) as HT2.
  { intros q Hq. rewrite (pages_rest d T1 U1 T2 l1 l2 Hp) in Hq. apply G6. apply elem_of_app. apply elem_of_app in Hq as [?|?]; [by left|right; by right]. }
  constructor; try done.
  - rewrite <- G2, Hp1, <- Hp. unfold pages_of. rewrite (tables_insert U1) by done. cbn [app]. by rewrite <- !Permutation_middle, perm_swap.
  - intros v' Hv' Hni. rewrite lookup_insert_ne by lia. apply G3; lia.
  - intros v' Hv' Hni Hu. rewrite M2, Hpte by lia.
    assert ((v <=? v') && (v' <? v + 1) = false) as -> by (apply andb_false_iff; rewrite Z.leb_gt, Z.ltb_ge; lia). apply G3'; [lia|lia|done].
  - intros v' Hv'. rewrite M2 by lia. destruct (decide (v' = v)) as [->|Hne].
    + exists u1. rewrite lookup_insert_eq. split; [done|]. rewrite (proj2 (Z.leb_le _ _)), (proj2 (Z.ltb_lt _ _)) by lia. cbn [andb]. split.
      * rewrite Z.sub_diag, Z.mul_0_r, Z.add_0_r. destruct (page_aligned kend u1 Hu1) as [_ Ha]. by destruct (entry_eq (u1 - KERNBASE) 6 Ha) as (-> & _).
      * intros k Hk. rewrite M4; [|eapply user_apart; [exact M1|by rewrite lookup_insert_eq|unfold in_page; lia]].
        rewrite memset_lem by done. by rewrite (proj2 (in_range_spec _ _ _)) by lia.
    + destruct (G4 v' ltac:(lia)) as (w & Hw & Hpw & Hz). exists w. rewrite lookup_insert_ne by done. split; [done|].
      rewrite (proj2 (Z.leb_gt v v')) by lia. cbn [andb]. rewrite Hpte by lia. split; [done|]. intros k Hk. rewrite <- (Hz k) by done.
      rewrite M4; [|eapply user_apart; [exact M1|by rewrite lookup_insert_ne|unfold in_page; lia]]. apply Hom. intros q Hq. apply list_elem_of_singleton in Hq as ->.
      intros Hin. destruct (pages_apart kend u1 w Hu1 (user_ok _ _ _ _ _ _ G1 _ _ Hw)); [|unfold in_page in Hin; lia..].
      intros ->. apply Hn1, pages_elem_of. right. right. left. by exists v'.
  - eapply only_trans; [exact G5|]. eapply only_trans; [eapply only_mono; [|exact Hom]|eapply only_mono; [|exact M4]].
    + intros q Hq. apply list_elem_of_singleton in Hq as ->. right. apply G6, elem_of_app. right. by left.
    + intros q [->|Hq]%elem_of_cons; [by left|right; apply HT2, elem_of_app; by left].
Qed.

(** A page that cannot be mapped. *)
Lemma grown_unmapped m d T U l v0 v m1 T1 U1 l1 u1 m2 T2 l2 : grown m d T U l v0 v m1 T1 U1 (u1 :: l1) ->
  maps (memset m1 u1 0 PGSIZE) d T1 U1 l1 v (u1 - KERNBASE) 6 0 m2 T2 U1 l2 ->
  Permutation (pages_of d T2 U1 l2) (pages_of d T1 U1 l1) -> grown m d T U l v0 v m2 T2 U1 (u1 :: l2).
Proof.
  intros [G1 G2 G3 G3' G4 G6 G5] [M1 M2 M3 M4] Hp. destruct (take_page _ _ _ _ _ _ G1) as (Hu1 & Hn1 & Hp1 & Hs1).
  pose proof (memset_only m1 u1) as Hom. destruct (Hs1 _ Hom) as [Hs2 Hpte].
  assert (Permutation (pages_of d T2 U1 (u1 :: l2)) (pages_of d T1 U1 (u1 :: l1))) as Hp2.
  { rewrite Hp1, <- Hp. unfold pages_of. by rewrite <- !Permutation_middle, perm_swap. }
  assert (tables T2 ++ u1 :: l2 ⊆ tables T ++ l) as HT2 by (intros q Hq; rewrite (pages_rest d T1 U1 T2 (u1 :: l1) (u1 :: l2) Hp2) in Hq; by apply G6).
  assert (forall v', 0 <= v' -> pte m2 T2 v' = pte m1 T1 v') as Hpte2.
  { intros v' Hv'. rewrite M2 by done. assert ((v <=? v') && (v' <? v + 0) = false) as -> by (apply andb_false_iff; rewrite Z.leb_gt, Z.ltb_ge; lia). by apply Hpte. }
  constructor; try done.
  - destruct M1. destruct G1. constructor; try done; by rewrite Hp2.
  - by rewrite Hp2.
  - intros v' Hv' Hni Hu. rewrite Hpte2 by done. by apply G3'.
  - intros v' Hv'. destruct (G4 v' Hv') as (w & Hw & Hpw & Hz). pose proof (sp_user _ _ _ _ _ _ G1 _ _ Hw). exists w. split; [done|]. rewrite Hpte2 by lia.
    split; [done|]. intros k Hk. rewrite <- (Hz k) by done. rewrite M4; [|eapply user_apart; [exact M1|exact Hw|unfold in_page; lia]]. apply Hom.
    intros q Hq. apply list_elem_of_singleton in Hq as ->. intros Hin.
    destruct (pages_apart kend u1 w Hu1 (user_ok _ _ _ _ _ _ G1 _ _ Hw)); [|unfold in_page in Hin; lia..].
    intros ->. apply Hn1, pages_elem_of. right. right. left. by exists v'.
  - eapply only_trans; [exact G5|]. eapply only_trans; [eapply only_mono; [|exact Hom]|eapply only_mono; [|exact M4]].
    + intros q Hq. apply list_elem_of_singleton in Hq as ->. right. apply G6, elem_of_app. right. by left.
    + intros q [->|Hq]%elem_of_cons; [by left|right; apply HT2, elem_of_app; by left].
Qed.

Lemma trimmed_add m d T U l R m' U' l' u m2 : trimmed kend m d T U l R m' U' l' -> page_ok u -> u ∉ pages_of d T U l -> only [u] m' m2 ->
  trimmed kend m d T U (u :: l) R m2 U' (u :: l').
Proof.
  intros [K1 K2 K3 K4 K5 K6] Hu Hn Ho.
  assert (forall V k, Permutation (pages_of d T V (u :: k)) (u :: pages_of d T V k)) as Hp by (intros; unfold pages_of; by rewrite <- !Permutation_middle, perm_swap).
  assert (space m' d T U' (u :: l')) as Hs.
  { destruct (K1). constructor; try done; rewrite Hp; constructor; try done. by rewrite K2. }
  assert (only (u :: l') m' m2) as Ho' by (eapply only_mono; [|exact Ho]; intros q Hq; apply list_elem_of_singleton in Hq as ->; by left).
  destruct (space_kept _ _ _ _ _ _ Hs Ho') as (Hs2 & Hpte & _). constructor; try done.
  - by rewrite !Hp, K2.
  - intros v Hv HR. rewrite Hpte by done. by apply K4.
  - eapply only_trans; [eapply only_mono; [|exact K5]|eapply only_mono; [|exact Ho]]; intros q.
    + rewrite !elem_of_app, elem_of_cons. tauto.
    + rewrite list_elem_of_singleton, elem_of_app, elem_of_cons. tauto.
  - intros q. rewrite !elem_of_cons. intros [->|Hq]; [by left|right; by apply K6].
Qed.

(** The new pages are given back. *)
Lemma grown_back m d T U l v0 v sz m1 T1 U1 l1 m2 U2 l2 : space m d T U l -> grown m d T U l v0 v m1 T1 U1 l1 -> 0 <= v0 -> (forall v', v0 <= v' -> U !! v' = None) ->
  (forall v', v0 <= v' < v -> v' * PGSIZE < sz) -> sz <= KERNBASE ->
  trimmed kend m1 d T1 U1 l1 (inside v0 sz) m2 U2 l2 -> grown m d T U l v0 v0 m2 T1 U2 l2.
Proof.
  intros Hsp [G1 G2 G3 G3' G4 G6 G5] Hv0 Hnone Hin Hsz [K1 K2 K3 K4 K5 K6].
  assert (forall v', U2 !! v' = U !! v') as HU.
  { intros v'. rewrite K3. destruct (inside v0 sz v') eqn:E; [apply inside_true in E; symmetry; apply Hnone; lia|]. destruct (Z.lt_ge_cases v' 0) as [Hneg|Hpos].
    - destruct (U1 !! v') as [u|] eqn:E1; [pose proof (sp_user _ _ _ _ _ _ G1 _ _ E1); lia|].
      destruct (U !! v') as [u|] eqn:E2; [pose proof (sp_user _ _ _ _ _ _ Hsp _ _ E2); lia|done].
    - apply G3; [done|]. intros Hv'. specialize (Hin v' Hv'). assert (inside v0 sz v' = true); [apply inside_true; lia|congruence]. }
  apply map_eq in HU as ->. assert (Permutation (pages_of d T1 U l2) (pages_of d T U l)) as Hp by (by rewrite K2).
  pose proof (pages_rest d T U T1 l l2 Hp) as Hp2. constructor; try done; try lia.
  - intros v' Hv' _ Hu. assert (inside v0 sz v' = false) as E.
    { destruct (inside v0 sz v') eqn:E; [|done]. apply inside_true in E. destruct Hu as [Hu|Hu]; [rewrite Hnone in Hu by lia; by destruct Hu|].
      change KERNBASE with (UTOP * PGSIZE) in Hsz. unfold PGSIZE in *. lia. }
    rewrite K4 by done. apply G3'; [done| |done]. intros Hv2. specialize (Hin v' Hv2). assert (inside v0 sz v' = true); [apply inside_true; lia|congruence].
  - intros q Hq. by rewrite Hp2 in Hq.
  - eapply only_trans; [exact G5|]. eapply only_mono; [|exact K5]. intros q Hq. right. by rewrite <- Hp2.
Qed.

Section Grow.
Context (Hpr : forall P fmt args, does 0 P (kprintf fmt args) 0 (fun _ x => P x)).
Context m0 d T U l0 (Hsp : space m0 d T U l0) oldsz newsz (Hold : 0 <= oldsz) (Hnew : newsz < KERNBASE)
  (Hnone : forall v', npages oldsz <= v' -> U !! v' = None).

(** What [allocuvm] leaves, by its result. *)
Definition alloc_post y (r : Z) x : Prop := exists m T1 U1 l1, Vs y l1 m x /\
  (r = 0 /\ grown m0 d T U l0 (npages oldsz) (npages oldsz) m T1 U1 l1 \/
   r = newsz /\ grown m0 d T U l0 (npages oldsz) (npages newsz) m T1 U1 l1).

Lemma alloc_none y m T1 U1 v fmt : grown m0 d T U l0 (npages oldsz) v m T1 U1 [] -> oldsz < newsz -> npages oldsz <= v <= npages newsz ->
  does 0 (Vs y [] m) (kprintf fmt [] ;;; _ <- deallocuvm kend d newsz oldsz ;; ret 0) 0 (alloc_post y).
Proof using Hend PL Hpr Hsp Hold Hnew Hnone.
  intros Hg Hlt Hv. eapply does_bind_tt; [apply Hpr|]. eapply does_bind; [apply (deallocuvm_does kend Hend); [apply Hg|lia|lia]|].
  intros r. apply does_ret. intros x (m' & U' & l' & Hx & _ & Ht). exists m', T1, U', l'. split; [done|]. left. split; [done|].
  pose proof (npages_range oldsz). pose proof (npages_range newsz). assert (PGSIZE = 4096) by done.
  eapply (grown_back _ _ _ _ _ _ v newsz); [done|exact Hg|lia|done| |lia|exact Ht]. lia.
Qed.

Lemma alloc_unmapped y m T1 U1 l1 u v fmt : grown m0 d T U l0 (npages oldsz) v m T1 U1 (u :: l1) -> oldsz < newsz -> npages oldsz <= v <= npages newsz ->
  does 0 (Vs y l1 m) (kprintf fmt [] ;;; _ <- deallocuvm kend d newsz oldsz ;; kfree kend u ;;; ret 0) 0 (alloc_post y).
Proof using Hend PL Hpr Hsp Hold Hnew Hnone.
  intros Hg Hlt Hv. destruct (take_page _ _ _ _ _ _ (gr_space _ _ _ _ _ _ _ _ _ _ _ Hg)) as (Hu & Hn & Hp & Hs). destruct (Hs m (only_refl _ _)) as [Hs1 _].
  eapply does_bind_tt; [apply Hpr|]. eapply does_bind; [apply (deallocuvm_does kend Hend); [exact Hs1|lia|lia]|].
  intros r. apply does_ex. intros m'. apply does_ex. intros U'. apply does_ex. intros l'. apply does_when. intros [_ Ht].
  eapply does_bind; [apply (kfree_vs kend (kend_pos kend Hend)); [done|]|].
  { intros Hin. apply Hn. rewrite <- (tr_pages _ _ _ _ _ _ _ _ _ _ Ht). apply pages_elem_of. tauto. }
  intros []. apply does_ret. intros x (m2 & Hx & Ho). exists m2, T1, U', (u :: l'). split; [done|]. left. split; [done|].
  pose proof (npages_range oldsz). pose proof (npages_range newsz). assert (PGSIZE = 4096) by done.
  eapply (grown_back _ _ _ _ _ _ v newsz); [done|exact Hg|lia|done| |lia|by eapply trimmed_add]. lia.
Qed.

Lemma alloc_loop_does y : forall n m T1 U1 l1 v, grown m0 d T U l0 (npages oldsz) v m T1 U1 l1 -> npages oldsz <= v ->
  (v <= npages newsz) -> newsz - v * PGSIZE <= PGSIZE * Z.of_nat n ->
  does 0 (Vs y l1 m) (alloc_loop kend (Datatypes.S n) d (v * PGSIZE) oldsz newsz) 0 (alloc_post y).
Proof using Hend PL Hpr Hsp Hold Hnew Hnone.
  assert (UTOP = 0x80000 /\ KERNBASE = 0x80000000 /\ PGSIZE = 4096) as (HU & HK & HP) by done.
  pose proof (npages_range oldsz) as Hno. pose proof (npages_range newsz) as Hnn.
  assert (forall m T1 U1 l1 v, newsz <= v * PGSIZE -> v <= npages newsz -> grown m0 d T U l0 (npages oldsz) v m T1 U1 l1 -> does 0 (Vs y l1 m) (ret newsz) 0 (alloc_post y)) as Hend'.
  { intros m T1 U1 l1 v Hge Hle Hg. apply does_ret. intros x Hx. exists m, T1, U1, l1. split; [done|]. right. split; [done|].
    by assert (v = npages newsz) as <- by lia. }
  induction n as [|n IH]; intros m T1 U1 l1 v Hg Hv0 Hv Hn.
  { cbn [alloc_loop]. rewrite (proj2 (Z.ltb_ge _ _)) by lia. eapply Hend'; [|exact Hv|exact Hg]. lia. }
  remember (Datatypes.S n) as k eqn:Ek. cbn [alloc_loop]. subst k. destruct (Z.ltb_spec (v * PGSIZE) newsz) as [Hlt|Hge]; [|eapply Hend'; [|exact Hv|exact Hg]; lia].
  eapply does_bind_eq; [apply (kalloc_vs kend (kend_pos kend Hend))|]. destruct l1 as [|u1 l1]; cbn [hd tl]; [apply (alloc_none _ _ T1 U1 v); [done|lia|lia]|].
  destruct (take_page _ _ _ _ _ _ (gr_space _ _ _ _ _ _ _ _ _ _ _ Hg)) as (Hu1 & Hn1 & Hp1 & Hs1).
  rewrite (proj2 (Z.eqb_neq u1 0)) by exact (page_nonzero kend (kend_pos kend Hend) u1 Hu1).
  destruct (Hs1 _ (memset_only m u1)) as [Hs2 _]. destruct (space_split _ _ _ _ _ _ Hs2) as [Hl1 _].
  eapply does_bind_tt; [apply (update_page_vs kend pid y l1 m _ u1); [done| |done|apply memset_only]|].
  { intros Hin. apply Hn1. apply pages_elem_of. tauto. }
  eapply does_bind_eq; [apply v2p_does; apply Hu1|]. assert (U1 !! v = None) as Hvn by (rewrite (gr_user _ _ _ _ _ _ _ _ _ _ _ Hg) by lia; by apply Hnone).
  eapply does_bind; [apply (mappages_user kend Hend pid y _ d T1 U1 l1 v u1); [done|done|lia|done|done|done]|].
  intros r. apply does_ex. intros m2. apply does_ex. intros T2. apply does_ex. intros l2. apply does_when. intros (Hsub & Ho2 & Hp2 & Hr).
  destruct Hr as [[-> Hm]|[-> Hm]]; cbn [Z.ltb Z.compare].
  - assert (u32 (v * PGSIZE + PGSIZE) = (v + 1) * PGSIZE) as -> by (rewrite u32_id; lia).
    apply (IH m2 T2 (<[v := u1]> U1) l2 (v + 1)); [|lia|lia|lia]. eapply grown_page; [exact Hg|lia|lia|done|exact Hm|done].
  - eapply (alloc_unmapped _ _ _ _ _ _ v); [eapply grown_unmapped; [exact Hg|exact Hm|done]|lia|lia].
Qed.

Lemma allocuvm_does y : oldsz <= newsz -> does 0 (Vs y l0 m0) (allocuvm kend d oldsz newsz) 0 (alloc_post y).
Proof using Hend PL Hpr Hsp Hold Hnew Hnone.
  intros Hle. unfold allocuvm. rewrite (proj2 (Z.leb_gt _ _)), (proj2 (Z.ltb_ge _ _)) by lia. rewrite PGROUNDUP_eq by lia.
  pose proof (npages_range oldsz). pose proof (npages_range newsz). assert (PGSIZE = 4096) as HP by done.
  assert (0 <= (newsz - oldsz) / PGSIZE) by (apply Z.div_pos; [lia|done]).
  pose proof (Z.div_mod (newsz - oldsz) PGSIZE ltac:(done)). pose proof (Z.mod_pos_bound (newsz - oldsz) PGSIZE ltac:(done)).
  replace (Z.to_nat ((newsz - oldsz) / PGSIZE) + 2)%nat with (Datatypes.S (Z.to_nat ((newsz - oldsz) / PGSIZE) + 1)) by lia.
  apply (alloc_loop_does y _ m0 T U l0); [constructor; try done; lia|lia|apply Z.div_le_mono; [done|lia]|lia].
Qed.

End Grow.

(** ** copyout *)

(** The byte of the user at [a]. *)
Definition ubyte m U (a : Z) : option Z := (fun u => m (u + a mod PGSIZE)) <$> U !! (a / PGSIZE).

Lemma write_bytes_lem bs : forall m a b, write_bytes m a bs b = if in_range a (Z.of_nat (length bs)) b then nth (Z.to_nat (b - a)) bs 0 else m b.
Proof.
  induction bs as [|c bs IH]; intros m a b; cbn [write_bytes length].
  - by rewrite (proj2 (in_range_false _ _ _)) by lia.
  - rewrite IH. destruct (decide (b = a)) as [->|Hne].
    + rewrite (proj2 (in_range_false (a + 1) _ _)), (proj2 (in_range_spec _ _ _)), Z.sub_diag by lia. unfold upd. by rewrite Z.eqb_refl.
    + destruct (in_range (a + 1) (Z.of_nat (length bs)) b) eqn:E.
      * apply in_range_spec in E. rewrite (proj2 (in_range_spec _ _ _)) by lia. replace (Z.to_nat (b - a)) with (Datatypes.S (Z.to_nat (b - (a + 1)))) by lia. done.
      * apply in_range_false in E. rewrite (proj2 (in_range_false a _ _)) by lia. unfold upd. by rewrite (proj2 (Z.eqb_neq _ _)).
Qed.

Lemma user_inj m d T U l v v' u : space m d T U l -> U !! v = Some u -> U !! v' = Some u -> v = v'.
Proof.
  intros Hsp Hv Hv'. destruct (decide (v = v')) as [|Hne]; [done|]. exfalso. pose proof (sp_nodup _ _ _ _ _ _ Hsp) as Hn. unfold pages_of in Hn.
  rewrite (tables_delete U v u Hv) in Hn. rewrite app_comm_cons in Hn. apply NoDup_app in Hn as (_ & _ & Hn). cbn [app] in Hn. apply NoDup_cons in Hn as [Hn _].
  apply Hn, elem_of_app. left. apply tables_elem. exists v'. by rewrite lookup_delete_ne.
Qed.

(** Writing to a page of the user. *)
Lemma write_user y m d T U l v u o bs : space m d T U l -> U !! v = Some u -> 0 <= o -> o + Z.of_nat (length bs) <= PGSIZE ->
  let m' := write_bytes m (u + o) bs in
  does 0 (Vs y l m) (update c_mem (fun m => write_bytes m (u + o) bs)) 0 (fun _ x => Vs y l m' x) /\ space m' d T U l /\
  (forall v', 0 <= v' -> pte m' T v' = pte m T v') /\ only (tables U) m m' /\
  forall a, ubyte m' U a = if in_range (v * PGSIZE + o) (Z.of_nat (length bs)) a then Some (nth (Z.to_nat (a - (v * PGSIZE + o))) bs 0) else ubyte m U a.
Proof.
  intros Hsp Hu Ho Hl m'. destruct (space_split _ _ _ _ _ _ Hsp) as [Hlo Hpg]. pose proof (user_ok _ _ _ _ _ _ Hsp _ _ Hu) as Huo.
  assert (u ∈ tables U) as Hut by (apply tables_elem; by exists v).
  assert (only [u] m m') as Hom.
  { intros a Ha. unfold m'. rewrite write_bytes_lem, (proj2 (in_range_false _ _ _)); [done|]. specialize (Ha u (list_elem_of_here _ _)). unfold in_page in Ha. lia. }
  assert (forall q a, q ∈ d :: tables T -> in_page q a -> m' a = m a) as Hq.
  { intros q a Hq Ha. apply Hom. intros q' Hq'. apply list_elem_of_singleton in Hq' as ->. intros Hua. by eapply user_apart. }
  assert (forall i t a, T !! i = Some t -> in_page t a -> m' a = m a) as Ht by (intros i t a Hi; apply Hq; right; apply tables_elem; by exists i).
  split; [|split; [|split; [|split]]].
  - apply (update_page_vs kend pid y l m (fun m => write_bytes m (u + o) bs) u); try done. apply Hpg. right. apply elem_of_app. by right.
  - eapply (space_frame kend m); [done|done| |apply Hsp|apply Hsp]. intros a. apply Hq. by left.
  - intros v' Hv'. by eapply (pte_frame kend).
  - eapply only_mono; [|exact Hom]. by intros q ->%list_elem_of_singleton.
  - intros a. pose proof (Z.div_mod a PGSIZE ltac:(done)) as Hdm. pose proof (Z.mod_pos_bound a PGSIZE ltac:(done)) as Hmb. unfold ubyte.
    destruct (decide (a / PGSIZE = v)) as [E|E].
    + rewrite E, Hu. simpl. unfold m'. rewrite write_bytes_lem. unfold in_range. replace (a - (v * PGSIZE + o)) with (u + a mod PGSIZE - (u + o)) by lia.
      destruct (Z.leb_spec (u + o) (u + a mod PGSIZE)), (Z.ltb_spec (u + a mod PGSIZE) (u + o + Z.of_nat (length bs))),
        (Z.leb_spec (v * PGSIZE + o) a), (Z.ltb_spec a (v * PGSIZE + o + Z.of_nat (length bs))); cbn [andb]; try done; lia.
    + rewrite (proj2 (in_range_false _ _ _)) by (unfold PGSIZE in *; lia). destruct (U !! (a / PGSIZE)) as [w|] eqn:Hw; [|done]. simpl. f_equal. apply Hom.
      intros q Hq'. apply list_elem_of_singleton in Hq' as ->. intros Hin.
      destruct (pages_apart kend u w Huo (user_ok _ _ _ _ _ _ Hsp _ _ Hw)); [|unfold in_page in Hin; lia..]. intros ->. apply E. by eapply user_inj.
Qed.

(** A page of the user that the user may access. *)
Definition accessible m T U v : Prop := is_Some (U !! v) /\ has (pte m T v) PTE_U = true.

Lemma uva2ka_does y m d T U l v u : space m d T U l -> U !! v = Some u -> has (pte m T v) PTE_U = true ->
  does 0 (Vs y l m) (uva2ka d (v * PGSIZE)) 0 (fun r x => r = u /\ Vs y l m x).
Proof.
  intros Hsp Hu Hf. pose proof (sp_user _ _ _ _ _ _ Hsp _ _ Hu) as Hv. assert (UTOP = 0x80000) as HU by done. destruct (vpn_addr v ltac:(lia)) as [E1 E2].
  destruct (user_present kend _ _ _ _ _ _ _ Hsp Hu) as (t & f & Ht & Ep & _ & _ & Ea & El & Eo & _). unfold uva2ka.
  eapply does_bind_eq; [apply (walk_get kend pid y l m d T U l); [done|unfold PGSIZE; lia]|]. rewrite E1, E2, Ht. cbn [fmap option_fmap option_map].
  eapply does_bind_eq; [by apply does_ret|]. eapply does_bind_eq; [apply loadw_vs|]. rewrite has_P, El, Eo, Hf, Ea. cbn [negb].
  eapply does_post; [apply p2v_does; pose proof (entry_word kend u (user_ok _ _ _ _ _ _ Hsp _ _ Hu)); unfold KERNBASE, PGSIZE in *; lia|].
  intros r x [-> Hx]. split; [lia|done].
Qed.

Definition copied_out m T U l va (buf : list Z) m' : Prop :=
  only (tables U) m m' /\ (forall v, 0 <= v -> pte m' T v = pte m T v) /\
  forall a, ubyte m' U a = if in_range va (Z.of_nat (length buf)) a then Some (nth (Z.to_nat (a - va)) buf 0) else ubyte m U a.

Lemma copied_out_app m m1 m2 T U l va k (b : list Z) va' : 0 < k <= Z.of_nat (length b) -> k = Z.of_nat (length b) \/ va' = va + k ->
  only (tables U) m m1 -> (forall v, 0 <= v -> pte m1 T v = pte m T v) ->
  (forall a, ubyte m1 U a = if in_range va k a then Some (nth (Z.to_nat (a - va)) (take (Z.to_nat k) b) 0) else ubyte m U a) ->
  copied_out m1 T U l va' (drop (Z.to_nat k) b) m2 -> copied_out m T U l va b m2.
Proof.
  intros Hk Hva Ho Hp Hb (Ho2 & Hp2 & Hb2). split; [by eapply only_trans|]. split; [intros v Hv; by rewrite Hp2, Hp|].
  intros a. rewrite Hb2, Hb. rewrite length_drop. destruct (in_range va' _ a) eqn:E1.
  - apply in_range_spec in E1. rewrite (proj2 (in_range_spec va _ _)) by lia. f_equal. rewrite nth_skipn. f_equal. lia.
  - apply in_range_false in E1. destruct (in_range va k a) eqn:E2.
    + apply in_range_spec in E2. rewrite (proj2 (in_range_spec va _ _)) by lia. f_equal. rewrite nth_firstn, (proj2 (Nat.ltb_lt _ _)) by lia. done.
    + apply in_range_false in E2. by rewrite (proj2 (in_range_false va _ _)) by lia.
Qed.

Lemma copyout_loop_does y d T U l : forall n m va buf, space m d T U l -> 0 <= va -> va + Z.of_nat (length buf) <= KERNBASE ->
  (forall a, va <= a < va + Z.of_nat (length buf) -> accessible m T U (a / PGSIZE)) -> (length buf < n)%nat ->
  does 0 (Vs y l m) (copyout_loop n d va buf) 0
    (fun r x => r = 0 /\ exists m', Vs y l m' x /\ space m' d T U l /\ copied_out m T U l va buf m').
Proof using Hend PL.
  assert (UTOP = 0x80000 /\ KERNBASE = 0x80000000 /\ PGSIZE = 4096) as (HU & HK & HP) by done.
  induction n as [|n IH]; intros m va buf Hsp Hva Hle Hacc Hn; [lia|]. cbn [copyout_loop]. destruct buf as [|c buf].
  { apply does_ret. intros x Hx. split; [done|]. exists m. split; [done|]. split; [done|]. split; [apply only_refl|]. split; [done|].
    intros a. by rewrite (proj2 (in_range_false _ _ _)) by (cbn; lia). }
  rewrite PGROUNDDOWN_eq. remember (c :: buf) as b eqn:Eb. assert (0 < Z.of_nat (length b)) as Hb by (subst b; simpl; lia). clear Eb.
  set (v := va / PGSIZE). pose proof (Z.div_mod va PGSIZE ltac:(done)) as Hdm. pose proof (Z.mod_pos_bound va PGSIZE ltac:(done)) as Hmb. fold v in Hdm.
  destruct (Hacc va ltac:(lia)) as [[u Hu] Hf]. fold v in Hu, Hf.
  eapply does_bind_eq; [by apply (uva2ka_does y m d T U l v u)|].
  rewrite (proj2 (Z.eqb_neq u 0)) by exact (page_nonzero kend (kend_pos kend Hend) u (user_ok _ _ _ _ _ _ Hsp _ _ Hu)).
  set (k := if Z.of_nat (length b) <? PGSIZE - (va - v * PGSIZE) then Z.of_nat (length b) else PGSIZE - (va - v * PGSIZE)).
  assert (0 < k <= Z.of_nat (length b) /\ va - v * PGSIZE + k <= PGSIZE /\ (k = Z.of_nat (length b) \/ k = PGSIZE - (va - v * PGSIZE))) as (Hk & Hk2 & Hk3).
  { unfold k. destruct (Z.ltb_spec (Z.of_nat (length b)) (PGSIZE - (va - v * PGSIZE))); lia. }
  assert (Z.of_nat (length (take (Z.to_nat k) b)) = k) as Hlt by (rewrite length_take; lia).
  destruct (write_user y m d T U l v u (va - v * PGSIZE) (take (Z.to_nat k) b) Hsp Hu ltac:(lia) ltac:(lia)) as (Hw1 & Hw2 & Hw3 & Hw4 & Hw5).
  eapply does_bind_tt; [exact Hw1|]. set (m1 := write_bytes m (u + (va - v * PGSIZE)) (take (Z.to_nat k) b)) in *.
  rewrite Hlt in Hw5. replace (v * PGSIZE + (va - v * PGSIZE)) with va in Hw5 by lia. rewrite u32_id by lia.
  assert (Z.of_nat (length (drop (Z.to_nat k) b)) = Z.of_nat (length b) - k) as Hld by (rewrite length_drop; lia).
  eapply does_post; [apply (IH m1 (v * PGSIZE + PGSIZE) (drop (Z.to_nat k) b) Hw2); [lia|lia| |lia]|].
  - intros a Ha. destruct (Hacc a ltac:(lia)) as [Hs Hp]. split; [done|]. rewrite Hw3; [done|]. apply Z.div_pos; lia.
  - intros r x [-> (m' & Hx & Hs & Hc)]. split; [done|]. exists m'. split; [done|]. split; [done|]. eapply copied_out_app; [exact Hk| |done|done|exact Hw5|exact Hc]. lia.
Qed.


(** C21: [allocuvm] grows an address space or leaves it as it was.  When it returns the new
    size, the pages from the old end up to the new one are mapped, each to a page of
    zeros that was free, user-accessible and writable.  When it returns 0 because memory
    ran out, the user pages are those from before and every page it had taken is on the
    free list or a page table.  Either way the other user pages and the kernel part
    are mapped as before, and only the tables and pages that were free are changed. *)
Theorem allocuvm_grows d T U l oldsz newsz (s : S) : (forall P fmt args, does 0 P (kprintf fmt args) 0 (fun _ x => P x)) ->
  in_proc pid 0 s -> alloc_ok kend l (part s) -> space (mem (part s)) d T U l ->
  0 <= oldsz <= newsz -> newsz < KERNBASE -> (forall v, npages oldsz <= v -> U !! v = None) ->
  exists r T' U' l' s', allocuvm kend d oldsz newsz s = Ret r s' /\ in_proc pid 0 s' /\ alloc_ok kend l' (part s') /\
    (r = 0 /\ grown (mem (part s)) d T U l (npages oldsz) (npages oldsz) (mem (part s')) T' U' l' \/
     r = newsz /\ grown (mem (part s)) d T U l (npages oldsz) (npages newsz) (mem (part s')) T' U' l').
Proof using Hend PL.
  intros Hpr Hs Ha Hsp Hold Hnew Hnone.
  destruct (allocuvm_does Hpr _ d T U l Hsp oldsz newsz ltac:(lia) Hnew Hnone (part s) ltac:(lia) (part s)) as (r & x' & Hr & m' & T' & U' & l' & [Ex Hx] & Hres).
  { split; [by destruct (part s)|done]. }
  destruct (Hr s Hs eq_refl) as (s' & He & Hs' & Hp). exists r, T', U', l', s'. rewrite Hp.
  assert (mem x' = m') as -> by (rewrite Ex; done). done.
Qed.

(** C22: [copyout] copies a buffer of the kernel to the user's addresses.  When all pages
    it has to write to are accessible, it returns 0 and the user sees the buffer's bytes
    at [va] and its old bytes everywhere else; the page table and the rest of memory
    are unchanged. *)
Theorem copyout_writes d T U l va buf (s : S) :
  in_proc pid 0 s -> alloc_ok kend l (part s) -> space (mem (part s)) d T U l -> 0 <= va -> va + Z.of_nat (length buf) <= KERNBASE ->
  (forall a, va <= a < va + Z.of_nat (length buf) -> accessible (mem (part s)) T U (a / PGSIZE)) ->
  exists s', copyout d va buf s = Ret 0 s' /\ in_proc pid 0 s' /\ alloc_ok kend l (part s') /\ space (mem (part s')) d T U l /\
    copied_out (mem (part s)) T U l va buf (mem (part s')).
Proof using Hend PL.
  intros Hs Ha Hsp Hva Hle Hacc.
  destruct (copyout_loop_does (part s) d T U l (length buf + 1) _ va buf Hsp Hva Hle Hacc ltac:(lia) (part s)) as (r & x' & Hr & -> & m' & [Ex Hx] & Hsp' & Hc).
  { split; [by destruct (part s)|done]. }
  destruct (Hr s Hs eq_refl) as (s' & He & Hs' & Hp). exists s'. rewrite Hp. assert (mem x' = m') as -> by (rewrite Ex; done). done.
Qed.

End Code.

(** ** An example *)

(** A space of one page, and two free pages. *)
Definition frame (i : Z) : Z := 0x80400000 + PGSIZE * i.
Definition sample_mem : memory :=
  store_word (store_word (store_word (fun _ => 0) (frame 0) (frame 1 - KERNBASE + 7)) (frame 1) (frame 2 - KERNBASE + 7)) (frame 3) (frame 4).
Definition sample_vm : solo :=
  mkSolo solo_machine (set_kmem_ (mkKmem zero_lock 1 (frame 3)) (set_mem sample_mem (blank_sys example_disk example_log))) 1.

Lemma sample_zero i j : 0 <= i < 3 -> 0 < j < 1024 -> load_word sample_mem (frame i + 4 * j) = 0.
Proof.
  intros Hi Hj. unfold sample_mem, frame. rewrite !load_store_other; [done|..]; unfold KERNBASE, PGSIZE in *; lia.
Qed.

Lemma sample_space : space 0x80400000 sample_mem (frame 0) {[0 := frame 1]} {[0 := frame 2]} [frame 3; frame 4].
Proof.
  constructor.
  - intros i Hi. destruct (decide (i = 0)) as [->|Hne]; [vm_compute; reflexivity|]. rewrite lookup_singleton_ne by done.
    rewrite sample_zero; [done|lia..].
  - intros i t [<- <-]%lookup_singleton_Some. lia.
  - intros v Hv. destruct (decide (v = 0)) as [->|Hne].
    + exists 7. split; [unfold PGSIZE; lia|]. split; [done|]. vm_compute. reflexivity.
    + rewrite lookup_singleton_ne by done. unfold pte. destruct (decide (v / 1024 = 0)) as [E|E].
      * rewrite E, lookup_singleton_eq. rewrite sample_zero; [done|lia|]. pose proof (Z.div_mod v 1024 ltac:(done)). pose proof (Z.mod_pos_bound v 1024 ltac:(done)). lia.
      * by rewrite lookup_singleton_ne.
  - intros v u [<- <-]%lookup_singleton_Some. done.
  - unfold pages_of, tables. rewrite !map_to_list_singleton. repeat constructor; vm_compute; done.
  - unfold pages_of, tables. rewrite !map_to_list_singleton. cbn. apply NoDup_ListNoDup. repeat constructor; vm_compute; intuition congruence.
Qed.

Lemma sample_alloc : alloc_ok 0x80400000 [frame 3; frame 4] (part sample_vm).
Proof.
  split; [done|]. constructor.
  - vm_compute. done.
  - apply NoDup_ListNoDup. repeat constructor; vm_compute; intuition congruence.
  - repeat constructor; vm_compute; done.
Qed.


Lemma allocuvm_grows_witness : exists r T' U' l' (s' : solo), allocuvm 0x80400000 (frame 0) PGSIZE 8000 sample_vm = Ret r s' /\ in_proc (X := sys) 1 0 s' /\
  alloc_ok 0x80400000 l' (part s') /\
  (r = 0 /\ grown 0x80400000 sample_mem (frame 0) {[0 := frame 1]} {[0 := frame 2]} [frame 3; frame 4] 1 1 (mem (part s')) T' U' l' \/
   r = 8000 /\ grown 0x80400000 sample_mem (frame 0) {[0 := frame 1]} {[0 := frame 2]} [frame 3; frame 4] 1 2 (mem (part s')) T' U' l').
Proof.
  change sample_mem with (mem (part sample_vm)).
  apply (allocuvm_grows (S := solo) 0x80400000 eq_refl 1 (frame 0) {[0 := frame 1]} {[0 := frame 2]} [frame 3; frame 4] PGSIZE 8000 sample_vm).
  - intros P fmt args. by apply does_ret.
  - apply solo_in_proc.
  - apply sample_alloc.
  - apply sample_space.
  - unfold PGSIZE. lia.
  - reflexivity.
  - intros v Hv. change (npages PGSIZE) with 1 in Hv. by rewrite lookup_singleton_ne by lia.
Defined.

Lemma copyout_writes_witness : exists s' : solo, copyout (frame 0) 4000 [104; 105] sample_vm = Ret 0 s' /\ in_proc (X := sys) 1 0 s' /\
  alloc_ok 0x80400000 [frame 3; frame 4] (part s') /\
  space 0x80400000 (mem (part s')) (frame 0) {[0 := frame 1]} {[0 := frame 2]} [frame 3; frame 4] /\
  copied_out sample_mem {[0 := frame 1]} {[0 := frame 2]} [frame 3; frame 4] 4000 [104; 105] (mem (part s')).
Proof.
  change sample_mem with (mem (part sample_vm)).
  apply (copyout_writes (S := solo) 0x80400000 eq_refl 1 (frame 0) {[0 := frame 1]} {[0 := frame 2]} [frame 3; frame 4] 4000 [104; 105] sample_vm).
  - apply solo_in_proc.
  - apply sample_alloc.
  - apply sample_space.
  - lia.
  - unfold KERNBASE. cbn. lia.
  - intros a Ha. cbn in Ha. assert (a / PGSIZE = 0) as -> by (apply Z.div_small; unfold PGSIZE; lia). split; [by exists (frame 2)|]. vm_compute. reflexivity.
Defined.
