(* ===== verification/Umalloc.v ===== *)
(** * The user's allocator (umalloc.c)

    The allocator of Kernighan and Ritchie.  Free blocks form a ring through their
    headers, in the order of their addresses, that starts with the static block [base].
    Sizes count units of a header.  [sbrk] is a parameter.

    A block is given as its address and its size.  [heap_ok] says that the free blocks
    are such a ring and that they and the blocks in use do not overlap. *)

From stdpp Require Import base tactics list sets strings.
From Stdlib Require Import ZArith Lia Sorted.
From S2P Require Import Prelude Params StringC Words.
Open Scope Z_scope.

(** ** The code *)

(** [sbrk]: all ones for failure. *)
Class Brk (W : Type) := { sbrk : Z -> W -> Z * W }.

Record heap (W : Type) := mkHeap { h_mem : memory; h_freep : Z; h_world : W }.
Arguments mkHeap {W} h_mem h_freep h_world.
Arguments h_mem {W} h.
Arguments h_freep {W} h.
Arguments h_world {W} h.

Definition sizeof_header : Z := 8.

Section Ops.
Context {W : Type} {BW : Brk W} (base : Z).
Abbreviation K := (M (heap W)).

(** [p->s.ptr] and [p->s.size] *)
Definition hptr (p : Z) : K Z := h <- get ;; ret (load_word (h_mem h) p).
Definition hsize (p : Z) : K Z := h <- get ;; ret (load_word (h_mem h) (p + 4)).
Definition set_hptr (p v : Z) : K unit := modify (fun h => mkHeap (store_word (h_mem h) p v) (h_freep h) (h_world h)).
Definition set_hsize (p v : Z) : K unit := modify (fun h => mkHeap (store_word (h_mem h) (p + 4) v) (h_freep h) (h_world h)).
Definition set_freep (p : Z) : K unit := modify (fun h => mkHeap (h_mem h) p (h_world h)).
Definition get_freep : K Z := h <- get ;; ret (h_freep h).

(** [p + n] for [Header *p] *)
Definition units (p n : Z) : Z := u32 (p + sizeof_header * n).

(** The loop of [free], from [p] on. *)
Fixpoint free_search (n : nat) (bp p : Z) : K Z :=
  match n with
  | O => fuel_out
  | S n =>
      q <- hptr p ;;
      if (p <? bp) && (bp <? q) then ret p
      else if (q <=? p) && ((p <? bp) || (bp <? q)) then ret p
      else free_search n bp q
  end.

Definition free (fuel : nat) (ap : Z) : K unit :=
  let bp := units ap (-1) in
  p <- get_freep ;;
  p <- free_search fuel bp p ;;
  q <- hptr p ;;
  k <- hsize bp ;;
  (if units bp k =? q then
     kq <- hsize q ;;
     set_hsize bp (u32 (k + kq)) ;;;
     qq <- hptr q ;;
     set_hptr bp qq
   else set_hptr bp q) ;;;
  kp <- hsize p ;;
  (if units p kp =? bp then
     k <- hsize bp ;;
     set_hsize p (u32 (kp + k)) ;;;
     q <- hptr bp ;;
     set_hptr p q
   else set_hptr p bp) ;;;
  set_freep p.

Definition do_sbrk (n : Z) : K Z :=
  h <- get ;;
  let '(r, w) := sbrk n (h_world h) in
  modify (fun h => mkHeap (h_mem h) (h_freep h) w) ;;;
  ret r.

Definition morecore (fuel : nat) (nu : Z) : K Z :=
  let nu := if nu <? 4096 then 4096 else nu in
  p <- do_sbrk (i32 (nu * sizeof_header)) ;;
  if p =? 2 ^ 32 - 1 then ret 0 else
  set_hsize p nu ;;;
  free fuel (units p 1) ;;;
  get_freep.

(** The loop of [malloc], at [p] after [prevp]. *)
Fixpoint malloc_loop (n : nat) (nunits prevp p : Z) : K Z :=
  match n with
  | O => fuel_out
  | S k =>
      size <- hsize p ;;
      if nunits <=? size then
        p <- (if size =? nunits then q <- hptr p ;; set_hptr prevp q ;;; ret p
              else
                set_hsize p (size - nunits) ;;;
                let p := units p (size - nunits) in
                set_hsize p nunits ;;;
                ret p) ;;
        set_freep prevp ;;;
        ret (units p 1)
      else
        f <- get_freep ;;
        if p =? f then
          p <- morecore k nunits ;;
          if p =? 0 then ret 0 else q <- hptr p ;; malloc_loop k nunits p q
        else q <- hptr p ;; malloc_loop k nunits p q
  end.

Definition malloc (fuel : nat) (nbytes : Z) : K Z :=
  let nunits := u32 (u32 (nbytes + sizeof_header - 1) / sizeof_header + 1) in
  f <- get_freep ;;
  prevp <- (if f =? 0 then set_hptr base base ;;; set_freep base ;;; set_hsize base 0 ;;; ret base else ret f) ;;
  p <- hptr prevp ;;
  malloc_loop fuel nunits prevp p.

End Ops.

#[local] Arguments load_word : simpl never.
#[local] Arguments store_word : simpl never.
#[local] Arguments u32 : simpl never.

(** ** Blocks *)

Abbreviation block := (Z * Z)%type.
Implicit Types (m : memory) (L A R : list block) (b e : block) (p q a : Z).

(** The bytes a block of [n] units takes; [base] has size 0 and is a header. *)
Definition extent (n : Z) : Z := sizeof_header * Z.max 1 n.
Definition apart b e : Prop := b.1 + extent b.2 <= e.1 \/ e.1 + extent e.2 <= b.1.

Fixpoint pairwise A : Prop := match A with [] => True | b :: A => Forall (apart b) A /\ pairwise A end.

(** The address of the first block, [q] if there is none. *)
Definition first L q : Z := match L with [] => q | b :: _ => b.1 end.

(** The blocks are linked, the last one to [q]. *)
Fixpoint links m L q : Prop :=
  match L with
  | [] => True
  | b :: L => load_word m b.1 = first L q /\ load_word m (b.1 + 4) = b.2 /\ links m L q
  end.

Section Blocks.

Lemma apart_sym b e : apart b e -> apart e b.
Proof. unfold apart. tauto. Qed.

#[global] Instance pairwise_proper : Proper (Permutation ==> iff) pairwise.
Proof.
  assert (forall A R, Permutation A R -> pairwise A -> pairwise R) as Hp.
  { induction 1 as [|b A R Hp IH|b e A|A R X Hp1 IH1 Hp2 IH2]; cbn [pairwise]; try tauto.
    - intros [Hb HA]. rewrite Hp in Hb. tauto.
    - intros (Hb & He & HA). apply Forall_cons in Hb as [Hbe Hb]. rewrite Forall_cons. split; [split; [by apply apart_sym|done]|done]. }
  intros A R HAR. split; apply Hp; [done|by symmetry].
Qed.

Lemma pairwise_app A R : pairwise (A ++ R) -> pairwise A /\ pairwise R /\ forall b e, b ∈ A -> e ∈ R -> apart b e.
Proof.
  induction A as [|b A IH]; cbn [app pairwise]; [intros HR; split; [done|]; split; [done|]; by intros ? ? ?%elem_of_nil|].
  intros [Hb HA]. apply Forall_app in Hb as [Hb Hr]. destruct (IH HA) as (I1 & I2 & I3). split; [done|]. split; [done|].
  intros x e [->|Hx]%elem_of_cons He; [by apply (proj1 (Forall_forall _ _) Hr)|by apply I3].
Qed.

Lemma links_app m L R q : links m (L ++ R) q <-> links m L (first R q) /\ links m R q.
Proof.
  induction L as [|b L IH]; cbn [app links]; [tauto|]. rewrite IH. assert (first (L ++ R) q = first L (first R q)) as -> by (by destruct L). tauto.
Qed.

(** Only the headers count. *)
Lemma links_frame m m' L q : (forall b a, b ∈ L -> b.1 <= a < b.1 + sizeof_header -> m' a = m a) -> links m L q -> links m' L q.
Proof.
  intros Hm. induction L as [|b L IH]; cbn [links]; [done|]. intros (H1 & H2 & H3). unfold sizeof_header in *. split; [|split].
  - rewrite (load_word_frame m m'); [done|]. intros a Ha. apply (Hm b); [by left|lia].
  - rewrite (load_word_frame m m'); [done|]. intros a Ha. apply (Hm b); [by left|lia].
  - apply IH; [|done]. intros e a He. apply Hm. by right.
Qed.

Lemma extent_pos n : sizeof_header <= extent n.
Proof. unfold extent, sizeof_header. lia. Qed.

Lemma extent_eq n : 1 <= n -> extent n = sizeof_header * n.
Proof. intros. unfold extent, sizeof_header. lia. Qed.

End Blocks.

Lemma sorted_app L R : StronglySorted (fun b e : block => b.1 < e.1) (L ++ R) ->
  StronglySorted (fun b e : block => b.1 < e.1) L /\ StronglySorted (fun b e : block => b.1 < e.1) R /\ forall b e, b ∈ L -> e ∈ R -> b.1 < e.1.
Proof.
  induction L as [|x L IH]; cbn [app]; [intros HR; split; [constructor|]; split; [done|]; by intros ? ? ?%elem_of_nil|].
  intros [HL Hx]%StronglySorted_inv. destruct (IH HL) as (I1 & I2 & I3). apply Forall_app in Hx as [Hx Hr]. split; [by constructor|]. split; [done|].
  intros b e [->|Hb]%elem_of_cons He; [by apply (proj1 (Forall_forall _ _) Hr)|by apply I3].
Qed.

Lemma sorted_app_2 L R : StronglySorted (fun b e : block => b.1 < e.1) L -> StronglySorted (fun b e : block => b.1 < e.1) R ->
  (forall b e, b ∈ L -> e ∈ R -> b.1 < e.1) -> StronglySorted (fun b e : block => b.1 < e.1) (L ++ R).
Proof.
  intros HL HR Hlt. induction HL as [|x L HL IH Hx]; [done|]. cbn [app]. constructor.
  - apply IH. intros b e Hb. apply Hlt. by right.
  - apply Forall_app. split; [done|]. apply Forall_forall. intros e He. apply Hlt; [by left|done].
Qed.

(** A block and the free blocks after it. *)
Definition join b L : list block :=
  match L with
  | c :: L' => if b.1 + sizeof_header * b.2 =? c.1 then (b.1, b.2 + c.2) :: L' else b :: L
  | [] => [b]
  end.

(** The units of some blocks. *)
Definition total L : Z := foldr (fun b s => b.2 + s) 0 L.

Lemma total_cons b L : total (b :: L) = b.2 + total L.
Proof. done. Qed.

Lemma total_app L R : total (L ++ R) = total L + total R.
Proof. induction L as [|b L IH]; [done|]. cbn [total foldr app] in *. fold (total (L ++ R)) (total L) in *. lia. Qed.

Lemma join_total b L : total (join b L) = total (b :: L).
Proof. destruct L as [|c L]; [done|]. cbn [join]. destruct (_ =? _); cbn; lia. Qed.

Lemma join_length b L : (length (join b L) <= S (length L))%nat.
Proof. destruct L as [|c L]; [done|]. cbn [join]. destruct (_ =? _); cbn; lia. Qed.

Lemma join_first b L : Forall (fun c => 1 <= c.2) L -> exists k L', join b L = (b.1, k) :: L' /\ b.2 <= k.
Proof.
  intros HL. destruct L as [|c L]; [exists b.2, []; by destruct b|]. cbn [join]. destruct (_ =? _).
  - exists (b.2 + c.2), L. apply Forall_cons in HL as [HL _]. split; [done|lia].
  - exists b.2, (c :: L). by destruct b.
Qed.

Lemma join_pairwise b L R : 0 <= b.2 -> Forall (fun c => 1 <= c.2) L -> pairwise (b :: L ++ R) -> pairwise (join b L ++ R).
Proof.
  intros Hb HL. destruct L as [|c L]; [done|]. apply Forall_cons in HL as [Hc HL]. cbn [join].
  destruct (Z.eqb_spec (b.1 + sizeof_header * b.2) c.1) as [E|E]; [|done]. cbn [app pairwise]. intros (Hb1 & Hc1 & Hp). split; [|done].
  apply Forall_cons in Hb1 as [Hbc Hb1]. rewrite Forall_forall in Hb1, Hc1 |- *. intros e He. specialize (Hb1 e He). specialize (Hc1 e He).
  unfold apart, extent, sizeof_header in *. cbn [fst snd]. lia.
Qed.

Lemma join_forall (P : block -> Prop) b L : (forall k, b.2 <= k -> (k = b.2 \/ exists c, c ∈ L /\ c.1 = b.1 + sizeof_header * b.2 /\ k = b.2 + c.2) -> P (b.1, k)) ->
  Forall (fun c => 1 <= c.2) L -> Forall P L -> Forall P (join b L).
Proof.
  intros HP Hs HL. destruct L as [|c L]; [constructor; [|done]; destruct b; apply HP; [done|by left]|]. apply Forall_cons in Hs as [Hc _]. cbn [join].
  destruct (Z.eqb_spec (b.1 + sizeof_header * b.2) c.1) as [E|E].
  - apply Forall_cons in HL as [_ HL]. constructor; [|done]. apply HP; [lia|]. right. exists c. split; [by left|done].
  - constructor; [|done]. destruct b. apply HP; [done|by left].
Qed.

Lemma join_sorted b L : StronglySorted (fun b e : block => b.1 < e.1) (b :: L) -> StronglySorted (fun b e : block => b.1 < e.1) (join b L).
Proof.
  intros Hs. destruct L as [|c L]; [done|]. cbn [join]. destruct (_ =? _); [|done]. apply StronglySorted_inv in Hs as [Hs Hb].
  apply StronglySorted_inv in Hs as [Hs _]. apply Forall_cons in Hb as [_ Hb]. by constructor.
Qed.

(** The blocks below and above an address. *)
Lemma split_at L bp a0 : StronglySorted (fun b e : block => b.1 < e.1) L -> first L a0 < bp -> L <> [] -> Forall (fun b => b.1 <> bp) L ->
  exists L1 p s L2, L = L1 ++ (p, s) :: L2 /\ Forall (fun b => b.1 < bp) L1 /\ p < bp /\ Forall (fun b => bp < b.1) L2.
Proof.
  intros Hs Hf Hne Hbp. revert Hne Hf. induction L as [|[p s] L IH]; [done|]. intros _ Hf. cbn in Hf. apply StronglySorted_inv in Hs as [Hs Hp].
  apply Forall_cons in Hbp as [_ Hbp]. destruct L as [|c L].
  - exists [], p, s, []. by repeat split.
  - destruct (Z.lt_ge_cases c.1 bp) as [Hc|Hc].
    + destruct (IH Hs Hbp ltac:(done) Hc) as (L1 & p' & s' & L2 & -> & H1 & H2 & H3). exists ((p, s) :: L1), p', s', L2. split; [done|]. split; [by constructor|done].
    + exists [], p, s, (c :: L). split; [done|]. split; [done|]. split; [done|]. apply Forall_cons in Hbp as [Hbp _]. apply StronglySorted_inv in Hs as [_ Hs].
      constructor; [lia|]. eapply Forall_impl; [exact Hs|]. intros e He. cbn in He. lia.
Qed.

(** The state of the allocator: [L] the free blocks, [A] those in use, all of them below
    [top]. *)
Record heap_ok (base : Z) L A (top : Z) m (freep : Z) : Prop := {
  ho_links : links m L base;
  ho_base : exists R, L = (base, 0) :: R /\ Forall (fun b => 1 <= b.2) R;
  ho_sorted : StronglySorted (fun b e => b.1 < e.1) L;
  ho_used : Forall (fun b => 1 <= b.2 /\ load_word m (b.1 + 4) = b.2) A;
  ho_apart : pairwise (L ++ A);
  ho_low : 0 < base;
  ho_in : Forall (fun b => base <= b.1 /\ b.1 + extent b.2 <= top) (L ++ A);
  ho_top : top <= KERNBASE;
  ho_freep : exists n, (freep, n) ∈ L
}.

(** ** free *)

Section Free.
Context {W : Type} {BW : Brk W} (base : Z).
Implicit Types (h : heap W).

Lemma search_step n bp p h : let q := load_word (h_mem h) p in
  free_search (S n) bp p h =
    if (p <? bp) && (bp <? q) || (q <=? p) && ((p <? bp) || (bp <? q)) then Ret p h else free_search n bp q h.
Proof.
  cbn. unfold hptr. destruct (p <? bp), (bp <? _), (_ <=? p); done.
Qed.

(** The search passes over the blocks [L], which are in order and all below or all above
    [bp], up to [q]. *)
Lemma search_pass bp h : forall L q n, links (h_mem h) L q -> StronglySorted (fun b e => b.1 < e.1) L ->
  (Forall (fun b => b.1 < bp) L /\ q < bp /\ Forall (fun b => b.1 < q) L \/
   Forall (fun b => bp < b.1) L /\ q < bp) ->
  free_search (length L + n) bp (first L q) h = free_search n bp q h.
Proof.
  induction L as [|b L IH]; intros q n Hl Hs Hc; [done|]. cbn [length first Nat.add]. rewrite search_step. cbn [links] in Hl. destruct Hl as (H1 & H2 & H3).
  rewrite H1. apply StronglySorted_inv in Hs as [Hs Hb]. rewrite <- (IH q n H3 Hs).
  - enough ((b.1 <? bp) && (bp <? first L q) || (first L q <=? b.1) && ((b.1 <? bp) || (bp <? first L q)) = false) as -> by done.
    destruct L as [|c L]; cbn [first].
    + destruct Hc as [(Hc1 & Hc2 & Hc3)|(Hc1 & Hc2)]; repeat match goal with X : Forall _ (_ :: _) |- _ => apply Forall_cons in X as [X _] end;
        destruct (Z.ltb_spec b.1 bp), (Z.ltb_spec bp q), (Z.leb_spec q b.1); try done; lia.
    + apply Forall_cons in Hb as [Hb _]. destruct Hc as [(Hc1 & Hc2 & Hc3)|(Hc1 & Hc2)];
        apply Forall_cons in Hc1 as [Hc1 Hc1']; apply Forall_cons in Hc1' as [Hc1' _];
        destruct (Z.ltb_spec b.1 bp), (Z.ltb_spec bp c.1), (Z.leb_spec c.1 b.1); try done; lia.
  - rewrite !Forall_cons in Hc. tauto.
Qed.

(** [free] finds the block [p] before [bp], from wherever it starts. *)
Lemma search_found h L1 p s L2 bp f sf n : let L := L1 ++ (p, s) :: L2 in
  links (h_mem h) L base -> first L base = base -> StronglySorted (fun b e => b.1 < e.1) L -> base < bp -> (f, sf) ∈ L ->
  Forall (fun b => b.1 < bp) L1 -> p < bp -> Forall (fun b => bp < b.1) L2 -> (length L < n)%nat ->
  free_search n bp f h = Ret p h.
Proof.
  intros L Hl Hf Hs Hb Hin H1 Hp H2 Hn. subst L. apply links_app in Hl as [Hl1 Hl]. cbn [links first fst] in Hl1, Hl. destruct Hl as (Hp1 & _ & Hl2).
  apply sorted_app in Hs as (Hs1 & Hs & Hlt). apply StronglySorted_inv in Hs as [Hs2 Hgt]. rewrite length_app in Hn. cbn [length] in Hn.
  assert (forall k, free_search (S k) bp p h = Ret p h) as Hstop.
  { intros k. rewrite search_step, Hp1. destruct L2 as [|c L2]; cbn [first].
    - assert (base <= p) as Hle by (destruct L1 as [|b L1]; cbn in Hf; [lia|]; specialize (Hlt b (p, s) (list_elem_of_here _ _) (list_elem_of_here _ _)); cbn in Hlt; lia).
      destruct (Z.ltb_spec p bp), (Z.leb_spec base p); try lia. by rewrite orb_true_r.
    - apply Forall_cons in H2 as [H2 _]. destruct (Z.ltb_spec p bp), (Z.ltb_spec bp c.1); try lia. done. }
  assert (forall X Y k, L1 = X ++ Y -> free_search (length Y + S k) bp (first Y p) h = Ret p h) as Hlow.
  { intros X Y k ->. apply links_app in Hl1 as [_ Hl1]. apply sorted_app in Hs1 as (_ & Hs1 & _). apply Forall_app in H1 as [_ H1].
    rewrite (search_pass bp h Y p (S k)); [apply Hstop|done|done|]. left. split; [done|]. split; [done|]. apply Forall_forall. intros b Hb'.
    apply (Hlt b (p, s)); [apply elem_of_app; by right|by left]. }
  apply elem_of_app in Hin as [Hin|Hin].
  - apply list_elem_of_split in Hin as (X & Y & ->). specialize (Hlow X ((f, sf) :: Y) (n - length ((f, sf) :: Y) - 1)%nat eq_refl). cbn [first fst] in Hlow.
    rewrite <- Hlow. f_equal. rewrite length_app in Hn. cbn [length] in *. lia.
  - apply elem_of_cons in Hin as [[= -> ->]|Hin]; [destruct n; [lia|apply Hstop]|]. apply list_elem_of_split in Hin as (X & Y & ->).
    apply links_app in Hl2 as [_ Hl2]. apply sorted_app in Hs2 as (_ & Hs2 & _). apply Forall_app in H2 as [_ H2]. rewrite length_app in Hn.
    assert (first L1 p = base) as Hf1 by (by destruct L1). specialize (Hlow [] L1 (n - length ((f, sf) :: Y) - length L1 - 1)%nat eq_refl). rewrite Hf1 in Hlow.
    rewrite <- Hlow, <- (search_pass bp h ((f, sf) :: Y) base); [|done|done|by right]. cbn [first fst length] in *. f_equal. lia.
Qed.

(** What [free] does twice: [x] of [k] units is linked to [q], or the two are made one. *)
Definition join_code x (k : Z) q : M (heap W) unit :=
  if units x k =? q then
    kq <- hsize q ;;
    set_hsize x (u32 (k + kq)) ;;;
    qq <- hptr q ;;
    set_hptr x qq
  else set_hptr x q.

Lemma join_runs x (k : Z) L m f (w : W) : links m L base -> load_word m (x + 4) = k -> 0 <= k -> 0 <= x -> x + sizeof_header * k <= KERNBASE ->
  0 <= base < KERNBASE -> (L = [] -> base < x) ->
  Forall (fun b => x + extent k <= b.1 /\ 1 <= b.2 /\ b.1 + extent b.2 <= KERNBASE) L ->
  exists m', join_code x k (first L base) (mkHeap m f w) = Ret tt (mkHeap m' f w) /\ links m' (join (x, k) L) base /\
    forall a, a < x \/ x + sizeof_header <= a -> m' a = m a.
Proof.
  intros Hl Hx Hk Hx0 Hxt Hbase Hne HL. unfold join_code, units. assert (KERNBASE = 2147483648 /\ sizeof_header = 8) as [HK HS] by done.
  rewrite u32_id by lia. destruct L as [|c L]; cbn [first join fst snd].
  - specialize (Hne eq_refl). rewrite (proj2 (Z.eqb_neq _ _)) by lia. exists (store_word m x base). split; [done|]. split.
    + cbn [links first fst snd]. rewrite load_store_word, load_store_other by lia. done.
    + intros a Ha. apply store_word_out. lia.
  - apply Forall_cons in HL as [(Hc1 & Hc2 & Hc3) HL]. cbn [links] in Hl. destruct Hl as (H1 & H2 & H3). pose proof (extent_pos k). pose proof (extent_pos c.2).
    rewrite (extent_eq c.2) in Hc3 by lia.
    assert (forall m', (forall a, a < x \/ x + sizeof_header <= a -> m' a = m a) -> links m' L base) as HfL.
    { intros m' Hm'. apply (links_frame m); [|done]. intros b a Hb Ha. apply Hm'. rewrite Forall_forall in HL. specialize (HL b Hb). lia. }
    destruct (Z.eqb_spec (x + sizeof_header * k) c.1) as [E|E].
    + set (m1 := store_word m (x + 4) (u32 (k + c.2))). exists (store_word m1 x (first L base)).
      assert (load_word m1 c.1 = first L base) as Eq by (unfold m1; rewrite load_store_other by lia; done).
      assert (0 <= first L base < KERNBASE) as Hfb.
      { destruct L as [|d L]; [done|]. apply Forall_cons in HL as [HL _]. pose proof (extent_pos d.2). cbn. lia. }
      split; [cbn; rewrite H2; fold m1; by rewrite Eq|].
      assert (forall a, a < x \/ x + sizeof_header <= a -> store_word m1 x (first L base) a = m a) as Hout.
      { intros a Ha. rewrite store_word_out by lia. unfold m1. apply store_word_out. lia. }
      split; [|done]. cbn [links fst snd]. rewrite load_store_word by lia. split; [done|]. split; [|by apply HfL].
      rewrite load_store_other by lia. unfold m1. rewrite load_store_word by (apply Z.mod_pos_bound; lia). apply u32_id. lia.
    + exists (store_word m x c.1). split; [done|]. assert (forall a, a < x \/ x + sizeof_header <= a -> store_word m x c.1 a = m a) as Hout by (intros a Ha; apply store_word_out; lia).
      split; [|done]. cbn [links first fst snd]. rewrite load_store_word by lia. split; [done|]. rewrite load_store_other by lia. split; [done|].
      rewrite load_store_other by lia. split; [done|]. rewrite load_store_other by lia. split; [done|]. by apply HfL.
Qed.

Lemma free_eq n ap : free n ap =
  (p <- get_freep ;; p <- free_search n (units ap (-1)) p ;; q <- hptr p ;; k <- hsize (units ap (-1)) ;; join_code (units ap (-1)) k q ;;;
   kp <- hsize p ;; join_code p kp (units ap (-1)) ;;; set_freep p).
Proof. done. Qed.

(** The ring with the block [b] between [p] and [L2]. *)
Lemma insert_ok L1 p (s : Z) b L2 A top m m' f : heap_ok base (L1 ++ (p, s) :: L2) (b :: A) top m f -> p < b.1 -> Forall (fun c => b.1 < c.1) L2 ->
  let L' := L1 ++ join (p, s) (join b L2) in links m' L' base -> Forall (fun e => load_word m' (e.1 + 4) = e.2) A ->
  heap_ok base L' A top m' p /\ total L' = total (L1 ++ (p, s) :: L2) + b.2 /\ (length L' <= S (length (L1 ++ (p, s) :: L2)))%nat /\
  exists a k, (a, k) ∈ L' /\ b.2 <= k.
Proof.
  intros [H1 (R & HR & Hpos) H3 H4 H5 H6 H7 H8 H9] Hp HL2 L' Hl' HA'. apply Forall_cons in H4 as [[Hb1 _] H4].
  assert (Forall (fun c => 1 <= c.2) L2 /\ 0 <= s /\ (L1 = [] /\ p = base /\ s = 0 \/ 1 <= s /\ exists R1, L1 = (base, 0) :: R1 /\ Forall (fun b => 1 <= b.2) R1)) as (Hs2 & Hs0 & Hcase).
  { destruct L1 as [|x L1]; cbn in HR; injection HR.
    - intros <- -> ->. split; [done|]. split; [done|]. by left.
    - intros <- ->. apply Forall_app in Hpos as [Hp1 Hp2]. apply Forall_cons in Hp2 as [Hps Hp2]. cbn in Hps. split; [done|]. split; [lia|]. right. split; [done|]. by exists L1. }
  assert (Forall (fun c => 1 <= c.2) (join b L2)) as Hsj by (apply join_forall; [cbn; lia|done|done]).
  apply sorted_app in H3 as (S1 & S2 & S3). apply StronglySorted_inv in S2 as [S2 Sp].
  assert (Forall (fun c => p < c.1) (join b L2)) as Hpj by (apply join_forall; [done|done|done]).
  assert (StronglySorted (fun b e : block => b.1 < e.1) (join (p, s) (join b L2))) as Sj.
  { apply join_sorted. constructor; [|done]. apply join_sorted. by constructor. }
  rewrite <- app_assoc, !Forall_app, !Forall_cons in H7. destruct H7 as (I1 & [Ip I2] & Ib & IA).
  assert (forall x k c L, c ∈ L -> base <= x -> c.1 = x + sizeof_header * k -> 0 <= k -> Forall (fun b => 1 <= b.2) L -> Forall (fun b => base <= b.1 /\ b.1 + extent b.2 <= top) L ->
    base <= x /\ x + extent (k + c.2) <= top) as Hext.
  { intros x k c L Hin Hx Hc Hk Hs Hi. rewrite Forall_forall in Hs, Hi. specialize (Hs c Hin). specialize (Hi c Hin). unfold extent, sizeof_header in *. lia. }
  assert (Forall (fun b => base <= b.1 /\ b.1 + extent b.2 <= top) (join b L2)) as Ij.
  { apply join_forall; [|done|done]. intros k _ [->|(c & Hc & E1 & ->)]; cbn [fst snd]; [done|]. eapply (Hext b.1 b.2 c L2); try done; lia. }
  split; [|split; [|split]].
  - constructor; try done.
    + destruct Hcase as [(-> & -> & ->)|(Hs & R1 & -> & HR1)].
      * exists (join b L2). split; [|done]. unfold L'. cbn [app]. destruct (join_first b L2 Hs2) as (k & X & -> & _). cbn [join fst snd].
        rewrite (proj2 (Z.eqb_neq _ _)) by (unfold sizeof_header; lia). done.
      * exists (R1 ++ join (p, s) (join b L2)). split; [done|]. apply Forall_app. split; [done|]. apply join_forall; [cbn; lia|done|done].
    + apply sorted_app_2; [done|done|]. intros x e Hx He. assert (x.1 < p) as Hxp by (apply (S3 x (p, s)); [done|by left]).
      assert (Forall (fun e => p <= e.1) (join (p, s) (join b L2))) as Hpe by (apply join_forall; [cbn; lia|done|eapply Forall_impl; [exact Hpj|cbn; lia]]).
      rewrite Forall_forall in Hpe. specialize (Hpe e He). cbn in Hpe. lia.
    + rewrite Forall_forall in H4, HA' |- *. intros e He. split; [by apply H4|by apply HA'].
    + unfold L'. rewrite <- app_assoc, (Permutation_app_comm L1), <- app_assoc. apply join_pairwise; [cbn; lia|done|]. cbn [app].
      rewrite Permutation_middle. apply join_pairwise; [lia|done|]. eapply pairwise_proper; [|exact H5]. 
      rewrite <- !app_assoc. cbn [app]. rewrite <- !Permutation_middle, (Permutation_app_comm A L1). rewrite perm_swap. do 2 constructor. rewrite (Permutation_app_comm L1 (L2 ++ A)), <- app_assoc.
      by rewrite (Permutation_app_comm A L1).
    + unfold L'. rewrite !Forall_app. split; [split; [done|]|done]. apply join_forall; [|done|done]. intros k _ [->|(c & Hc & E1 & ->)]; cbn [fst snd] in *; [done|].
      eapply (Hext p s c (join b L2)); try done; lia.
    + destruct (join_first (p, s) (join b L2) Hsj) as (k & X & E & _). exists k. unfold L'. rewrite E. apply elem_of_app. right. by left.
  - unfold L'. rewrite !total_app, join_total. cbn [total foldr]. fold (total (join b L2)) (total L2). rewrite join_total. cbn. fold (total L2). lia.
  - unfold L'. rewrite !length_app. cbn [length]. pose proof (join_length (p, s) (join b L2)). pose proof (join_length b L2). lia.
  - unfold L'. destruct (join_first b L2 Hs2) as (k & X & E & Hk). rewrite E. cbn [join fst snd]. destruct (_ =? _).
    + exists p, (s + k). split; [apply elem_of_app; right; by left|lia].
    + exists b.1, k. split; [apply elem_of_app; right; right; by left|done].
Qed.

(** The blocks [A] in use are as they were. *)
Definition keeps A m m' : Prop := forall e a, e ∈ A -> e.1 <= a < e.1 + extent e.2 -> m' a = m a.

Lemma keeps_sizes A m m' : keeps A m m' -> Forall (fun b => 1 <= b.2 /\ load_word m (b.1 + 4) = b.2) A -> Forall (fun e => load_word m' (e.1 + 4) = e.2) A.
Proof.
  intros Hk HA. rewrite Forall_forall in HA |- *. intros e He. destruct (HA e He) as [_ <-]. apply load_word_frame. intros a Ha.
  apply (Hk e); [done|]. pose proof (extent_pos e.2). unfold sizeof_header in *. lia.
Qed.

(** Headers of free blocks are not in use. *)
Lemma keeps_header A m m' x : (forall a, a < x \/ x + sizeof_header <= a -> m' a = m a) ->
  (forall e, e ∈ A -> x + sizeof_header <= e.1 \/ e.1 + extent e.2 <= x) -> keeps A m m'.
Proof. intros Hm Hx e a He Ha. apply Hm. specialize (Hx e He). lia. Qed.

Lemma keeps_trans A m m1 m2 : keeps A m m1 -> keeps A m1 m2 -> keeps A m m2.
Proof. intros H1 H2 e a He Ha. rewrite (H2 e a He Ha). by apply (H1 e a). Qed.

Lemma free_ok L A top m f (w : W) bp (k : Z) n : heap_ok base L ((bp, k) :: A) top m f -> (length L < n)%nat ->
  exists m' p L', free n (bp + sizeof_header) (mkHeap m f w) = Ret tt (mkHeap m' p w) /\ heap_ok base L' A top m' p /\
    keeps A m m' /\ total L' = total L + k /\ (length L' <= S (length L))%nat /\ exists a s, (a, s) ∈ L' /\ k <= s.
Proof.
  intros Hok Hn. destruct (Hok) as [H1 (R & HR & Hpos) H3 H4 H5 H6 H7 H8 [sf H9]].
  assert (KERNBASE = 2147483648 /\ sizeof_header = 8) as [HK HS] by done. apply Forall_cons in H4 as [[Hk1 Hk2] H4]. cbn [fst snd] in *.
  apply Forall_app in H7 as [IL IA]. apply Forall_cons in IA as [[Ib1 Ib2] IA]. cbn [fst snd] in *. rewrite extent_eq in Ib2 by done.
  apply pairwise_app in H5 as (_ & [HbA _] & HLA).
  assert (forall e, e ∈ L -> apart e (bp, k)) as HLb by (intros e He; apply HLA; [done|by left]).
  assert (base + sizeof_header <= bp) as Hbb.
  { destruct (HLb (base, 0)) as [Ha|Ha]; [subst L; by left|..]; cbn [fst snd] in Ha; [unfold extent in Ha; lia|]. rewrite extent_eq in Ha by done. lia. }
  destruct (split_at L bp base) as (L1 & p & s & L2 & -> & G1 & G2 & G3); [done|rewrite HR; cbn; lia|by rewrite HR| |].
  { apply Forall_forall. intros e He E. pose proof (extent_pos e.2). destruct (HLb e He) as [Ha|Ha]; cbn [fst snd] in Ha; rewrite ?(extent_eq k) in Ha by done; lia. }
  rewrite free_eq. assert (units (bp + sizeof_header) (-1) = bp) as -> by (unfold units; rewrite u32_id; lia).
  assert (free_search n bp f (mkHeap m f w) = Ret p (mkHeap m f w)) as Es.
  { eapply (search_found _ L1 p s L2 bp f sf); try done; [by rewrite HR|lia]. }
  apply links_app in H1 as [Hl1 Hl]. cbn [links first fst snd] in Hl1, Hl. destruct Hl as (Hp1 & Hp2 & Hl2).
  assert (forall e, e ∈ L2 -> bp + sizeof_header * k <= e.1) as Hafter.
  { intros e He. rewrite Forall_forall in G3. specialize (G3 e He). pose proof (extent_pos e.2).
    destruct (HLb e) as [Ha|Ha]; [apply elem_of_app; right; by right|cbn [fst snd] in Ha; rewrite ?extent_eq in Ha by done; lia..]. }
  assert (p + extent s <= bp) as Hpb.
  { destruct (HLb (p, s)) as [Ha|Ha]; [apply elem_of_app; right; by left|cbn [fst snd] in Ha; rewrite ?(extent_eq k) in Ha by done; lia..]. }
  assert (forall e, e ∈ L1 ++ (p, s) :: L2 -> 0 <= e.2) as Hnn.
  { intros e He. rewrite HR in He. apply elem_of_cons in He as [->|He]; [done|]. rewrite Forall_forall in Hpos. specialize (Hpos e He). cbn in Hpos. lia. }
  assert (0 <= s) as Hs by (apply (Hnn (p, s)), elem_of_app; right; by left).
  assert (Forall (fun c => 1 <= c.2) L2) as Hs2.
  { apply Forall_forall. intros e He. assert (e ∈ R) as HeR; [|rewrite Forall_forall in Hpos; by apply Hpos].
    assert (e ∈ (base, 0) :: R) as Hin by (rewrite <- HR; apply elem_of_app; right; by right). apply elem_of_cons in Hin as [->|Hin]; [|done].
    specialize (Hafter _ He). cbn in Hafter. lia. }
  apply Forall_app in IL as [IL1 IL]. apply Forall_cons in IL as [[Ip1 Ip2] IL2]. cbn [fst snd] in Ip1, Ip2.
  destruct (join_runs bp k L2 m f w) as (m1 & E1 & J1 & O1); try done; try lia.
  { apply Forall_forall. intros e He. rewrite (extent_eq k) by done. rewrite Forall_forall in Hs2, IL2. specialize (Hafter e He). specialize (Hs2 e He). specialize (IL2 e He). cbn in *. lia. }
  pose proof (extent_pos s) as Hes.
  destruct (join_runs p s (join (bp, k) L2) m1 f w) as (m2 & E2 & J2 & O2); try done; try lia.
  { rewrite (load_word_frame m m1); [done|]. intros a Ha. apply O1. lia. }
  { unfold extent in Ip2. lia. }
  { by destruct L2; cbn; [|destruct (_ =? _)]. }
  { apply join_forall; [|done|].
    - intros k' Hk' Hc. cbn [fst snd] in *. split; [done|]. split; [lia|]. rewrite extent_eq by lia. destruct Hc as [->|(c & Hc & Ec & ->)]; [lia|].
      rewrite Forall_forall in IL2, Hs2. specialize (IL2 c Hc). specialize (Hs2 c Hc). cbn in Hs2. rewrite extent_eq in IL2 by done. lia.
    - apply Forall_forall. intros e He. rewrite Forall_forall in Hs2, IL2. specialize (Hafter e He). specialize (Hs2 e He). specialize (IL2 e He). cbn in *. lia. }
  exists m2, p, (L1 ++ join (p, s) (join (bp, k) L2)).
  assert (keeps A m m2) as Hkeep.
  { eapply keeps_trans; [apply (keeps_header A m m1 bp O1)|apply (keeps_header A m1 m2 p O2)]; intros e He.
    - rewrite Forall_forall in HbA. specialize (HbA e He). unfold apart in HbA. cbn [fst snd] in HbA. rewrite extent_eq in HbA by done. lia.
    - specialize (HLA (p, s) e ltac:(apply elem_of_app; right; by left) ltac:(by right)). unfold apart in HLA. cbn [fst snd] in HLA. lia. }
  split.
  { unfold get_freep, hptr, hsize, set_freep, get, bind, ret. cbn [bindR h_freep h_mem]. rewrite Es. cbn [bindR h_freep h_mem]. rewrite Hp1, Hk2.
    rewrite E1. cbn [bindR h_freep h_mem]. assert (load_word m1 (p + 4) = s) as -> by (rewrite (load_word_frame m m1); [done|]; intros a Ha; apply O1; lia).
    assert (first (join (bp, k) L2) base = bp) as Ef by (by destruct L2; cbn; [|destruct (_ =? _)]). rewrite Ef in E2. by rewrite E2. }
  destruct (insert_ok L1 p s (bp, k) L2 A top m m2 f Hok G2 G3) as (I1 & I2 & I3 & I4); [|by eapply keeps_sizes|done].
  apply links_app. split; [|done]. assert (first (join (p, s) (join (bp, k) L2)) base = p) as -> by (destruct (join (bp, k) L2); cbn; [|destruct (_ =? _)]; done).
  apply (links_frame m); [|done]. intros e a He Ha. rewrite O2, O1; [done|..].
  - rewrite Forall_forall in G1. specialize (G1 e He). pose proof (extent_pos e.2). destruct (HLb e) as [Hq|Hq]; [apply elem_of_app; by left|cbn [fst snd] in Hq..]; [lia|].
    rewrite extent_eq in Hq by done. cbn in G1. lia.
  - apply sorted_app in H3 as (_ & _ & H3). specialize (H3 e (p, s) He ltac:(by left)). cbn in H3. destruct Hok as [_ _ _ _ Hpw _ _ _ _].
    rewrite <- app_assoc in Hpw. apply pairwise_app in Hpw as (_ & _ & Hpw). specialize (Hpw e (p, s) He ltac:(by left)). unfold apart in Hpw. cbn [fst snd] in Hpw.
    pose proof (extent_pos e.2). lia.
Qed.

End Free.

(** ** malloc *)

(** [sbrk] moves the end of the program's memory, which is below the kernel, and returns
    the old one. *)
Class BrkLaws (W : Type) `{Brk W} := {
  brk_top : W -> Z;
  brk_grow n w : 0 < n -> let '(r, w') := sbrk n w in
    (r = 2 ^ 32 - 1 /\ brk_top w' = brk_top w) \/ (r = brk_top w /\ brk_top w' = r + n /\ r + n <= KERNBASE)
}.

Section Malloc.
Context {W : Type} {BW : Brk W} {BL : BrkLaws W} (base : Z).
Implicit Types (h : heap W) (w : W).

Definition last_addr L p : Z := match last L with Some b => b.1 | None => p end.

Lemma last_addr_cons b L p : last_addr (b :: L) p = last_addr L b.1.
Proof. unfold last_addr. rewrite last_cons. by destruct (last L). Qed.

Lemma loop_step n (nu : Z) prevp p h : malloc_loop (S n) nu prevp p h =
  let size := load_word (h_mem h) (p + 4) in
  if nu <=? size then
    if size =? nu then
      Ret (units p 1) (mkHeap (store_word (h_mem h) prevp (load_word (h_mem h) p)) prevp (h_world h))
    else
      let q := units p (size - nu) in
      Ret (units q 1) (mkHeap (store_word (store_word (h_mem h) (p + 4) (size - nu)) (q + 4) nu) prevp (h_world h))
  else if p =? h_freep h then
    (p <- morecore n nu ;; if p =? 0 then ret 0 else q <- hptr p ;; malloc_loop n nu p q) h
  else malloc_loop n nu p (load_word (h_mem h) p) h.
Proof.
  cbn [malloc_loop]. unfold hsize, get, bind, ret. cbn [bindR]. destruct (nu <=? _); [destruct (_ =? nu); done|]. cbn. by destruct (p =? _).
Qed.

(** The loop passes over blocks that are too small. *)
Lemma loop_pass (nu : Z) h : forall L q prevp n, links (h_mem h) L q -> Forall (fun b => b.2 < nu /\ b.1 <> h_freep h) L ->
  malloc_loop (length L + n) nu prevp (first L q) h = malloc_loop n nu (last_addr L prevp) q h.
Proof.
  induction L as [|b L IH]; intros q prevp n Hl Hs; [done|]. cbn [length first Nat.add]. rewrite loop_step. cbn [links] in Hl. destruct Hl as (H1 & H2 & H3).
  apply Forall_cons in Hs as [[Hs1 Hs2] Hs]. cbv zeta. rewrite H2, (proj2 (Z.leb_gt _ _)), (proj2 (Z.eqb_neq _ _)), H1, last_addr_cons by done.
  by apply IH.
Qed.

(** What [malloc] leaves when it finds a block. *)
Definition served L A top m w (nu : Z) (r : Z) h' : Prop := exists L' m' p a,
  r = a + sizeof_header /\ h' = mkHeap m' p w /\ heap_ok base L' ((a, nu) :: A) top m' p /\ keeps A m m' /\
  total L' + nu = total L /\ (length L' <= length L)%nat.

Lemma perm_pull (b c : block) L1 L2 A : Permutation ((L1 ++ b :: c :: L2) ++ A) (b :: c :: L1 ++ L2 ++ A).
Proof. rewrite <- app_assoc. cbn [app]. by rewrite <- !Permutation_middle. Qed.

(** The blocks around [pv] and [p] in the ring. *)
Lemma ring_parts L1 pv (sv : Z) p (s : Z) L2 A top m f : heap_ok base (L1 ++ (pv, sv) :: (p, s) :: L2) A top m f ->
  links m L1 pv /\ load_word m pv = p /\ load_word m (pv + 4) = sv /\ load_word m p = first L2 base /\ load_word m (p + 4) = s /\ links m L2 base /\
  1 <= s /\ 0 < pv /\ pv + sizeof_header <= p /\ p + sizeof_header * s <= KERNBASE /\ 0 <= first L2 base < KERNBASE /\
  (forall e, e ∈ L1 ++ L2 ++ A -> apart (pv, sv) e /\ apart (p, s) e) /\ pairwise (L1 ++ L2 ++ A).
Proof.
  intros [H1 (R & HR & Hpos) H3 H4 H5 H6 H7 H8 H9]. apply links_app in H1 as [Hl1 Hl]. cbn [links first fst snd] in Hl1, Hl.
  destruct Hl as (P1 & P2 & P3 & P4 & P5). rewrite perm_pull in H5, H7. cbn [pairwise] in H5. destruct H5 as (Q1 & Q2 & Q3).
  apply Forall_cons in Q1 as [Q0 Q1]. apply Forall_cons in H7 as [[I1 I2] H7]. apply Forall_cons in H7 as [[I3 I4] H7]. cbn [fst snd] in *.
  assert (1 <= s) as Hs.
  { assert ((p, s) ∈ R) as Hin; [|rewrite Forall_forall in Hpos; by apply (Hpos (p, s))]. destruct L1 as [|x L1]; cbn in HR; injection HR; [intros <- _ _; by left|].
    intros <- _. apply elem_of_app. right. right. by left. }
  apply sorted_app in H3 as (_ & H3 & _). apply StronglySorted_inv in H3 as [_ H3]. apply Forall_cons in H3 as [Hlt _]. cbn in Hlt.
  pose proof (extent_pos sv). pose proof (extent_pos s). rewrite (extent_eq s) in * by done. destruct Q0 as [Q0|Q0]; cbn [fst snd] in Q0; [|rewrite extent_eq in Q0 by done; unfold sizeof_header in *; lia].
  do 6 (split; [done|]). split; [done|]. split; [lia|]. split; [lia|]. split; [lia|]. split.
  - destruct L2 as [|c L2]; [unfold sizeof_header, KERNBASE in *; cbn; lia|]. rewrite !Forall_app, Forall_cons in H7. destruct H7 as (_ & [[Hc Hc'] _] & _).
    pose proof (extent_pos c.2). unfold sizeof_header in *. cbn. lia.
  - split; [|done]. intros e He. rewrite Forall_forall in Q1, Q2. split; [by apply Q1|by apply Q2].
Qed.

Lemma apart_headers b e : apart b e -> b.1 + sizeof_header <= e.1 \/ e.1 + sizeof_header <= b.1.
Proof. unfold apart. pose proof (extent_pos b.2). pose proof (extent_pos e.2). lia. Qed.

Lemma fit_whole L1 pv (sv : Z) p (nu : Z) L2 A top m f : heap_ok base (L1 ++ (pv, sv) :: (p, nu) :: L2) A top m f ->
  let m' := store_word m pv (load_word m p) in heap_ok base (L1 ++ (pv, sv) :: L2) ((p, nu) :: A) top m' pv /\ keeps A m m'.
Proof.
  intros Hok m'. destruct (ring_parts _ _ _ _ _ _ _ _ _ _ Hok) as (P1 & P2 & P3 & P4 & P5 & P6 & Hnu & Hpv0 & Hpv & Hp & Hf & Hap & Hpw).
  assert (sizeof_header = 8 /\ KERNBASE = 2147483648) as [HS HK] by done.
  assert (forall e a, e ∈ L1 ++ L2 ++ A -> e.1 <= a < e.1 + extent e.2 -> m' a = m a) as Hout.
  { intros e a He Ha. apply store_word_out. destruct (Hap e He) as [Q _]. unfold apart in Q. cbn [fst snd] in Q. pose proof (extent_pos sv). lia. }
  assert (forall e a, e ∈ L1 ++ L2 -> e.1 <= a < e.1 + sizeof_header -> m' a = m a) as Hhd.
  { intros e a He Ha. apply (Hout e); [rewrite app_assoc; apply elem_of_app; by left|]. pose proof (extent_pos e.2). lia. }
  assert (keeps A m m') as Hk by (intros e a He; apply Hout; rewrite !elem_of_app; by right; right).
  split; [|done]. destruct (Hok) as [H1 (R & HR & Hpos) H3 H4 H5 H6 H7 H8 H9].
  assert (Permutation ((L1 ++ (pv, sv) :: L2) ++ (p, nu) :: A) ((L1 ++ (pv, sv) :: (p, nu) :: L2) ++ A)) as Hperm.
  { rewrite <- !app_assoc. cbn [app]. by rewrite <- !Permutation_middle. }
  constructor; try done.
  - apply links_app. cbn [links first fst snd]. split; [apply (links_frame m); [|done]; intros e a He; apply Hhd, elem_of_app; by left|].
    unfold m' at 1 2. rewrite load_store_word by lia. rewrite load_store_other by lia. split; [done|]. split; [done|].
    apply (links_frame m); [|done]. intros e a He. apply Hhd, elem_of_app. by right.
  - destruct L1 as [|x L1]; cbn in HR; injection HR.
    + intros <- -> ->. apply Forall_cons in Hpos as [_ Hpos]. by exists L2.
    + intros <- ->. exists (L1 ++ (pv, sv) :: L2). split; [done|]. rewrite !Forall_app, !Forall_cons in *. tauto.
  - apply sorted_app in H3 as (S1 & S2 & S3). apply StronglySorted_inv in S2 as [S2 Sp]. apply StronglySorted_inv in S2 as [S2 _]. apply Forall_cons in Sp as [_ Sp].
    apply sorted_app_2; [done|by constructor|]. intros b e Hb [->|He]%elem_of_cons; apply S3; try done; [by left|right; by right].
  - constructor; [|rewrite Forall_forall in *; intros e He; split; [by apply H4|by apply (proj1 (Forall_forall _ _) (keeps_sizes _ _ _ Hk (proj2 (Forall_forall _ _) H4)))]].
    cbn [fst snd]. split; [done|]. unfold m'. rewrite load_store_other by lia. done.
  - by rewrite Hperm.
  - by rewrite Hperm.
  - exists sv. apply elem_of_app. right. by left.
Qed.

Lemma fit_tail L1 pv (sv : Z) p (s nu : Z) L2 A top m f : let q := p + sizeof_header * (s - nu) in
  heap_ok base (L1 ++ (pv, sv) :: (p, s) :: L2) A top m f -> 1 <= nu < s ->
  let m' := store_word (store_word m (p + 4) (s - nu)) (q + 4) nu in
  heap_ok base (L1 ++ (pv, sv) :: (p, s - nu) :: L2) ((q, nu) :: A) top m' pv /\ keeps A m m'.
Proof.
  intros q Hok Hn m'. destruct (ring_parts _ _ _ _ _ _ _ _ _ _ Hok) as (P1 & P2 & P3 & P4 & P5 & P6 & Hnu & Hpv0 & Hpv & Hp & Hf & Hap & Hpw).
  assert (sizeof_header = 8 /\ KERNBASE = 2147483648) as [HS HK] by done. unfold q in *.
  assert (forall a, a < p + 4 \/ p + sizeof_header <= a < p + sizeof_header * (s - nu) \/ p + sizeof_header * s <= a -> m' a = m a) as Hout0.
  { intros a Ha. unfold m'. rewrite !store_word_out by lia. done. }
  assert (forall e a, e ∈ L1 ++ L2 ++ A -> e.1 <= a < e.1 + extent e.2 -> m' a = m a) as Hout.
  { intros e a He Ha. apply Hout0. destruct (Hap e He) as [_ Q]. unfold apart in Q. cbn [fst snd] in Q. rewrite extent_eq in Q by done. lia. }
  assert (forall e a, e ∈ L1 ++ L2 -> e.1 <= a < e.1 + sizeof_header -> m' a = m a) as Hhd.
  { intros e a He Ha. apply (Hout e); [rewrite app_assoc; apply elem_of_app; by left|]. pose proof (extent_pos e.2). lia. }
  assert (keeps A m m') as Hk by (intros e a He; apply Hout; rewrite !elem_of_app; by right; right).
  split; [|done]. destruct (Hok) as [H1 (R & HR & Hpos) H3 H4 H5 H6 H7 H8 H9].
  assert (forall e, apart (p, s) e -> apart (p, s - nu) e /\ apart (p + sizeof_header * (s - nu), nu) e) as Hsplit.
  { intros e. unfold apart. cbn [fst snd]. rewrite (extent_eq s), (extent_eq (s - nu)), (extent_eq nu) by lia. pose proof (extent_pos e.2). lia. }
  assert (load_word m' p = load_word m p /\ load_word m' (p + 4) = s - nu /\ load_word m' (p + sizeof_header * (s - nu) + 4) = nu /\
    load_word m' pv = load_word m pv /\ load_word m' (pv + 4) = load_word m (pv + 4)) as (E1 & E2 & E3 & E4 & E5).
  { split; [apply load_word_frame; intros a Ha; apply Hout0; lia|]. split; [unfold m'; rewrite load_store_other, load_store_word by lia; done|].
    split; [apply load_store_word; lia|]. split; apply load_word_frame; intros a Ha; apply Hout0; lia. }
  constructor; try done.
  - apply links_app. cbn [links first fst snd]. split; [apply (links_frame m); [|done]; intros e a He; apply Hhd, elem_of_app; by left|].
    rewrite E1, E2, E4, E5. repeat (split; [done|]). apply (links_frame m); [|done]. intros e a He. apply Hhd, elem_of_app. by right.
  - destruct L1 as [|x L1]; cbn in HR; injection HR.
    + intros <- -> ->. apply Forall_cons in Hpos as [_ Hpos]. exists ((p, s - nu) :: L2). split; [done|]. constructor; [cbn; lia|done].
    + intros <- ->. exists (L1 ++ (pv, sv) :: (p, s - nu) :: L2). split; [done|]. rewrite !Forall_app, !Forall_cons in *. cbn in *. intuition lia.
  - apply sorted_app in H3 as (S1 & S2 & S3). apply StronglySorted_inv in S2 as [S2 Sp]. apply StronglySorted_inv in S2 as [S2 Sq]. apply Forall_cons in Sp as [Sp1 Sp].
    apply sorted_app_2; [done|constructor; [by constructor|by constructor]|]. intros b e Hb [->|[->|He]%elem_of_cons]%elem_of_cons.
    + apply (S3 b (pv, sv)); [done|by left].
    + apply (S3 b (p, s)); [done|right; by left].
    + apply S3; [done|right; by right].
  - constructor; [|rewrite Forall_forall in *; intros e He; split; [by apply H4|by apply (proj1 (Forall_forall _ _) (keeps_sizes _ _ _ Hk (proj2 (Forall_forall _ _) H4)))]].
    cbn [fst snd]. split; [lia|done].
  - rewrite perm_pull, <- !Permutation_middle. rewrite perm_pull in H5. cbn [pairwise] in H5 |- *. destruct H5 as (Q1 & Q2 & Q3). apply Forall_cons in Q1 as [Q0 Q1].
    rewrite !Forall_cons. rewrite Forall_forall in Q1, Q2.
    assert (forall e, apart e (p, s) -> apart e (p, s - nu) /\ apart e (p + sizeof_header * (s - nu), nu)) as Hs2.
    { intros e He%apart_sym. destruct (Hsplit e He). split; by apply apart_sym. }
    destruct (Hs2 _ Q0) as [Q4 Q5].
    assert (apart (p, s - nu) (p + sizeof_header * (s - nu), nu)) as Q6 by (left; cbn; rewrite extent_eq by lia; done).
    rewrite !Forall_forall. repeat split; try done; try (by apply apart_sym); intros e He; pose proof (Q1 e He); by destruct (Hsplit e (Q2 e He)).
  - rewrite perm_pull, <- !Permutation_middle. rewrite perm_pull in H7. rewrite !Forall_cons in *. cbn [fst snd] in *. rewrite (extent_eq s) in H7 by lia.
    rewrite (extent_eq (s - nu)), (extent_eq nu) by lia. intuition lia.
  - exists sv. apply elem_of_app. right. by left.
Qed.

Lemma loop_fit L1 pv (sv : Z) p (s nu : Z) L2 A top m f w n : heap_ok base (L1 ++ (pv, sv) :: (p, s) :: L2) A top m f -> 1 <= nu <= s ->
  exists r h', malloc_loop (S n) nu pv p (mkHeap m f w) = Ret r h' /\ served (L1 ++ (pv, sv) :: (p, s) :: L2) A top m w nu r h'.
Proof.
  intros Hok Hn. destruct (ring_parts _ _ _ _ _ _ _ _ _ _ Hok) as (P1 & P2 & P3 & P4 & P5 & P6 & Hnu & Hpv0 & Hpv & Hp & Hf & Hap & Hpw).
  assert (sizeof_header = 8 /\ KERNBASE = 2147483648) as [HS HK] by done.
  rewrite loop_step. cbn [h_mem h_world h_freep]. cbv zeta. rewrite P5, (proj2 (Z.leb_le _ _)) by lia. destruct (Z.eqb_spec s nu) as [->|Hne].
  - eexists _, _. split; [done|]. destruct (fit_whole _ _ _ _ _ _ _ _ _ _ Hok) as [Hok' Hk]. eexists _, _, pv, p. split; [unfold units; rewrite u32_id; lia|].
    split; [done|]. split; [exact Hok'|]. split; [exact Hk|]. rewrite !total_app, !total_cons, !length_app. cbn [fst snd length]. lia.
  - eexists _, _. split; [done|]. destruct (fit_tail _ _ _ _ _ nu _ _ _ _ _ Hok) as [Hok' Hk]; [lia|].
    assert (units p (s - nu) = p + sizeof_header * (s - nu)) as -> by (unfold units; rewrite u32_id; lia).
    eexists _, _, pv, (p + sizeof_header * (s - nu)). split; [unfold units; rewrite u32_id; lia|]. split; [done|]. split; [exact Hok'|]. split; [exact Hk|]. rewrite !total_app, !total_cons, !length_app. cbn [fst snd length]. lia.
Qed.

Lemma find_fit (nu : Z) L : (exists X e Y, L = X ++ e :: Y /\ Forall (fun b => b.2 < nu) X /\ nu <= e.2) \/ Forall (fun b => b.2 < nu) L.
Proof.
  induction L as [|b L IH]; [by right|]. destruct (Z.lt_ge_cases b.2 nu) as [Hb|Hb].
  - destruct IH as [(X & e & Y & -> & HX & He)|IH]; [left; exists (b :: X), e, Y; split; [done|split; [by constructor|done]]|right; by constructor].
  - left. by exists [], b, L.
Qed.

Lemma last_split L p : exists X s, last_addr L p = p /\ L = [] \/ L = X ++ [(last_addr L p, s)].
Proof.
  destruct L as [|b L _] using rev_ind; [exists [], 0; by left|]. exists L, b.2. right. unfold last_addr. rewrite last_snoc. by destruct b.
Qed.

(** From [f] once around the ring: the first block that is large enough is taken. *)
Lemma loop_walk L A top m f w (nu : Z) n : heap_ok base L A top m f -> 1 <= nu -> (length L <= n)%nat ->
  (Forall (fun b => b.2 < nu) L /\ malloc_loop n nu f (load_word m f) (mkHeap m f w) =
     (p <- morecore (n - length L) nu ;; if p =? 0 then ret 0 else q <- hptr p ;; malloc_loop (n - length L) nu p q) (mkHeap m f w)) \/
  exists r h', malloc_loop n nu f (load_word m f) (mkHeap m f w) = Ret r h' /\ served L A top m w nu r h'.
Proof.
  intros Hok Hnu Hn. destruct (Hok) as [H1 (R & HR & Hpos) H3 _ _ _ _ _ [sf H9]]. apply list_elem_of_split in H9 as (P & Q & ->).
  apply links_app in H1 as [Hl1 Hl]. cbn [links first fst snd] in Hl1, Hl. destruct Hl as (Hf & Hsf & Hl2). rewrite Hf.
  apply sorted_app in H3 as (S1 & S2 & S3). apply StronglySorted_inv in S2 as [S2 Sf].
  assert (first P f = base) as HPb by (destruct P as [|x P]; cbn in HR; injection HR; intros; by subst).
  assert (forall X, Forall (fun b => b.2 < nu) X -> X ⊆ P ++ Q -> Forall (fun b => b.2 < nu /\ b.1 <> h_freep (mkHeap m f w)) X) as Hpass.
  { intros X HX Hsub. rewrite Forall_forall in HX |- *. intros b Hb. split; [by apply HX|]. cbn. specialize (Hsub b Hb). apply elem_of_app in Hsub as [Hsub|Hsub].
    - specialize (S3 b (f, sf) Hsub ltac:(by left)). cbn in S3. lia.
    - rewrite Forall_forall in Sf. specialize (Sf b Hsub). cbn in Sf. lia. }
  rewrite length_app in *. cbn [length] in *.
  destruct (find_fit nu Q) as [(X & e & Y & -> & HX & He)|HQ].
  { right. rewrite length_app in Hn. cbn [length] in Hn. apply links_app in Hl2 as [Hl2 _]. cbn [first fst] in Hl2.
    replace n with (length X + S (n - length X - 1))%nat by lia. assert (first (X ++ e :: Y) base = first X e.1) as -> by (by destruct X).
    rewrite loop_pass; [|done|apply Hpass; [done|]; intros b Hb; rewrite !elem_of_app; tauto]. destruct e as [p s].
    destruct (last_split X f) as (X' & s' & [[-> ->]|EX]).
    - apply (loop_fit P f sf p s nu Y); [done|]. cbn in He. lia.
    - cbn in He. set (lp := last_addr X f) in *. assert (P ++ (f, sf) :: X ++ (p, s) :: Y = (P ++ (f, sf) :: X') ++ (lp, s') :: (p, s) :: Y) as EL.
      { rewrite EX, <- !app_assoc. done. }
      rewrite EL in Hok |- *. apply (loop_fit (P ++ (f, sf) :: X') lp s' p s nu Y); [done|lia]. }
  replace n with (length Q + (n - length Q))%nat by lia. rewrite !loop_pass by (done || (apply Hpass; [done|]; intros b Hb; rewrite !elem_of_app; tauto)).
  rewrite <- HPb. set (pv := last_addr Q f).
  destruct (find_fit nu P) as [(X & e & Y & -> & HX & He)|HP].
  { right. rewrite length_app in Hn. cbn [length] in Hn. apply links_app in Hl1 as [Hl1 _]. cbn [first fst] in Hl1.
    replace (n - length Q)%nat with (length X + S (n - length Q - length X - 1))%nat by lia. assert (first (X ++ e :: Y) f = first X e.1) as -> by (by destruct X).
    rewrite loop_pass; [|done|apply Hpass; [done|]; intros b Hb; rewrite !elem_of_app; tauto]. destruct e as [p s].
    destruct (last_split X pv) as (X' & s' & [[_ ->]|EX]); [cbn in HR; injection HR; intros; subst; cbn in He; lia|]. cbn in He. set (lp := last_addr X pv) in *.
    assert ((X ++ (p, s) :: Y) ++ (f, sf) :: Q = X' ++ (lp, s') :: (p, s) :: Y ++ (f, sf) :: Q) as EL by (rewrite EX, <- !app_assoc; done).
    rewrite EL in Hok |- *. apply (loop_fit X' lp s' p s nu _ A); [done|lia]. }
  replace (n - length Q)%nat with (length P + S (n - length P - length Q - 1))%nat by lia.
  rewrite loop_pass by (done || (apply Hpass; [done|]; intros b Hb; rewrite !elem_of_app; tauto)).
  destruct (Z.lt_ge_cases sf nu) as [Hs|Hs].
  - left. split; [apply Forall_app; split; [done|by constructor]|]. rewrite loop_step. cbn [h_mem h_freep]. cbv zeta.
    rewrite Hsf, (proj2 (Z.leb_gt _ _)), Z.eqb_refl by done.
    by replace (length Q + (length P + S (n - length P - length Q - 1)) - (length P + S (length Q)))%nat with (n - length P - length Q - 1)%nat by lia.
  - right. destruct (last_split P pv) as (P' & s' & [[_ ->]|EP]); [cbn in HR; injection HR; intros; subst; lia|]. set (lp := last_addr P pv) in *.
    assert (P ++ (f, sf) :: Q = P' ++ (lp, s') :: (f, sf) :: Q) as EL by (rewrite EP, <- !app_assoc; done). rewrite EL in Hok |- *.
    apply (loop_fit P' lp s' f sf nu Q A); [done|lia].
Qed.

Lemma heap_top L A top m f : heap_ok base L A top m f -> 0 < base /\ base + sizeof_header <= top.
Proof.
  intros [_ (R & -> & _) _ _ _ Hb Hin _ _]. cbn [app] in Hin. apply Forall_cons in Hin as [[_ Hin] _]. pose proof (extent_pos 0). cbn [fst snd] in Hin. lia.
Qed.

(** Memory above [top] becomes a block. *)
Lemma heap_grow L A top top' m f r (nu : Z) : heap_ok base L A top m f -> 1 <= nu -> top <= r -> r + sizeof_header * nu <= top' <= KERNBASE ->
  heap_ok base L ((r, nu) :: A) top' (store_word m (r + 4) nu) f /\ keeps A m (store_word m (r + 4) nu).
Proof.
  intros Hok Hnu Hr Htop. pose proof (heap_top _ _ _ _ _ Hok) as [Hb Ht]. destruct Hok as [H1 H2 H3 H4 H5 H6 H7 H8 H9]. assert (sizeof_header = 8 /\ KERNBASE = 2147483648) as [HS HK] by done.
  assert (forall e a, e ∈ L ++ A -> e.1 <= a < e.1 + extent e.2 -> store_word m (r + 4) nu a = m a) as Hout.
  { intros e a He Ha. rewrite Forall_forall in H7. specialize (H7 e He). apply store_word_out. lia. }
  assert (keeps A m (store_word m (r + 4) nu)) as Hk by (intros e a He; apply Hout, elem_of_app; by right).
  split; [|done]. constructor; try done.
  - apply (links_frame m); [|done]. intros e a He Ha. apply (Hout e); [apply elem_of_app; by left|]. pose proof (extent_pos e.2). lia.
  - constructor; [cbn [fst snd]; split; [done|apply load_store_word; lia]|].
    rewrite Forall_forall in H4 |- *. intros e He. split; [by apply H4|]. pose proof (keeps_sizes _ _ _ Hk (proj2 (Forall_forall _ _) H4)) as Hs. rewrite Forall_forall in Hs. by apply Hs.
  - rewrite <- Permutation_middle. cbn [pairwise]. split; [|done]. rewrite Forall_forall in H7 |- *. intros e He. right. specialize (H7 e He). cbn. lia.
  - rewrite <- Permutation_middle. constructor; [cbn [fst snd]; rewrite extent_eq by done|].
    + lia.
    + rewrite Forall_forall in H7 |- *. intros e He. specialize (H7 e He). lia.
  - lia.
Qed.

Lemma morecore_ok L A m f w (nu : Z) n : heap_ok base L A (brk_top w) m f -> 1 <= nu -> sizeof_header * nu < 2 ^ 31 -> (length L < n)%nat ->
  exists r h', morecore n nu (mkHeap m f w) = Ret r h' /\
    ((r = 0 /\ exists w', h' = mkHeap m f w' /\ brk_top w' = brk_top w) \/
     exists m' w' L', r <> 0 /\ h' = mkHeap m' r w' /\ heap_ok base L' A (brk_top w') m' r /\ keeps A m m' /\ sizeof_header * (total L' - total L) = brk_top w' - brk_top w /\
       (length L' <= S (length L))%nat /\ exists a s, (a, s) ∈ L' /\ nu <= s).
Proof.
  intros Hok Hnu Hb Hn. assert (sizeof_header = 8 /\ KERNBASE = 2147483648) as [HS HK] by done. unfold morecore.
  set (g := if nu <? 4096 then 4096 else nu). assert (nu <= g /\ 1 <= g /\ sizeof_header * g < 2 ^ 31) as (Hg1 & Hg2 & Hg3) by (unfold g; destruct (Z.ltb_spec nu 4096); lia).
  clearbody g.   rewrite i32_id by lia. unfold do_sbrk, get, bind, ret. cbn [bindR h_world]. pose proof (brk_grow (g * sizeof_header) w ltac:(lia)) as Hbrk.
  destruct (sbrk (g * sizeof_header) w) as [r w'] eqn:Es. cbn [bindR modify h_mem h_freep]. destruct Hbrk as [[-> Ht]|(Hr1 & Hr2 & Hr3)].
  { rewrite Z.eqb_refl. eexists _, _. split; [done|]. left. split; [done|]. by exists w'. }
  pose proof (heap_top _ _ _ _ _ Hok) as [Hb0 Htop].
  rewrite (proj2 (Z.eqb_neq _ _)) by lia.
  assert (brk_top w <= r) as Hr1' by lia. assert (r + sizeof_header * g <= brk_top w' <= KERNBASE) as Hr2' by lia.
  destruct (heap_grow L A _ (brk_top w') m f r g Hok Hg2 Hr1' Hr2') as [Hok1 Hk1].
  destruct (free_ok base L A _ _ f w' r g n Hok1 Hn) as (m' & p & L' & Ef & Hok' & Hk & Ht & Hlen & a & s & Hin & Has).
  eexists _, _. split.
  { unfold set_hsize, modify. cbn [bindR h_mem h_freep h_world]. assert (units r 1 = r + sizeof_header) as -> by (unfold units; rewrite u32_id; lia). rewrite Ef. done. }
  right. cbn [h_freep]. exists m', w', L'. split; [|split; [done|split; [done|split; [by eapply keeps_trans|split; [lia|split; [done|exists a, s; split; [done|lia]]]]]]].
  destruct Hok' as [_ _ _ _ _ _ Hin' _ [sp Hp]]. apply Forall_app in Hin' as [Hin' _]. rewrite Forall_forall in Hin'. specialize (Hin' _ Hp). cbn in Hin'. lia.
Qed.

(** The allocator at any time: not used yet, or with a ring of at most [len] blocks.  All
    memory obtained since [start] is in the free blocks and the blocks [A]. *)
Definition heap_at (start : Z) A h (len : nat) : Prop :=
  (h_freep h = 0 /\ A = [] /\ 0 < base /\ base + sizeof_header <= brk_top (h_world h) <= KERNBASE /\ brk_top (h_world h) = start /\ (1 <= len)%nat) \/
  exists L, heap_ok base L A (brk_top (h_world h)) (h_mem h) (h_freep h) /\ (length L <= len)%nat /\
    sizeof_header * (total L + total A) = brk_top (h_world h) - start.

Lemma heap_first m w : 0 < base -> base + sizeof_header <= brk_top w <= KERNBASE ->
  heap_ok base [(base, 0)] [] (brk_top w) (store_word (store_word m base base) (base + 4) 0) base.
Proof.
  intros Hb Ht. assert (sizeof_header = 8 /\ KERNBASE = 2147483648) as [HS HK] by done. constructor; try done.
  - cbn [links first fst snd]. rewrite load_store_other, !load_store_word by lia. done.
  - by exists [].
  - by repeat constructor.
  - constructor; [|constructor]. cbn [fst snd]. change (extent 0) with sizeof_header. lia.
  - lia.
  - exists 0. by left.
Qed.

Lemma malloc_walk start L A m f w (nu : Z) n len : heap_ok base L A (brk_top w) m f -> (length L <= len)%nat ->
  sizeof_header * (total L + total A) = brk_top w - start -> 1 <= nu -> sizeof_header * nu < 2 ^ 31 -> (2 * len + 2 <= n)%nat ->
  exists r h', malloc_loop n nu f (load_word m f) (mkHeap m f w) = Ret r h' /\ keeps A m (h_mem h') /\
    (r = 0 /\ heap_at start A h' len \/ exists a, r = a + sizeof_header /\ heap_at start ((a, nu) :: A) h' (S len)).
Proof.
  intros Hok Hlen Htot Hnu Hnub Hn. destruct (loop_walk L A _ m f w nu n Hok Hnu ltac:(lia)) as [[Hno E]|(r & h' & E & Hs)].
  2: { exists r, h'. split; [done|]. destruct Hs as (L' & m' & p & a & -> & -> & Hok' & Hk & Ht & Hl). split; [done|]. right. exists a. split; [done|].
       right. exists L'. split; [done|]. split; [lia|]. cbn [h_world]. rewrite total_cons. cbn [snd]. lia. }
  rewrite E. destruct (morecore_ok L A m f w nu (n - length L) Hok Hnu Hnub ltac:(lia)) as (r & h' & Em & [(-> & w' & -> & Hw)|(m' & w' & L' & Hr & -> & Hok' & Hk & Ht & Hl & a & s & Hin & Hs)]).
  - unfold bind. rewrite Em. cbn. eexists _, _. split; [done|]. split; [done|]. left. split; [done|]. right. exists L. cbn. by rewrite Hw.
  - unfold bind. rewrite Em. cbn [bindR]. rewrite (proj2 (Z.eqb_neq _ _)) by done. unfold hptr, get, bind, ret. cbn [bindR h_mem].
    destruct (loop_walk L' A _ m' r w' nu (n - length L) Hok' Hnu ltac:(lia)) as [[Hno' _]|(r2 & h2 & E2 & Hs2)].
    + rewrite Forall_forall in Hno'. specialize (Hno' _ Hin). cbn in Hno'. lia.
    + exists r2, h2. split; [done|]. destruct Hs2 as (L2 & m2 & p2 & a2 & -> & -> & Hok2 & Hk2 & Ht2 & Hl2). split; [by eapply keeps_trans|]. right. exists a2. split; [done|].
      right. exists L2. split; [done|]. split; [lia|]. cbn [h_world]. rewrite total_cons. cbn [snd]. lia.
Qed.

Definition units_for (nbytes : Z) : Z := (nbytes + 7) / 8 + 1.

Lemma malloc_ok start A h len nbytes n : heap_at start A h len -> 0 <= nbytes -> nbytes + 16 <= 2 ^ 31 -> (2 * len + 2 <= n)%nat ->
  exists r h', malloc base n nbytes h = Ret r h' /\ keeps A (h_mem h) (h_mem h') /\
    (r = 0 /\ heap_at start A h' len \/ exists a, r = a + sizeof_header /\ heap_at start ((a, units_for nbytes) :: A) h' (S len)).
Proof.
  intros Hat H0 Hb Hn. destruct h as [m f w]. unfold malloc, get_freep, get, bind, ret. cbn [bindR h_freep].
  assert (u32 (u32 (nbytes + sizeof_header - 1) / sizeof_header + 1) = units_for nbytes /\ 1 <= units_for nbytes /\ sizeof_header * units_for nbytes < 2 ^ 31) as (-> & Hnu & Hnub).
  { unfold units_for, sizeof_header. rewrite (u32_id (nbytes + 8 - 1)) by lia. replace (nbytes + 8 - 1) with (nbytes + 7) by lia.
    pose proof (Z.div_mod (nbytes + 7) 8 ltac:(done)). pose proof (Z.mod_pos_bound (nbytes + 7) 8 ltac:(done)). rewrite u32_id; lia. }
  destruct Hat as [(Hf & -> & Hb0 & Ht & Hs & Hl)|(L & Hok & Hl & Htot)]; cbn [h_mem h_freep h_world] in *.
  - rewrite Hf. cbn [Z.eqb]. unfold set_hptr, set_freep, set_hsize, modify, hptr, get, bind, ret. cbn [bindR h_mem h_freep h_world].
    pose proof (heap_first m w Hb0 Ht) as Hok. destruct (malloc_walk start _ [] _ base w (units_for nbytes) n len Hok) as (r & h' & E & _ & Hr); [cbn; lia|cbn; lia|done|done|done|].
    exists r, h'. rewrite E. split; [done|]. split; [by intros e a ?%elem_of_nil|done].
  - assert (f <> 0) as Hf.
    { destruct Hok as [_ _ _ _ _ Hb0 Hin _ [s Hp]]. apply Forall_app in Hin as [Hin _]. rewrite Forall_forall in Hin. specialize (Hin _ Hp). cbn in Hin. lia. }
    rewrite (proj2 (Z.eqb_neq _ _)) by done. unfold hptr, get, bind, ret. cbn [bindR h_mem]. by apply (malloc_walk start L).
Qed.

End Malloc.

(** ** A program that uses the allocator *)

Inductive heap_op := Malloc (nbytes : Z) | Free (i : nat) | Write (i : nat) (o : nat) (v : Z).

Definition bytes_at m p (n : nat) : list Z := map (fun i => m (p + Z.of_nat i)) (seq 0 n).

Section Client.
Context {W : Type} {BW : Brk W} (base : Z) (fuel : nat).
Abbreviation K := (M (heap W)).

(** The blocks held, each with the bytes the program should find in it. *)
Fixpoint run_heap (ops : list heap_op) (held : list (Z * list Z)) : K (list (Z * list Z)) :=
  match ops with
  | [] => ret held
  | Malloc nbytes :: ops =>
      p <- malloc base fuel nbytes ;;
      h <- get ;;
      run_heap ops (if p =? 0 then held else (p, bytes_at (h_mem h) p (Z.to_nat nbytes)) :: held)
  | Free i :: ops =>
      match held !! i with
      | Some (p, _) => free fuel p ;;; run_heap ops (delete i held)
      | None => run_heap ops held
      end
  | Write i o v :: ops =>
      match held !! i with
      | Some (p, bs) =>
          when (o <? length bs)%nat (modify (fun h => mkHeap (upd (h_mem h) (p + Z.of_nat o) v) (h_freep h) (h_world h))) ;;;
          run_heap ops (<[i := (p, <[o := v]> bs)]> held)
      | None => run_heap ops held
      end
  end.

End Client.

Section Safety.
Context {W : Type} {BW : Brk W} {BL : BrkLaws W} (base : Z).
Implicit Types (h : heap W) (held : list (Z * list Z)).

(** What is held is the blocks [A], with the right bytes. *)
Definition holding h (c : Z * list Z) b : Prop :=
  c.1 = b.1 + sizeof_header /\ Z.of_nat (length c.2) <= sizeof_header * (b.2 - 1) /\ 1 <= b.2 /\ bytes_at (h_mem h) c.1 (length c.2) = c.2.

Lemma bytes_keep h h' A c b : keeps A (h_mem h) (h_mem h') -> b ∈ A -> holding h c b -> holding h' c b.
Proof.
  intros Hk Hb (H1 & H2 & H3 & H4). repeat (split; [done|]). rewrite <- H4 at 2. apply map_ext_in. intros i Hi%in_seq.
  apply (Hk b); [done|]. rewrite extent_eq by done. unfold sizeof_header in *. lia.
Qed.

Lemma holding_keep h h' held A : keeps A (h_mem h) (h_mem h') -> Forall2 (holding h) held A -> Forall2 (holding h') held A.
Proof.
  intros Hk H2. assert (forall X, X ⊆ A -> forall held, Forall2 (holding h) held X -> Forall2 (holding h') held X) as Hg; [|by apply (Hg A)].
  induction X as [|b X IH]; intros HX held' HF; inversion HF; subst; constructor.
  - eapply bytes_keep; [done|apply HX; by left|done].
  - apply IH; [|done]. intros e He. apply HX. by right.
Qed.

Lemma heap_ok_perm L A A' top m f : Permutation A A' -> heap_ok base L A top m f -> heap_ok base L A' top m f.
Proof. intros Hp [H1 H2 H3 H4 H5 H6 H7 H8 H9]. constructor; try done; by rewrite <- Hp. Qed.

Lemma total_perm A A' : Permutation A A' -> total A = total A'.
Proof. induction 1; rewrite ?total_cons; lia. Qed.

Lemma heap_at_perm start A A' h len : Permutation A A' -> heap_at base start A h len -> heap_at base start A' h len.
Proof.
  intros Hp [(H1 & -> & H3)|(L & H1 & H2 & H3)]; [left; split; [done|]; split; [by apply Permutation_nil|done]|]. right. exists L.
  split; [by eapply heap_ok_perm|]. split; [done|]. by rewrite <- (total_perm A A' Hp).
Qed.

Lemma free_at start A h len bp (k : Z) n : heap_at base start ((bp, k) :: A) h len -> (len < n)%nat ->
  exists h', free n (bp + sizeof_header) h = Ret tt h' /\ keeps A (h_mem h) (h_mem h') /\ heap_at base start A h' (S len).
Proof.
  intros [(_ & ? & _)|(L & Hok & Hl & Ht)] Hn; [done|]. destruct h as [m f w]. cbn [h_mem h_freep h_world] in *.
  destruct (free_ok base L A _ m f w bp k n Hok ltac:(lia)) as (m' & p & L' & E & Hok' & Hk & Htot & Hlen & _).
  eexists. split; [exact E|]. split; [done|]. right. exists L'. split; [done|]. split; [lia|]. cbn [h_world]. rewrite total_cons in Ht. cbn [snd] in Ht. lia.
Qed.

(** A write to a block in use. *)
Lemma heap_write start A h len b a v : heap_at base start A h len -> b ∈ A -> b.1 + sizeof_header <= a < b.1 + sizeof_header * b.2 ->
  heap_at base start A (mkHeap (upd (h_mem h) a v) (h_freep h) (h_world h)) len.
Proof.
  intros [(_ & -> & _)|(L & [H1 H2 H3 H4 H5 H6 H7 H8 H9] & Hl & Ht)] Hb Ha; [by apply elem_of_nil in Hb|]. right. exists L. split; [|done]. cbn [h_mem h_freep h_world] in *.
  assert (forall e c, e ∈ L ++ A -> e.1 <= c < e.1 + sizeof_header -> upd (h_mem h) a v c = h_mem h c) as Hout.
  { intros e c He Hc. apply upd_ne. intros ->. assert (extent b.2 = sizeof_header * b.2) as Eb by (rewrite Forall_forall in H4; apply extent_eq; by apply H4).
    apply elem_of_app in He as [He|He].
    - apply pairwise_app in H5 as (_ & _ & H5). specialize (H5 e b He Hb). unfold apart in H5. pose proof (extent_pos e.2). lia.
    - destruct (decide (e = b)) as [->|Hne]; [lia|]. apply pairwise_app in H5 as (_ & H5 & _). apply list_elem_of_split in Hb as (X & Y & ->).
      rewrite <- Permutation_middle in H5, He. destruct H5 as [H5 _]. rewrite Forall_forall in H5. apply elem_of_cons in He as [->|He]; [done|].
      specialize (H5 e He). unfold apart in H5. pose proof (extent_pos e.2). lia. }
  constructor; try done.
  - apply (links_frame (h_mem h)); [|done]. intros e c He. apply Hout, elem_of_app. by left.
  - rewrite Forall_forall in H4 |- *. intros e He. destruct (H4 e He) as [He1 He2]. split; [done|]. rewrite (load_word_frame (h_mem h)); [done|].
    intros c Hc. apply (Hout e); [apply elem_of_app; by right|]. unfold sizeof_header. lia.
Qed.

Lemma bytes_lookup m p n i : bytes_at m p n !! i = if (i <? n)%nat then Some (m (p + Z.of_nat i)) else None.
Proof.
  unfold bytes_at. rewrite list_lookup_fmap. destruct (Nat.ltb_spec i n).
  - rewrite lookup_seq_lt by done. done.
  - rewrite lookup_seq_ge by done. done.
Qed.

Lemma bytes_length m p n : length (bytes_at m p n) = n.
Proof. unfold bytes_at. by rewrite length_map, length_seq. Qed.

Lemma bytes_upd m p (bs : list Z) o v : bytes_at m p (length bs) = bs -> bytes_at (upd m (p + Z.of_nat o) v) p (length bs) = <[o := v]> bs.
Proof.
  intros Hb. apply list_eq. intros i. rewrite bytes_lookup, list_lookup_insert. destruct (Nat.ltb_spec i (length bs)) as [Hi|Hi].
  - destruct (decide (o = i /\ (o < length bs)%nat)) as [[-> _]|Hne]; [by rewrite upd_eq|]. rewrite upd_ne by (intros E; apply Hne; lia).
    transitivity (bytes_at m p (length bs) !! i); [|by rewrite Hb]. rewrite bytes_lookup. by destruct (Nat.ltb_spec i (length bs)); [|lia].
  - destruct (decide (o = i /\ (o < length bs)%nat)) as [[-> ?]|Hne]; [lia|]. symmetry. by apply lookup_ge_None.
Qed.

Lemma holding_write h held A i p bs b o v : pairwise A -> Forall2 (holding h) held A -> held !! i = Some (p, bs) -> A !! i = Some b -> (o < length bs)%nat ->
  Forall2 (holding (mkHeap (upd (h_mem h) (p + Z.of_nat o) v) (h_freep h) (h_world h))) (<[i := (p, <[o := v]> bs)]> held) A.
Proof.
  intros Hpw HF Hi Hb Ho. destruct (Forall2_lookup_lr _ _ _ _ _ _ HF Hi Hb) as (B1 & B2 & B3 & B4). cbn [fst snd] in *.
  apply Forall2_same_length_lookup_2; [rewrite length_insert; by eapply Forall2_length|]. intros j c e Hc He. destruct (decide (j = i)) as [->|Hne].
  - rewrite list_lookup_insert_eq in Hc by (by eapply lookup_lt_Some). simplify_eq. unfold holding. cbn [fst snd h_mem]. rewrite length_insert.
    repeat (split; [done|]). by apply bytes_upd.
  - rewrite list_lookup_insert_ne in Hc by done. destruct (Forall2_lookup_lr _ _ _ _ _ _ HF Hc He) as (C1 & C2 & C3 & C4). unfold holding. cbn [h_mem].
    repeat (split; [done|]). rewrite <- C4 at 2. apply map_ext_in. intros k Hk%in_seq. apply upd_ne. intros E.
    assert (apart b e) as Ha.
    { rewrite (delete_Permutation A i b Hb) in Hpw. destruct Hpw as [Hpw _]. rewrite Forall_forall in Hpw. apply Hpw.
      apply list_elem_of_lookup. destruct (decide (j < i)%nat); [exists j; by rewrite list_lookup_delete_lt|exists (pred j)].
      rewrite list_lookup_delete_ge by lia. by replace (S (pred j)) with j by lia. }
    unfold apart in Ha. rewrite !extent_eq in Ha by done. unfold sizeof_header in *. lia.
Qed.

Definition request_ok (op : heap_op) : Prop := match op with Malloc n => 0 <= n /\ n + 16 <= 2 ^ 31 | _ => True end.

Lemma heap_pairwise start A h len : heap_at base start A h len -> pairwise A.
Proof. intros [(_ & -> & _)|(L & [_ _ _ _ H5 _ _ _ _] & _)]; [done|]. by apply pairwise_app in H5 as (_ & H5 & _). Qed.

Lemma heap_at_le start A h len len' : (len <= len')%nat -> heap_at base start A h len -> heap_at base start A h len'.
Proof. intros Hle [(H1 & H2 & H3 & H4 & H5 & H6)|(L & H1 & H2 & H3)]; [left|right; exists L]; repeat (split; [done|]); [lia|]. split; [lia|done]. Qed.

Lemma run_heap_ok start fuel ops : forall held A h len, Forall request_ok ops -> heap_at base start A h len -> Forall2 (holding h) held A ->
  (2 * (len + length ops) + 2 <= fuel)%nat ->
  exists held' A' h', run_heap base fuel ops held h = Ret held' h' /\ heap_at base start A' h' (len + length ops) /\ Forall2 (holding h') held' A'.
Proof.
  induction ops as [|op ops IH]; intros held A h len Hrq Hat HF Hfuel; cbn [length] in *.
  { exists held, A, h. split; [done|]. split; [|done]. by rewrite Nat.add_0_r. }
  apply Forall_cons in Hrq as [Hop Hrq].
  assert (forall held A h, heap_at base start A h (S len) -> Forall2 (holding h) held A ->
    exists held' A' h', run_heap base fuel ops held h = Ret held' h' /\ heap_at base start A' h' (len + S (length ops)) /\ Forall2 (holding h') held' A') as Hgo.
  { intros held1 A1 h1 Hat1 HF1. replace (len + S (length ops))%nat with (S len + length ops)%nat by lia. apply (IH held1 A1 h1 (S len)); [done|done|done|lia]. }
  destruct op as [nbytes|i|i o v]; cbn [run_heap].
  - destruct Hop as [Hn1 Hn2]. destruct (malloc_ok base start A h len nbytes fuel Hat Hn1 Hn2 ltac:(lia)) as (r & h' & E & Hk & Hr).
    unfold get, bind. rewrite E. cbn [bindR]. destruct Hr as [[-> Hat']|(a & -> & Hat')].
    + cbn [Z.eqb]. apply (Hgo held A); [by apply (heap_at_le start A h' len); [lia|]|by apply (holding_keep h)].
    + assert (0 < a) as Ha.
      { destruct Hat' as [(_ & ? & _)|(L & [_ _ _ _ _ Hb Hin _ _] & _)]; [done|]. apply Forall_app in Hin as [_ Hin]. apply Forall_cons in Hin as [[Hin _] _]. cbn in Hin. lia. }
      rewrite (proj2 (Z.eqb_neq _ _)) by (unfold sizeof_header; lia). apply (Hgo _ ((a, units_for nbytes) :: A)); [done|]. constructor; [|by apply (holding_keep h)].
      unfold holding. cbn [fst snd]. rewrite bytes_length. split; [done|]. unfold units_for, sizeof_header.
      pose proof (Z.div_mod (nbytes + 7) 8 ltac:(done)). pose proof (Z.mod_pos_bound (nbytes + 7) 8 ltac:(done)). split; [lia|]. split; [lia|done].
  - destruct (held !! i) as [[p bs]|] eqn:Hi; [|apply (Hgo held A); [by apply (heap_at_le start A h len); [lia|]|done]].
    destruct (Forall2_lookup_l _ _ _ _ _ HF Hi) as ([bp k] & Hb & B1 & _). cbn [fst] in B1. subst p.
    destruct (free_at start (delete i A) h len bp k fuel) as (h' & E & Hk & Hat'); [|lia|].
    { eapply heap_at_perm; [|exact Hat]. by apply delete_Permutation. }
    unfold bind. rewrite E. cbn [bindR]. apply (Hgo _ (delete i A)); [done|]. apply (holding_keep h); [done|]. by apply Forall2_delete.
  - destruct (held !! i) as [[p bs]|] eqn:Hi; [|apply (Hgo held A); [by apply (heap_at_le start A h len); [lia|]|done]].
    destruct (Forall2_lookup_l _ _ _ _ _ HF Hi) as (b & Hb & HB). unfold bind, when. destruct (Nat.ltb_spec o (length bs)) as [Ho|Ho].
    + cbn [bindR modify]. apply (Hgo _ A).
      * apply (heap_at_le start A _ len); [lia|]. destruct HB as (B1 & B2 & B3 & _). cbn [fst snd] in *. apply (heap_write start A h len b); [done|by eapply list_elem_of_lookup_2|].
        unfold sizeof_header in *. lia.
      * eapply holding_write; [by eapply heap_pairwise|done|done|done|done].
    + cbn [bindR ret]. rewrite (list_insert_ge bs) by done. rewrite list_insert_id by done.
      apply (Hgo held A); [by apply (heap_at_le start A h len); [lia|]|done].
Qed.


End Safety.

(** ** An example *)

(** Memory that can grow up to 256 KiB. *)
#[export] Instance small_brk : Brk Z := { sbrk n w := if w + n <=? 0x40000 then (w, w + n) else (2 ^ 32 - 1, w) }.

#[export] Instance small_laws : BrkLaws Z.
Proof.
  refine {| brk_top w := w |}. intros n w Hn. cbn. destruct (Z.leb_spec (w + n) 0x40000); [right; unfold KERNBASE; lia|by left].
Defined.

Definition heap_ops : list heap_op := [Malloc 10; Malloc 200; Write 0 3 65; Malloc 40000; Write 1 0 66; Free 2; Malloc 8; Free 0; Malloc 3].

