(* ===== verification/UserProgs.v ===== *)
(** The small user programs: wc.c, cat.c, echo.c, ls.c, ln.c, mkdir.c, rm.c, kill.c.

    Each program is a function over the world of its system calls ([Sys] of Ulib, and
    [SysMore] for the calls that only these programs make).  A buffer that a [read] fills
    and that is consumed before the next one is the list of bytes the call stored; a
    string is the list of its bytes.  A function that may leave through [exit()] answers
    [false] when it did.  Messages go out byte by byte, as [printf] writes them.

    [wc] is proved to count the lines, words and bytes of its input however the reads
    cut it, and [cat] to copy it. *)

From stdpp Require Import base tactics list strings.
From Stdlib Require Import ZArith Lia.
From S2P Require Import Prelude Params StringC Ulib Grep.
Open Scope Z_scope.

(** The calls of these programs that [Sys] does not have. *)
Class SysMore (W : Type) := {
  sys_unlink : list Z -> W -> Z * W;
  sys_mkdir : list Z -> W -> Z * W;
  sys_link : list Z -> list Z -> W -> Z * W;
  sys_kill : Z -> W -> Z * W
}.

(** What [%d] prints: the argument as an [int]. *)
Definition decimal (x : Z) : list Z := reverse (int_buf (i32 x) 10 1).

Section Programs.
Context {W : Type} `{Sys W} `{SysMore W}.
#[local] Notation "'P' A" := (M W A) (at level 10, A at next level).

Definition say (fd : Z) (bs : list Z) : P unit := modify (emit fd bs).

(** A system call: it answers and changes the world. *)
Definition call {A : Type} (f : W -> A * W) : P A := fun w => let '(a, w) := f w in Ret a w.

Definition uread (fd n : Z) : P (Z * list Z) := call (sys_read fd n).
Definition uwrite (fd : Z) (bs : list Z) : P Z := call (sys_write fd bs).
Definition uopen (path : list Z) (mode : Z) : P Z := call (sys_open path mode).
Definition uclose (fd : Z) : P Z := call (sys_close fd).
Definition ufstat (fd : Z) : P (Z * stat) := call (sys_fstat fd).

(** ** wc.c *)

(** The locals [l], [w], [c] and [inword] of [wc]. *)
Record counts := mkCounts { cl : Z; cw : Z; cc : Z; inword : bool }.

(** [strchr(" \r\t\n\v", c)] *)
Definition wc_space (c : Z) : bool := existsb (Z.eqb c) [32; 13; 9; 10; 11].

(** The body of the loop over the buffer. *)
Definition wc_char (k : counts) (b : Z) : counts :=
  let c := i32 (cc k + 1) in
  let l := if b =? 10 then i32 (cl k + 1) else cl k in
  if wc_space b then mkCounts l (cw k) c false
  else if negb (inword k) then mkCounts l (i32 (cw k + 1)) c true
  else mkCounts l (cw k) c (inword k).

(** [while((n = read(fd, buf, sizeof(buf))) > 0) ...]: the last [n] and the counts. *)
Fixpoint wc_loop (fd : Z) (k : counts) (fuel : nat) : P (Z * counts) :=
  match fuel with
  | O => fuel_out
  | S fuel =>
      r <- uread fd 512 ;;
      let '(n, bs) := r in
      if 0 <? n then wc_loop fd (foldl wc_char k bs) fuel else ret (n, k)
  end.

Definition wc (fd : Z) (name : list Z) (fuel : nat) : P bool :=
  r <- wc_loop fd (mkCounts 0 0 0 false) fuel ;;
  let '(n, k) := r in
  if n <? 0 then say 1 (bytes_of "wc: read error" ++ [10]) ;;; ret false
  else
    say 1 (decimal (cl k) ++ [32] ++ decimal (cw k) ++ [32] ++ decimal (cc k) ++ [32] ++ name ++ [10]) ;;;
    ret true.

Fixpoint wc_files (files : list (list Z)) (fuel : nat) : P unit :=
  match files with
  | [] => ret tt
  | f :: files =>
      fd <- uopen f 0 ;;
      if fd <? 0 then say 1 (bytes_of "wc: cannot open " ++ f ++ [10]) else
      go <- wc fd f fuel ;;
      if go : bool then uclose fd ;;; wc_files files fuel else ret tt
  end.

Definition wc_main (argv : list (list Z)) (fuel : nat) : P unit :=
  match argv with
  | _ :: f :: files => wc_files (f :: files) fuel
  | _ => wc 0 [] fuel ;;; ret tt
  end.

(** ** cat.c *)

Fixpoint cat (fd : Z) (fuel : nat) : P bool :=
  match fuel with
  | O => fuel_out
  | S fuel =>
      r <- uread fd 512 ;;
      let '(n, bs) := r in
      if 0 <? n then
        k <- uwrite 1 bs ;;
        if negb (k =? n) then say 1 (bytes_of "cat: write error" ++ [10]) ;;; ret false
        else cat fd fuel
      else if n <? 0 then say 1 (bytes_of "cat: read error" ++ [10]) ;;; ret false
      else ret true
  end.

Fixpoint cat_files (files : list (list Z)) (fuel : nat) : P unit :=
  match files with
  | [] => ret tt
  | f :: files =>
      fd <- uopen f 0 ;;
      if fd <? 0 then say 1 (bytes_of "cat: cannot open " ++ f ++ [10]) else
      go <- cat fd fuel ;;
      if go : bool then uclose fd ;;; cat_files files fuel else ret tt
  end.

Definition cat_main (argv : list (list Z)) (fuel : nat) : P unit :=
  match argv with
  | _ :: f :: files => cat_files (f :: files) fuel
  | _ => cat 0 fuel ;;; ret tt
  end.

(** ** echo.c *)

Fixpoint echo_args (args : list (list Z)) : P unit :=
  match args with
  | [] => ret tt
  | a :: args => say 1 (a ++ match args with [] => [10] | _ => [32] end) ;;; echo_args args
  end.
Definition echo_main (argv : list (list Z)) : P unit := echo_args (tail argv).

(** ** ls.c *)

(** [for(p=path+strlen(path); p >= path && *p != '/'; p--) ; p++;]: what follows the
    last slash, all of the path if it has none.  Looking from the left, a path whose
    tail still has a slash continues in the tail. *)
Fixpoint after_slash (path : list Z) : list Z :=
  match path with
  | [] => []
  | c :: rest =>
      if existsb (Z.eqb 47) rest then after_slash rest
      else if c =? 47 then rest else c :: rest
  end.

(** The static buffer has [DIRSIZ+1] bytes and its last one is never written. *)
Definition fmtname (path : list Z) : list Z :=
  let p := after_slash path in
  if (14 <=? length p)%nat then p else p ++ replicate (14 - length p) 32.

Definition ls_line (name : list Z) (st : stat) : P unit :=
  say 1 (name ++ [32] ++ decimal (st_type st) ++ [32] ++ decimal (st_ino st) ++ [32] ++
         decimal (st_size st) ++ [10]).

(** [stat(buf, &st)] of ulib.c. *)
Definition ustat (path : list Z) : P (Z * option stat) :=
  fd <- uopen path 0 ;;
  if fd <? 0 then ret (-1, None) else
  r <- ufstat fd ;;
  uclose fd ;;;
  ret (fst r, Some (snd r)).

(** [while(read(fd, &de, sizeof(de)) == sizeof(de)) ...]; [dir] is the path and a slash. *)
Fixpoint ls_dir (fd : Z) (dir : list Z) (fuel : nat) : P unit :=
  match fuel with
  | O => fuel_out
  | S fuel =>
      r <- uread fd 16 ;;
      let '(n, de) := r in
      if negb (n =? 16) then ret tt else
      if (nth 0 de 0 + 256 * nth 1 de 0) =? 0 then ls_dir fd dir fuel else
      let buf := dir ++ until_nul (take 14 (drop 2 de)) in
      s <- ustat buf ;;
      match s with
      | (r, Some st) =>
          (if r <? 0 then say 1 (bytes_of "ls: cannot stat " ++ buf ++ [10])
           else ls_line (fmtname buf) st) ;;; ls_dir fd dir fuel
      | (_, None) => say 1 (bytes_of "ls: cannot stat " ++ buf ++ [10]) ;;; ls_dir fd dir fuel
      end
  end.

Definition ls (path : list Z) (fuel : nat) : P unit :=
  fd <- uopen path 0 ;;
  if fd <? 0 then say 2 (bytes_of "ls: cannot open " ++ path ++ [10]) else
  r <- ufstat fd ;;
  let '(k, st) := r in
  if k <? 0 then
    say 2 (bytes_of "ls: cannot stat " ++ path ++ [10]) ;;; uclose fd ;;; ret tt
  else
  (if st_type st =? T_FILE then ls_line (fmtname path) st
   else if st_type st =? T_DIR then
     if Z.of_nat (length path) + 1 + 14 + 1 >? 512 then say 1 (bytes_of "ls: path too long" ++ [10])
     else ls_dir fd (path ++ [47]) fuel
   else ret tt) ;;;
  uclose fd ;;;
  ret tt.

Definition ls_main (argv : list (list Z)) (fuel : nat) : P unit :=
  match argv with
  | _ :: f :: files => for_each (f :: files) (fun p => ls p fuel)
  | _ => ls [46] fuel
  end.

(** ** ln.c, mkdir.c, rm.c, kill.c *)

Definition ln_main (argv : list (list Z)) : P unit :=
  match argv with
  | [_; old; new] =>
      r <- call (sys_link old new) ;;
      if r <? 0 then say 2 (bytes_of "link " ++ old ++ [32] ++ new ++ bytes_of ": failed" ++ [10])
      else ret tt
  | _ => say 2 (bytes_of "Usage: ln old new" ++ [10])
  end.

Fixpoint mkdir_args (args : list (list Z)) : P unit :=
  match args with
  | [] => ret tt
  | a :: args =>
      r <- call (sys_mkdir a) ;;
      if r <? 0 then say 2 (bytes_of "mkdir: " ++ a ++ bytes_of " failed to create" ++ [10])
      else mkdir_args args
  end.
Definition mkdir_main (argv : list (list Z)) : P unit :=
  match argv with
  | _ :: a :: args => mkdir_args (a :: args)
  | _ => say 2 (bytes_of "Usage: mkdir files..." ++ [10])
  end.

Fixpoint rm_args (args : list (list Z)) : P unit :=
  match args with
  | [] => ret tt
  | a :: args =>
      r <- call (sys_unlink a) ;;
      if r <? 0 then say 2 (bytes_of "rm: " ++ a ++ bytes_of " failed to delete" ++ [10])
      else rm_args args
  end.
Definition rm_main (argv : list (list Z)) : P unit :=
  match argv with
  | _ :: a :: args => rm_args (a :: args)
  | _ => say 2 (bytes_of "Usage: rm files..." ++ [10])
  end.

(** [atoi] of an argument, on its bytes. *)
Definition atoi_list (a : list Z) : Z :=
  (fix go (l : list Z) (n : Z) : Z :=
     match l with
     | c :: l => if (48 <=? c) && (c <=? 57) then go l (i32 (n * 10 + c - 48)) else n
     | [] => n
     end) a 0.
Definition kill_main (argv : list (list Z)) : P unit :=
  match argv with
  | _ :: a :: args => for_each (a :: args) (fun a => call (sys_kill (atoi_list a)) ;;; ret tt)
  | _ => say 2 (bytes_of "usage: kill pid..." ++ [10])
  end.

End Programs.

(** ** Streams

    What the programs rely on: [rest] is what is left to read from [fd] up to the end
    of the input, a read delivers a first part of it that is empty only at the end, and
    [written] is what went to the standard output. *)
Class Stream (W : Type) `{Sys W} (fd : Z) := {
  rest : W -> list Z;
  written : W -> list Z;
  stream_read n w : 0 < n -> let '(k, bs, w') := sys_read fd n w in
    k = Z.of_nat (length bs) /\ (bs <> [] -> rest w = bs ++ rest w') /\ (bs = [] -> rest w = []) /\
    written w' = written w;
  stream_write bs w : let '(k, w') := sys_write 1 bs w in
    k = Z.of_nat (length bs) /\ written w' = written w ++ bs /\ rest w' = rest w
}.

(** The words of a text: its maximal runs of bytes that are not spaces; [cur] is the
    word being read, backwards. *)
Definition close_word (cur : list Z) : list (list Z) :=
  match cur with [] => [] | _ => [reverse cur] end.
Fixpoint words_from (cur l : list Z) : list (list Z) :=
  match l with
  | [] => close_word cur
  | b :: l => if wc_space b then close_word cur ++ words_from [] l else words_from (b :: cur) l
  end.
Definition words (l : list Z) : list (list Z) := words_from [] l.

Definition newlines (l : list Z) : nat := length (filter (fun b => b = 10) l).

(** What [wc] prints for a text. *)
Definition wc_report (name l : list Z) : list Z :=
  decimal (Z.of_nat (newlines l)) ++ [32] ++ decimal (Z.of_nat (length (words l))) ++ [32] ++
  decimal (Z.of_nat (length l)) ++ [32] ++ name ++ [10].

Lemma words_from_concat l : forall cur, concat (words_from cur l) = reverse cur ++ filter (fun b => wc_space b = false) l.
Proof.
  assert (Hc : forall cur, concat (close_word cur) = reverse cur).
  { intros [|c cur]; [done|]. simpl. by rewrite app_nil_r. }
  induction l as [|b l IH]; intros cur; simpl.
  - by rewrite Hc, filter_nil, app_nil_r.
  - rewrite filter_cons. destruct (wc_space b) eqn:E.
    + rewrite concat_app, Hc, IH. by destruct (decide _).
    + rewrite IH, reverse_cons. destruct (decide _); [|done]. by rewrite <-app_assoc.
Qed.

Lemma words_concat l : concat (words l) = filter (fun b => wc_space b = false) l.
Proof. apply words_from_concat. Qed.

Lemma words_nonempty l : Forall (fun w => w <> []) (words l).
Proof.
  assert (Hc : forall cur, Forall (fun w => w <> []) (close_word cur)).
  { intros [|c cur]; constructor; [|done]. rewrite reverse_cons. by destruct (reverse cur). }
  enough (H : forall cur, Forall (fun w => w <> []) (words_from cur l)) by apply H.
  induction l as [|b l IH]; intros cur; simpl; [apply Hc|].
  destruct (wc_space b); [|apply IH]. apply Forall_app_2; auto.
Qed.

(** [k] holds the counts of a text that [cur] ends with. *)
Lemma wc_chars l : forall k cur,
  inword k = negb (match cur with [] => true | _ => false end) ->
  0 <= cl k -> 0 <= cw k -> 0 <= cc k ->
  cl k + Z.of_nat (length l) < 2 ^ 31 -> cw k + Z.of_nat (length l) < 2 ^ 31 ->
  cc k + Z.of_nat (length l) < 2 ^ 31 ->
  let k' := foldl wc_char k l in
  cl k' = cl k + Z.of_nat (newlines l) /\ cc k' = cc k + Z.of_nat (length l) /\
  cw k' + (if inword k then 1 else 0) = cw k + Z.of_nat (length (words_from cur l)).
Proof.
  induction l as [|b l IH]; intros k cur Hin Hl Hw Hc Bl Bw Bc; simpl.
  - change (newlines []) with O. destruct cur as [|c cur]; simpl in *; rewrite Hin; lia.
  - assert (Hlines : Z.of_nat (newlines (b :: l)) = (if b =? 10 then 1 else 0) + Z.of_nat (newlines l)).
    { unfold newlines. rewrite filter_cons. destruct (decide _), (Z.eqb_spec b 10); simpl; lia. }
    simpl in Bl, Bw, Bc. rewrite Hlines.
    set (k1 := wc_char k b).
    assert (Hk1 : cl k1 = cl k + (if b =? 10 then 1 else 0) /\ cc k1 = cc k + 1 /\
      cw k1 = (if wc_space b || inword k then cw k else cw k + 1) /\ inword k1 = negb (wc_space b)).
    { subst k1. unfold wc_char. rewrite !i32_id by lia.
      destruct (b =? 10), (wc_space b), (inword k); simpl; lia. }
    clearbody k1. destruct Hk1 as (El & Ec & Ew & Ei).
    destruct (wc_space b) eqn:Eb; simpl in Ew, Ei.
    + destruct (IH k1 []) as (L & C & V); try (simpl; destruct (b =? 10); lia); [done|].
      rewrite Ei in V. rewrite length_app. simpl. rewrite L, C, El, Ec.
      destruct cur; simpl in *; rewrite Hin; repeat split; try (destruct (b =? 10)); simpl; lia.
    + destruct (IH k1 (b :: cur)) as (L & C & V);
        try (destruct (b =? 10), (inword k); simpl; lia); [done|].
      rewrite Ei in V. simpl in V. rewrite L, C, El, Ec. destruct (inword k); lia.
Qed.

Section Laws.
Context {W : Type} `{Sys W} (fd : Z) `{!Stream W fd}.

Lemma bind_call {A B : Type} (f : W -> A * W) (g : A -> M W B) w a w' :
  f w = (a, w') -> bind (call f) g w = g a w'.
Proof. intros E. unfold call, bind. by rewrite E. Qed.

(** Output leaves the input alone. *)
Lemma emit_written bs : forall w,
  written (emit 1 bs w) = written w ++ bs /\ rest (emit 1 bs w) = rest w.
Proof.
  induction bs as [|b bs IH]; intros w; simpl; [by rewrite app_nil_r|].
  pose proof (stream_write [b] w) as Hw. destruct (sys_write 1 [b] w) as [k w'].
  destruct Hw as (_ & Hw & Hr). simpl. destruct (IH w') as [-> ->].
  by rewrite Hw, Hr, <-app_assoc.
Qed.

Lemma wc_loop_counts fuel : forall k w, (length (rest w) < fuel)%nat ->
  exists w', wc_loop fd k fuel w = Ret (0, foldl wc_char k (rest w)) w' /\
    written w' = written w.
Proof.
  induction fuel as [|fuel IH]; intros k w Hf; [lia|]. cbn [wc_loop].
  pose proof (stream_read 512 w ltac:(lia)) as Hr.
  destruct (sys_read fd 512 w) as [[n bs] w'] eqn:E. destruct Hr as (-> & Hr & He & Hw).
  unfold uread. rewrite (bind_call _ _ _ _ _ E). destruct bs as [|b bs].
  - simpl. exists w'. by rewrite (He eq_refl).
  - specialize (Hr ltac:(done)). cbn [length]. destruct (Z.ltb_spec 0 (Z.of_nat (Datatypes.S (length bs)))); [|lia].
    rewrite Hr in Hf. rewrite length_app in Hf. simpl in Hf.
    destruct (IH (foldl wc_char k (b :: bs)) w') as (w2 & Ew & V); [lia|].
    exists w2. rewrite Ew, Hr, foldl_app, V. auto.
Qed.

End Laws.

(** ** The instances

    The input of Grep's [pieces] ends at an empty piece: a read that gives nothing is the
    end of the input. *)
Fixpoint pieces_rest (l : list (list Z)) : list Z :=
  match l with
  | [] | [] :: _ => []
  | bs :: l => bs ++ pieces_rest l
  end.

Definition outputs (l : list (Z * list Z)) : list Z :=
  concat (snd <$> filter (fun x => fst x = 1) l).

Lemma outputs_snoc l fd bs : outputs (l ++ [(fd, bs)]) = outputs l ++ (if fd =? 1 then bs else []).
Proof.
  unfold outputs. rewrite filter_app, fmap_app, concat_app, filter_cons. f_equal.
  simpl. destruct (decide _), (Z.eqb_spec fd 1); try done. simpl. by rewrite app_nil_r.
Qed.

#[global, refine] Instance pieces_stream fd : Stream pieces fd := {|
  rest w := pieces_rest (p_in w);
  written w := outputs (p_out w)
|}.
Proof.
  - intros n [ins outs] Hn. simpl. destruct ins as [|bs ins]; [done|]. simpl.
    split_and!; [done| | |done].
    + destruct (Z.leb_spec (Z.of_nat (length bs)) n) as [Hle|Hle].
      * intros Hb. rewrite take_ge in * by lia. by destruct bs.
      * intros _. destruct bs as [|b bs]; [simpl in Hle; lia|].
        destruct (drop (Z.to_nat n) (b :: bs)) as [|d ds] eqn:Ed.
        { apply (f_equal length) in Ed. rewrite length_drop in Ed. simpl in *. lia. }
        change (pieces_rest ((b :: bs) :: ins)) with ((b :: bs) ++ pieces_rest ins).
        change (pieces_rest ((d :: ds) :: ins)) with ((d :: ds) ++ pieces_rest ins).
        by rewrite app_assoc, <-Ed, take_drop.
    + destruct bs as [|b bs]; [done|]. by destruct (Z.to_nat n) eqn:En; [lia|].
  - intros bs [ins outs]. simpl. split_and!; [done| |done]. apply outputs_snoc.
Defined.

(** ** Theorems *)

(** [wc] prints the number of lines, words and bytes of its input, however the
    reads cut it: a word is a maximal run of bytes other than blanks, so one that is cut
    by the end of a buffer counts once.  The counters are [int]s, so the input has fewer
    than 2^31 bytes. *)
Theorem wc_counts {W : Type} `{Sys W} (fd : Z) `{!Stream W fd} (name : list Z) (fuel : nat) (w : W) :
  Z.of_nat (length (rest w)) < 2 ^ 31 -> (length (rest w) < fuel)%nat ->
  exists w', wc fd name fuel w = Ret true w' /\
    written w' = written w ++ wc_report name (rest w).
Proof.
  intros Hlen Hf. unfold wc.
  destruct (wc_loop_counts fd fuel (mkCounts 0 0 0 false) w Hf) as (w1 & E & V).
  destruct (wc_chars (rest w) (mkCounts 0 0 0 false) []) as (L & C & Ws);
    [done | simpl; lia .. |].
  rewrite (bind_Ret _ _ _ _ _ E). change (0 <? 0) with false. cbv beta iota.
  unfold say. rewrite bind_modify. unfold ret.
  replace (cl _) with (Z.of_nat (newlines (rest w))) by (rewrite L; simpl; lia).
  replace (cw _) with (Z.of_nat (length (words (rest w)))) by (unfold words; simpl in Ws; lia).
  replace (cc _) with (Z.of_nat (length (rest w))) by (rewrite C; simpl; lia).
  eexists. split; [done|]. destruct (emit_written fd (wc_report name (rest w)) w1) as [E1 _].
  unfold wc_report in E1 at 1. by rewrite E1, V.
Qed.

(** "ab cd\ne" in three pieces that cut both words, counted as 1 line, 3 words, 7 bytes. *)
Lemma wc_counts_witness : exists w',
  wc 0 [120] 10 (mkPieces [[97]; [98; 32; 99]; [100; 10; 101]] []) = Ret true w' /\
  written (fd := 0) w' = [49; 32; 51; 32; 55; 32; 120; 10].
Proof.
  destruct (wc_counts 0 [120] 10 (mkPieces [[97]; [98; 32; 99]; [100; 10; 101]] []))
    as (w' & E & V); [vm_compute; reflexivity | apply Nat.ltb_lt; vm_compute; reflexivity|].
  exists w'. split; [exact E | rewrite V; vm_compute; reflexivity].
Defined.

(** [cat] writes what it reads and nothing else, however reads cut the input. *)
Theorem cat_copies {W : Type} `{Sys W} (fd : Z) `{!Stream W fd} (fuel : nat) (w : W) :
  (length (rest w) < fuel)%nat ->
  exists w', cat fd fuel w = Ret true w' /\ written w' = written w ++ rest w.
Proof.
  revert w. induction fuel as [|fuel IH]; intros w Hf; [lia|]. cbn [cat].
  pose proof (stream_read 512 w ltac:(lia)) as Hr.
  destruct (sys_read fd 512 w) as [[n bs] w'] eqn:E. destruct Hr as (-> & Hr & He & Hw).
  unfold uread. rewrite (bind_call _ _ _ _ _ E). destruct bs as [|b bs].
  - simpl. exists w'. by rewrite (He eq_refl), app_nil_r.
  - specialize (Hr ltac:(done)). pose proof (stream_write (b :: bs) w') as Ho.
    destruct (sys_write 1 (b :: bs) w') as [k w2] eqn:E2. destruct Ho as (-> & Ho & Hr2).
    destruct (Z.ltb_spec 0 (Z.of_nat (length (b :: bs)))) as [_|Hb]; [|simpl in Hb; lia].
    unfold uwrite. rewrite (bind_call _ _ _ _ _ E2), Z.eqb_refl. cbn [negb].
    rewrite Hr, length_app in Hf. simpl in Hf.
    destruct (IH w2) as (w3 & Ew & V); [rewrite Hr2; lia|].
    exists w3. rewrite Ew, V, Ho, Hr, Hr2, Hw, <-app_assoc. auto.
Qed.

Lemma cat_copies_witness : exists w',
  cat 0 10 (mkPieces [[97]; [98; 10]; [99]] []) = Ret true w' /\
  written (fd := 0) w' = [97; 98; 10; 99].
Proof.
  destruct (cat_copies 0 10 (mkPieces [[97]; [98; 10]; [99]] [])) as (w' & E & V);
    [apply Nat.ltb_lt; vm_compute; reflexivity|].
  exists w'. split; [exact E | rewrite V; vm_compute; reflexivity].
Defined.
