(* ===== verification/Console.v ===== *)
(** * The console (console.c, kbd.c, uart.c)

    The state of the drivers, the devices behind their I/O ports, and every function of
    the three files.  The devices are a parameter [D] with the effect of [inb] and [outb]
    ([Devices]); the inode lock that [consoleread] and [consolewrite] give up while they
    wait, [procdump] and [ioapicenable] are the interface [ConsoleCalls].

    The bytes of [input.buf] are unsigned here: its readers compare them with characters
    below 128 only and store them as bytes. *)

From stdpp Require Import base tactics list sets strings.
From Stdlib Require Import ZArith Lia.
From S2P Require Import Prelude Params StringC Spinlock ProcState Comp.
Open Scope Z_scope.

Definition u8 (z : Z) : Z := z mod 256.

(** The devices: [inb] answers a byte, both may change them. *)
Class Devices (D : Type) := {
  dev_in : Z -> D -> Z * D;
  dev_out : Z -> Z -> D -> D
}.

Definition INPUT_BUF : Z := 128.
Definition BACKSPACE : Z := 0x100.
Definition CRTPORT : Z := 0x3d4.
Definition COM1 : Z := 0x3f8.

Section State.
Context {D : Type}.

Record console := mkConsole {
  cons_lock : spinlock;   (* cons.lock *)
  cons_locking : Z;   (* cons.locking *)
  panicked : Z;
  in_buf : list Z;   (* input.buf *)
  in_r : Z;
  in_w : Z;
  in_e : Z;
  crt : memory;   (* CGA memory, a cell of 16 bits at every index *)
  shift : Z;   (* the static of kbdgetc *)
  uart : Z;   (* the static of uart.c *)
  cons_dev : bool;   (* devsw[CONSOLE] holds consoleread and consolewrite *)
  devs : D
}.
Definition set_cons_lock (v : spinlock) (r : console) : console :=
  mkConsole v (cons_locking r) (panicked r) (in_buf r) (in_r r) (in_w r) (in_e r) (crt r) (shift r) (uart r) (cons_dev r) (devs r).
Definition set_cons_locking (v : Z) (r : console) : console :=
  mkConsole (cons_lock r) v (panicked r) (in_buf r) (in_r r) (in_w r) (in_e r) (crt r) (shift r) (uart r) (cons_dev r) (devs r).
Definition set_panicked (v : Z) (r : console) : console :=
  mkConsole (cons_lock r) (cons_locking r) v (in_buf r) (in_r r) (in_w r) (in_e r) (crt r) (shift r) (uart r) (cons_dev r) (devs r).
Definition set_in_buf (v : list Z) (r : console) : console :=
  mkConsole (cons_lock r) (cons_locking r) (panicked r) v (in_r r) (in_w r) (in_e r) (crt r) (shift r) (uart r) (cons_dev r) (devs r).
Definition set_in_r (v : Z) (r : console) : console :=
  mkConsole (cons_lock r) (cons_locking r) (panicked r) (in_buf r) v (in_w r) (in_e r) (crt r) (shift r) (uart r) (cons_dev r) (devs r).
Definition set_in_w (v : Z) (r : console) : console :=
  mkConsole (cons_lock r) (cons_locking r) (panicked r) (in_buf r) (in_r r) v (in_e r) (crt r) (shift r) (uart r) (cons_dev r) (devs r).
Definition set_in_e (v : Z) (r : console) : console :=
  mkConsole (cons_lock r) (cons_locking r) (panicked r) (in_buf r) (in_r r) (in_w r) v (crt r) (shift r) (uart r) (cons_dev r) (devs r).
Definition set_crt (v : memory) (r : console) : console :=
  mkConsole (cons_lock r) (cons_locking r) (panicked r) (in_buf r) (in_r r) (in_w r) (in_e r) v (shift r) (uart r) (cons_dev r) (devs r).
Definition set_shift (v : Z) (r : console) : console :=
  mkConsole (cons_lock r) (cons_locking r) (panicked r) (in_buf r) (in_r r) (in_w r) (in_e r) (crt r) v (uart r) (cons_dev r) (devs r).
Definition set_uart (v : Z) (r : console) : console :=
  mkConsole (cons_lock r) (cons_locking r) (panicked r) (in_buf r) (in_r r) (in_w r) (in_e r) (crt r) (shift r) v (cons_dev r) (devs r).
Definition set_cons_dev (v : bool) (r : console) : console :=
  mkConsole (cons_lock r) (cons_locking r) (panicked r) (in_buf r) (in_r r) (in_w r) (in_e r) (crt r) (shift r) (uart r) v (devs r).
Definition set_devs (v : D) (r : console) : console :=
  mkConsole (cons_lock r) (cons_locking r) (panicked r) (in_buf r) (in_r r) (in_w r) (in_e r) (crt r) (shift r) (uart r) (cons_dev r) v.

Definition c_cons_lock : cell console spinlock := field cons_lock set_cons_lock.
Definition c_cons_locking : cell console Z := field cons_locking set_cons_locking.
Definition c_panicked : cell console Z := field panicked set_panicked.
Definition c_in_buf : cell console (list Z) := field in_buf set_in_buf.
Definition c_in_r : cell console Z := field in_r set_in_r.
Definition c_in_w : cell console Z := field in_w set_in_w.
Definition c_in_e : cell console Z := field in_e set_in_e.
Definition c_crt : cell console memory := field crt set_crt.
Definition c_shift : cell console Z := field shift set_shift.
Definition c_uart : cell console Z := field uart set_uart.
Definition c_cons_dev : cell console bool := field cons_dev set_cons_dev.
Definition c_devs : cell console D := field devs set_devs.

End State.
Arguments console D : clear implicits.
Arguments mkConsole {D}.

#[global] Instance c_cons_lock_laws {D : Type} : CellLaws (c_cons_lock (D := D)).
Proof. constructor; [done|done|]. simpl. intros y [] E. injection E as <-. done. Qed.

(** ** kbd.h *)

Definition KBSTATP : Z := 0x64.
Definition KBS_DIB : Z := 0x01.
Definition KBDATAP : Z := 0x60.

Definition SHIFT : Z := 1.
Definition CTL : Z := 2.
Definition ALT : Z := 4.
Definition CAPSLOCK : Z := 8.
Definition NUMLOCK : Z := 16.
Definition SCROLLLOCK : Z := 32.
Definition E0ESC : Z := 64.

Definition KEY_HOME : Z := 0xE0.
Definition KEY_END : Z := 0xE1.
Definition KEY_UP : Z := 0xE2.
Definition KEY_DN : Z := 0xE3.
Definition KEY_LF : Z := 0xE4.
Definition KEY_RT : Z := 0xE5.
Definition KEY_PGUP : Z := 0xE6.
Definition KEY_PGDN : Z := 0xE7.
Definition KEY_INS : Z := 0xE8.
Definition KEY_DEL : Z := 0xE9.

(** An array of 256 bytes: its first entries, and those at the given indices. *)
Fixpoint entry_at (l : list (Z * Z)) (i : Z) : option Z :=
  match l with
  | [] => None
  | (j, v) :: l => if i =? j then Some v else entry_at l i
  end.
Definition code_table (first : list Z) (at_ : list (Z * Z)) (i : Z) : Z :=
  match entry_at at_ i with Some v => v | None => nth (Z.to_nat i) first 0 end.

Definition shiftcode : Z -> Z := code_table []
  [ (0x1D, CTL); (0x2A, SHIFT); (0x36, SHIFT); (0x38, ALT); (0x9D, CTL); (0xB8, ALT) ].

Definition togglecode : Z -> Z := code_table []
  [ (0x3A, CAPSLOCK); (0x45, NUMLOCK); (0x46, SCROLLLOCK) ].

Definition normalmap : Z -> Z := code_table
  [ 0; 27; 49; 50; 51; 52; 53; 54;
    55; 56; 57; 48; 45; 61; 8; 9;
    113; 119; 101; 114; 116; 121; 117; 105;
    111; 112; 91; 93; 10; 0; 97; 115;
    100; 102; 103; 104; 106; 107; 108; 59;
    39; 96; 0; 92; 122; 120; 99; 118;
    98; 110; 109; 44; 46; 47; 0; 42;
    0; 32; 0; 0; 0; 0; 0; 0;
    0; 0; 0; 0; 0; 0; 0; 55;
    56; 57; 45; 52; 53; 54; 43; 49;
    50; 51; 48; 46; 0; 0; 0; 0 ]
  [ (0x9C, 10); (0xB5, 47); (0xC8, KEY_UP); (0xD0, KEY_DN); (0xC9, KEY_PGUP); (0xD1, KEY_PGDN);
    (0xCB, KEY_LF); (0xCD, KEY_RT); (0x97, KEY_HOME); (0xCF, KEY_END); (0xD2, KEY_INS); (0xD3, KEY_DEL) ].
Definition shiftmap : Z -> Z := code_table
  [ 0; 27; 33; 64; 35; 36; 37; 94;
    38; 42; 40; 41; 95; 43; 8; 9;
    81; 87; 69; 82; 84; 89; 85; 73;
    79; 80; 123; 125; 10; 0; 65; 83;
    68; 70; 71; 72; 74; 75; 76; 58;
    34; 126; 0; 124; 90; 88; 67; 86;
    66; 78; 77; 60; 62; 63; 0; 42;
    0; 32; 0; 0; 0; 0; 0; 0;
    0; 0; 0; 0; 0; 0; 0; 55;
    56; 57; 45; 52; 53; 54; 43; 49;
    50; 51; 48; 46; 0; 0; 0; 0 ]
  [ (0x9C, 10); (0xB5, 47); (0xC8, KEY_UP); (0xD0, KEY_DN); (0xC9, KEY_PGUP); (0xD1, KEY_PGDN);
    (0xCB, KEY_LF); (0xCD, KEY_RT); (0x97, KEY_HOME); (0xCF, KEY_END); (0xD2, KEY_INS); (0xD3, KEY_DEL) ].
Definition ctlmap : Z -> Z := code_table
  [ 0; 0; 0; 0; 0; 0; 0; 0;
    0; 0; 0; 0; 0; 0; 0; 0;
    17; 23; 5; 18; 20; 25; 21; 9;
    15; 16; 0; 0; 13; 0; 1; 19;
    4; 6; 7; 8; 10; 11; 12; 0;
    0; 0; 0; 28; 26; 24; 3; 22;
    2; 14; 13; 0; 0; 239; 0; 0 ]
  [ (0x9C, 13); (0xB5, 239); (0xC8, KEY_UP); (0xD0, KEY_DN); (0xC9, KEY_PGUP); (0xD1, KEY_PGDN);
    (0xCB, KEY_LF); (0xCD, KEY_RT); (0x97, KEY_HOME); (0xCF, KEY_END); (0xD2, KEY_INS); (0xD3, KEY_DEL) ].

(** [charcode] of [kbdgetc] *)
Definition charcode (i : Z) : Z -> Z :=
  if i =? 0 then normalmap else if i =? 1 then shiftmap else ctlmap.

(** [kbdgetc] once a byte is there: the new [shift] and the character. *)
Definition decode (shift data : Z) : Z * Z :=
  if data =? 0xE0 then (Z.lor shift E0ESC, 0)
  else if negb (Z.land data 0x80 =? 0) then
    let data := if negb (Z.land shift E0ESC =? 0) then data else Z.land data 0x7F in
    (Z.ldiff shift (Z.lor (shiftcode data) E0ESC), 0)
  else
    let esc := negb (Z.land shift E0ESC =? 0) in
    let data := if esc then Z.lor data 0x80 else data in
    let shift := if esc then Z.ldiff shift E0ESC else shift in
    let shift := Z.lor shift (shiftcode data) in
    let shift := Z.lxor shift (togglecode data) in
    let c := charcode (Z.land shift (Z.lor CTL SHIFT)) data in
    let c := if negb (Z.land shift CAPSLOCK =? 0) then
               if (97 <=? c) && (c <=? 122) then c + 65 - 97
               else if (65 <=? c) && (c <=? 90) then c + 97 - 65 else c
             else c in
    (shift, c).

(** What the console calls outside the drivers: [iunlock] and [ilock] of the device's
    inode, [procdump], [ioapicenable]. *)
Class ConsoleCalls (S : Type) := {
  dev_iunlock : nat -> M S unit;
  dev_ilock : nat -> M S unit;
  dump_procs : M S unit;
  ioapic_enable : Z -> Z -> M S unit
}.

(** [&input.r] *)
Definition input_chan : chan := AddrChan 0x3d0.

Section Ops.
Context {D S : Type} `{DV : Devices D} `{PX : Part (console D) S} `{PR : Procs S} `{CC : ConsoleCalls S}.
Abbreviation K := (M S).

Definition inb (port : Z) : K Z :=
  d <- load c_devs ;;
  store c_devs (snd (dev_in port d)) ;;;
  ret (u8 (fst (dev_in port d))).
Definition outb (port data : Z) : K unit := update c_devs (dev_out port (u8 data)).

(** ** uart.c *)

(** [for(i = 0; i < 128 && !(inb(COM1+5) & 0x20); i++) microdelay(10);]; [microdelay]
    of lapic.c does nothing. *)
Fixpoint uart_wait (i : nat) : K unit :=
  match i with
  | O => ret tt
  | Datatypes.S i =>
      st <- inb (COM1 + 5) ;;
      if Z.land st 0x20 =? 0 then uart_wait i else ret tt
  end.

Definition uartputc (c : Z) : K unit :=
  u <- load c_uart ;;
  if u =? 0 then ret tt else
  uart_wait 128 ;;;
  outb (COM1 + 0) c.

Definition uartgetc : K Z :=
  u <- load c_uart ;;
  if u =? 0 then ret (-1) else
  st <- inb (COM1 + 5) ;;
  if Z.land st 0x01 =? 0 then ret (-1) else
  inb (COM1 + 0).

(** "xv6...\n" *)
Definition banner : list Z := [120; 118; 54; 46; 46; 46; 10].

Definition uartinit : K unit :=
  outb (COM1 + 2) 0 ;;;
  outb (COM1 + 3) 0x80 ;;;
  outb (COM1 + 0) (115200 / 9600) ;;;
  outb (COM1 + 1) 0 ;;;
  outb (COM1 + 3) 0x03 ;;;
  outb (COM1 + 4) 0 ;;;
  outb (COM1 + 1) 0x01 ;;;
  st <- inb (COM1 + 5) ;;
  if st =? 0xFF then ret tt else
  store c_uart 1 ;;;
  inb (COM1 + 2) ;;;
  inb (COM1 + 0) ;;;
  ioapic_enable IRQ_COM1 0 ;;;
  for_each banner uartputc.

(** ** kbd.c *)

Definition kbdgetc : K Z :=
  st <- inb KBSTATP ;;
  if Z.land st KBS_DIB =? 0 then ret (-1) else
  data <- inb KBDATAP ;;
  sh <- load c_shift ;;
  store c_shift (fst (decode sh data)) ;;;
  ret (snd (decode sh data)).

(** ** Output *)

(** [memmove(crt, crt+80, sizeof(crt[0])*23*80)] *)
Definition scroll (m : memory) : memory := fun i => if (0 <=? i) && (i <? 23 * 80) then m (i + 80) else m i.
(** [memset(crt+pos, 0, sizeof(crt[0])*(24*80 - pos))] *)
Definition blank_from (pos : Z) (m : memory) : memory :=
  fun i => if (pos <=? i) && (i <? 24 * 80) then 0 else m i.

(** The cursor after [c], and the screen. *)
Definition cga_char (c pos : Z) (m : memory) : Z * memory :=
  if c =? 10 then (pos + (80 - pos mod 80), m)
  else if c =? BACKSPACE then (if 0 <? pos then pos - 1 else pos, m)
  else (pos + 1, upd m pos (Z.lor (Z.land c 0xff) 0x0700)).

Definition cga_scroll (pos : Z) (m : memory) : Z * memory :=
  if 24 <=? pos / 80 then (pos - 80, blank_from (pos - 80) (scroll m)) else (pos, m).

(** The cursor position, col + 80*row, in the registers 14 and 15. *)
Definition cga_pos : K Z :=
  outb CRTPORT 14 ;;;
  hi <- inb (CRTPORT + 1) ;;
  outb CRTPORT 15 ;;;
  lo <- inb (CRTPORT + 1) ;;
  ret (Z.lor (Z.shiftl hi 8) lo).
Definition cga_set_pos (pos : Z) : K unit :=
  outb CRTPORT 14 ;;;
  outb (CRTPORT + 1) (Z.shiftr pos 8) ;;;
  outb CRTPORT 15 ;;;
  outb (CRTPORT + 1) pos.

Definition cgaputc (c : Z) : K unit :=
  pos <- cga_pos ;;
  m <- load c_crt ;;
  let '(pos, m) := cga_char c pos m in
  store c_crt m ;;;
  if (pos <? 0) || (25 * 80 <? pos) then panic "pos under/overflow" else
  let '(pos, m) := cga_scroll pos m in
  store c_crt m ;;;
  cga_set_pos pos ;;;
  update c_crt (fun m => upd m pos (Z.lor 32 0x0700)).

Definition consputc (c : Z) : K unit :=
  p <- load c_panicked ;;
  if negb (p =? 0) then cli ;;; spin else
  (if c =? BACKSPACE then uartputc 8 ;;; uartputc 32 ;;; uartputc 8 else uartputc c) ;;;
  cgaputc c.

(** [digits[x % base]] for [x] down to 0: [x] is below 2^32 and [base] at least 2. *)
Definition kdigits : list Z := [48; 49; 50; 51; 52; 53; 54; 55; 56; 57; 97; 98; 99; 100; 101; 102].
Fixpoint kdigit_loop (x base : Z) (fuel : nat) : list Z :=
  match fuel with
  | O => []
  | Datatypes.S fuel =>
      nth (Z.to_nat (x mod base)) kdigits 0 ::
      (if x / base =? 0 then [] else kdigit_loop (x / base) base fuel)
  end.

(** The characters of [buf] in [printint], least significant first. *)
Definition kint_buf (xx base sign : Z) : list Z :=
  let neg := negb (sign =? 0) && (xx <? 0) in
  kdigit_loop (u32 (if neg then - xx else xx)) base 32 ++ (if neg then [45] else []).

Definition kprintint (xx base sign : Z) : K unit :=
  for_each (reverse (kint_buf xx base sign)) consputc.

(** An argument of [cprintf]: a number, or a pointer to a string (0 when [None]). *)
Inductive karg := KInt (z : Z) | KStr (s : option (list Z)).

(** "(null)" *)
Definition null_str : list Z := [40; 110; 117; 108; 108; 41].

(** The directive [%c] with the arguments left; a number where a string is expected, or
    no argument, is a fault of the model. *)
Definition cprintf_directive (c : Z) (argp : list karg) : K (list karg) :=
  if c =? 100 then
    match argp with KInt z :: argp => kprintint (i32 z) 10 1 ;;; ret argp | _ => fault end
  else if (c =? 120) || (c =? 112) then
    match argp with KInt z :: argp => kprintint (i32 z) 16 0 ;;; ret argp | _ => fault end
  else if c =? 115 then
    match argp with
    | KStr s :: argp => for_each (match s with Some s => s | None => null_str end) consputc ;;; ret argp
    | _ => fault
    end
  else if c =? 37 then consputc 37 ;;; ret argp
  else consputc 37 ;;; consputc c ;;; ret argp.

Fixpoint cprintf_loop (fmt : list Z) (argp : list karg) : K unit :=
  match fmt with
  | [] => ret tt
  | c :: fmt =>
      if negb (c =? 37) then consputc c ;;; cprintf_loop fmt argp
      else
        match fmt with
        | [] => ret tt
        | c :: fmt => argp <- cprintf_directive c argp ;; cprintf_loop fmt argp
        end
  end.

Definition cons_spin : lockref S := spin_of c_cons_lock.

Definition cprintf (fmt : option (list Z)) (argp : list karg) : K unit :=
  locking <- load c_cons_locking ;;
  when (negb (locking =? 0)) (acquire cons_spin) ;;;
  match fmt with
  | None => panic "null fmt"
  | Some fmt => cprintf_loop fmt argp
  end ;;;
  when (negb (locking =? 0)) (release cons_spin).

(** "lapicid %d: panic: ", "\n" and " %p" *)
Definition panic_head : list Z := [108; 97; 112; 105; 99; 105; 100; 32; 37; 100; 58; 32; 112; 97; 110; 105; 99; 58; 32].
Definition panic_pc : list Z := [32; 37; 112].

(** [panic], with the ten words that [getcallerpcs] finds; it prints and spins. *)
Definition kpanic (s : list Z) (pcs : list Z) : K unit :=
  cli ;;;
  store c_cons_locking 0 ;;;
  m <- gets mach_of ;;
  cprintf (Some panic_head) [KInt (lapicid m)] ;;;
  cprintf (Some s) [] ;;;
  cprintf (Some [10]) [] ;;;
  for_each pcs (fun pc => cprintf (Some panic_pc) [KInt pc]) ;;;
  store c_panicked 1 ;;;
  spin.

(** ** Input *)

(** The character before the edit index. *)
Definition before_e (x : console D) : Z := nth (Z.to_nat (u32 (in_e x - 1) mod INPUT_BUF)) (in_buf x) 0.

(** [input.e--; consputc(BACKSPACE);] *)
Definition rub_out : K unit :=
  e <- load c_in_e ;;
  store c_in_e (u32 (e - 1)) ;;;
  consputc BACKSPACE.

(** Kill line: [input.e] goes down to [input.w] at most. *)
Fixpoint kill_line (n : nat) : K unit :=
  match n with
  | O => ret tt
  | Datatypes.S n =>
      x <- gets part ;;
      if negb (in_e x =? in_w x) && negb (before_e x =? 10) then rub_out ;;; kill_line n else ret tt
  end.

(** The default case of the switch. *)
Definition enter_char (c : Z) : K unit :=
  x <- gets part ;;
  if negb (c =? 0) && (u32 (in_e x - in_r x) <? INPUT_BUF) then
    let c := if c =? 13 then 10 else c in
    update c_in_buf (<[Z.to_nat (in_e x mod INPUT_BUF) := u8 c]>) ;;;
    store c_in_e (u32 (in_e x + 1)) ;;;
    consputc c ;;;
    x <- gets part ;;
    when ((c =? 10) || (c =? 4) || (in_e x =? u32 (in_r x + INPUT_BUF)))
      (store c_in_w (in_e x) ;;; wakeup_on input_chan)
  else ret tt.

(** The switch; the result is the new [doprocdump]. *)
Definition cons_key (c : Z) (doprocdump : bool) : K bool :=
  if c =? 16 then ret true
  else if c =? 21 then
    x <- gets part ;;
    kill_line (Z.to_nat (u32 (in_e x - in_w x))) ;;; ret doprocdump
  else if (c =? 8) || (c =? 127) then
    x <- gets part ;;
    when (negb (in_e x =? in_w x)) rub_out ;;; ret doprocdump
  else enter_char c ;;; ret doprocdump.

(** [while((c = getc()) >= 0) switch(c) ...] *)
Fixpoint intr_loop (getc : K Z) (doprocdump : bool) (fuel : nat) : K bool :=
  match fuel with
  | O => fuel_out
  | Datatypes.S fuel =>
      c <- getc ;;
      if c <? 0 then ret doprocdump else
      dump <- cons_key c doprocdump ;;
      intr_loop getc dump fuel
  end.

Definition consoleintr (getc : K Z) (fuel : nat) : K unit :=
  acquire cons_spin ;;;
  dump <- intr_loop getc false fuel ;;
  release cons_spin ;;;
  when dump dump_procs.

Definition uartintr (fuel : nat) : K unit := consoleintr uartgetc fuel.
Definition kbdintr (fuel : nat) : K unit := consoleintr kbdgetc fuel.

(** [while(input.r == input.w)]; false when the caller was killed. *)
Fixpoint wait_input (k : nat) : K bool :=
  match k with
  | O => fuel_out
  | Datatypes.S k =>
      x <- gets part ;;
      if in_r x =? in_w x then
        kd <- my_killed ;;
        if negb (kd =? 0) then ret false
        else sleep_on input_chan cons_spin ;;; wait_input k
      else ret true
  end.

(** [while(n > 0)], with the bytes stored so far; false when the caller was killed. *)
Fixpoint read_loop (fuel n : nat) (dst : list Z) : K (bool * list Z) :=
  match n with
  | O => ret (true, dst)
  | Datatypes.S n =>
      ok <- wait_input fuel ;;
      if negb ok then ret (false, dst) else
      x <- gets part ;;
      store c_in_r (u32 (in_r x + 1)) ;;;
      let c := nth (Z.to_nat (in_r x mod INPUT_BUF)) (in_buf x) 0 in
      if c =? 4 then
        when (negb (length dst =? 0)%nat) (update c_in_r (fun r => u32 (r - 1))) ;;;
        ret (true, dst)
      else if c =? 10 then ret (true, dst ++ [c])
      else read_loop fuel n (dst ++ [c])
  end.

(** The result and the bytes stored at [dst]. *)
Definition consoleread (ip : nat) (n : Z) (fuel : nat) : K (Z * list Z) :=
  dev_iunlock ip ;;;
  acquire cons_spin ;;;
  r <- read_loop (Datatypes.S fuel) (Z.to_nat n) [] ;;
  release cons_spin ;;;
  dev_ilock ip ;;;
  ret (if fst r then Z.of_nat (length (snd r)) else -1, snd r).

(** [buf] has the [n] bytes to write. *)
Definition consolewrite (ip : nat) (buf : list Z) (n : Z) : K Z :=
  dev_iunlock ip ;;;
  acquire cons_spin ;;;
  for_each (take (Z.to_nat n) buf) (fun b => consputc (Z.land b 0xff)) ;;;
  release cons_spin ;;;
  dev_ilock ip ;;;
  ret n.

Definition consoleinit : K unit :=
  initlock cons_spin "console" ;;;
  store c_cons_dev true ;;;
  store c_cons_locking 1 ;;;
  ioapic_enable IRQ_KBD 0.

End Ops.
