(* ===== verification/ConsoleFacts.v ===== *)
(** * The console as a line editor

    What the devices promise ([DevicesLaws]: the registers of the display controller keep
    what is written to them, the serial port delivers the bytes received in order), and
    the proofs that the drivers keep the cursor on the screen, that the ring [input]
    holds the lines of an abstract line editor ([tty]) whose keys are the bytes received,
    and that [consoleread] hands out its lines. *)

From stdpp Require Import base tactics list sets strings.
From Stdlib Require Import ZArith Lia.
From S2P Require Import Prelude Params StringC Spinlock ProcState Comp Console.
Open Scope Z_scope.

(** ** The devices *)

(** The selected register of the display controller, its registers, the bytes the serial
    port has received and not delivered, and those it has sent. *)
Record view := mkView { v_idx : Z; v_reg : Z -> Z; v_rx : list Z; v_tx : list Z }.

Class DevicesLaws (D : Type) `{Devices D} := {
  view_of : D -> view;
  crt_in d : view_of (snd (dev_in (CRTPORT + 1) d)) = view_of d /\
    fst (dev_in (CRTPORT + 1) d) = v_reg (view_of d) (v_idx (view_of d));
  crt_select i d : let v := view_of d in
    view_of (dev_out CRTPORT i d) = mkView i (v_reg v) (v_rx v) (v_tx v);
  crt_out b d : let v := view_of d in
    view_of (dev_out (CRTPORT + 1) b d) = mkView (v_idx v) (upd (v_reg v) (v_idx v) b) (v_rx v) (v_tx v);
  status_in d : view_of (snd (dev_in (COM1 + 5) d)) = view_of d /\
    Z.testbit (fst (dev_in (COM1 + 5) d)) 0 = negb (length (v_rx (view_of d)) =? 0)%nat;
  data_in d b l : let v := view_of d in v_rx v = b :: l ->
    fst (dev_in (COM1 + 0) d) = b /\ view_of (snd (dev_in (COM1 + 0) d)) = mkView (v_idx v) (v_reg v) l (v_tx v);
  data_out b d : let v := view_of d in
    view_of (dev_out (COM1 + 0) b d) = mkView (v_idx v) (v_reg v) (v_rx v) (v_tx v ++ [b])
}.

(** The position of the cursor: the registers 14 and 15. *)
Definition cursor (v : view) : Z := Z.lor (Z.shiftl (u8 (v_reg v 14)) 8) (u8 (v_reg v 15)).

Lemma cursor_split pos : 0 <= pos < 2000 -> Z.lor (Z.shiftl (u8 (u8 (Z.shiftr pos 8))) 8) (u8 (u8 pos)) = pos.
Proof.
  intros Hp.
  assert (forallb (fun p => Z.lor (Z.shiftl (u8 (u8 (Z.shiftr p 8))) 8) (u8 (u8 p)) =? p) (seqZ 0 2000) = true) as Hall
    by (vm_compute; reflexivity).
  rewrite forallb_forall in Hall. apply Z.eqb_eq, Hall, list_elem_of_In, elem_of_seqZ. lia.
Qed.

(** ** The screen *)

(** The cursor stays in the first 24 rows. *)
Lemma cga_range c pos m : 0 <= pos < 1920 ->
  let '(p1, m1) := cga_char c pos m in
  let '(p2, m2) := cga_scroll p1 m1 in
  0 <= p1 <= 1920 /\ 0 <= p2 < 1920 /\ forall i, ~ 0 <= i < 1920 -> m2 i = m i.
Proof.
  intros Hp.
  assert (let '(p1, m1) := cga_char c pos m in 0 <= p1 <= 1920 /\ forall i, ~ 0 <= i < 1920 -> m1 i = m i) as H1.
  { unfold cga_char. pose proof (Z.div_mod pos 80 ltac:(lia)). pose proof (Z.mod_pos_bound pos 80 ltac:(lia)).
    destruct (c =? 10); [split; [lia|done]|]. destruct (c =? BACKSPACE).
    - split; [|done]. destruct (Z.ltb_spec 0 pos); lia.
    - split; [lia|]. intros i Hi. unfold upd. destruct (Z.eqb_spec i pos); [lia|done]. }
  destruct (cga_char c pos m) as [p1 m1]. destruct H1 as [H1 Hm]. unfold cga_scroll.
  pose proof (Z.div_mod p1 80 ltac:(lia)). pose proof (Z.mod_pos_bound p1 80 ltac:(lia)).
  destruct (Z.leb_spec 24 (p1 / 80)).
  - split_and!; try lia. intros i Hi. unfold blank_from, scroll.
    destruct (Z.leb_spec (p1 - 80) i), (Z.ltb_spec i (24 * 80)); simpl; try lia;
    destruct (Z.leb_spec 0 i), (Z.ltb_spec i (23 * 80)); simpl; try lia; by apply Hm.
  - split_and!; try lia. done.
Qed.

(** ** The line editor *)

(** The bytes that can be read, and the line being edited. *)
Record tty := mkTty { ready : list Z; line : list Z }.

Definition rubout : list Z := [8; 32; 8].

(** A key: the new state and what is echoed. *)
Definition tty_key (c : Z) (t : tty) : tty * list Z :=
  if c =? 16 then (t, [])
  else if c =? 21 then (mkTty (ready t) [], concat (replicate (length (line t)) rubout))
  else if (c =? 8) || (c =? 127) then
    match line t with
    | [] => (t, [])
    | _ => (mkTty (ready t) (removelast (line t)), rubout)
    end
  else if negb (c =? 0) && (length (ready t) + length (line t) <? 128)%nat then
    let c := if c =? 13 then 10 else c in
    let l := line t ++ [c] in
    (if (c =? 10) || (c =? 4) || (length (ready t) + length l =? 128)%nat
     then mkTty (ready t ++ l) [] else mkTty (ready t) l, [c])
  else (t, []).

Fixpoint tty_keys (cs : list Z) (t : tty) : tty * list Z :=
  match cs with
  | [] => (t, [])
  | c :: cs =>
      let '(t1, e1) := tty_key c t in
      let '(t2, e2) := tty_keys cs t1 in (t2, e1 ++ e2)
  end.

(** Reading at most [n] bytes of [rd]: a newline ends the line and belongs to it, a
    control-D ends it and is dropped if nothing was read ([got]) before it; [None] if
    the reader has to wait. *)
Fixpoint take_line (n : nat) (got : bool) (rd : list Z) : option (list Z * list Z) :=
  match n, rd with
  | O, _ => Some ([], rd)
  | Datatypes.S _, [] => None
  | Datatypes.S n, c :: rd =>
      if c =? 4 then Some ([], if got then c :: rd else rd)
      else if c =? 10 then Some ([c], rd)
      else '(bs, rd) ← take_line n true rd; Some (c :: bs, rd)
  end.

Lemma tty_key_line c t : 10 ∉ line t -> 10 ∉ line (tty_key c t).1.
Proof.
  intros Hl. unfold tty_key. destruct (c =? 16); [done|]. destruct (c =? 21); [apply not_elem_of_nil|].
  destruct ((c =? 8) || (c =? 127)).
  - destruct (line t) as [|b l] eqn:El; [simpl; by rewrite El|]. simpl. intros Hin. apply Hl.
    rewrite (app_removelast_last 0 (l := b :: l)) by done. apply elem_of_app. by left.
  - destruct (negb (c =? 0) && _); [|done]. set (c' := if c =? 13 then 10 else c). simpl.
    destruct (Z.eqb_spec c' 10) as [|Hc]; simpl; [apply not_elem_of_nil|].
    destruct ((c' =? 4) || _); simpl; [apply not_elem_of_nil|]. rewrite elem_of_app, list_elem_of_singleton. naive_solver.
Qed.

(** A character that edits nothing and ends nothing. *)
Definition ordinary (c : Z) : Prop :=
  0 <= c < 256 /\ c ∉ [0; 4; 8; 10; 13; 16; 21; 127].

Lemma tty_key_ordinary c t : ordinary c -> (length (ready t) + length (line t) < 127)%nat ->
  tty_key c t = (mkTty (ready t) (line t ++ [c]), [c]).
Proof.
  intros [Hc Hn] Hl. rewrite !not_elem_of_cons in Hn. destruct Hn as (N0 & N4 & N8 & N10 & N13 & N16 & N21 & N127 & _).
  unfold tty_key. rewrite (proj2 (Z.eqb_neq c 16)), (proj2 (Z.eqb_neq c 21)), (proj2 (Z.eqb_neq c 8)),
    (proj2 (Z.eqb_neq c 127)), (proj2 (Z.eqb_neq c 0)), (proj2 (Z.eqb_neq c 13)), (proj2 (Z.eqb_neq c 10)),
    (proj2 (Z.eqb_neq c 4)) by done.
  rewrite length_app. simpl. rewrite (proj2 (Nat.ltb_lt _ _)), (proj2 (Nat.eqb_neq _ _)) by lia. done.
Qed.

Lemma tty_keys_line l : forall rd ln, Forall ordinary l -> (length rd + length ln + length l < 127)%nat ->
  tty_keys (l ++ [13]) (mkTty rd ln) = (mkTty (rd ++ ln ++ l ++ [10]) [], l ++ [10]).
Proof.
  induction l as [|c l IH]; intros rd ln Hl Hlen; simpl in *.
  - unfold tty_key. simpl. rewrite (proj2 (Nat.ltb_lt _ _)) by lia. done.
  - apply Forall_cons in Hl as [Hc Hl]. rewrite tty_key_ordinary by (simpl; done || lia). simpl.
    rewrite IH by (rewrite ?length_app; simpl; done || lia). by rewrite <- app_assoc.
Qed.

Lemma take_line_ordinary l : forall n got rd, Forall ordinary l -> (length l < n)%nat ->
  take_line n got (l ++ 10 :: rd) = Some (l ++ [10], rd).
Proof.
  induction l as [|c l IH]; intros n got rd Hl Hn; destruct n as [|n]; simpl in *; try lia; [done|].
  apply Forall_cons in Hl as [[_ Hc] Hl]. rewrite !not_elem_of_cons in Hc. destruct Hc as (_ & N4 & _ & N10 & _).
  rewrite (proj2 (Z.eqb_neq c 4)), (proj2 (Z.eqb_neq c 10)) by done. by rewrite IH by (done || lia).
Qed.

(** ** The ring *)

Record ring_has {D : Type} (x : console D) (t : tty) : Prop := {
  rh_size : length (in_buf x) = 128%nat;
  rh_r : 0 <= in_r x < 2 ^ 32;
  rh_w : in_w x = u32 (in_r x + Z.of_nat (length (ready t)));
  rh_e : in_e x = u32 (in_r x + Z.of_nat (length (ready t ++ line t)));
  rh_room : (length (ready t ++ line t) <= 128)%nat;
  rh_data : forall i, (i < length (ready t ++ line t))%nat ->
    in_buf x !! Z.to_nat ((in_r x + Z.of_nat i) mod 128) = (ready t ++ line t) !! i
}.

Section Ring.
Context {D : Type}.
Implicit Types (x : console D) (t : tty).

Lemma u32_mod_128 z : u32 z mod 128 = z mod 128.
Proof. apply u32_mod; [by exists (2 ^ 25)|done]. Qed.

Lemma mod_128_range a : (Z.to_nat (a mod 128) < 128)%nat.
Proof. pose proof (Z.mod_pos_bound a 128 ltac:(done)). lia. Qed.

Lemma ring_output x t d m : ring_has x t -> ring_has (set_devs d (set_crt m x)) t.
Proof. by intros [? ? ? ? ? ?]. Qed.

Lemma ring_lock x t l : ring_has x t -> ring_has (set_cons_lock l x) t.
Proof. by intros [? ? ? ? ? ?]. Qed.

Lemma ring_e_w x t : ring_has x t -> (in_e x =? in_w x) = (length (line t) =? 0)%nat.
Proof.
  intros [_ _ Hw He Hr _]. rewrite He, Hw. rewrite length_app in *. destruct (Nat.eqb_spec (length (line t)) 0) as [E|E].
  - rewrite E, Nat.add_0_r. apply Z.eqb_refl.
  - apply Z.eqb_neq. intros H. apply u32_shift_inj in H; lia.
Qed.

Lemma ring_r_w x t : ring_has x t -> (in_r x =? in_w x) = (length (ready t) =? 0)%nat.
Proof.
  intros [_ Hr Hw _ Hl _]. rewrite Hw. rewrite length_app in Hl. destruct (Nat.eqb_spec (length (ready t)) 0) as [E|E].
  - rewrite E, Z.add_0_r, u32_id by lia. apply Z.eqb_refl.
  - apply Z.eqb_neq. intros H. rewrite <- (u32_id (in_r x)) in H at 1 by lia.
    rewrite <- (Z.add_0_r (in_r x)) in H at 1. apply u32_shift_inj in H; lia.
Qed.

Lemma ring_fill x t : ring_has x t -> u32 (in_e x - in_r x) = Z.of_nat (length (ready t ++ line t)).
Proof.
  intros [_ _ _ He Hl _]. rewrite He. unfold Z.sub. rewrite u32_add.
  replace (_ + _ + - _) with (Z.of_nat (length (ready t ++ line t))) by lia. apply u32_id. lia.
Qed.

Lemma ring_edit x t : ring_has x t -> u32 (in_e x - in_w x) = Z.of_nat (length (line t)).
Proof.
  intros [_ _ Hw He Hl _]. rewrite Hw, He. rewrite length_app in *. unfold u32. rewrite <- Zminus_mod.
  replace (_ - _) with (Z.of_nat (length (line t))) by lia. apply Z.mod_small. lia.
Qed.

Lemma ring_full x t : ring_has x t ->
  (in_e x =? u32 (in_r x + INPUT_BUF)) = (length (ready t ++ line t) =? 128)%nat.
Proof.
  intros [_ _ _ He Hl _]. rewrite He. unfold INPUT_BUF. destruct (Nat.eqb_spec (length (ready t ++ line t)) 128) as [E|E].
  - rewrite E. apply Z.eqb_refl.
  - apply Z.eqb_neq. intros H. apply u32_shift_inj in H; lia.
Qed.

Lemma ring_before x rd l c : ring_has x (mkTty rd (l ++ [c])) -> before_e x = c.
Proof.
  intros [_ _ _ He Hl Hd]. simpl in *. unfold before_e, INPUT_BUF. rewrite He. unfold Z.sub. rewrite u32_add, u32_mod_128.
  rewrite app_assoc in *. specialize (Hd (length (rd ++ l))). rewrite (length_app (rd ++ l)) in *. simpl in *.
  replace (_ + _ + -1) with (in_r x + Z.of_nat (length (rd ++ l))) by lia.
  rewrite nth_lookup, Hd by lia. by rewrite lookup_app_r, Nat.sub_diag by lia.
Qed.

Lemma ring_rub x rd l c : ring_has x (mkTty rd (l ++ [c])) -> ring_has (set_in_e (u32 (in_e x - 1)) x) (mkTty rd l).
Proof.
  intros [Hs Hr Hw He Hl Hd]. simpl in *. rewrite app_assoc in *. rewrite length_app in Hl, He. simpl in *.
  constructor; simpl; try done; [|lia|].
  - rewrite He. unfold Z.sub. rewrite u32_add. f_equal. lia.
  - intros i Hi. rewrite Hd by (rewrite length_app; lia). by apply lookup_app_l.
Qed.

Lemma ring_type x t c : ring_has x t -> (length (ready t ++ line t) < 128)%nat ->
  ring_has (set_in_e (u32 (in_e x + 1)) (set_in_buf (<[Z.to_nat (in_e x mod INPUT_BUF) := c]> (in_buf x)) x))
    (mkTty (ready t) (line t ++ [c])).
Proof.
  intros [Hs Hr Hw He Hl Hd] Hlt. constructor; simpl; rewrite ?app_assoc, ?length_insert; try done.
  - rewrite He, u32_add, (length_app (ready t ++ line t)). f_equal. simpl. lia.
  - rewrite (length_app (ready t ++ line t)). simpl. lia.
  - intros i Hi. rewrite (length_app (ready t ++ line t)) in Hi. simpl in Hi. unfold INPUT_BUF. rewrite He, u32_mod_128.
    destruct (decide (i = length (ready t ++ line t))) as [->|Hne].
    + rewrite list_lookup_insert_eq by (rewrite Hs; apply mod_128_range). by rewrite lookup_app_r, Nat.sub_diag by lia.
    + rewrite list_lookup_insert_ne; [rewrite Hd by lia; by rewrite (lookup_app_l (ready t ++ line t)) by lia|].
      intros E. apply Hne, Nat2Z.inj, (mod_shift_inj 128 (in_r x)); try lia.
      pose proof (Z.mod_pos_bound (in_r x + Z.of_nat i) 128 ltac:(done)).
      pose proof (Z.mod_pos_bound (in_r x + Z.of_nat (length (ready t ++ line t))) 128 ltac:(done)). lia.
Qed.

Lemma ring_commit x t : ring_has x t -> ring_has (set_in_w (in_e x) x) (mkTty (ready t ++ line t) []).
Proof. intros [Hs Hr Hw He Hl Hd]. constructor; simpl; rewrite ?app_nil_r; done. Qed.

Lemma ring_pop x c rd l : ring_has x (mkTty (c :: rd) l) ->
  nth (Z.to_nat (in_r x mod INPUT_BUF)) (in_buf x) 0 = c /\ ring_has (set_in_r (u32 (in_r x + 1)) x) (mkTty rd l).
Proof.
  intros [Hs Hr Hw He Hl Hd]. simpl in *. split.
  - specialize (Hd 0%nat ltac:(lia)). rewrite Z.add_0_r in Hd. unfold INPUT_BUF. by rewrite nth_lookup, Hd.
  - constructor; simpl; try done; [unfold u32; apply Z.mod_pos_bound; lia| | |lia|].
    + rewrite Hw, u32_add. f_equal. lia.
    + rewrite He, u32_add. f_equal. lia.
    + intros i Hi. specialize (Hd (Datatypes.S i) ltac:(lia)).
      rewrite <- Zplus_mod_idemp_l, u32_mod_128, Zplus_mod_idemp_l.
      replace (in_r x + 1 + Z.of_nat i) with (in_r x + Z.of_nat (Datatypes.S i)) by lia. exact Hd.
Qed.

Lemma ring_unread x t : ring_has x t -> u32 (u32 (in_r x + 1) - 1) = in_r x.
Proof. intros [_ Hr _ _ _ _]. unfold Z.sub. rewrite u32_add. rewrite u32_id; lia. Qed.

End Ring.

Section Facts.
Context {D S : Type} `{DL : DevicesLaws D} `{PL : ProcsLaws (console D) S} `{CC : ConsoleCalls S} (pid : Z).
Abbreviation does := (does (X := console D) (S := S) pid).
Abbreviation runs := (runs (X := console D) (S := S) pid).
Implicit Types (x : console D) (n : Z).

Lemma runs_inb n port x :
  runs n (inb port) x n (u8 (fst (dev_in port (devs x)))) (set_devs (snd (dev_in port (devs x))) x).
Proof.
  eapply runs_bind; [by apply runs_load|]. eapply runs_bind; [by eapply runs_store|]. apply runs_ret.
Qed.

Lemma runs_outb n port b x : runs n (outb port b) x n tt (set_devs (dev_out port (u8 b) (devs x)) x).
Proof. by apply (runs_update pid n c_devs). Qed.

Lemma uart_wait_runs n i : forall x, exists d,
  runs n (uart_wait i) x n tt (set_devs d x) /\ view_of d = view_of (devs x).
Proof.
  induction i as [|i IH]; intros x; simpl.
  - exists (devs x). split; [|done]. destruct x. apply runs_ret.
  - destruct (status_in (devs x)) as [Hv _]. set (d1 := snd (dev_in (COM1 + 5) (devs x))) in *.
    destruct (Z.land (u8 (fst (dev_in (COM1 + 5) (devs x)))) 32 =? 0) eqn:E.
    + destruct (IH (set_devs d1 x)) as (d & Hr & Hd). exists d. split; [|by rewrite Hd].
      eapply runs_bind; [apply runs_inb|]. rewrite E. exact Hr.
    + exists d1. split; [|done]. eapply runs_bind; [apply runs_inb|]. rewrite E. apply runs_ret.
Qed.

Lemma uartputc_runs n c x : uart x <> 0 -> exists d, runs n (uartputc c) x n tt (set_devs d x) /\
  view_of d = let v := view_of (devs x) in mkView (v_idx v) (v_reg v) (v_rx v) (v_tx v ++ [u8 c]).
Proof.
  intros Hu. destruct (uart_wait_runs n 128 x) as (d & Hw & Hd). eexists. split.
  - eapply runs_bind; [by apply runs_load|]. rewrite (proj2 (Z.eqb_neq _ _) Hu).
    eapply runs_bind; [exact Hw|]. apply (runs_outb n _ c (set_devs d x)).
  - simpl. rewrite data_out, Hd. done.
Qed.

Lemma cga_pos_runs n x : exists d, runs n cga_pos x n (cursor (view_of (devs x))) (set_devs d x) /\
  v_rx (view_of d) = v_rx (view_of (devs x)) /\ v_tx (view_of d) = v_tx (view_of (devs x)).
Proof.
  set (d1 := dev_out CRTPORT (u8 14) (devs x)). set (d2 := snd (dev_in (CRTPORT + 1) d1)).
  set (d3 := dev_out CRTPORT (u8 15) d2). exists (snd (dev_in (CRTPORT + 1) d3)).
  pose proof (crt_select (u8 14) (devs x)) as E1. simpl in E1. fold d1 in E1.
  destruct (crt_in d1) as [E2 F2]. fold d2 in E2. pose proof (crt_select (u8 15) d2) as E3. simpl in E3. fold d3 in E3.
  destruct (crt_in d3) as [E4 F4]. split; [|by rewrite E4, E3, E2, E1].
  rewrite E1 in F2. rewrite E3, E2, E1 in F4. unfold cursor. cbn [v_reg v_idx] in *.
  change (u8 14) with 14 in F2. change (u8 15) with 15 in F4. rewrite <-F2, <-F4.
  eapply runs_bind; [apply runs_outb|]. eapply runs_bind; [apply runs_inb|]. eapply runs_bind; [apply runs_outb|].
  eapply runs_bind; [apply runs_inb|]. apply runs_ret.
Qed.

Lemma cga_set_pos_runs n pos x : 0 <= pos < 1920 -> exists d, runs n (cga_set_pos pos) x n tt (set_devs d x) /\
  cursor (view_of d) = pos /\ v_rx (view_of d) = v_rx (view_of (devs x)) /\ v_tx (view_of d) = v_tx (view_of (devs x)).
Proof.
  intros Hp. set (d1 := dev_out CRTPORT (u8 14) (devs x)). set (d2 := dev_out (CRTPORT + 1) (u8 (Z.shiftr pos 8)) d1).
  set (d3 := dev_out CRTPORT (u8 15) d2). exists (dev_out (CRTPORT + 1) (u8 pos) d3). split.
  - eapply runs_bind; [apply runs_outb|]. eapply runs_bind; [apply runs_outb|]. eapply runs_bind; [apply runs_outb|].
    apply (runs_outb n (CRTPORT + 1) pos (set_devs d3 x)).
  - unfold d3, d2, d1. rewrite crt_out, crt_select, crt_out, crt_select. split; [|done]. by apply cursor_split; lia.
Qed.

Lemma cgaputc_runs n c x : 0 <= cursor (view_of (devs x)) < 1920 -> exists d m,
  runs n (cgaputc c) x n tt (set_devs d (set_crt m x)) /\
  0 <= cursor (view_of d) < 1920 /\ v_rx (view_of d) = v_rx (view_of (devs x)) /\ v_tx (view_of d) = v_tx (view_of (devs x)) /\
  forall i, ~ 0 <= i < 1920 -> m i = crt x i.
Proof.
  intros Hp. pose proof (cga_range c _ (crt x) Hp) as Hr.
  destruct (cga_char c (cursor (view_of (devs x))) (crt x)) as [p1 m1] eqn:E1.
  destruct (cga_scroll p1 m1) as [p2 m2] eqn:E2. destruct Hr as (H1 & H2 & Hm2).
  destruct (cga_pos_runs n x) as (d1 & Hr1 & Hrx1 & Htx1).
  destruct (cga_set_pos_runs n p2 (set_crt m2 (set_devs d1 x)) H2) as (d2 & Hr2 & Hc & Hrx2 & Htx2).
  exists d2, (upd m2 p2 (Z.lor 32 0x0700)). simpl in Hrx2, Htx2. rewrite Hc, Hrx2, Htx2. split_and!; try (done || lia).
  - eapply runs_bind; [exact Hr1|]. eapply runs_bind; [by apply runs_load|]. cbn [crt set_devs]. rewrite E1.
    eapply runs_bind; [by eapply runs_store|].
    rewrite (proj2 (Z.ltb_ge p1 0)), (proj2 (Z.ltb_ge (25 * 80) p1)) by lia. cbn [orb]. rewrite E2.
    eapply runs_bind; [by eapply runs_store|]. eapply runs_bind; [exact Hr2|].
    exact (runs_update pid n c_crt (set_devs d2 (set_crt m2 (set_devs d1 x))) m2 (fun m => upd m p2 (Z.lor 32 0x0700)) eq_refl).
  - intros i Hi. rewrite <- Hm2 by done. unfold upd. destruct (Z.eqb_spec i p2); [lia|done].
Qed.

(** ** Output *)

Context (crt0 : memory).

(** The devices can be written to, the cursor is on the screen, [tx] was sent and [rx]
    can be received, and CGA memory below the screen is [crt0]. *)
Record screen_ok (tx rx : list Z) (x : console D) : Prop := {
  so_panicked : panicked x = 0;
  so_uart : uart x <> 0;
  so_cursor : 0 <= cursor (view_of (devs x)) < 1920;
  so_crt : forall i, ~ 0 <= i < 1920 -> crt x i = crt0 i;
  so_tx : v_tx (view_of (devs x)) = tx;
  so_rx : v_rx (view_of (devs x)) = rx
}.

(** The bytes sent for [consputc(c)]. *)
Definition echo (c : Z) : list Z := if c =? BACKSPACE then [8; 32; 8] else [u8 c].

Lemma uart_echo_runs n c x : uart x <> 0 -> exists d,
  runs n (if c =? BACKSPACE then uartputc 8 ;;; uartputc 32 ;;; uartputc 8 else uartputc c) x n tt (set_devs d x) /\
  view_of d = let v := view_of (devs x) in mkView (v_idx v) (v_reg v) (v_rx v) (v_tx v ++ echo c).
Proof.
  intros Hu. unfold echo. destruct (c =? BACKSPACE); [|by apply uartputc_runs].
  destruct (uartputc_runs n 8 x Hu) as (d1 & H1 & V1).
  destruct (uartputc_runs n 32 (set_devs d1 x) Hu) as (d2 & H2 & V2).
  destruct (uartputc_runs n 8 (set_devs d2 x) Hu) as (d3 & H3 & V3).
  exists d3. split; [|by rewrite V3; simpl; rewrite V2; simpl; rewrite V1; simpl; rewrite <-!app_assoc].
  eapply runs_bind; [exact H1|]. eapply runs_bind; [exact H2|]. exact H3.
Qed.

Lemma consputc_runs n c tx rx x : screen_ok tx rx x -> exists d m,
  runs n (consputc c) x n tt (set_devs d (set_crt m x)) /\ screen_ok (tx ++ echo c) rx (set_devs d (set_crt m x)).
Proof.
  intros [Hp Hu Hc Hm Htx Hrx]. destruct (uart_echo_runs n c x Hu) as (d1 & H1 & V1).
  destruct (cgaputc_runs n c (set_devs d1 x)) as (d & m & H2 & C2 & Rx & Tx & M2);
    [unfold cursor in *; simpl; by rewrite V1|].
  exists d, m. split.
  - eapply runs_bind; [by apply runs_load|]. rewrite Hp. cbn [Z.eqb negb].
    eapply runs_bind; [exact H1|]. exact H2.
  - simpl in *. constructor; simpl; try done.
    + intros i Hi. rewrite M2 by done. by apply Hm.
    + rewrite Tx, V1. simpl. by rewrite Htx.
    + rewrite Rx, V1. done.
Qed.

(** ** Input *)

(** The console with lock [lk], the lines [t], [tx] sent and [rx] to be received. *)
Definition con (lk : spinlock) (t : tty) (tx rx : list Z) (x : console D) : Prop :=
  cons_lock x = lk /\ ring_has x t /\ screen_ok tx rx x.

Lemma screen_fields tx rx x b r w e l : screen_ok tx rx x ->
  screen_ok tx rx (set_cons_lock l (set_in_buf b (set_in_r r (set_in_w w (set_in_e e x))))).
Proof. by intros [? ? ? ? ? ?]. Qed.

Lemma does_part {A : Type} n n' (P : console D -> Prop) (f : console D -> M S A) (Q : A -> console D -> Prop) :
  (forall x0, P x0 -> does n (fun x => x = x0) (f x0) n' Q) -> does n P (bind (gets part) f) n' Q.
Proof.
  intros Hf x Hx. destruct (Hf x Hx x eq_refl) as (a & x' & Hr & HQ). exists a, x'. split; [|done].
  eapply runs_bind; [apply (runs_gets pid n (fun x => x))|]. exact Hr.
Qed.

Lemma consputc_does n c lk t tx rx :
  does n (con lk t tx rx) (consputc c) n (fun _ x => con lk t (tx ++ echo c) rx x).
Proof.
  intros x (Hl & Hr & Hs). destruct (consputc_runs n c tx rx x Hs) as (d & m & Hc & Hs').
  eexists tt, _. split; [exact Hc|]. split; [done|]. split; [by apply ring_output|done].
Qed.

Lemma rub_out_does n lk rd l c tx rx :
  does n (con lk (mkTty rd (l ++ [c])) tx rx) rub_out n (fun _ x => con lk (mkTty rd l) (tx ++ rubout) rx x).
Proof.
  intros x (Hl & Hr & Hs). apply ring_rub in Hr.
  destruct (consputc_does n BACKSPACE lk (mkTty rd l) tx rx (set_in_e (u32 (in_e x - 1)) x)) as (a & x' & Hx & Hc).
  { split; [done|]. split; [done|]. by destruct Hs. }
  exists a, x'. split; [|exact Hc]. eapply runs_bind; [by apply runs_load|].
  eapply runs_bind; [by eapply runs_store|]. exact Hx.
Qed.

Lemma kill_line_does n lk rd rx : forall k l tx, length l = k -> 10 ∉ l ->
  does n (con lk (mkTty rd l) tx rx) (kill_line k) n
    (fun _ x => con lk (mkTty rd []) (tx ++ concat (replicate k rubout)) rx x).
Proof.
  induction k as [|k IH]; intros l tx Hlen Hnl; cbn [kill_line].
  - destruct l; [|done]. apply does_ret. intros x Hx. simpl. by rewrite app_nil_r.
  - destruct (exists_last (l := l)) as (l' & c & ->); [by intros ->|].
    apply does_part. intros x0 (Hl & Hr & Hs). rewrite (ring_e_w _ _ Hr), (ring_before _ _ _ _ Hr). simpl.
    rewrite length_app in *. simpl in Hlen. rewrite (proj2 (Nat.eqb_neq _ 0)) by (simpl; lia).
    destruct (Z.eqb_spec c 10) as [->|Hc]; [exfalso; apply Hnl, elem_of_app; right; by left|]. cbn [negb andb].
    eapply does_bind_tt; [|eapply does_post; [apply (IH l' (tx ++ rubout))|]].
    + eapply does_pre; [apply rub_out_does|]. by intros x ->.
    + lia.
    + intros Hin. apply Hnl, elem_of_app. by left.
    + intros a x Hx. by rewrite <- app_assoc in Hx.
Qed.

Lemma enter_char_does n c lk t tx rx : shallow n -> 0 <= c < 256 -> c <> 0 ->
  (length (ready t ++ line t) < 128)%nat ->
  let c' := if c =? 13 then 10 else c in
  let l := line t ++ [c'] in
  does n (con lk t tx rx) (enter_char c) n (fun _ x =>
    con lk (if (c' =? 10) || (c' =? 4) || (length (ready t ++ l) =? 128)%nat
            then mkTty (ready t ++ l) [] else mkTty (ready t) l) (tx ++ [c']) rx x).
Proof.
  intros Hn Hc Hc0 Hlt c' l. assert (0 <= c' < 256) as Hc' by (subst c'; destruct (c =? 13); lia).
  apply does_part. intros x0 (Hl & Hr & Hs). rewrite (ring_fill _ _ Hr), (proj2 (Z.eqb_neq _ _) Hc0).
  rewrite (proj2 (Z.ltb_lt _ INPUT_BUF)) by (unfold INPUT_BUF; lia). cbn [negb andb]. fold c'.
  pose proof (ring_type x0 t (u8 c') Hr Hlt) as Hr1. replace (u8 c') with c' in * by (symmetry; apply Z.mod_small; lia).
  pose (b' := <[Z.to_nat (in_e x0 mod INPUT_BUF) := c']> (in_buf x0)).
  eapply does_bind_tt with (R := fun x => x = set_in_buf b' x0).
  { intros x ->. exists tt, (set_in_buf b' x0). split; [|reflexivity].
    exact (runs_update pid n c_in_buf x0 (in_buf x0) (<[Z.to_nat (in_e x0 mod INPUT_BUF) := c']>) eq_refl). }
  eapply does_bind_tt with (R := con lk (mkTty (ready t) l) tx rx).
  { apply does_store. intros x ->. split; [by eexists|]. split; [done|]. split; [exact Hr1|]. by destruct Hs. }
  eapply does_bind_tt with (R := con lk (mkTty (ready t) l) (tx ++ [c']) rx).
  { eapply does_post; [apply consputc_does|]. intros [] x Hx. unfold echo, BACKSPACE in Hx.
    rewrite (proj2 (Z.eqb_neq c' 256)) in Hx by lia. unfold u8 in Hx. by rewrite Z.mod_small in Hx by lia. }
  apply does_part. intros x1 (Hl1 & Hr2 & Hs2). rewrite (ring_full _ _ Hr2). simpl.
  destruct ((c' =? 10) || (c' =? 4) || (length (ready t ++ l) =? 128)%nat); simpl.
  - eapply does_bind_tt with (R := con lk (mkTty (ready t ++ l) []) (tx ++ [c']) rx).
    + apply does_store. intros x ->. split; [by eexists|]. split; [done|]. split; [by apply (ring_commit x1 _ Hr2)|].
      by destruct Hs2.
    + intros x Hx. exists tt, x. split; [by apply runs_wakeup|done].
  - apply does_ret. intros x ->. done.
Qed.

(** A NUL, and a character for which there is no room, is dropped. *)
Lemma enter_char_drops n c lk t tx rx : c = 0 \/ (128 <= length (ready t ++ line t))%nat ->
  does n (con lk t tx rx) (enter_char c) n (fun _ x => con lk t tx rx x).
Proof.
  intros Hd. apply does_part. intros x0 Hx0. rewrite (ring_fill _ _ (proj1 (proj2 Hx0))).
  replace (negb (c =? 0) && _) with false; [apply does_ret; by intros x ->|].
  symmetry. apply andb_false_iff. destruct Hd as [->|Hd]; [by left|right].
  apply Z.ltb_ge. unfold INPUT_BUF. lia.
Qed.

Lemma cons_key_does n c dump lk t tx rx : shallow n -> 0 <= c < 256 -> 10 ∉ line t ->
  does n (con lk t tx rx) (cons_key c dump) n (fun _ x => con lk (tty_key c t).1 (tx ++ (tty_key c t).2) rx x).
Proof.
  intros Hn Hc Hl. destruct t as [rd l]. unfold cons_key, tty_key. cbn [ready line] in *. destruct (c =? 16).
  { apply does_ret. intros x Hx. simpl. by rewrite app_nil_r. }
  destruct (c =? 21).
  { apply does_part. intros x0 Hx0. rewrite (ring_edit _ _ (proj1 (proj2 Hx0))), Nat2Z.id. cbn [line].
    eapply does_bind_tt; [eapply does_pre; [by apply kill_line_does|by intros x ->]|].
    by apply does_ret. }
  destruct ((c =? 8) || (c =? 127)).
  { apply does_part. intros x0 Hx0. rewrite (ring_e_w _ _ (proj1 (proj2 Hx0))). cbn [line].
    destruct l as [|b l].
    - simpl. apply (does_bind_tt pid n n n _ _ _ (con lk (mkTty rd []) tx rx)).
      + apply does_ret. by intros x ->.
      + apply does_ret. intros x Hx. by rewrite app_nil_r.
    - destruct (exists_last (l := b :: l)) as (l' & b' & El); [done|].
      rewrite (app_removelast_last 0 (l := b :: l)) in Hx0 by done. cbn [length Nat.eqb negb when].
      eapply does_bind_tt; [eapply does_pre; [apply rub_out_does|intros x ->; exact Hx0]|]. by apply does_ret. }
  assert (forall c, c = 0 \/ (128 <= length (rd ++ l))%nat ->
    does n (con lk (mkTty rd l) tx rx) (enter_char c ;;; ret dump) n (fun _ x => con lk (mkTty rd l) (tx ++ []) rx x)) as Hdrop.
  { intros c0 Hd. eapply does_bind_tt; [by apply enter_char_drops|]. apply does_ret. intros x Hx. by rewrite app_nil_r. }
  destruct (Z.eqb_spec c 0) as [->|Hc0]; cbn [negb andb]; [by apply Hdrop; left|].
  destruct (Nat.ltb_spec (length rd + length l) 128) as [Hlt|Hge].
  - eapply does_bind_tt; [apply enter_char_does; try done; simpl; rewrite length_app; lia|].
    apply does_ret. cbn [ready line]. intros x Hx. rewrite length_app in Hx. exact Hx.
  - apply Hdrop. right. rewrite length_app. lia.
Qed.

(** ** The interrupt handler *)

Lemma land_1_testbit z : (Z.land (u8 z) 1 =? 0) = negb (Z.testbit z 0).
Proof.
  unfold u8. change 256 with (2 ^ 8). rewrite <- Z.land_ones by lia. rewrite <- Z.land_assoc.
  change (Z.land (Z.ones 8) 1) with 1. change 1 with (Z.ones 1) at 1. rewrite Z.land_ones by lia.
  rewrite <- Z.bit0_mod. by destruct (Z.testbit z 0).
Qed.

Lemma uartgetc_does n lk t tx rx : Forall (fun b => 0 <= b < 256) rx ->
  does n (con lk t tx rx) uartgetc n (fun c x => c = hd (-1) rx /\ con lk t tx (tail rx) x).
Proof.
  intros Hb x (Hl & Hr & Hs). destruct (status_in (devs x)) as [V1 B1].
  set (d1 := snd (dev_in (COM1 + 5) (devs x))) in *.
  assert (forall d r, view_of d = (let v := view_of (devs x) in mkView (v_idx v) (v_reg v) r (v_tx v)) ->
    con lk t tx r (set_devs d x)) as Hcon.
  { intros d r V. split; [done|]. split; [by destruct Hr|].
    destruct Hs as [? ? Hc ? ? ?]. constructor; simpl; try done; unfold cursor in *; by rewrite V. }
  pose proof (so_rx _ _ _ Hs) as Erx. destruct rx as [|b rx].
  - exists (-1), (set_devs d1 x). split; [|split; [done|]].
    + eapply runs_bind; [by apply runs_load|]. rewrite (proj2 (Z.eqb_neq _ _) (so_uart _ _ _ Hs)).
      eapply runs_bind; [apply runs_inb|]. rewrite land_1_testbit, B1, Erx. apply runs_ret.
    + apply Hcon. rewrite V1. simpl. rewrite <- Erx. by destruct (view_of (devs x)).
  - apply Forall_cons in Hb as [Hb _]. destruct (data_in d1 b rx) as [E2 V2]; [by rewrite V1|].
    exists b, (set_devs (snd (dev_in (COM1 + 0) d1)) x). split; [|split; [done|]].
    + eapply runs_bind; [by apply runs_load|]. rewrite (proj2 (Z.eqb_neq _ _) (so_uart _ _ _ Hs)).
      eapply runs_bind; [apply runs_inb|]. fold d1. rewrite land_1_testbit, B1, Erx. simpl.
      pose proof (runs_inb n (COM1 + 0) (set_devs d1 x)) as Hin. simpl in Hin. simpl in E2. rewrite E2 in Hin.
      unfold u8 in Hin. rewrite Z.mod_small in Hin by lia. exact Hin.
    + apply Hcon. by rewrite V2, V1.
Qed.

Lemma intr_loop_does n lk : shallow n -> forall rx fuel t tx dump, (length rx < fuel)%nat -> 10 ∉ line t ->
  Forall (fun b => 0 <= b < 256) rx ->
  does n (con lk t tx rx) (intr_loop uartgetc dump fuel) n
    (fun _ x => con lk (tty_keys rx t).1 (tx ++ (tty_keys rx t).2) [] x).
Proof.
  intros Hn. induction rx as [|c rx IH]; intros fuel t tx dump Hf Hl Hb; destruct fuel as [|fuel]; try (simpl in Hf; lia); cbn [intr_loop].
  - eapply does_bind_eq; [by apply uartgetc_does|]. simpl. apply does_ret. intros x Hx. by rewrite app_nil_r.
  - eapply does_bind_eq; [by apply uartgetc_does|]. simpl in *. apply Forall_cons in Hb as [Hc Hb].
    destruct (Z.ltb_spec c 0); [lia|]. eapply does_bind; [by apply cons_key_does|]. intros d.
    pose proof (tty_key_line c t Hl) as Hl'. destruct (tty_key c t) as [t1 e1]. simpl in *.
    specialize (IH fuel t1 (tx ++ e1) d ltac:(lia) Hl' Hb). destruct (tty_keys rx t1) as [t2 e2]. simpl in *.
    by rewrite <- app_assoc in IH.
Qed.

(** What the calls of the console promise it: they return and leave it alone. *)
Class ConsoleCallsLaws := {
  cc_iunlock ip x : runs 0 (dev_iunlock ip) x 0 tt x;
  cc_ilock ip x : runs 0 (dev_ilock ip) x 0 tt x;
  cc_dump x : runs 0 dump_procs x 0 tt x
}.
Context `{CL : !ConsoleCallsLaws} (lk : spinlock) (Hlk : free_lock lk).

Lemma cons_enter t tx rx : does 0 (con lk t tx rx) (acquire cons_spin) 1 (fun _ x => con (locked_by0 lk) t tx rx x).
Proof using Hlk.
  intros x (Hl & Hr & Hs). eexists tt, _. split.
  - apply (runs_acquire pid 0 c_cons_lock x lk); [simpl; by rewrite Hl|done|unfold shallow; lia].
  - split; [done|]. split; [by destruct Hr|by destruct Hs].
Qed.

Lemma cons_leave t tx rx : does 1 (con (locked_by0 lk) t tx rx) (release cons_spin) 0 (fun _ x => con lk t tx rx x).
Proof using Hlk.
  intros x (Hl & Hr & Hs). eexists tt, _. split.
  - apply (runs_release pid 1 c_cons_lock x (locked_by0 lk)); [simpl; by rewrite Hl|done|unfold shallow; lia|lia].
  - split; [simpl; by apply free_unlocked|]. split; [by destruct Hr|by destruct Hs].
Qed.

Lemma uartintr_does fuel t tx rx : (length rx < fuel)%nat -> 10 ∉ line t -> Forall (fun b => 0 <= b < 256) rx ->
  does 0 (con lk t tx rx) (uartintr fuel) 0 (fun _ x => con lk (tty_keys rx t).1 (tx ++ (tty_keys rx t).2) [] x).
Proof using Hlk CL.
  intros Hf Hl Hb. unfold uartintr, consoleintr. eapply does_bind_tt; [apply cons_enter|].
  eapply does_bind; [apply intr_loop_does; [unfold shallow; lia|done|done|done]|]. intros dump.
  eapply does_bind_tt; [apply cons_leave|]. destruct dump; simpl; [|by apply does_ret].
  intros x Hx. exists tt, x. split; [apply cc_dump|done].
Qed.

(** ** Reading and writing *)

Lemma wait_input_does n fuel lk' c rd l tx rx :
  does n (con lk' (mkTty (c :: rd) l) tx rx) (wait_input (Datatypes.S fuel)) n
    (fun ok x => ok = true /\ con lk' (mkTty (c :: rd) l) tx rx x).
Proof.
  cbn [wait_input]. apply does_part. intros x0 Hx0. rewrite (ring_r_w _ _ (proj1 (proj2 Hx0))). cbn [ready length Nat.eqb].
  apply does_ret. by intros x ->.
Qed.

Lemma read_loop_does n fuel lk' l tx rx : forall k rd dst bs rd',
  take_line k (negb (length dst =? 0)%nat) rd = Some (bs, rd') ->
  does n (con lk' (mkTty rd l) tx rx) (read_loop (Datatypes.S fuel) k dst) n
    (fun a x => a = (true, dst ++ bs) /\ con lk' (mkTty rd' l) tx rx x).
Proof.
  induction k as [|k IH]; intros rd dst bs rd' Ht; cbn [read_loop take_line] in *.
  { injection Ht as <- <-. apply does_ret. intros x Hx. by rewrite app_nil_r. }
  destruct rd as [|c rd]; [done|].
  eapply does_bind_eq; [apply wait_input_does|]. cbn [negb]. apply does_part. intros x0 (Hl & Hr & Hs).
  destruct (ring_pop _ _ _ _ Hr) as [Hc Hr']. rewrite Hc.
  eapply does_bind_tt with (R := fun x => x = set_in_r (u32 (in_r x0 + 1)) x0).
  { apply does_store. intros x ->. split; [by eexists|done]. }
  assert (con lk' (mkTty rd l) tx rx (set_in_r (u32 (in_r x0 + 1)) x0)) as Hcon.
  { split; [done|]. split; [done|]. by destruct Hs. }
  destruct (c =? 4).
  - injection Ht as <- <-. rewrite app_nil_r. destruct (length dst =? 0)%nat; cbn [negb when] in *.
    + eapply does_bind_tt with (R := con lk' (mkTty rd l) tx rx); [apply does_ret; by intros x ->|]. by apply does_ret.
    + eapply does_bind_tt with (R := con lk' (mkTty (c :: rd) l) tx rx); [|by apply does_ret].
      intros x ->. eexists tt, _. split; [by apply (runs_update pid n c_in_r _ (u32 (in_r x0 + 1)))|].
      simpl. rewrite (ring_unread _ _ Hr). split; [done|]. split; [by destruct Hr|by destruct Hs].
  - destruct (Z.eqb_spec c 10) as [->|Hne].
    + injection Ht as <- <-. apply does_ret. by intros x ->.
    + destruct (take_line k true rd) as [[bs1 rd1]|] eqn:E; [|done]. injection Ht as <- <-.
      eapply does_pre; [eapply does_post; [apply (IH rd (dst ++ [c]) bs1 rd1)|]|].
      * rewrite length_app. simpl. by rewrite Nat.add_1_r.
      * intros a x Ha. by rewrite <- app_assoc in Ha.
      * by intros x ->.
Qed.

Lemma consoleread_does ip n fuel t tx rx bs rd : take_line (Z.to_nat n) false (ready t) = Some (bs, rd) ->
  does 0 (con lk t tx rx) (consoleread ip n fuel) 0
    (fun a x => a = (Z.of_nat (length bs), bs) /\ con lk (mkTty rd (line t)) tx rx x).
Proof using Hlk CL.
  intros Ht. unfold consoleread.
  eapply does_bind_tt with (R := con lk t tx rx); [intros x Hx; exists tt, x; split; [apply cc_iunlock|done]|].
  eapply does_bind_tt; [apply cons_enter|]. destruct t as [rd0 l].
  eapply does_bind_eq; [by apply (read_loop_does 1 fuel _ l tx rx _ rd0 [] bs rd)|].
  eapply does_bind_tt; [apply cons_leave|].
  eapply does_bind_tt with (R := con lk (mkTty rd l) tx rx); [intros x Hx; exists tt, x; split; [apply cc_ilock|done]|].
  by apply does_ret.
Qed.

Lemma consolewrite_does ip buf t tx rx : Forall (fun b => 0 <= b < 256) buf ->
  does 0 (con lk t tx rx) (consolewrite ip buf (Z.of_nat (length buf))) 0
    (fun a x => a = Z.of_nat (length buf) /\ con lk t (tx ++ buf) rx x).
Proof using Hlk CL.
  intros Hb. unfold consolewrite. rewrite take_ge by lia.
  eapply does_bind_tt with (R := con lk t tx rx); [intros x Hx; exists tt, x; split; [apply cc_iunlock|done]|].
  eapply does_bind_tt; [apply cons_enter|].
  eapply does_bind_tt with (R := con (locked_by0 lk) t (tx ++ buf) rx).
  { eapply does_pre; [apply (does_for_each pid 1 (fun l => con (locked_by0 lk) t (tx ++ l) rx))|].
    - intros l1 b l2 ->. eapply does_post; [apply consputc_does|]. intros [] x Hx.
      apply Forall_app in Hb as [_ Hb]. apply Forall_cons in Hb as [Hb _]. change 255 with (Z.ones 8) in Hx.
      rewrite Z.land_ones, Z.mod_small in Hx by lia. unfold echo, BACKSPACE in Hx.
      rewrite (proj2 (Z.eqb_neq b 256)) in Hx by lia. unfold u8 in Hx. rewrite Z.mod_small in Hx by lia.
      by rewrite app_assoc.
    - intros x Hx. by rewrite app_nil_r. }
  eapply does_bind_tt; [apply cons_leave|].
  eapply does_bind_tt with (R := con lk t (tx ++ buf) rx); [intros x Hx; exists tt, x; split; [apply cc_ilock|done]|].
  by apply does_ret.
Qed.

(** ** Theorems *)

(** C24: the console is a line editor.  When the serial port interrupts with the bytes
    [rx] received, [uartintr] returns, [input] then holds the lines that the editor
    makes of those keys (kill line, backspace, return as newline, lines ended by newline,
    control-D or a full buffer; what does not fit is dropped), whatever values the
    indices have, also when they pass 2^32, and the keys were echoed.  A [consoleread] of
    [n] bytes that finds the end of a line, or [n] bytes, returns what the editor hands
    out.  The cursor stays in the first 24 rows all the time, so [cgaputc] does not panic,
    and memory outside of them is not written. *)
Theorem console_edits_lines ip n fuel t tx rx bs rd (s : S) :
  in_proc pid 0 s -> con lk t tx rx (part s) -> (length rx < fuel)%nat -> 10 ∉ line t ->
  Forall (fun b => 0 <= b < 256) rx -> take_line (Z.to_nat n) false (ready (tty_keys rx t).1) = Some (bs, rd) ->
  exists s1 s2, uartintr fuel s = Ret tt s1 /\
    con lk (tty_keys rx t).1 (tx ++ (tty_keys rx t).2) [] (part s1) /\
    consoleread ip n fuel s1 = Ret (Z.of_nat (length bs), bs) s2 /\ in_proc pid 0 s2 /\
    con lk (mkTty rd (line (tty_keys rx t).1)) (tx ++ (tty_keys rx t).2) [] (part s2).
Proof using Hlk CL.
  intros Hs Hx Hf Hl Hb Ht.
  destruct (uartintr_does fuel t tx rx Hf Hl Hb _ Hx) as ([] & x1 & Hr1 & H1).
  destruct (Hr1 s Hs eq_refl) as (s1 & E1 & Hs1 & <-).
  destruct (consoleread_does ip n fuel _ _ [] bs rd Ht _ H1) as (a & x2 & Hr2 & -> & H2).
  destruct (Hr2 s1 Hs1 eq_refl) as (s2 & E2 & Hs2 & <-). by exists s1, s2.
Qed.

(** A line that is typed is read.  On a console with no input waiting, the bytes [l]
    of a line shorter than the buffer followed by a return are echoed, and [consoleread]
    with room for them returns the line with a newline at its end; and a
    [consolewrite] of the bytes [out] sends them to the serial port. *)
Theorem console_line ip n fuel l out tx (s : S) :
  in_proc pid 0 s -> con lk (mkTty [] []) tx (l ++ [13]) (part s) -> Forall ordinary l ->
  Forall (fun b => 0 <= b < 256) out -> (length l < 127)%nat -> (length l + 1 < fuel)%nat -> Z.of_nat (length l) < n ->
  exists s1 s2 s3, uartintr fuel s = Ret tt s1 /\
    consoleread ip n fuel s1 = Ret (Z.of_nat (length l) + 1, l ++ [10]) s2 /\
    consolewrite ip out (Z.of_nat (length out)) s2 = Ret (Z.of_nat (length out)) s3 /\
    con lk (mkTty [] []) (tx ++ l ++ [10] ++ out) [] (part s3).
Proof using Hlk CL.
  intros Hs Hx Hl Ho Hlen Hf Hn.
  assert (Forall (fun b => 0 <= b < 256) (l ++ [13])) as Hb.
  { apply Forall_app. split; [|by repeat constructor]. eapply Forall_impl; [exact Hl|]. by intros c [? _]. }
  destruct (uartintr_does fuel (mkTty [] []) tx (l ++ [13]) ltac:(rewrite length_app; simpl; lia) (not_elem_of_nil _) Hb _ Hx) as ([] & x1 & Hr1 & H1).
  destruct (Hr1 s Hs eq_refl) as (s1 & E1 & Hs1 & <-). rewrite tty_keys_line in H1 by (simpl; done || lia). simpl in H1.
  pose proof (take_line_ordinary l (Z.to_nat n) false [] Hl ltac:(lia)) as Ht.
  destruct (consoleread_does ip n fuel (mkTty (l ++ [10]) []) _ [] (l ++ [10]) [] Ht _ H1) as (a & x2 & Hr2 & -> & H2).
  destruct (Hr2 s1 Hs1 eq_refl) as (s2 & E2 & Hs2 & <-).
  destruct (consolewrite_does ip out _ _ _ Ho _ H2) as (a & x3 & Hr3 & -> & H3).
  destruct (Hr3 s2 Hs2 eq_refl) as (s3 & E3 & Hs3 & <-). exists s1, s2, s3.
  rewrite length_app, Nat2Z.inj_add in E2. rewrite <- !app_assoc in H3. done.
Qed.

End Facts.

(** ** An example *)

(** A device whose transmitter is always ready. *)
#[global] Instance view_devices : Devices view := {
  dev_in port v :=
    if port =? CRTPORT + 1 then (v_reg v (v_idx v), v)
    else if port =? COM1 + 5 then (match v_rx v with [] => 32 | _ => 33 end, v)
    else if port =? COM1 + 0 then
      match v_rx v with [] => (0, v) | b :: l => (b, mkView (v_idx v) (v_reg v) l (v_tx v)) end
    else (0, v);
  dev_out port b v :=
    if port =? CRTPORT then mkView b (v_reg v) (v_rx v) (v_tx v)
    else if port =? CRTPORT + 1 then mkView (v_idx v) (upd (v_reg v) (v_idx v) b) (v_rx v) (v_tx v)
    else if port =? COM1 + 0 then mkView (v_idx v) (v_reg v) (v_rx v) (v_tx v ++ [b])
    else v
}.

#[global, refine] Instance view_laws : DevicesLaws view := {| view_of v := v |}.
Proof.
  - done.
  - done.
  - done.
  - intros d. simpl. by destruct (v_rx d).
  - intros d b l v E. subst v. simpl. by rewrite E.
  - done.
Defined.

(** A machine with one process and a console. *)
Record desk := mkDesk { de_mach : mach; de_con : console view; de_pid : Z }.

#[export] Instance desk_mach : HasMach desk.
Proof.
  refine {| mach_of := de_mach; set_mach m s := mkDesk m (de_con s) (de_pid s) |}; try done. by intros [].
Defined.

#[export] Instance desk_part : Part (console view) desk.
Proof.
  refine {| part := de_con; set_part x s := mkDesk (de_mach s) x (de_pid s) |}; try done. by intros [].
Defined.

#[export] Instance desk_procs : Procs desk := {|
  sleep_on _ _ := fun _ => Spin;
  wakeup_on _ := ret tt;
  my_pid := gets de_pid;
  my_killed := ret 0
|}.

#[export] Instance desk_laws : ProcsLaws (console view) desk.
Proof.
  refine {| in_proc pid n s := de_pid s = pid /\ exists cp cq, kcpu 0 (de_mach s) n cp cq |}.
  - intros pid n s [Hp (cp & cq & Hk)]. exists cp, cq. split; [done|]. intros m n' Hk'. split; [done|]. by exists cp, cq.
  - done.
  - intros pid n s c Hs _. by exists s.
  - intros pid n s [<- Hs] _. by exists s.
Defined.

#[export] Instance desk_calls : ConsoleCalls desk := {|
  dev_iunlock _ := ret tt; dev_ilock _ := ret tt; dump_procs := ret tt; ioapic_enable _ _ := ret tt
|}.

#[export] Instance desk_calls_laws : ConsoleCallsLaws (D := view) (S := desk) 1.
Proof. constructor; intros; apply runs_ret. Qed.

Definition desk_cpu : cpu := mkCpu 0 1 0 0 None None 0 0 0 0 (SEG16 0 0 0 0).
Definition desk_machine : mach := mkMach [desk_cpu] 1 0 true 0 0.

(** The last row but one, column 78, the indices about to wrap around. *)
Definition desk_console (rx : list Z) : console view :=
  mkConsole (mkLock 0 "console" None) 1 0 (replicate 128 0) (2 ^ 32 - 2) (2 ^ 32 - 2) (2 ^ 32 - 2)
    (fun _ => 0) 0 1 true (mkView 0 (fun r => if r =? 14 then 7 else 126) rx []).

Lemma desk_con_ok rx : con (fun _ => 0) (mkLock 0 "console" None) (mkTty [] []) [] rx (desk_console rx).
Proof.
  split; [done|]. split; [|constructor; try done].
  constructor; try done; simpl; try lia.
Qed.

Lemma desk_in_proc x : in_proc (X := console view) 1 0 (mkDesk desk_machine x 1).
Proof.
  split; [done|]. exists None, None, desk_cpu. split; [|done].
  constructor; simpl; [done|done|lia|lia|lia|lia].
Qed.

(** "ax", a backspace, "b" and a return: the line "ab\n" is read, over the wrap-around. *)
Lemma console_edits_lines_witness : exists s1 s2 : desk,
  uartintr 9 (mkDesk desk_machine (desk_console [97; 120; 8; 98; 13]) 1) = Ret tt s1 /\
  consoleread 0 10 9 s1 = Ret (3, [97; 98; 10]) s2 /\
  v_tx (devs (de_con s2)) = [97; 120; 8; 32; 8; 98; 10].
Proof.
  destruct (console_edits_lines (S := desk) (D := view) 1 (fun _ => 0) (mkLock 0 "console" None) ltac:(done) 0 10 9
    (mkTty [] []) [] [97; 120; 8; 98; 13] [97; 98; 10] [] (mkDesk desk_machine (desk_console [97; 120; 8; 98; 13]) 1))
    as (s1 & s2 & E1 & _ & E2 & _ & _ & _ & Hs).
  - apply desk_in_proc.
  - apply desk_con_ok.
  - vm_compute. lia.
  - apply not_elem_of_nil.
  - repeat constructor; vm_compute; discriminate.
  - vm_compute. reflexivity.
  - exists s1, s2. split; [exact E1|]. split; [exact E2|]. destruct Hs as [_ _ _ _ Htx _]. exact Htx.
Defined.

Lemma console_line_witness : exists s1 s2 s3 : desk,
  uartintr 5 (mkDesk desk_machine (desk_console [104; 105; 13]) 1) = Ret tt s1 /\
  consoleread 0 10 5 s1 = Ret (3, [104; 105; 10]) s2 /\
  consolewrite 0 [36; 32] 2 s2 = Ret 2 s3.
Proof.
  destruct (console_line (S := desk) (D := view) 1 (fun _ => 0) (mkLock 0 "console" None) ltac:(done) 0 10 5
    [104; 105] [36; 32] [] (mkDesk desk_machine (desk_console [104; 105; 13]) 1)) as (s1 & s2 & s3 & E1 & E2 & E3 & _).
  - apply desk_in_proc.
  - apply desk_con_ok.
  - repeat constructor; try (vm_compute; discriminate); rewrite !not_elem_of_cons; split_and!; try discriminate; apply not_elem_of_nil.
  - repeat constructor; vm_compute; discriminate.
  - vm_compute. lia.
  - vm_compute. lia.
  - vm_compute. reflexivity.
  - exists s1, s2, s3. auto.
Defined.
