(* ===== verification/Sysfile.v ===== *)
(** * The file system calls (sysfile.c)

    Every system call of sysfile.c but [sys_exec], which is in Exec.  What the argument
    functions of syscall.c (modelled in Trap) answer for the call is the record [uargs]:
    they read the registers and the memory of the caller, which the call itself does not
    change before it ends.  Bytes that a call stores in user memory are part of its
    result. *)

From stdpp Require Import base tactics list sets strings gmap.
From Stdlib Require Import ZArith Lia.
From S2P Require Import Prelude Params StringC Spinlock ProcState Comp SysState Words Solo Sleeplock Bio Log Fs Kalloc Pipe File.
Open Scope Z_scope.

(** [None] where the function returns -1. *)
Record uargs := mkUargs {
  arg_int : Z -> option Z;              (* argint *)
  arg_ptr : Z -> Z -> option Z;         (* argptr *)
  arg_str : Z -> option (list Z);       (* argstr: the bytes before the NUL *)
  fetch_int : Z -> option Z;            (* fetchint *)
  fetch_str : Z -> option (list Z);     (* fetchstr *)
  user_bytes : Z -> Z -> list Z         (* the n bytes at an address *)
}.

Section Ops.
Context {S : Type} `{PX : Part sys S} `{PR : Procs S} `{DV : DevSw S} (kend : Z) (fuel : nat) (args : uargs).
Abbreviation K := (M S).

(** [myproc()->ofile[fd]] *)
Definition c_ofile (fd : nat) : cell sys (option nat) := c_self @ c_t_ofile @ elem fd.

Definition argfd (n : Z) : K (option (Z * nat)) :=
  match arg_int args n with
  | None => ret None
  | Some fd =>
      if (fd <? 0) || (Z.of_nat NOFILE <=? fd) then ret None else
      f <- load (c_ofile (Z.to_nat fd)) ;;
      ret (match f with Some f => Some (fd, f) | None => None end)
  end.

(** The loop of [fdalloc] from descriptor [fd] on. *)
Fixpoint fdalloc_from (k fd : nat) (f : nat) : K Z :=
  match k with
  | O => ret (-1)
  | Datatypes.S k =>
      o <- load (c_ofile fd) ;;
      match o with
      | None => store (c_ofile fd) (Some f) ;;; ret (Z.of_nat fd)
      | Some _ => fdalloc_from k (Datatypes.S fd) f
      end
  end.
Definition fdalloc (f : nat) : K Z := fdalloc_from NOFILE 0 f.

Definition sys_dup : K Z :=
  a <- argfd 0 ;;
  match a with
  | None => ret (-1)
  | Some (_, f) =>
      fd <- fdalloc f ;;
      if fd <? 0 then ret (-1) else filedup f ;;; ret fd
  end.

(** The arguments of [read] and [write]: file, count and address. *)
Definition rw_args : K (option (nat * Z * Z)) :=
  a <- argfd 0 ;;
  ret (match a with
       | None => None
       | Some (_, f) =>
           match arg_int args 2 with
           | None => None
           | Some n => match arg_ptr args 1 n with None => None | Some p => Some (f, n, p) end
           end
       end).

(** The result and the bytes stored at the address. *)
Definition sys_read : K (Z * list Z) :=
  a <- rw_args ;;
  match a with None => ret (-1, []) | Some (f, n, _) => fileread fuel f n end.

Definition sys_write : K Z :=
  a <- rw_args ;;
  match a with None => ret (-1) | Some (f, n, p) => filewrite fuel f (user_bytes args p n) n end.

Definition sys_close : K Z :=
  a <- argfd 0 ;;
  match a with
  | None => ret (-1)
  | Some (fd, f) => store (c_ofile (Z.to_nat fd)) None ;;; fileclose kend fuel f ;;; ret 0
  end.

(** The result and what is stored at [st]. *)
Definition sys_fstat : K (Z * option stat) :=
  a <- argfd 0 ;;
  match a with
  | None => ret (-1, None)
  | Some (_, f) =>
      match arg_ptr args 1 20 with
      | None => ret (-1, None)
      | Some _ => st <- filestat fuel f ;; ret (match st with Some _ => 0 | None => -1 end, st)
      end
  end.

(** ** Links *)

(** [ip->nlink += d; iupdate(ip);] *)
Definition add_nlink (ip : nat) (d : Z) : K unit :=
  update (c_inode ip @ c_i_nlink) (fun n => i16 (n + d)) ;;; iupdate fuel ip.

(** [bad:] of [sys_link] *)
Definition link_bad (ip : nat) : K Z :=
  ilock fuel (Some ip) ;;;
  add_nlink ip (-1) ;;;
  iunlockput fuel ip ;;;
  end_op fuel ;;;
  ret (-1).

Definition sys_link : K Z :=
  match arg_str args 0, arg_str args 1 with
  | Some old, Some new =>
      begin_op fuel ;;;
      ip <- namei fuel old ;;
      match ip with
      | None => end_op fuel ;;; ret (-1)
      | Some ip =>
          ilock fuel (Some ip) ;;;
          t <- load (c_inode ip @ c_i_type) ;;
          if t =? T_DIR then iunlockput fuel ip ;;; end_op fuel ;;; ret (-1) else
          add_nlink ip 1 ;;;
          iunlock (Some ip) ;;;
          d <- nameiparent fuel new ;;
          match d with
          | None => link_bad ip
          | Some (dp, name) =>
              ilock fuel (Some dp) ;;;
              ddev <- load (c_inode dp @ c_i_dev) ;;
              idev <- load (c_inode ip @ c_i_dev) ;;
              r <- (if negb (ddev =? idev) then ret (-1)
                    else inum <- load (c_inode ip @ c_i_inum) ;; dirlink fuel dp name inum) ;;
              if r <? 0 then iunlockput fuel dp ;;; link_bad ip else
              iunlockput fuel dp ;;;
              iput fuel ip ;;;
              end_op fuel ;;;
              ret 0
          end
      end
  | _, _ => ret (-1)
  end.

(** The loop of [isdirempty]. *)
Fixpoint dirempty_from (k : nat) (dp : nat) (off : Z) : K bool :=
  match k with
  | O => fuel_out
  | Datatypes.S k =>
      size <- load (c_inode dp @ c_i_size) ;;
      if off <? size then
        de <- readi fuel dp off sizeof_dirent ;;
        if negb (fst de =? sizeof_dirent) then panic "isdirempty: readi" else
        if negb (de_inum (snd de) =? 0) then ret false else dirempty_from k dp (off + sizeof_dirent)
      else ret true
  end.
Definition isdirempty (dp : nat) : K bool :=
  size <- load (c_inode dp @ c_i_size) ;;
  dirempty_from (dir_rounds size) dp (2 * sizeof_dirent).

(** [bad:] of [sys_unlink] *)
Definition unlink_bad (dp : nat) : K Z := iunlockput fuel dp ;;; end_op fuel ;;; ret (-1).

(** [sys_unlink] once the entry is found. *)
Definition unlink_entry (dp ip : nat) (off : Z) : K Z :=
  ilock fuel (Some ip) ;;;
  r <- load (c_inode ip) ;;
  if i_nlink r <? 1 then panic "unlink: nlink < 1" else
  empty <- (if i_type r =? T_DIR then isdirempty ip else ret true) ;;
  if negb empty then iunlockput fuel ip ;;; unlink_bad dp else
  n <- writei fuel dp (replicate 16 0) off sizeof_dirent ;;
  if negb (n =? sizeof_dirent) then panic "unlink: writei" else
  t <- load (c_inode ip @ c_i_type) ;;
  when (t =? T_DIR) (add_nlink dp (-1)) ;;;
  iunlockput fuel dp ;;;
  add_nlink ip (-1) ;;;
  iunlockput fuel ip ;;;
  end_op fuel ;;;
  ret 0.

Definition sys_unlink : K Z :=
  match arg_str args 0 with
  | None => ret (-1)
  | Some path =>
      begin_op fuel ;;;
      d <- nameiparent fuel path ;;
      match d with
      | None => end_op fuel ;;; ret (-1)
      | Some (dp, name) =>
          ilock fuel (Some dp) ;;;
          if (namecmp name [46] =? 0) || (namecmp name [46; 46] =? 0) then unlink_bad dp else
          e <- dirlookup fuel dp name ;;
          match e with
          | None => unlink_bad dp
          | Some (ip, off) => unlink_entry dp ip off
          end
      end
  end.

(** ** Opening and creating *)

Definition create (path : list Z) (type major minor : Z) : K (option nat) :=
  d <- nameiparent fuel path ;;
  match d with
  | None => ret None
  | Some (dp, name) =>
      ilock fuel (Some dp) ;;;
      e <- dirlookup fuel dp name ;;
      match e with
      | Some (ip, _) =>
          iunlockput fuel dp ;;;
          ilock fuel (Some ip) ;;;
          t <- load (c_inode ip @ c_i_type) ;;
          if (type =? T_FILE) && (t =? T_FILE) then ret (Some ip)
          else iunlockput fuel ip ;;; ret None
      | None =>
          dev <- load (c_inode dp @ c_i_dev) ;;
          ip <- ialloc fuel dev type ;;
          ilock fuel (Some ip) ;;;
          store (c_inode ip @ c_i_major) (i16 major) ;;;
          store (c_inode ip @ c_i_minor) (i16 minor) ;;;
          store (c_inode ip @ c_i_nlink) 1 ;;;
          iupdate fuel ip ;;;
          inum <- load (c_inode ip @ c_i_inum) ;;
          when (type =? T_DIR)
            (add_nlink dp 1 ;;;
             r <- dirlink fuel ip [46] inum ;;
             r <- (if r <? 0 then ret r
                   else up <- load (c_inode dp @ c_i_inum) ;; dirlink fuel ip [46; 46] up) ;;
             when (r <? 0) (panic "create dots")) ;;;
          r <- dirlink fuel dp name inum ;;
          if r <? 0 then panic "create: dirlink" else
          iunlockput fuel dp ;;;
          ret (Some ip)
      end
  end.

(** The inode to open, locked; [None] when the call is to fail. *)
Definition open_inode (path : list Z) (omode : Z) : K (option nat) :=
  if negb (Z.land omode O_CREATE =? 0) then create path T_FILE 0 0
  else
    ip <- namei fuel path ;;
    match ip with
    | None => ret None
    | Some ip =>
        ilock fuel (Some ip) ;;;
        t <- load (c_inode ip @ c_i_type) ;;
        if (t =? T_DIR) && negb (omode =? O_RDONLY) then iunlockput fuel ip ;;; ret None
        else ret (Some ip)
    end.

(** [f->type = FD_INODE; ...] *)
Definition open_file (f ip : nat) (omode : Z) : K unit :=
  store (c_file f @ c_f_type) FD_INODE ;;;
  store (c_file f @ c_f_ip) (Some ip) ;;;
  store (c_file f @ c_f_off) 0 ;;;
  store (c_file f @ c_f_readable) (if Z.land omode O_WRONLY =? 0 then 1 else 0) ;;;
  store (c_file f @ c_f_writable) (if (Z.land omode O_WRONLY =? 0) && (Z.land omode O_RDWR =? 0) then 0 else 1).

Definition sys_open : K Z :=
  match arg_str args 0, arg_int args 1 with
  | Some path, Some omode =>
      begin_op fuel ;;;
      ip <- open_inode path omode ;;
      match ip with
      | None => end_op fuel ;;; ret (-1)
      | Some ip =>
          f <- filealloc ;;
          match f with
          | None => iunlockput fuel ip ;;; end_op fuel ;;; ret (-1)
          | Some f =>
              fd <- fdalloc f ;;
              if fd <? 0 then
                fileclose kend fuel f ;;; iunlockput fuel ip ;;; end_op fuel ;;; ret (-1)
              else
                iunlock (Some ip) ;;;
                end_op fuel ;;;
                open_file f ip omode ;;;
                ret fd
          end
      end
  | _, _ => ret (-1)
  end.

(** [mkdir] and [mknod] after their arguments. *)
Definition make_node (path : option (list Z)) (type major minor : Z) : K Z :=
  ip <- match path with Some path => create path type major minor | None => ret None end ;;
  match ip with
  | None => end_op fuel ;;; ret (-1)
  | Some ip => iunlockput fuel ip ;;; end_op fuel ;;; ret 0
  end.

Definition sys_mkdir : K Z := begin_op fuel ;;; make_node (arg_str args 0) T_DIR 0 0.

Definition sys_mknod : K Z :=
  begin_op fuel ;;;
  match arg_str args 0, arg_int args 1, arg_int args 2 with
  | Some path, Some major, Some minor => make_node (Some path) T_DEV (i16 major) (i16 minor)
  | _, _, _ => make_node None T_DEV 0 0
  end.

Definition sys_chdir : K Z :=
  begin_op fuel ;;;
  ip <- match arg_str args 0 with Some path => namei fuel path | None => ret None end ;;
  match ip with
  | None => end_op fuel ;;; ret (-1)
  | Some ip =>
      ilock fuel (Some ip) ;;;
      t <- load (c_inode ip @ c_i_type) ;;
      if negb (t =? T_DIR) then iunlockput fuel ip ;;; end_op fuel ;;; ret (-1) else
      iunlock (Some ip) ;;;
      old <- load (c_self @ c_t_cwd) ;;
      old <- deref old ;;
      iput fuel old ;;;
      end_op fuel ;;;
      store (c_self @ c_t_cwd) (Some ip) ;;;
      ret 0
  end.

(** The result, and the two descriptors stored at [fd]. *)
Definition sys_pipe : K (Z * list Z) :=
  match arg_ptr args 0 8 with
  | None => ret (-1, [])
  | Some _ =>
      p <- pipealloc kend fuel ;;
      match p with
      | None => ret (-1, [])
      | Some (rf, wf) =>
          fd0 <- fdalloc rf ;;
          fd1 <- (if fd0 <? 0 then ret (-1) else fdalloc wf) ;;
          if fd1 <? 0 then
            when (0 <=? fd0) (store (c_ofile (Z.to_nat fd0)) None) ;;;
            fileclose kend fuel rf ;;;
            fileclose kend fuel wf ;;;
            ret (-1, [])
          else ret (0, le_bytes 4 fd0 ++ le_bytes 4 fd1)
      end
  end.

End Ops.
