(* ===== verification/Exec.v ===== *)
(** * Running a program (exec.c, elf.h, sys_exec of sysfile.c)

    [exec] and its parts: the header checks, the segments, the stack with the arguments,
    the commit.  A string argument is the list of its bytes, without the NUL.
    [switchuvm] of vm.c works on the CPU's registers and is modelled in Scheduler; here it
    is an argument. *)

From stdpp Require Import base tactics list sets strings gmap.
From Stdlib Require Import ZArith Lia.
From S2P Require Import Prelude Params StringC Spinlock ProcState Comp SysState Words Solo Sleeplock Bio Log Fs Kalloc Vm Sysfile.
Open Scope Z_scope.

(** elf.h *)
Definition ELF_MAGIC : Z := 0x464C457F.
Definition ELF_PROG_LOAD : Z := 1.
Definition sizeof_elfhdr : Z := 52.
Definition sizeof_proghdr : Z := 32.

Record elfhdr := mkElfhdr { eh_magic : Z; eh_entry : Z; eh_phoff : Z; eh_phnum : Z }.
Definition get_elfhdr (d : list Z) : elfhdr :=
  mkElfhdr (get32 0 d) (get32 24 d) (get32 28 d) (get16 44 d).

Record proghdr := mkProghdr { ph_type : Z; ph_off : Z; ph_vaddr : Z; ph_filesz : Z; ph_memsz : Z }.
Definition get_proghdr (d : list Z) : proghdr :=
  mkProghdr (get32 0 d) (get32 4 d) (get32 8 d) (get32 16 d) (get32 20 d).

(** The name after the last slash of the path: [for(last=s=path; *s; s++) if( *s == '/') last = s+1;] *)
Fixpoint base_name (last s : list Z) : list Z :=
  match s with
  | [] => last
  | c :: s => if c =? 47 then base_name s s else base_name last s
  end.

(** [safestrcpy(curproc->name, last, sizeof(curproc->name))]: at most 15 bytes and a NUL. *)
Definition proc_name (s : list Z) : list Z := take 15 s.

(** [(sp - (strlen(arg) + 1)) & ~3] *)
Definition arg_sp (sp : Z) (arg : list Z) : Z := Z.land (u32 (sp - (Z.of_nat (length arg) + 1))) (Z.lnot 3).

(** [ustack], as words: the fake return PC, [argc], the [argv] pointer, the pointers and 0. *)
Definition ustack_words (sp : Z) (ptrs : list Z) : list Z :=
  let argc := Z.of_nat (length ptrs) in
  [0xffffffff; argc; u32 (sp - (argc + 1) * 4)] ++ ptrs ++ [0].

Section Ops.
Context {S : Type} `{PX : Part sys S} `{PR : Procs S} `{DV : DevSw S} (kend kdata : Z) (fuel : nat) (switchuvm : M S unit).
Abbreviation K := (M S).

(** The loop over the program headers from offset [off] on: the new [sz], none for
    [goto bad]. *)
Fixpoint load_segs (n : nat) (ip : nat) (pgdir off sz : Z) : K (option Z) :=
  match n with
  | O => ret (Some sz)
  | Datatypes.S n =>
      r <- readi fuel ip off sizeof_proghdr ;;
      if negb (fst r =? sizeof_proghdr) then ret None else
      let ph := get_proghdr (snd r) in
      let next := u32 (off + sizeof_proghdr) in
      if negb (ph_type ph =? ELF_PROG_LOAD) then load_segs n ip pgdir next sz else
      if ph_memsz ph <? ph_filesz ph then ret None else
      if u32 (ph_vaddr ph + ph_memsz ph) <? ph_vaddr ph then ret None else
      sz <- allocuvm kend pgdir sz (u32 (ph_vaddr ph + ph_memsz ph)) ;;
      if sz =? 0 then ret None else
      if negb (ph_vaddr ph mod PGSIZE =? 0) then ret None else
      k <- loaduvm fuel pgdir (ph_vaddr ph) ip (ph_off ph) (ph_filesz ph) ;;
      if k <? 0 then ret None else load_segs n ip pgdir next sz
  end.

(** The loop that pushes the argument strings: the stack pointer and the pointers pushed
    so far, [None] for [goto bad]. *)
Fixpoint push_args (argv : list (list Z)) (pgdir sp : Z) (ptrs : list Z) : K (option (Z * list Z)) :=
  match argv with
  | [] => ret (Some (sp, ptrs))
  | arg :: argv =>
      if (MAXARG <=? length ptrs)%nat then ret None else
      let sp := arg_sp sp arg in
      k <- copyout pgdir sp (arg ++ [0]) ;;
      if k <? 0 then ret None else push_args argv pgdir sp (ptrs ++ [sp])
  end.

(** The stack of the program: the final stack pointer. *)
Definition push_stack (argv : list (list Z)) (pgdir sp : Z) : K (option Z) :=
  r <- push_args argv pgdir sp [] ;;
  match r with
  | None => ret None
  | Some (sp, ptrs) =>
      let ustack := ustack_words sp ptrs in
      let sp := u32 (sp - 4 * Z.of_nat (length ustack)) in
      k <- copyout pgdir sp (concat (map (le_bytes 4) ustack)) ;;
      ret (if k <? 0 then None else Some sp)
  end.

(** [bad:] with an inode, and without. *)
Definition exec_bad (pgdir : Z) (ip : option nat) : K Z :=
  when (negb (pgdir =? 0)) (freevm kend pgdir) ;;;
  match ip with Some ip => iunlockput fuel ip ;;; end_op fuel | None => ret tt end ;;;
  ret (-1).

(** Commit to the user image. *)
Definition exec_commit (path : list Z) (pgdir sz entry sp : Z) : K Z :=
  store (c_self @ c_t_name) (proc_name (base_name path path)) ;;;
  oldpgdir <- load (c_self @ c_t_pgdir) ;;
  store (c_self @ c_t_pgdir) pgdir ;;;
  store (c_self @ c_t_sz) sz ;;;
  store (c_self @ c_t_eip) entry ;;;
  store (c_self @ c_t_esp) sp ;;;
  switchuvm ;;;
  freevm kend oldpgdir ;;;
  ret 0.

(** After the program is loaded: two pages at the next page boundary, the first made
    inaccessible, the second the user stack. *)
Definition exec_stack (path : list Z) (argv : list (list Z)) (elf : elfhdr) (pgdir sz : Z) : K Z :=
  let sz := PGROUNDUP sz in
  sz <- allocuvm kend pgdir sz (u32 (sz + 2 * PGSIZE)) ;;
  if sz =? 0 then exec_bad pgdir None else
  clearpteu pgdir (u32 (sz - 2 * PGSIZE)) ;;;
  sp <- push_stack argv pgdir sz ;;
  match sp with
  | None => exec_bad pgdir None
  | Some sp => exec_commit path pgdir sz (eh_entry elf) sp
  end.

Definition exec (path : list Z) (argv : list (list Z)) : K Z :=
  begin_op fuel ;;;
  ip <- namei fuel path ;;
  match ip with
  | None => end_op fuel ;;; kprintf "exec: fail\n" [] ;;; ret (-1)
  | Some ip =>
      ilock fuel (Some ip) ;;;
      r <- readi fuel ip 0 sizeof_elfhdr ;;
      if negb (fst r =? sizeof_elfhdr) then exec_bad 0 (Some ip) else
      let elf := get_elfhdr (snd r) in
      if negb (eh_magic elf =? ELF_MAGIC) then exec_bad 0 (Some ip) else
      pgdir <- setupkvm kend kdata ;;
      if pgdir =? 0 then exec_bad 0 (Some ip) else
      sz <- load_segs (Z.to_nat (eh_phnum elf)) ip pgdir (eh_phoff elf) 0 ;;
      match sz with
      | None => exec_bad pgdir (Some ip)
      | Some sz =>
          iunlockput fuel ip ;;;
          end_op fuel ;;;
          exec_stack path argv elf pgdir sz
      end
  end.

(** ** sys_exec *)

(** The loop over the user's [argv]: the strings, none when the call is to return -1. *)
Fixpoint exec_args (args : uargs) (k : nat) (uargv : Z) (argv : list (list Z)) : option (list (list Z)) :=
  match k with
  | O => None
  | Datatypes.S k =>
      match fetch_int args uargv with
      | None => None
      | Some uarg =>
          if uarg =? 0 then Some argv else
          match fetch_str args (u32 uarg) with
          | None => None
          | Some s => exec_args args k (u32 (uargv + 4)) (argv ++ [s])
          end
      end
  end.

Definition sys_exec (args : uargs) : K Z :=
  match arg_str args 0, arg_int args 1 with
  | Some path, Some uargv =>
      match exec_args args MAXARG (u32 uargv) [] with
      | None => ret (-1)
      | Some argv => exec path argv
      end
  | _, _ => ret (-1)
  end.

End Ops.
