(* ===== verification/ExecFacts.v ===== *)
(** * The stack of a new program

    What [exec] leaves on the user stack, seen through the user's page table: the words
    [main] is called with and the argument strings they point to. *)

From stdpp Require Import base tactics list sets strings gmap.
From Stdlib Require Import ZArith Lia.
From S2P Require Import Prelude Params StringC Spinlock ProcState Comp SysState Words Solo Kalloc Fs FileFacts Vm VmFacts VmSpace VmCopy Exec.
Open Scope Z_scope.

(** Where the arguments go: the stack pointer after them and the address of each. *)
Fixpoint layout (sp : Z) (argv : list (list Z)) : Z * list Z :=
  match argv with
  | [] => (sp, [])
  | arg :: argv => let '(e, ps) := layout (arg_sp sp arg) argv in (e, arg_sp sp arg :: ps)
  end.

(** An upper bound for the bytes of the strings, each with its NUL and its padding. *)
Fixpoint strings_need (argv : list (list Z)) : Z :=
  match argv with [] => 0 | arg :: argv => Z.of_nat (length arg) + 4 + strings_need argv end.

(** And of all that is pushed. *)
Definition stack_need (argv : list (list Z)) : Z := strings_need argv + 4 * (Z.of_nat (length argv) + 4).

(** The user reads [bs] at [a]. *)
Definition ustring (m : memory) (U : gmap Z Z) (a : Z) (bs : list Z) : Prop :=
  forall i b, bs !! i = Some b -> ubyte m U (a + Z.of_nat i) = Some b.

Lemma arg_sp_range sp arg : 0 <= sp < 2 ^ 32 -> Z.of_nat (length arg) + 4 <= sp ->
  sp - (Z.of_nat (length arg) + 4) <= arg_sp sp arg /\ arg_sp sp arg + Z.of_nat (length arg) + 1 <= sp /\ arg_sp sp arg mod 4 = 0.
Proof.
  intros Hs Hl. unfold arg_sp. rewrite u32_id by lia. set (z := sp - (Z.of_nat (length arg) + 1)).
  assert (Z.land z (Z.lnot 3) = 4 * (z / 4)) as ->.
  { change (Z.lnot 3) with (Z.lnot (Z.ones 2)). rewrite <- Z.ldiff_land, Z.ldiff_ones_r by lia.
    rewrite Z.shiftl_mul_pow2, Z.shiftr_div_pow2 by lia. change (2 ^ 2) with 4. ring. }
  pose proof (Z.div_mod z 4 ltac:(lia)). pose proof (Z.mod_pos_bound z 4 ltac:(lia)).
  split; [lia|]. split; [lia|]. rewrite Z.mul_comm. apply Z.mod_mul. lia.
Qed.

Lemma strings_need_pos argv : 0 <= strings_need argv.
Proof. induction argv; simpl; lia. Qed.

Lemma layout_range argv : forall sp, 0 <= sp < 2 ^ 32 -> strings_need argv <= sp ->
  sp - strings_need argv <= (layout sp argv).1 <= sp /\ length (layout sp argv).2 = length argv.
Proof.
  induction argv as [|arg argv IH]; intros sp Hs Hl; simpl in *; [lia|].
  pose proof (strings_need_pos argv). destruct (arg_sp_range sp arg Hs ltac:(lia)) as (H1 & H2 & _).
  specialize (IH (arg_sp sp arg) ltac:(lia) ltac:(lia)). destruct (layout (arg_sp sp arg) argv) as [e ps]. simpl in *. lia.
Qed.

Lemma layout_aligned argv : forall sp, 0 <= sp < 2 ^ 32 -> strings_need argv <= sp -> sp mod 4 = 0 -> (layout sp argv).1 mod 4 = 0.
Proof.
  induction argv as [|arg argv IH]; intros sp Hs Hl Ha; simpl in *; [done|].
  pose proof (strings_need_pos argv). destruct (arg_sp_range sp arg Hs ltac:(lia)) as (H1 & H2 & H3).
  specialize (IH (arg_sp sp arg) ltac:(lia) ltac:(lia) H3). by destruct (layout (arg_sp sp arg) argv).
Qed.

Lemma layout_ptrs argv : forall sp i p, 0 <= sp < 2 ^ 32 -> strings_need argv <= sp ->
  (layout sp argv).2 !! i = Some p -> (layout sp argv).1 <= p.
Proof.
  induction argv as [|arg argv IH]; intros sp i p Hs Hl Hi; simpl in *; [done|].
  pose proof (strings_need_pos argv). destruct (arg_sp_range sp arg Hs ltac:(lia)) as (H1 & H2 & _).
  pose proof (layout_range argv (arg_sp sp arg) ltac:(lia) ltac:(lia)) as [Hr _].
  specialize (IH (arg_sp sp arg)). destruct (layout (arg_sp sp arg) argv) as [e ps]. simpl in *.
  destruct i as [|i]; simpl in Hi; [injection Hi as <-; lia|]. apply (IH i); [lia|lia|done].
Qed.

(** The bytes of words. *)
Definition words_bytes (ws : list Z) : list Z := concat (map (le_bytes 4) ws).

Lemma words_bytes_length ws : length (words_bytes ws) = (4 * length ws)%nat.
Proof. unfold words_bytes. induction ws as [|w ws IH]; [done|]. cbn [map concat]. rewrite length_app, IH, length_le_bytes. simpl. lia. Qed.

Section Code.
Context {S : Type} `{PL : ProcsLaws sys S} `{DV : DevSw S} (kend : Z) (Hend : KERNBASE < kend) (pid : Z).
Implicit Types (m : memory) (T U : gmap Z Z) (l : list Z) (x y : sys).
Abbreviation does := (does (X := sys) (S := S) pid).
Abbreviation space := (space kend).
Abbreviation Vs := (Vs kend).

(** Memory has changed for the user between [a] and [b] only, and the tables not at all. *)
Record pushed_to m T U a b m' : Prop := {
  pt_only : only (tables U) m m';
  pt_pte : forall v, 0 <= v -> pte m' T v = pte m T v;
  pt_frame : forall c, ~ a <= c < b -> ubyte m' U c = ubyte m U c
}.

Lemma pushed_trans m T U a b c m1 m2 : a <= b -> b <= c -> pushed_to m T U b c m1 -> pushed_to m1 T U a b m2 -> pushed_to m T U a c m2.
Proof.
  intros Ha Hb [O1 P1 F1] [O2 P2 F2]. constructor.
  - by eapply only_trans.
  - intros v Hv. by rewrite P2, P1.
  - intros z Hz. rewrite F2, F1 by lia. done.
Qed.

(** Strings above what changed are kept. *)
Lemma pushed_string m T U a b m' c bs : pushed_to m T U a b m' -> b <= c -> ustring m U c bs -> ustring m' U c bs.
Proof. intros Hp Hc Hs i z Hi. rewrite (pt_frame _ _ _ _ _ _ Hp) by lia. by apply Hs. Qed.

Context (d : Z) T U l (lo top : Z) (Hlo : 0 <= lo) (Htop : top <= KERNBASE).

(** The page [lo] to [top] is the user's stack. *)
Definition stack_ok m : Prop := space m d T U l /\ forall a, lo <= a < top -> accessible m T U (a / PGSIZE).

Lemma stack_ok_pushed m a b m' : stack_ok m -> pushed_to m T U a b m' -> space m' d T U l -> stack_ok m'.
Proof using Hlo.
  intros [_ Hacc] Hp Hs. split; [done|]. intros z Hz. destruct (Hacc z Hz) as [Hu Hf]. split; [done|].
  rewrite (pt_pte _ _ _ _ _ _ Hp); [done|]. apply Z.div_pos; unfold PGSIZE; lia.
Qed.

Lemma copyout_does y m va buf : stack_ok m -> lo <= va -> va + Z.of_nat (length buf) <= top ->
  does 0 (Vs y l m) (copyout d va buf) 0 (fun r x => r = 0 /\ exists m', Vs y l m' x /\ stack_ok m' /\
    pushed_to m T U va (va + Z.of_nat (length buf)) m' /\ ustring m' U va buf).
Proof using Hend Hlo Htop PL.
  intros [Hs Hacc] Hva Hle.
  eapply does_post; [apply (copyout_loop_does kend Hend pid y d T U l _ m va buf Hs); try lia; intros a Ha; apply Hacc; lia|].
  intros r x [-> (m' & Hx & Hs' & Ho & Hp & Hb)]. split; [done|]. exists m'.
  assert (pushed_to m T U va (va + Z.of_nat (length buf)) m') as Hpt.
  { constructor; [done|done|]. intros c Hc. rewrite Hb. by rewrite (proj2 (in_range_false _ _ _)) by lia. }
  split; [done|]. split; [exact (stack_ok_pushed m _ _ m' (conj Hs Hacc) Hpt Hs')|]. split; [done|].
  intros i b Hi. pose proof (lookup_lt_Some _ _ _ Hi). rewrite Hb, (proj2 (in_range_spec _ _ _)) by lia.
  replace (Z.to_nat (va + Z.of_nat i - va)) with i by lia. by rewrite nth_lookup, Hi.
Qed.

Lemma push_args_does y argv : forall m sp ptrs, stack_ok m -> lo + strings_need argv <= sp <= top ->
  (length ptrs + length argv <= MAXARG)%nat ->
  does 0 (Vs y l m) (push_args argv d sp ptrs) 0 (fun r x => r = Some ((layout sp argv).1, ptrs ++ (layout sp argv).2) /\
    exists m', Vs y l m' x /\ stack_ok m' /\ pushed_to m T U (layout sp argv).1 sp m' /\
      forall i p arg, (layout sp argv).2 !! i = Some p -> argv !! i = Some arg -> ustring m' U p (arg ++ [0])).
Proof using Hend Hlo Htop PL.
  assert (KERNBASE < 2 ^ 32) as HK by done.
  induction argv as [|arg argv IH]; intros m sp ptrs Hok Hsp Hn; cbn [push_args layout strings_need length] in *.
  { apply does_ret. intros x Hx. rewrite app_nil_r. split; [done|]. exists m. split; [done|]. split; [done|]. split; [|done].
    constructor; [apply only_refl|done|done]. }
  rewrite (proj2 (Nat.leb_gt _ _)) by lia. pose proof (strings_need_pos argv).
  destruct (arg_sp_range sp arg ltac:(lia) ltac:(lia)) as (H1 & H2 & _). set (sp1 := arg_sp sp arg) in *.
  eapply does_bind_eq; [eapply does_post; [apply (copyout_does y m sp1 (arg ++ [0]) Hok); rewrite ?length_app; simpl; lia|]|].
  { intros r x Hr. exact Hr. }
  cbn [Z.ltb Z.compare]. apply does_ex. intros m1. intros x (Hx & Hok1 & Hp1 & Hs1). rewrite length_app in Hp1. simpl in Hp1.
  destruct (IH m1 sp1 (ptrs ++ [sp1]) Hok1 ltac:(lia) ltac:(rewrite length_app; simpl; lia) x Hx) as (r & x' & Hr & -> & m2 & Hx2 & Hok2 & Hp2 & Hs2).
  pose proof (layout_range argv sp1 ltac:(lia) ltac:(lia)) as [Hrg _]. destruct (layout sp1 argv) as [e ps]. simpl in *.
  eexists _, x'. split; [exact Hr|]. split; [by rewrite <- app_assoc|]. exists m2. split; [done|]. split; [done|].
  assert (pushed_to m T U sp1 sp m1) as Hp1'.
  { destruct Hp1 as [O P F]. constructor; [done|done|]. intros c Hc. apply F. lia. }
  split; [by apply (pushed_trans m T U e sp1 sp m1); [lia|lia|..]|].
  intros [|i] p a Hi Ha; simpl in *; [|by eapply Hs2]. injection Hi as <-. injection Ha as <-.
  eapply pushed_string; [exact Hp2|lia|done].
Qed.

(** The stack pointer [main] starts with. *)
Definition main_sp (argv : list (list Z)) : Z := (layout top argv).1 - 4 * (Z.of_nat (length argv) + 4).

Lemma ustack_main argv : 0 <= main_sp argv -> strings_need argv <= top ->
  ustack_words (layout top argv).1 (layout top argv).2 =
    [0xffffffff; Z.of_nat (length argv); main_sp argv + 12] ++ (layout top argv).2 ++ [0] /\
  Z.of_nat (length (words_bytes (ustack_words (layout top argv).1 (layout top argv).2))) = 4 * (Z.of_nat (length argv) + 4).
Proof using Htop.
  intros H0 Hn. assert (KERNBASE < 2 ^ 32) as HK by done. pose proof (strings_need_pos argv). unfold main_sp in *.
  pose proof (layout_range argv top ltac:(lia) Hn) as [Hrg Hlen]. split.
  - unfold ustack_words. rewrite Hlen, u32_id by lia. do 2 f_equal. f_equal. f_equal. lia.
  - rewrite words_bytes_length. unfold ustack_words. rewrite !length_app, Hlen. simpl. lia.
Qed.

Lemma push_stack_does y m argv : stack_ok m -> lo + stack_need argv <= top -> (length argv <= MAXARG)%nat ->
  does 0 (Vs y l m) (push_stack argv d top) 0 (fun r x => r = Some (main_sp argv) /\ exists m', Vs y l m' x /\ stack_ok m' /\
    pushed_to m T U (main_sp argv) top m' /\
    ustring m' U (main_sp argv) (words_bytes (ustack_words (layout top argv).1 (layout top argv).2)) /\
    forall i p arg, (layout top argv).2 !! i = Some p -> argv !! i = Some arg -> ustring m' U p (arg ++ [0])).
Proof using Hend Hlo Htop PL.
  intros Hok Hfit Hn. assert (KERNBASE < 2 ^ 32) as HK by done. unfold stack_need in Hfit.
  pose proof (strings_need_pos argv) as Hpos. pose proof (layout_range argv top ltac:(lia) ltac:(lia)) as [Hrg Hlen].
  destruct (ustack_main argv ltac:(unfold main_sp; lia) ltac:(lia)) as [_ Hul].
  unfold push_stack. eapply does_bind_eq; [apply (push_args_does y argv m top []); [done|lia|simpl; lia]|].
  cbn [app]. apply does_ex. intros m1 x (Hx & Hok1 & Hp1 & Hs1). pose proof (fun i p => layout_ptrs argv top i p ltac:(lia) ltac:(lia)) as Hps.
  set (e := (layout top argv).1) in *. set (ps := (layout top argv).2) in *. fold (words_bytes (ustack_words e ps)).
  replace (4 * Z.of_nat (length (ustack_words e ps))) with (4 * (Z.of_nat (length argv) + 4)) by (rewrite words_bytes_length in Hul; lia).
  fold e in Hul |- *. assert (main_sp argv = e - 4 * (Z.of_nat (length argv) + 4)) as Esp by done. rewrite u32_id by lia. rewrite <- Esp.
  destruct (copyout_does y m1 (main_sp argv) (words_bytes (ustack_words e ps)) Hok1 ltac:(lia) ltac:(lia) x Hx)
    as (r & x' & Hr & -> & m2 & Hx2 & Hok2 & Hp2 & Hs2).
  rewrite Hul in Hp2. replace (main_sp argv + 4 * (Z.of_nat (length argv) + 4)) with e in Hp2 by lia.
  exists (Some (main_sp argv)), x'. split; [|split; [done|]].
  - eapply runs_bind; [exact Hr|]. apply runs_ret.
  - exists m2. split; [done|]. split; [done|]. split; [by apply (pushed_trans _ T U _ e top m1); [lia|lia|..]|].
    split; [done|]. intros i p arg Hi Harg. eapply pushed_string; [exact Hp2|by eapply Hps|by eapply Hs1].
Qed.

(** C23: the stack [exec] makes is the one [main] expects.  When the arguments fit in the
    stack page, [push_stack] succeeds; at the final stack pointer, which is a multiple of 4,
    the user finds a return address, [argc], and the address of the array that follows:
    a pointer for each argument and a null pointer.  Each pointer leads to the bytes of its
    argument and a NUL.  What the user had outside of the bytes pushed is unchanged, and
    so are the page tables and the free list. *)
Theorem exec_stack_layout argv (s : S) : in_proc pid 0 s -> alloc_ok kend l (part s) -> stack_ok (mem (part s)) ->
  top mod 4 = 0 -> lo + stack_need argv <= top -> (length argv <= MAXARG)%nat ->
  exists sp ptrs s', push_stack argv d top s = Ret (Some sp) s' /\ in_proc pid 0 s' /\ alloc_ok kend l (part s') /\
    stack_ok (mem (part s')) /\ sp mod 4 = 0 /\ lo <= sp <= top /\ length ptrs = length argv /\
    ustring (mem (part s')) U sp (words_bytes ([0xffffffff; Z.of_nat (length argv); sp + 12] ++ ptrs ++ [0])) /\
    (forall i p arg, ptrs !! i = Some p -> argv !! i = Some arg -> ustring (mem (part s')) U p (arg ++ [0])) /\
    forall a, ~ sp <= a < top -> ubyte (mem (part s')) U a = ubyte (mem (part s)) U a.
Proof using Hend Hlo Htop PL.
  intros Hs Ha Hok Hal Hfit Hn. assert (KERNBASE < 2 ^ 32) as HK by done.
  destruct (push_stack_does (part s) (mem (part s)) argv Hok Hfit Hn (part s)) as (r & x' & Hr & -> & m' & [Ex Hx] & Hok' & Hp & Hw & Hst).
  { split; [by destruct (part s)|done]. }
  unfold stack_need in Hfit. pose proof (strings_need_pos argv) as Hpos.
  pose proof (layout_range argv top ltac:(lia) ltac:(lia)) as [Hrg Hlen].
  destruct (ustack_main argv ltac:(unfold main_sp; lia) ltac:(lia)) as [Hus _]. rewrite Hus in Hw.
  destruct (Hr s Hs eq_refl) as (s' & He & Hs' & Hpart). exists (main_sp argv), (layout top argv).2, s'. rewrite Hpart.
  assert (mem x' = m') as -> by (rewrite Ex; done). split_and!; try done.
  - unfold main_sp. rewrite Zminus_mod, (layout_aligned argv top) by lia. rewrite (Z.mul_comm 4), Z.mod_mul by lia. done.
  - unfold main_sp. lia.
  - unfold main_sp. lia.
  - apply Hp.
Qed.

End Code.

(** [main] is called with "ls" and "/". *)
Lemma exec_stack_layout_witness : exists sp ptrs (s' : solo),
  push_stack [[108; 115]; [47]] (frame 0) PGSIZE sample_vm = Ret (Some sp) s' /\ sp mod 4 = 0 /\ length ptrs = 2%nat /\
  ustring (mem (part s')) {[0 := frame 2]} sp (words_bytes ([0xffffffff; 2; sp + 12] ++ ptrs ++ [0])) /\
  forall p, ptrs !! 0%nat = Some p -> ustring (mem (part s')) {[0 := frame 2]} p [108; 115; 0].
Proof.
  destruct (exec_stack_layout (S := solo) 0x80400000 eq_refl 1 (frame 0) {[0 := frame 1]} {[0 := frame 2]} [frame 3; frame 4]
    0 PGSIZE ltac:(done) ltac:(done) [[108; 115]; [47]] sample_vm) as (sp & ptrs & s' & E & _ & _ & _ & Hal & _ & Hl & Hw & Hp & _).
  - apply solo_in_proc.
  - apply sample_alloc.
  - split; [apply sample_space|]. intros a Ha.
    assert (a / PGSIZE = 0) as -> by (apply Z.div_small; unfold PGSIZE in *; lia). split; [by exists (frame 2)|]. vm_compute. reflexivity.
  - reflexivity.
  - vm_compute. discriminate.
  - vm_compute. lia.
  - exists sp, ptrs, s'. split; [exact E|]. split; [exact Hal|]. split; [exact Hl|]. split; [exact Hw|].
    intros p H0. exact (Hp 0%nat p [108; 115] H0 eq_refl).
Defined.
