(* ===== verification/SysfileFacts.v ===== *)
(** * Pipes through the system calls

    [sys_pipe], [sys_write] and [sys_read] composed: the open file table, the table of
    descriptors, the allocator and the pipe work together. *)

From stdpp Require Import base tactics list sets strings gmap.
From Stdlib Require Import ZArith Lia.
From S2P Require Import Prelude Params StringC Spinlock ProcState Comp SysState Words Solo Sleeplock Fs Kalloc Pipe File FileFacts VmFacts VmSpace VmCopy Sysfile.
Open Scope Z_scope.

Section Facts.
Context {S : Type} `{PL : ProcsLaws sys S} `{DV : DevSw S} (kend : Z) (Hend : KERNBASE < kend) (fuel : nat) (pid : Z).
Implicit Types (x : sys) (f g fd : nat).
Abbreviation runs := (runs (X := sys) (S := S) pid).

(** ** Open files *)

Definition with_file f ff x : sys := set_files (<[f := ff]> (files x)) x.

Lemma with_file_at f ff x : (f < length (files x))%nat -> files (with_file f ff x) !! f = Some ff.
Proof. intros Hf. simpl. by apply list_lookup_insert_eq. Qed.

Lemma runs_file_load {Y : Type} n f (c : cell file Y) ff y x : files x !! f = Some ff -> cget c ff = Some y ->
  runs n (load (c_file f @ c)) x n y x.
Proof. intros Hf Hc. apply runs_load. simpl. by rewrite Hf. Qed.

Lemma runs_file_store {Y : Type} n f (c : cell file Y) ff y0 y x : files x !! f = Some ff -> cget c ff = Some y0 ->
  runs n (store (c_file f @ c) y) x n tt (with_file f (cset c y ff) x).
Proof.
  intros Hf Hc. pose proof (runs_store pid n (c_file f @ c) x y0 y) as Hs. simpl in Hs. rewrite Hf in Hs. simpl in Hs. by apply Hs.
Qed.

(** A second store to the same file. *)
Lemma with_file_twice f ff ff' x : with_file f ff' (with_file f ff x) = with_file f ff' x.
Proof. unfold with_file. simpl. by rewrite list_insert_insert_eq. Qed.

Definition unused f x : Prop := exists ff, files x !! f = Some ff /\ f_ref ff = 0.

Lemma filealloc_scan_runs n x k : forall f, (exists g, (f <= g < f + k)%nat /\ unused g x) -> (f + k <= length (files x))%nat ->
  exists g ff, files x !! g = Some ff /\ f_ref ff = 0 /\ runs n (filealloc_scan k f) x n (Some g) (with_file g (set_f_ref 1 ff) x).
Proof.
  induction k as [|k IH]; intros f (g & Hg & Hu) Hl; [lia|]. cbn [filealloc_scan].
  destruct (lookup_lt_is_Some_2 (files x) f ltac:(lia)) as [ff Hff]. destruct (decide (f_ref ff = 0)) as [E|E].
  - exists f, ff. split; [done|]. split; [done|]. eapply runs_bind; [by apply (runs_file_load _ _ c_f_ref ff)|].
    rewrite E. cbn [Z.eqb]. eapply runs_bind; [by apply (runs_file_store _ _ c_f_ref ff (f_ref ff))|]. apply runs_ret.
  - destruct (IH (Datatypes.S f)) as (g' & ff' & Hg' & Hr' & Hrun); [|lia|].
    + exists g. split; [|done]. destruct (decide (g = f)) as [->|]; [|lia]. destruct Hu as (ff2 & Hf2 & Hr2). rewrite Hff in Hf2. by injection Hf2 as <-.
    + exists g', ff'. split; [done|]. split; [done|]. eapply runs_bind; [by apply (runs_file_load _ _ c_f_ref ff)|].
      rewrite (proj2 (Z.eqb_neq _ _) E). exact Hrun.
Qed.

(** The table of open files at rest. *)
Record ftable_ok x : Prop := { fo_lock : free_lock (ft_lock x); fo_len : length (files x) = NFILE }.

Lemma filealloc_runs x g : ftable_ok x -> unused g x -> exists f ff, files x !! f = Some ff /\ f_ref ff = 0 /\
  runs 0 filealloc x 0 (Some f) (with_file f (set_f_ref 1 ff) x).
Proof.
  intros [Hl Hn] Hu. set (x1 := set_ft_lock (locked_by0 (ft_lock x)) x).
  destruct (filealloc_scan_runs 1 x1 NFILE 0) as (f & ff & Hf & Hr & Hrun).
  - exists g. split; [|done]. destruct Hu as (ff & Hf & _). apply lookup_lt_Some in Hf. rewrite Hn in Hf. lia.
  - simpl. lia.
  - exists f, ff. split; [done|]. split; [done|]. unfold filealloc.
    eapply runs_bind; [apply (runs_acquire pid 0 c_ft_lock x (ft_lock x)); [done|done|apply shallow_le; lia]|].
    eapply runs_bind; [exact Hrun|].
    eapply runs_bind; [apply (runs_release pid 1 c_ft_lock _ (locked_by0 (ft_lock x))); [done|done|apply shallow_le; lia|lia]|].
    simpl. rewrite free_unlocked by done. replace (set_ft_lock (ft_lock x) (with_file f (set_f_ref 1 ff) x1)) with (with_file f (set_f_ref 1 ff) x);
      [apply runs_ret|]. subst x1. by destruct x.
Qed.

(** ** pipealloc *)

(** The two ends of the pipe [p]. *)
Definition read_end (p : Z) (ff : file) : file :=
  set_f_pipe p (set_f_writable 0 (set_f_readable 1 (set_f_type FD_PIPE (set_f_ref 1 ff)))).
Definition write_end (p : Z) (ff : file) : file :=
  set_f_pipe p (set_f_writable 1 (set_f_readable 0 (set_f_type FD_PIPE (set_f_ref 1 ff)))).

Lemma runs_end_stores {A : Type} n f ff r w p x n' a x' (k : M S A) : files x !! f = Some ff ->
  runs n k (with_file f (set_f_pipe p (set_f_writable w (set_f_readable r (set_f_type FD_PIPE ff)))) x) n' a x' ->
  runs n (store (c_file f @ c_f_type) FD_PIPE ;;; store (c_file f @ c_f_readable) r ;;;
          store (c_file f @ c_f_writable) w ;;; store (c_file f @ c_f_pipe) p ;;; k) x n' a x'.
Proof.
  intros Hf Hk. pose proof (lookup_lt_Some _ _ _ Hf) as Hlt.
  assert (forall ff' y, (f < length (files y))%nat -> files (with_file f ff' y) !! f = Some ff') as Hat by (intros; by apply with_file_at).
  eapply runs_bind; [by apply (runs_file_store _ _ c_f_type ff (f_type ff))|].
  eapply runs_bind; [eapply runs_file_store; [by apply Hat|done]|]. rewrite with_file_twice.
  eapply runs_bind; [eapply runs_file_store; [by apply Hat|done]|]. rewrite with_file_twice.
  eapply runs_bind; [eapply runs_file_store; [by apply Hat|done]|]. rewrite with_file_twice. exact Hk.
Qed.

(** The pipe [pipealloc] makes of the page [p]. *)
Definition new_pipe (m : memory) (p : Z) : pipe := set_pi_lock (mkLock 0 "pipe" None) (pipe_at m p).

Lemma new_pipe_empty m p : pipe_has (new_pipe m p) [].
Proof. constructor; simpl; try done; lia. Qed.

Lemma runs_new_pipe {A : Type} n p x n' a x' (k : M S A) :
  runs n k (set_pipes (<[p := new_pipe (mem x) p]> (pipes x)) x) n' a x' ->
  runs n (m <- load c_mem ;; update c_pipes (<[p := pipe_at m p]>) ;;; initlock (pipe_lock p) "pipe" ;;; k) x n' a x'.
Proof.
  intros Hk. eapply runs_bind; [by apply (runs_load pid n c_mem)|]. eapply runs_bind; [by apply (runs_update pid n c_pipes x (pipes x))|].
  eapply runs_bind; [apply (runs_initlock pid n (c_pipe p @ c_pi_lock))|]. simpl. rewrite lookup_insert_eq. unfold set_pipes at 1. simpl.
  rewrite insert_insert_eq. exact Hk.
Qed.

Lemma pipealloc_runs x p l g0 g1 : ftable_ok x -> alloc_ok kend (p :: l) x -> unused g0 x -> unused g1 x -> g0 <> g1 ->
  exists f0 f1 ff0 ff1 x', f0 <> f1 /\ runs 0 (pipealloc kend fuel) x 0 (Some (f0, f1)) x' /\
    files x' = <[f1 := write_end p ff1]> (<[f0 := read_end p ff0]> (files x)) /\ (f0 < NFILE)%nat /\ (f1 < NFILE)%nat /\
    pipes x' = <[p := new_pipe (mem x) p]> (pipes x) /\ alloc_ok kend l x' /\ self x' = self x /\ ft_lock x' = ft_lock x.
Proof using Hend.
  intros Hft Ha Hg0 Hg1 Hne. destruct (filealloc_runs x g0 Hft Hg0) as (f0 & ff0 & Hf0 & Hr0 & Hrun0).
  set (x1 := with_file f0 (set_f_ref 1 ff0) x) in *. pose proof (lookup_lt_Some _ _ _ Hf0) as L0. pose proof (fo_len _ Hft) as Hlen.
  assert (ftable_ok x1) as Hft1 by (destruct Hft; constructor; [done|simpl; by rewrite length_insert]).
  assert (exists g, unused g x1) as [g Hg].
  { assert (forall g, g <> f0 -> unused g x -> unused g x1) as Hk.
    { intros g Hg (ff & Hf & Hr). exists ff. split; [|done]. simpl. by rewrite list_lookup_insert_ne. }
    destruct (decide (g0 = f0)) as [->|]; [exists g1|exists g0]; by apply Hk. }
  destruct (filealloc_runs x1 g Hft1 Hg) as (f1 & ff1 & Hf1 & Hr1 & Hrun1). pose proof (lookup_lt_Some _ _ _ Hf1) as L1. simpl in L1. rewrite length_insert in L1.
  assert (f0 <> f1) as Hf01. { intros <-. pose proof (with_file_at f0 (set_f_ref 1 ff0) x L0) as E. fold x1 in E. rewrite E in Hf1. by injection Hf1 as <-. }
  set (x2 := with_file f1 (set_f_ref 1 ff1) x1) in *.
  destruct (kalloc_runs kend (kend_pos kend Hend) pid 0 (p :: l) x2) as (x3 & Hrun2 & Ha3 & Hm3 & Hx3); [done|apply shallow_le; lia|apply shallow_le; lia|lia|].
  cbn [hd tl] in *. set (x4 := set_pipes (<[p := new_pipe (mem x3) p]> (pipes x3)) x3).
  assert (files x4 !! f0 = Some (set_f_ref 1 ff0)) as E0.
  { subst x4. rewrite Hx3. simpl. rewrite list_lookup_insert_ne by done. by apply list_lookup_insert_eq. }
  set (x5 := with_file f0 (read_end p ff0) x4).
  assert (files x5 !! f1 = Some (set_f_ref 1 ff1)) as E1.
  { subst x5. simpl. rewrite list_lookup_insert_ne by done. subst x4. rewrite Hx3. simpl. apply list_lookup_insert_eq. by rewrite length_insert. }
  exists f0, f1, ff0, ff1, (with_file f1 (write_end p ff1) x5). split; [done|]. split; [|split_and!].
  - unfold pipealloc. eapply runs_bind; [exact Hrun0|]. eapply runs_bind; [exact Hrun1|]. eapply runs_bind; [exact Hrun2|].
    rewrite (proj2 (Z.eqb_neq p 0)).
    + apply runs_new_pipe. apply (runs_end_stores 0 f0 (set_f_ref 1 ff0)); [exact E0|].
      apply (runs_end_stores 0 f1 (set_f_ref 1 ff1)); [exact E1|]. apply runs_ret.
    + destruct Ha as [_ [_ _ Hp]]. apply Forall_cons in Hp as [Hp _]. by apply (page_nonzero kend (kend_pos kend Hend)).
  - subst x5 x4. rewrite Hx3. simpl. rewrite (list_insert_insert_ne _ f0 f1) by done. rewrite !list_insert_insert_eq. done.
  - by rewrite <- Hlen.
  - by rewrite <- Hlen.
  - subst x5 x4. rewrite Hx3. done.
  - subst x5 x4. destruct Ha3 as [A B]. split; [exact A|]. exact B.
  - subst x5 x4. rewrite Hx3. done.
  - subst x5 x4. rewrite Hx3. done.
Qed.

(** ** Descriptors *)

Definition ofile_of x : list (option nat) := t_ofile (self x).
Definition with_fd fd (o : option nat) x : sys := set_self (set_t_ofile (<[fd := o]> (ofile_of x)) (self x)) x.

Lemma fdalloc_from_runs n f x k : forall fd, (exists g, (fd <= g < fd + k)%nat /\ ofile_of x !! g = Some None) ->
  (fd + k <= length (ofile_of x))%nat ->
  exists g, ofile_of x !! g = Some None /\ runs n (fdalloc_from k fd f) x n (Z.of_nat g) (with_fd g (Some f) x).
Proof.
  induction k as [|k IH]; intros fd (g & Hg & Hu) Hl; [lia|]. cbn [fdalloc_from].
  destruct (lookup_lt_is_Some_2 (ofile_of x) fd ltac:(lia)) as [o Ho].
  assert (runs n (load (c_ofile fd)) x n o x) as Hload by (apply runs_load; exact Ho). destruct o as [h|].
  - destruct (IH (Datatypes.S fd)) as (g' & Hg' & Hrun); [|lia|].
    + exists g. split; [|done]. destruct (decide (g = fd)) as [->|]; [by rewrite Ho in Hu|lia].
    + exists g'. split; [done|]. eapply runs_bind; [exact Hload|]. exact Hrun.
  - exists fd. split; [done|]. eapply runs_bind; [exact Hload|].
    eapply runs_bind; [apply (runs_store pid n (c_ofile fd) x None (Some f)); exact Ho|]. apply runs_ret.
Qed.

Lemma fdalloc_runs n f x g : length (ofile_of x) = NOFILE -> ofile_of x !! g = Some None ->
  exists fd, ofile_of x !! fd = Some None /\ runs n (fdalloc f) x n (Z.of_nat fd) (with_fd fd (Some f) x).
Proof.
  intros Hl Hg. apply fdalloc_from_runs; [|lia]. exists g. split; [|done]. apply lookup_lt_Some in Hg. lia.
Qed.

Lemma argfd_runs n args i fd f x : arg_int args i = Some (Z.of_nat fd) -> (fd < NOFILE)%nat -> ofile_of x !! fd = Some (Some f) ->
  runs n (argfd args i) x n (Some (Z.of_nat fd, f)) x.
Proof.
  intros Ha Hfd Ho. unfold argfd. rewrite Ha, (proj2 (Z.ltb_ge _ _)), (proj2 (Z.leb_gt _ _)) by lia. cbn [orb].
  rewrite Nat2Z.id. eapply runs_bind; [apply (runs_load pid n (c_ofile fd)); exact Ho|]. apply runs_ret.
Qed.

(** The arguments of a [read] or [write] of [n] bytes on descriptor [fd], at address [p]. *)
Definition rw_of (args : uargs) (fd : nat) (n p : Z) : Prop :=
  arg_int args 0 = Some (Z.of_nat fd) /\ arg_int args 2 = Some n /\ arg_ptr args 1 n = Some p.

Lemma rw_args_runs k args fd n p f x : rw_of args fd n p -> (fd < NOFILE)%nat -> ofile_of x !! fd = Some (Some f) ->
  runs k (rw_args args) x k (Some (f, n, p)) x.
Proof.
  intros (H0 & H2 & H1) Hfd Ho. unfold rw_args. eapply runs_bind; [by apply argfd_runs|]. rewrite H2, H1. apply runs_ret.
Qed.

(** A state with an open pipe: the descriptors [fd0] and [fd1] are its ends. *)
Record piped (fd0 fd1 : nat) (p : Z) (q : list Z) x : Prop := {
  pd_read : exists f ff, (fd0 < NOFILE)%nat /\ ofile_of x !! fd0 = Some (Some f) /\ files x !! f = Some (read_end p ff);
  pd_write : exists f ff, (fd1 < NOFILE)%nat /\ ofile_of x !! fd1 = Some (Some f) /\ files x !! f = Some (write_end p ff);
  pd_pipe : exists pp, pipes x !! p = Some pp /\ pipe_has pp q /\ pi_lock pp = mkLock 0 "pipe" None
}.

Lemma piped_pipe fd0 fd1 p q q' pp x : piped fd0 fd1 p q x -> pipe_has pp q' -> pi_lock pp = mkLock 0 "pipe" None ->
  piped fd0 fd1 p q' (with_pipe p pp x).
Proof. intros [H1 H2 _] Hq Hl. constructor; [exact H1|exact H2|]. exists pp. split; [apply with_pipe_at|done]. Qed.

Lemma sys_write_runs args fd0 fd1 p q buf a x : piped fd0 fd1 p q x -> rw_of args fd1 (Z.of_nat (length buf)) a ->
  user_bytes args a (Z.of_nat (length buf)) = buf -> (length q + length buf <= 512)%nat ->
  exists x', runs 0 (sys_write fuel args) x 0 (Z.of_nat (length buf)) x' /\ piped fd0 fd1 p (q ++ buf) x'.
Proof.
  intros Hx Ha Hb Hl. destruct (pd_write _ _ _ _ _ Hx) as (f & ff & Hfd & Ho & Hf). destruct (pd_pipe _ _ _ _ _ Hx) as (pp & Hp & Hq & Hlk).
  destruct (pipewrite_runs fuel pid p (mkLock 0 "pipe" None) ltac:(done) pp x q buf Hq Hlk Hl) as (pp' & Hr & Hq' & Hl' & _).
  rewrite (with_pipe_same p pp x Hp) in Hr. exists (with_pipe p pp' x). split; [|by eapply piped_pipe].
  unfold sys_write. eapply runs_bind; [by apply (rw_args_runs 0 args fd1 (Z.of_nat (length buf)) a f)|]. cbv beta iota. rewrite Hb.
  unfold filewrite. eapply runs_bind; [apply (runs_load pid 0 (c_file f)); exact Hf|]. exact Hr.
Qed.

Lemma sys_read_runs args fd0 fd1 p q n a x : piped fd0 fd1 p q x -> rw_of args fd0 n a -> q <> [] ->
  exists x', runs 0 (sys_read fuel args) x 0 (Z.of_nat (length (take (Z.to_nat n) q)), take (Z.to_nat n) q) x' /\
    piped fd0 fd1 p (drop (Z.to_nat n) q) x'.
Proof.
  intros Hx Ha Hne. destruct (pd_read _ _ _ _ _ Hx) as (f & ff & Hfd & Ho & Hf). destruct (pd_pipe _ _ _ _ _ Hx) as (pp & Hp & Hq & Hlk).
  destruct (piperead_runs fuel pid p (mkLock 0 "pipe" None) ltac:(done) pp x q n Hq Hlk Hne) as (pp' & Hr & Hq' & Hl' & _).
  rewrite (with_pipe_same p pp x Hp) in Hr. exists (with_pipe p pp' x). split; [|by eapply piped_pipe].
  unfold sys_read. eapply runs_bind; [by apply (rw_args_runs 0 args fd0 n a f)|].
  unfold fileread. eapply runs_bind; [apply (runs_load pid 0 (c_file f)); exact Hf|]. exact Hr.
Qed.

(** What [pipe] needs: two unused files, two unused descriptors, and a page. *)
Record pipe_room (p : Z) (l : list Z) x : Prop := {
  pr_table : ftable_ok x;
  pr_page : alloc_ok kend (p :: l) x;
  pr_files : exists g0 g1, g0 <> g1 /\ unused g0 x /\ unused g1 x;
  pr_ofile : length (ofile_of x) = NOFILE;
  pr_fds : exists g0 g1, g0 <> g1 /\ ofile_of x !! g0 = Some None /\ ofile_of x !! g1 = Some None
}.

Lemma sys_pipe_runs args p l x a : pipe_room p l x -> arg_ptr args 0 8 = Some a ->
  exists fd0 fd1 x', fd0 <> fd1 /\ runs 0 (sys_pipe kend fuel args) x 0 (0, le_bytes 4 (Z.of_nat fd0) ++ le_bytes 4 (Z.of_nat fd1)) x' /\
    piped fd0 fd1 p [] x' /\ alloc_ok kend l x'.
Proof using Hend.
  intros [Hft Hpg (g0 & g1 & Hg & Hu0 & Hu1) Hlen (h0 & h1 & Hh & Hn0 & Hn1)] Ha.
  destruct (pipealloc_runs x p l g0 g1 Hft Hpg Hu0 Hu1 Hg) as (f0 & f1 & ff0 & ff1 & x1 & Hf01 & Hr1 & Hfs & L0 & L1 & Hpi & Hal & Hself & _).
  assert (ofile_of x1 = ofile_of x) as Ho by (unfold ofile_of; by rewrite Hself).
  destruct (fdalloc_runs 0 f0 x1 h0) as (fd0 & Hfd0 & Hr2); [by rewrite Ho|by rewrite Ho|].
  set (x2 := with_fd fd0 (Some f0) x1) in *. pose proof (lookup_lt_Some _ _ _ Hfd0) as Ld0.
  assert (ofile_of x2 = <[fd0 := Some f0]> (ofile_of x1)) as Ho2 by done.
  assert (exists h, ofile_of x2 !! h = Some None) as [h Hh2].
  { rewrite Ho2, Ho. destruct (decide (h0 = fd0)) as [->|]; [exists h1|exists h0]; by rewrite list_lookup_insert_ne. }
  destruct (fdalloc_runs 0 f1 x2 h) as (fd1 & Hfd1 & Hr3); [by rewrite Ho2, length_insert, Ho|done|].
  pose proof (lookup_lt_Some _ _ _ Hfd1) as Ld1. rewrite Ho2, length_insert in Ld1.
  assert (fd0 <> fd1) as Hd. { intros <-. rewrite Ho2, list_lookup_insert_eq in Hfd1 by done. done. }
  exists fd0, fd1, (with_fd fd1 (Some f1) x2). split; [done|]. rewrite Ho, Hlen in Ld0, Ld1.
  assert (ofile_of (with_fd fd1 (Some f1) x2) = <[fd1 := Some f1]> (<[fd0 := Some f0]> (ofile_of x))) as Ho3 by (rewrite <- Ho; done).
  split; [|split].
  - unfold sys_pipe. rewrite Ha. eapply runs_bind; [exact Hr1|]. eapply runs_bind; [exact Hr2|].
    rewrite (proj2 (Z.ltb_ge (Z.of_nat fd0) 0)) by lia. eapply runs_bind; [exact Hr3|].
    rewrite (proj2 (Z.ltb_ge (Z.of_nat fd1) 0)) by lia. apply runs_ret.
  - constructor.
    + exists f0, ff0. split; [done|]. rewrite Ho3. split; [rewrite list_lookup_insert_ne by done; apply list_lookup_insert_eq; lia|].
      change (files x1 !! f0 = Some (read_end p ff0)). rewrite Hfs, list_lookup_insert_ne by done. apply list_lookup_insert_eq. by rewrite (fo_len _ Hft).
    + exists f1, ff1. split; [done|]. rewrite Ho3. split; [apply list_lookup_insert_eq; rewrite length_insert; lia|].
      change (files x1 !! f1 = Some (write_end p ff1)). rewrite Hfs. apply list_lookup_insert_eq. by rewrite length_insert, (fo_len _ Hft).
    + exists (new_pipe (mem x) p). split; [|split; [apply new_pipe_empty|done]].
      change (pipes x1 !! p = Some (new_pipe (mem x) p)). rewrite Hpi. apply lookup_insert_eq.
  - exact Hal.
Qed.

(** C28: a pipe through its descriptors.  With a page, two files and two descriptors to
    spare, [pipe] stores two different descriptors and returns 0.  Then a [write] of up to
    512 bytes to the second returns their number, and a [read] of [n] bytes from the first
    returns the first [n] of them, or all if there are fewer: none is lost, changed
    or reordered on the way through the tables of descriptors and open files. *)
Theorem pipe_syscalls a0 p l a (s : S) : in_proc pid 0 s -> pipe_room p l (part s) -> arg_ptr a0 0 8 = Some a ->
  exists fd0 fd1 s1, fd0 <> fd1 /\
    sys_pipe kend fuel a0 s = Ret (0, le_bytes 4 (Z.of_nat fd0) ++ le_bytes 4 (Z.of_nat fd1)) s1 /\
    forall aw ar buf n pw pr, rw_of aw fd1 (Z.of_nat (length buf)) pw -> user_bytes aw pw (Z.of_nat (length buf)) = buf ->
      rw_of ar fd0 n pr -> (0 < length buf <= 512)%nat ->
      exists s2 s3, sys_write fuel aw s1 = Ret (Z.of_nat (length buf)) s2 /\
        sys_read fuel ar s2 = Ret (Z.of_nat (length (take (Z.to_nat n) buf)), take (Z.to_nat n) buf) s3 /\
        piped fd0 fd1 p (drop (Z.to_nat n) buf) (part s3).
Proof using Hend.
  intros Hs Hx Ha. destruct (sys_pipe_runs a0 p l (part s) a Hx Ha) as (fd0 & fd1 & x1 & Hd & Hr1 & Hp1 & _).
  destruct (Hr1 s Hs eq_refl) as (s1 & E1 & Hs1 & Hx1). exists fd0, fd1, s1. split; [done|]. split; [done|].
  intros aw ar buf n pw pr Hw Hb Hr Hl. assert (buf <> []) as Hne by (intros ->; simpl in Hl; lia).
  destruct (sys_write_runs aw fd0 fd1 p [] buf pw x1 Hp1 Hw Hb ltac:(simpl; lia)) as (x2 & Hr2 & Hp2).
  destruct (Hr2 s1 Hs1 Hx1) as (s2 & E2 & Hs2 & Hx2).
  destruct (sys_read_runs ar fd0 fd1 p buf n pr x2 Hp2 Hr Hne) as (x3 & Hr3 & Hp3).
  destruct (Hr3 s2 Hs2 Hx2) as (s3 & E3 & Hs3 & Hx3). exists s2, s3. split; [done|]. split; [done|]. by rewrite Hx3.
Qed.

End Facts.

(** ** An example *)

(** The arguments of a call whose words are [ws]; user memory has the bytes [bs]. *)
Definition sample_args (ws bs : list Z) : uargs :=
  mkUargs (fun i => ws !! Z.to_nat i) (fun i _ => ws !! Z.to_nat i) (fun _ => None) (fun _ => None) (fun _ => None)
    (fun _ n => take (Z.to_nat n) bs).

Lemma sample_room : pipe_room 0x80400000 (frame 3) [frame 4] (part sample_vm).
Proof.
  constructor.
  - constructor; [done|]. vm_compute. reflexivity.
  - apply sample_alloc.
  - exists 0%nat, 1%nat. split; [done|]. split; exists zero_file; split; vm_compute; reflexivity.
  - vm_compute. reflexivity.
  - exists 0%nat, 1%nat. split; [done|]. split; vm_compute; reflexivity.
Qed.

Lemma pipe_syscalls_witness : exists fd0 fd1 (s1 s2 s3 : solo),
  sys_pipe 0x80400000 0 (sample_args [4000] []) sample_vm = Ret (0, le_bytes 4 (Z.of_nat fd0) ++ le_bytes 4 (Z.of_nat fd1)) s1 /\
  sys_write 0 (sample_args [Z.of_nat fd1; 4000; 3] [104; 105; 10]) s1 = Ret 3 s2 /\
  sys_read 0 (sample_args [Z.of_nat fd0; 4000; 2] []) s2 = Ret (2, [104; 105]) s3.
Proof.
  destruct (pipe_syscalls (S := solo) 0x80400000 eq_refl 0 1 (sample_args [4000] []) (frame 3) [frame 4] 4000 sample_vm)
    as (fd0 & fd1 & s1 & _ & E1 & Hrest); [apply solo_in_proc|apply sample_room|reflexivity|].
  destruct (Hrest (sample_args [Z.of_nat fd1; 4000; 3] [104; 105; 10]) (sample_args [Z.of_nat fd0; 4000; 2] []) [104; 105; 10] 2 4000 4000)
    as (s2 & s3 & E2 & E3 & _); [by split_and!|reflexivity|by split_and!|simpl; lia|].
  exists fd0, fd1, s1, s2, s3. split; [exact E1|]. split; [exact E2|exact E3].
Defined.
