(* ===== verification/Ide.v ===== *)
(** * The IDE disk (ide.c)

    The driver of the kernel with a real disk: the queue of requests threaded through the
    buffers, the interrupt handler, the commands.  The registers of the disk are a parameter
    [D] ([Devices] of Console for [inb] and [outb], [DataPort] for [insl] and [outsl]).
    The state has the buffers of the buffer cache by their index; whether a buffer's sleep
    lock is held is asked through [BufLocks].  [fuel] bounds how often a busy disk is polled
    and how often [iderw] sleeps. *)

From stdpp Require Import base tactics list sets strings.
From Stdlib Require Import ZArith Lia.
From S2P Require Import Prelude Params StringC Spinlock ProcState Comp SysState Bio Console.
Open Scope Z_scope.

Definition SECTOR_SIZE : Z := 512.
Definition IDE_BSY : Z := 0x80.
Definition IDE_DRDY : Z := 0x40.
Definition IDE_DF : Z := 0x20.
Definition IDE_ERR : Z := 0x01.
Definition IDE_CMD_READ : Z := 0x20.
Definition IDE_CMD_WRITE : Z := 0x30.
Definition IDE_CMD_RDMUL : Z := 0xc4.
Definition IDE_CMD_WRMUL : Z := 0xc5.

(** [insl] reads a number of words, here their bytes; [outsl] writes. *)
Class DataPort (D : Type) := {
  dev_insl : Z -> Z -> D -> list Z * D;
  dev_outsl : Z -> list Z -> D -> D
}.

(** [holdingsleep(&b->lock)] *)
Class BufLocks (S : Type) := { buf_locked : nat -> M S bool }.

Record ide {D : Type} := mkIde {
  idelock : spinlock;
  idequeue : option nat;
  havedisk1 : Z;
  ide_bufs : list buf;    (* bcache.buf *)
  ide_devs : D
}.
Arguments ide D : clear implicits.
Arguments mkIde {D}.

Section State.
Context {D : Type}.
Definition set_idelock (v : spinlock) (r : ide D) : ide D := mkIde v (idequeue r) (havedisk1 r) (ide_bufs r) (ide_devs r).
Definition set_idequeue (v : option nat) (r : ide D) : ide D := mkIde (idelock r) v (havedisk1 r) (ide_bufs r) (ide_devs r).
Definition set_havedisk1 (v : Z) (r : ide D) : ide D := mkIde (idelock r) (idequeue r) v (ide_bufs r) (ide_devs r).
Definition set_ide_bufs (v : list buf) (r : ide D) : ide D := mkIde (idelock r) (idequeue r) (havedisk1 r) v (ide_devs r).
Definition set_ide_devs (v : D) (r : ide D) : ide D := mkIde (idelock r) (idequeue r) (havedisk1 r) (ide_bufs r) v.

Definition c_idelock : cell (ide D) spinlock := field idelock set_idelock.
#[global] Instance c_idelock_laws : CellLaws c_idelock.
Proof. constructor; simpl; try done; intros ? [] [= <-]; done. Qed.
Definition c_idequeue : cell (ide D) (option nat) := field idequeue set_idequeue.
Definition c_havedisk1 : cell (ide D) Z := field havedisk1 set_havedisk1.
Definition c_ide_bufs : cell (ide D) (list buf) := field ide_bufs set_ide_bufs.
Definition c_ide_devs : cell (ide D) D := field ide_devs set_ide_devs.
Definition c_ide_buf (b : nat) : cell (ide D) buf := c_ide_bufs @ elem b.
End State.

(** A buffer as a channel. *)
Definition buf_chan (b : nat) : chan := AddrChan (8 * Z.of_nat b + 2).

Definition sector_per_block : Z := BSIZE / SECTOR_SIZE.
Definition read_cmd : Z := if sector_per_block =? 1 then IDE_CMD_READ else IDE_CMD_RDMUL.
Definition write_cmd : Z := if sector_per_block =? 1 then IDE_CMD_WRITE else IDE_CMD_WRMUL.

Section Ops.
Context {D S : Type} `{DV : Devices D} `{DP : DataPort D} `{PX : Part (ide D) S} `{PR : Procs S} `{BL : BufLocks S} (fuel : nat).
Abbreviation K := (M S).

Definition ide_in (port : Z) : K Z :=
  d <- load c_ide_devs ;;
  store c_ide_devs (snd (dev_in port d)) ;;;
  ret (u8 (fst (dev_in port d))).
Definition ide_out (port data : Z) : K unit := update c_ide_devs (dev_out port (u8 data)).

(** [while(((r = inb(0x1f7)) & (IDE_BSY|IDE_DRDY)) != IDE_DRDY) ;] *)
Fixpoint wait_ready (k : nat) : K Z :=
  match k with
  | O => fuel_out
  | Datatypes.S k =>
      r <- ide_in 0x1f7 ;;
      if negb (Z.land r (Z.lor IDE_BSY IDE_DRDY) =? IDE_DRDY) then wait_ready k else ret r
  end.

Definition idewait (checkerr : bool) : K Z :=
  r <- wait_ready fuel ;;
  ret (if checkerr && negb (Z.land r (Z.lor IDE_DF IDE_ERR) =? 0) then -1 else 0).

(** [for(i=0; i<1000; i++) if(inb(0x1f7) != 0){ havedisk1 = 1; break; }] *)
Fixpoint probe (i : nat) : K unit :=
  match i with
  | O => ret tt
  | Datatypes.S i =>
      r <- ide_in 0x1f7 ;;
      if negb (r =? 0) then store c_havedisk1 1 else probe i
  end.

Definition ide_spin : lockref S := spin_of c_idelock.

(** [ioapicenable] programs the interrupt controller only. *)
Definition ideinit (ioapicenable : Z -> Z -> K unit) : K unit :=
  initlock ide_spin "ide" ;;;
  m <- gets mach_of ;;
  ioapicenable IRQ_IDE (Z.of_nat (ncpu m) - 1) ;;;
  idewait false ;;;
  ide_out 0x1f6 (Z.lor 0xe0 (Z.shiftl 1 4)) ;;;
  probe 1000 ;;;
  ide_out 0x1f6 (Z.lor 0xe0 (Z.shiftl 0 4)).

(** The registers of a request. *)
Definition set_regs (dev sector : Z) : K unit :=
  ide_out 0x3f6 0 ;;;
  ide_out 0x1f2 sector_per_block ;;;
  ide_out 0x1f3 (Z.land sector 0xff) ;;;
  ide_out 0x1f4 (Z.land (Z.shiftr sector 8) 0xff) ;;;
  ide_out 0x1f5 (Z.land (Z.shiftr sector 16) 0xff) ;;;
  ide_out 0x1f6 (Z.lor (Z.lor 0xe0 (Z.shiftl (Z.land dev 1) 4)) (Z.land (Z.shiftr sector 24) 0x0f)).

Definition idestart (b : option nat) : K unit :=
  match b with
  | None => panic "idestart"
  | Some b =>
      r <- load (c_ide_buf b) ;;
      if FSSIZE <=? b_blockno r then panic "incorrect blockno" else
      let sector := i32 (b_blockno r * sector_per_block) in
      if 7 <? sector_per_block then panic "idestart" else
      idewait false ;;;
      set_regs (b_dev r) sector ;;;
      r <- load (c_ide_buf b) ;;
      if has_flag B_DIRTY (b_flags r) then
        ide_out 0x1f7 write_cmd ;;;
        update c_ide_devs (dev_outsl 0x1f0 (b_data r))
      else ide_out 0x1f7 read_cmd
  end.

(** [insl(0x1f0, b->data, BSIZE/4)] *)
Definition read_data (b : nat) : K unit :=
  d <- load c_ide_devs ;;
  store c_ide_devs (snd (dev_insl 0x1f0 (BSIZE / 4) d)) ;;;
  store (c_ide_buf b @ c_b_data) (fst (dev_insl 0x1f0 (BSIZE / 4) d)).

(** The first request is taken off the queue and finished. *)
Definition finish_head (b : nat) : K unit :=
  r <- load (c_ide_buf b) ;;
  store c_idequeue (b_qnext r) ;;;
  when (negb (has_flag B_DIRTY (b_flags r)))
    (k <- idewait true ;; when (0 <=? k) (read_data b)) ;;;
  update (c_ide_buf b @ c_b_flags) (set_flag B_VALID) ;;;
  update (c_ide_buf b @ c_b_flags) (clear_flag B_DIRTY) ;;;
  wakeup_on (buf_chan b).

(** [if(idequeue != 0) idestart(idequeue);] *)
Definition start_next : K unit :=
  q <- load c_idequeue ;;
  when (match q with Some _ => true | None => false end) (idestart q).

Definition ideintr : K unit :=
  acquire ide_spin ;;;
  q <- load c_idequeue ;;
  match q with
  | None => release ide_spin
  | Some b => finish_head b ;;; start_next ;;; release ide_spin
  end.

(** [for(pp=&idequeue; *pp; pp=&( *pp)->qnext) ; *pp = b;] past the request [p]. *)
Fixpoint append_after (k : nat) (p b : nat) : K unit :=
  match k with
  | O => fuel_out
  | Datatypes.S k =>
      r <- load (c_ide_buf p) ;;
      match b_qnext r with
      | None => store (c_ide_buf p @ c_b_qnext) (Some b)
      | Some q => append_after k q b
      end
  end.
Definition append_request (b : nat) : K unit :=
  store (c_ide_buf b @ c_b_qnext) None ;;;
  q <- load c_idequeue ;;
  match q with
  | None => store c_idequeue (Some b)
  | Some p => append_after (Datatypes.S NBUF) p b
  end.

(** The request joins the queue, and is started if it is the only one. *)
Definition submit (b : nat) : K unit :=
  append_request b ;;;
  q <- load c_idequeue ;;
  when (bool_decide (q = Some b)) (idestart (Some b)).

(** [while((b->flags & (B_VALID|B_DIRTY)) != B_VALID) sleep(b, &idelock);] *)
Fixpoint wait_done (k : nat) (b : nat) : K unit :=
  match k with
  | O => fuel_out
  | Datatypes.S k =>
      fl <- load (c_ide_buf b @ c_b_flags) ;;
      if negb (Z.land fl (Z.lor B_VALID B_DIRTY) =? B_VALID) then
        sleep_on (buf_chan b) ide_spin ;;; wait_done k b
      else ret tt
  end.

Definition iderw (b : nat) : K unit :=
  h <- buf_locked b ;;
  if negb h then panic "iderw: buf not locked" else
  r <- load (c_ide_buf b) ;;
  if Z.land (b_flags r) (Z.lor B_VALID B_DIRTY) =? B_VALID then panic "iderw: nothing to do" else
  d1 <- load c_havedisk1 ;;
  if negb (b_dev r =? 0) && (d1 =? 0) then panic "iderw: ide disk 1 not present" else
  acquire ide_spin ;;;
  submit b ;;;
  wait_done fuel b ;;;
  release ide_spin.

End Ops.
