(* ===== verification/IdeFacts.v ===== *)
(** * The request queue of the IDE disk

    What a disk promises ([DiskLaws]), and the proof that the driver serves its queue in
    order: reads deliver what the disk holds when their turn comes, writes reach it. *)

From stdpp Require Import base tactics list sets strings.
From Stdlib Require Import ZArith Lia.
From S2P Require Import Prelude Params StringC Spinlock ProcState Comp SysState Bio Console Ide.
Open Scope Z_scope.

(** ** The disk *)

(** The command under way. *)
Inductive job := Idle | Reading (drive sector : Z) | Writing (drive sector : Z).

(** The sectors of the two drives, the registers, the command, and how many more times
    the status will be busy. *)
Definition sectors := Z -> Z -> list Z.
Record hd_view := mkHd { hd_sectors : sectors; hd_regs : Z -> Z; hd_job : job; hd_polls : nat }.

Definition put_sector (A : sectors) (dr se : Z) (bs : list Z) : sectors :=
  fun d s => if (d =? dr) && (s =? se) then bs else A d s.

(** The drive and the 28-bit address in the registers. *)
Definition reg_drive (f : Z -> Z) : Z := Z.land (Z.shiftr (f 0x1f6) 4) 1.
Definition reg_sector (f : Z -> Z) : Z :=
  f 0x1f3 + 2 ^ 8 * f 0x1f4 + 2 ^ 16 * f 0x1f5 + 2 ^ 24 * Z.land (f 0x1f6) 0x0f.

Class DiskLaws (D : Type) `{Devices D} `{DataPort D} := {
  hd : D -> hd_view;
  max_polls : nat;
  hd_busy d : (hd_polls (hd d) <= max_polls)%nat;
  hd_status d : let v := hd d in let r := u8 (fst (dev_in 0x1f7 d)) in let v' := hd (snd (dev_in 0x1f7 d)) in
    match hd_polls v with
    | O => v' = v /\ Z.land r (Z.lor IDE_BSY IDE_DRDY) = IDE_DRDY /\ Z.land r (Z.lor IDE_DF IDE_ERR) = 0
    | Datatypes.S n => v' = mkHd (hd_sectors v) (hd_regs v) (hd_job v) n /\ Z.land r (Z.lor IDE_BSY IDE_DRDY) <> IDE_DRDY
    end;
  hd_control b d : hd (dev_out 0x3f6 b d) = hd d;
  hd_reg p b d : 0x1f2 <= p <= 0x1f6 ->
    hd (dev_out p b d) = mkHd (hd_sectors (hd d)) (upd (hd_regs (hd d)) p b) (hd_job (hd d)) (hd_polls (hd d));
  hd_cmd_read d : let v := hd d in hd_polls v = O -> exists n,
    hd (dev_out 0x1f7 IDE_CMD_READ d) = mkHd (hd_sectors v) (hd_regs v) (Reading (reg_drive (hd_regs v)) (reg_sector (hd_regs v))) n;
  hd_cmd_write d : let v := hd d in hd_polls v = O -> exists n,
    hd (dev_out 0x1f7 IDE_CMD_WRITE d) = mkHd (hd_sectors v) (hd_regs v) (Writing (reg_drive (hd_regs v)) (reg_sector (hd_regs v))) n;
  hd_write d dr se bs : let v := hd d in hd_job v = Writing dr se -> length bs = 512%nat -> exists n,
    hd (dev_outsl 0x1f0 bs d) = mkHd (put_sector (hd_sectors v) dr se bs) (hd_regs v) Idle n;
  hd_read d dr se : let v := hd d in hd_job v = Reading dr se -> hd_polls v = O -> exists n,
    fst (dev_insl 0x1f0 128 d) = hd_sectors v dr se /\
    hd (snd (dev_insl 0x1f0 128 d)) = mkHd (hd_sectors v) (hd_regs v) Idle n
}.

(** ** What a request does *)

Definition drive_of (r : buf) : Z := Z.land (b_dev r) 1.
Definition dirty (r : buf) : bool := has_flag B_DIRTY (b_flags r).

(** The disk and the buffer when it is done. *)
Definition serve_disk (A : sectors) (r : buf) : sectors :=
  if dirty r then put_sector A (drive_of r) (b_blockno r) (b_data r) else A.
Definition serve_buf (A : sectors) (r : buf) : buf :=
  let r := if dirty r then r else set_b_data (A (drive_of r) (b_blockno r)) r in
  set_b_flags (clear_flag B_DIRTY (set_flag B_VALID (b_flags r))) r.

(** All requests of [q], one after the other. *)
Fixpoint serve_all (q : list nat) (A : sectors) (bufs : list buf) : sectors * list buf :=
  match q with
  | [] => (A, bufs)
  | b :: q =>
      match bufs !! b with
      | Some r => serve_all q (serve_disk A r) (<[b := serve_buf A r]> bufs)
      | None => (A, bufs)
      end
  end.

Definition finished (fl : Z) : bool := Z.land fl (Z.lor B_VALID B_DIRTY) =? B_VALID.

Lemma served_finished A r : finished (b_flags (serve_buf A r)) = true.
Proof.
  apply Z.eqb_eq. unfold serve_buf. cbn [b_flags set_b_flags].
  set (fl := b_flags _). unfold clear_flag, set_flag. rewrite <- Z.land_assoc.
  change (Z.land (Z.lnot B_DIRTY) (Z.lor B_VALID B_DIRTY)) with B_VALID.
  rewrite Z.land_lor_distr_l, Z.land_diag.
  apply Z.bits_inj'. intros n Hn. rewrite Z.lor_spec, Z.land_spec. by destruct (Z.testbit B_VALID n), (Z.testbit fl n).
Qed.

(** The registers [idestart] sets select the block. *)
Lemma regs_select f dev bn : 0 <= bn < FSSIZE ->
  let g := upd (upd (upd (upd (upd f 0x1f2 (u8 1)) 0x1f3 (u8 (Z.land bn 0xff))) 0x1f4 (u8 (Z.land (Z.shiftr bn 8) 0xff)))
    0x1f5 (u8 (Z.land (Z.shiftr bn 16) 0xff)))
    0x1f6 (u8 (Z.lor (Z.lor 0xe0 (Z.shiftl (Z.land dev 1) 4)) (Z.land (Z.shiftr bn 24) 0x0f))) in
  reg_drive g = Z.land dev 1 /\ reg_sector g = bn.
Proof.
  intros Hb g. assert (Z.land dev 1 = 0 \/ Z.land dev 1 = 1) as Hd.
  { pose proof (Z.land_ones dev 1 ltac:(lia)) as E. change (Z.ones 1) with 1 in E. change (2 ^ 1) with 2 in E.
    pose proof (Z.mod_pos_bound dev 2 ltac:(lia)). lia. }
  set (e := Z.land dev 1) in *.
  assert (forallb (fun b => forallb (fun e =>
      let r6 := u8 (Z.lor (Z.lor 0xe0 (Z.shiftl e 4)) (Z.land (Z.shiftr b 24) 0x0f)) in
      (Z.land (Z.shiftr r6 4) 1 =? e) &&
      (u8 (Z.land b 0xff) + 2 ^ 8 * u8 (Z.land (Z.shiftr b 8) 0xff) + 2 ^ 16 * u8 (Z.land (Z.shiftr b 16) 0xff) +
        2 ^ 24 * Z.land r6 0x0f =? b)) [0; 1]) (seqZ 0 FSSIZE) = true) as Hall by (vm_compute; reflexivity).
  rewrite forallb_forall in Hall. specialize (Hall bn). rewrite <- list_elem_of_In, elem_of_seqZ in Hall.
  specialize (Hall ltac:(lia)). rewrite forallb_forall in Hall. specialize (Hall e).
  assert (In e [0; 1]) as He by (simpl; lia). apply Hall, andb_true_iff in He as [H1 H2].
  apply Z.eqb_eq in H1, H2. split; [exact H1|exact H2].
Qed.

(** ** The queue *)

Fixpoint chain (bufs : list buf) (o : option nat) (q : list nat) : Prop :=
  match q with
  | [] => o = None
  | b :: q => o = Some b /\ exists r, bufs !! b = Some r /\ chain bufs (b_qnext r) q
  end.

(** A request the driver accepts. *)
Record request_ok (r : buf) : Prop := {
  rq_block : 0 <= b_blockno r < FSSIZE;
  rq_data : length (b_data r) = 512%nat
}.

(** The disk works on the request [r]; [A] is what it held before. *)
Definition active (A : sectors) (r : buf) (v : hd_view) : Prop :=
  if dirty r then hd_sectors v = serve_disk A r
  else hd_sectors v = A /\ hd_job v = Reading (drive_of r) (b_blockno r).

Lemma chain_insert bufs b r o q : b ∉ q -> chain bufs o q -> chain (<[b := r]> bufs) o q.
Proof.
  revert o. induction q as [|c q IH]; intros o Hb; simpl; [done|]. intros [-> (r' & Hr & Hc)].
  rewrite not_elem_of_cons in Hb. destruct Hb as [Hne Hb]. split; [done|]. exists r'.
  rewrite list_lookup_insert_ne by done. auto.
Qed.

(** Buffers up to their links. *)
Definition unlink (r : buf) : buf := set_b_qnext None r.
Definition same_bufs (l l' : list buf) : Prop := unlink <$> l = unlink <$> l'.

Lemma same_lookup l l' b r : same_bufs l l' -> l !! b = Some r -> exists r', l' !! b = Some r' /\ unlink r' = unlink r.
Proof.
  intros Hs Hr. apply (f_equal (fun m => m !! b)) in Hs. rewrite !list_lookup_fmap, Hr in Hs.
  destruct (l' !! b) as [r'|]; [|done]. exists r'. split; [done|]. symmetry. by apply (inj Some).
Qed.

Lemma same_lookup_None l l' b : same_bufs l l' -> l !! b = None -> l' !! b = None.
Proof.
  intros Hs Hr. apply (f_equal (fun m => m !! b)) in Hs. rewrite !list_lookup_fmap, Hr in Hs. by destruct (l' !! b).
Qed.

Lemma same_insert l l' b r r' : same_bufs l l' -> unlink r = unlink r' -> same_bufs (<[b := r]> l) (<[b := r']> l').
Proof. intros Hs Hr. unfold same_bufs. by rewrite !list_fmap_insert, Hs, Hr. Qed.

Lemma same_relink l b o r : l !! b = Some r -> same_bufs (<[b := set_b_qnext o r]> l) l.
Proof.
  intros Hb. unfold same_bufs. rewrite list_fmap_insert. apply list_insert_id. rewrite list_lookup_fmap, Hb. done.
Qed.

Lemma serve_buf_unlink A r : unlink (serve_buf A r) = serve_buf A (unlink r).
Proof. unfold serve_buf. change (dirty (unlink r)) with (dirty r). by destruct (dirty r). Qed.

Lemma serve_all_same q : forall A l l', same_bufs l l' ->
  (serve_all q A l).1 = (serve_all q A l').1 /\ same_bufs (serve_all q A l).2 (serve_all q A l').2.
Proof.
  induction q as [|b q IH]; intros A l l' Hs; simpl; [done|]. destruct (l !! b) as [r|] eqn:Hr.
  - destruct (same_lookup l l' b r Hs Hr) as (r' & -> & Hu).
    change (serve_disk A r) with (serve_disk A (unlink r)). change (serve_disk A r') with (serve_disk A (unlink r')). rewrite Hu.
    apply IH, same_insert; [done|]. by rewrite !serve_buf_unlink, Hu.
  - by rewrite (same_lookup_None l l' b Hs Hr).
Qed.

Section Facts.
Context {D S : Type} `{DL : DiskLaws D} `{PL : ProcsLaws (ide D) S} `{BL : BufLocks S} (pid : Z) (fuel : nat) (Hfuel : (max_polls < fuel)%nat).
Abbreviation runs := (runs (X := ide D) (S := S) pid).
Implicit Types (x : ide D) (A : sectors) (q : list nat).

Lemma runs_ide_in n port x : runs n (ide_in port) x n (u8 (fst (dev_in port (ide_devs x)))) (set_ide_devs (snd (dev_in port (ide_devs x))) x).
Proof. eapply runs_bind; [by apply runs_load|]. eapply runs_bind; [by eapply runs_store|]. apply runs_ret. Qed.

Lemma runs_ide_out n port b x : runs n (ide_out port b) x n tt (set_ide_devs (dev_out port (u8 b) (ide_devs x)) x).
Proof. by apply (runs_update pid n c_ide_devs). Qed.

Definition ready_view (v : hd_view) : hd_view := mkHd (hd_sectors v) (hd_regs v) (hd_job v) O.

Lemma wait_ready_runs n k : forall x, (hd_polls (hd (ide_devs x)) < k)%nat -> exists d r,
  runs n (wait_ready k) x n r (set_ide_devs d x) /\ hd d = ready_view (hd (ide_devs x)) /\ Z.land r (Z.lor IDE_DF IDE_ERR) = 0.
Proof.
  induction k as [|k IH]; intros x Hk; [lia|]. cbn [wait_ready]. pose proof (hd_status (ide_devs x)) as Hs. cbv zeta in Hs.
  set (d1 := snd (dev_in 0x1f7 (ide_devs x))) in *. destruct (hd_polls (hd (ide_devs x))) as [|m] eqn:Ep.
  - destruct Hs as (Hv & Hr & He). exists d1. eexists. split; [|split; [|exact He]].
    + eapply runs_bind; [apply runs_ide_in|]. rewrite Hr. cbn [negb]. rewrite Z.eqb_refl. apply runs_ret.
    + rewrite Hv. unfold ready_view. rewrite <- Ep. by destruct (hd (ide_devs x)).
  - destruct Hs as [Hv Hr]. destruct (IH (set_ide_devs d1 x)) as (d & r & Hrun & Hd & He); [simpl; rewrite Hv; simpl; lia|].
    exists d, r. split; [|split; [|done]].
    + eapply runs_bind; [apply runs_ide_in|]. rewrite (proj2 (Z.eqb_neq _ _) Hr). cbn [negb]. exact Hrun.
    + rewrite Hd. simpl. by rewrite Hv.
Qed.

Lemma idewait_runs n chk x : exists d, runs n (idewait fuel chk) x n 0 (set_ide_devs d x) /\ hd d = ready_view (hd (ide_devs x)).
Proof using Hfuel.
  destruct (wait_ready_runs n fuel x) as (d & r & Hr & Hd & He); [pose proof (hd_busy (ide_devs x)); lia|].
  exists d. split; [|done]. eapply runs_bind; [exact Hr|]. rewrite He, andb_false_r. apply runs_ret.
Qed.

Lemma set_regs_runs n dev bn x : 0 <= bn < FSSIZE -> hd_polls (hd (ide_devs x)) = O -> exists d f,
  runs n (set_regs dev bn) x n tt (set_ide_devs d x) /\
  hd d = mkHd (hd_sectors (hd (ide_devs x))) f (hd_job (hd (ide_devs x))) O /\
  reg_drive f = Z.land dev 1 /\ reg_sector f = bn.
Proof.
  intros Hb Hp. set (d0 := ide_devs x) in *. set (d1 := dev_out 0x3f6 (u8 0) d0).
  set (d2 := dev_out 0x1f2 (u8 1) d1). set (d3 := dev_out 0x1f3 (u8 (Z.land bn 0xff)) d2).
  set (d4 := dev_out 0x1f4 (u8 (Z.land (Z.shiftr bn 8) 0xff)) d3). set (d5 := dev_out 0x1f5 (u8 (Z.land (Z.shiftr bn 16) 0xff)) d4).
  exists (dev_out 0x1f6 (u8 (Z.lor (Z.lor 0xe0 (Z.shiftl (Z.land dev 1) 4)) (Z.land (Z.shiftr bn 24) 0x0f))) d5).
  eexists. split; [|split].
  - eapply runs_bind; [apply (runs_ide_out n 0x3f6 0 x)|]. eapply runs_bind; [apply (runs_ide_out n 0x1f2 1 (set_ide_devs d1 x))|].
    eapply runs_bind; [apply (runs_ide_out n 0x1f3 _ (set_ide_devs d2 x))|]. eapply runs_bind; [apply (runs_ide_out n 0x1f4 _ (set_ide_devs d3 x))|].
    eapply runs_bind; [apply (runs_ide_out n 0x1f5 _ (set_ide_devs d4 x))|]. apply (runs_ide_out n 0x1f6 _ (set_ide_devs d5 x)).
  - subst d5 d4 d3 d2 d1. rewrite !hd_reg by lia. rewrite hd_control. cbn [hd_sectors hd_regs hd_job hd_polls]. rewrite Hp. reflexivity.
  - by apply regs_select.
Qed.

(** Starting a request on a disk that holds [A]. *)
Lemma idestart_runs n b r A x : ide_bufs x !! b = Some r -> request_ok r -> hd_sectors (hd (ide_devs x)) = A -> exists d,
  runs n (idestart fuel (Some b)) x n tt (set_ide_devs d x) /\ active A r (hd d).
Proof using Hfuel.
  intros Hb [Hbn Hlen] HA. destruct (idewait_runs n false x) as (d1 & Hr1 & Hd1).
  destruct (set_regs_runs n (b_dev r) (b_blockno r) (set_ide_devs d1 x) Hbn) as (d2 & f & Hr2 & Hd2 & Hdr & Hse).
  { simpl. by rewrite Hd1. }
  simpl in Hd2. rewrite Hd1 in Hd2. cbn [hd_sectors hd_job ready_view] in Hd2. rewrite HA in Hd2.
  assert (forall d' k, runs n k (set_ide_devs d2 x) n tt (set_ide_devs d' x) ->
    k = (if dirty r then ide_out 0x1f7 write_cmd ;;; update c_ide_devs (dev_outsl 0x1f0 (b_data r)) else ide_out 0x1f7 read_cmd) ->
    runs n (idestart fuel (Some b)) x n tt (set_ide_devs d' x)) as Hrun.
  { intros d' k Hk ->. unfold idestart. eapply runs_bind; [by apply runs_load|].
    rewrite (proj2 (Z.leb_gt FSSIZE (b_blockno r))) by lia. change (7 <? sector_per_block) with false. cbv iota.
    replace (i32 (b_blockno r * sector_per_block)) with (b_blockno r)
      by (change sector_per_block with 1; rewrite Z.mul_1_r, i32_id; [done|unfold FSSIZE in Hbn; lia]).
    eapply runs_bind; [exact Hr1|]. eapply runs_bind; [exact Hr2|]. eapply runs_bind; [by apply runs_load|]. exact Hk. }
  unfold active, dirty in *. destruct (has_flag B_DIRTY (b_flags r)) eqn:Ed.
  - destruct (hd_cmd_write d2 ltac:(by rewrite Hd2)) as [k1 Hd3]. set (d3 := dev_out 0x1f7 IDE_CMD_WRITE d2) in *. rewrite Hd2 in Hd3.
    cbn [hd_sectors hd_regs] in Hd3. rewrite Hdr, Hse in Hd3.
    destruct (hd_write d3 (drive_of r) (b_blockno r) (b_data r)) as [k2 Hd4]; [by rewrite Hd3|done|]. rewrite Hd3 in Hd4. simpl in Hd4.
    exists (dev_outsl 0x1f0 (b_data r) d3). split.
    + eapply Hrun; [|reflexivity]. eapply runs_bind; [apply runs_ide_out|].
      exact (runs_update pid n c_ide_devs (set_ide_devs d3 x) d3 (dev_outsl 0x1f0 (b_data r)) eq_refl).
    + rewrite Hd4. cbn [hd_sectors]. unfold serve_disk, dirty. by rewrite Ed.
  - destruct (hd_cmd_read d2 ltac:(by rewrite Hd2)) as [k1 Hd3]. rewrite Hd2 in Hd3. cbn [hd_sectors hd_regs] in Hd3. rewrite Hdr, Hse in Hd3.
    exists (dev_out 0x1f7 IDE_CMD_READ d2). split; [|by rewrite Hd3].
    eapply Hrun; [|reflexivity]. exact (runs_ide_out n 0x1f7 read_cmd (set_ide_devs d2 x)).
Qed.

(** The driver between two calls: the queue is [q], its first request is under way, and
    [A] is what the disk held before it. *)
Record ide_ok A q x : Prop := {
  io_nodup : NoDup q;
  io_chain : chain (ide_bufs x) (idequeue x) q;
  io_ok : forall b r, b ∈ q -> ide_bufs x !! b = Some r -> request_ok r;
  io_disk : match q with
            | [] => hd_sectors (hd (ide_devs x)) = A
            | b :: _ => exists r, ide_bufs x !! b = Some r /\ active A r (hd (ide_devs x))
            end
}.

(** The data of a finished read. *)
Lemma read_head_runs n b r A x : ide_bufs x !! b = Some r -> active A r (hd (ide_devs x)) -> exists d r',
  runs n (when (negb (has_flag B_DIRTY (b_flags r))) (k <- idewait fuel true ;; when (0 <=? k) (read_data b))) x n tt
    (set_ide_bufs (<[b := r']> (ide_bufs x)) (set_ide_devs d x)) /\
  r' = (if dirty r then r else set_b_data (A (drive_of r) (b_blockno r)) r) /\ hd_sectors (hd d) = serve_disk A r.
Proof using Hfuel.
  intros Hb Ha. unfold active, serve_disk, dirty in *. destruct (has_flag B_DIRTY (b_flags r)) eqn:Ed; cbn [negb when].
  - exists (ide_devs x), r. split; [|done]. rewrite list_insert_id by done. destruct x. apply runs_ret.
  - destruct Ha as [HA Hj]. destruct (idewait_runs n true x) as (d1 & Hr1 & Hd1).
    destruct (hd_read d1 (drive_of r) (b_blockno r)) as (k & Hdata & Hd2); [by rewrite Hd1|by rewrite Hd1|].
    rewrite Hd1 in Hdata, Hd2. cbn [hd_sectors ready_view] in Hdata, Hd2. rewrite HA in Hdata, Hd2.
    exists (snd (dev_insl 0x1f0 128 d1)). eexists. split; [|split; [reflexivity|by rewrite Hd2]].
    eapply runs_bind; [exact Hr1|]. cbn [when Z.leb Z.compare]. unfold read_data. eapply runs_bind; [by apply runs_load|].
    eapply runs_bind; [by eapply runs_store|]. change (BSIZE / 4) with 128. rewrite <- Hdata.
    pose proof (runs_store pid n (c_ide_buf b @ c_b_data) (set_ide_devs (snd (dev_insl 0x1f0 128 d1)) x) (b_data r) (fst (dev_insl 0x1f0 128 d1))) as Hs.
    simpl in Hs. rewrite Hb in Hs. simpl in Hs. by apply Hs.
Qed.

Definition with_buf (b : nat) (r : buf) x : ide D := set_ide_bufs (<[b := r]> (ide_bufs x)) x.

Lemma runs_buf_update {Y : Type} n b (c : cell buf Y) r y f x : ide_bufs x !! b = Some r -> cget c r = Some y ->
  runs n (update (c_ide_buf b @ c) f) x n tt (with_buf b (cset c (f y) r) x).
Proof.
  intros Hb Hc. pose proof (runs_update pid n (c_ide_buf b @ c) x y f) as Hs. simpl in Hs. rewrite Hb in Hs. simpl in Hs. by apply Hs.
Qed.

Lemma runs_buf_store {Y : Type} n b (c : cell buf Y) r y0 y x : ide_bufs x !! b = Some r -> cget c r = Some y0 ->
  runs n (store (c_ide_buf b @ c) y) x n tt (with_buf b (cset c y r) x).
Proof.
  intros Hb Hc. pose proof (runs_store pid n (c_ide_buf b @ c) x y0 y) as Hs. simpl in Hs. rewrite Hb in Hs. simpl in Hs. by apply Hs.
Qed.

Lemma with_buf_at b r x : (b < length (ide_bufs x))%nat -> ide_bufs (with_buf b r x) !! b = Some r.
Proof. intros Hl. simpl. by apply list_lookup_insert_eq. Qed.

Lemma with_buf_twice b r r' x : with_buf b r (with_buf b r' x) = with_buf b r x.
Proof. unfold with_buf. simpl. by rewrite list_insert_insert_eq. Qed.

(** The next request is started if there is one. *)
Lemma start_next_runs n A q x : NoDup q -> chain (ide_bufs x) (idequeue x) q ->
  (forall b r, b ∈ q -> ide_bufs x !! b = Some r -> request_ok r) -> hd_sectors (hd (ide_devs x)) = A -> exists d,
  runs n (start_next fuel) x n tt (set_ide_devs d x) /\
  ide_ok A q (set_ide_devs d x).
Proof using Hfuel.
  intros Hnd Hc Hok HA. destruct q as [|c q].
  - exists (ide_devs x). simpl in Hc. split; [|by destruct x; constructor].
    eapply runs_bind; [by apply runs_load|]. rewrite Hc. destruct x. apply runs_ret.
  - pose proof Hc as [Hq (r & Hr & _)]. destruct (idestart_runs n c r A x Hr) as (d & Hrun & Ha); [apply (Hok c); [by left|done]|done|].
    exists d. split; [|constructor; [done|exact Hc|exact Hok|by exists r]].
    eapply runs_bind; [by apply runs_load|]. rewrite Hq. exact Hrun.
Qed.

Context (lk : spinlock) (Hlk : free_lock lk).

(** The state after the first request [b] is done. *)
Definition after_head A (b : nat) (r : buf) (d : D) x : ide D :=
  with_buf b (serve_buf A r) (set_idequeue (b_qnext r) (set_ide_devs d x)).

Lemma serve_head_runs n A b q r x : shallow n -> ide_ok A (b :: q) x -> ide_bufs x !! b = Some r -> exists d,
  runs n (finish_head fuel b) x n tt (after_head A b r d x) /\ hd_sectors (hd d) = serve_disk A r.
Proof using Hfuel.
  intros Hn Hx Hb. destruct (io_disk _ _ _ Hx) as (r0 & Hr0 & Ha). rewrite Hb in Hr0. injection Hr0 as <-.
  pose proof (lookup_lt_Some _ _ _ Hb) as Hlt.
  destruct (read_head_runs n b r A (set_idequeue (b_qnext r) x) Hb Ha) as (d & r' & Hrun & Er' & Hd).
  exists d. split; [|done]. eapply runs_bind; [by apply runs_load|]. eapply runs_bind; [by eapply runs_store|]. eapply runs_bind; [exact Hrun|].
  set (x1 := set_ide_devs d (set_idequeue (b_qnext r) x)). change (set_ide_bufs _ _) with (with_buf b r' x1).
  eapply runs_bind; [apply (runs_buf_update n b c_b_flags r' (b_flags r')); [by apply with_buf_at|done]|]. rewrite with_buf_twice.
  eapply runs_bind; [eapply (runs_buf_update n b c_b_flags); [by apply with_buf_at|done]|]. rewrite with_buf_twice.
  replace (after_head A b r d x) with (with_buf b (set_b_flags (clear_flag B_DIRTY (set_flag B_VALID (b_flags r'))) r') x1);
    [by apply runs_wakeup|]. unfold after_head, serve_buf. rewrite Er'. done.
Qed.

Lemma after_head_ok A b q r d x : ide_ok A (b :: q) x -> ide_bufs x !! b = Some r ->
  NoDup q /\ chain (ide_bufs (after_head A b r d x)) (b_qnext r) q /\
  (forall c rc, c ∈ q -> ide_bufs (after_head A b r d x) !! c = Some rc -> request_ok rc).
Proof.
  intros [Hnd [_ (r1 & Hr1 & Hc)] Hok _] Hb. rewrite Hb in Hr1. injection Hr1 as <-. apply NoDup_cons in Hnd as [Hnb Hnd].
  split; [done|]. split; [by apply chain_insert|]. intros c rc Hcq Hrc. simpl in Hrc.
  destruct (decide (c = b)) as [->|Hne]; [done|]. rewrite list_lookup_insert_ne in Hrc by done. apply (Hok c); [by right|done].
Qed.

Lemma ideintr_runs A b q r x : ide_ok A (b :: q) x -> idelock x = lk -> ide_bufs x !! b = Some r -> exists d,
  runs 0 (ideintr fuel) x 0 tt (after_head A b r d x) /\ ide_ok (serve_disk A r) q (after_head A b r d x).
Proof using Hfuel Hlk.
  intros Hx Hl Hb. set (x0 := set_idelock (locked_by0 lk) x).
  assert (ide_ok A (b :: q) x0) as Hx0 by (by destruct Hx).
  destruct (serve_head_runs 1 A b q r x0 ltac:(unfold shallow; lia) Hx0 Hb) as (d & Hrun & Hd).
  destruct (after_head_ok A b q r d x0 Hx0 Hb) as (Hnd & Hc & Hok).
  destruct (start_next_runs 1 (serve_disk A r) q (after_head A b r d x0) Hnd Hc Hok Hd) as (d2 & Hrun2 & Hok2).
  exists d2. destruct (io_chain _ _ _ Hx) as [Hq _]. split; [|by destruct Hok2].
  unfold ideintr. eapply runs_bind; [apply (runs_acquire pid 0 c_idelock x lk); [simpl; by rewrite Hl|done|unfold shallow; lia]|].
  change (cset c_idelock _ x) with x0. eapply runs_bind; [apply (runs_load pid 1 c_idequeue x0 (Some b)); simpl; by rewrite Hq|].
  eapply runs_bind; [exact Hrun|]. eapply runs_bind; [exact Hrun2|].
  pose proof (runs_release pid 1 c_idelock (set_ide_devs d2 (after_head A b r d x0)) (locked_by0 lk) ltac:(done) ltac:(done) ltac:(unfold shallow; lia) ltac:(lia)) as Hrel.
  simpl in Hrel. rewrite free_unlocked in Hrel by done. subst lk. exact Hrel.
Qed.

(** As many interrupts as there are requests. *)
Fixpoint interrupts (k : nat) : M S unit :=
  match k with O => ret tt | Datatypes.S k => ideintr fuel ;;; interrupts k end.

Lemma interrupts_run q : forall A x, ide_ok A q x -> idelock x = lk -> exists x',
  runs 0 (interrupts (length q)) x 0 tt x' /\ idelock x' = lk /\ ide_ok (serve_all q A (ide_bufs x)).1 [] x' /\
  ide_bufs x' = (serve_all q A (ide_bufs x)).2.
Proof using Hfuel Hlk.
  induction q as [|b q IH]; intros A x Hx Hl; cbn [interrupts length serve_all].
  - exists x. split; [apply runs_ret|done].
  - destruct (io_chain _ _ _ Hx) as [_ (r & Hr & _)]. rewrite Hr.
    destruct (ideintr_runs A b q r x Hx Hl Hr) as (d & Hrun & Hok).
    destruct (IH _ _ Hok Hl) as (x' & Hrun' & Hl' & Hok' & Hb'). exists x'. split; [|done]. eapply runs_bind; [exact Hrun|exact Hrun'].
Qed.

(** ** iderw *)

Lemma chain_snoc bufs b rb l rl : forall q o, chain bufs o q -> NoDup q -> b ∉ q -> last q = Some l -> bufs !! l = Some rl ->
  bufs !! b = Some rb -> b_qnext rb = None -> chain (<[l := set_b_qnext (Some b) rl]> bufs) o (q ++ [b]).
Proof.
  induction q as [|p q IH]; intros o Hch Hnd Hb Hl Hrl Hrb Hqb; [done|]. destruct Hch as [-> (r & Hr & Hc)].
  apply NoDup_cons in Hnd as [Hp Hnd]. apply not_elem_of_cons in Hb as [Hbp Hb]. split; [done|].
  destruct q as [|p2 q].
  - injection Hl as ->. rewrite Hr in Hrl. injection Hrl as ->. pose proof (lookup_lt_Some _ _ _ Hr).
    exists (set_b_qnext (Some b) rl). split; [by apply list_lookup_insert_eq|]. split; [done|].
    exists rb. split; [by rewrite list_lookup_insert_ne|done].
  - assert (l ∈ p2 :: q) as Hin by (by apply last_Some_elem_of). exists r. split; [|by apply IH].
    rewrite list_lookup_insert_ne; [done|]. by intros ->.
Qed.

Lemma append_after_runs n b q : forall k p x, chain (ide_bufs x) (Some p) (p :: q) -> (length q < k)%nat -> exists l rl,
  last (p :: q) = Some l /\ ide_bufs x !! l = Some rl /\ runs n (append_after k p b) x n tt (with_buf l (set_b_qnext (Some b) rl) x).
Proof.
  induction q as [|p2 q IH]; intros k p x [_ (r & Hr & Hc)] Hk; destruct k as [|k]; try (simpl in Hk; lia); cbn [append_after].
  - exists p, r. split; [done|]. split; [done|]. simpl in Hc.
    eapply runs_bind; [by apply (runs_load pid n (c_ide_buf p))|]. rewrite Hc. by apply (runs_buf_store n p c_b_qnext r (b_qnext r)).
  - pose proof Hc as [Hq _]. destruct (IH k p2 x) as (l & rl & Hl & Hrl & Hrun); [by rewrite <- Hq|simpl in Hk; lia|].
    exists l, rl. split; [exact Hl|]. split; [done|]. eapply runs_bind; [by apply (runs_load pid n (c_ide_buf p))|]. rewrite Hq. exact Hrun.
Qed.

Lemma queue_short q x o : chain (ide_bufs x) o q -> NoDup q -> (length q <= length (ide_bufs x))%nat.
Proof.
  intros Hc Hnd. rewrite <- (length_seq (length (ide_bufs x)) 0). apply submseteq_length, NoDup_submseteq; [done|].
  intros b Hb. apply elem_of_seq. split; [lia|]. simpl. revert o Hc Hb. clear Hnd. induction q as [|c q IH]; intros o Hc Hb; [by apply elem_of_nil in Hb|].
  destruct Hc as [_ (r & Hr & Hc)]. apply elem_of_cons in Hb as [->|Hb]; [by apply lookup_lt_Some in Hr|by eapply IH].
Qed.

Lemma request_unlink r r' : unlink r = unlink r' -> request_ok r -> request_ok r'.
Proof.
  intros Hu [Hb Hd]. constructor.
  - change (b_blockno r') with (b_blockno (unlink r')). by rewrite <- Hu.
  - change (b_data r') with (b_data (unlink r')). by rewrite <- Hu.
Qed.

Lemma active_unlink A r r' v : unlink r = unlink r' -> active A r v -> active A r' v.
Proof. intros Hu Ha. change (active A (unlink r') v). by rewrite <- Hu. Qed.

(** The request [b] is put at the end of the queue, and started if it is the only one. *)
Lemma submit_runs A q b rb x : ide_ok A q x -> b ∉ q -> ide_bufs x !! b = Some rb -> request_ok rb ->
  (length (ide_bufs x) <= Datatypes.S NBUF)%nat -> exists x',
  runs 1 (submit fuel b) x 1 tt x' /\
  ide_ok A (q ++ [b]) x' /\ same_bufs (ide_bufs x') (ide_bufs x) /\ idelock x' = idelock x.
Proof using Hfuel.
  intros Hx Hbq Hb Hrb Hn. pose proof (lookup_lt_Some _ _ _ Hb) as Hlt. set (rb0 := unlink rb). set (x1 := with_buf b rb0 x).
  assert (same_bufs (ide_bufs x1) (ide_bufs x)) as Hs1 by (by apply same_relink).
  assert (ide_bufs x1 !! b = Some rb0) as Hb1 by (by apply with_buf_at).
  assert (chain (ide_bufs x1) (idequeue x1) q) as Hc1 by (apply chain_insert; [done|apply Hx]).
  assert (runs 1 (store (c_ide_buf b @ c_b_qnext) None) x 1 tt x1) as Hr1 by (by apply (runs_buf_store 1 b c_b_qnext rb (b_qnext rb))).
  assert (forall c r, ide_bufs x1 !! c = Some r -> c ∈ q ++ [b] -> request_ok r) as Hok1.
  { intros c r Hc Hin. destruct (same_lookup _ _ _ _ Hs1 Hc) as (r' & Hr' & Hu). eapply request_unlink; [exact Hu|].
    apply elem_of_app in Hin as [Hin|Hin%list_elem_of_singleton]; [by eapply (io_ok _ _ _ Hx)|]. subst c. rewrite Hb in Hr'. by injection Hr' as <-. }
  destruct q as [|p q].
  - pose proof (io_chain _ _ _ Hx) as Hq. pose proof (io_disk _ _ _ Hx) as Hd. simpl in Hq. set (x2 := set_idequeue (Some b) x1).
    destruct (idestart_runs 1 b rb0 A x2 Hb1) as (d & Hr2 & Ha); [by apply (Hok1 b rb0 Hb1); left|done|].
    exists (set_ide_devs d x2). split_and!; [|constructor|done|done].
    + unfold submit, append_request. eapply runs_bind; [eapply runs_bind; [exact Hr1|]|].
      * eapply runs_bind; [apply (runs_load pid 1 c_idequeue x1 None); simpl; by rewrite Hq|]. by eapply (runs_store pid 1 c_idequeue).
      * eapply runs_bind; [by apply runs_load|]. simpl. rewrite bool_decide_true by done. exact Hr2.
    + apply NoDup_singleton.
    + simpl. split; [done|]. by exists rb0.
    + intros c r Hc Hr. by apply (Hok1 c r).
    + by exists rb0.
  - destruct (io_chain _ _ _ Hx) as [Hq _]. pose proof (io_nodup _ _ _ Hx) as Hnd. change (idequeue x1) with (idequeue x) in Hc1. rewrite Hq in Hc1.
    pose proof (queue_short (p :: q) x1 (Some p) Hc1 Hnd) as Hlen. simpl in Hlen. rewrite length_insert in Hlen.
    destruct (append_after_runs 1 b q (Datatypes.S NBUF) p x1 Hc1 ltac:(lia)) as (l & rl & Hl & Hrl & Hr2).
    exists (with_buf l (set_b_qnext (Some b) rl) x1).
    assert (same_bufs (ide_bufs (with_buf l (set_b_qnext (Some b) rl) x1)) (ide_bufs x1)) as Hs2 by (by apply same_relink).
    split_and!; [|constructor|by etrans|done].
    + unfold submit, append_request. eapply runs_bind; [eapply runs_bind; [exact Hr1|]|].
      * eapply runs_bind; [apply (runs_load pid 1 c_idequeue x1 (Some p)); simpl; by rewrite Hq|]. exact Hr2.
      * eapply runs_bind; [by apply runs_load|]. simpl. rewrite Hq. rewrite bool_decide_false by (intros [= ->]; apply Hbq; by left). apply runs_ret.
    + apply NoDup_app. split; [done|]. split; [|apply NoDup_singleton]. intros c Hc ->%list_elem_of_singleton. done.
    + change (idequeue (with_buf l (set_b_qnext (Some b) rl) x1)) with (idequeue x). rewrite Hq. by eapply chain_snoc.
    + intros c r Hc Hr. destruct (same_lookup _ _ _ _ Hs2 Hr) as (r' & Hr' & Hu). eapply request_unlink; [exact Hu|]. by apply (Hok1 c r').
    + destruct (io_disk _ _ _ Hx) as (r & Hr & Ha).
      assert (same_bufs (ide_bufs x) (ide_bufs (with_buf l (set_b_qnext (Some b) rl) x1))) as Hs3 by (symmetry; by etrans).
      destruct (same_lookup _ _ _ _ Hs3 Hr) as (r' & Hr' & Hu). exists r'. split; [exact Hr'|]. by eapply active_unlink.
Qed.

(** While a process sleeps, the disk interrupts; the lock is given up meanwhile. *)
Definition sleeps_until_interrupt : Prop := forall b s,
  sleep_on (buf_chan b) ide_spin s = (release ide_spin ;;; ideintr fuel ;;; acquire ide_spin) s.
Context (Hsleep : sleeps_until_interrupt).

Lemma sleep_runs A b c q r x : ide_ok A (c :: q) x -> idelock x = locked_by0 lk -> ide_bufs x !! c = Some r -> exists d,
  runs 1 (sleep_on (buf_chan b) ide_spin) x 1 tt (after_head A c r d x) /\ ide_ok (serve_disk A r) q (after_head A c r d x).
Proof using Hfuel Hlk Hsleep.
  intros Hx Hl Hr. set (x0 := set_idelock lk x). assert (ide_ok A (c :: q) x0) as Hx0 by (by destruct Hx).
  destruct (ideintr_runs A c q r x0 Hx0 eq_refl Hr) as (d & Hrun & Hok). exists d. split; [|by destruct Hok].
  assert (runs 1 (release ide_spin ;;; ideintr fuel ;;; acquire ide_spin) x 1 tt (after_head A c r d x)) as Hall.
  { pose proof (runs_release pid 1 c_idelock x (locked_by0 lk) ltac:(simpl; by rewrite Hl) ltac:(done) ltac:(unfold shallow; lia) ltac:(lia)) as Hrel.
    simpl in Hrel. rewrite free_unlocked in Hrel by done. eapply runs_bind; [exact Hrel|]. eapply runs_bind; [exact Hrun|].
    pose proof (runs_acquire pid 0 c_idelock (after_head A c r d x0) lk ltac:(done) Hlk ltac:(unfold shallow; lia)) as Hacq.
    simpl in Hacq. change (mkLock 1 (lk_name lk) (Some 0%nat)) with (locked_by0 lk) in Hacq. rewrite <- Hl in Hacq. exact Hacq. }
  intros s Hs Hp. rewrite Hsleep. by apply Hall.
Qed.

Lemma wait_done_runs b q : forall A x k, ide_ok A (q ++ [b]) x -> idelock x = locked_by0 lk ->
  (exists r, ide_bufs x !! b = Some r /\ finished (b_flags r) = false) -> (length q + 1 < k)%nat -> exists x',
  runs 1 (wait_done k b) x 1 tt x' /\ idelock x' = locked_by0 lk /\
  ide_ok (serve_all (q ++ [b]) A (ide_bufs x)).1 [] x' /\ ide_bufs x' = (serve_all (q ++ [b]) A (ide_bufs x)).2.
Proof using Hfuel Hlk Hsleep.
  induction q as [|c q IH]; intros A x k Hx Hl (rb & Hb & Hf) Hk; (destruct k as [|k]; [lia|]); cbn [wait_done app serve_all] in *.
  - rewrite Hb. destruct (sleep_runs A b b [] rb x Hx Hl Hb) as (d & Hrun & Hok).
    exists (after_head A b rb d x). split_and!; [|exact Hl|exact Hok|done].
    pose proof (lookup_lt_Some _ _ _ Hb) as Hlt.
    eapply runs_bind; [apply (runs_load pid 1 (c_ide_buf b @ c_b_flags) x (b_flags rb)); simpl; by rewrite Hb|].
    unfold finished in Hf. rewrite Hf. cbn [negb]. eapply runs_bind; [exact Hrun|]. destruct k as [|k]; [simpl in Hk; lia|]. cbn [wait_done].
    eapply runs_bind; [apply (runs_load pid 1 (c_ide_buf b @ c_b_flags) _ (b_flags (serve_buf A rb))); simpl; by rewrite list_lookup_insert_eq|].
    pose proof (served_finished A rb) as Hfin. unfold finished in Hfin. rewrite Hfin. apply runs_ret.
  - destruct (io_chain _ _ _ Hx) as [_ (r & Hr & _)]. rewrite Hr. pose proof (io_nodup _ _ _ Hx) as Hnd. apply NoDup_cons in Hnd as [Hnc _].
    assert (c <> b) as Hne. { intros ->. apply Hnc, elem_of_app. right. by left. }
    destruct (sleep_runs A b c (q ++ [b]) r x Hx Hl Hr) as (d & Hrun & Hok).
    destruct (IH (serve_disk A r) (after_head A c r d x) k Hok Hl) as (x' & Hrun' & Hrest); [|simpl in Hk; lia|].
    + exists rb. split; [|done]. simpl. by rewrite list_lookup_insert_ne.
    + exists x'. split; [|exact Hrest].
      eapply runs_bind; [apply (runs_load pid 1 (c_ide_buf b @ c_b_flags) x (b_flags rb)); simpl; by rewrite Hb|].
      unfold finished in Hf. rewrite Hf. cbn [negb]. eapply runs_bind; [exact Hrun|exact Hrun'].
Qed.


End Facts.

(** ** An example *)

(** A disk that is busy for one poll after every command. *)
Record drive := mkDrive { dr_sectors : sectors; dr_regs : Z -> Z; dr_job : job; dr_busy : bool }.

#[global] Instance drive_ports : Devices drive := {
  dev_in port v :=
    if port =? 0x1f7 then
      if dr_busy v then (0x80, mkDrive (dr_sectors v) (dr_regs v) (dr_job v) false) else (0x40, v)
    else (0, v);
  dev_out port b v :=
    if (0x1f2 <=? port) && (port <=? 0x1f6) then mkDrive (dr_sectors v) (upd (dr_regs v) port b) (dr_job v) (dr_busy v)
    else if port =? 0x1f7 then
      if b =? IDE_CMD_READ then mkDrive (dr_sectors v) (dr_regs v) (Reading (reg_drive (dr_regs v)) (reg_sector (dr_regs v))) true
      else if b =? IDE_CMD_WRITE then mkDrive (dr_sectors v) (dr_regs v) (Writing (reg_drive (dr_regs v)) (reg_sector (dr_regs v))) true
      else v
    else v
}.

#[global] Instance drive_data : DataPort drive := {
  dev_insl port n v :=
    match dr_job v with
    | Reading dr se => (dr_sectors v dr se, mkDrive (dr_sectors v) (dr_regs v) Idle true)
    | _ => ([], v)
    end;
  dev_outsl port bs v :=
    match dr_job v with
    | Writing dr se => mkDrive (put_sector (dr_sectors v) dr se bs) (dr_regs v) Idle true
    | _ => v
    end
}.

#[global, refine] Instance drive_laws : DiskLaws drive := {|
  hd v := mkHd (dr_sectors v) (dr_regs v) (dr_job v) (if dr_busy v then 1%nat else 0%nat);
  max_polls := 1%nat
|}.
Proof.
  - intros v. simpl. destruct (dr_busy v); lia.
  - intros v. simpl. destruct (dr_busy v) eqn:E; simpl; [done|]. by rewrite E.
  - done.
  - intros p b v Hp. unfold dev_out, drive_ports. rewrite (proj2 (Z.leb_le _ _)), (proj2 (Z.leb_le p _)) by lia. done.
  - intros v w _. by exists 1%nat.
  - intros v w _. by exists 1%nat.
  - intros v dr se bs w Hj _. simpl in *. rewrite Hj. by exists 1%nat.
  - intros v dr se w Hj _. simpl in *. rewrite Hj. by exists 1%nat.
Defined.

(** A machine with one process and the disk. *)
Record rig := mkRig { rg_mach : mach; rg_ide : ide drive; rg_pid : Z }.

#[export] Instance rig_mach : HasMach rig.
Proof.
  refine {| mach_of := rg_mach; set_mach m s := mkRig m (rg_ide s) (rg_pid s) |}; try done. by intros [].
Defined.

#[export] Instance rig_part : Part (ide drive) rig.
Proof.
  refine {| part := rg_ide; set_part x s := mkRig (rg_mach s) x (rg_pid s) |}; try done. by intros [].
Defined.

(** A sleeping process wakes up at the next interrupt. *)
Definition rig_awake : Procs rig := {|
  sleep_on _ _ := fun _ => Spin; wakeup_on _ := ret tt; my_pid := gets rg_pid; my_killed := ret 0
|}.
#[export] Instance rig_procs : Procs rig := {|
  sleep_on _ _ := release ide_spin ;;; ideintr (PR := rig_awake) 5 ;;; acquire ide_spin;
  wakeup_on _ := ret tt; my_pid := gets rg_pid; my_killed := ret 0
|}.

#[export] Instance rig_laws : ProcsLaws (ide drive) rig.
Proof.
  refine {| in_proc pid n s := rg_pid s = pid /\ exists cp cq, kcpu 0 (rg_mach s) n cp cq |}.
  - intros pid n s [Hp (cp & cq & Hk)]. exists cp, cq. split; [done|]. intros m n' Hk'. split; [done|]. by exists cp, cq.
  - done.
  - intros pid n s c Hs _. by exists s.
  - intros pid n s [<- Hs] _. by exists s.
Defined.

#[export] Instance rig_locks : BufLocks rig := {| buf_locked _ := ret true |}.

Definition rig_lock : spinlock := mkLock 0 "ide" None.
Definition rig_sector : sectors := fun _ s => replicate 512 s.

(** A read of block 3 under way, and a buffer to be written to the same block. *)
Definition rig_state : rig :=
  mkRig (mkMach [mkCpu 0 1 0 0 None None 0 0 0 0 (SEG16 0 0 0 0)] 1 0 true 0 0)
    (mkIde rig_lock (Some 1%nat) 0
       [mkBuf 4 0 3 (mkSl 1 rig_lock EmptyString 1) 1 0 0 None (replicate 512 9);
        mkBuf 0 0 3 (mkSl 1 rig_lock EmptyString 2) 1 0 0 None (replicate 512 0)]
       (mkDrive rig_sector (fun _ => 0) (Reading 0 3) true)) 1.

Lemma rig_in_proc : in_proc (X := ide drive) 1 0 rig_state.
Proof.
  split; [done|]. exists None, None, (mkCpu 0 1 0 0 None None 0 0 0 0 (SEG16 0 0 0 0)). split; [|done].
  constructor; simpl; [done|done|lia|lia|lia|lia].
Qed.

Lemma rig_ok : ide_ok rig_sector [1%nat] (part rig_state).
Proof.
  constructor.
  - apply NoDup_singleton.
  - simpl. split; [done|]. by eexists.
  - intros b r ->%list_elem_of_singleton [= <-]. constructor; [simpl; unfold FSSIZE; lia|done].
  - eexists. split; [done|]. done.
Qed.

