(* ===== verification/Mkfs.v ===== *)
(** * The initial disk image (mkfs.c)

    mkfs runs on the host, taken to be little endian.  The image is the list of its
    blocks: [mkfs] writes whole blocks only, a write past the end leaves zeroes between,
    and a read past the end is short, which ends the program.  Other failures of the host
    ([lseek], a full disk) are left out, as are the messages.  A file to be put in the
    image is its name and the pieces in which [read] returns its bytes; [exit(1)] is [halt]. *)

From stdpp Require Import base tactics list strings.
From Stdlib Require Import ZArith Lia.
From S2P Require Import Prelude Params StringC SysState Words Bio Log Fs.
Open Scope Z_scope.

Definition NINODES : Z := 200.

(** [a[0] = x; a[1] = x >> 8; return y;] *)
Definition xshort (x : Z) : Z := le_val [x mod 256; Z.shiftr x 8 mod 256].
Definition xint (x : Z) : Z :=
  le_val [x mod 256; Z.shiftr x 8 mod 256; Z.shiftr x 16 mod 256; Z.shiftr x 24 mod 256].

(** The layout of the image. *)
Definition nbitmap : Z := FSSIZE / (BSIZE * 8) + 1.
Definition ninodeblocks : Z := NINODES / IPB + 1.
Definition nlog : Z := Z.of_nat LOGSIZE.
Definition nmeta : Z := 2 + nlog + ninodeblocks + nbitmap.
Definition nblocks : Z := FSSIZE - nmeta.

(** The global [sb], as [main] fills it. *)
Definition mksb : superblock :=
  mkSb (xint FSSIZE) (xint nblocks) (xint NINODES) (xint nlog) (xint 2) (xint (2 + nlog)) (xint (2 + nlog + ninodeblocks)).

Definition zeroes : list Z := replicate (Z.to_nat BSIZE) 0.

Record mk := mkMk {
  image : list (list Z);   (* fsfd *)
  freeinode : Z;
  freeblock : Z
}.
Definition set_image (v : list (list Z)) (r : mk) : mk := mkMk v (freeinode r) (freeblock r).
Definition set_freeinode (v : Z) (r : mk) : mk := mkMk (image r) v (freeblock r).
Definition set_freeblock (v : Z) (r : mk) : mk := mkMk (image r) (freeinode r) v.

(** A file named on the command line: [None] if it cannot be opened. *)
Record source := mkSource { src_name : list Z; src_reads : option (list (list Z)) }.

Abbreviation Host := (M mk).

Definition assertion (b : bool) : Host unit := if b then ret tt else panic "assert".

(** [write] of a block at block [n] of the file. *)
Definition put_block (n : nat) (buf : list Z) (l : list (list Z)) : list (list Z) :=
  if (n <? length l)%nat then <[n := buf]> l else l ++ replicate (n - length l) zeroes ++ [buf].

Definition wsect (sec : Z) (buf : list Z) : Host unit :=
  if FSSIZE <? sec then halt else modify (fun s => set_image (put_block (Z.to_nat sec) buf (image s)) s).

Definition rsect (sec : Z) : Host (list Z) :=
  if FSSIZE <? sec then halt else
  l <- gets image ;;
  match l !! Z.to_nat sec with Some buf => ret buf | None => halt end.

Definition winode (inum : Z) (ip : dinode) : Host unit :=
  let bn := IBLOCK inum mksb in
  buf <- rsect bn ;;
  wsect bn (put_dinode (dinode_off inum) ip buf).

Definition rinode (inum : Z) : Host dinode :=
  let bn := IBLOCK inum mksb in
  buf <- rsect bn ;;
  ret (get_dinode (dinode_off inum) buf).

Definition ialloc (type : Z) : Host Z :=
  inum <- gets freeinode ;;
  modify (set_freeinode (u32 (inum + 1))) ;;;
  winode inum (mkDinode (i16 (xshort type)) 0 0 (i16 (xshort 1)) (xint 0) (replicate 13 0)) ;;;
  ret inum.

(** [for(i = 0; i < used; i++) buf[i/8] = buf[i/8] | (0x1 << (i%8));] *)
Definition bitmap (used : Z) : list Z :=
  foldl (fun buf i => <[Z.to_nat (i / 8) := Z.lor (byte_of (Z.to_nat (i / 8)) buf) (Z.shiftl 1 (i mod 8))]> buf)
    zeroes (seqZ 0 used).

Definition balloc (used : Z) : Host unit :=
  assertion (used <? BSIZE * 8) ;;;
  wsect (sb_bmapstart mksb) (bitmap used).

(** [freeblock++] *)
Definition take_block : Host Z :=
  b <- gets freeblock ;;
  modify (set_freeblock (u32 (b + 1))) ;;;
  ret b.

Definition din_addr (din : dinode) (i : Z) : Z := nth (Z.to_nat i) (di_addrs din) 0.
Definition set_din_addr (i v : Z) (din : dinode) : dinode :=
  mkDinode (di_type din) (di_major din) (di_minor din) (di_nlink din) (di_size din) (<[Z.to_nat i := v]> (di_addrs din)).
Definition set_din_size (v : Z) (din : dinode) : dinode :=
  mkDinode (di_type din) (di_major din) (di_minor din) (di_nlink din) v (di_addrs din).

(** [if(xint(din.addrs[i]) == 0) din.addrs[i] = xint(freeblock++);] *)
Definition need_addr (i : Z) (din : dinode) : Host dinode :=
  if xint (din_addr din i) =? 0 then
    b <- take_block ;;
    ret (set_din_addr i (xint b) din)
  else ret din.

(** The entry of block [fbn] in the indirect block. *)
Definition entry_block (fbn : Z) (din : dinode) : Host Z :=
  let o := Z.to_nat (4 * (fbn - NDIRECT)) in
  indirect <- rsect (xint (din_addr din NDIRECT)) ;;
  indirect <- (if get32 o indirect =? 0 then
                 b <- take_block ;;
                 wsect (xint (din_addr din NDIRECT)) (put32 o (xint b) indirect) ;;;
                 ret (put32 o (xint b) indirect)
               else ret indirect) ;;
  ret (xint (get32 o indirect)).

(** The block [x] with block [fbn] of the file. *)
Definition file_block (fbn : Z) (din : dinode) : Host (dinode * Z) :=
  if fbn <? NDIRECT then
    din <- need_addr fbn din ;;
    ret (din, xint (din_addr din fbn))
  else
    din <- need_addr NDIRECT din ;;
    x <- entry_block fbn din ;;
    ret (din, x).

(** The loop of [iappend]; every round takes at least one byte of [p]. *)
Fixpoint iappend_loop (k : nat) (din : dinode) (off : Z) (p : list Z) : Host (dinode * Z) :=
  match p, k with
  | [], _ => ret (din, off)
  | _, O => fuel_out
  | _, S k =>
      let fbn := off / BSIZE in
      assertion (fbn <? MAXFILE) ;;;
      r <- file_block fbn din ;;
      let '(din, x) := r in
      let n1 := Z.min (Z.of_nat (length p)) (u32 ((fbn + 1) * BSIZE - off)) in
      buf <- rsect x ;;
      wsect x (splice (Z.to_nat (off - fbn * BSIZE)) (take (Z.to_nat n1) p) buf) ;;;
      iappend_loop k din (u32 (off + n1)) (drop (Z.to_nat n1) p)
  end.

Definition iappend (inum : Z) (xp : list Z) : Host unit :=
  din <- rinode inum ;;
  let off := xint (di_size din) in
  r <- iappend_loop (length xp) din off xp ;;
  let '(din, off) := r in
  winode inum (set_din_size (xint off) din).

(** The bytes of [struct dirent]. *)
Definition dirent (inum : Z) (name : list Z) : list Z := le_bytes 2 (xshort inum) ++ padded_name name.

(** [if(argv[i][0] == '_') ++argv[i];] *)
Definition skip_underscore (name : list Z) : list Z :=
  match name with c :: rest => if c =? 95 then rest else name | [] => [] end.

(** The body of the loop over the files. *)
Definition add_file (rootino : Z) (a : source) : Host unit :=
  assertion (negb (existsb (Z.eqb 47) (src_name a))) ;;;
  match src_reads a with
  | None => halt
  | Some reads =>
      let name := skip_underscore (src_name a) in
      inum <- ialloc T_FILE ;;
      iappend rootino (dirent inum name) ;;;
      for_each reads (iappend inum)
  end.

(** [memmove(buf, &sb, sizeof(sb))] into a block of zeroes. *)
Definition sb_block : list Z :=
  put32 0 (sb_size mksb) (put32 4 (sb_nblocks mksb) (put32 8 (sb_ninodes mksb) (put32 12 (sb_nlog mksb)
    (put32 16 (sb_logstart mksb) (put32 20 (sb_inodestart mksb) (put32 24 (sb_bmapstart mksb) zeroes)))))).

(** [din.size = xint(((off/BSIZE) + 1) * BSIZE)] *)
Definition round_size (off : Z) : Z := u32 ((off / BSIZE + 1) * BSIZE).

(** [argv1]: the image, if it is given, and whether it could be opened. *)
Definition main (argv1 : option bool) (files : list source) : Host unit :=
  match argv1 with
  | None => halt
  | Some opened =>
      assertion (BSIZE mod sizeof_dinode =? 0) ;;;
      assertion (BSIZE mod sizeof_dirent =? 0) ;;;
      if negb opened then halt else
      modify (set_freeblock nmeta) ;;;
      for_each (seqZ 0 FSSIZE) (fun i => wsect i zeroes) ;;;
      wsect 1 sb_block ;;;
      rootino <- ialloc T_DIR ;;
      assertion (rootino =? ROOTINO) ;;;
      iappend rootino (dirent rootino [46]) ;;;
      iappend rootino (dirent rootino [46; 46]) ;;;
      for_each files (add_file rootino) ;;;
      din <- rinode rootino ;;
      winode rootino (set_din_size (xint (round_size (xint (di_size din)))) din) ;;;
      b <- gets freeblock ;;
      balloc b
  end.

(** The state in which the program starts; the image is opened with [O_TRUNC]. *)
Definition mk_start : mk := mkMk [] 1 0.
