(* ===== verification/MkfsFacts.v ===== *)
(** * What mkfs puts on the disk

    The blocks [mkfs] hands out are those the kernel's allocator would: with a bitmap that
    marks the blocks below [freeblock], [freeblock] is the first free block.  So [iappend]
    does to the contents of the disk what [writei] does ([mapped], [written] and [stored]
    of the files on fs.c), and the image is one the kernel's theorems start from: it is
    [consistent], and every file in it has its bytes. *)

From stdpp Require Import base tactics list sets strings.
From Stdlib Require Import ZArith Lia.
From S2P Require Import Prelude Params StringC Spinlock ProcState Comp SysState Words Solo Bio Log Fs FsBlocks FsFile FsIo FsCall Mkfs.
Open Scope Z_scope.

(** ** Geometry *)

Lemma xint_u32 x : xint x = u32 x.
Proof.
  unfold xint, u32. rewrite !Z.shiftr_div_pow2 by lia. change (2 ^ 32) with (2 ^ (8 * Z.of_nat 4)).
  rewrite <- le_val_bytes. cbn [le_bytes]. rewrite !Z.div_div by lia. done.
Qed.

Lemma xint_id x : 0 <= x < 2 ^ 32 -> xint x = x.
Proof. intros. rewrite xint_u32. by apply u32_id. Qed.

Lemma mksb_eq : mksb = mkSb 2000 1941 200 30 2 32 58.
Proof. reflexivity. Qed.

(** A disk of the size of the image, for the lemmas that ask for one. *)
Definition blank : memdisk := mkMemdisk FSSIZE (replicate (Z.to_nat FSSIZE) zeroes) [].

Lemma mk_layout m : md_size m = FSSIZE -> sized m -> layout 2 30 mksb nmeta m.
Proof.
  intros Hs Hz. rewrite mksb_eq. change nmeta with 59. unfold FSSIZE in Hs. constructor; cbn; try lia.
  - unfold geo. rewrite Hs. split; [lia|]. split; [lia|]. split; [lia|done].
  - split; [lia|]. vm_compute. discriminate.
  - vm_compute. discriminate.
Qed.

Lemma blank_layout : layout 2 30 mksb nmeta blank.
Proof. by apply mk_layout. Qed.

Lemma bmap_block_58 b : 0 <= b < FSSIZE -> bmap_block mksb b = 58.
Proof. unfold FSSIZE. intros Hb. unfold bmap_block. rewrite Z.div_small by (unfold BPB, BSIZE; lia). reflexivity. Qed.

Lemma is_bmap_58 n : is_bmap mksb nmeta n <-> n = 58.
Proof. unfold is_bmap. change (sb_bmapstart mksb) with 58. change nmeta with 59. lia. Qed.

Lemma is_data_range n : is_data mksb nmeta n <-> 59 <= n < 2000.
Proof. unfold is_data. change (sb_size mksb) with 2000. change nmeta with 59. lia. Qed.

Lemma bind_assertion {B : Type} (b : bool) (k : unit -> M mk B) st : b = true -> bind (assertion b) k st = k tt st.
Proof. by intros ->. Qed.

(** ** The bitmap *)

Lemma bitmap_succ u : 0 <= u -> bitmap (u + 1) = set_bit u (bitmap u).
Proof. intros Hu. unfold bitmap. rewrite seqZ_app, foldl_app by lia. done. Qed.

Lemma length_bitmap u : 0 <= u -> length (bitmap u) = 512%nat.
Proof.
  revert u. apply natlike_ind; [done|]. intros u Hu IH. rewrite <- Z.add_1_r, bitmap_succ by done. by apply length_set_bit.
Qed.

Lemma bitmap_bit b u : 0 <= b < BPB -> 0 <= u -> u <= BPB -> bit_set b (bitmap u) = (b <? u).
Proof.
  intros Hb. revert u. apply (natlike_ind (fun u => u <= BPB -> bit_set b (bitmap u) = (b <? u))).
  - intros _. rewrite (proj2 (Z.ltb_ge _ _)) by lia. unfold bitmap, bit_set, byte_of. cbn [seqZ foldl]. change (seqZ 0 0) with (@nil Z).
    cbn [foldl]. unfold zeroes. rewrite nth_lookup. destruct (replicate _ 0 !! bit_byte b) eqn:E; [|done].
    by apply lookup_replicate in E as [-> _].
  - intros u Hu IH Hle. rewrite <- Z.add_1_r, bitmap_succ, bit_set_set, IH by (done || lia || by apply length_bitmap).
    destruct (Z.eqb_spec b u), (Z.ltb_spec b u), (Z.ltb_spec b (u + 1)); try lia; done.
Qed.

Lemma filter_all {A : Type} (P : A -> Prop) `{!forall a, Decision (P a)} (l : list A) : (forall a, a ∈ l -> P a) -> filter P l = l.
Proof.
  induction l as [|a l IH]; intros HP; [done|]. rewrite filter_cons_True by (apply HP; by left). by rewrite IH by set_solver.
Qed.

Lemma filter_none {A : Type} (P : A -> Prop) `{!forall a, Decision (P a)} (l : list A) : (forall a, a ∈ l -> ~ P a) -> filter P l = [].
Proof.
  induction l as [|a l IH]; intros HP; [done|]. rewrite filter_cons_False by (apply HP; by left). by rewrite IH by set_solver.
Qed.

(** ** Contents *)

Section Contents.
Implicit Types (st : mk) (f : Z -> list Z) (r : inode) (p : list Z).
Abbreviation used := (used mksb).
Abbreviation disk_wf := (disk_wf mksb nmeta blank).
Abbreviation file_ok := (file_ok mksb nmeta).
Abbreviation ext := (ext mksb nmeta blank).
Abbreviation mapped := (mapped mksb nmeta blank).
Abbreviation written := (written mksb nmeta blank).

(** The blocks before the inodes: boot block, super block, empty log. *)
Definition low_block (n : Z) : list Z := if n =? 1 then sb_block else zeroes.

(** The image has the contents [f], but for the bitmap, which is written last. *)
Record sim st f : Prop := {
  sm_low : forall n, 0 <= n < 32 -> f n = low_block n;
  sm_len : length (image st) = Z.to_nat FSSIZE;
  sm_block : forall n, 0 <= n < FSSIZE -> n <> 58 -> image st !! Z.to_nat n = Some (f n);
  sm_bitmap : f 58 = bitmap (freeblock st);
  sm_free : nmeta <= freeblock st <= FSSIZE;
  sm_zero : forall n, freeblock st <= n < FSSIZE -> f n = zeroes;
  sm_wf : disk_wf f
}.

Lemma sim_used st f b : sim st f -> 0 <= b < FSSIZE -> used f b = (b <? freeblock st).
Proof.
  intros Hs Hb. unfold used. rewrite bmap_block_58, (sm_bitmap _ _ Hs) by done. pose proof (sm_free _ _ Hs) as Hf.
  change nmeta with 59 in Hf. unfold FSSIZE in *. rewrite Z.mod_small by (unfold BPB, BSIZE; lia). apply bitmap_bit; unfold BPB, BSIZE; lia.
Qed.

Lemma sim_fresh st f : sim st f -> freeblock st < FSSIZE -> fresh mksb f (freeblock st).
Proof.
  intros Hs Hlt. pose proof (sm_free _ _ Hs) as Hf. change nmeta with 59 in Hf. split; [change (sb_size mksb) with FSSIZE; lia|]. split.
  - rewrite (sim_used st) by (done || lia). apply Z.ltb_irrefl.
  - intros k Hk. rewrite (sim_used st) by (done || lia). apply Z.ltb_lt. lia.
Qed.

Lemma sim_nfree st f : sim st f -> nfree mksb f = Z.to_nat (FSSIZE - freeblock st).
Proof.
  intros Hs. pose proof (sm_free _ _ Hs) as Hf. change nmeta with 59 in Hf. unfold nfree. change (sb_size mksb) with FSSIZE.
  replace FSSIZE with (freeblock st + (FSSIZE - freeblock st)) at 1 by lia. rewrite seqZ_app, filter_app, length_app by lia.
  rewrite filter_none, filter_all.
  - cbn [length]. rewrite length_seqZ. lia.
  - intros b Hb%elem_of_seqZ. rewrite (sim_used st) by (done || lia). apply Z.ltb_ge. lia.
  - intros b Hb%elem_of_seqZ. rewrite (sim_used st) by (done || lia). intros E%Z.ltb_ge. lia.
Qed.

Lemma run_rsect st f n : sim st f -> 0 <= n < FSSIZE -> n <> 58 -> rsect n st = Ret (f n) st.
Proof.
  intros Hs Hn Hne. unfold rsect. rewrite (proj2 (Z.ltb_ge _ _)) by lia. unfold bind, gets. simpl. by rewrite (sm_block _ _ Hs).
Qed.

(** The state after block [n] was written. *)
Definition put_sect (n : Z) (d : list Z) st : mk := set_image (<[Z.to_nat n := d]> (image st)) st.

Lemma run_wsect st n d : length (image st) = Z.to_nat FSSIZE -> 0 <= n < FSSIZE -> wsect n d st = Ret tt (put_sect n d st).
Proof.
  intros Hl Hn. unfold wsect, modify, put_sect, put_block. rewrite (proj2 (Z.ltb_ge _ _)) by lia.
  rewrite (proj2 (Nat.ltb_lt _ _)); [done|]. rewrite Hl. unfold FSSIZE in *. lia.
Qed.

Lemma sim_put st f n d : sim st f -> 32 <= n < freeblock st -> n <> 58 -> length d = 512%nat -> sim (put_sect n d st) (bset n d f).
Proof.
  intros Hs Hn Hne Hd. pose proof (sm_free _ _ Hs) as Hf. destruct Hs as [H0 H1 H2 H3 H4 H5 H6]. constructor.
  - intros k Hk. rewrite bset_ne by lia. by apply H0.
  - cbn [put_sect image set_image]. by rewrite length_insert.
  - intros k Hk Hk'. cbn [put_sect image set_image]. unfold bset. destruct (Z.eqb_spec k n) as [->|Hkn].
    + apply list_lookup_insert_eq. rewrite H1. unfold FSSIZE in *. lia.
    + rewrite list_lookup_insert_ne by (unfold FSSIZE in *; lia). by apply H2.
  - rewrite bset_ne; [done|congruence].
  - done.
  - intros k Hk. cbn [put_sect freeblock set_image] in Hk. rewrite bset_ne by lia. by apply H5.
  - apply (wf_bset _ _ _ _ _ blank_layout); [done|by rewrite is_bmap_58|done].
Qed.

Lemma run_take st f : sim st f -> freeblock st < FSSIZE ->
  take_block st = Ret (freeblock st) (set_freeblock (freeblock st + 1) st) /\
  sim (set_freeblock (freeblock st + 1) st) (alloc_block mksb (freeblock st) f).
Proof.
  intros Hs Hlt. pose proof (sm_free _ _ Hs) as Hf. change nmeta with 59 in Hf. pose proof (sim_fresh st f Hs Hlt) as Hfr. split.
  { unfold take_block, bind, gets, modify, ret. simpl. unfold FSSIZE in Hlt. by rewrite u32_id by lia. }
  destruct Hs as [H0 H1 H2 H3 H4 H5 H6].
  assert (forall n, n <> 58 -> n <> freeblock st -> alloc_block mksb (freeblock st) f n = f n) as Ho.
  { intros n Hn Hnb. apply (alloc_other _ _ _ nmeta _ blank_layout); [apply Hfr|by rewrite is_bmap_58|done]. }
  assert (alloc_block mksb (freeblock st) f (freeblock st) = zeroes) as Hz by (unfold alloc_block; by rewrite bset_eq).
  constructor; cbn [image freeblock set_freeblock].
  - intros n Hn. rewrite Ho by lia. by apply H0.
  - done.
  - intros n Hn Hne. destruct (decide (n = freeblock st)) as [->|Hnb]; [rewrite Hz, <- (H5 (freeblock st)) by lia|rewrite Ho by done]; by apply H2.
  - unfold alloc_block, mark. rewrite bset_ne, bmap_block_58, bset_eq, H3 by lia. rewrite Z.mod_small by (unfold BPB, BSIZE, FSSIZE in *; lia).
    rewrite bitmap_succ by lia. done.
  - change nmeta with 59. lia.
  - intros n Hn. rewrite Ho by lia. apply H5. lia.
  - by apply (alloc_wf _ _ _ _ _ blank_layout).
Qed.

(** *** The block of a file *)

Lemma iblk_range f r bn : file_ok f r -> 0 <= bn < MAXFILE -> iblk f r bn = 0 \/ 59 <= iblk f r bn < 2000.
Proof.
  intros Hok Hbn. destruct (decide (iblk f r bn = 0)) as [|Hne]; [by left|right].
  apply is_data_range. by apply (fo_own _ _ _ _ Hok), owned_blk.
Qed.

Lemma ind_range f r : file_ok f r -> addr r NDIRECT = 0 \/ 59 <= addr r NDIRECT < 2000.
Proof.
  intros Hok. destruct (decide (addr r NDIRECT = 0)) as [|Hne]; [by left|right].
  apply is_data_range. by apply (fo_own _ _ _ _ Hok), owned_ind.
Qed.

Lemma iblk_direct_eq f r bn : bn < NDIRECT -> iblk f r bn = addr r bn.
Proof. intros Hlt. unfold iblk. by rewrite (proj2 (Z.ltb_lt _ _)). Qed.

Lemma iblk_entry_eq f r bn : NDIRECT <= bn -> addr r NDIRECT <> 0 ->
  iblk f r bn = get32 (Z.to_nat (4 * (bn - NDIRECT))) (f (addr r NDIRECT)).
Proof. intros Hge Hne. unfold iblk. rewrite (proj2 (Z.ltb_ge _ _)) by done. by rewrite (proj2 (Z.eqb_neq _ _)). Qed.

(** The blocks that block [bn] of the file takes. *)
Definition room f r (bn : Z) : Z :=
  if iblk f r bn =? 0 then if (bn <? NDIRECT) || negb (addr r NDIRECT =? 0) then 1 else 2 else 0.

(** Block [bn] of the file is there; if it is new, it is zero. *)
Record placed st f r bn st' f' r' : Prop := {
  pl_sim : sim st' f';
  pl_map : mapped f r [] bn (iblk f' r' bn) f' r' [];
  pl_ne : iblk f' r' bn <> 0;
  pl_others : forall k, 0 <= k < MAXFILE -> k <> bn -> iblk f' r' k = iblk f r k;
  pl_ind : bn < NDIRECT -> addr r' NDIRECT = addr r NDIRECT;
  pl_zero : iblk f r bn = 0 -> f' (iblk f' r' bn) = zeroes;
  pl_inode : freeinode st' = freeinode st;
  pl_free : freeblock st' = freeblock st + room f r bn
}.

Lemma placed_present st f r bn : sim st f -> file_ok f r -> 0 <= bn < MAXFILE -> iblk f r bn <> 0 -> placed st f r bn st f r.
Proof.
  intros Hs Hok Hbn Hne. constructor; try done.
  - constructor; try done; [apply ext_refl|apply Hs|simpl; lia|lia].
  - unfold room. rewrite (proj2 (Z.eqb_neq _ _)) by done. lia.
Qed.

Lemma free_nonzero st f : sim st f -> freeblock st <> 0.
Proof. intros Hs. pose proof (sm_free _ _ Hs) as Hf. change nmeta with 59 in Hf. lia. Qed.

Lemma placed_direct st f r bn : sim st f -> file_ok f r -> 0 <= bn < NDIRECT -> addr r bn = 0 -> freeblock st < FSSIZE ->
  placed st f r bn (set_freeblock (freeblock st + 1) st) (alloc_block mksb (freeblock st) f) (set_addr bn (freeblock st) r).
Proof.
  intros Hs Hok Hbn H0 Hlt. destruct (run_take st f Hs Hlt) as [_ Hs']. pose proof (sim_fresh st f Hs Hlt) as Hfr.
  assert (bn < MAXFILE) as Hmax by (unfold MAXFILE, NDIRECT in *; change NINDIRECT with 128; lia).
  destruct (grow_direct _ _ _ _ _ blank_layout f r bn _ Hok (sm_wf _ _ Hs) Hbn H0 Hfr) as (G1 & G2 & G3).
  constructor; rewrite ?G3; try done.
  - constructor; try done; [apply Hs'|by apply (alloc_keeps _ _ _ _ _ blank_layout)|simpl; lia| |].
    + rewrite (nfree_alloc _ _ _ _ _ blank_layout f _ (sm_wf _ _ Hs) Hfr). lia.
    + by rewrite iblk_direct_eq, H0 by apply Hbn.
  - by apply (free_nonzero st f).
  - intros k Hk Hne. rewrite (iblk_direct _ _ _ _ _ blank_layout f r bn _ Hok Hbn Hfr k Hk). by rewrite (proj2 (Z.eqb_neq _ _)).
  - intros _. rewrite addr_set; [|apply Hok|unfold NDIRECT in *; lia|unfold NDIRECT; lia].
    by rewrite (proj2 (Z.eqb_neq _ _)) by (unfold NDIRECT in *; lia).
  - intros _. unfold alloc_block. by rewrite bset_eq.
  - unfold room. rewrite iblk_direct_eq, H0 by apply Hbn. cbn [Z.eqb]. by rewrite (proj2 (Z.ltb_lt _ _)) by apply Hbn.
Qed.

(** A new entry of the indirect block. *)
Lemma placed_entry st f r bn b : sim st f -> file_ok f r -> NDIRECT <= bn < MAXFILE -> addr r NDIRECT <> 0 -> iblk f r bn = 0 ->
  freeblock st = b -> b < FSSIZE ->
  placed st f r bn (put_sect (addr r NDIRECT) (put32 (Z.to_nat (4 * (bn - NDIRECT))) b (f (addr r NDIRECT))) (set_freeblock (b + 1) st))
    (add_entry (alloc_block mksb b f) r bn b) r.
Proof.
  intros Hs Hok Hbn Hne H0 Eb Hlt. subst b. destruct (run_take st f Hs Hlt) as [_ Hs']. pose proof (sim_fresh st f Hs Hlt) as Hfr.
  pose proof (sm_wf _ _ Hs) as Hwf. destruct (ind_range f r Hok) as [|Hir]; [done|].
  destruct (grow_entry _ _ _ _ _ blank_layout f r bn _ Hok Hwf Hbn Hne H0 Hfr) as (G1 & G2 & G3 & G4 & G5 & G6).
  pose proof (iblk_entry _ _ _ _ _ blank_layout f r bn _ Hok Hwf Hbn Hne Hfr) as Hblk.
  assert (used f (addr r NDIRECT) = true) as Hu by (by apply (fo_own _ _ _ _ Hok), owned_ind).
  rewrite (sim_used st) in Hu by (done || unfold FSSIZE; lia). apply Z.ltb_lt in Hu.
  constructor; rewrite ?G3; try done.
  - rewrite <- (alloc_ind _ _ _ _ _ blank_layout f r _ Hok Hfr Hne) at 1. apply sim_put; [done|cbn [freeblock set_freeblock]; lia|lia|].
    rewrite (alloc_ind _ _ _ _ _ blank_layout f r _ Hok Hfr Hne). pose proof (entry_off bn Hbn).
    rewrite length_putn; rewrite (wf_len _ _ _ _ Hwf) by (cbn; unfold FSSIZE; lia); lia.
  - constructor; try done; [simpl; lia|lia].
  - by apply (free_nonzero st f).
  - intros k Hk Hkn. rewrite Hblk by done. by rewrite (proj2 (Z.eqb_neq _ _)).
  - intros _. unfold add_entry. rewrite bset_ne by lia. unfold alloc_block. by rewrite bset_eq.
  - unfold room. rewrite H0. cbn [Z.eqb]. rewrite (proj2 (Z.ltb_ge _ _)), (proj2 (Z.eqb_neq _ _)) by (done || lia). done.
Qed.

(** The indirect block, and its first entry. *)
Lemma placed_indirect st f r bn st1 f1 r1 st2 f2 : sim st f -> file_ok f r -> NDIRECT <= bn < MAXFILE -> addr r NDIRECT = 0 ->
  freeblock st < FSSIZE -> st1 = set_freeblock (freeblock st + 1) st -> f1 = alloc_block mksb (freeblock st) f ->
  r1 = set_addr NDIRECT (freeblock st) r -> placed st1 f1 r1 bn st2 f2 r1 -> placed st f r bn st2 f2 r1.
Proof.
  intros Hs Hok Hbn H0 Hlt -> -> -> [P1 P2 P3 P4 P5 P6 P7 P8]. pose proof (sim_fresh st f Hs Hlt) as Hfr. pose proof (sm_wf _ _ Hs) as Hwf.
  destruct (grow_indirect _ _ _ _ _ blank_layout f r _ Hok Hwf H0 Hfr) as (G1 & G2 & G3 & G4). destruct (G4 bn Hbn) as [Z1 Z2].
  pose proof (iblk_indirect _ _ _ _ _ blank_layout f r _ Hok H0 (free_nonzero st f Hs)) as Hblk.
  destruct P2 as [M1 M2 M3 M4 M5 M6 M7 M8]. constructor; try done.
  - constructor; try done.
    + by eapply (ext_trans _ _ _ _ _ blank_layout).
    + intros k Hk Hkn. pose proof (alloc_keeps _ _ _ _ _ blank_layout f r _ Hok Hfr k Hk Hkn) as <-.
      rewrite <- (Hblk k Hk). apply M5; [done|]. by rewrite Hblk.
    + rewrite (sim_nfree st f Hs), (sim_nfree st2 f2 P1), P8. unfold room. rewrite Z1, G3. cbn [Z.eqb freeblock set_freeblock].
      rewrite (proj2 (Z.eqb_neq (freeblock st) 0)), orb_true_r by (by apply (free_nonzero st f)). lia.
  - intros k Hk Hkn. rewrite P4 by done. by apply Hblk.
  - lia.
  - intros _. by apply P6.
  - rewrite P8. unfold room. rewrite Z1, Z2, G3, H0. cbn [Z.eqb negb freeblock set_freeblock]. 
    rewrite (proj2 (Z.ltb_ge _ _)), (proj2 (Z.eqb_neq _ _)) by (lia || by apply (free_nonzero st f)). cbn [orb negb]. lia.
Qed.

Lemma need_present st r i : 0 < addr r i < 2 ^ 32 -> need_addr i (disk_fields r) st = Ret (disk_fields r) st.
Proof.
  intros Hi. unfold need_addr. change (din_addr (disk_fields r) i) with (addr r i). rewrite xint_id by lia.
  by rewrite (proj2 (Z.eqb_neq _ _)) by lia.
Qed.

Lemma need_new st f r i : sim st f -> freeblock st < FSSIZE -> addr r i = 0 ->
  need_addr i (disk_fields r) st = Ret (disk_fields (set_addr i (freeblock st) r)) (set_freeblock (freeblock st + 1) st).
Proof.
  intros Hs Hlt H0. pose proof (sm_free _ _ Hs) as Hf. change nmeta with 59 in Hf. unfold need_addr. change (din_addr (disk_fields r) i) with (addr r i).
  rewrite H0. change (xint 0 =? 0) with true. cbn [xint]. rewrite (bind_Ret _ _ _ _ _ (proj1 (run_take st f Hs Hlt))).
  unfold FSSIZE in Hlt. by rewrite xint_id by lia.
Qed.

Lemma entry_block_ok st f r bn : sim st f -> file_ok f r -> NDIRECT <= bn < MAXFILE -> addr r NDIRECT <> 0 ->
  freeblock st + room f r bn <= FSSIZE ->
  exists st' f', entry_block bn (disk_fields r) st = Ret (iblk f' r bn) st' /\ placed st f r bn st' f' r.
Proof.
  intros Hs Hok Hbn Hne Hroom. unfold entry_block. change (din_addr (disk_fields r) NDIRECT) with (addr r NDIRECT).
  destruct (ind_range f r Hok) as [|Hir]; [done|]. rewrite xint_id by lia. set (o := Z.to_nat (4 * (bn - NDIRECT))).
  rewrite (bind_Ret _ _ _ _ _ (run_rsect st f (addr r NDIRECT) Hs ltac:(unfold FSSIZE; lia) ltac:(lia))).
  pose proof (iblk_entry_eq f r bn ltac:(lia) Hne) as He. fold o in He. rewrite <- He.
  assert (0 <= bn < MAXFILE) as Hb by (change NDIRECT with 12 in Hbn; lia). pose proof (entry_off bn Hbn) as Ho. fold o in Ho.
  pose proof (sm_free _ _ Hs) as Hf. change nmeta with 59 in Hf. destruct (Z.eqb_spec (iblk f r bn) 0) as [H0|H0].
  - assert (freeblock st < FSSIZE) as Hfree.
    { unfold room in Hroom. rewrite H0, (proj2 (Z.eqb_neq (addr r NDIRECT) 0)), orb_true_r in Hroom by done. cbn in Hroom. lia. }
    pose proof (placed_entry st f r bn _ Hs Hok Hbn Hne H0 eq_refl Hfree) as HP. fold o in HP. eexists _, _. split; [|exact HP].
    destruct (run_take st f Hs Hfree) as [Ht Hs']. rewrite (bind_assoc _ _ _ _ _ _ Ht).
    rewrite xint_id by (unfold FSSIZE in *; lia). erewrite bind_assoc; [|apply run_wsect; [apply Hs|unfold FSSIZE; lia]].
    rewrite bind_ret. unfold ret. f_equal. rewrite (iblk_entry_eq _ r bn) by (done || lia). fold o. unfold add_entry. rewrite bset_eq. fold o.
    rewrite (alloc_ind _ _ _ _ _ blank_layout f r _ Hok (sim_fresh st f Hs Hfree) Hne).
    rewrite getn_putn_same by (rewrite (wf_len _ _ _ _ (sm_wf _ _ Hs)) by (cbn; unfold FSSIZE; lia); lia).
    change (2 ^ (8 * Z.of_nat 4)) with (2 ^ 32). unfold FSSIZE in Hfree. rewrite Z.mod_small by lia. apply xint_id. lia.
  - exists st, f. split; [|by apply placed_present]. rewrite bind_ret. unfold ret. rewrite <- He. f_equal.
    destruct (iblk_range f r bn Hok Hb); [done|]. apply xint_id. lia.
Qed.

Lemma file_block_ok st f r bn : sim st f -> file_ok f r -> 0 <= bn < MAXFILE -> freeblock st + room f r bn <= FSSIZE ->
  exists st' f' r', file_block bn (disk_fields r) st = Ret (disk_fields r', iblk f' r' bn) st' /\ placed st f r bn st' f' r'.
Proof.
  intros Hs Hok Hbn Hroom. unfold file_block. pose proof (iblk_range f r bn Hok Hbn) as Hr.
  destruct (Z.ltb_spec bn NDIRECT) as [Hlt|Hge].
  - rewrite iblk_direct_eq in Hr by done. destruct (decide (addr r bn = 0)) as [H0|H0].
    + assert (freeblock st < FSSIZE) as Hfree.
      { unfold room in Hroom. rewrite iblk_direct_eq, H0, (proj2 (Z.ltb_lt _ _)) in Hroom by done. cbn in Hroom. lia. }
      pose proof (placed_direct st f r bn Hs Hok ltac:(lia) H0 Hfree) as HP. eexists _, _, _. split; [|exact HP].
      rewrite (bind_Ret _ _ _ _ _ (need_new st f r bn Hs Hfree H0)). unfold ret. do 2 f_equal. rewrite iblk_direct_eq by done.
      apply xint_id. change (din_addr (disk_fields ?r) ?i) with (addr r i). pose proof (sm_free _ _ Hs) as Hf. change nmeta with 59 in Hf.
      rewrite addr_set, Z.eqb_refl; [unfold FSSIZE in *; lia|apply Hok|unfold NDIRECT in *; lia|lia].
    + exists st, f, r. split; [|by apply placed_present; [..|by rewrite iblk_direct_eq]].
      rewrite (bind_Ret _ _ _ _ _ (need_present st r bn ltac:(lia))). unfold ret. do 2 f_equal. rewrite iblk_direct_eq by done.
      apply xint_id. change (din_addr (disk_fields ?r) ?i) with (addr r i). lia.
  - destruct (decide (addr r NDIRECT = 0)) as [H0|H0].
    + assert (freeblock st + 2 <= FSSIZE) as Hfree.
      { unfold room, iblk in Hroom. rewrite H0, (proj2 (Z.ltb_ge _ _)) in Hroom by done. done. }
      pose proof (sim_fresh st f Hs ltac:(lia)) as Hfr. destruct (run_take st f Hs ltac:(lia)) as [_ Hs1].
      destruct (grow_indirect _ _ _ _ _ blank_layout f r _ Hok (sm_wf _ _ Hs) H0 Hfr) as (G1 & G2 & G3 & G4).
      destruct (entry_block_ok _ _ _ bn Hs1 G1 ltac:(lia)) as (st' & f' & He & HP).
      * rewrite G3. by apply (free_nonzero st f).
      * unfold room. rewrite G3, (proj2 (Z.eqb_neq (freeblock st) 0)), orb_true_r by (by apply (free_nonzero st f)). cbn [freeblock set_freeblock].
        destruct (_ =? 0); lia.
      * exists st', f', (set_addr NDIRECT (freeblock st) r). split; [|eapply placed_indirect; try done; lia].
        rewrite (bind_Ret _ _ _ _ _ (need_new st f r NDIRECT Hs ltac:(lia) H0)), (bind_Ret _ _ _ _ _ He). done.
    + destruct (ind_range f r Hok) as [|Hir]; [done|].
      destruct (entry_block_ok st f r bn Hs Hok ltac:(lia) H0 Hroom) as (st' & f' & He & HP). exists st', f', r. split; [|done].
      rewrite (bind_Ret _ _ _ _ _ (need_present st r NDIRECT ltac:(lia))), (bind_Ret _ _ _ _ _ He). done.
Qed.

(** *** Appending *)

(** The file has blocks for its first [off] bytes and no other ones, and zeroes after
    these bytes. *)
Record fits f r (off : Z) : Prop := {
  ft_blk : forall bn, 0 <= bn < MAXFILE -> off <= bn * BSIZE -> iblk f r bn = 0;
  ft_ind : off <= NDIRECT * BSIZE -> addr r NDIRECT = 0;
  ft_has : forall bn, 0 <= bn < MAXFILE -> bn * BSIZE < off -> iblk f r bn <> 0;
  ft_tail : forall j, off <= j < MAXFILE * BSIZE -> iblk f r (j / BSIZE) <> 0 -> fbyte f r j = 0
}.

(** How many blocks [off] bytes take. *)
Definition blocks_for (off : Z) : Z :=
  let b := (off + BSIZE - 1) / BSIZE in if NDIRECT <? b then b + 1 else b.

Lemma blocks_for_0 : blocks_for 0 = 0.
Proof. done. Qed.

Lemma blocks_for_mono a b : a <= b -> blocks_for a <= blocks_for b.
Proof.
  intros Hab. unfold blocks_for. assert ((a + BSIZE - 1) / BSIZE <= (b + BSIZE - 1) / BSIZE) by (apply Z.div_le_mono; [done|lia]).
  destruct (Z.ltb_spec NDIRECT ((a + BSIZE - 1) / BSIZE)), (Z.ltb_spec NDIRECT ((b + BSIZE - 1) / BSIZE)); lia.
Qed.

Lemma div_up x q : BSIZE * (q - 1) < x <= BSIZE * q -> (x + BSIZE - 1) / BSIZE = q.
Proof. intros Hx. symmetry. apply Z.div_unique with (r := x + BSIZE - 1 - BSIZE * q); [unfold BSIZE in *; lia|lia]. Qed.

(** A round that ends in block [bn] takes what the sizes say. *)
Lemma room_blocks f r off n : fits f r off -> 0 <= off -> 0 < n -> off mod BSIZE + n <= BSIZE -> off / BSIZE < MAXFILE ->
  room f r (off / BSIZE) = blocks_for (off + n) - blocks_for off.
Proof.
  intros Hft Ho Hn Hfit Hmax. pose proof (Z.div_mod off BSIZE ltac:(done)) as Hdm. pose proof (Z.mod_pos_bound off BSIZE ltac:(done)) as Hmod.
  assert (0 <= off / BSIZE) as Hq by (by apply Z.div_pos). set (q := off / BSIZE) in *. set (e := off mod BSIZE) in *.
  unfold blocks_for. rewrite (div_up (off + n) (q + 1)) by lia. unfold room. destruct (decide (e = 0)) as [E0|E0].
  - rewrite (div_up off q) by lia. rewrite (ft_blk _ _ _ Hft) by lia. cbn [Z.eqb].
    destruct (Z.ltb_spec q NDIRECT), (Z.ltb_spec NDIRECT (q + 1)), (Z.ltb_spec NDIRECT q); cbn [orb]; try lia.
    + rewrite (proj2 (Z.eqb_neq (addr r NDIRECT) 0)); [cbn; lia|].
      assert (iblk f r NDIRECT <> 0) as Hne by (apply (ft_has _ _ _ Hft); [unfold NDIRECT in *; lia|unfold BSIZE, NDIRECT in *; lia]).
      intros Ez. apply Hne. unfold iblk. rewrite Ez. done.
    + rewrite (ft_ind _ _ _ Hft) by (unfold BSIZE, NDIRECT in *; lia). cbn. lia.
  - rewrite (div_up off (q + 1)) by lia. rewrite (proj2 (Z.eqb_neq _ _)); [lia|]. apply (ft_has _ _ _ Hft); lia.
Qed.

Lemma nth_zeroes i : nth i zeroes 0 = 0.
Proof. unfold zeroes. rewrite nth_lookup. destruct (replicate _ 0 !! i) eqn:E; [|done]. by apply lookup_replicate in E as [-> _]. Qed.

Section Round.
Context st f r (off : Z) (data : list Z) st1 f1 r1 (Hok : file_ok f r) (Hft : fits f r off) (Hpl : placed st f r (off / BSIZE) st1 f1 r1).
Context (Ho : 0 <= off) (Hdl : (0 < length data)%nat) (Hfit : off mod BSIZE + Z.of_nat (length data) <= BSIZE) (Hmax : off / BSIZE < MAXFILE).
Abbreviation bn := (off / BSIZE).
Abbreviation a := (iblk f1 r1 bn).
Abbreviation f2 := (bset a (splice (Z.to_nat (off mod BSIZE)) data (f1 a)) f1).

Lemma round_bn : 0 <= bn < MAXFILE.
Proof using Ho Hmax. split; [by apply Z.div_pos|done]. Qed.

Lemma round_block : 59 <= a < 2000.
Proof using Hpl Ho Hmax.
  destruct (iblk_range f1 r1 bn (mp_ok _ _ _ _ _ _ _ _ _ _ _ (pl_map _ _ _ _ _ _ _ Hpl)) round_bn) as [E|]; [|done].
  by apply (pl_ne _ _ _ _ _ _ _ Hpl) in E.
Qed.

Lemma round_length : length (f1 a) = 512%nat.
Proof using Hpl Ho Hmax. clear Hdl Hfit. pose proof round_block. apply (wf_len _ _ _ _ (mp_wf _ _ _ _ _ _ _ _ _ _ _ (pl_map _ _ _ _ _ _ _ Hpl))). cbn. unfold FSSIZE. lia. Qed.

Lemma round_off : (Z.to_nat (off mod BSIZE) + length data <= 512)%nat.
Proof using Hfit. clear Hpl Hft Hok Hdl Hmax Ho. pose proof (Z.mod_pos_bound off BSIZE ltac:(done)). unfold BSIZE in *. lia. Qed.

Lemma round_iblk k : iblk f2 r1 k = iblk f1 r1 k.
Proof using Hpl Ho Hmax.
  apply (put_iblk mksb nmeta); [apply (pl_map _ _ _ _ _ _ _ Hpl)|exact round_bn|exact (pl_ne _ _ _ _ _ _ _ Hpl)].
Qed.

Lemma round_tail j : off + Z.of_nat (length data) <= j -> j / BSIZE = bn -> fbyte f2 r1 j = 0.
Proof using Hpl Hft Ho Hdl Hfit Hmax.
  intros Hj Hjb. unfold fbyte. rewrite round_iblk, Hjb, bset_eq. pose proof round_off as Hro. pose proof round_length as Hrl.
  pose proof (Z.div_mod j BSIZE ltac:(done)) as D1. pose proof (Z.div_mod off BSIZE ltac:(done)) as D2. rewrite Hjb in D1.
  pose proof (Z.mod_pos_bound j BSIZE ltac:(done)) as B1. pose proof (Z.mod_pos_bound off BSIZE ltac:(done)) as B2.
  rewrite nth_lookup, lookup_splice_out by (rewrite ?Hrl; lia). rewrite <- nth_lookup.
  destruct (decide (iblk f r bn = 0)) as [E|E]; [rewrite (pl_zero _ _ _ _ _ _ _ Hpl) by done; apply nth_zeroes|].
  destruct (mp_same _ _ _ _ _ _ _ _ _ _ _ (pl_map _ _ _ _ _ _ _ Hpl) E) as [-> ->]. rewrite <- Hjb. apply (ft_tail _ _ _ Hft); [|by rewrite Hjb].
  split; [lia|]. unfold BSIZE in *. lia.
Qed.

Lemma round_fits : fits f2 r1 (off + Z.of_nat (length data)).
Proof using Hpl Hft Ho Hdl Hfit Hmax.
  pose proof (Z.div_mod off BSIZE ltac:(done)) as D2. pose proof (Z.mod_pos_bound off BSIZE ltac:(done)) as B2. pose proof round_bn as Hbn.
  constructor.
  - intros k Hk Hle. rewrite round_iblk, (pl_others _ _ _ _ _ _ _ Hpl) by (done || unfold BSIZE in *; lia). apply (ft_blk _ _ _ Hft); [done|lia].
  - intros Hle. rewrite (pl_ind _ _ _ _ _ _ _ Hpl) by (unfold BSIZE in *; lia). apply (ft_ind _ _ _ Hft). lia.
  - intros k Hk Hlt. rewrite round_iblk. destruct (decide (k = bn)) as [->|Hne]; [exact (pl_ne _ _ _ _ _ _ _ Hpl)|].
    rewrite (pl_others _ _ _ _ _ _ _ Hpl) by done. apply (ft_has _ _ _ Hft); [done|unfold BSIZE in *; lia].
  - intros j Hj. rewrite round_iblk. destruct (decide (j / BSIZE = bn)) as [E|E]; [intros _; apply round_tail; [lia|done]|].
    pose proof (sector_range j ltac:(lia)) as Hjr. rewrite (pl_others _ _ _ _ _ _ _ Hpl) by done. intros Hne. exfalso. apply Hne.
    apply (ft_blk _ _ _ Hft); [done|]. pose proof (Z.div_mod j BSIZE ltac:(done)). pose proof (Z.mod_pos_bound j BSIZE ltac:(done)).
    unfold BSIZE in *. lia.
Qed.

Lemma round_sim : sim (put_sect a (splice (Z.to_nat (off mod BSIZE)) data (f1 a)) st1) f2.
Proof using Hpl Ho Hdl Hfit Hmax.
  pose proof round_block as Hb. pose proof round_length as Hl. pose proof round_off. pose proof (pl_sim _ _ _ _ _ _ _ Hpl) as Hs.
  assert (used f1 a = true) as Hu.
  { destruct (pl_map _ _ _ _ _ _ _ Hpl) as [M1 _ _ _ _ _ _ _]. apply (fo_own _ _ _ _ M1), owned_blk; [apply round_bn|exact (pl_ne _ _ _ _ _ _ _ Hpl)]. }
  rewrite (sim_used st1) in Hu by (done || unfold FSSIZE; lia). apply Z.ltb_lt in Hu.
  apply sim_put; [done|lia|lia|]. rewrite length_splice; lia.
Qed.

Lemma round_written : written f r off data f2 r1.
Proof using Hpl Hok Ho Hdl Hfit Hmax.
  apply (written_round _ _ _ _ _ blank_layout f r [] bn a f1 r1 []); try done; [exact (pl_map _ _ _ _ _ _ _ Hpl)|exact (pl_ne _ _ _ _ _ _ _ Hpl)|apply round_bn].
Qed.

End Round.

(** The bytes that fit into the block of [off]. *)
Definition first_part (off : Z) p : Z := Z.min (Z.of_nat (length p)) (BSIZE - off mod BSIZE).

Lemma first_part_range off p : p <> [] -> 0 < first_part off p <= Z.of_nat (length p) /\ off mod BSIZE + first_part off p <= BSIZE.
Proof.
  intros Hp. unfold first_part. pose proof (Z.mod_pos_bound off BSIZE ltac:(done)). destruct p; [done|]. cbn [length]. lia.
Qed.

(** One round. *)
Lemma iappend_round k p st f r off : p <> [] -> sim st f -> file_ok f r -> fits f r off -> 0 <= off -> off / BSIZE < MAXFILE ->
  let n1 := first_part off p in freeblock st + (blocks_for (off + n1) - blocks_for off) <= FSSIZE ->
  exists st' f' r', iappend_loop (S k) (disk_fields r) off p st = iappend_loop k (disk_fields r') (off + n1) (drop (Z.to_nat n1) p) st' /\
    sim st' f' /\ written f r off (take (Z.to_nat n1) p) f' r' /\ fits f' r' (off + n1) /\ freeinode st' = freeinode st /\
    freeblock st' = freeblock st + (blocks_for (off + n1) - blocks_for off).
Proof.
  intros Hp Hs Hok Hft Ho Hbn n1 Hroom. destruct (first_part_range off p Hp) as [Hn1 Hn2]. fold n1 in Hn1, Hn2.
  pose proof (Z.mod_pos_bound off BSIZE ltac:(done)) as Hmod. pose proof (Z.div_mod off BSIZE ltac:(done)) as Hdm.
  assert (0 <= off / BSIZE) as Hbn0 by (by apply Z.div_pos). change MAXFILE with 140 in Hbn. unfold BSIZE in Hmod, Hdm, Hn2.
  pose proof (room_blocks f r off n1 Hft Ho ltac:(lia) Hn2 Hbn) as Hrb.
  destruct (file_block_ok st f r (off / BSIZE) Hs Hok ltac:(change MAXFILE with 140; lia) ltac:(lia)) as (st1 & f1 & r1 & He & Hpl).
  pose proof (round_block _ _ _ _ _ _ _ Hpl Ho Hbn) as Hbr. pose proof (pl_sim _ _ _ _ _ _ _ Hpl) as Hs1.
  assert (length (take (Z.to_nat n1) p) = Z.to_nat n1) as Hl1 by (rewrite length_take; lia).
  assert (0 < length (take (Z.to_nat n1) p))%nat as Hd1 by lia.
  assert (off mod BSIZE + Z.of_nat (length (take (Z.to_nat n1) p)) <= BSIZE) as Hd2 by (rewrite Hl1, Z2Nat.id by lia; exact Hn2).
  pose proof (round_fits _ _ _ _ (take (Z.to_nat n1) p) _ _ _ Hft Hpl Ho Hd1 Hd2 Hbn) as Hft2. rewrite Hl1, Z2Nat.id in Hft2 by lia.
  eexists _, _, r1. split; [|split; [exact (round_sim _ _ _ _ _ _ _ _ Hpl Ho Hd1 Hd2 Hbn)|
    split; [exact (round_written _ _ _ _ _ _ _ _ Hok Hpl Ho Hd1 Hd2 Hbn)|split; [exact Hft2|split; [exact (pl_inode _ _ _ _ _ _ _ Hpl)|]]]]].
  2:{ etrans; [apply (pl_free _ _ _ _ _ _ _ Hpl)|lia]. }
  destruct p as [|c p]; [done|]. cbn [iappend_loop]. rewrite bind_assertion by (apply Z.ltb_lt; change MAXFILE with 140; lia).
  rewrite (bind_Ret _ _ _ _ _ He). cbv beta iota.
  erewrite bind_Ret; [|apply (run_rsect st1 f1); [done|unfold FSSIZE; lia|lia]].
  erewrite bind_Ret; [|apply run_wsect; [apply Hs1|unfold FSSIZE; lia]].
  replace (Z.min (Z.of_nat (length (c :: p))) (u32 ((off / BSIZE + 1) * BSIZE - off))) with n1.
  2:{ unfold n1, first_part. rewrite u32_id; unfold BSIZE in *; lia. }
  replace (off - off / BSIZE * BSIZE) with (off mod BSIZE) by (unfold BSIZE; lia). rewrite (u32_id (off + n1)); [done|]. unfold BSIZE in *. lia.
Qed.

(** The loop of [iappend] does what that of [writei] does. *)
Lemma iappend_loop_ok : forall k p st f r off, (length p <= k)%nat -> sim st f -> file_ok f r -> fits f r off -> 0 <= off ->
  off + Z.of_nat (length p) <= MAXFILE * BSIZE -> freeblock st + (blocks_for (off + Z.of_nat (length p)) - blocks_for off) <= FSSIZE ->
  exists st' f' r', iappend_loop k (disk_fields r) off p st = Ret (disk_fields r', off + Z.of_nat (length p)) st' /\
    sim st' f' /\ written f r off p f' r' /\ fits f' r' (off + Z.of_nat (length p)) /\ freeinode st' = freeinode st /\
    freeblock st' = freeblock st + (blocks_for (off + Z.of_nat (length p)) - blocks_for off).
Proof.
  induction k as [|k IH]; intros p st f r off Hk Hs Hok Hft Ho Hmax Hroom.
  all: destruct (decide (p = [])) as [->|Hp]; [exists st, f, r; cbn [length Z.of_nat]; rewrite Z.add_0_r, Z.sub_diag, Z.add_0_r; split; [done|];
    split; [done|]; split; [apply written_nil; [done|apply Hs]|done]|].
  { destruct p; [done|simpl in Hk; lia]. }
  change (MAXFILE * BSIZE) with 71680 in Hmax. destruct (first_part_range off p Hp) as [Hn1 _].
  assert (off / BSIZE < MAXFILE) as Hbn by (apply Z.div_lt_upper_bound; [done|change (BSIZE * MAXFILE) with 71680; lia]).
  pose proof (blocks_for_mono (off + first_part off p) (off + Z.of_nat (length p)) ltac:(lia)) as Hmono.
  destruct (iappend_round k p st f r off Hp Hs Hok Hft Ho Hbn) as (st1 & f1 & r1 & -> & Hs1 & Hw1 & Hft1 & Hi1 & Hb1); [lia|].
  set (n1 := first_part off p) in *. assert (Z.of_nat (length (drop (Z.to_nat n1) p)) = Z.of_nat (length p) - n1) as Hl by (rewrite length_drop; lia).
  destruct (IH (drop (Z.to_nat n1) p) st1 f1 r1 (off + n1)) as (st2 & f2 & r2 & He & Hs2 & Hw2 & Hft2 & Hi2 & Hb2);
    [lia|done|apply Hw1|done|lia|change (MAXFILE * BSIZE) with 71680; lia|rewrite Hl, Hb1; replace (off + n1 + _) with (off + Z.of_nat (length p)) by lia; lia|].
  rewrite Hl in He, Hft2, Hb2. replace (off + n1 + _) with (off + Z.of_nat (length p)) in He, Hft2, Hb2 by lia.
  exists st2, f2, r2. split; [exact He|]. split; [done|]. split; [|split; [done|split; [congruence|lia]]].
  rewrite <- (take_drop (Z.to_nat n1) p). apply (written_app _ _ _ _ _ blank_layout f r f1 r1); [lia| |done|].
  - rewrite take_drop. change (MAXFILE * BSIZE) with 71680. lia.
  - rewrite length_take, Nat.min_l, Z2Nat.id by lia. done.
Qed.

(** *** Inodes *)

Lemma iblock_low i : 0 <= i < NINODES -> 32 <= iblock mksb i < 58.
Proof. intros Hi. pose proof (iblock_range _ _ _ _ _ blank_layout i Hi). done. Qed.

Lemma run_rinode st f inum : sim st f -> 0 <= inum < NINODES -> rinode inum st = Ret (disk_inode mksb f inum) st.
Proof.
  intros Hs Hi. unfold rinode. cbv zeta. rewrite (IBLOCK_eq _ _ _ _ _ blank_layout) by done. pose proof (iblock_low inum Hi).
  erewrite bind_Ret; [|apply (run_rsect st f); [done|unfold FSSIZE; lia|lia]]. done.
Qed.

(** The contents with inode [inum] written. *)
Definition set_inode f (inum : Z) (di : dinode) : Z -> list Z :=
  bset (iblock mksb inum) (put_dinode (dinode_off inum) di (f (iblock mksb inum))) f.

Lemma run_winode st f inum di : sim st f -> 0 <= inum < NINODES -> length (di_addrs di) = 13%nat ->
  exists st', winode inum di st = Ret tt st' /\ sim st' (set_inode f inum di) /\ freeinode st' = freeinode st /\ freeblock st' = freeblock st.
Proof.
  intros Hs Hi Hd. unfold winode. cbv zeta. rewrite (IBLOCK_eq _ _ _ _ _ blank_layout) by done. pose proof (iblock_low inum Hi).
  erewrite bind_Ret; [|apply (run_rsect st f); [done|unfold FSSIZE; lia|lia]]. eexists. split; [apply run_wsect; [apply Hs|unfold FSSIZE; lia]|].
  split; [|done]. pose proof (sm_free _ _ Hs) as Hf. change nmeta with 59 in Hf. apply sim_put; [done|lia|lia|].
  pose proof (dinode_off_range inum). assert (length (f (iblock mksb inum)) = 512%nat) as Hl by (apply (wf_len _ _ _ _ (sm_wf _ _ Hs)); cbn; unfold FSSIZE; lia).
  rewrite length_put_dinode; lia.
Qed.

(** A file depends on the blocks it owns, and on their being in use. *)
Section Other.
Context f f' r (Hok : file_ok f r) (Hsame : forall n, owned f r n -> f' n = f n).

Lemma other_iblk k : iblk f' r k = iblk f r k.
Proof using Hsame.
  unfold iblk. destruct (k <? NDIRECT); [done|]. destruct (Z.eqb_spec (addr r NDIRECT) 0); [done|]. by rewrite Hsame by (by apply owned_ind).
Qed.

Lemma other_owned n : owned f' r n <-> owned f r n.
Proof using Hsame. unfold owned. by setoid_rewrite other_iblk. Qed.

Lemma other_ok : (forall n, 0 <= n < FSSIZE -> used f n = true -> used f' n = true) -> file_ok f' r.
Proof using Hok Hsame.
  intros Hused. destruct (Hok) as [H1 H2 H3 H4 H5 H6 H7 H8]. constructor; try done; setoid_rewrite other_iblk || setoid_rewrite other_owned; try done.
  intros n Hn. destruct (H4 n Hn) as [Hd Hu]. split; [done|]. apply Hused; [|done]. rewrite is_data_range in Hd. unfold FSSIZE. lia.
Qed.

Lemma other_byte j : 0 <= j < MAXFILE * BSIZE -> iblk f r (j / BSIZE) <> 0 -> fbyte f' r j = fbyte f r j.
Proof using Hsame. intros Hj Hne. unfold fbyte. rewrite other_iblk, Hsame; [done|]. apply owned_blk; [by apply sector_range|done]. Qed.

Lemma other_fits size : 0 <= size -> fits f r size -> fits f' r size.
Proof using Hsame.
  intros Hsz [F1 F2 F3 F4]. constructor; [by setoid_rewrite other_iblk|done|by setoid_rewrite other_iblk|].
  intros j Hj. rewrite other_iblk. intros Hne. rewrite other_byte by (done || lia). by apply F4.
Qed.

Lemma other_bytes n : 0 <= n <= i_size r -> fbytes f' r 0 n = fbytes f r 0 n.
Proof using Hok Hsame.
  intros Hn. unfold fbytes. apply map_ext_in. intros j Hj%list_elem_of_In%elem_of_seqZ. pose proof (fo_size _ _ _ _ Hok).
  rewrite Z.add_0_l. apply other_byte; [lia|]. apply (fo_alloc _ _ _ _ Hok); [apply Z.div_pos; [lia|done]|].
  pose proof (Z.mul_div_le j BSIZE ltac:(done)). lia.
Qed.

End Other.

Lemma iappend_ok st f r p : sim st f -> file_ok f r -> fits f r (i_size r) -> shorts r -> disk_inode mksb f (i_inum r) = disk_fields r ->
  p <> [] -> i_size r + Z.of_nat (length p) <= MAXFILE * BSIZE ->
  freeblock st + (blocks_for (i_size r + Z.of_nat (length p)) - blocks_for (i_size r)) <= FSSIZE ->
  exists st' f' r', iappend (i_inum r) p st = Ret tt st' /\ sim st' f' /\ stored 2 30 mksb nmeta blank f r (i_size r) p f' r' /\
    fits f' r' (i_size r + Z.of_nat (length p)) /\ freeinode st' = freeinode st /\
    freeblock st' = freeblock st + (blocks_for (i_size r + Z.of_nat (length p)) - blocks_for (i_size r)).
Proof.
  intros Hs Hok Hft Hsh Hdi Hp Hmax Hroom. pose proof (fo_size _ _ _ _ Hok) as Hsz. pose proof (fo_inum _ _ _ _ Hok) as Hi.
  assert (0 < Z.of_nat (length p)) as Hlp by (destruct p; [done|simpl; lia]).
  unfold iappend. rewrite (bind_Ret _ _ _ _ _ (run_rinode st f _ Hs Hi)), Hdi. cbv zeta. change (di_size (disk_fields r)) with (i_size r).
  change (MAXFILE * BSIZE) with 71680 in Hsz. rewrite xint_id by lia.
  destruct (iappend_loop_ok (length p) p st f r (i_size r)) as (st1 & f1 & r1 & He & Hs1 & Hw & Hft1 & Hi1 & Hb1); try done; [lia|].
  rewrite (bind_Ret _ _ _ _ _ He). cbv beta iota. set (size := i_size r + Z.of_nat (length p)) in *. change (MAXFILE * BSIZE) with 71680 in Hmax.
  rewrite xint_id by lia. set (r2 := set_i_size size r1).
  change (set_din_size size (disk_fields r1)) with (disk_fields r2).
  pose proof (ex_inode _ _ _ _ _ _ _ (wr_ext _ _ _ _ _ _ _ _ _ Hw)) as Hin. assert (i_inum r2 = i_inum r) as Hi2 by (unfold r2; by rewrite Hin).
  assert (file_ok f1 r2) as Hok2.
  { apply (grow_size mksb nmeta blank f r (i_size r) p f1 r1); try done; [lia|]. change (MAXFILE * BSIZE) with 71680. lia. }
  rewrite <- Hi2. destruct (run_winode st1 f1 (i_inum r2) (disk_fields r2)) as (st2 & He2 & Hs2 & Hi3 & Hb3); [done|by rewrite Hi2|apply Hok2|].
  exists st2, (save_inode mksb f1 r2), r2. split; [exact He2|]. split; [exact Hs2|]. split.
  { apply (stored_grown _ _ _ _ _ blank_layout f r (i_size r) p f1 r1); try done; [lia|]. change (MAXFILE * BSIZE) with 71680. lia. }
  split; [|split; congruence]. apply (other_fits f1); [|lia|].
  - intros n Hn. apply saved_block. destruct (fo_own _ _ _ _ Hok2 n Hn) as [Hd _]. rewrite is_data_range in Hd.
    pose proof (iblock_low (i_inum r2) ltac:(by rewrite Hi2)). lia.
  - destruct Hft1 as [F1 F2 F3 F4]. by constructor.
Qed.

(** ** The files of an image *)

Definition mk_inode (i ty size : Z) (addrs : list Z) : inode := mkInode 1 i 0 zero_sl 0 ty 0 0 1 size addrs.

(** Inode [i] is [r], of type [t.1] and with the bytes [t.2]. *)
Record file_has f (i : Z) r (t : Z * list Z) : Prop := {
  fh_inode : r = mk_inode i t.1 (Z.of_nat (length t.2)) (i_addrs r);
  fh_ok : file_ok f r;
  fh_fits : fits f r (i_size r);
  fh_disk : disk_inode mksb f i = disk_fields r;
  fh_bytes : fbytes f r 0 (i_size r) = t.2
}.

Definition space (T : list (Z * list Z)) : Z := foldr (fun t n => blocks_for (Z.of_nat (length t.2)) + n) 0 T.

(** The image has the files [T], from inode 1 on, and nothing else. *)
Record built st f (R : list inode) (T : list (Z * list Z)) : Prop := {
  bt_sim : sim st f;
  bt_len : length R = length T;
  bt_next : freeinode st = 1 + Z.of_nat (length T);
  bt_max : 1 + Z.of_nat (length T) <= NINODES;
  bt_files : forall i r t, R !! i = Some r -> T !! i = Some t -> file_has f (1 + Z.of_nat i) r t;
  bt_apart : forall i j ri rj n, R !! i = Some ri -> R !! j = Some rj -> i <> j -> owned f ri n -> ~ owned f rj n;
  bt_space : freeblock st = nmeta + space T
}.

Lemma space_app T U : space (T ++ U) = space T + space U.
Proof. unfold space. induction T as [|t T IH]; cbn [app foldr]; [lia|]. rewrite IH. lia. Qed.

Lemma space_insert T i t u : T !! i = Some t ->
  space (<[i := u]> T) = space T + (blocks_for (Z.of_nat (length u.2)) - blocks_for (Z.of_nat (length t.2))).
Proof.
  revert i. induction T as [|v T IH]; intros [|i] Hi; try done.
  - injection Hi as ->. cbn. lia.
  - change (blocks_for (Z.of_nat (length v.2)) + space (<[i := u]> T) = blocks_for (Z.of_nat (length v.2)) + space T +
      (blocks_for (Z.of_nat (length u.2)) - blocks_for (Z.of_nat (length t.2)))). rewrite (IH i Hi). lia.
Qed.

Lemma blocks_for_pos n : 0 <= n -> 0 <= blocks_for n.
Proof. intros Hn. rewrite <- blocks_for_0. by apply blocks_for_mono. Qed.

Lemma space_pos T : 0 <= space T.
Proof. induction T as [|t T IH]; [done|]. cbn [space foldr]. change (foldr _ 0 T) with (space T). pose proof (blocks_for_pos (Z.of_nat (length t.2))). lia. Qed.

(** The other files keep what they have when the blocks they own keep their contents. *)
Lemma file_has_same f f' i r t : file_has f i r t -> (forall n, owned f r n -> f' n = f n) ->
  (forall n, 0 <= n < FSSIZE -> used f n = true -> used f' n = true) -> disk_inode mksb f' i = disk_inode mksb f i -> file_has f' i r t.
Proof.
  intros [H1 H2 H3 H4 H5] Hsame Hused Hd. pose proof (fo_size _ _ _ _ H2). constructor; [done|by eapply other_ok|apply (other_fits f); [done|lia|done]|congruence|].
  rewrite (other_bytes f) by (done || lia). done.
Qed.

Lemma mk_shorts i ty size addrs : short ty -> shorts (mk_inode i ty size addrs).
Proof. intros. split; [done|]. unfold short; simpl. lia. Qed.

(** A write to file [i] that the kernel's [stored] describes. *)
Section Stored.
Context st f R T (Hb : built st f R T) (i : nat) (ty : Z) (c p : list Z) r (Ht : T !! i = Some (ty, c)) (Hr : R !! i = Some r) (Hp : p <> []).
Context st' f' r' (Hst : stored 2 30 mksb nmeta blank f r (i_size r) p f' r').

Lemma stored_keeps j rj n : j <> i -> R !! j = Some rj -> owned f rj n -> f' n = f n.
Proof using Hb Ht Hr Hst.
  intros Hj Hrj Ho. pose proof (lookup_lt_Some _ _ _ Hrj) as Hlt. rewrite (bt_len _ _ _ _ Hb) in Hlt. destruct (lookup_lt_is_Some_2 T j Hlt) as [tj Htj].
  pose proof (fh_ok _ _ _ _ (bt_files _ _ _ _ Hb j rj tj Hrj Htj)) as Hok. destruct (fo_own _ _ _ _ Hok n Ho) as [Hd Hu].
  pose proof (fo_inum _ _ _ _ (fh_ok _ _ _ _ (bt_files _ _ _ _ Hb i r _ Hr Ht))) as Hi.
  destruct (iblock_other _ _ _ _ _ blank_layout _ Hi) as [_ Hnd].
  apply (st_other _ _ _ _ _ _ _ _ _ _ _ Hst); [by apply (home_data _ _ _ _ _ blank_layout)|by apply not_data_bmap| | |done].
  - by intros ->.
  - intros Ho'. by apply (bt_apart _ _ _ _ Hb i j r rj n).
Qed.

Lemma stored_file : fits f' r' (i_size r + Z.of_nat (length p)) -> file_has f' (1 + Z.of_nat i) r' (ty, c ++ p).
Proof using Hb Ht Hr Hp Hst.
  intros Hft. destruct (bt_files _ _ _ _ Hb i r _ Hr Ht) as [F1 F2 F3 F4 F5]. cbn [fst snd] in *. destruct Hst as [S1 S2 S3 S4 S5 S6 S7 S8 S9 S10].
  assert (i_size r = Z.of_nat (length c)) as Hsz by (by rewrite F1). assert (i_inum r = 1 + Z.of_nat i) as Hin by (by rewrite F1).
  rewrite Z.max_r in S3 by lia. assert (i_size r' = i_size r + Z.of_nat (length p)) as Hsz' by (by rewrite S3).
  constructor; cbn [fst snd].
  - rewrite length_app, Nat2Z.inj_add, <- Hsz. rewrite S3 at 1. rewrite F1 at 2. done.
  - done.
  - by rewrite Hsz'.
  - rewrite <- Hin. apply S6. by rewrite Hin.
  - rewrite Hsz', fbytes_app by lia. rewrite Z.add_0_l, S4. f_equal. etrans; [|exact F5]. unfold fbytes. apply map_ext_in.
    intros k Hk%list_elem_of_In%elem_of_seqZ. rewrite Z.add_0_l. apply S5; lia.
Qed.

Lemma built_stored : sim st' f' -> fits f' r' (i_size r + Z.of_nat (length p)) -> freeinode st' = freeinode st ->
  freeblock st' = nmeta + space (<[i := (ty, c ++ p)]> T) -> built st' f' (<[i := r']> R) (<[i := (ty, c ++ p)]> T).
Proof using Hb Ht Hr Hp Hst.
  intros Hs' Hft Hi' Hb'. destruct (Hb) as [B1 B2 B3 B4 B5 B6 B7]. pose proof (lookup_lt_Some _ _ _ Ht) as Hlt.
  constructor; rewrite ?length_insert; try done; [congruence| |].
  - intros j rj tj. destruct (decide (j = i)) as [->|Hj].
    + rewrite !list_lookup_insert_eq by lia. intros [= <-] [= <-]. by apply stored_file.
    + rewrite !list_lookup_insert_ne by done. intros Hrj Htj. pose proof (B5 j rj tj Hrj Htj) as Hf.
      apply (file_has_same f); [done|intros n; by apply (stored_keeps j)|apply Hst|].
      assert (i_inum r = 1 + Z.of_nat i) as Hin by (by rewrite (fh_inode _ _ _ _ (B5 i r _ Hr Ht))).
      pose proof (lookup_lt_Some _ _ _ Htj). apply (st_inodes _ _ _ _ _ _ _ _ _ _ _ Hst); [|lia]. change (sb_ninodes mksb) with NINODES. lia.
  - assert (forall j rj n, j <> i -> R !! j = Some rj -> owned f' r' n -> owned f' rj n -> False) as Hx.
    { intros j rj n Hj Hrj Ho Hoj. rewrite (other_owned f) in Hoj by (intros k; by apply (stored_keeps j)).
      destruct (lookup_lt_is_Some_2 T j) as [tj Htj]; [apply lookup_lt_Some in Hrj; lia|].
      destruct (st_own _ _ _ _ _ _ _ _ _ _ _ Hst n Ho) as [Ho'|Hu]; [by apply (B6 i j r rj n)|].
      destruct (fo_own _ _ _ _ (fh_ok _ _ _ _ (B5 j rj tj Hrj Htj)) n Hoj) as [_ Hu']. congruence. }
    intros a b ra rb n Ha Hb2 Hab Hoa Hob. destruct (decide (a = i)) as [->|Hai], (decide (b = i)) as [->|Hbi]; [done| | |].
    + rewrite list_lookup_insert_eq in Ha by lia. rewrite list_lookup_insert_ne in Hb2 by done. injection Ha as <-. by apply (Hx b rb n).
    + rewrite list_lookup_insert_eq in Hb2 by lia. rewrite list_lookup_insert_ne in Ha by done. injection Hb2 as <-. by apply (Hx a ra n).
    + rewrite !list_lookup_insert_ne in Ha, Hb2 by done. rewrite (other_owned f) in Hoa by (intros k; by apply (stored_keeps a)).
      rewrite (other_owned f) in Hob by (intros k; by apply (stored_keeps b)). by apply (B6 a b ra rb n).
Qed.

End Stored.

(** [iappend] appends. *)
Lemma append_ok st f R T i ty c p : built st f R T -> T !! i = Some (ty, c) -> short ty -> p <> [] ->
  Z.of_nat (length (c ++ p)) <= MAXFILE * BSIZE -> space (<[i := (ty, c ++ p)]> T) <= nblocks ->
  exists st' f' R', iappend (1 + Z.of_nat i) p st = Ret tt st' /\ built st' f' R' (<[i := (ty, c ++ p)]> T).
Proof.
  intros Hb Ht Hty Hp Hmax Hroom. pose proof (lookup_lt_Some _ _ _ Ht) as Hil. pose proof (bt_len _ _ _ _ Hb) as Hlen.
  destruct (lookup_lt_is_Some_2 R i) as [r Hr]; [lia|]. destruct (bt_files _ _ _ _ Hb i r _ Hr Ht) as [F1 F2 F3 F4 F5]. cbn [fst snd] in *.
  rewrite (space_insert _ _ _ _ Ht) in Hroom. cbn [snd] in Hroom. rewrite length_app, Nat2Z.inj_add in Hmax, Hroom.
  assert (i_size r = Z.of_nat (length c)) as Hsz by (by rewrite F1). assert (i_inum r = 1 + Z.of_nat i) as Hinum by (by rewrite F1).
  rewrite <- Hinum, <- Hsz in *. pose proof (bt_space _ _ _ _ Hb) as Hsp. unfold nblocks in Hroom.
  destruct (iappend_ok st f r p (bt_sim _ _ _ _ Hb) F2 F3) as (st' & f' & r' & He & Hs' & Hst & Hft & Hi' & Hb'); try done; [rewrite F1; by apply mk_shorts|lia|].
  exists st', f', (<[i := r']> R). split; [exact He|]. apply (built_stored st f R T Hb i ty c p r Ht Hr Hp st' f' r' Hst); try done.
  rewrite Hb', (space_insert _ _ _ _ Ht). cbn [snd]. rewrite length_app, Nat2Z.inj_add, <- Hsz. lia.
Qed.

(** *** New files *)

Section New.
Context f (i ty : Z) (Hi : 0 <= i < NINODES).
Abbreviation r0 := (mk_inode i ty 0 (replicate 13 0)).

Lemma new_addr k : addr r0 k = 0.
Proof. unfold addr. cbn [i_addrs mk_inode]. rewrite nth_lookup. destruct (replicate 13 0 !! Z.to_nat k) eqn:E; [|done]. by apply lookup_replicate in E as [-> _]. Qed.

Lemma new_iblk bn : iblk f r0 bn = 0.
Proof. unfold iblk. rewrite !new_addr. by destruct (bn <? NDIRECT). Qed.

Lemma new_owned n : ~ owned f r0 n.
Proof. intros [Hn [E|(bn & _ & E)]]; [by rewrite new_addr in E|by rewrite new_iblk in E]. Qed.

Lemma new_file_ok : file_ok f r0.
Proof using Hi.
  constructor; try done.
  - intros n Hn. by apply new_owned in Hn.
  - intros bn k _ _ _ Hne. by rewrite new_iblk in Hne.
  - intros bn Hb Hlt. cbn [i_size mk_inode] in Hlt. unfold BSIZE in Hlt. lia.
Qed.

Lemma new_fits : fits f r0 0.
Proof.
  constructor; [intros; apply new_iblk|intros; apply new_addr|intros; unfold BSIZE in *; lia|]. intros j _ Hne. by rewrite new_iblk in Hne.
Qed.

End New.

Section Alloc.
Context st f R T (Hb : built st f R T) (ty : Z) (Hty : short ty) (Hmax : 1 + Z.of_nat (length T) < NINODES).
Abbreviation inum := (1 + Z.of_nat (length T)).
Abbreviation r0 := (mk_inode inum ty 0 (replicate 13 0)).
Abbreviation f' := (save_inode mksb f r0).

Lemma alloc_inum : 0 <= inum < NINODES.
Proof using Hmax. clear Hb Hty. lia. Qed.

Lemma alloc_fields : dinode_ok (disk_fields r0).
Proof using Hb Hty Hmax. apply (fields_ok _ _ _ _ _ blank_layout f); [apply new_file_ok, alloc_inum|by apply mk_shorts]. Qed.

Lemma alloc_keeps_data n : is_data mksb nmeta n \/ is_bmap mksb nmeta n -> f' n = f n.
Proof using Hmax.
  intros Hn. apply saved_block. pose proof (iblock_low inum alloc_inum). rewrite is_data_range, is_bmap_58 in Hn. cbn [i_inum mk_inode]. lia.
Qed.

Lemma built_alloc st' : sim st' f' -> freeinode st' = 1 + inum -> freeblock st' = freeblock st ->
  built st' f' (R ++ [r0]) (T ++ [(ty, [])]).
Proof using Hb Hty Hmax.
  intros Hs' Hi' Hb'. destruct (Hb) as [B1 B2 B3 B4 B5 B6 B7]. pose proof (sm_wf _ _ B1) as Hwf. pose proof alloc_inum as Hin. pose proof alloc_fields as Hdi.
  assert (forall j rj, R !! j = Some rj -> file_ok f rj) as Hok.
  { intros j rj Hrj. destruct (lookup_lt_is_Some_2 T j) as [tj Htj]; [apply lookup_lt_Some in Hrj; lia|]. by apply (B5 j rj tj). }
  assert (forall j rj n, R !! j = Some rj -> owned f rj n -> f' n = f n) as Hsame.
  { intros j rj n Hrj Ho. apply alloc_keeps_data. left. by apply (fo_own _ _ _ _ (Hok j rj Hrj)). }
  constructor; rewrite ?length_app; cbn [length]; try done; [lia|lia|lia| | |].
  - intros j rj tj Hrj Htj. apply lookup_app_Some in Hrj as [Hrj|[Hge Hrj]].
    + pose proof (lookup_lt_Some _ _ _ Hrj) as Hlt. rewrite lookup_app_l in Htj by lia. apply (file_has_same f); [by apply B5|intros n; by apply (Hsame j)| |].
      * intros n Hn Hu. rewrite (same_used _ _ _ _ _ blank_layout f f' rj (Hok j rj Hrj) alloc_keeps_data); [done|]. done.
      * apply (saved_other _ _ _ _ _ blank_layout); try done; cbn [i_inum mk_inode]; [change (sb_ninodes mksb) with NINODES|]; lia.
    + apply list_lookup_singleton_Some in Hrj as [Ej <-]. rewrite lookup_app_r in Htj by lia. apply list_lookup_singleton_Some in Htj as [_ <-].
      replace (Z.of_nat j) with (Z.of_nat (length T)) by lia. constructor; try done; [by apply new_file_ok|apply new_fits|].
      by apply (saved _ _ _ _ _ blank_layout f r0).
  - intros a b ra rb n Ha Hb2 Hab Hoa Hob. apply lookup_app_Some in Ha as [Ha|[Hge Ha]].
    + apply lookup_app_Some in Hb2 as [Hb2|[Hge Hb2]].
      * rewrite (other_owned f) in Hoa by (intros k; by apply (Hsame a)). rewrite (other_owned f) in Hob by (intros k; by apply (Hsame b)). by apply (B6 a b ra rb n).
      * apply list_lookup_singleton_Some in Hb2 as [_ <-]. by apply new_owned in Hob.
    + apply list_lookup_singleton_Some in Ha as [_ <-]. by apply new_owned in Hoa.
  - rewrite space_app, Hb', B7. change (space [(ty, [])]) with 0. lia.
Qed.

Lemma ialloc_ok : i16 (xshort ty) = ty -> exists st' f' R', ialloc ty st = Ret inum st' /\ built st' f' R' (T ++ [(ty, [])]).
Proof using Hb Hty Hmax.
  intros Hx. unfold ialloc. rewrite bind_gets, (bt_next _ _ _ _ Hb), bind_modify. unfold NINODES in Hmax. rewrite u32_id by lia.
  rewrite Hx. change (i16 (xshort 1)) with 1. change (xint 0) with 0. change (mkDinode ty 0 0 1 0 (replicate 13 0)) with (disk_fields r0).
  destruct (run_winode (set_freeinode (inum + 1) st) f inum (disk_fields r0)) as (st' & He & Hs' & Hi' & Hb'); [|unfold NINODES; lia|done|].
  { destruct (bt_sim _ _ _ _ Hb) as [H0 H1 H2 H3 H4 H5 H6]. by constructor. }
  rewrite (bind_Ret _ _ _ _ _ He). exists st', f', (R ++ [r0]). split; [done|]. apply built_alloc; [exact Hs'|rewrite Hi'; cbn; lia|by rewrite Hb'].
Qed.

End Alloc.

(** ** The program *)

(** [while((cc = read(fd, buf, sizeof(buf))) > 0) iappend(inum, buf, cc);] *)
Lemma reads_ok i ty : short ty -> forall reads st f R T c, built st f R T -> T !! i = Some (ty, c) -> Forall (fun p => p <> []) reads ->
  Z.of_nat (length (c ++ concat reads)) <= MAXFILE * BSIZE -> space (<[i := (ty, c ++ concat reads)]> T) <= nblocks ->
  exists st' f' R', for_each reads (iappend (1 + Z.of_nat i)) st = Ret tt st' /\ built st' f' R' (<[i := (ty, c ++ concat reads)]> T).
Proof.
  intros Hty. induction reads as [|p reads IH]; intros st f R T c Hb Ht Hne Hmax Hroom.
  { exists st, f, R. cbn [concat]. rewrite app_nil_r, list_insert_id by done. done. }
  apply Forall_cons in Hne as [Hp Hne]. cbn [concat] in *. rewrite app_assoc in Hmax, Hroom |- *. cbn [for_each].
  destruct (append_ok st f R T i ty c p Hb Ht Hty Hp) as (st1 & f1 & R1 & He1 & Hb1); [rewrite length_app in Hmax; lia| |].
  { rewrite (space_insert _ _ _ _ Ht) in Hroom. rewrite (space_insert _ _ _ _ Ht). cbn [snd] in *. rewrite (length_app (c ++ p)) in Hroom.
    pose proof (blocks_for_mono (Z.of_nat (length (c ++ p))) (Z.of_nat (length (c ++ p) + length (concat reads))) ltac:(lia)). lia. }
  rewrite (bind_Ret _ _ _ _ _ He1). pose proof (lookup_lt_Some _ _ _ Ht) as Hlt.
  destruct (IH st1 f1 R1 _ (c ++ p) Hb1) as (st2 & f2 & R2 & He2 & Hb2); [by apply list_lookup_insert_eq|done|done|by rewrite list_insert_insert_eq|].
  rewrite list_insert_insert_eq in Hb2. by exists st2, f2, R2.
Qed.

(** The files named on the command line. *)
Definition source_bytes (a : source) : list Z := concat (default [] (src_reads a)).
Definition source_ok (a : source) : Prop :=
  existsb (Z.eqb 47) (src_name a) = false /\ Z.of_nat (length (source_bytes a)) <= MAXFILE * BSIZE /\
  match src_reads a with Some reads => Forall (fun p => p <> []) reads | None => False end.

(** Their entries in the root directory, from inode [inum] on. *)
Fixpoint entries (inum : Z) (files : list source) : list Z :=
  match files with
  | [] => []
  | a :: files => dirent inum (skip_underscore (src_name a)) ++ entries (inum + 1) files
  end.

Lemma length_dirent inum name : length (dirent inum name) = 16%nat.
Proof. unfold dirent, padded_name. rewrite length_app, length_le_bytes, length_take, length_app, length_replicate. unfold DIRSIZ. lia. Qed.

Lemma length_entries files : forall inum, length (entries inum files) = (16 * length files)%nat.
Proof. induction files as [|a files IH]; intros inum; [done|]. cbn [entries length]. rewrite length_app, length_dirent, IH. lia. Qed.

(** The root directory with contents [d] and the files [F]. *)
Definition tree (d : list Z) (F : list (list Z)) : list (Z * list Z) := (T_DIR, d) :: map (fun c => (T_FILE, c)) F.

Lemma space_tree d F : space (tree d F) = blocks_for (Z.of_nat (length d)) + space (map (fun c => (T_FILE, c)) F).
Proof. done. Qed.

Lemma tree_snoc d F c : tree d F ++ [(T_FILE, c)] = tree d (F ++ [c]).
Proof. unfold tree. rewrite map_app. done. Qed.

Lemma tree_last d F c c' : <[S (length F) := (T_FILE, c')]> (tree d (F ++ [c])) = tree d (F ++ [c']).
Proof.
  unfold tree. rewrite !map_app. change (<[S ?n := ?x]> (?h :: ?l)) with (h :: <[n := x]> l). f_equal.
  rewrite insert_app_r_alt by (by rewrite length_map). by rewrite length_map, Nat.sub_diag.
Qed.

Lemma add_file_ok st f R d F a : built st f R (tree d F) -> source_ok a -> 2 + Z.of_nat (length F) < NINODES ->
  let e := dirent (2 + Z.of_nat (length F)) (skip_underscore (src_name a)) in
  Z.of_nat (length (d ++ e)) <= MAXFILE * BSIZE -> space (tree (d ++ e) (F ++ [source_bytes a])) <= nblocks ->
  exists st' f' R', add_file ROOTINO a st = Ret tt st' /\ built st' f' R' (tree (d ++ e) (F ++ [source_bytes a])).
Proof.
  intros Hb (Hn & Hmax & Hre) Hi e Hd Hsp. unfold add_file. rewrite bind_assertion by (by rewrite Hn).
  destruct (src_reads a) as [reads|] eqn:Er; [|done].
  assert (Z.of_nat (length (tree d F)) = 1 + Z.of_nat (length F)) as Hl by (cbn [tree length]; rewrite length_map; lia).
  destruct (ialloc_ok st f R _ Hb T_FILE) as (st1 & f1 & R1 & He1 & Hb1); [unfold short, T_FILE; lia|lia|done|].
  rewrite (bind_Ret _ _ _ _ _ He1), Hl, tree_snoc in *. replace (1 + (1 + Z.of_nat (length F))) with (2 + Z.of_nat (length F)) by lia. fold e.
  assert (source_bytes a = concat reads) as Hs by (unfold source_bytes; by rewrite Er). rewrite Hs in *.
  destruct (append_ok st1 f1 R1 _ 0 T_DIR d e Hb1) as (st2 & f2 & R2 & He2 & Hb2); [done|unfold short, T_DIR; lia| |done| |].
  { intros E%(f_equal length). unfold e in E. by rewrite length_dirent in E. }
  { change (<[0%nat := _]> _) with (tree (d ++ e) (F ++ [[]])). rewrite space_tree, map_app, space_app in Hsp |- *. cbn [map space foldr snd] in *.
    pose proof (blocks_for_pos (Z.of_nat (length (concat reads)))). change (blocks_for (Z.of_nat (length []))) with 0. lia. }
  change (1 + Z.of_nat 0) with ROOTINO in He2. rewrite (bind_Ret _ _ _ _ _ He2).
  change (<[0%nat := _]> _) with (tree (d ++ e) (F ++ [[]])) in Hb2.
  assert (<[S (length F) := (T_FILE, concat reads)]> (tree (d ++ e) (F ++ [[]])) = tree (d ++ e) (F ++ [concat reads])) as Et by (apply tree_last).
  destruct (reads_ok (S (length F)) T_FILE ltac:(unfold short, T_FILE; lia) reads st2 f2 R2 _ [] Hb2) as (st3 & f3 & R3 & He3 & Hb3).
  - unfold tree. rewrite map_app. change ((?h :: ?l) !! S ?n) with (l !! n). rewrite lookup_app_r, length_map, Nat.sub_diag by (rewrite length_map; lia). done.
  - done.
  - done.
  - cbn [app]. by rewrite Et.
  - cbn [app] in Hb3. rewrite Et in Hb3. exists st3, f3, R3. split; [|done]. rewrite <- He3. do 2 f_equal. lia.
Qed.

Lemma files_ok : forall files st f R d F, built st f R (tree d F) -> Forall source_ok files ->
  1 + Z.of_nat (length F + length files) < NINODES ->
  let d' := d ++ entries (2 + Z.of_nat (length F)) files in
  Z.of_nat (length d') <= MAXFILE * BSIZE -> space (tree d' (F ++ map source_bytes files)) <= nblocks ->
  exists st' f' R', for_each files (add_file ROOTINO) st = Ret tt st' /\ built st' f' R' (tree d' (F ++ map source_bytes files)).
Proof.
  induction files as [|a files IH]; intros st f R d F Hb Hok Hi d' Hd Hsp; unfold d' in *; clear d'.
  { exists st, f, R. cbn [entries map]. by rewrite !app_nil_r. }
  apply Forall_cons in Hok as [Ha Hok]. cbn [entries map length] in *. set (e := dirent _ _) in *. set (n := 2 + Z.of_nat (length F)) in *.
  replace (F ++ source_bytes a :: map source_bytes files) with ((F ++ [source_bytes a]) ++ map source_bytes files) in * by (by rewrite <- app_assoc).
  rewrite app_assoc in Hd, Hsp |- *. assert (Z.of_nat (length (F ++ [source_bytes a])) = n - 1) as Hl by (rewrite length_app; cbn [length]; lia).
  destruct (add_file_ok st f R d F a Hb Ha) as (st1 & f1 & R1 & He1 & Hb1); [lia|rewrite length_app in Hd; fold n e; lia| |].
  { fold n e. rewrite space_tree in Hsp |- *. rewrite (map_app _ (F ++ _)), space_app in Hsp. rewrite length_app in Hsp.
    pose proof (space_pos (map (fun c => (T_FILE, c)) (map source_bytes files))).
    pose proof (blocks_for_mono (Z.of_nat (length (d ++ e))) (Z.of_nat (length (d ++ e) + length (entries (n + 1) files))) ltac:(lia)). lia. }
  cbn [for_each]. rewrite (bind_Ret _ _ _ _ _ He1). fold n e in Hb1.
  replace (n + 1) with (2 + Z.of_nat (length (F ++ [source_bytes a]))) in * by lia.
  apply (IH st1 f1 R1 _ _ Hb1 Hok); [rewrite length_app; cbn [length]; lia|done|done].
Qed.

(** [for(i = 0; i < FSSIZE; i++) wsect(i, zeroes);] *)
Lemma zero_image n : forall k st, image st = replicate k zeroes -> Z.of_nat k + Z.of_nat n <= FSSIZE + 1 ->
  for_each (seqZ (Z.of_nat k) (Z.of_nat n)) (fun i => wsect i zeroes) st = Ret tt (set_image (replicate (k + n) zeroes) st).
Proof.
  induction n as [|n IH]; intros k st Hk Hn.
  { rewrite Nat.add_0_r, <- Hk. by destruct st. }
  rewrite (seqZ_cons _ (Z.of_nat (S n))) by lia. cbn [for_each]. unfold wsect at 1. rewrite (proj2 (Z.ltb_ge _ _)) by lia. rewrite bind_modify.
  unfold put_block. rewrite Hk, Nat2Z.id, length_replicate, Nat.ltb_irrefl, Nat.sub_diag. cbn [replicate app].
  replace (Z.succ (Z.of_nat k)) with (Z.of_nat (S k)) by lia. replace (Z.pred (Z.of_nat (S n))) with (Z.of_nat n) by lia.
  rewrite IH; [|cbn [image set_image]; by rewrite <- replicate_cons_app|lia]. by replace (S k + n)%nat with (k + S n)%nat by lia.
Qed.

(** The contents before the first file. *)
Definition blank_contents (n : Z) : list Z := if n =? 58 then bitmap nmeta else low_block n.

Definition blank_mk : mk := mkMk (<[1%nat := sb_block]> (replicate (Z.to_nat FSSIZE) zeroes)) 1 nmeta.

Lemma length_low n : length (low_block n) = 512%nat.
Proof. unfold low_block. by destruct (n =? 1). Qed.

Lemma blank_sim : sim blank_mk blank_contents.
Proof.
  constructor.
  - intros n Hn. unfold blank_contents. by rewrite (proj2 (Z.eqb_neq n 58)) by lia.
  - unfold blank_mk. cbn [image]. by rewrite length_insert, length_replicate.
  - intros n Hn Hne. unfold blank_contents, low_block, blank_mk. cbn [image]. rewrite (proj2 (Z.eqb_neq n 58)) by done. unfold FSSIZE in *.
    destruct (Z.eqb_spec n 1) as [->|]; [by rewrite list_lookup_insert_eq by (rewrite length_replicate; lia)|].
    rewrite list_lookup_insert_ne by lia. apply lookup_replicate. split; [done|lia].
  - done.
  - cbn [freeblock blank_mk]. change nmeta with 59. unfold FSSIZE. lia.
  - intros n Hn. cbn [freeblock blank_mk] in Hn. change nmeta with 59 in Hn. unfold blank_contents, low_block.
    by rewrite !(proj2 (Z.eqb_neq _ _)) by lia.
  - constructor.
    + intros n Hn. unfold blank_contents. destruct (n =? 58); [by apply length_bitmap|apply length_low].
    + intros n Hn. change nmeta with 59 in Hn. unfold used. rewrite bmap_block_58 by (unfold FSSIZE; lia). unfold blank_contents. rewrite Z.eqb_refl.
      change nmeta with 59. rewrite Z.mod_small by (unfold BPB, BSIZE; lia). rewrite bitmap_bit by (unfold BPB, BSIZE; lia). apply Z.ltb_lt. lia.
Qed.

Lemma blank_built : built blank_mk blank_contents [] [].
Proof. constructor; try done. apply blank_sim. Qed.

(** The bytes of the root directory: [.], [..] and the files. *)
Definition root_dir (files : list source) : list Z := dirent ROOTINO [46] ++ dirent ROOTINO [46; 46] ++ entries 2 files.

Lemma length_root files : length (root_dir files) = (16 * (length files + 2))%nat.
Proof. unfold root_dir. rewrite !length_app, !length_dirent, length_entries. lia. Qed.

(** The last part of [main]. *)
Definition finish : M mk unit :=
  din <- rinode ROOTINO ;;
  winode ROOTINO (set_din_size (xint (round_size (xint (di_size din)))) din) ;;;
  b <- gets freeblock ;;
  balloc b.

Lemma main_built files : Forall source_ok files -> 1 + Z.of_nat (length files) < NINODES ->
  space (tree (root_dir files) (map source_bytes files)) <= nblocks ->
  exists st f R, main (Some true) files mk_start = finish st /\ built st f R (tree (root_dir files) (map source_bytes files)).
Proof.
  intros Hok Hi Hsp. unfold NINODES in Hi. set (dot := dirent ROOTINO [46]). set (dots := dirent ROOTINO [46; 46]). unfold main.
  assert (length dot = 16%nat) as L1 by apply length_dirent. assert (length dots = 16%nat) as L2 by apply length_dirent.
  rewrite !bind_assertion by done. cbn [negb]. rewrite bind_modify. change FSSIZE with (Z.of_nat (Z.to_nat 2000)) at 1. change 0 with (Z.of_nat 0) at 1.
  rewrite (bind_Ret _ _ _ _ _ (zero_image (Z.to_nat 2000) 0 (set_freeblock nmeta mk_start) eq_refl ltac:(unfold FSSIZE; lia))).
  erewrite bind_Ret; [|apply run_wsect; [cbn [image set_image]; by rewrite length_replicate|unfold FSSIZE; lia]].
  change (put_sect 1 sb_block _) with blank_mk.
  destruct (ialloc_ok _ _ _ _ blank_built T_DIR) as (st1 & f1 & R1 & He1 & Hb1); [unfold short, T_DIR; lia|done|done|].
  change ([] ++ [(T_DIR, [])]) with (tree [] []) in Hb1. change (1 + Z.of_nat (length [])) with ROOTINO in He1.
  rewrite (bind_Ret _ _ _ _ _ He1), bind_assertion by done.
  destruct (append_ok st1 f1 R1 _ 0 T_DIR [] dot Hb1) as (st2 & f2 & R2 & He2 & Hb2); try done.
  change (1 + Z.of_nat 0) with ROOTINO in He2. rewrite (bind_Ret _ _ _ _ _ He2). change (<[0%nat := _]> _) with (tree dot []) in Hb2.
  destruct (append_ok st2 f2 R2 _ 0 T_DIR dot dots Hb2) as (st3 & f3 & R3 & He3 & Hb3); try done.
  change (1 + Z.of_nat 0) with ROOTINO in He3. rewrite (bind_Ret _ _ _ _ _ He3). change (<[0%nat := _]> _) with (tree (dot ++ dots) []) in Hb3.
  assert (root_dir files = (dot ++ dots) ++ entries (2 + Z.of_nat (length (@nil (list Z)))) files) as Er by (unfold root_dir; by rewrite <- app_assoc).
  pose proof (length_root files) as Hl. rewrite Er in *.
  destruct (files_ok files st3 f3 R3 _ [] Hb3 Hok) as (st4 & f4 & R4 & He4 & Hb4); [cbn [length]; unfold NINODES; lia| |exact Hsp|].
  { rewrite Hl. change (MAXFILE * BSIZE) with 71680. lia. }
  rewrite (bind_Ret _ _ _ _ _ He4). exists st4, f4, R4. split; [done|exact Hb4].
Qed.

(** The size of the root directory in the image. *)
Definition root_size (d : list Z) : Z := (Z.of_nat (length d) / BSIZE + 1) * BSIZE.

(** The contents of the finished image, when the root inode is [r]. *)
Definition final f r (d : list Z) : Z -> list Z := save_inode mksb f (set_i_size (root_size d) r).

Lemma root_size_range d : Z.of_nat (length d) <= 64000 -> Z.of_nat (length d) < root_size d <= MAXFILE * BSIZE.
Proof.
  intros Hd. unfold root_size. pose proof (Z.div_mod (Z.of_nat (length d)) BSIZE ltac:(done)) as D. pose proof (Z.mod_pos_bound (Z.of_nat (length d)) BSIZE ltac:(done)).
  change (MAXFILE * BSIZE) with 71680. unfold BSIZE in *. lia.
Qed.

Section Finish.
Context st f R d F r (Hb : built st f R (tree d F)) (Hr : R !! 0%nat = Some r) (Hd : Z.of_nat (length d) <= 64000).

Lemma root_has : file_has f ROOTINO r (T_DIR, d).
Proof using Hb Hr. by apply (bt_files _ _ _ _ Hb 0 r (T_DIR, d)). Qed.

Lemma run_finish : exists st', finish st = Ret tt st' /\ length (image st') = Z.to_nat FSSIZE /\
  forall n, 0 <= n < FSSIZE -> image st' !! Z.to_nat n = Some (final f r d n).
Proof using Hb Hr Hd.
  pose proof root_has as [F1 F2 F3 F4 F5]. cbn [fst snd] in *. pose proof (bt_sim _ _ _ _ Hb) as Hs. pose proof (root_size_range d Hd) as Hrs.
  change (MAXFILE * BSIZE) with 71680 in Hrs. assert (i_size r = Z.of_nat (length d)) as Hsz by (by rewrite F1). assert (i_inum r = ROOTINO) as Hin by (by rewrite F1).
  unfold finish. rewrite (bind_Ret _ _ _ _ _ (run_rinode st f ROOTINO Hs ltac:(done))), F4. change (di_size (disk_fields r)) with (i_size r). rewrite Hsz, (xint_id (Z.of_nat _)) by lia.
  assert (round_size (Z.of_nat (length d)) = root_size d) as -> by (unfold round_size; apply u32_id; change ((Z.of_nat (length d) / BSIZE + 1) * BSIZE) with (root_size d); lia).
  rewrite xint_id by lia. change (set_din_size (root_size d) (disk_fields r)) with (disk_fields (set_i_size (root_size d) r)).
  destruct (run_winode st f ROOTINO (disk_fields (set_i_size (root_size d) r)) Hs ltac:(done)) as (st1 & He1 & Hs1 & Hi1 & Hb1); [apply F2|].
  rewrite (bind_Ret _ _ _ _ _ He1), bind_gets. unfold balloc. pose proof (sm_free _ _ Hs1) as Hf. change nmeta with 59 in Hf. unfold FSSIZE in Hf.
  rewrite bind_assertion by (apply Z.ltb_lt; unfold BSIZE; lia). eexists. split; [apply run_wsect; [apply Hs1|done]|].
  assert (set_inode f ROOTINO (disk_fields (set_i_size (root_size d) r)) = final f r d) as Ef.
  { unfold set_inode, final, save_inode. cbn [i_inum set_i_size]. by rewrite Hin. }
  rewrite Ef in Hs1. split; [cbn [image put_sect set_image]; rewrite length_insert; apply Hs1|]. intros n Hn. cbn [image put_sect set_image].
  destruct (decide (n = 58)) as [->|Hne].
  - change (sb_bmapstart mksb) with 58. rewrite list_lookup_insert_eq by (rewrite (sm_len _ _ Hs1); unfold FSSIZE; lia). by rewrite (sm_bitmap _ _ Hs1).
  - change (sb_bmapstart mksb) with 58. rewrite list_lookup_insert_ne by lia. by apply (sm_block _ _ Hs1).
Qed.

(** *** The finished image *)

Context g (Hg : forall n, 0 <= n < FSSIZE -> g n = final f r d n).
Abbreviation rr := (set_i_size (root_size d) r).

Lemma image_same n : is_data mksb nmeta n \/ is_bmap mksb nmeta n -> g n = f n.
Proof using Hb Hr Hg.
  intros Hn. rewrite is_data_range, is_bmap_58 in Hn. rewrite Hg by (unfold FSSIZE; lia). apply saved_block. cbn [i_inum set_i_size].
  pose proof root_has as [F1 _ _ _ _]. assert (i_inum r = ROOTINO) as -> by (by rewrite F1). pose proof (iblock_low ROOTINO ltac:(done)). lia.
Qed.

Lemma image_used b : 0 <= b < FSSIZE -> used g b = (b <? nmeta + space (tree d F)).
Proof using Hb Hr Hg.
  intros Hn. rewrite <- (bt_space _ _ _ _ Hb), <- (sim_used st f) by (done || apply Hb). unfold used. rewrite image_same; [done|].
  right. by apply (bmap_block_range _ _ _ _ _ blank_layout).
Qed.

Lemma image_used_same b : 0 <= b < FSSIZE -> used g b = used f b.
Proof using Hb Hr Hg. intros Hn. rewrite image_used, <- (bt_space _ _ _ _ Hb) by done. symmetry. apply sim_used; [apply Hb|done]. Qed.

Lemma image_inode i : 0 <= i < NINODES -> disk_inode mksb g i = disk_inode mksb (final f r d) i.
Proof using Hg. intros Hi. unfold disk_inode. rewrite Hg; [done|]. pose proof (iblock_low i Hi). unfold FSSIZE. lia. Qed.

Lemma root_fields : dinode_ok (disk_fields rr).
Proof using Hb Hr Hd.
  pose proof root_has as [F1 F2 _ _ _]. pose proof (root_size_range d Hd) as Hrs. change (MAXFILE * BSIZE) with 71680 in Hrs.
  destruct (fields_ok _ _ _ _ _ blank_layout f r F2) as [K1 K2 K3 K4 K5 K6 K7]; [rewrite F1; by apply mk_shorts|].
  constructor; try done. cbn [di_size disk_fields i_size set_i_size]. lia.
Qed.

Lemma image_file i ri t : i <> O -> R !! i = Some ri -> tree d F !! i = Some t -> file_has g (1 + Z.of_nat i) ri t.
Proof using Hb Hr Hg Hd.
  intros Hi Hri Ht. pose proof (bt_files _ _ _ _ Hb i ri t Hri Ht) as Hf. pose proof (bt_max _ _ _ _ Hb) as Hmax. pose proof (lookup_lt_Some _ _ _ Ht) as Hlt.
  apply (file_has_same f); [done| | |].
  - intros n Hn. apply image_same. left. by apply (fo_own _ _ _ _ (fh_ok _ _ _ _ Hf)).
  - intros n Hn Hu. by rewrite image_used_same.
  - rewrite image_inode by lia. pose proof root_has as [F1 _ _ _ _]. assert (i_inum r = ROOTINO) as Hin by (by rewrite F1).
    apply (saved_other _ _ _ _ _ blank_layout); [apply (sm_wf _ _ (bt_sim _ _ _ _ Hb))|cbn; by rewrite Hin|exact root_fields|
      change (sb_ninodes mksb) with NINODES; lia|cbn [i_inum set_i_size]; rewrite Hin; unfold ROOTINO; lia].
Qed.

Lemma image_root_inode : disk_inode mksb g ROOTINO = disk_fields rr.
Proof using Hb Hr Hg Hd.
  rewrite image_inode by done. pose proof root_has as [F1 _ _ _ _]. assert (i_inum r = ROOTINO) as Hin by (by rewrite F1).
  rewrite <- Hin. apply (saved _ _ _ _ _ blank_layout f rr); [apply (sm_wf _ _ (bt_sim _ _ _ _ Hb))|cbn; by rewrite Hin|exact root_fields].
Qed.

Lemma image_root : Z.of_nat (length d) mod BSIZE <> 0 ->
  file_ok g rr /\ fbytes g rr 0 (root_size d) = d ++ replicate (Z.to_nat (root_size d) - length d) 0.
Proof using Hb Hr Hg Hd.
  intros Hmod. pose proof root_has as [F1 F2 F3 F4 F5]. cbn [fst snd] in *. pose proof (root_size_range d Hd) as Hrs.
  assert (i_size r = Z.of_nat (length d)) as Hsz by (by rewrite F1). rewrite Hsz in *.
  pose proof (Z.div_mod (Z.of_nat (length d)) BSIZE ltac:(done)) as D. pose proof (Z.mod_pos_bound (Z.of_nat (length d)) BSIZE ltac:(done)) as B.
  assert (forall n, owned f r n -> g n = f n) as Hsame by (intros n Hn; apply image_same; left; by apply (fo_own _ _ _ _ F2)).
  assert (forall bn, 0 <= bn -> bn * BSIZE < root_size d -> 0 <= bn < MAXFILE /\ iblk f r bn <> 0) as Hhas.
  { intros bn H0 Hlt. assert (0 <= bn < MAXFILE) as Hm by (change (MAXFILE * BSIZE) with 71680 in Hrs; change MAXFILE with 140; unfold BSIZE in *; lia).
    split; [done|]. apply (ft_has _ _ _ F3); [done|]. unfold root_size in Hlt. unfold BSIZE in *. lia. }
  split.
  - assert (file_ok g r) as [O1 O2 O3 O4 O5 O6 O7 O8] by (apply (other_ok f); [done|done|intros n Hn Hu; by rewrite image_used_same]).
    constructor; try done; [cbn [i_size set_i_size]; lia|]. intros bn H0 Hlt. cbn [i_size set_i_size] in Hlt. change (iblk g r bn <> 0).
    rewrite (other_iblk f) by done. by apply Hhas.
  - change (fbytes g r 0 (root_size d) = d ++ replicate (Z.to_nat (root_size d) - length d) 0).
    replace (root_size d) with (Z.of_nat (length d) + (root_size d - Z.of_nat (length d))) at 1 by lia. rewrite fbytes_app, Z.add_0_l by lia.
    rewrite (other_bytes f) by (done || lia). rewrite F5. f_equal. apply list_eq_same_length with (n := (Z.to_nat (root_size d) - length d)%nat);
      [apply length_replicate|unfold fbytes; rewrite length_map, length_seqZ; lia|].
    intros k x y Hk Hx Hy. apply lookup_replicate in Hy as [-> _]. unfold fbytes in Hx. rewrite list_lookup_fmap, lookup_seqZ_lt in Hx by lia.
    cbn [fmap option_fmap option_map] in Hx. injection Hx as <-. rewrite Z.add_0_l. set (q := Z.of_nat (length d) + Z.of_nat k).
    destruct (Hhas (q / BSIZE)) as [_ Hne]; [apply Z.div_pos; [lia|done]|pose proof (Z.mul_div_le q BSIZE ltac:(done)); lia|].
    rewrite (other_byte f) by (done || lia). apply (ft_tail _ _ _ F3); [lia|done].
Qed.

End Finish.

(** The image as the disk of the kernel, and an inode of it as [ilock] reads it. *)
Definition disk_of st : memdisk := mkMemdisk FSSIZE (image st) [].
Definition inode_at (m : memdisk) (i : Z) : inode :=
  let di := disk_inode mksb (block_in m) i in
  mkInode 1 i 0 zero_sl 0 (di_type di) (di_major di) (di_minor di) (di_nlink di) (di_size di) (di_addrs di).

(** Inode [i] is a file with the given bytes. *)
Definition has_file (m : memdisk) (i ty : Z) (bytes : list Z) : Prop :=
  let r := inode_at m i in
  i_type r = ty /\ i_nlink r = 1 /\ i_size r = Z.of_nat (length bytes) /\ file_ok (block_in m) r /\ fbytes (block_in m) r 0 (i_size r) = bytes.

(** The root directory is filled up with free entries. *)
Definition root_bytes (files : list source) : list Z :=
  root_dir files ++ replicate (Z.to_nat (root_size (root_dir files)) - length (root_dir files)) 0.

(** What is to be stored: the directory, then the files. *)
Definition contents (files : list source) : list (Z * list Z) := tree (root_dir files) (map source_bytes files).

Lemma inode_at_eq m i r ty size : r = mk_inode i ty size (i_addrs r) -> disk_inode mksb (block_in m) i = disk_fields r -> inode_at m i = r.
Proof. intros Hr Hd. unfold inode_at. rewrite Hd, Hr. done. Qed.

Lemma disk_block st g n : length (image st) = Z.to_nat FSSIZE -> (forall k, 0 <= k < FSSIZE -> image st !! Z.to_nat k = Some (g k)) ->
  0 <= n < FSSIZE -> block_in (disk_of st) n = g n.
Proof. intros Hl Hg Hn. unfold block_in, disk_of. cbn [md_blocks]. by rewrite nth_lookup, Hg. Qed.

Lemma image_consistent st f R d F r st' : built st f R (tree d F) -> R !! 0%nat = Some r -> Z.of_nat (length d) <= 64000 -> length (image st') = Z.to_nat FSSIZE ->
  (forall n, 0 <= n < FSSIZE -> block_in (disk_of st') n = final f r d n) -> consistent 2 30 mksb nmeta (disk_of st').
Proof.
  intros Hb Hr Hd Hl Hg. pose proof (root_has st f R d F r Hb Hr) as [F1 F2 _ _ _]. assert (i_inum r = ROOTINO) as Hin by (by rewrite F1).
  pose proof (bt_sim _ _ _ _ Hb) as Hs. pose proof (iblock_low ROOTINO ltac:(done)) as Hib.
  assert (forall n, 0 <= n < 32 -> block_in (disk_of st') n = low_block n) as Hlow.
  { intros n Hn. rewrite Hg by (unfold FSSIZE; lia). rewrite <- (sm_low _ _ Hs) by done. apply saved_block. cbn [i_inum set_i_size]. rewrite Hin. lia. }
  constructor.
  - apply mk_layout; [done|]. unfold sized, disk_of. cbn [md_size md_blocks]. rewrite Hl. done.
  - rewrite Hlow by lia. done.
  - rewrite Hlow by lia. done.
  - constructor.
    + intros n Hn. cbn [md_size disk_of] in Hn. rewrite Hg by done.
      pose proof (saved_wf _ _ _ _ _ blank_layout f (set_i_size (root_size d) r) (sm_wf _ _ Hs)) as Hwf. apply Hwf; [cbn; by rewrite Hin|by apply (root_fields st f R d F)|done].
    + intros n Hn. change nmeta with 59 in Hn. rewrite (image_used_same st f R d F r Hb Hr _ Hg) by (unfold FSSIZE; lia).
      apply (sm_wf _ _ Hs). done.
Qed.

Section Image.
Context st f R d F r (Hb : built st f R (tree d F)) (Hr : R !! 0%nat = Some r) (Hd : Z.of_nat (length d) <= 64000).
Context (m : memdisk) (Hg : forall n, 0 <= n < FSSIZE -> block_in m n = final f r d n).

Lemma inode_at_file i ri t : i <> O -> R !! i = Some ri -> tree d F !! i = Some t -> inode_at m (1 + Z.of_nat i) = ri.
Proof using Hb Hr Hd Hg.
  intros Hi Hri Ht. destruct (image_file st f R d F r Hb Hr Hd _ Hg i ri t Hi Hri Ht) as [F1 _ _ F4 _]. by apply (inode_at_eq m _ ri t.1 (Z.of_nat (length t.2))).
Qed.

Lemma inode_at_root : inode_at m ROOTINO = set_i_size (root_size d) r.
Proof using Hb Hr Hd Hg.
  pose proof (root_has st f R d F r Hb Hr) as [F1 _ _ _ _]. apply (inode_at_eq m _ _ T_DIR (root_size d)); [by rewrite F1|].
  by apply (image_root_inode st f R d F r).
Qed.

Lemma inode_at_owned i ri n : R !! i = Some ri -> owned (block_in m) (inode_at m (1 + Z.of_nat i)) n -> owned f ri n.
Proof using Hb Hr Hd Hg.
  intros Hri. destruct (lookup_lt_is_Some_2 (tree d F) i) as [t Ht]; [rewrite <- (bt_len _ _ _ _ Hb); by eapply lookup_lt_Some|].
  pose proof (fh_ok _ _ _ _ (bt_files _ _ _ _ Hb i ri t Hri Ht)) as Hok.
  assert (forall k, owned f ri k -> block_in m k = f k) as Hsame.
  { intros k Hk. apply (image_same st f R d F r Hb Hr _ Hg). left. by apply (fo_own _ _ _ _ Hok). }
  destruct i as [|i]; [|by rewrite (inode_at_file (S i) ri t), (other_owned f)].
  rewrite Hr in Hri. injection Hri as <-. change (1 + Z.of_nat 0) with ROOTINO. rewrite inode_at_root.
  change (owned (block_in m) r n -> owned f r n). by rewrite (other_owned f).
Qed.

Lemma has_root : Z.of_nat (length d) mod BSIZE <> 0 -> has_file m ROOTINO T_DIR (d ++ replicate (Z.to_nat (root_size d) - length d) 0).
Proof using Hb Hr Hd Hg.
  intros Hmod. destruct (image_root st f R d F r Hb Hr Hd _ Hg Hmod) as [Hok Hbytes]. pose proof (root_has st f R d F r Hb Hr) as [F1 _ _ _ _].
  pose proof (root_size_range d Hd). unfold has_file. cbv zeta. rewrite inode_at_root. split; [by rewrite F1|]. split; [by rewrite F1|].
  split; [|split; [exact Hok|exact Hbytes]]. rewrite length_app, length_replicate. cbn [i_size set_i_size]. lia.
Qed.

Lemma has_other i t : i <> O -> tree d F !! i = Some t -> has_file m (1 + Z.of_nat i) t.1 t.2.
Proof using Hb Hr Hd Hg.
  intros Hi Ht. destruct (lookup_lt_is_Some_2 R i) as [ri Hri]; [rewrite (bt_len _ _ _ _ Hb); by eapply lookup_lt_Some|].
  unfold has_file. cbv zeta. rewrite (inode_at_file i ri t) by done. destruct (image_file st f R d F r Hb Hr Hd _ Hg i ri t Hi Hri Ht) as [F1 F2 _ _ F5].
  split; [by rewrite F1|]. split; [by rewrite F1|]. split; [by rewrite F1|]. done.
Qed.

End Image.

Lemma root_mod n k : k = (16 * (n + 2))%nat -> ((n + 2) mod 32 <> 0)%nat -> Z.of_nat k mod BSIZE <> 0.
Proof.
  intros -> Hn Hz. apply Hn. replace (Z.of_nat (16 * (n + 2))) with (16 * Z.of_nat (n + 2)) in Hz by lia. change BSIZE with (16 * 32) in Hz.
  rewrite Z.mul_mod_distr_l in Hz by lia. apply Nat2Z.inj. rewrite Nat2Z.inj_mod. change (Z.of_nat 32) with 32. lia.
Qed.


(** C19: When the entries of the root directory fill its blocks exactly, mkfs still adds a
    block to its size, but the inode has no such block.  The kernel then allocates one while
    it reads the directory, which [log_write] does not allow outside of a transaction. *)
Theorem mkfs_root_gap files : Forall source_ok files -> 1 + Z.of_nat (length files) < NINODES -> space (contents files) <= nblocks ->
  ((length files + 2) mod 32 = 0)%nat ->
  exists st, main (Some true) files mk_start = Ret tt st /\ let m := disk_of st in
    let r := inode_at m ROOTINO in let bn := Z.of_nat (length files + 2) / 32 in
    i_size r = (bn + 1) * BSIZE /\ iblk (block_in m) r bn = 0.
Proof.
  intros Hok Hi Hsp Hmod. destruct (main_built files Hok Hi Hsp) as (st & f & R & He & Hb). fold (contents files) in *. set (d := root_dir files) in *.
  pose proof (length_root files) as Hl. fold d in Hl. unfold NINODES in Hi. pose proof (bt_len _ _ _ _ Hb) as HR.
  destruct (lookup_lt_is_Some_2 R 0) as [r Hr]; [rewrite HR; cbn; lia|]. assert (Z.of_nat (length d) <= 64000) as Hd by lia.
  destruct (run_finish st f R d _ r Hb Hr Hd) as (st' & Hf & Hl' & Hg').
  exists st'. split; [by rewrite He|]. intros m ri bn.
  assert (forall n, 0 <= n < FSSIZE -> block_in m n = final f r d n) as Hg by (intros n Hn; by apply disk_block).
  assert (ri = set_i_size (root_size d) r) as -> by (apply (inode_at_root st f R d _ r Hb Hr Hd m Hg)).
  assert (Z.of_nat (length d) = bn * BSIZE) as Hbn.
  { rewrite Hl. apply (f_equal Z.of_nat) in Hmod. rewrite Nat2Z.inj_mod in Hmod. unfold bn. pose proof (Z.div_mod (Z.of_nat (length files + 2)) 32 ltac:(done)).
    change (Z.of_nat 32) with 32 in Hmod. unfold BSIZE. lia. }
  split; [cbn [i_size set_i_size]; unfold root_size; by rewrite Hbn, Z.div_mul|].
  pose proof (root_has st f R d _ r Hb Hr) as [F1 F2 F3 _ _]. cbn [fst snd] in *. assert (i_size r = Z.of_nat (length d)) as Hsz by (by rewrite F1).
  change (iblk (block_in m) r bn = 0). rewrite (other_iblk f).
  - apply (ft_blk _ _ _ F3); [|lia]. change MAXFILE with 140. unfold BSIZE in Hbn. lia.
  - intros n Hn. apply (image_same st f R d _ r Hb Hr _ Hg). left. by apply (fo_own _ _ _ _ F2).
Qed.

End Contents.

(** ** Examples *)

(** A README in two reads, and a program. *)
Definition sample_sources : list source :=
  [mkSource [82; 69; 65; 68; 77; 69] (Some [[120; 118; 54]; [10]]); mkSource [95; 99; 97; 116] (Some [replicate 512 7; replicate 100 7])].


Lemma mkfs_root_gap_witness : exists st, main (Some true) (replicate 30 (mkSource [97] (Some []))) mk_start = Ret tt st /\
  i_size (inode_at (disk_of st) ROOTINO) = 1024 /\ iblk (block_in (disk_of st)) (inode_at (disk_of st) ROOTINO) 1 = 0.
Proof.
  apply (mkfs_root_gap (replicate 30 (mkSource [97] (Some [])))).
  - apply Forall_replicate. repeat constructor; vm_compute; discriminate.
  - reflexivity.
  - vm_compute. discriminate.
  - reflexivity.
Defined.
