(* ===== verification/Irq.v ===== *)
(** * Processors and interrupt controllers (mp.c, ioapic.c, lapic.c, picirq.c, kshutdown.c)

    Finding the processors in the tables of the BIOS, programming the interrupt
    controllers, and reading the clock.  Memory is a function from addresses to bytes;
    the device registers are a parameter [D]: ports ([Devices] of Console) and registers
    in memory ([Mmio]).  [fuel] bounds the loops that wait for a device, and the one over
    the table of processors, which need not end. *)

From stdpp Require Import base tactics list strings.
From Stdlib Require Import ZArith Lia.
From S2P Require Import Prelude Params StringC Spinlock Words Console.
Open Scope Z_scope.

(** Registers in memory, read and written as words. *)
Class Mmio (D : Type) := {
  mm_read : Z -> D -> Z * D;
  mm_write : Z -> Z -> D -> D
}.

Record hw {D : Type} := mkHw {
  hw_mem : memory;
  hw_mach : mach;      (* cpus, ncpu *)
  ioapicid : Z;
  lapic : Z;
  hw_dev : D
}.
Arguments hw D : clear implicits.
Arguments mkHw {D}.

(** mp.h: the fields are at their offsets in the structures. *)
Definition sizeof_mp : Z := 16.
Definition mp_physaddr (m : memory) (p : Z) : Z := load_word m (p + 4).
Definition mp_imcrp (m : memory) (p : Z) : Z := m (p + 12).
Definition sizeof_mpconf : Z := 44.
Definition conf_length (m : memory) (c : Z) : Z := le_val [m (c + 4); m (c + 5)].
Definition conf_version (m : memory) (c : Z) : Z := m (c + 6).
Definition conf_lapicaddr (m : memory) (c : Z) : Z := load_word m (c + 36).
Definition sizeof_mpproc : Z := 20.
Definition sizeof_mpioapic : Z := 8.
Definition MPPROC : Z := 0.
Definition MPBUS : Z := 1.
Definition MPIOAPIC : Z := 2.
Definition MPIOINTR : Z := 3.
Definition MPLINTR : Z := 4.

(** ioapic.c: registers, and bits of an entry of the redirection table. *)
Definition IOAPIC : Z := 0xFEC00000.
Definition IOAPIC_DATA : Z := IOAPIC + 16.
Definition REG_ID : Z := 0x00.
Definition REG_VER : Z := 0x01.
Definition REG_TABLE : Z := 0x10.
Definition INT_DISABLED : Z := 0x00010000.

(** lapic.c: registers as indices of words. *)
Definition ID : Z := 0x0020 / 4.
Definition VER : Z := 0x0030 / 4.
Definition TPR : Z := 0x0080 / 4.
Definition EOI : Z := 0x00B0 / 4.
Definition SVR : Z := 0x00F0 / 4.
Definition ENABLE : Z := 0x00000100.
Definition ESR : Z := 0x0280 / 4.
Definition ICRLO : Z := 0x0300 / 4.
Definition INIT : Z := 0x00000500.
Definition STARTUP : Z := 0x00000600.
Definition DELIVS : Z := 0x00001000.
Definition ASSERT : Z := 0x00004000.
Definition LEVEL : Z := 0x00008000.
Definition BCAST : Z := 0x00080000.
Definition ICRHI : Z := 0x0310 / 4.
Definition TIMER : Z := 0x0320 / 4.
Definition X1 : Z := 0x0000000B.
Definition PERIODIC : Z := 0x00020000.
Definition PCINT : Z := 0x0340 / 4.
Definition LINT0 : Z := 0x0350 / 4.
Definition LINT1 : Z := 0x0360 / 4.
Definition ERROR : Z := 0x0370 / 4.
Definition MASKED : Z := 0x00010000.
Definition TICR : Z := 0x0380 / 4.
Definition TDCR : Z := 0x03E0 / 4.
Definition IRQ_ERROR : Z := 19.

Definition CMOS_PORT : Z := 0x70.
Definition CMOS_RETURN : Z := 0x71.
Definition CMOS_STATA : Z := 0x0a.
Definition CMOS_STATB : Z := 0x0b.
Definition CMOS_UIP : Z := Z.shiftl 1 7.
Definition SECS : Z := 0x00.
Definition MINS : Z := 0x02.
Definition HOURS : Z := 0x04.
Definition DAY : Z := 0x07.
Definition MONTH : Z := 0x08.
Definition YEAR : Z := 0x09.

(** date.h *)
Record rtcdate := mkDate { second : Z; minute : Z; hour : Z; day : Z; month : Z; year : Z }.
#[global] Instance rtcdate_eq : EqDecision rtcdate.
Proof. solve_decision. Defined.

(** [CONV(x)] *)
Definition conv (x : Z) : Z := u32 (Z.shiftr x 4 * 10 + Z.land x 0xf).
Definition conv_date (t : rtcdate) : rtcdate :=
  mkDate (conv (second t)) (conv (minute t)) (conv (hour t)) (conv (day t)) (conv (month t)) (conv (year t)).

(** picirq.c *)
Definition IO_PIC1 : Z := 0x20.
Definition IO_PIC2 : Z := 0xA0.

(** *** mp.c *)

Fixpoint sum_loop (m : memory) (addr : Z) (len : nat) (sum : Z) : Z :=
  match len with O => sum | S len => sum_loop m (addr + 1) len (i32 (sum + m addr)) end.
Definition sum_bytes (m : memory) (addr len : Z) : Z := u8 (sum_loop m addr (Z.to_nat len) 0).

(** [memcmp(p, sig, 4) == 0] *)
Definition has_sig (m : memory) (p : Z) (sig : list Z) : bool := bool_decide ([m p; m (p + 1); m (p + 2); m (p + 3)] = sig).
Definition sig_MP : list Z := [95; 77; 80; 95].
Definition sig_PCMP : list Z := [80; 67; 77; 80].

Fixpoint mpsearch_loop (m : memory) (k : nat) (p e : Z) : option Z :=
  match k with
  | O => None
  | S k =>
      if p <? e then
        if has_sig m p sig_MP && (sum_bytes m p sizeof_mp =? 0) then Some p else mpsearch_loop m k (u32 (p + sizeof_mp)) e
      else None
  end.
Section Ops.
Context {D : Type} `{DV : Devices D} `{MM : Mmio D} (fuel : nat).
Abbreviation K := (M (hw D)).
Implicit Types (h : hw D).

Definition set_mem (v : memory) h : hw D := mkHw v (hw_mach h) (ioapicid h) (lapic h) (hw_dev h).
Definition set_mach (v : mach) h : hw D := mkHw (hw_mem h) v (ioapicid h) (lapic h) (hw_dev h).
Definition set_ioapicid (v : Z) h : hw D := mkHw (hw_mem h) (hw_mach h) v (lapic h) (hw_dev h).
Definition set_lapic (v : Z) h : hw D := mkHw (hw_mem h) (hw_mach h) (ioapicid h) v (hw_dev h).
Definition set_dev (v : D) h : hw D := mkHw (hw_mem h) (hw_mach h) (ioapicid h) (lapic h) v.

Definition inb (port : Z) : K Z :=
  d <- gets hw_dev ;;
  modify (set_dev (snd (dev_in port d))) ;;;
  ret (u8 (fst (dev_in port d))).
Definition outb (port data : Z) : K unit := d <- gets hw_dev ;; modify (set_dev (dev_out port (u8 data) d)).
Definition reg_read (a : Z) : K Z :=
  d <- gets hw_dev ;;
  modify (set_dev (snd (mm_read a d))) ;;;
  ret (u32 (fst (mm_read a d))).
Definition reg_write (a v : Z) : K unit := d <- gets hw_dev ;; modify (set_dev (mm_write a (u32 v) d)).

(** memlayout.h *)
Definition P2V (a : Z) : K Z := if KERNBASE <? a then panic "P2V on address > KERNBASE" else ret (u32 (a + KERNBASE)).

Definition mpsearch1 (a len : Z) : K (option Z) :=
  addr <- P2V a ;;
  m <- gets hw_mem ;;
  ret (mpsearch_loop m (Z.to_nat (len / sizeof_mp + 1)) addr (u32 (addr + len))).

Definition mpsearch : K (option Z) :=
  bda <- P2V 0x400 ;;
  m <- gets hw_mem ;;
  let p := Z.shiftl (Z.lor (Z.shiftl (m (bda + 0x0F)) 8) (m (bda + 0x0E))) 4 in
  mp <- (if negb (p =? 0) then mpsearch1 p 1024
         else let p := Z.lor (Z.shiftl (m (bda + 0x14)) 8) (m (bda + 0x13)) * 1024 in mpsearch1 (u32 (p - 1024)) 1024) ;;
  match mp with Some mp => ret (Some mp) | None => mpsearch1 0xF0000 0x10000 end.

(** The floating pointer and the table. *)
Definition mpconfig : K (option (Z * Z)) :=
  mp <- mpsearch ;;
  match mp with
  | None => ret None
  | Some mp =>
      m <- gets hw_mem ;;
      if mp_physaddr m mp =? 0 then ret None else
      conf <- P2V (mp_physaddr m mp) ;;
      if negb (has_sig m conf sig_PCMP) then ret None else
      if negb (conf_version m conf =? 1) && negb (conf_version m conf =? 4) then ret None else
      if negb (sum_bytes m conf (conf_length m conf) =? 0) then ret None else
      ret (Some (mp, conf))
  end.

(** [if(ncpu < NCPU) { cpus[ncpu].apicid = ...; ncpu++; }] *)
Definition add_cpu (id : Z) (x : mach) : mach :=
  if (ncpu x <? NCPU)%nat then set_ncpu (S (ncpu x)) (set_cpus (alter (set_apicid id) (ncpu x) (cpus x)) x) else x.

(** The loop over the entries: at an entry of another type it only clears [ismp]. *)
Fixpoint mp_entries (k : nat) (p e : Z) (ismp : bool) : K bool :=
  match k with
  | O => fuel_out
  | S k =>
      if p <? e then
        m <- gets hw_mem ;;
        let ty := m p in
        if ty =? MPPROC then
          modify (fun h => set_mach (add_cpu (m (p + 1)) (hw_mach h)) h) ;;;
          mp_entries k (u32 (p + sizeof_mpproc)) e ismp
        else if ty =? MPIOAPIC then
          modify (set_ioapicid (m (p + 1))) ;;;
          mp_entries k (u32 (p + sizeof_mpioapic)) e ismp
        else if (ty =? MPBUS) || (ty =? MPIOINTR) || (ty =? MPLINTR) then mp_entries k (u32 (p + 8)) e ismp
        else mp_entries k p e false
      else ret ismp
  end.

Definition mpinit : K unit :=
  c <- mpconfig ;;
  m <- gets hw_mem ;;
  match c with
  | None => panic "Expect to run on an SMP"
  | Some (mp, conf) =>
      modify (set_lapic (conf_lapicaddr m conf)) ;;;
      ismp <- mp_entries fuel (u32 (conf + sizeof_mpconf)) (u32 (conf + conf_length m conf)) true ;;
      if negb ismp then panic "Didn't find a suitable machine" else
      when (negb (mp_imcrp m mp =? 0))
        (outb 0x22 0x70 ;;;
         v <- inb 0x23 ;;
         outb 0x23 (Z.lor v 1))
  end.

(** *** ioapic.c *)

Definition ioapicread (reg : Z) : K Z :=
  reg_write IOAPIC reg ;;;
  reg_read IOAPIC_DATA.
Definition ioapicwrite (reg data : Z) : K unit :=
  reg_write IOAPIC reg ;;;
  reg_write IOAPIC_DATA data.

(** The entry of an interrupt. *)
Definition set_entry (irq lo hi : Z) : K unit :=
  ioapicwrite (REG_TABLE + 2 * irq) lo ;;;
  ioapicwrite (REG_TABLE + 2 * irq + 1) hi.

(** [cprintf] is the console's. *)
Definition ioapicinit (cprintf : string -> K unit) : K unit :=
  v <- ioapicread REG_VER ;;
  let maxintr := Z.land (Z.shiftr v 16) 0xFF in
  v <- ioapicread REG_ID ;;
  let id := Z.shiftr v 24 in
  x <- gets ioapicid ;;
  when (negb (id =? x)) (cprintf "ioapicinit: id isn't equal to ioapicid; not a MP") ;;;
  for_each (seqZ 0 (maxintr + 1)) (fun i => set_entry i (Z.lor INT_DISABLED (T_IRQ0 + i)) 0).

Definition ioapicenable (irq cpunum : Z) : K unit := set_entry irq (T_IRQ0 + irq) (Z.shiftl cpunum 24).

(** *** lapic.c *)

Definition lapic_read (index : Z) : K Z :=
  l <- gets lapic ;;
  reg_read (l + 4 * index).
Definition lapicw (index value : Z) : K unit :=
  l <- gets lapic ;;
  reg_write (l + 4 * index) value ;;;
  _ <- lapic_read ID ;;
  ret tt.

(** [while(lapic[ICRLO] & DELIVS) ;] *)
Fixpoint wait_delivs (k : nat) : K unit :=
  match k with
  | O => fuel_out
  | S k => v <- lapic_read ICRLO ;; if negb (Z.land v DELIVS =? 0) then wait_delivs k else ret tt
  end.

Definition lapicinit : K unit :=
  l <- gets lapic ;;
  if l =? 0 then ret tt else
  lapicw SVR (Z.lor ENABLE (T_IRQ0 + IRQ_SPURIOUS)) ;;;
  lapicw TDCR X1 ;;;
  lapicw TIMER (Z.lor PERIODIC (T_IRQ0 + IRQ_TIMER)) ;;;
  lapicw TICR 10000000 ;;;
  lapicw LINT0 MASKED ;;;
  lapicw LINT1 MASKED ;;;
  v <- lapic_read VER ;;
  when (4 <=? Z.land (Z.shiftr v 16) 0xFF) (lapicw PCINT MASKED) ;;;
  lapicw ERROR (T_IRQ0 + IRQ_ERROR) ;;;
  lapicw ESR 0 ;;;
  lapicw ESR 0 ;;;
  lapicw EOI 0 ;;;
  lapicw ICRHI 0 ;;;
  lapicw ICRLO (Z.lor (Z.lor BCAST INIT) LEVEL) ;;;
  wait_delivs fuel ;;;
  lapicw TPR 0.

Definition lapicid : K Z :=
  l <- gets lapic ;;
  if l =? 0 then ret 0 else
  v <- lapic_read ID ;;
  ret (Z.shiftr v 24).

Definition lapiceoi : K unit :=
  l <- gets lapic ;;
  when (negb (l =? 0)) (lapicw EOI 0).

Definition microdelay (us : Z) : K unit := ret tt.

(** [wrv[i] = v], an [ushort]. *)
Definition store16 (a v : Z) : K unit :=
  modify (fun h => set_mem (upd (upd (hw_mem h) a (Z.land v 0xff)) (a + 1) (Z.land (Z.shiftr v 8) 0xff)) h).

(** One of the two startup interrupts. *)
Definition startup_ipi (apicid addr : Z) : K unit :=
  lapicw ICRHI (Z.shiftl apicid 24) ;;;
  lapicw ICRLO (Z.lor STARTUP (Z.shiftr addr 12)) ;;;
  microdelay 200.

Definition lapicstartap (apicid addr : Z) : K unit :=
  outb CMOS_PORT 0xF ;;;
  outb (CMOS_PORT + 1) 0x0A ;;;
  wrv <- P2V (Z.lor (Z.shiftl 0x40 4) 0x67) ;;
  store16 wrv 0 ;;;
  store16 (wrv + 2) (Z.shiftr addr 4) ;;;
  lapicw ICRHI (Z.shiftl apicid 24) ;;;
  lapicw ICRLO (Z.lor (Z.lor INIT LEVEL) ASSERT) ;;;
  microdelay 200 ;;;
  lapicw ICRLO (Z.lor INIT LEVEL) ;;;
  microdelay 100 ;;;
  startup_ipi apicid addr ;;;
  startup_ipi apicid addr.

Definition cmos_read (reg : Z) : K Z :=
  outb CMOS_PORT reg ;;;
  microdelay 200 ;;;
  inb CMOS_RETURN.

Definition fill_rtcdate : K rtcdate :=
  s <- cmos_read SECS ;;
  m <- cmos_read MINS ;;
  h <- cmos_read HOURS ;;
  d <- cmos_read DAY ;;
  mo <- cmos_read MONTH ;;
  y <- cmos_read YEAR ;;
  ret (mkDate s m h d mo y).

(** The loop of [cmostime]. *)
Fixpoint stable_date (k : nat) : K rtcdate :=
  match k with
  | O => fuel_out
  | S k =>
      t1 <- fill_rtcdate ;;
      a <- cmos_read CMOS_STATA ;;
      if negb (Z.land a CMOS_UIP =? 0) then stable_date k else
      t2 <- fill_rtcdate ;;
      if bool_decide (t1 = t2) then ret t1 else stable_date k
  end.

Definition cmostime : K rtcdate :=
  sb <- cmos_read CMOS_STATB ;;
  let bcd := Z.land sb (Z.shiftl 1 2) =? 0 in
  t1 <- stable_date fuel ;;
  let t := if bcd then conv_date t1 else t1 in
  ret (mkDate (second t) (minute t) (hour t) (day t) (month t) (u32 (year t + 2000))).

(** *** picirq.c, kshutdown.c *)

Definition picinit : K unit :=
  outb (IO_PIC1 + 1) 0xFF ;;;
  outb (IO_PIC2 + 1) 0xFF.

Definition shutdown : K unit := outb 0x501 0x0.

End Ops.
