(* ===== verification/IrqFacts.v ===== *)
(** * Processors, interrupt routing and the clock

    [mpinit] finds the processors a well formed table lists, and loops for ever at an
    entry of a type it does not know; the I/O interrupt controller routes the interrupts
    that were enabled and no other; the clock is read as it is set. *)

From stdpp Require Import base tactics list strings.
From Stdlib Require Import ZArith Lia.
From S2P Require Import Prelude Params StringC Spinlock Words Console Irq.
Open Scope Z_scope.

(** ** The table of processors *)

(** An entry: a processor, an I/O interrupt controller, or one of the types 1, 3, 4. *)
Inductive mpentry :=
| EProc (id : Z) (rest : list Z)
| EIoapic (id : Z) (rest : list Z)
| EOther (ty : Z) (rest : list Z).

Definition encode (e : mpentry) : list Z :=
  match e with EProc id rest => MPPROC :: id :: rest | EIoapic id rest => MPIOAPIC :: id :: rest | EOther ty rest => ty :: rest end.
Definition entry_ok (e : mpentry) : Prop :=
  match e with
  | EProc _ rest => length rest = 18%nat
  | EIoapic _ rest => length rest = 6%nat
  | EOther ty rest => (ty = MPBUS \/ ty = MPIOINTR \/ ty = MPLINTR) /\ length rest = 7%nat
  end.
Definition encoded (es : list mpentry) : list Z := concat (map encode es).

Definition bytes_in (m : memory) (p : Z) (l : list Z) : Prop := forall i b, l !! i = Some b -> m (p + Z.of_nat i) = b.

Lemma bytes_in_app m p l k : bytes_in m p (l ++ k) -> bytes_in m p l /\ bytes_in m (p + Z.of_nat (length l)) k.
Proof.
  intros H. split; intros i b Hi.
  - apply H. by apply lookup_app_l_Some.
  - replace (p + Z.of_nat (length l) + Z.of_nat i) with (p + Z.of_nat (length l + i)) by lia. apply H.
    rewrite lookup_app_r by lia. rewrite <- Hi. f_equal. lia.
Qed.

Lemma bytes_in_cons m p b l : bytes_in m p (b :: l) -> m p = b /\ bytes_in m (p + 1) l.
Proof. intros [H1 H2]%(bytes_in_app m p [b] l). split; [|done]. specialize (H1 0%nat b eq_refl). by rewrite Z.add_0_r in H1. Qed.

Section Table.
Context {D : Type} `{DV : Devices D} `{MM : Mmio D}.
Implicit Types (h : hw D) (es : list mpentry).

Definition apply_entry h (e : mpentry) : hw D :=
  match e with
  | EProc id _ => set_mach (add_cpu id (hw_mach h)) h
  | EIoapic id _ => set_ioapicid id h
  | EOther _ _ => h
  end.

Lemma apply_mem es : forall h, hw_mem (foldl apply_entry h es) = hw_mem h.
Proof. induction es as [|e es IH]; intros h; [done|]. cbn [foldl]. rewrite IH. by destruct e. Qed.

(** The loop passes over an entry that is in order. *)
Lemma mp_entries_step x k p e ismp h : bytes_in (hw_mem h) p (encode x) -> entry_ok x -> 0 <= p ->
  p + Z.of_nat (length (encode x)) <= e -> e < 2 ^ 32 ->
  mp_entries (S k) p e ismp h = mp_entries k (p + Z.of_nat (length (encode x))) e ismp (apply_entry h x).
Proof.
  intros Hb Hx Hp He Hmax. assert (0 < Z.of_nat (length (encode x))) as Hpos by (destruct x; cbn [encode length]; lia).
  cbn [mp_entries]. rewrite (proj2 (Z.ltb_lt p e)) by lia. rewrite bind_gets. cbv zeta.
  destruct x as [id rest|id rest|ty rest]; apply bytes_in_cons in Hb as [-> Hb]; cbn [encode length entry_ok] in *.
  - rewrite Z.eqb_refl. destruct (bytes_in_cons _ _ _ _ Hb) as [-> _]. rewrite bind_modify.
    unfold sizeof_mpproc. rewrite u32_id by lia. f_equal. lia.
  - change (MPIOAPIC =? MPPROC) with false. rewrite Z.eqb_refl. destruct (bytes_in_cons _ _ _ _ Hb) as [-> _]. rewrite bind_modify.
    unfold sizeof_mpioapic. rewrite u32_id by lia. f_equal. lia.
  - destruct Hx as [Ht Hl].
    assert ((ty =? MPPROC) = false /\ (ty =? MPIOAPIC) = false /\ (ty =? MPBUS) || (ty =? MPIOINTR) || (ty =? MPLINTR) = true) as (-> & -> & ->).
    { by destruct Ht as [->|[->| ->]]. }
    rewrite u32_id by lia. f_equal. lia.
Qed.

Lemma encoded_cons x es : encoded (x :: es) = encode x ++ encoded es.
Proof. done. Qed.

Lemma mp_entries_all es : forall k p ismp h, bytes_in (hw_mem h) p (encoded es) -> Forall entry_ok es -> 0 <= p ->
  let e := p + Z.of_nat (length (encoded es)) in e < 2 ^ 32 -> (length es < k)%nat ->
  mp_entries k p e ismp h = Ret ismp (foldl apply_entry h es).
Proof.
  induction es as [|x es IH]; intros k p ismp h Hb Hok Hp e He Hk; (destruct k as [|k]; [lia|]).
  { unfold e. cbn [encoded map concat length foldl mp_entries]. by rewrite Z.add_0_r, Z.ltb_irrefl. }
  apply Forall_cons in Hok as [Hx Hok]. unfold e in *. rewrite encoded_cons, length_app, Nat2Z.inj_add in *. apply bytes_in_app in Hb as [Hb1 Hb2].
  rewrite (mp_entries_step x) by (done || lia). rewrite Z.add_assoc. cbn [foldl]. apply IH; [by destruct x|done|lia|lia|cbn [length] in Hk; lia].
Qed.

(** At an entry of an unknown type the loop never ends. *)
Lemma mp_entries_stuck p e : p < e -> forall k ismp h, 4 < hw_mem h p -> mp_entries k p e ismp h = Fuel.
Proof.
  intros Hpe. induction k as [|k IH]; intros ismp h Ht; [done|]. cbn [mp_entries]. rewrite (proj2 (Z.ltb_lt p e)) by done. rewrite bind_gets. cbv zeta.
  unfold MPPROC, MPIOAPIC, MPBUS, MPIOINTR, MPLINTR. rewrite !(proj2 (Z.eqb_neq (hw_mem h p) _)) by lia. cbn [orb]. by apply IH.
Qed.

Lemma mp_entries_hang es ty e : 4 < ty -> e < 2 ^ 32 -> forall k p ismp h, bytes_in (hw_mem h) p (encoded es ++ [ty]) -> Forall entry_ok es -> 0 <= p ->
  p + Z.of_nat (length (encoded es)) < e -> mp_entries k p e ismp h = Fuel.
Proof.
  intros Hty He. induction es as [|x es IH]; intros k p ismp h Hb Hok Hp Hlt.
  { cbn [encoded map concat length app] in *. apply bytes_in_cons in Hb as [Hty' _]. apply mp_entries_stuck; [lia|]. by rewrite Hty'. }
  apply Forall_cons in Hok as [Hx Hok]. destruct k as [|k]; [done|]. rewrite encoded_cons, <- app_assoc in Hb. rewrite encoded_cons, length_app in Hlt.
  apply bytes_in_app in Hb as [Hb1 Hb2]. rewrite (mp_entries_step x) by (done || lia). apply IH; [by destruct x|done|lia|lia].
Qed.

(** ** The processors that are found *)

Definition proc_ids es : list Z := omap (fun e => match e with EProc id _ => Some id | _ => None end) es.
Definition ioapic_ids es : list Z := omap (fun e => match e with EIoapic id _ => Some id | _ => None end) es.

(** The ids of the processors in use. *)
Definition cpu_ids (x : mach) : list Z := map apicid (take (ncpu x) (cpus x)).

Lemma add_cpu_ids id x : length (cpus x) = NCPU -> (ncpu x <= NCPU)%nat ->
  cpu_ids (add_cpu id x) = take NCPU (cpu_ids x ++ [id]) /\ length (cpus (add_cpu id x)) = NCPU /\ (ncpu (add_cpu id x) <= NCPU)%nat.
Proof.
  intros Hl Hn. assert (length (cpu_ids x) = ncpu x) as Hlen by (unfold cpu_ids; rewrite length_map, length_take; lia).
  unfold add_cpu. destruct (Nat.ltb_spec (ncpu x) NCPU) as [Hlt|Hge].
  - cbn [cpus ncpu set_ncpu set_cpus]. rewrite length_alter. split; [|split; [done|lia]]. rewrite take_ge by (rewrite length_app; cbn [length]; lia).
    unfold cpu_ids. cbn [cpus ncpu set_ncpu set_cpus]. destruct (lookup_lt_is_Some_2 (cpus x) (ncpu x)) as [c Hc]; [lia|].
    rewrite (take_S_r _ _ (set_apicid id c)) by (by rewrite list_lookup_alter_eq, Hc). rewrite map_app, take_alter_ge by lia. done.
  - split; [|done]. rewrite take_app_le by lia. rewrite take_ge by lia. done.
Qed.

Lemma found_cpus es : forall h, length (cpus (hw_mach h)) = NCPU -> (ncpu (hw_mach h) <= NCPU)%nat ->
  cpu_ids (hw_mach (foldl apply_entry h es)) = take NCPU (cpu_ids (hw_mach h) ++ proc_ids es).
Proof.
  induction es as [|x es IH]; intros h Hl Hn; cbn [foldl].
  { change (proc_ids []) with (@nil Z). rewrite app_nil_r, take_ge; [done|]. unfold cpu_ids. rewrite length_map, length_take. lia. }
  destruct x as [id rest|id rest|ty rest]; [|by apply (IH (set_ioapicid id h))|by apply (IH h)].
  destruct (add_cpu_ids id (hw_mach h) Hl Hn) as (E & Hl' & Hn'). rewrite IH by done. cbn [apply_entry hw_mach set_mach]. rewrite E.
  change (proc_ids (EProc id rest :: es)) with ([id] ++ proc_ids es). rewrite (app_assoc (cpu_ids (hw_mach h))).
  set (a := cpu_ids (hw_mach h) ++ [id]). destruct (Nat.le_gt_cases (length a) NCPU).
  - by rewrite (take_ge a) by done.
  - rewrite !take_app_le by (rewrite ?length_take; lia). by rewrite take_take.
Qed.

Lemma found_ioapic es : forall h, ioapicid (foldl apply_entry h es) = default (ioapicid h) (last (ioapic_ids es)).
Proof.
  induction es as [|x es IH]; intros h; [done|]. cbn [foldl]. rewrite IH. destruct x as [id rest|id rest|ty rest]; [done| |done].
  cbn [apply_entry ioapicid set_ioapicid]. change (ioapic_ids (EIoapic id rest :: es)) with (id :: ioapic_ids es).
  rewrite last_cons. by destruct (last (ioapic_ids es)).
Qed.

Lemma found_lapic es : forall h, lapic (foldl apply_entry h es) = lapic h.
Proof. induction es as [|x es IH]; intros h; [done|]. cbn [foldl]. rewrite IH. by destruct x. Qed.

(** C26: [mpinit] finds the processors.  When the BIOS has a configuration table, with
    entries in order and as long as its header says, [mpinit] returns; the CPUs it knows
    are then those it knew and the processors of the table, in order and at most [NCPU];
    the I/O interrupt controller is the last one of the table, and the local one is where
    the header says. *)
Theorem mpinit_finds_cpus fuel h mp conf es :
  mpconfig h = Ret (Some (mp, conf)) h -> bytes_in (hw_mem h) (conf + sizeof_mpconf) (encoded es) -> Forall entry_ok es -> 0 <= conf ->
  conf_length (hw_mem h) conf = sizeof_mpconf + Z.of_nat (length (encoded es)) -> conf + conf_length (hw_mem h) conf < 2 ^ 32 ->
  (length es < fuel)%nat -> length (cpus (hw_mach h)) = NCPU -> (ncpu (hw_mach h) <= NCPU)%nat ->
  exists h', mpinit fuel h = Ret tt h' /\ hw_mem h' = hw_mem h /\
    cpu_ids (hw_mach h') = take NCPU (cpu_ids (hw_mach h) ++ proc_ids es) /\
    ioapicid h' = default (ioapicid h) (last (ioapic_ids es)) /\ lapic h' = conf_lapicaddr (hw_mem h) conf.
Proof.
  intros Hc Hb Hok Hp Hl He Hf Hn1 Hn2. unfold mpinit. rewrite (bind_Ret _ _ _ _ _ Hc), bind_gets, bind_modify. cbn [hw_mem set_lapic].
  set (h1 := set_lapic _ h). unfold sizeof_mpconf in *. rewrite !u32_id by lia. rewrite Hl, Z.add_assoc.
  rewrite (bind_Ret _ _ _ _ _ (mp_entries_all es fuel (conf + 44) true h1 Hb Hok ltac:(lia) ltac:(lia) Hf)). cbn [negb].
  assert (forall h', hw_mem h' = hw_mem (foldl apply_entry h1 es) -> hw_mach h' = hw_mach (foldl apply_entry h1 es) ->
    ioapicid h' = ioapicid (foldl apply_entry h1 es) -> lapic h' = lapic (foldl apply_entry h1 es) ->
    hw_mem h' = hw_mem h /\ cpu_ids (hw_mach h') = take NCPU (cpu_ids (hw_mach h) ++ proc_ids es) /\
    ioapicid h' = default (ioapicid h) (last (ioapic_ids es)) /\ lapic h' = conf_lapicaddr (hw_mem h) conf) as Hfin.
  { intros h' -> -> -> ->. rewrite apply_mem, found_cpus, found_ioapic, found_lapic by done. done. }
  destruct (negb (mp_imcrp (hw_mem h) mp =? 0)); cbn [when]; eexists; (split; [reflexivity|]); by apply Hfin.
Qed.

(** C32: At an entry of a type it does not know [mpinit] never ends: the [break] in its
    [switch] leaves the [switch] and not the loop, so the panic that follows it is not
    reached. *)
Theorem mpinit_unknown_entry fuel h mp conf es ty :
  mpconfig h = Ret (Some (mp, conf)) h -> bytes_in (hw_mem h) (conf + sizeof_mpconf) (encoded es ++ [ty]) -> Forall entry_ok es -> 0 <= conf ->
  4 < ty -> sizeof_mpconf + Z.of_nat (length (encoded es)) < conf_length (hw_mem h) conf -> conf + conf_length (hw_mem h) conf < 2 ^ 32 ->
  mpinit fuel h = Fuel.
Proof.
  intros Hc Hb Hok Hp Hty Hl He. unfold mpinit. rewrite (bind_Ret _ _ _ _ _ Hc), bind_gets, bind_modify. cbn [hw_mem set_lapic]. unfold sizeof_mpconf in *.
  rewrite !u32_id by lia. unfold bind. by rewrite (mp_entries_hang es ty) by (done || lia).
Qed.

End Table.

(** ** Routing of interrupts *)

(** The I/O interrupt controller: a register is chosen, then read or written. *)
Class IoapicLaws (D : Type) `{Mmio D} := {
  io_sel : D -> Z;
  io_reg : D -> memory;
  io_choose v d : io_sel (mm_write IOAPIC v d) = v /\ io_reg (mm_write IOAPIC v d) = io_reg d;
  io_put v d : io_sel (mm_write IOAPIC_DATA v d) = io_sel d /\ io_reg (mm_write IOAPIC_DATA v d) = upd (io_reg d) (io_sel d) v;
  io_get d : fst (mm_read IOAPIC_DATA d) = io_reg d (io_sel d) /\ io_sel (snd (mm_read IOAPIC_DATA d)) = io_sel d /\
    io_reg (snd (mm_read IOAPIC_DATA d)) = io_reg d
}.

Section Routing.
Context {D : Type} `{DV : Devices D} `{IL : IoapicLaws D}.
Implicit Types (h : hw D).
Abbreviation regs h := (io_reg (hw_dev h)).

Lemma ioapicread_ok reg h : 0 <= reg < 2 ^ 32 -> 0 <= regs h reg < 2 ^ 32 ->
  exists h', ioapicread reg h = Ret (regs h reg) h' /\ regs h' = regs h /\ ioapicid h' = ioapicid h.
Proof.
  intros Hr Hv. unfold ioapicread, reg_write, reg_read. rewrite (u32_id reg) by done. set (d1 := mm_write IOAPIC reg (hw_dev h)).
  destruct (io_choose reg (hw_dev h)) as [E1 E2]. fold d1 in E1, E2. destruct (io_get d1) as (E3 & E4 & E5). rewrite E1, E2 in E3.
  eexists. split.
  - rewrite (bind_assoc (gets hw_dev) _ _ h (hw_dev h) h) by done. rewrite bind_modify. fold d1. rewrite bind_gets, bind_modify. cbn [hw_dev set_dev].
    rewrite E3, u32_id by done. reflexivity.
  - cbn [hw_dev set_dev ioapicid]. rewrite E5, E2. done.
Qed.

Lemma ioapicwrite_ok reg v h : 0 <= reg < 2 ^ 32 -> 0 <= v < 2 ^ 32 ->
  exists h', ioapicwrite reg v h = Ret tt h' /\ regs h' = upd (regs h) reg v.
Proof.
  intros Hr Hv. unfold ioapicwrite, reg_write. rewrite !u32_id by done. set (d1 := mm_write IOAPIC reg (hw_dev h)).
  destruct (io_choose reg (hw_dev h)) as [E1 E2]. fold d1 in E1, E2. destruct (io_put v d1) as [_ E4]. rewrite E1, E2 in E4.
  eexists. split; [reflexivity|exact E4].
Qed.

(** Two registers of the table are set. *)
Definition with_entry (m : memory) (irq lo hi : Z) : memory := upd (upd m (REG_TABLE + 2 * irq) lo) (REG_TABLE + 2 * irq + 1) hi.

Lemma set_entry_ok irq lo hi h : 0 <= irq < 256 -> 0 <= lo < 2 ^ 32 -> 0 <= hi < 2 ^ 32 ->
  exists h', set_entry irq lo hi h = Ret tt h' /\ regs h' = with_entry (regs h) irq lo hi.
Proof.
  intros Hi Hlo Hhi. unfold set_entry, REG_TABLE.
  destruct (ioapicwrite_ok (0x10 + 2 * irq) lo h ltac:(lia) Hlo) as (h1 & E1 & R1). rewrite (bind_Ret _ _ _ _ _ E1).
  destruct (ioapicwrite_ok (0x10 + 2 * irq + 1) hi h1 ltac:(lia) Hhi) as (h2 & E2 & R2). exists h2. split; [done|]. by rewrite R2, R1.
Qed.

Lemma with_entry_same m irq lo hi : with_entry m irq lo hi (REG_TABLE + 2 * irq) = lo /\ with_entry m irq lo hi (REG_TABLE + 2 * irq + 1) = hi.
Proof. unfold with_entry, upd. rewrite !Z.eqb_refl. by rewrite (proj2 (Z.eqb_neq _ _)) by lia. Qed.

Lemma with_entry_other m irq lo hi i : i <> irq ->
  with_entry m irq lo hi (REG_TABLE + 2 * i) = m (REG_TABLE + 2 * i) /\ with_entry m irq lo hi (REG_TABLE + 2 * i + 1) = m (REG_TABLE + 2 * i + 1).
Proof. intros Hne. unfold with_entry, upd. by rewrite !(proj2 (Z.eqb_neq _ _)) by lia. Qed.

(** The word that disables interrupt [i]. *)
Definition disabled (i : Z) : Z := Z.lor INT_DISABLED (T_IRQ0 + i).

Lemma disabled_range i : 0 <= i < 256 -> 0 <= disabled i < 2 ^ 32.
Proof.
  intros Hi. assert (forallb (fun i => (0 <=? disabled i) && (disabled i <? 2 ^ 32)) (seqZ 0 256) = true) as Hall by (vm_compute; reflexivity).
  rewrite forallb_forall in Hall. specialize (Hall i). rewrite andb_true_iff, Z.leb_le, Z.ltb_lt in Hall. apply Hall, list_elem_of_In, elem_of_seqZ. lia.
Qed.

(** The loop of [ioapicinit] over the interrupts from [a] on. *)
Lemma disable_all n : forall a h, 0 <= a -> a + Z.of_nat n <= 256 ->
  exists h', for_each (seqZ a (Z.of_nat n)) (fun i => set_entry i (Z.lor INT_DISABLED (T_IRQ0 + i)) 0) h = Ret tt h' /\
    (forall i, a <= i < a + Z.of_nat n -> regs h' (REG_TABLE + 2 * i) = disabled i /\ regs h' (REG_TABLE + 2 * i + 1) = 0) /\
    (forall i, 0 <= i < a -> regs h' (REG_TABLE + 2 * i) = regs h (REG_TABLE + 2 * i) /\ regs h' (REG_TABLE + 2 * i + 1) = regs h (REG_TABLE + 2 * i + 1)).
Proof.
  induction n as [|n IH]; intros a h Ha Hn; [exists h; split; [done|]; split; [lia|done]|].
  rewrite (seqZ_cons _ (Z.of_nat (S n))) by lia. cbn [for_each]. fold (disabled a).
  destruct (set_entry_ok a (disabled a) 0 h ltac:(lia) (disabled_range a ltac:(lia)) ltac:(lia)) as (h1 & E1 & R1). rewrite (bind_Ret _ _ _ _ _ E1).
  replace (Z.pred (Z.of_nat (S n))) with (Z.of_nat n) by lia. destruct (IH (Z.succ a) h1) as (h2 & E2 & R2 & R3); [lia|lia|].
  exists h2. split; [done|]. split; intros i Hi.
  - destruct (decide (i = a)) as [->|Hne]; [|apply R2; lia]. destruct (R3 a ltac:(lia)) as [-> ->]. rewrite R1. apply with_entry_same.
  - destruct (R3 i ltac:(lia)) as [-> ->]. rewrite R1. apply with_entry_other. lia.
Qed.

(** The interrupts the controller has. *)
Definition maxintr (m : memory) : Z := Z.land (Z.shiftr (m REG_VER) 16) 0xFF.

Lemma maxintr_range m : 0 <= maxintr m < 256.
Proof. unfold maxintr. change 0xFF with (Z.ones 8). rewrite Z.land_ones by lia. apply Z.mod_pos_bound. lia. Qed.

(** Interrupts go where they were enabled and nowhere else.  After [ioapicinit] and
    [ioapicenable irq cpunum] the entry of [irq] has its vector, is not disabled, and
    names [cpunum]; every other interrupt of the controller is disabled and names no CPU. *)
Theorem ioapic_routes irq cpunum (cprintf : string -> M (hw D) unit) h : 0 <= irq <= maxintr (regs h) -> 0 <= cpunum < 256 ->
  (forall r, 0 <= regs h r < 2 ^ 32) -> (forall msg x, cprintf msg x = Ret tt x) ->
  exists h', (ioapicinit cprintf ;;; ioapicenable irq cpunum)%kern h = Ret tt h' /\
    regs h' (REG_TABLE + 2 * irq) = T_IRQ0 + irq /\ regs h' (REG_TABLE + 2 * irq + 1) = cpunum * 2 ^ 24 /\
    forall i, 0 <= i <= maxintr (regs h) -> i <> irq -> regs h' (REG_TABLE + 2 * i) = disabled i /\ regs h' (REG_TABLE + 2 * i + 1) = 0.
Proof.
  intros Hirq Hcpu Hreg Hpr. pose proof (maxintr_range (regs h)) as Hmax.
  destruct (ioapicread_ok REG_VER h ltac:(unfold REG_VER; lia) (Hreg _)) as (h1 & E1 & R1 & I1).
  destruct (ioapicread_ok REG_ID h1 ltac:(unfold REG_ID; lia)) as (h2 & E2 & R2 & I2); [rewrite R1; apply Hreg|].
  destruct (disable_all (Z.to_nat (maxintr (regs h) + 1)) 0 h2) as (h3 & E3 & R3 & _); [lia|lia|]. rewrite Z2Nat.id in E3, R3 by lia.
  assert (0 <= Z.shiftl cpunum 24 < 2 ^ 32) as Hhi by (rewrite Z.shiftl_mul_pow2 by lia; lia).
  destruct (set_entry_ok irq (T_IRQ0 + irq) (Z.shiftl cpunum 24) h3 ltac:(lia) ltac:(unfold T_IRQ0; lia) Hhi) as (h4 & E4 & R4).
  exists h4. split.
  - unfold ioapicinit. rewrite (bind_assoc _ _ _ _ _ _ E1), (bind_assoc _ _ _ _ _ _ E2). cbv zeta.
    rewrite (bind_assoc (gets ioapicid) _ _ h2 (ioapicid h2) h2) by done. rewrite (bind_assoc _ _ _ h2 tt h2).
    + fold (maxintr (regs h)). rewrite (bind_Ret _ _ _ _ _ E3). exact E4.
    + destruct (negb _); [apply Hpr|done].
  - rewrite R4. destruct (with_entry_same (regs h3) irq (T_IRQ0 + irq) (Z.shiftl cpunum 24)) as [-> ->].
    rewrite Z.shiftl_mul_pow2 by lia. split; [done|]. split; [done|]. intros i Hi Hne.
    destruct (with_entry_other (regs h3) irq (T_IRQ0 + irq) (cpunum * 2 ^ 24) i Hne) as [-> ->]. apply R3. lia.
Qed.

End Routing.

(** ** The clock *)

(** The clock: the chosen register, for how many more looks at its status it is being
    updated, its registers. *)
Record rtc := mkRtc { rt_sel : Z; rt_busy : nat; rt_regs : memory }.

(** While an update is in progress the time cannot be trusted.  The clock does not start
    another update during the call. *)
Class RtcLaws (D : Type) `{Devices D} := {
  rtc_view : D -> rtc;
  rtc_out v d : rtc_view (dev_out CMOS_PORT v d) = mkRtc v (rt_busy (rtc_view d)) (rt_regs (rtc_view d));
  rtc_in d : let v := rtc_view d in
    rtc_view (snd (dev_in CMOS_RETURN d)) = mkRtc (rt_sel v) (if rt_sel v =? CMOS_STATA then pred (rt_busy v) else rt_busy v) (rt_regs v);
  rtc_status d : let v := rtc_view d in rt_sel v = CMOS_STATA -> Z.testbit (fst (dev_in CMOS_RETURN d)) 7 = (0 <? rt_busy v)%nat;
  rtc_mode d : let v := rtc_view d in rt_sel v = CMOS_STATB -> fst (dev_in CMOS_RETURN d) = rt_regs v CMOS_STATB;
  rtc_value d : let v := rtc_view d in rt_sel v <> CMOS_STATA -> rt_busy v = 0%nat -> fst (dev_in CMOS_RETURN d) = rt_regs v (rt_sel v)
}.

(** What [CONV] decodes. *)
Definition bcd (x : Z) : Z := 16 * (x / 10) + x mod 10.

Lemma conv_bcd x : 0 <= x < 100 -> conv (bcd x) = x.
Proof.
  intros Hx. assert (forallb (fun x => conv (bcd x) =? x) (seqZ 0 100) = true) as Hall by (vm_compute; reflexivity).
  rewrite forallb_forall in Hall. apply Z.eqb_eq, Hall, list_elem_of_In, elem_of_seqZ. lia.
Qed.

Definition date_all (P : Z -> Prop) (t : rtcdate) : Prop :=
  P (second t) /\ P (minute t) /\ P (hour t) /\ P (day t) /\ P (month t) /\ P (year t).
Definition date_map (f : Z -> Z) (t : rtcdate) : rtcdate :=
  mkDate (f (second t)) (f (minute t)) (f (hour t)) (f (day t)) (f (month t)) (f (year t)).

(** The registers of the time. *)
Definition date_in (m : memory) : rtcdate := mkDate (m SECS) (m MINS) (m HOURS) (m DAY) (m MONTH) (m YEAR).

Section Clock.
Context {D : Type} `{RL : RtcLaws D}.
Implicit Types (h : hw D).
Abbreviation clock h := (rtc_view (hw_dev h)).

(** A register is read, whatever it holds. *)
Lemma cmos_read_runs reg h : 0 <= reg < 256 ->
  exists v h', cmos_read reg h = Ret (u8 v) h' /\
    clock h' = mkRtc reg (if reg =? CMOS_STATA then pred (rt_busy (clock h)) else rt_busy (clock h)) (rt_regs (clock h)) /\
    (reg = CMOS_STATA -> Z.testbit v 7 = (0 <? rt_busy (clock h))%nat) /\
    (reg <> CMOS_STATA -> reg = CMOS_STATB \/ rt_busy (clock h) = 0%nat -> v = rt_regs (clock h) reg).
Proof.
  intros Hr. unfold cmos_read, outb, microdelay, inb. rewrite (Z.mod_small reg 256 Hr : u8 reg = reg).
  set (d1 := dev_out CMOS_PORT reg (hw_dev h)). pose proof (rtc_out reg (hw_dev h)) as E1. fold d1 in E1.
  exists (fst (dev_in CMOS_RETURN d1)). eexists. split; [reflexivity|]. cbn [hw_dev set_dev].
  pose proof (rtc_in d1) as E2. pose proof (rtc_status d1) as E3. pose proof (rtc_mode d1) as E4. pose proof (rtc_value d1) as E5. cbv zeta in *.
  rewrite E1 in E2, E3, E4, E5. cbn [rt_sel rt_busy rt_regs] in *. split; [exact E2|]. split; [exact E3|]. intros Hne [->|H0]; [by apply E4|by apply E5].
Qed.

(** A time register. *)
Definition time_reg (reg : Z) : Prop := 0 <= reg < 256 /\ reg <> CMOS_STATA.

Lemma cmos_read_time reg h : time_reg reg ->
  exists v h', cmos_read reg h = Ret v h' /\ rt_busy (clock h') = rt_busy (clock h) /\ rt_regs (clock h') = rt_regs (clock h) /\
    (reg = CMOS_STATB \/ rt_busy (clock h) = 0%nat -> 0 <= rt_regs (clock h) reg < 256 -> v = rt_regs (clock h) reg).
Proof.
  intros [Hr Hne]. destruct (cmos_read_runs reg h Hr) as (v & h' & E & Hc & _ & Hv). exists (u8 v), h'. split; [done|].
  rewrite Hc. cbn [rt_busy rt_regs]. rewrite (proj2 (Z.eqb_neq _ _) Hne). split; [done|]. split; [done|]. intros Hb Hrange. rewrite (Hv Hne Hb). by apply Z.mod_small.
Qed.

Lemma fill_runs h : exists t h', fill_rtcdate h = Ret t h' /\ rt_busy (clock h') = rt_busy (clock h) /\ rt_regs (clock h') = rt_regs (clock h) /\
    (rt_busy (clock h) = 0%nat -> date_all (fun x => 0 <= x < 256) (date_in (rt_regs (clock h))) -> t = date_in (rt_regs (clock h))).
Proof.
  unfold fill_rtcdate.
  destruct (cmos_read_time SECS h ltac:(split; [unfold SECS; lia|done])) as (v1 & h1 & E1 & B1 & R1 & V1). rewrite (bind_Ret _ _ _ _ _ E1).
  destruct (cmos_read_time MINS h1 ltac:(split; [unfold MINS; lia|done])) as (v2 & h2 & E2 & B2 & R2 & V2). rewrite (bind_Ret _ _ _ _ _ E2).
  destruct (cmos_read_time HOURS h2 ltac:(split; [unfold HOURS; lia|done])) as (v3 & h3 & E3 & B3 & R3 & V3). rewrite (bind_Ret _ _ _ _ _ E3).
  destruct (cmos_read_time DAY h3 ltac:(split; [unfold DAY; lia|done])) as (v4 & h4 & E4 & B4 & R4 & V4). rewrite (bind_Ret _ _ _ _ _ E4).
  destruct (cmos_read_time MONTH h4 ltac:(split; [unfold MONTH; lia|done])) as (v5 & h5 & E5 & B5 & R5 & V5). rewrite (bind_Ret _ _ _ _ _ E5).
  destruct (cmos_read_time YEAR h5 ltac:(split; [unfold YEAR; lia|done])) as (v6 & h6 & E6 & B6 & R6 & V6). rewrite (bind_Ret _ _ _ _ _ E6).
  rewrite B5, B4, B3, B2, B1 in *. rewrite R5, R4, R3, R2, R1 in *. eexists _, h6. split; [reflexivity|]. split; [done|]. split; [done|].
  intros Hb (K1 & K2 & K3 & K4 & K5 & K6). unfold date_in. rewrite V1, V2, V3, V4, V5, V6 by (done || by right). done.
Qed.

Lemma uip_bit v : negb (Z.land (u8 v) CMOS_UIP =? 0) = Z.testbit v 7.
Proof. unfold CMOS_UIP. rewrite land_bit by lia. unfold u8. change 256 with (2 ^ 8). by rewrite Z.mod_pow2_bits_low by lia. Qed.

Lemma bcd_range x : 0 <= x < 100 -> 0 <= bcd x < 256.
Proof. intros Hx. unfold bcd. pose proof (Z.div_mod x 10 ltac:(lia)). pose proof (Z.mod_pos_bound x 10 ltac:(lia)). lia. Qed.

Lemma date_all_map (P Q : Z -> Prop) f t : (forall x, P x -> Q (f x)) -> date_all P t -> date_all Q (date_map f t).
Proof. intros HPQ (H1 & H2 & H3 & H4 & H5 & H6). repeat split; cbn; auto. Qed.

Lemma conv_date_bcd t : date_all (fun x => 0 <= x < 100) t -> conv_date (date_map bcd t) = t.
Proof. intros (H1 & H2 & H3 & H4 & H5 & H6). destruct t as [a b c d e f]. unfold conv_date. cbn in *. by rewrite !conv_bcd. Qed.

Lemma stable_ok : forall n fuel h, rt_busy (clock h) = n -> (n < fuel)%nat -> date_all (fun x => 0 <= x < 256) (date_in (rt_regs (clock h))) ->
  exists h', stable_date fuel h = Ret (date_in (rt_regs (clock h))) h'.
Proof.
  induction n as [|n IH]; intros [|fuel] h Hb Hf Hr; try lia; cbn [stable_date].
  all: destruct (fill_runs h) as (t1 & h1 & E1 & B1 & R1 & V1); rewrite (bind_Ret _ _ _ _ _ E1);
    destruct (cmos_read_runs CMOS_STATA h1 ltac:(unfold CMOS_STATA; lia)) as (v & h2 & E2 & C2 & S2 & _); rewrite (bind_Ret _ _ _ _ _ E2), uip_bit, S2, B1, Hb by done;
    rewrite B1, R1, Z.eqb_refl in C2.
  - cbn [Nat.ltb Nat.leb]. destruct (fill_runs h2) as (t2 & h3 & E3 & B3 & R3 & V3). rewrite (bind_Ret _ _ _ _ _ E3). rewrite C2, Hb in V3. cbn [rt_busy rt_regs pred] in V3.
    rewrite V1, V3 by done. rewrite bool_decide_eq_true_2 by done. by exists h3.
  - cbn [Nat.ltb Nat.leb]. destruct (IH fuel h2) as [h3 E3]; [by rewrite C2, Hb|lia|by rewrite C2|]. rewrite C2 in E3. by exists h3.
Qed.

(** [cmostime] returns the time: for a clock set to [t], in decimal digits or in
    binary as its status says, the date it returns is [t] with the year counted from
    2000, also when it is called while the clock is being updated. *)
Theorem cmostime_reads fuel t h : date_all (fun x => 0 <= x < 100) t -> (rt_busy (clock h) < fuel)%nat ->
  0 <= rt_regs (clock h) CMOS_STATB < 256 ->
  date_in (rt_regs (clock h)) = date_map (if Z.testbit (rt_regs (clock h) CMOS_STATB) 2 then id else bcd) t ->
  exists h', cmostime fuel h = Ret (mkDate (second t) (minute t) (hour t) (day t) (month t) (2000 + year t)) h'.
Proof.
  intros Ht Hf Hs Hd. unfold cmostime. destruct (cmos_read_time CMOS_STATB h ltac:(split; [unfold CMOS_STATB; lia|done])) as (v & h1 & E1 & B1 & R1 & V1).
  rewrite (bind_Ret _ _ _ _ _ E1), V1 by (done || by left). cbv zeta.
  set (w := rt_regs (clock h) CMOS_STATB) in *. assert ((Z.land w (Z.shiftl 1 2) =? 0) = negb (Z.testbit w 2)) as ->.
  { rewrite <- (land_bit w 2) by lia. by rewrite negb_involutive. }
  assert (date_all (fun x => 0 <= x < 256) (date_in (rt_regs (clock h1)))) as Hr.
  { rewrite R1, Hd. apply (date_all_map (fun x => 0 <= x < 100)); [|done]. destruct (Z.testbit w 2); intros x Hx; [unfold id; lia|by apply bcd_range]. }
  destruct (stable_ok _ fuel h1 eq_refl ltac:(lia) Hr) as [h2 E2]. rewrite (bind_Ret _ _ _ _ _ E2). exists h2. rewrite R1, Hd. unfold ret.
  assert ((if negb (Z.testbit w 2) then conv_date (date_map (if Z.testbit w 2 then id else bcd) t) else date_map (if Z.testbit w 2 then id else bcd) t) = t) as ->.
  { destruct (Z.testbit w 2); cbn [negb]; [by destruct t|by apply conv_date_bcd]. }
  destruct Ht as (_ & _ & _ & _ & _ & Hy). rewrite u32_id by lia. by rewrite Z.add_comm.
Qed.

End Clock.

(** ** Examples *)

(** An I/O interrupt controller and a clock. *)
Record board := mkBoard { bd_sel : Z; bd_reg : memory; bd_rtc : rtc }.

#[global] Instance board_devices : Devices board := {
  dev_in port d :=
    let v := bd_rtc d in
    if port =? CMOS_RETURN then
      (if rt_sel v =? CMOS_STATA then (if (0 <? rt_busy v)%nat then CMOS_UIP else 0)
       else if (0 <? rt_busy v)%nat && negb (rt_sel v =? CMOS_STATB) then 0 else rt_regs v (rt_sel v),
       mkBoard (bd_sel d) (bd_reg d) (mkRtc (rt_sel v) (if rt_sel v =? CMOS_STATA then pred (rt_busy v) else rt_busy v) (rt_regs v)))
    else (0, d);
  dev_out port b d :=
    if port =? CMOS_PORT then mkBoard (bd_sel d) (bd_reg d) (mkRtc b (rt_busy (bd_rtc d)) (rt_regs (bd_rtc d))) else d
}.

#[global] Instance board_mmio : Mmio board := {
  mm_read a d := (if a =? IOAPIC_DATA then bd_reg d (bd_sel d) else 0, d);
  mm_write a v d :=
    if a =? IOAPIC then mkBoard v (bd_reg d) (bd_rtc d)
    else if a =? IOAPIC_DATA then mkBoard (bd_sel d) (upd (bd_reg d) (bd_sel d) v) (bd_rtc d) else d
}.

#[global, refine] Instance board_ioapic : IoapicLaws board := {| io_sel := bd_sel; io_reg := bd_reg |}.
Proof. all: done. Defined.

#[global, refine] Instance board_clock : RtcLaws board := {| rtc_view := bd_rtc |}.
Proof.
  - done.
  - done.
  - intros d v E. cbn [dev_in board_devices fst]. fold v. change (CMOS_RETURN =? CMOS_RETURN) with true. cbn [fst]. rewrite E. cbn [Z.eqb CMOS_STATA Pos.eqb].
    by destruct (0 <? rt_busy v)%nat.
  - intros d v E. cbn [dev_in board_devices fst]. fold v. change (CMOS_RETURN =? CMOS_RETURN) with true. cbn [fst]. rewrite E.
    change (CMOS_STATB =? CMOS_STATA) with false. change (CMOS_STATB =? CMOS_STATB) with true. by rewrite andb_false_r.
  - intros d v Hne H0. cbn [dev_in board_devices fst]. fold v. change (CMOS_RETURN =? CMOS_RETURN) with true. cbn [fst].
    by rewrite (proj2 (Z.eqb_neq _ _) Hne), H0.
Defined.

(** Bytes at an address, over zeroes. *)
Definition with_bytes (a : Z) (l : list Z) (m : memory) : memory :=
  fun b => if in_range a (Z.of_nat (length l)) b then nth (Z.to_nat (b - a)) l 0 else m b.

(** The byte that makes a structure add up to 0. *)
Definition checksum (l : list Z) : Z := (- foldr Z.add 0 l) mod 256.

(** Two processors, a bus, an I/O interrupt controller. *)
Definition sample_entries : list mpentry :=
  [EProc 0 (replicate 18 0); EProc 4 (replicate 18 0); EOther MPBUS (replicate 7 0); EIoapic 2 (replicate 6 0)].

Definition conf_bytes (length : Z) (body : list Z) : list Z :=
  let head c := sig_PCMP ++ le_bytes 2 length ++ [4; c] ++ replicate 28 0 ++ le_bytes 4 0xFEE00000 ++ replicate 4 0 in
  head (checksum (head 0 ++ body)) ++ body.

Definition mp_bytes : list Z :=
  let s c := sig_MP ++ le_bytes 4 0xF0100 ++ [1; 4; c; 0; 0; 0; 0; 0] in s (checksum (s 0)).

(** The BIOS data area says where the first kilobyte of the extended one is; the tables
    are at 0xF0000. *)
Definition bios (conf : list Z) : memory :=
  with_bytes (KERNBASE + 0x40E) [0xC0; 0x9F] (with_bytes (KERNBASE + 0xF0000) mp_bytes (with_bytes (KERNBASE + 0xF0100) conf (fun _ => 0))).

Definition sample_regs : memory := upd (fun _ => 0) REG_VER 0x170011.
Definition sample_clock : rtc := mkRtc 0 2 (fun r => if r =? YEAR then 0x24 else if r =? MONTH then 0x12 else if r =? CMOS_STATB then 2 else 0x15).
Definition sample_hw (m : memory) : hw board :=
  mkHw m (mkMach (replicate NCPU (mkCpu 0 0 0 0 None None 0 0 0 0 (mkSeg 0 0 0 0 0 0 0 0 0 0 0 0 0))) 0 0 false 0 0) 0 0 (mkBoard 0 sample_regs sample_clock).

Definition sample_table : memory := bios (conf_bytes (44 + 56) (encoded sample_entries)).

(** [mpconfig] only reads. *)
Section Reads.
Context {D : Type}.
Implicit Types (h : hw D).

Lemma mpsearch1_reads a len h c h' : mpsearch1 a len h = Ret c h' -> h' = h.
Proof. unfold mpsearch1, P2V. destruct (KERNBASE <? a); [done|]. rewrite bind_ret, bind_gets. by intros [= _ ->]. Qed.

Lemma mpsearch_reads h c h' : mpsearch h = Ret c h' -> h' = h.
Proof.
  unfold mpsearch, P2V at 1. change (KERNBASE <? 0x400) with false. cbv iota. rewrite bind_ret, bind_gets. intros (mp & h1 & E1 & E2)%bind_inv_Ret.
  assert (h1 = h) as -> by (revert E1; destruct (negb _); intros ?%mpsearch1_reads; done).
  destruct mp; [by injection E2|by eapply mpsearch1_reads].
Qed.

Lemma mpconfig_reads h c h' : mpconfig h = Ret c h' -> h' = h.
Proof.
  unfold mpconfig. intros (mp & h1 & E1%mpsearch_reads & E2)%bind_inv_Ret. subst h1. destruct mp as [mp|]; [|by injection E2].
  revert E2. rewrite bind_gets. unfold P2V. destruct (_ =? 0); [by intros [= _ ->]|]. destruct (KERNBASE <? _); [done|]. rewrite bind_ret.
  repeat match goal with |- context [if ?b then _ else _] => destruct b end; by intros [= _ ->].
Qed.

Lemma mpconfig_eq h c : match mpconfig h with Ret c _ => c | _ => None end = Some c -> mpconfig h = Ret (Some c) h.
Proof. destruct (mpconfig h) as [c' h'| | | | | |] eqn:E; try done. intros ->. by rewrite (mpconfig_reads _ _ _ E). Qed.

End Reads.

Lemma bytes_in_map m p l : map (fun i => m (p + Z.of_nat i)) (seq 0 (length l)) = l -> bytes_in m p l.
Proof.
  intros E i b Hi. rewrite <- E in Hi. rewrite list_lookup_fmap in Hi. destruct (seq 0 (length l) !! i) as [k|] eqn:Ek; [|done].
  apply lookup_seq in Ek as [-> _]. by injection Hi.
Qed.

Lemma mpinit_finds_cpus_witness : exists h', mpinit 5 (sample_hw sample_table) = Ret tt h' /\ cpu_ids (hw_mach h') = [0; 4] /\ ioapicid h' = 2 /\ lapic h' = 0xFEE00000.
Proof.
  destruct (mpinit_finds_cpus 5 (sample_hw sample_table) (KERNBASE + 0xF0000) (KERNBASE + 0xF0100) sample_entries) as (h' & E & _ & H1 & H2 & H3).
  - apply mpconfig_eq. vm_compute. reflexivity.
  - apply bytes_in_map. vm_compute. reflexivity.
  - repeat constructor.
  - vm_compute. discriminate.
  - vm_compute. reflexivity.
  - vm_compute. reflexivity.
  - simpl. lia.
  - reflexivity.
  - simpl. lia.
  - exists h'. split; [exact E|]. split; [exact H1|]. split; [exact H2|]. rewrite H3. vm_compute. reflexivity.
Defined.

Lemma mpinit_unknown_entry_witness : mpinit 1000 (sample_hw (bios (conf_bytes (44 + 28) (encoded [EProc 0 (replicate 18 0)] ++ [7; 0; 0; 0; 0; 0; 0; 0])))) = Fuel.
Proof.
  apply (mpinit_unknown_entry 1000 _ (KERNBASE + 0xF0000) (KERNBASE + 0xF0100) [EProc 0 (replicate 18 0)] 7).
  - apply mpconfig_eq. vm_compute. reflexivity.
  - apply bytes_in_map. vm_compute. reflexivity.
  - repeat constructor.
  - vm_compute. discriminate.
  - reflexivity.
  - vm_compute. reflexivity.
  - vm_compute. reflexivity.
Defined.

Lemma ioapic_routes_witness : exists h', (ioapicinit (fun _ => ret tt) ;;; ioapicenable IRQ_KBD 0)%kern (sample_hw sample_table) = Ret tt h' /\
  bd_reg (hw_dev h') (REG_TABLE + 2 * 1) = 33.
Proof.
  destruct (ioapic_routes IRQ_KBD 0 (fun _ => ret tt) (sample_hw sample_table)) as (h' & E & H1 & _).
  - vm_compute. split; discriminate.
  - lia.
  - intros r. cbn. unfold sample_regs, upd. destruct (r =? REG_VER); lia.
  - done.
  - exists h'. split; [exact E|exact H1].
Defined.

Lemma cmostime_reads_witness : exists h', cmostime 3 (sample_hw sample_table) = Ret (mkDate 15 15 15 15 12 2024) h'.
Proof.
  apply (cmostime_reads 3 (mkDate 15 15 15 15 12 24) (sample_hw sample_table)).
  - repeat split; cbn; lia.
  - cbn. lia.
  - cbn. lia.
  - reflexivity.
Defined.
