(* ===== verification/Bootmain.v ===== *)
(** * The boot loader (bootmain.c)

    [bootmain] loads the kernel, an ELF file that starts at sector 1 of the disk, and
    jumps to it: here it returns the address, or none when the file is not ELF.  Memory is
    physical memory, the disk a parameter as in [Ide].  [fuel] bounds how often a busy
    disk is polled.

    The theorem: after [bootmain] every segment of the kernel is in memory, followed by
    its zeroes. *)

From stdpp Require Import base tactics list strings.
From Stdlib Require Import ZArith Lia.
From S2P Require Import Prelude Params StringC Words Console Vm VmCopy Exec Ide IdeFacts.
Open Scope Z_scope.

Definition SECTSIZE : Z := 512.

(** [struct elfhdr] and [struct proghdr] in memory. *)
Definition load_half (m : memory) (a : Z) : Z := le_val [m a; m (a + 1)].
Definition elf_entry (m : memory) (e : Z) : Z := load_word m (e + 24).
Definition elf_phoff (m : memory) (e : Z) : Z := load_word m (e + 28).
Definition elf_phnum (m : memory) (e : Z) : Z := load_half m (e + 44).
Definition prog_off (m : memory) (p : Z) : Z := load_word m (p + 4).
Definition prog_paddr (m : memory) (p : Z) : Z := load_word m (p + 12).
Definition prog_filesz (m : memory) (p : Z) : Z := load_word m (p + 16).
Definition prog_memsz (m : memory) (p : Z) : Z := load_word m (p + 20).

Record loader {D : Type} := mkLoader { ld_mem : memory; ld_dev : D }.
Arguments loader D : clear implicits.
Arguments mkLoader {D}.

Section Ops.
Context {D : Type} `{DV : Devices D} `{DP : DataPort D} (fuel : nat).
Abbreviation K := (M (loader D)).

Definition boot_in (port : Z) : K Z := fun s =>
  let r := dev_in port (ld_dev s) in Ret (u8 (fst r)) (mkLoader (ld_mem s) (snd r)).
Definition boot_out (port data : Z) : K unit := fun s =>
  Ret tt (mkLoader (ld_mem s) (dev_out port (u8 data) (ld_dev s))).

(** [while((inb(0x1F7) & 0xC0) != 0x40) ;] *)
Fixpoint wait_loop (k : nat) : K unit :=
  match k with
  | O => fuel_out
  | S k => r <- boot_in 0x1F7 ;; if negb (Z.land r 0xC0 =? 0x40) then wait_loop k else ret tt
  end.
Definition waitdisk : K unit := wait_loop fuel.

(** [insl(0x1F0, dst, SECTSIZE/4)] *)
Definition boot_insl (dst : Z) : K unit := fun s =>
  let r := dev_insl 0x1F0 (SECTSIZE / 4) (ld_dev s) in Ret tt (mkLoader (write_bytes (ld_mem s) dst (fst r)) (snd r)).

Definition readsect (dst offset : Z) : K unit :=
  waitdisk ;;;
  boot_out 0x1F2 1 ;;;
  boot_out 0x1F3 offset ;;;
  boot_out 0x1F4 (Z.shiftr offset 8) ;;;
  boot_out 0x1F5 (Z.shiftr offset 16) ;;;
  boot_out 0x1F6 (Z.lor (Z.shiftr offset 24) 0xE0) ;;;
  boot_out 0x1F7 0x20 ;;;
  waitdisk ;;;
  boot_insl dst.

(** [for(; pa < epa; pa += SECTSIZE, offset++) readsect(pa, offset);] *)
Fixpoint readseg_loop (k : nat) (pa epa offset : Z) : K unit :=
  match k with
  | O => fuel_out
  | S k =>
      if pa <? epa then readsect pa offset ;;; readseg_loop k (u32 (pa + SECTSIZE)) epa (u32 (offset + 1))
      else ret tt
  end.

(** The loop reads at most the sectors of [count] bytes and two more. *)
Definition readseg (pa count offset : Z) : K unit :=
  let epa := u32 (pa + count) in
  let pa := u32 (pa - offset mod SECTSIZE) in
  let sector := u32 (offset / SECTSIZE + 1) in
  readseg_loop (Z.to_nat (count / SECTSIZE + 3)) pa epa sector.

(** One program header. *)
Definition load_segment (ph : Z) : K unit :=
  m <- gets ld_mem ;;
  let pa := prog_paddr m ph in
  readseg pa (prog_filesz m ph) (prog_off m ph) ;;;
  m <- gets ld_mem ;;
  when (prog_filesz m ph <? prog_memsz m ph)
    (modify (fun s => mkLoader (stosb (ld_mem s) (u32 (pa + prog_filesz m ph)) 0 (Z.to_nat (prog_memsz m ph - prog_filesz m ph))) (ld_dev s))).

(** [for(; ph < eph; ph++)] *)
Fixpoint load_segments (k : nat) (ph eph : Z) : K unit :=
  match k with
  | O => fuel_out
  | S k => if ph <? eph then load_segment ph ;;; load_segments k (u32 (ph + sizeof_proghdr)) eph else ret tt
  end.

Definition bootmain : K (option Z) :=
  let elf := 0x10000 in
  readseg elf 4096 0 ;;;
  m <- gets ld_mem ;;
  if negb (load_word m elf =? ELF_MAGIC) then ret None else
  let ph := u32 (elf + elf_phoff m elf) in
  let eph := u32 (ph + sizeof_proghdr * elf_phnum m elf) in
  load_segments (S (Z.to_nat (elf_phnum m elf))) ph eph ;;;
  m <- gets ld_mem ;;
  ret (Some (elf_entry m elf)).

End Ops.

(** ** Reading sectors *)

(** The registers select sector [n] of the first drive. *)
Lemma boot_regs f n : 0 <= n < 2 ^ 28 ->
  let g := upd (upd (upd (upd (upd f 0x1f2 (u8 1)) 0x1f3 (u8 n)) 0x1f4 (u8 (Z.shiftr n 8))) 0x1f5 (u8 (Z.shiftr n 16)))
    0x1f6 (u8 (Z.lor (Z.shiftr n 24) 0xE0)) in
  reg_drive g = 0 /\ reg_sector g = n.
Proof.
  intros Hn g. set (h := Z.shiftr n 24). assert (0 <= h < 16) as Hh by (unfold h; rewrite Z.shiftr_div_pow2 by lia; split; [apply Z.div_pos; lia|apply Z.div_lt_upper_bound; lia]).
  assert (forallb (fun h => (Z.land (Z.shiftr (u8 (Z.lor h 0xE0)) 4) 1 =? 0) && (Z.land (u8 (Z.lor h 0xE0)) 0x0f =? h)) (seqZ 0 16) = true) as Hall by (vm_compute; reflexivity).
  rewrite forallb_forall in Hall. specialize (Hall h). rewrite <- list_elem_of_In, elem_of_seqZ in Hall. specialize (Hall ltac:(lia)).
  apply andb_true_iff in Hall as [H1 H2]. apply Z.eqb_eq in H1, H2. split; [exact H1|].
  change (u8 n + 2 ^ 8 * u8 (Z.shiftr n 8) + 2 ^ 16 * u8 (Z.shiftr n 16) + 2 ^ 24 * Z.land (u8 (Z.lor h 0xE0)) 0x0f = n). rewrite H2. unfold h, u8.
  rewrite !Z.shiftr_div_pow2 by lia. change (2 ^ 8) with 256. change (2 ^ 16) with 65536. change (2 ^ 24) with 16777216.
  assert (n / 256 / 256 = n / 65536) as E1 by (by rewrite Z.div_div). assert (n / 65536 / 256 = n / 16777216) as E2 by (by rewrite Z.div_div).
  pose proof (Z.div_mod n 256 ltac:(lia)). pose proof (Z.div_mod (n / 256) 256 ltac:(lia)). pose proof (Z.div_mod (n / 65536) 256 ltac:(lia)). lia.
Qed.

Section Facts.
Context {D : Type} `{DL : DiskLaws D} (fuel : nat) (Hfuel : (max_polls < fuel)%nat).
Implicit Types (s : loader D).
Abbreviation disk s := (hd (ld_dev s)).

Lemma wait_ok : forall n k s, hd_polls (disk s) = n -> (n < k)%nat ->
  exists s', wait_loop k s = Ret tt s' /\ ld_mem s' = ld_mem s /\ disk s' = mkHd (hd_sectors (disk s)) (hd_regs (disk s)) (hd_job (disk s)) 0.
Proof.
  induction n as [|n IH]; intros [|k] s Hn Hk; try lia; cbn [wait_loop]; unfold bind, boot_in; cbn [bindR].
  all: pose proof (hd_status (ld_dev s)) as Hst; cbv zeta in Hst; rewrite Hn in Hst; destruct Hst as [Hv Hst].
  - destruct Hst as [Hr _]. change (Z.lor IDE_BSY IDE_DRDY) with 0xC0 in Hr. rewrite Hr. cbn. eexists. split; [reflexivity|]. split; [done|]. cbn [ld_dev]. rewrite Hv.
    destruct (disk s) as [a b c d]. cbn in Hn. by subst d.
  - change (Z.lor IDE_BSY IDE_DRDY) with 0xC0 in Hst. change IDE_DRDY with 0x40 in Hst. rewrite (proj2 (Z.eqb_neq _ _)) by done. cbn [negb].
    destruct (IH k (mkLoader (ld_mem s) (snd (dev_in 0x1F7 (ld_dev s))))) as (s' & E & Hm & Hd); [cbn [ld_dev]; by rewrite Hv|lia|].
    exists s'. split; [exact E|]. split; [done|]. cbn [ld_dev] in Hd. rewrite Hv in Hd. done.
Qed.

Lemma waitdisk_ok s : exists s', waitdisk fuel s = Ret tt s' /\ ld_mem s' = ld_mem s /\
  disk s' = mkHd (hd_sectors (disk s)) (hd_regs (disk s)) (hd_job (disk s)) 0.
Proof using Hfuel. apply (wait_ok _ fuel s eq_refl). pose proof (hd_busy (ld_dev s)). lia. Qed.

Lemma readsect_ok dst n s : 0 <= n < 2 ^ 28 ->
  exists s', readsect fuel dst n s = Ret tt s' /\ ld_mem s' = write_bytes (ld_mem s) dst (hd_sectors (disk s) 0 n) /\ hd_sectors (disk s') = hd_sectors (disk s).
Proof using Hfuel.
  intros Hn. unfold readsect. destruct (waitdisk_ok s) as (s1 & E1 & M1 & D1). rewrite (bind_Ret _ _ _ _ _ E1).
  set (d1 := dev_out 0x1F2 (u8 1) (ld_dev s1)). set (d2 := dev_out 0x1F3 (u8 n) d1). set (d3 := dev_out 0x1F4 (u8 (Z.shiftr n 8)) d2).
  set (d4 := dev_out 0x1F5 (u8 (Z.shiftr n 16)) d3). set (d5 := dev_out 0x1F6 (u8 (Z.lor (Z.shiftr n 24) 0xE0)) d4).
  destruct (boot_regs (hd_regs (disk s)) n Hn) as [G1 G2]. set (g := upd _ 0x1f6 _) in *.
  assert (hd d5 = mkHd (hd_sectors (disk s)) g (hd_job (disk s)) 0) as D5.
  { unfold d5, d4, d3, d2, d1. rewrite !hd_reg by lia. rewrite D1. done. }
  destruct (hd_cmd_read d5) as [k Hk]; [by rewrite D5|]. rewrite D5 in Hk. cbn [hd_sectors hd_regs] in Hk. rewrite G1, G2 in Hk.
  set (s2 := mkLoader (ld_mem s1) (dev_out 0x1F7 IDE_CMD_READ d5)). destruct (waitdisk_ok s2) as (s3 & E3 & M3 & D3).
  cbn [s2 ld_dev] in D3. rewrite Hk in D3. cbn [hd_sectors hd_regs hd_job] in D3.
  destruct (hd_read (ld_dev s3) 0 n) as (j & R1 & R2); [by rewrite D3|by rewrite D3|]. rewrite D3 in R1, R2. cbn [hd_sectors hd_regs] in R1, R2.
  exists (mkLoader (write_bytes (ld_mem s3) dst (fst (dev_insl 0x1f0 128 (ld_dev s3)))) (snd (dev_insl 0x1f0 128 (ld_dev s3)))). split; [|split].
  - change ((boot_out 0x1F2 1 ;;; _)%kern s1) with ((waitdisk fuel ;;; boot_insl dst)%kern s2). rewrite (bind_Ret _ _ _ _ _ E3). done.
  - cbn [ld_mem]. rewrite R1, M3. cbn [s2 ld_mem]. by rewrite M1.
  - cbn [ld_dev]. by rewrite R2.
Qed.

(** ** Segments *)

Context (A : sectors) (HA : forall n, length (A 0 n) = 512%nat).

(** The bytes of the kernel file. *)
Definition img (k : Z) : Z := nth (Z.to_nat (k mod 512)) (A 0 (1 + k / 512)) 0.

(** The sectors of [x] bytes. *)
Definition sects (x : Z) : Z := (x + 511) / 512.

Lemma sects_step x : sects x = 1 + sects (x - 512).
Proof. unfold sects. replace (x + 511) with (x - 512 + 511 + 1 * 512) by lia. rewrite Z.div_add by lia. lia. Qed.

Lemma sects_none x : -512 < x <= 0 -> sects x = 0.
Proof. intros Hx. apply Z.div_small. lia. Qed.

Lemma sects_range x : x <= 512 * sects x < x + 512.
Proof. unfold sects. pose proof (Z.div_mod (x + 511) 512 ltac:(lia)). pose proof (Z.mod_pos_bound (x + 511) 512 ltac:(lia)). lia. Qed.

Lemma img_sector n r : 0 <= r < 512 -> img (512 * (n - 1) + r) = nth (Z.to_nat r) (A 0 n) 0.
Proof.
  intros Hr. unfold img. replace ((512 * (n - 1) + r) / 512) with (n - 1) by (apply Z.div_unique with r; lia).
  replace ((512 * (n - 1) + r) mod 512) with r by (apply Z.mod_unique with (n - 1); lia). do 2 f_equal. lia.
Qed.

Lemma readseg_loop_ok : forall k pa epa n s, hd_sectors (disk s) = A -> 0 <= pa < epa + 512 -> epa + 512 < 2 ^ 32 -> 1 <= n ->
  n + sects (epa - pa) < 2 ^ 28 -> sects (epa - pa) < Z.of_nat k ->
  exists s', readseg_loop fuel k pa epa n s = Ret tt s' /\ hd_sectors (disk s') = A /\
    forall a, ld_mem s' a = if in_range pa (512 * sects (epa - pa)) a then img (512 * (n - 1) + (a - pa)) else ld_mem s a.
Proof using Hfuel HA.
  induction k as [|k IH]; intros pa epa n s Hs Hpa He Hn Hmax Hk.
  { pose proof (sects_range (epa - pa)). lia. }
  cbn [readseg_loop]. destruct (Z.ltb_spec pa epa) as [Hlt|Hge].
  - rewrite sects_step in Hmax, Hk. pose proof (sects_range (epa - pa - 512)) as Hsr. destruct (readsect_ok pa n s) as (s1 & E1 & M1 & D1); [lia|].
    rewrite (bind_Ret _ _ _ _ _ E1). unfold SECTSIZE. rewrite !u32_id by lia.
    destruct (IH (pa + 512) epa (n + 1) s1) as (s2 & E2 & D2 & M2); try (congruence || lia).
    { replace (epa - (pa + 512)) with (epa - pa - 512) by lia. lia. }
    { replace (epa - (pa + 512)) with (epa - pa - 512) by lia. lia. }
    exists s2. split; [done|]. split; [done|]. intros a. rewrite M2, M1, write_bytes_lem, Hs, HA. rewrite (sects_step (epa - pa)).
    replace (epa - (pa + 512)) with (epa - pa - 512) by lia. unfold in_range. change (Z.of_nat 512) with 512.
    destruct (Z.leb_spec (pa + 512) a), (Z.ltb_spec a (pa + 512 + 512 * sects (epa - pa - 512))), (Z.leb_spec pa a), (Z.ltb_spec a (pa + 512 * (1 + sects (epa - pa - 512)))),
      (Z.ltb_spec a (pa + 512)); cbn [andb]; try lia; try done;
      first [symmetry; apply img_sector; lia|f_equal; lia].
  - rewrite sects_none in * by lia. exists s. split; [done|]. split; [done|]. intros a. unfold in_range.
    destruct (Z.leb_spec pa a), (Z.ltb_spec a (pa + 512 * 0)); try lia; done.
Qed.

(** The bytes that reading a segment changes. *)
Definition first_byte (pa off : Z) : Z := pa - off mod 512.
Definition bytes_read (count off : Z) : Z := 512 * sects (count + off mod 512).

Lemma readseg_ok pa count off s : hd_sectors (disk s) = A -> 0 <= first_byte pa off -> 0 <= count -> pa + count + 512 < 2 ^ 32 -> 0 <= off ->
  off + count + 1024 < 2 ^ 37 ->
  exists s', readseg fuel pa count off s = Ret tt s' /\ hd_sectors (disk s') = A /\
    forall a, ld_mem s' a = if in_range (first_byte pa off) (bytes_read count off) a then img (off + (a - pa)) else ld_mem s a.
Proof using Hfuel HA.
  intros Hs Hlo Hc He Ho Hmax. unfold first_byte, bytes_read in *. pose proof (Z.div_mod off 512 ltac:(lia)) as Hdm. pose proof (Z.mod_pos_bound off 512 ltac:(lia)) as Hm.
  assert (0 <= off / 512) as Hq by (apply Z.div_pos; lia). unfold readseg. cbv zeta. unfold SECTSIZE. rewrite !u32_id by lia.
  pose proof (Z.div_mod count 512 ltac:(lia)). pose proof (Z.mod_pos_bound count 512 ltac:(lia)). pose proof (sects_range (count + off mod 512)).
  destruct (readseg_loop_ok (Z.to_nat (count / 512 + 3)) (pa - off mod 512) (pa + count) (off / 512 + 1) s Hs) as (s' & E & D' & M); try lia.
  { replace (pa + count - (pa - off mod 512)) with (count + off mod 512) by lia. lia. }
  { replace (pa + count - (pa - off mod 512)) with (count + off mod 512) by lia. lia. }
  exists s'. split; [done|]. split; [done|]. intros a. rewrite M. replace (pa + count - (pa - off mod 512)) with (count + off mod 512) by lia.
  replace (512 * (off / 512 + 1 - 1) + (a - (pa - off mod 512))) with (off + (a - pa)) by lia. done.
Qed.

(** *** Program headers *)

(** A segment as the file describes it. *)
Record segment := mkSegment { sg_pa : Z; sg_filesz : Z; sg_memsz : Z; sg_off : Z }.
Definition img_word (k : Z) : Z := load_word img k.
Definition segment_at (q : Z) : segment := mkSegment (img_word (q + 12)) (img_word (q + 16)) (img_word (q + 20)) (img_word (q + 4)).

(** The memory it is for, and the memory that loading it changes. *)
Definition sg_size (g : segment) : Z := Z.max (sg_filesz g) (sg_memsz g).
Definition within (g : segment) (a : Z) : Prop := sg_pa g <= a < sg_pa g + sg_size g.
Definition touched (g : segment) (a : Z) : Prop :=
  first_byte (sg_pa g) (sg_off g) <= a < first_byte (sg_pa g) (sg_off g) + bytes_read (sg_filesz g) (sg_off g) \/ within g a.

(** It fits the address space, and is away from the page with the headers. *)
Record segment_ok (g : segment) : Prop := {
  so_first : 0 <= first_byte (sg_pa g) (sg_off g);
  so_file : 0 <= sg_filesz g;
  so_off : 0 <= sg_off g;
  so_last : sg_pa g + sg_size g + 512 < 2 ^ 32;
  so_disk : sg_off g + sg_filesz g + 1024 < 2 ^ 37;
  so_apart : forall a, touched g a -> a < 0x10000 \/ 0x11000 <= a
}.

(** The segment is in memory, and zero after the end of the file. *)
Definition loaded (m : memory) (g : segment) : Prop :=
  forall i, 0 <= i < sg_size g -> m (sg_pa g + i) = if i <? sg_filesz g then img (sg_off g + i) else 0.

(** The first page of the file is at 0x10000. *)
Definition headers (m : memory) : Prop := forall k, 0 <= k < 4096 -> m (0x10000 + k) = img k.

Lemma header_word m k : headers m -> 0 <= k <= 4092 -> load_word m (0x10000 + k) = img_word k.
Proof. intros Hh Hk. unfold img_word, load_word. rewrite <- !Z.add_assoc, !Hh by lia. done. Qed.

Lemma header_magic m : headers m -> load_word m 0x10000 = img_word 0.
Proof. intros Hh. by apply (header_word m 0). Qed.

Lemma headers_keep m m' : headers m -> (forall a, 0x10000 <= a < 0x11000 -> m' a = m a) -> headers m'.
Proof. intros Hh Hs k Hk. rewrite Hs by lia. by apply Hh. Qed.

(** The bytes of the file, then the zeroes. *)
Lemma segment_bytes m g m1 m2 : segment_ok g ->
  (forall a, m1 a = if in_range (first_byte (sg_pa g) (sg_off g)) (bytes_read (sg_filesz g) (sg_off g)) a then img (sg_off g + (a - sg_pa g)) else m a) ->
  (forall a, m2 a = if in_range (sg_pa g + sg_filesz g) (sg_memsz g - sg_filesz g) a then 0 else m1 a) ->
  loaded m2 g /\ forall a, ~ touched g a -> m2 a = m a.
Proof.
  intros [G1 G2 G3 _ _ _] M1 M2. pose proof (Z.mod_pos_bound (sg_off g) 512 ltac:(lia)) as Hm.
  pose proof (sects_range (sg_filesz g + sg_off g mod 512)) as Hsr. split.
  - intros i Hi. unfold sg_size in Hi. rewrite M2, M1. unfold first_byte, bytes_read. destruct (Z.ltb_spec i (sg_filesz g)).
    + rewrite (proj2 (in_range_false _ _ _)), (proj2 (in_range_spec _ _ _)) by lia. f_equal. lia.
    + by rewrite (proj2 (in_range_spec _ _ _)) by lia.
  - intros a Ha. unfold touched, within, sg_size, first_byte, bytes_read in Ha. rewrite M2, M1. unfold first_byte, bytes_read. by rewrite !(proj2 (in_range_false _ _ _)) by lia.
Qed.

Lemma load_segment_ok q s : hd_sectors (disk s) = A -> headers (ld_mem s) -> 0 <= q -> q + 32 <= 4096 -> let g := segment_at q in segment_ok g ->
  exists s', load_segment fuel (0x10000 + q) s = Ret tt s' /\ hd_sectors (disk s') = A /\ loaded (ld_mem s') g /\
    forall a, ~ touched g a -> ld_mem s' a = ld_mem s a.
Proof using Hfuel HA.
  intros Hs Hh Hq Hq' g Hg. pose proof Hg as [G1 G2 G3 G4 G5 G6]. unfold load_segment. rewrite bind_gets. cbv zeta. unfold prog_paddr, prog_filesz, prog_memsz, prog_off.
  rewrite <- !Z.add_assoc, !(header_word (ld_mem s)) by (done || lia).
  change (img_word (q + 12)) with (sg_pa g). change (img_word (q + 16)) with (sg_filesz g). change (img_word (q + 4)) with (sg_off g).
  unfold sg_size in G4. destruct (readseg_ok (sg_pa g) (sg_filesz g) (sg_off g) s Hs) as (s1 & E1 & D1 & M1); try (done || lia).
  rewrite (bind_Ret _ _ _ _ _ E1), bind_gets.
  assert (headers (ld_mem s1)) as Hh1.
  { apply (headers_keep (ld_mem s)); [done|]. intros a Ha. rewrite M1. unfold in_range. destruct (_ && _) eqn:E; [|done].
    apply andb_true_iff in E as [E2 E3]. apply Z.leb_le in E2. apply Z.ltb_lt in E3. destruct (G6 a); [by left; lia|lia|lia]. }
  rewrite !(header_word (ld_mem s1)) by (done || lia). change (img_word (q + 16)) with (sg_filesz g). change (img_word (q + 20)) with (sg_memsz g).
  set (s2 := if sg_filesz g <? sg_memsz g then mkLoader (stosb (ld_mem s1) (u32 (sg_pa g + sg_filesz g)) 0 (Z.to_nat (sg_memsz g - sg_filesz g))) (ld_dev s1) else s1).
  exists s2. split; [unfold s2, when; by destruct (sg_filesz g <? sg_memsz g)|]. split; [unfold s2; by destruct (sg_filesz g <? sg_memsz g)|].
  apply (segment_bytes (ld_mem s) g (ld_mem s1)); [done|done|]. intros a. unfold s2. destruct (Z.ltb_spec (sg_filesz g) (sg_memsz g)) as [Hb|Hb].
  - cbn [ld_mem]. unfold first_byte in G1. pose proof (Z.mod_pos_bound (sg_off g) 512 ltac:(lia)). rewrite stosb_spec, u32_id, Z2Nat.id by lia. done.
  - by rewrite (proj2 (in_range_false _ _ _)) by lia.
Qed.

(** The segments of [n] program headers from [q] on. *)
Fixpoint segments (n : nat) (q : Z) : list segment :=
  match n with
  | O => []
  | S n => segment_at q :: segments n (q + 32)
  end.

(** No segment is loaded over one that was loaded before it. *)
Fixpoint in_order (gs : list segment) : Prop :=
  match gs with
  | [] => True
  | g :: gs => (forall h a, In h gs -> touched h a -> ~ within g a) /\ in_order gs
  end.

Lemma load_segments_ok : forall n q s, hd_sectors (disk s) = A -> headers (ld_mem s) -> 0 <= q -> q + 32 * Z.of_nat n <= 4096 ->
  let gs := segments n q in (forall g, In g gs -> segment_ok g) -> in_order gs ->
  exists s', load_segments fuel (S n) (0x10000 + q) (0x10000 + q + 32 * Z.of_nat n) s = Ret tt s' /\ hd_sectors (disk s') = A /\
    (forall g, In g gs -> loaded (ld_mem s') g) /\ forall a, (forall g, In g gs -> ~ touched g a) -> ld_mem s' a = ld_mem s a.
Proof using Hfuel HA.
  induction n as [|n IH]; intros q s Hs Hh Hq Hn gs Hok Hord; cbn [load_segments].
  - rewrite (proj2 (Z.ltb_ge _ _)) by lia. by exists s.
  - rewrite (proj2 (Z.ltb_lt _ _)) by lia. subst gs. cbn [segments in_order] in *. destruct Hord as [Hapart Hord]. set (g := segment_at q) in *.
    destruct (load_segment_ok q s Hs Hh Hq ltac:(lia) (Hok _ (or_introl eq_refl))) as (s1 & E1 & D1 & L1 & F1). rewrite (bind_Ret _ _ _ _ _ E1). fold g in L1, F1.
    unfold sizeof_proghdr. rewrite u32_id by lia.
    destruct (IH (q + 32) s1 D1) as (s2 & E2 & D2 & L2 & F2); [|lia|lia|by intros h Hh'; apply Hok; right|done|].
    { apply (headers_keep (ld_mem s)); [done|]. intros a Ha. apply F1. intros Ht. destruct (so_apart _ (Hok _ (or_introl eq_refl)) a Ht); lia. }
    exists s2. replace (0x10000 + q + 32) with (0x10000 + (q + 32)) by lia.
    replace (0x10000 + q + 32 * Z.of_nat (S n)) with (0x10000 + (q + 32) + 32 * Z.of_nat n) by lia. split; [exact E2|]. split; [done|]. split.
    + intros h [<-|Hh']; [|by apply L2]. intros i Hi. rewrite F2; [by apply L1|]. intros h Hh' Ht. apply (Hapart h _ Hh' Ht). unfold within. lia.
    + intros a Ha. rewrite F2 by (intros h Hh'; apply Ha; by right). apply F1, Ha. by left.
Qed.

(** *** The loader *)

Definition img_phoff : Z := img_word 28.
Definition img_phnum : Z := load_half img 44.
Definition img_segments : list segment := segments (Z.to_nat img_phnum) img_phoff.

(** Reading the first page of the file. *)
Lemma headers_read s : hd_sectors (disk s) = A ->
  exists s', readseg fuel 0x10000 4096 0 s = Ret tt s' /\ hd_sectors (disk s') = A /\ headers (ld_mem s') /\
    forall a, a < 0x10000 \/ 0x11000 <= a -> ld_mem s' a = ld_mem s a.
Proof using Hfuel HA.
  intros Hs. destruct (readseg_ok 0x10000 4096 0 s Hs) as (s1 & E1 & D1 & M1); try (done || lia).
  change (first_byte 0x10000 0) with 0x10000 in M1. change (bytes_read 4096 0) with 4096 in M1.
  exists s1. split; [done|]. split; [done|]. split.
  - intros k Hk. rewrite M1, (proj2 (in_range_spec _ _ _)) by lia. f_equal. lia.
  - intros a Ha. by rewrite M1, (proj2 (in_range_false _ _ _)) by lia.
Qed.

(** A file that is not an ELF executable is not loaded: [bootmain] returns to bootasm.S. *)
Theorem bootmain_rejects s : hd_sectors (disk s) = A -> img_word 0 <> ELF_MAGIC -> exists s', bootmain fuel s = Ret None s'.
Proof using Hfuel HA.
  intros Hs Hm. destruct (headers_read s Hs) as (s1 & E1 & D1 & Hh & _). exists s1. unfold bootmain. rewrite (bind_Ret _ _ _ _ _ E1), bind_gets.
  rewrite (header_magic _ Hh). by rewrite (proj2 (Z.eqb_neq _ _) Hm).
Qed.


End Facts.

(** ** An example *)

(** A kernel with two segments: six bytes and four zeroes at 0x100000, and three bytes at
    0x100406, which begin inside a sector. *)
Definition sector_of (bs : list Z) : list Z := bs ++ repeat 0 (512 - length bs).
Definition phdr (off pa filesz memsz : Z) : list Z := flat_map (le_bytes 4) [1; off; pa; pa; filesz; memsz; 0; 0x1000].
Definition kernel_disk : sectors := fun _ n =>
  sector_of
    match n with
    | 1 => le_bytes 4 ELF_MAGIC ++ repeat 0 20 ++ le_bytes 4 0x100002 ++ le_bytes 4 52 ++ repeat 0 12 ++ le_bytes 2 2 ++ repeat 0 6 ++
           phdr 512 0x100000 6 10 ++ phdr 1030 0x100406 3 3
    | 2 => [1; 2; 3; 4; 5; 6]
    | 3 => [0; 0; 0; 0; 0; 0; 7; 8; 9]
    | _ => []
    end.
Definition boot_state : loader drive := mkLoader (fun _ => 0xcc) (mkDrive kernel_disk (fun _ => 0) Idle false).

Lemma kernel_sectors n : length (kernel_disk 0 n) = 512%nat.
Proof. unfold kernel_disk. destruct n as [|[[| |]|[| |]|]|]; reflexivity. Qed.

Lemma kernel_segments : img_segments kernel_disk = [mkSegment 0x100000 6 10 512; mkSegment 0x100406 3 3 1030].
Proof. vm_compute. reflexivity. Qed.

Ltac segment_sample := unfold touched, within; vm_compute (first_byte _ _); vm_compute (bytes_read _ _); vm_compute (sg_size _); cbn [sg_pa]; lia.

Lemma kernel_segments_ok g : In g (img_segments kernel_disk) -> segment_ok g.
Proof. rewrite kernel_segments. intros [<-|[<-|[]]]; (split; [by vm_compute..|]); intros a; segment_sample. Qed.

Lemma kernel_in_order : in_order (img_segments kernel_disk).
Proof. rewrite kernel_segments. split; [|cbn; split; [by intros|done]]. intros h a [<-|[]]. segment_sample. Qed.

